(* ===== verification/_CoqProject ===== *)
-Q . S2P
Prelude.v
Lists.v
Text.v
Ids.v
Process.v
Mut.v
Capability.v
Mutation.v
MutationLaws.v
Decision.v
Plan.v
Config.v
Policy.v
Specs.v
Resolver.v
Kahn.v
Finalize.v
FinalizeLaws.v
ResolutionLaws.v
Render.v
Digest.v
Str.v
Topology.v
Isolation.v
TopologyNormal.v
IsolationLaws.v
Resolution.v
Session.v
Protocol.v
Record.v
RecordInvariant.v
Wire.v
Checksum.v
Codec.v
CodecLaws.v
StateFile.v
Ports.v
Engine.v
EngineTrace.v
EngineOutcome.v
EngineResult.v
EngineSession.v
EngineHost.v
EngineExact.v
Privilege.v
PrivilegeLaws.v
Registry.v
FileSystem.v
FsLogic.v
StateStore.v
Lock.v
StoreAtomic.v
StoreRefine.v
LockSafety.v
LockAcquire.v
Testkit.v
Cpu.v
CpuLaws.v
CpuFixture.v
CpuSysfs.v
CpuSysfsLaws.v
Workload.v
WorkloadText.v
CgroupFixture.v
CgroupSysfs.v
Logging.v
ReadPorts.v
Discovery.v
DiscoveryState.v
ReadPortsLaws.v
DiscoveryLaws.v
DiscoveryStateLaws.v
WorkloadLaws.v
CgroupSysfsLaws.v
CpuWitnesses.v
WorkloadWitnesses.v
Witnesses.v
PlannerWitnesses.v
StoreWitnesses.v
DiscoveryWitnesses.v
