(* ===== verification/Prelude.v ===== *)
(** * Sysboost: a verification library

    Sysboost changes CPU and process tunables of a Linux host for a while and
    puts them back.  An unprivileged controller plans what to change; a
    privileged helper captures the present value of every control, makes the
    intent durable, applies, reads back, and restores each control it still
    owns, after a crash too.  This library models the Rust workspace under
    [src/crates/] and proves what makes that safe.

    ** The parts and where they are modelled

    - Vocabulary ([sysboost-core]): [Ids] (ids.rs, time.rs, error.rs),
      [Capability] (capability.rs), [Mutation] and [MutationLaws]
      (mutation.rs): every newtype is a module with the constructor of the
      source and the invariant [wf] its private field guarantees.
    - Plans ([sysboost-core]): [Plan] (plan.rs), [Decision]
      (planner.rs: decisions and contracts).
    - Planner ([sysboost-core/planner.rs]): [Policy] (policy, facts, catalog),
      [Specs] (feature specifications), [Resolver] (the decision for a
      specification and target), [Kahn] and [Finalize] (dependencies, order
      and numbering), [Render] (dry-run text), [Digest] (digests and
      [TypedPlanner]).  [FinalizeLaws], [ResolutionLaws] carry
      the lemmas, [Resolution] the theorems.
    - Sessions ([sysboost-core]): [Session] (session.rs), [Record],
      [RecordInvariant] (transaction.rs: records and their
      validation), [Wire], [Checksum], [Codec], [CodecLaws],
      [StateFile] (transaction.rs: the state file).
    - Transaction engine ([sysboost-platform/transaction.rs]): [Ports] (the
      traits of backend.rs, state.rs, clock.rs as type classes, with the laws
      an implementation promises), [Engine] (every method), [Registry]
      (backend.rs: the backend registry, itself a backend).  [EngineTrace],
      [EngineOutcome], [EngineResult], [EngineSession],
      [EngineHost], [EngineExact] prove the engine correct against the port
      classes only.
    - Privilege boundary: [Protocol] ([sysboost-protocol]), [Privilege] and
      [PrivilegeLaws] ([sysboost-platform/privilege.rs]): frames of a local
      peer in front of the engine.
    - Durable state: [FileSystem] (system calls on a disk), [StateStore]
      (state.rs: the file store, an instance of the store port), [Process]
      (process.rs), [Lock] (process.rs: probing; state.rs: the process lock
      and the ID source).  [FsLogic] is a crash logic for programs on the
      disk; [StoreAtomic], [StoreRefine], [LockSafety] (which starts with a
      logic for processes that share the disk) and [LockAcquire] prove the
      store and the lock.
    - CPU topology ([sysboost-linux/topology.rs] and the facts of
      discovery.rs): [Topology] (facts, CPU lists, normalization, core
      groups), [Isolation] (soft isolation: selection, masks, revalidation,
      the cpuset mutation).  [TopologyNormal] and [IsolationLaws] prove them.
    - CPU backend ([sysboost-linux/cpu.rs]): [Cpu] (the nodes, the port
      [CpuControlIo] as a class, every stage of the backend, detection and
      catalog), [CpuFixture] and [CpuSysfs] (the two ports: in memory, and the
      sysfs tree).  [CpuLaws] proves the backend over every port that keeps
      [CpuIoLaws], and that it is a host in the sense of the engine
      ([cpu_host_laws]); [CpuSysfsLaws] that the sysfs port keeps them over
      any kernel that leaves other files alone ([Kernel.laws]), and the order
      of the writes of a frequency range.
    - Workload backend ([sysboost-linux/workload.rs]): [Workload] (the closed
      cgroup nodes, the port [WorkloadControlIo] as a class, every stage of
      the backend), [WorkloadText] (control file text), [CgroupFixture] and
      [CgroupSysfs] (the two ports: in memory, and cgroup v2 with procfs).
      [WorkloadLaws] proves the backend over any port and over the fixture;
      [CgroupSysfsLaws] the adapter.  The backend is not a host in the sense of
      the engine ([workload_backend_is_no_host]).
    - Reading a host: [ReadPorts] ([sysboost-platform/filesystem.rs],
      [sysboost-linux/fs.rs, sysfs.rs, procfs.rs, cgroup.rs, backend.rs]): paths,
      the read-only port, the in-memory file systems, the adapter rooted at a
      directory, the closed nodes, the report-only backend.  [Discovery] and
      [DiscoveryState] ([sysboost-linux/discovery.rs]): the probes, every
      detector, the inventory, the projection to the planner's facts; a panic of
      the source is [None].  [ReadPortsLaws], [DiscoveryLaws] and
      [DiscoveryStateLaws] prove them over any port.
    - Journal and logging: [Logging] ([sysboost-core/logging.rs],
      [sysboost-platform/logging.rs, journal.rs]), with its theorem.
    - Configuration: [Config] ([sysboost-config]).
    - In-memory ports: [Testkit] ([sysboost-testkit]), the concrete ports the
      engine's theorems are applied to; its file system is in [ReadPorts], its
      journal in [Logging].
    - [Witnesses] (engine, state file), [PlannerWitnesses] (planner and
      topology), [StoreWitnesses] (store, lock, privilege boundary),
      [CpuWitnesses], [WorkloadWitnesses], [DiscoveryWitnesses]: concrete runs.
    - Shared: [Prelude] (results, notation, tactics), [Lists] (lists, orders,
      [BTreeMap] and [BTreeSet]), [Text] and [Str] (the parts of
      [str] and [u8] the program uses), [Mut] (the state-and-error monad of
      [&mut self] methods, and what every run of such a method keeps).

    ** How code becomes definitions

    A method that takes [&mut self] is a [Mut] computation: it returns its
    result together with the final state, on the error path too.  Integers
    are [N] or [Z] with the width written as the type ([u32], [u64], ..), and
    wrap, saturate or check where the source does.  Strings are their UTF-8
    bytes.  Maps keyed by an ordered type are [gmap]s where only lookups
    matter and sorted lists where the source iterates.  Code outside the
    repository is a parameter: the derived [Debug] text of an operation, the
    ports the engine is generic over, the bytes of the entropy device.  The
    engine carries a ghost list of the calls it made on its ports ([trace]),
    which no method reads.

    ** What the theorems show

    - Over a backend that keeps the contract [HostLaws] of its port, as the CPU
      backend does, the engine restores exactly: after a successful restore or
      crash recovery, and after a rollback that ended the session, every control
      has the value it had before [prepare] ([EngineExact]); write-ahead and
      compare-before-restore hold of every execution ([EngineTrace]); what
      each result promises ([EngineResult], [EngineSession]).
    - The planner plans only permitted mutations, answers every proposal,
      orders by dependencies, reports a cycle exactly when there is one, and
      its plans validate ([Resolution]); [Plan.validate] accepts exactly the
      topological orders ([Plan]).
    - State files round-trip, and a torn or damaged one is rejected
      ([StateFile]); what is decoded satisfies every invariant; what a session
      does to its record can always be encoded ([RecordInvariant]).
    - The file store is atomic and durable under failures at any call and
      power loss at any moment ([StoreAtomic]) and refines a map from IDs to
      records ([StoreRefine]), the scan being exact up to the records in files
      of names like [<id>.state.state], which no operation makes.  A held lock excludes all contenders in every
      interleaving ([LockSafety], [LockAcquire]); reclaiming a stale lock does
      not ([stale_lock_race]).
    - A frame reaches the engine only with a fresh ID from the expected peer
      and is then the one engine method of its request, on the approved plan it
      names or on a session bound to that peer ([PrivilegeLaws]); the wire codecs
      are exact ([Protocol]); configuration layers only restrict ([Config]).
    - A normalized topology is well-formed ([TopologyNormal]) and CPU lists
      round-trip ([TopologyNormal]).  Soft isolation keeps at least half of the
      physical cores for housekeeping, never splits a core, exists exactly
      where it can, and is applied only to the host it was planned for
      ([IsolationLaws]).
    - The CPU backend compares before it restores, reports each failed
      application truthfully and touches its own control only ([CpuLaws]);
      over a kernel that refuses a minimum above its maximum every accepted
      frequency range is reached ([CpuSysfsLaws]).
    - Over the cgroup fixture a restore undoes an application exactly, and its
      books agree in every reachable state ([WorkloadLaws]).  The cgroup
      adapter discovers a bounded set of real directories below the root and
      makes only the calls of the mutation at hand: the value to its one closed
      file, the managed directory it names, or a nice value; it does not move a process back, remove a group that
      shows controller files, or write back more than 64 CPUs
      ([CgroupSysfsLaws]).
    - The rooted adapter depends on nothing of the host outside its root
      ([ReadPortsLaws]).  Discovery fails only with its clock, and panics only
      over a graphics card whose name a path cannot hold; its inventory says
      of every finding what was found, and that a capability is available
      exactly when it was found supported and the CPU backend owns it
      ([DiscoveryLaws]).  The projection to the planner panics exactly on an
      energy preference or a clamp that an observed text cannot hold, and its
      governor facts are exactly the governors read ([DiscoveryStateLaws]).
    - Every line of the log reads back as its event, whatever text the event
      carries ([Logging]).

    ** Bounds and fuel

    [Plan.reaches_cycle] runs with the number of mutations plus one, which
    [reaches_cycle_total] proves enough; [Kahn.kahn] with the number of nodes,
    each of which is popped at most once ([cycle_error_iff]); the binary
    search of a CPU set with its length plus one; [trim_end_matches] with the
    length of the string; the discovery of cgroups with what the depth leaves
    of its bound of 4096, used up exactly when the source reports that the
    bound is exceeded; session IDs are drawn 32 times and the lock is tried
    twice, as in the source.

    ** Assumptions about the disk

    Symbolic links are not followed (the source opens with [O_NOFOLLOW] or
    checks first), a permission failure is one of the failures a schedule may
    inject, inode numbers are not reused, a rename or a write becomes durable
    when the directory or the file is synchronised, and a directory is listed
    at one moment although the source iterates lazily.  The single-process
    theorems let the kernel fail any call; the lock's theorems let any number
    of contenders run in between as well.

    ** Not modelled

    The CPU port's resolution of its sysfs root ([CpuSysfs::new]); an error in
    the middle of a directory listing; a lock poisoned by a panic; the variants
    for systems other than Unix.  A read sees one state of the host, since a
    backend, or a run of discovery, is taken to run alone within one call.  The
    canonicalization of paths, file sizes and the text of operating-system
    errors are parameters.  The detect methods are not in the class of
    backends: the registry takes those of its backends as a list.  The binaries
    of the controller and the daemon print a message and exit; of the logger,
    standard error itself is not modelled.  Accessors and aliases that only
    return a field have no definition of their own. *)
From Stdlib Require Export NArith ZArith Lia.
From Stdlib Require Import Strings.Byte.
From stdpp Require Export base tactics gmap strings vector numbers option list.
#[export] Set Default Proof Using "Type".

(** ** The result monad *)

(** Rust's [Result]: the error type comes first so that [result E] is a
    monad in stdpp's sense. *)
Inductive result (E A : Type) :=
| Ok (a : A)
| Err (e : E).
Arguments Ok {_ _} _.
Arguments Err {_ _} _.

#[export] Instance result_eq_dec {E A} `{!EqDecision E, !EqDecision A} :
  EqDecision (result E A).
Proof. solve_decision. Defined.

#[export] Instance result_ret E : MRet (result E) := λ A a, Ok a.
#[export] Instance result_bind E : MBind (result E) := λ A B f r,
  match r with Ok a => f a | Err e => Err e end.
#[export] Instance result_fmap E : FMap (result E) := λ A B f r,
  match r with Ok a => Ok (f a) | Err e => Err e end.

(** Rust's [Result::map_err]. *)
Definition map_err {E F A} (f : E → F) (r : result E A) : result F A :=
  match r with Ok a => Ok a | Err e => Err (f e) end.

(** Rust's [Option::ok_or]. *)
Definition ok_or {E A} (o : option A) (e : E) : result E A :=
  match o with Some a => Ok a | None => Err e end.

(** Early return on a guard: [ensure c e] continues when [c] holds. *)
Definition ensure {E} (c : bool) (e : E) : result E unit :=
  if c then Ok tt else Err e.

Definition is_none {A} (o : option A) : bool :=
  match o with None => true | Some _ => false end.
Definition is_some {A} (o : option A) : bool := negb (is_none o).

Definition is_ok {E A} (r : result E A) : bool :=
  match r with Ok _ => true | Err _ => false end.

(** [for x in l { f(x)?; }] *)
Fixpoint for_each {E A} (f : A → result E unit) (l : list A) : result E unit :=
  match l with
  | [] => Ok tt
  | x :: l' => f x ≫= λ _, for_each f l'
  end.

(** Equality of results without computing their contents. *)
Lemma Ok_inj {E A} (a b : A) : @Ok E A a = Ok b → a = b.
Proof. congruence. Qed.

Lemma bind_Ok {E A B} (m : result E A) (f : A → result E B) (b : B) :
  m ≫= f = Ok b ↔ ∃ a, m = Ok a ∧ f a = Ok b.
Proof. destruct m; cbn; naive_solver. Qed.

Lemma bind_Ok_l {E A B} (m : result E A) (f : A → result E B) (a : A) :
  m = Ok a → m ≫= f = f a.
Proof. by intros ->. Qed.

Lemma map_err_Ok {E F A} (f : E → F) (m : result E A) (a : A) :
  map_err f m = Ok a ↔ m = Ok a.
Proof. destruct m; cbn; naive_solver. Qed.

Lemma ensure_Ok {E} (c : bool) (e : E) (u : unit) :
  ensure c e = Ok u ↔ c = true.
Proof. destruct c, u; simpl; naive_solver. Qed.

Lemma ensure_Err {E} (c : bool) (e e' : E) :
  ensure c e = Err e' ↔ c = false ∧ e' = e.
Proof. destruct c; simpl; naive_solver. Qed.

Lemma ok_or_Ok {E A} (o : option A) (e : E) (a : A) :
  ok_or o e = Ok a ↔ o = Some a.
Proof. destruct o; simpl; naive_solver. Qed.

Lemma for_each_Ok {E A} (f : A → result E unit) (l : list A) :
  for_each f l = Ok tt ↔ Forall (λ x, f x = Ok tt) l.
Proof.
  induction l as [|x l IH]; cbn [for_each]; [by rewrite Forall_nil|].
  rewrite bind_Ok, Forall_cons. setoid_rewrite IH.
  split; [by intros [[] ?]|]. intros [??]. by exists tt.
Qed.

(** [inv_res] opens every successful bind, guard and [map_err] in the
    context. *)
Ltac inv_res :=
  repeat match goal with
  | H : Ok _ = Ok _ |- _ => injection H as H; subst
  | H : Err _ = Err _ |- _ => injection H as H; subst
  | H : Ok _ = Err _ |- _ => discriminate H
  | H : Err _ = Ok _ |- _ => discriminate H
  | H : mret _ = Ok _ |- _ => unfold mret, result_ret in H
  | H : mbind _ _ = Ok _ |- _ =>
      apply bind_Ok in H; let a := fresh "a" in destruct H as (a & ? & H)
  | H : map_err _ _ = Ok _ |- _ => apply map_err_Ok in H
  | H : ensure _ _ = Ok _ |- _ => apply ensure_Ok in H
  | H : ok_or _ _ = Ok _ |- _ => apply ok_or_Ok in H
  | u : unit |- _ => destruct u
  end.

(** ** Machine integers *)

(** Unsigned machine integers are values of [N]; the type invariant of a
    [w]-bit one is [fits w n]. *)
Notation u8 := N (only parsing).
Notation u16 := N (only parsing).
Notation u32 := N (only parsing).
Notation u64 := N (only parsing).
Notation u128 := N (only parsing).
Notation usize := N (only parsing).
Notation i8 := Z (only parsing).
Notation i64 := Z (only parsing).

Definition fits (w n : N) : Prop := (n < 2 ^ w)%N.
#[export] Instance fits_dec w n : Decision (fits w n).
Proof. unfold fits. apply _. Defined.

Definition fits_signed (w : Z) (z : Z) : Prop := (- 2 ^ (w - 1) <= z < 2 ^ (w - 1))%Z.

(** [wrapping_mul], [rotate_left] and [saturating_add] of [u64]. *)
Definition wrapping_mul64 (a b : u64) : u64 := ((a * b) mod 2 ^ 64)%N.
Definition rotate_left64 (a r : N) : u64 :=
  N.lor ((N.shiftl a (r mod 64)) mod 2 ^ 64) (N.shiftr a (64 - r mod 64)).
Definition saturating_add64 (a b : u64) : u64 := N.min (a + b) (2 ^ 64 - 1).
Definition checked_add64 (a b : u64) : option u64 :=
  if (a + b <? 2 ^ 64)%N then Some (a + b)%N else None.

(** ** Bytes and big-endian fields *)

#[export] Instance byte_eq_dec : EqDecision byte := Byte.byte_eq_dec.

Definition b2n (b : byte) : N := Byte.to_N b.
Definition n2b (n : N) : byte :=
  match Byte.of_N (n mod 256) with Some b => b | None => x00 end.

(** [to_be_bytes] of a [k]-byte unsigned integer. *)
Fixpoint to_be (k : nat) (n : N) : list byte :=
  match k with
  | O => []
  | S k' => n2b (N.shiftr n (8 * N.of_nat k')) :: to_be k' n
  end.

(** [from_be_bytes]. *)
Definition from_be (l : list byte) : N :=
  foldl (λ acc b, (acc * 256 + b2n b)%N) 0%N l.

(** Two's complement of an [i64]. *)
Definition i64_to_u64 (z : i64) : u64 := Z.to_N (z mod 2 ^ 64).
Definition u64_to_i64 (n : u64) : i64 :=
  if (n <? 2 ^ 63)%N then Z.of_N n else (Z.of_N n - 2 ^ 64)%Z.

Lemma b2n_lt b : (b2n b < 256)%N.
Proof. unfold b2n. pose proof (Byte.to_N_bounded b). lia. Qed.

Lemma b2n_n2b n : b2n (n2b n) = (n mod 256)%N.
Proof.
  unfold b2n, n2b. destruct (Byte.of_N (n mod 256)) eqn:E.
  - by apply Byte.to_of_N.
  - apply Byte.of_N_None_iff in E. pose proof (N.mod_lt n 256). lia.
Qed.

Lemma n2b_b2n b : n2b (b2n b) = b.
Proof.
  unfold n2b. rewrite N.mod_small by apply b2n_lt.
  unfold b2n. by rewrite Byte.of_to_N.
Qed.

Lemma b2n_inj b c : b2n b = b2n c → b = c.
Proof. intros H. by rewrite <-(n2b_b2n b), H, n2b_b2n. Qed.

#[export] Instance byte_countable : Countable byte.
Proof. apply (inj_countable' b2n n2b). apply n2b_b2n. Defined.

Lemma length_to_be k n : length (to_be k n) = k.
Proof. induction k; simpl; congruence. Qed.

Lemma from_be_app l b : from_be (l ++ [b]) = (from_be l * 256 + b2n b)%N.
Proof. unfold from_be. by rewrite foldl_app. Qed.

Lemma foldl_be_acc l acc :
  foldl (λ acc b, (acc * 256 + b2n b)%N) acc l
  = (acc * 256 ^ N.of_nat (length l) + from_be l)%N.
Proof.
  unfold from_be. revert acc. induction l as [|b l IH]; intros acc; cbn [foldl length].
  - lia.
  - rewrite IH, (IH (0 * 256 + b2n b)%N). rewrite Nat2N.inj_succ, N.pow_succ_r'. lia.
Qed.

Lemma from_be_cons b l :
  from_be (b :: l) = (b2n b * 256 ^ N.of_nat (length l) + from_be l)%N.
Proof. unfold from_be at 1. cbn [foldl]. rewrite foldl_be_acc. lia. Qed.

Lemma from_be_bound l : (from_be l < 256 ^ N.of_nat (length l))%N.
Proof.
  induction l as [|b l IH]; [simpl; unfold from_be; simpl; lia|].
  rewrite from_be_cons. simpl length. rewrite Nat2N.inj_succ, N.pow_succ_r'.
  pose proof (b2n_lt b). nia.
Qed.

Lemma from_to_be k n : from_be (to_be k n) = (n mod 256 ^ N.of_nat k)%N.
Proof.
  induction k as [|k IH]; [simpl; by rewrite N.mod_1_r|].
  cbn [to_be]. rewrite from_be_cons, length_to_be, IH, b2n_n2b.
  rewrite N.shiftr_div_pow2, Nat2N.inj_succ, N.pow_succ_r'.
  replace (2 ^ (8 * N.of_nat k))%N with (256 ^ N.of_nat k)%N
    by (rewrite N.pow_mul_r; done).
  rewrite (N.mul_comm 256), N.Div0.mod_mul_r. lia.
Qed.

Lemma from_to_be_small k w n :
  w = (8 * N.of_nat k)%N → fits w n → from_be (to_be k n) = n.
Proof.
  intros -> H. rewrite from_to_be, N.mod_small; [done|].
  unfold fits in H. by rewrite N.pow_mul_r in H.
Qed.

Lemma to_be_inj k w n m :
  w = (8 * N.of_nat k)%N → fits w n → fits w m →
  to_be k n = to_be k m → n = m.
Proof.
  intros Hw Hn Hm H. rewrite <-(from_to_be_small k w n Hw Hn).
  rewrite H. eauto using from_to_be_small.
Qed.

Lemma to_from_be l : to_be (length l) (from_be l) = l.
Proof.
  assert (∀ k x y, (x mod 256 ^ N.of_nat k = y mod 256 ^ N.of_nat k)%N →
    to_be k x = to_be k y) as Hcong.
  { induction k as [|k IH]; intros x y H; [done|]. cbn [to_be].
    rewrite Nat2N.inj_succ, N.pow_succ_r', (N.mul_comm 256) in H.
    rewrite !N.Div0.mod_mul_r in H.
    assert (256 ^ N.of_nat k ≠ 0)%N as Hk by (apply N.pow_nonzero; lia).
    pose proof (N.mod_lt x _ Hk). pose proof (N.mod_lt y _ Hk).
    assert (((x / 256 ^ N.of_nat k) mod 256
            = (y / 256 ^ N.of_nat k) mod 256)%N
            ∧ (x mod 256 ^ N.of_nat k = y mod 256 ^ N.of_nat k)%N) as [Hd Hm]
      by (apply (N.div_mod_unique (256 ^ N.of_nat k)); lia).
    f_equal; [|by apply IH]. apply b2n_inj. rewrite !b2n_n2b.
    rewrite !N.shiftr_div_pow2, N.pow_mul_r. exact Hd. }
  induction l as [|b l IH]; [done|]. simpl length. cbn [to_be].
  pose proof (from_be_bound l). rewrite from_be_cons. f_equal.
  - apply b2n_inj. rewrite b2n_n2b, N.shiftr_div_pow2, N.pow_mul_r.
    change (2 ^ 8)%N with 256%N.
    rewrite N.div_add_l by (apply N.pow_nonzero; lia).
    rewrite N.div_small, N.add_0_r by done.
    apply N.mod_small, b2n_lt.
  - transitivity (to_be (length l) (from_be l)); [apply Hcong|exact IH].
    by rewrite N.add_comm, N.Div0.mod_add.
Qed.

Lemma i64_round z : fits_signed 64 z → u64_to_i64 (i64_to_u64 z) = z.
Proof.
  unfold fits_signed, u64_to_i64, i64_to_u64.
  change (2 ^ (64 - 1))%Z with (2 ^ 63)%Z. intros H.
  destruct (Z.neg_nonneg_cases z).
  - assert (z mod 2 ^ 64 = z + 2 ^ 64)%Z as ->.
    { symmetry. apply (Z.mod_unique _ _ (-1)); lia. }
    destruct (N.ltb_spec (Z.to_N (z + 2 ^ 64)) (2 ^ 63)); lia.
  - rewrite Z.mod_small by lia.
    destruct (N.ltb_spec (Z.to_N z) (2 ^ 63)); lia.
Qed.

Lemma i64_to_u64_fits z : fits 64 (i64_to_u64 z).
Proof.
  unfold fits, i64_to_u64. pose proof (Z.mod_pos_bound z (2 ^ 64)). lia.
Qed.
