(* ===== verification/Lists.v ===== *)
(** * Lists: lemmas the components share *)
From stdpp Require Import sorting.
From S2P Require Import Prelude.

(** [l.iter().enumerate()]. *)
Definition enumerate {A} (l : list A) : list (nat * A) := imap pair l.

Lemma lookup_enumerate {A} (l : list A) i :
  enumerate l !! i = (λ x, (i, x)) <$> l !! i.
Proof. apply list_lookup_imap. Qed.

Lemma for_each_enumerate {E A} (f : nat * A → result E unit) (l : list A) :
  for_each f (enumerate l) = Ok tt ↔ ∀ i x, l !! i = Some x → f (i, x) = Ok tt.
Proof.
  rewrite for_each_Ok, Forall_lookup. split.
  - intros H i x Hx. apply (H i). by rewrite lookup_enumerate, Hx.
  - intros H i [j x]. rewrite lookup_enumerate.
    destruct (l !! i) eqn:E'; cbn; [|done]. intros [= <- <-]. auto.
Qed.

Lemma for_each_elem {E A} (f : A → result E unit) (l : list A) :
  for_each f l = Ok tt ↔ ∀ x, x ∈ l → f x = Ok tt.
Proof. by rewrite for_each_Ok, Forall_forall. Qed.

Lemma guard_Ok {E} (c : bool) (e : E) (k : result E unit) :
  (if c then Err e else k) = Ok tt ↔ c = false ∧ k = Ok tt.
Proof. destruct c; naive_solver. Qed.

(** A list has no duplicates when no element occurs before its own index. *)
Lemma NoDup_prefix {A} (l : list A) :
  NoDup l ↔ ∀ i x, l !! i = Some x → x ∉ take i l.
Proof.
  rewrite NoDup_alt. split.
  - intros H i x Hx (j & Hj)%list_elem_of_lookup.
    apply lookup_take_Some in Hj as [Hj Hlt]. specialize (H _ _ _ Hx Hj). lia.
  - intros H i j x Hi Hj. destruct (lt_eq_lt_dec i j) as [[Hl|Hl]|Hl]; [|done|].
    + destruct (H j x Hj). apply list_elem_of_lookup. exists i. by rewrite lookup_take_lt.
    + destruct (H i x Hi). apply list_elem_of_lookup. exists j. by rewrite lookup_take_lt.
Qed.

Lemma NoDup_counts {A} `{!EqDecision A} (l : list A) :
  NoDup l ↔ ∀ x, x ∈ l → (length (filter (λ y, y = x) l) ≤ 1)%nat.
Proof.
  induction l as [|a l IH]; [split; [set_solver|constructor]|].
  rewrite NoDup_cons, IH. split.
  - intros [Ha Hl] x Hx. rewrite filter_cons. case_decide as E.
    + subst x. cbn. enough (filter (λ y, y = a) l = []) as ->; [done|].
      apply elem_of_nil_inv. intros y [-> ?]%list_elem_of_filter. done.
    + apply Hl. apply elem_of_cons in Hx as [->|]; done.
  - intros H. split.
    + intros Ha. specialize (H a ltac:(set_solver)). rewrite filter_cons in H.
      rewrite decide_True in H by done. cbn in H.
      assert (a ∈ filter (λ y, y = a) l) as Hf by (by apply list_elem_of_filter).
      destruct (filter _ l); [set_solver|]. cbn in H. lia.
    + intros x Hx. etrans; [|apply (H x); set_solver].
      rewrite filter_cons. case_decide; cbn; lia.
Qed.

(** Updating one element of a list whose keys are unique. *)
Fixpoint update_first {A} (P : A → bool) (f : A → A) (l : list A) : list A :=
  match l with
  | [] => []
  | x :: l' => if P x then f x :: l' else x :: update_first P f l'
  end.

Lemma NoDup_take_lookup {A} (l : list A) i j x :
  NoDup l → l !! i = Some x → l !! j = Some x → i = j.
Proof. intros H. by apply NoDup_lookup. Qed.

(** [for x in l { b = f(b, x)?; }] *)
Fixpoint try_fold {E A B} (f : B → A → result E B) (l : list A) (b : B) : result E B :=
  match l with
  | [] => Ok b
  | x :: l' => b' ← f b x; try_fold f l' b'
  end.

(** An invariant of the loop. *)
Lemma try_fold_ind {E A B} (f : B → A → result E B) (P : B → Prop) l b b' :
  try_fold f l b = Ok b' → P b →
  (∀ x c c', x ∈ l → P c → f c x = Ok c' → P c') → P b'.
Proof.
  revert b. induction l as [|x l IH]; cbn; intros b Hf Hb Hstep; [by inv_res|].
  inv_res. eapply IH; [done| |set_solver]. eapply Hstep; [|done..]. set_solver.
Qed.

(** A traversal that succeeds maps every element. *)
Lemma mapM_Forall2 {E A B} (f : A → result E B) l k :
  mapM f l = Ok k → Forall2 (λ x y, f x = Ok y) l k.
Proof.
  revert k. induction l as [|x l IH]; cbn; intros k Hk; inv_res; constructor; auto.
Qed.

(** ** Boolean guards as propositions *)

Lemma guard_false {E} (c : bool) (e : E) :
  (if c then Err e else Ok tt) = Ok tt ↔ c = false.
Proof. destruct c; naive_solver. Qed.

Lemma bool_decide_ne_false {A} `{!EqDecision A} (x y : A) :
  bool_decide (x ≠ y) = false ↔ x = y.
Proof. rewrite bool_decide_eq_false. split; [apply dec_stable|naive_solver]. Qed.

Lemma unit_bind_Ok {E} (m k : result E unit) :
  (m ≫= λ _, k) = Ok tt ↔ m = Ok tt ∧ k = Ok tt.
Proof. destruct m as [[]|]; cbn; naive_solver. Qed.

Lemma matched_iff (P : Prop) (m s : bool) :
  ((P ∧ m && negb s = false) ∧ negb m && s = false) ↔ (P ∧ (m = true ↔ s = true)).
Proof. destruct m, s; naive_solver. Qed.

(** [norm_guards] turns the guards of a validation pass into equations. *)
Ltac norm_guards :=
  rewrite ?unit_bind_Ok, ?guard_false, ?ensure_Ok, ?orb_false_iff, ?bool_decide_ne_false,
    ?negb_false_iff, ?negb_true_iff, ?bool_decide_eq_true in *.

(** ** Quantifiers over a known option *)

Lemma some_all {A} (x : A) (P : A → Prop) : (∀ y, Some x = Some y → P y) ↔ P x.
Proof. naive_solver. Qed.
Lemma none_all {A} (P : A → Prop) : (∀ y, None = Some y → P y) ↔ True.
Proof. naive_solver. Qed.
Lemma some_ex {A} (x : A) (P : A → Prop) : (∃ y, Some x = Some y ∧ P y) ↔ P x.
Proof. naive_solver. Qed.
Lemma none_ex {A} (P : A → Prop) : (∃ y, None = Some y ∧ P y) ↔ False.
Proof. naive_solver. Qed.
Lemma is_Some_Some {A} (x : A) : is_Some (Some x) ↔ True.
Proof. naive_solver. Qed.
Lemma is_Some_None {A} : is_Some (@None A) ↔ False.
Proof. split; [by intros [? ?]|done]. Qed.

(** [norm_options] eliminates quantifiers and tests over options whose
    constructor is known. *)
Ltac norm_options :=
  repeat first
    [ rewrite some_all in * | rewrite none_all in * | rewrite some_ex in *
    | rewrite none_ex in * | rewrite is_Some_Some in * | rewrite is_Some_None in * ].

(** * Orderings, sorting and ordered maps

    Rust's [Ord] as a class with its laws, [sort_by] as a stable merge sort,
    and [BTreeMap] and [BTreeSet] as lists in strictly increasing key
    order. *)
Unset Default Proof Using.

(** ** Comparison *)

Class Ord (A : Type) := cmp : A → A → comparison.
#[export] Hint Mode Ord ! : typeclass_instances.

Class OrdLaws (A : Type) `{!Ord A} := {
  cmp_eq (x y : A) : cmp x y = Eq ↔ x = y;
  cmp_opp (x y : A) : cmp y x = CompOpp (cmp x y);
  cmp_lt_trans (x y z : A) : cmp x y = Lt → cmp y z = Lt → cmp x z = Lt
}.

(** [Ordering::then_with]. *)
Definition then_with (c d : comparison) : comparison :=
  match c with Eq => d | _ => c end.

(** Comparison of a key: derived orders of newtypes and of plain enums. *)
Definition cmp_by {A B} `{!Ord B} (f : A → B) (x y : A) : comparison := cmp (f x) (f y).

Lemma cmp_by_laws {A B} `{!Ord B, !OrdLaws B} (f : A → B) :
  (∀ x y, f x = f y → x = y) → @OrdLaws A (cmp_by f).
Proof.
  intros Hf. split; unfold cmp, cmp_by; intros.
  - rewrite cmp_eq. split; [apply Hf|congruence].
  - apply cmp_opp.
  - by eapply cmp_lt_trans.
Qed.

#[export] Instance nat_ord : Ord nat := Nat.compare.
#[export] Instance nat_ord_laws : OrdLaws nat.
Proof.
  split; unfold cmp, nat_ord; intros.
  - apply Nat.compare_eq_iff.
  - apply Nat.compare_antisym.
  - rewrite Nat.compare_lt_iff in *. lia.
Qed.

#[export] Instance N_ord : Ord N := N.compare.
#[export] Instance N_ord_laws : OrdLaws N.
Proof.
  split; unfold cmp, N_ord; intros.
  - apply N.compare_eq_iff.
  - apply N.compare_antisym.
  - rewrite N.compare_lt_iff in *. lia.
Qed.

(** [str] is ordered by its bytes. *)
#[export] Instance string_ord : Ord string := String.compare.
#[export] Instance string_ord_laws : OrdLaws string.
Proof.
  split; unfold cmp, string_ord.
  - intros x y. split; [apply String.compare_eq_iff|]. intros <-.
    pose proof (String.compare_antisym x x) as Hx. by destruct (String.compare x x).
  - intros x y. apply String.compare_antisym.
  - induction x as [|a x IH]; intros [|b y] [|c z]; cbn; try done.
    unfold Ascii.compare. repeat case_match; try done; intros;
      rewrite ?N.compare_eq_iff, ?N.compare_lt_iff, ?N.compare_gt_iff in *; try lia; eauto.
Qed.

#[export] Instance option_ord {A} `{!Ord A} : Ord (option A) := λ x y,
  match x, y with
  | None, None => Eq
  | None, Some _ => Lt
  | Some _, None => Gt
  | Some a, Some b => cmp a b
  end.
#[export] Instance option_ord_laws {A} `{!Ord A, !OrdLaws A} : OrdLaws (option A).
Proof.
  split; unfold cmp, option_ord.
  - intros [x|] [y|]; [rewrite cmp_eq|..]; naive_solver.
  - intros [x|] [y|]; [apply cmp_opp|done..].
  - intros [x|] [y|] [z|]; try done. apply cmp_lt_trans.
Qed.

#[export] Instance prod_ord {A B} `{!Ord A, !Ord B} : Ord (A * B) := λ x y,
  then_with (cmp (fst x) (fst y)) (cmp (snd x) (snd y)).
#[export] Instance prod_ord_laws {A B} `{!Ord A, !OrdLaws A, !Ord B, !OrdLaws B} : OrdLaws (A * B).
Proof.
  split; unfold cmp, prod_ord.
  - intros [a b] [a' b']. cbn. destruct (cmp a a') eqn:E; cbn.
    + apply cmp_eq in E as ->. rewrite cmp_eq. naive_solver.
    + split; [done|]. intros [= -> _]. by rewrite (proj2 (cmp_eq _ _) eq_refl) in E.
    + split; [done|]. intros [= -> _]. by rewrite (proj2 (cmp_eq _ _) eq_refl) in E.
  - intros [a b] [a' b']. cbn. rewrite (cmp_opp a a'), (cmp_opp b b').
    by destruct (cmp a a').
  - intros [a b] [a' b'] [a'' b'']. cbn.
    destruct (cmp a a') eqn:E1; cbn; [apply cmp_eq in E1 as ->| |done].
    + destruct (cmp a' a''); cbn; [apply cmp_lt_trans|done..].
    + destruct (cmp a' a'') eqn:E2; cbn; [apply cmp_eq in E2 as <-; by rewrite E1| |done].
      intros _ _. by rewrite (cmp_lt_trans _ _ _ E1 E2).
Qed.

(** Slices compare lexicographically. *)
Fixpoint list_cmp {A} `{!Ord A} (x y : list A) : comparison :=
  match x, y with
  | [], [] => Eq
  | [], _ :: _ => Lt
  | _ :: _, [] => Gt
  | a :: x', b :: y' => then_with (cmp a b) (list_cmp x' y')
  end.
#[export] Instance list_ord {A} `{!Ord A} : Ord (list A) := list_cmp.
#[export] Instance list_ord_laws {A} `{!Ord A, !OrdLaws A} : OrdLaws (list A).
Proof.
  split; unfold cmp, list_ord.
  - induction x as [|a x IH]; intros [|b y]; cbn; try done. destruct (cmp a b) eqn:E; cbn.
    + apply cmp_eq in E as ->. rewrite IH. naive_solver.
    + split; [done|]. intros [= -> _]. by rewrite (proj2 (cmp_eq _ _) eq_refl) in E.
    + split; [done|]. intros [= -> _]. by rewrite (proj2 (cmp_eq _ _) eq_refl) in E.
  - induction x as [|a x IH]; intros [|b y]; cbn; try done.
    rewrite (cmp_opp a b), IH. by destruct (cmp a b).
  - induction x as [|a x IH]; intros [|b y] [|c z]; cbn; try done.
    destruct (cmp a b) eqn:E1; cbn; [apply cmp_eq in E1 as ->| |done].
    + destruct (cmp b c); cbn; [apply IH|done..].
    + destruct (cmp b c) eqn:E2; cbn; [apply cmp_eq in E2 as <-; by rewrite E1| |done].
      intros _ _. by rewrite (cmp_lt_trans _ _ _ E1 E2).
Qed.

#[export] Instance bool_ord : Ord bool := cmp_by (λ b : bool, if b then 1%nat else 0%nat).
#[export] Instance bool_ord_laws : OrdLaws bool.
Proof. apply cmp_by_laws. by intros [] []. Qed.

Lemma cmp_refl {A} `{!Ord A, !OrdLaws A} (x : A) : cmp x x = Eq.
Proof. by apply cmp_eq. Qed.

Lemma cmp_gt_lt {A} `{!Ord A, !OrdLaws A} (x y : A) : cmp x y = Gt ↔ cmp y x = Lt.
Proof. rewrite (cmp_opp x y). by destruct (cmp x y). Qed.

(** ** Sorting *)

(** [slice::sort_by], a stable sort. *)
Definition cmp_le {A} (c : A → A → comparison) (x y : A) : Prop := c x y ≠ Gt.
#[export] Instance cmp_le_dec {A} (c : A → A → comparison) : RelDecision (cmp_le c).
Proof. intros x y. unfold cmp_le. apply _. Defined.
Definition sort_by {A} (c : A → A → comparison) (l : list A) : list A := merge_sort (cmp_le c) l.

Lemma sort_by_perm {A} (c : A → A → comparison) l : sort_by c l ≡ₚ l.
Proof. apply merge_sort_Permutation. Qed.

Lemma sort_by_elem {A} (c : A → A → comparison) l x : x ∈ sort_by c l ↔ x ∈ l.
Proof. by rewrite (sort_by_perm c l). Qed.

#[export] Instance cmp_le_total {A} `{!Ord A, !OrdLaws A} : Total (cmp_le (@cmp A _)).
Proof. intros x y. unfold cmp_le. rewrite (cmp_opp x y). destruct (cmp x y); auto. Qed.
#[export] Instance cmp_le_antisymm {A} `{!Ord A, !OrdLaws A} : AntiSymm (=) (cmp_le (@cmp A _)).
Proof.
  intros x y. unfold cmp_le. rewrite (cmp_opp x y).
  destruct (cmp x y) eqn:E; cbn; try done. intros _ _. by apply cmp_eq.
Qed.
#[export] Instance cmp_le_trans {A} `{!Ord A, !OrdLaws A} : Transitive (cmp_le (@cmp A _)).
Proof.
  intros x y z. unfold cmp_le. destruct (cmp x y) eqn:E1; [apply cmp_eq in E1 as ->; done| |done].
  destruct (cmp y z) eqn:E2; [apply cmp_eq in E2 as <-; by rewrite E1| |done].
  by rewrite (cmp_lt_trans _ _ _ E1 E2).
Qed.

(** Sorting by a total order forgets the order of the input. *)
Lemma sort_by_permuted {A} `{!Ord A, !OrdLaws A} (l l' : list A) :
  l ≡ₚ l' → sort_by cmp l = sort_by cmp l'.
Proof.
  intros Hp. apply (StronglySorted_unique (cmp_le cmp)).
  - apply StronglySorted_merge_sort; apply _.
  - apply StronglySorted_merge_sort; apply _.
  - by rewrite !sort_by_perm.
Qed.

(** ** Ordered sets *)

Section Sets.
Context {A : Type} `{!Ord A}.

(** [BTreeSet::insert]. *)
Fixpoint set_insert (x : A) (l : list A) : list A :=
  match l with
  | [] => [x]
  | y :: l' => match cmp x y with
               | Lt => x :: l
               | Eq => l
               | Gt => y :: set_insert x l'
               end
  end.

Lemma elem_of_set_insert `{!OrdLaws A} x y l : y ∈ set_insert x l ↔ y = x ∨ y ∈ l.
Proof.
  induction l as [|z l IH]; cbn; [set_solver|].
  destruct (cmp x z) eqn:E; [apply cmp_eq in E as ->|..]; set_solver.
Qed.

Lemma set_insert_sorted `{!OrdLaws A} x l :
  StronglySorted (λ y z, cmp y z = Lt) l → StronglySorted (λ y z, cmp y z = Lt) (set_insert x l).
Proof.
  induction 1 as [|z l Hs IH Hf]; cbn; [by repeat constructor|].
  destruct (cmp x z) eqn:E; [by constructor|..].
  - constructor; [by constructor|]. constructor; [done|].
    eapply Forall_impl; [exact Hf|]. intros y Hy. by eapply cmp_lt_trans.
  - constructor; [done|]. apply Forall_forall. rewrite Forall_forall in Hf.
    intros y [->|Hy]%elem_of_set_insert; [by apply cmp_gt_lt|by apply Hf].
Qed.
End Sets.

(** ** Ordered maps *)

Section Maps.
Context {K V : Type} `{!Ord K}.
Abbreviation bmap := (list (K * V)).

(** [BTreeMap::get]. *)
Fixpoint map_get (k : K) (m : bmap) : option V :=
  match m with
  | [] => None
  | (k', v) :: m' => match cmp k k' with Eq => Some v | _ => map_get k m' end
  end.

(** [BTreeMap::insert]. *)
Fixpoint map_insert (k : K) (v : V) (m : bmap) : bmap :=
  match m with
  | [] => [(k, v)]
  | (k', v') :: m' => match cmp k k' with
                      | Lt => (k, v) :: m
                      | Eq => (k, v) :: m'
                      | Gt => (k', v') :: map_insert k v m'
                      end
  end.

(** [BTreeMap::remove]. *)
Fixpoint map_remove (k : K) (m : bmap) : bmap :=
  match m with
  | [] => []
  | (k', v) :: m' => match cmp k k' with Eq => m' | _ => (k', v) :: map_remove k m' end
  end.

(** [BTreeMap::into_values]. *)
Definition map_values (m : bmap) : list V := snd <$> m.

Definition key_lt (p q : K * V) : Prop := cmp (fst p) (fst q) = Lt.
Definition map_sorted (m : bmap) : Prop := StronglySorted key_lt m.

Context `{!OrdLaws K}.

Lemma map_get_insert_eq k v m : map_get k (map_insert k v m) = Some v.
Proof.
  induction m as [|[k' v'] m IH]; cbn; [by rewrite cmp_refl|].
  destruct (cmp k k') eqn:E; cbn; rewrite ?cmp_refl, ?E; done.
Qed.

Lemma map_get_insert_ne k k' v m : k' ≠ k → map_get k' (map_insert k v m) = map_get k' m.
Proof.
  intros Hne. assert (∀ x, cmp k' k = x → x ≠ Eq) as Hk by (intros x <- ?%cmp_eq; done).
  induction m as [|[k1 v1] m IH]; cbn.
  { destruct (cmp k' k) eqn:E; [by destruct (Hk _ eq_refl)|done..]. }
  destruct (cmp k k1) eqn:E; cbn.
  - apply cmp_eq in E as <-. destruct (cmp k' k) eqn:E'; [by destruct (Hk _ eq_refl)|done..].
  - destruct (cmp k' k) eqn:E'; [by destruct (Hk _ eq_refl)|done..].
  - by rewrite IH.
Qed.

Lemma map_insert_elem k v m p :
  p ∈ map_insert k v m → p = (k, v) ∨ p ∈ m ∧ fst p ≠ k ∨ p ∈ m.
Proof.
  induction m as [|[k' v'] m IH]; cbn; [set_solver|].
  destruct (cmp k k') eqn:E; set_solver.
Qed.

Lemma map_insert_sorted k v m : map_sorted m → map_sorted (map_insert k v m).
Proof.
  unfold map_sorted. induction m as [|[k' v'] m IH]; cbn; intros Hs.
  { by repeat constructor. }
  apply StronglySorted_inv in Hs as [Hs Hf].
  destruct (cmp k k') eqn:E.
  - apply cmp_eq in E as ->. by constructor.
  - constructor; [by constructor|]. constructor; [done|].
    eapply Forall_impl; [exact Hf|]. intros [k1 v1] Hlt. by eapply cmp_lt_trans.
  - constructor; [by apply IH|]. apply Forall_forall. intros [k1 v1] Hin.
    apply map_insert_elem in Hin as [[= -> ->]|[[Hin _]|Hin]].
    + unfold key_lt. cbn. by apply cmp_gt_lt.
    + rewrite Forall_forall in Hf. by apply (Hf _ Hin).
    + rewrite Forall_forall in Hf. by apply (Hf _ Hin).
Qed.

(** In a sorted map, [get] finds exactly the entries. *)
Lemma map_get_elem k v m : map_sorted m → map_get k m = Some v ↔ (k, v) ∈ m.
Proof.
  unfold map_sorted. induction m as [|[k' v'] m IH]; cbn; intros Hs; [set_solver|].
  apply StronglySorted_inv in Hs as [Hs Hf]. rewrite Forall_forall in Hf.
  destruct (cmp k k') eqn:E.
  - apply cmp_eq in E as ->. split; [set_solver|]. intros [[= ->]|Hin]%elem_of_cons; [done|].
    specialize (Hf _ Hin). unfold key_lt in Hf. cbn in Hf. by rewrite cmp_refl in Hf.
  - rewrite IH by done. split; [set_solver|]. intros [[= -> ->]|Hin]%elem_of_cons; [|done].
    by rewrite cmp_refl in E.
  - rewrite IH by done. split; [set_solver|]. intros [[= -> ->]|Hin]%elem_of_cons; [|done].
    by rewrite cmp_refl in E.
Qed.

Lemma map_remove_elem k m p : p ∈ map_remove k m → p ∈ m.
Proof. induction m as [|[k' v'] m IH]; cbn; [done|]. destruct (cmp k k'); set_solver. Qed.

Lemma map_remove_sorted k m : map_sorted m → map_sorted (map_remove k m).
Proof.
  unfold map_sorted. induction m as [|[k' v'] m IH]; cbn; intros Hs; [done|].
  apply StronglySorted_inv in Hs as [Hs Hf].
  destruct (cmp k k'); [done| |]; (constructor; [by apply IH|]);
    rewrite Forall_forall in Hf |- *; intros p Hp%map_remove_elem; by apply Hf.
Qed.

Lemma map_get_remove_eq k m : map_sorted m → map_get k (map_remove k m) = None.
Proof.
  intros Hs. destruct (map_get k (map_remove k m)) as [v|] eqn:E; [exfalso|done].
  apply map_get_elem in E; [|by apply map_remove_sorted]. revert Hs E.
  unfold map_sorted. induction m as [|[k' v'] m IH]; cbn; intros Hs E; [set_solver|].
  apply StronglySorted_inv in Hs as [Hs Hf]. destruct (cmp k k') eqn:Ec.
  - apply cmp_eq in Ec as ->. rewrite Forall_forall in Hf. specialize (Hf _ E).
    unfold key_lt in Hf. cbn in Hf. by rewrite cmp_refl in Hf.
  - apply elem_of_cons in E as [[= -> ->]|E]; [by rewrite cmp_refl in Ec|by apply IH].
  - apply elem_of_cons in E as [[= -> ->]|E]; [by rewrite cmp_refl in Ec|by apply IH].
Qed.

Lemma map_get_remove_ne k k' m : k' ≠ k → map_get k' (map_remove k m) = map_get k' m.
Proof.
  intros Hne. induction m as [|[k1 v1] m IH]; cbn; [done|].
  destruct (cmp k k1) eqn:E; cbn; rewrite ?IH; try done.
  apply cmp_eq in E as <-. destruct (cmp k' k) eqn:E'; [by apply cmp_eq in E'|done..].
Qed.

Lemma map_insert_new k v m : map_get k m = None → map_insert k v m ≡ₚ (k, v) :: m.
Proof.
  induction m as [|[k' v'] m IH]; cbn; [done|]. destruct (cmp k k') eqn:E; [done|done|].
  intros Hn. rewrite IH by done. by rewrite Permutation_swap.
Qed.

Lemma map_sorted_keys m : map_sorted m → NoDup (fst <$> m).
Proof.
  unfold map_sorted. induction m as [|[k v] m IH]; intros Hs; [constructor|].
  apply StronglySorted_inv in Hs as [Hs Hf]. cbn. constructor; [|by apply IH].
  intros ([k' v'] & -> & Hin)%list_elem_of_fmap. rewrite Forall_forall in Hf.
  specialize (Hf _ Hin). unfold key_lt in Hf. cbn in Hf. by rewrite cmp_refl in Hf.
Qed.

Lemma map_insert_ext k v m m' :
  (∀ j, map_get j m = map_get j m') → ∀ j, map_get j (map_insert k v m) = map_get j (map_insert k v m').
Proof.
  intros He j. destruct (decide (cmp j k = Eq)) as [->%cmp_eq|Hn]; [by rewrite !map_get_insert_eq|].
  assert (j ≠ k) by (intros ->; by rewrite cmp_refl in Hn). by rewrite !map_get_insert_ne.
Qed.

(** Sorted maps are equal when every lookup agrees. *)
Lemma map_sorted_ext m m' :
  map_sorted m → map_sorted m' → (∀ k, map_get k m = map_get k m') → m = m'.
Proof.
  intros Hs Hs' He. eapply (StronglySorted_unique_strong key_lt); [|exact Hs|exact Hs'|].
  - intros [k1 v1] [k2 v2] _ _. unfold key_lt. cbn. intros H1 H2.
    pose proof (cmp_lt_trans _ _ _ H1 H2) as E. by rewrite cmp_refl in E.
  - apply NoDup_Permutation; [by eapply (NoDup_fmap_1 fst), map_sorted_keys..|].
    intros [k v]. rewrite <-!map_get_elem by done. by rewrite He.
Qed.
End Maps.
