(* ===== verification/Text.v ===== *)
(** * Text: the part of Rust's [str] and [u8] API the program relies on

    A Rust [String] is a Rocq [string] whose bytes are valid UTF-8
    ([utf8]); lengths are counted in bytes, as [str::len] does.  The file
    also holds the lexicographic order that [derive(Ord)] gives to strings
    and byte arrays. *)
From Stdlib Require Import Strings.Byte.
From S2P Require Import Prelude.

Definition bytes_of_string (s : string) : list byte := String.list_byte_of_string s.
Definition string_of_bytes (l : list byte) : string := String.string_of_list_byte l.

(** [str::len]. *)
Definition str_len (s : string) : usize := N.of_nat (length (bytes_of_string s)).

Definition in_range (lo hi n : N) : bool := ((lo <=? n) && (n <=? hi))%N.

(** [u8::is_ascii_alphanumeric]: [0-9A-Za-z]. *)
Definition is_ascii_alphanumeric (b : byte) : bool :=
  let n := b2n b in
  in_range 48 57 n || in_range 65 90 n || in_range 97 122 n.

(** [u8::is_ascii_whitespace]: space, tab, line feed, form feed, carriage
    return. *)
Definition is_ascii_whitespace (b : byte) : bool :=
  bool_decide (b2n b ∈ [32; 9; 10; 12; 13]%N).

(** [b"...".contains(&byte)]. *)
Definition bytes_contain (set : string) (b : byte) : bool :=
  bool_decide (b ∈ bytes_of_string set).

(** [str::contains('\0')]. *)
Definition contains_nul (s : string) : bool :=
  existsb (λ b, (b2n b =? 0)%N) (bytes_of_string s).

(** ** UTF-8 *)

Definition is_cont (b : byte) : bool := in_range 128 191 (b2n b).

(** [str::from_utf8]: the well-formed sequences of the Unicode standard. *)
Fixpoint utf8_valid (l : list byte) : bool :=
  match l with
  | [] => true
  | b0 :: l1 =>
    let n := b2n b0 in
    if (n <? 128)%N then utf8_valid l1 else
    match l1 with
    | [] => false
    | b1 :: l2 =>
      let m := b2n b1 in
      if in_range 194 223 n then is_cont b1 && utf8_valid l2 else
      match l2 with
      | [] => false
      | b2 :: l3 =>
        if ((n =? 224)%N && in_range 160 191 m)
           || (in_range 225 236 n && in_range 128 191 m)
           || ((n =? 237)%N && in_range 128 159 m)
           || (in_range 238 239 n && in_range 128 191 m)
        then is_cont b2 && utf8_valid l3 else
        match l3 with
        | [] => false
        | b3 :: l4 =>
          if ((n =? 240)%N && in_range 144 191 m)
             || (in_range 241 243 n && in_range 128 191 m)
             || ((n =? 244)%N && in_range 128 143 m)
          then is_cont b2 && is_cont b3 && utf8_valid l4 else false
        end
      end
    end
  end.

(** The type invariant of a Rust string. *)
Definition utf8 (s : string) : Prop := utf8_valid (bytes_of_string s) = true.
#[export] Instance utf8_dec s : Decision (utf8 s).
Proof. unfold utf8. apply _. Defined.

(** [String::from_utf8]. *)
Definition from_utf8 (l : list byte) : option string :=
  if utf8_valid l then Some (string_of_bytes l) else None.

(** [str::is_char_boundary]: [b as i8 >= -0x40] is "not a continuation
    byte". *)
Definition is_char_boundary (l : list byte) (i : nat) : bool :=
  match i with
  | O => true
  | S _ => match l !! i with
           | Some b => negb (is_cont b)
           | None => Nat.eqb i (length l)
           end
  end.

Lemma string_of_bytes_of s : string_of_bytes (bytes_of_string s) = s.
Proof. apply String.string_of_list_byte_of_string. Qed.

Lemma bytes_of_string_of l : bytes_of_string (string_of_bytes l) = l.
Proof. apply String.list_byte_of_string_of_list_byte. Qed.

Lemma length_bytes_of_string s : length (bytes_of_string s) = String.length s.
Proof. induction s as [|c s IH]; [done|]. cbn. f_equal. exact IH. Qed.

Lemma bytes_of_string_inj s t : bytes_of_string s = bytes_of_string t → s = t.
Proof. intros H. by rewrite <-(string_of_bytes_of s), H, string_of_bytes_of. Qed.

Lemma from_utf8_of_string s : utf8 s → from_utf8 (bytes_of_string s) = Some s.
Proof. unfold utf8, from_utf8. intros ->. by rewrite string_of_bytes_of. Qed.

Lemma from_utf8_Some l s : from_utf8 l = Some s → utf8 s ∧ bytes_of_string s = l.
Proof.
  unfold from_utf8, utf8. case_match; [|done]. intros [= <-].
  by rewrite bytes_of_string_of.
Qed.

Lemma in_range_true lo hi n : in_range lo hi n = true ↔ (lo ≤ n ∧ n ≤ hi)%N.
Proof. unfold in_range. rewrite andb_true_iff. rewrite !N.leb_le. done. Qed.

(** ASCII text is valid UTF-8. *)
Lemma ascii_utf8_valid l :
  Forall (λ b, (b2n b < 128)%N) l → utf8_valid l = true.
Proof.
  induction 1 as [|b l Hb _ IH]; [done|]. cbn [utf8_valid].
  by rewrite (proj2 (N.ltb_lt _ _) Hb).
Qed.

(** Case analysis of one well-formed sequence: one leading byte, then only
    continuation bytes, then well-formed text. *)
Lemma utf8_valid_inv b l :
  utf8_valid (b :: l) = true →
  ∃ c l', l = c ++ l' ∧ Forall (λ x, is_cont x = true) c ∧
          utf8_valid l' = true ∧
          ∀ l'', utf8_valid l'' = true → utf8_valid (b :: c ++ l'') = true.
Proof.
  intros H. cbn [utf8_valid] in H.
  destruct (b2n b <? 128)%N eqn:E0.
  { exists [], l. split_and!; [done|auto|done|]. intros ? Hx. cbn [utf8_valid app]. by rewrite E0. }
  destruct l as [|b1 l2]; [done|].
  destruct (in_range 194 223 (b2n b)) eqn:E1.
  { apply andb_true_iff in H as [H1 H2]. exists [b1], l2.
    split_and!; [done|auto|done|]. intros ? Hx. cbn [utf8_valid app]. by rewrite E0, E1, H1. }
  destruct l2 as [|b2 l3]; [done|].
  destruct (_ || _ || _ || _) eqn:E2 in H.
  { apply andb_true_iff in H as [H1 H2]. exists [b1; b2], l3.
    assert (is_cont b1 = true) as Hc.
    { unfold is_cont. rewrite !orb_true_iff, !andb_true_iff, !in_range_true in E2.
      apply in_range_true. lia. }
    split_and!; [done|auto|done|]. intros ? Hx. cbn [utf8_valid app]. by rewrite E0, E1, E2, H1. }
  destruct l3 as [|b3 l4]; [done|].
  destruct (_ || _ || _) eqn:E3 in H; [|done].
  apply andb_true_iff in H as [H H3]. apply andb_true_iff in H as [H1 H2].
  exists [b1; b2; b3], l4.
  assert (is_cont b1 = true) as Hc.
  { unfold is_cont. rewrite !orb_true_iff, !andb_true_iff, !in_range_true in E3.
    apply in_range_true. lia. }
  split_and!; [done|auto|done|]. intros ? Hx. cbn [utf8_valid app]. by rewrite E0, E1, E2, E3, H1, H2.
Qed.

(** Cutting valid text at a character boundary leaves valid text. *)
Lemma utf8_valid_take l i :
  utf8_valid l = true → is_char_boundary l i = true →
  utf8_valid (take i l) = true.
Proof.
  remember (length l) as n eqn:Hn. revert l i Hn.
  induction n as [n IH] using lt_wf_ind. intros [|b l] i Hn Hv Hb.
  { by rewrite take_nil. }
  destruct i as [|i]; [done|].
  destruct (utf8_valid_inv b l Hv) as (c & l' & -> & Hc & Hv' & Hre).
  cbn [take]. destruct (decide (i < length c)) as [Hi|Hi].
  - exfalso. unfold is_char_boundary in Hb.
    change ((b :: c ++ l') !! S i) with ((c ++ l') !! i) in Hb.
    destruct (lookup_lt_is_Some_2 c i Hi) as [x Hx].
    rewrite (lookup_app_l_Some _ _ _ _ Hx) in Hb.
    by rewrite (proj1 (Forall_lookup _ _) Hc _ _ Hx) in Hb.
  - rewrite take_app_ge by lia. apply Hre.
    apply (IH (length l')); [subst n; cbn; rewrite length_app; lia|done|done|].
    unfold is_char_boundary in Hb |- *. destruct (i - length c) eqn:E; [done|].
    change ((b :: c ++ l') !! S i) with ((c ++ l') !! i) in Hb.
    rewrite lookup_app_r, E in Hb by lia.
    case_match; [done|]. rewrite Nat.eqb_eq in Hb |- *.
    cbn [length] in Hb. rewrite length_app in Hb. lia.
Qed.
