(* ===== verification/Ids.v ===== *)
(** * Identifiers, timestamps and errors ([sysboost-core/src/ids.rs, time.rs, error.rs])

    Text identifiers validated on construction, fixed-size binary
    identifiers, and the hexadecimal form of a session ID. *)
From Stdlib Require Import Strings.Byte.
From S2P Require Import Prelude Text.
Local Open Scope N_scope.

Module IdentifierError.
Record t := mk { name : string; reason : string }.
#[global] Instance t_eq_dec : EqDecision t. Proof. solve_decision. Defined.
End IdentifierError.

(** The accepted alphabet of every text identifier. *)
Definition id_byte (b : byte) : bool :=
  is_ascii_alphanumeric b || bytes_contain "._:-" b.

Definition validate_text (name value : string) : result IdentifierError.t unit :=
  let bytes := bytes_of_string value in
  if str_len value =? 0 then Err (IdentifierError.mk name "must not be empty")
  else if 128 <? str_len value
  then Err (IdentifierError.mk name "must be at most 128 bytes")
  else if existsb (λ b, (b2n b =? 0) || is_ascii_whitespace b) bytes
  then Err (IdentifierError.mk name "must not contain whitespace or NUL")
  else if negb (forallb id_byte bytes)
  then Err (IdentifierError.mk name
              "may contain only ASCII letters, digits, '.', '_', ':', and '-'")
  else Ok tt.

(** What [validate_text] accepts, as one predicate. *)
Definition valid_text (value : string) : bool :=
  let bytes := bytes_of_string value in
  (1 <=? str_len value) && (str_len value <=? 128) && forallb id_byte bytes.

(** The four instances of the [text_id!] macro. *)
Module BackendId.
Record t := mk { as_str : string }.
#[global] Instance t_eq_dec : EqDecision t. Proof. solve_decision. Defined.
Definition new (value : string) : result IdentifierError.t t :=
  validate_text "BackendId" value ≫= λ _, Ok (mk value).
Definition from_str := new.
End BackendId.

Module CapabilityId.
Record t := mk { as_str : string }.
#[global] Instance t_eq_dec : EqDecision t. Proof. solve_decision. Defined.
Definition new (value : string) : result IdentifierError.t t :=
  validate_text "CapabilityId" value ≫= λ _, Ok (mk value).
Definition from_str := new.
Definition wf (x : t) : Prop := valid_text x.(as_str) = true.
End CapabilityId.

Module OperationId.
Record t := mk { as_str : string }.
#[global] Instance t_eq_dec : EqDecision t. Proof. solve_decision. Defined.
Definition new (value : string) : result IdentifierError.t t :=
  validate_text "OperationId" value ≫= λ _, Ok (mk value).
Definition from_str := new.
End OperationId.

Module TargetId.
Record t := mk { as_str : string }.
#[global] Instance t_eq_dec : EqDecision t. Proof. solve_decision. Defined.
#[global] Instance t_countable : Countable t.
Proof. by apply (inj_countable' as_str mk); intros []. Defined.
Definition new (value : string) : result IdentifierError.t t :=
  validate_text "TargetId" value ≫= λ _, Ok (mk value).
Definition from_str := new.
Definition wf (x : t) : Prop := valid_text x.(as_str) = true.
End TargetId.

(** ** Fixed arrays [[u8; N]] *)

Notation array n := (vec byte n).
Definition array_repeat (n : nat) (b : byte) : array n := vreplicate n b.

Module PlanId.
Record t := mk { as_bytes : array 16 }.
#[global] Instance t_eq_dec : EqDecision t. Proof. solve_decision. Defined.
Definition from_bytes := mk.
End PlanId.

Definition hex_value (b : byte) : option u8 :=
  let n := b2n b in
  if in_range 48 57 n then Some (n - 48)
  else if in_range 97 102 n then Some (n - 97 + 10)
  else if in_range 65 70 n then Some (n - 65 + 10)
  else None.

Definition HEX : list byte := bytes_of_string "0123456789abcdef".

Fixpoint encode_hex (bytes : list byte) : list byte :=
  match bytes with
  | [] => []
  | b :: bytes' =>
    nth (N.to_nat (N.shiftr (b2n b) 4)) HEX x00
      :: nth (N.to_nat (N.land (b2n b) 15)) HEX x00 :: encode_hex bytes'
  end.

(** The loop of [decode_hex] over [(0..raw.len()).step_by(2)]. *)
Fixpoint decode_hex_pairs (raw : list byte) : option (list byte) :=
  match raw with
  | h :: l :: raw' =>
    high ← hex_value h; low ← hex_value l;
    rest ← decode_hex_pairs raw';
    Some (n2b (N.lor (N.shiftl high 4) low) :: rest)
  | _ => Some []
  end.

Definition decode_hex (value : string) : result unit (list byte) :=
  if negb (str_len value mod 2 =? 0) then Err tt
  else bytes ← ok_or (decode_hex_pairs (bytes_of_string value)) tt;
       if negb (Nat.eqb (length bytes) 16) then Err tt else Ok bytes.

(** [copy_from_slice] and [try_into]: fill a zeroed array from a slice of
    the same length. *)
Fixpoint array_copy (n : nat) (l : list byte) : array n :=
  match n with
  | O => [#]
  | S n' => hd x00 l ::: array_copy n' (tl l)
  end.

Module SessionId.
Record t := mk { as_bytes : array 16 }.
#[global] Instance t_eq_dec : EqDecision t. Proof. solve_decision. Defined.
Definition from_bytes := mk.
Definition to_hex (x : t) : string := string_of_bytes (encode_hex x.(as_bytes)).
Definition from_str (value : string) : result IdentifierError.t t :=
  bytes ← map_err (λ _, IdentifierError.mk "SessionId" "must be 32 hexadecimal characters")
            (decode_hex value);
  Ok (mk (array_copy 16 bytes)).
End SessionId.

Module MutationId.
Record t := mk { get : u32 }.
#[global] Instance t_eq_dec : EqDecision t. Proof. solve_decision. Defined.
Definition new := mk.
Definition wf (x : t) : Prop := fits 32 x.(get).
End MutationId.

(** Unix milliseconds ([time.rs]). *)
Module Timestamp.
Record t := mk { as_unix_millis : u128 }.
#[global] Instance t_eq_dec : EqDecision t. Proof. solve_decision. Defined.
Definition from_unix_millis := mk.
Definition wf (x : t) : Prop := fits 128 x.(as_unix_millis).
End Timestamp.

(** ** Lemmas *)

Lemma array_copy_vec {n} (v : array n) : array_copy n (vec_to_list v) = v.
Proof. induction v; simpl; congruence. Qed.

#[global] Arguments array_copy : simpl never.

#[export] Instance array_countable n : Countable (array n).
Proof. apply (inj_countable' vec_to_list (array_copy n)). intros v. apply array_copy_vec. Defined.
#[export] Instance session_id_countable : Countable SessionId.t.
Proof. apply (inj_countable' SessionId.as_bytes SessionId.mk). by intros []. Defined.
#[export] Instance plan_id_countable : Countable PlanId.t.
Proof. apply (inj_countable' PlanId.as_bytes PlanId.mk). by intros []. Defined.

Lemma vec_array_copy n l : length l = n → vec_to_list (array_copy n l) = l.
Proof.
  revert l. induction n as [|n IH]; intros [|b l]; try done.
  intros [=]. unfold array_copy; fold array_copy. cbn. by rewrite IH.
Qed.

Lemma id_byte_range b :
  id_byte b = true →
  (45 ≤ b2n b < 128)%N ∧ (b2n b =? 0) || is_ascii_whitespace b = false.
Proof. destruct b; (done || (intros _; vm_compute; repeat split; done)). Qed.

Lemma id_bytes_clean l :
  forallb id_byte l = true →
  existsb (λ b, (b2n b =? 0) || is_ascii_whitespace b) l = false.
Proof.
  induction l as [|b l IH]; [done|]. cbn [forallb existsb].
  rewrite andb_true_iff. intros [Hb Hl]. rewrite IH by done.
  by rewrite (proj2 (id_byte_range b Hb)).
Qed.

(** [validate_text] accepts exactly the texts of [valid_text]. *)
Lemma validate_text_Ok name value :
  validate_text name value = Ok tt ↔ valid_text value = true.
Proof.
  unfold validate_text, valid_text.
  destruct (N.eqb_spec (str_len value) 0) as [->|]; [done|].
  destruct (N.ltb_spec 128 (str_len value)).
  { rewrite (proj2 (N.leb_gt (str_len value) 128)) by done.
    by rewrite andb_false_r. }
  rewrite (proj2 (N.leb_le 1 _)), (proj2 (N.leb_le _ 128)) by lia.
  cbn [andb]. destruct (forallb _ _) eqn:E.
  - by rewrite id_bytes_clean.
  - by case_match.
Qed.

Lemma validate_text_new {A} name value (f : string → A) a :
  (validate_text name value ≫= λ _, Ok (f value)) = Ok a ↔
  valid_text value = true ∧ a = f value.
Proof.
  rewrite bind_Ok. split.
  - intros ([] & H%validate_text_Ok & [= <-]). done.
  - intros [H ->]. exists tt. by rewrite validate_text_Ok.
Qed.

Lemma valid_text_len value : valid_text value = true → (1 ≤ str_len value ≤ 128)%N.
Proof.
  unfold valid_text. rewrite !andb_true_iff, !N.leb_le. tauto.
Qed.

Lemma valid_text_utf8 value : valid_text value = true → utf8 value.
Proof.
  unfold valid_text, utf8. rewrite !andb_true_iff. intros [_ H].
  apply ascii_utf8_valid, Forall_forall. intros b Hb.
  rewrite forallb_forall in H.
  apply list_elem_of_In, H in Hb. apply id_byte_range in Hb. lia.
Qed.

Lemma valid_text_no_nul value : valid_text value = true → contains_nul value = false.
Proof.
  unfold valid_text, contains_nul. rewrite !andb_true_iff. intros [_ H].
  apply not_true_is_false. intros (b & Hb & Hz)%existsb_exists.
  rewrite forallb_forall in H. apply H, id_byte_range in Hb.
  apply N.eqb_eq in Hz. lia.
Qed.

Lemma CapabilityId_new_Ok value c :
  CapabilityId.new value = Ok c ↔ valid_text value = true ∧ c = CapabilityId.mk value.
Proof. apply validate_text_new. Qed.

Lemma TargetId_new_Ok value c :
  TargetId.new value = Ok c ↔ valid_text value = true ∧ c = TargetId.mk value.
Proof. apply validate_text_new. Qed.

Lemma length_encode_hex l : length (encode_hex l) = (2 * length l)%nat.
Proof. induction l; simpl; lia. Qed.

Lemma hex_pair b l :
  decode_hex_pairs (encode_hex (b :: l)) = (λ r, b :: r) <$> decode_hex_pairs (encode_hex l).
Proof.
  cbn [encode_hex decode_hex_pairs].
  destruct (decode_hex_pairs (encode_hex l)); by destruct b.
Qed.

Lemma decode_encode_hex l : decode_hex_pairs (encode_hex l) = Some l.
Proof. induction l as [|b l IH]; [done|]. by rewrite hex_pair, IH. Qed.

Lemma hex_value_bound b v : hex_value b = Some v → (v < 16)%N.
Proof. destruct b; vm_compute; intros [= <-] || idtac; done. Qed.

(** A session ID printed as hexadecimal parses back to itself: the state
    file name of a session determines the session. *)
Lemma session_id_hex_round_trip (x : SessionId.t) :
  SessionId.from_str (SessionId.to_hex x) = Ok x.
Proof.
  destruct x as [v]. unfold SessionId.from_str, SessionId.to_hex, decode_hex, str_len.
  rewrite bytes_of_string_of, length_encode_hex, length_vec_to_list.
  cbn [SessionId.as_bytes]. rewrite decode_encode_hex. cbn.
  rewrite length_vec_to_list. change (N.of_nat 32 mod 2)%N with 0%N. cbn. by rewrite array_copy_vec.
Qed.

(** A text identifier is accepted exactly when it has 1 to 128 bytes of the
    identifier alphabet, and is stored unchanged; an accepted one holds no
    path separator, whitespace or NUL. *)
Theorem target_id_new_spec (value : string) :
  (TargetId.new value = Ok (TargetId.mk value) ↔ valid_text value = true)
  ∧ ∀ x, TargetId.new value = Ok x →
    x = TargetId.mk value ∧ (1 ≤ str_len value ≤ 128)
    ∧ Forall (λ b, b2n b ≠ 0 ∧ b2n b ≠ 47 ∧ is_ascii_whitespace b = false)
        (bytes_of_string value).
Proof.
  split; [rewrite TargetId_new_Ok; naive_solver|].
  intros x (Hv & ->)%TargetId_new_Ok. split; [done|]. split; [by apply valid_text_len|].
  unfold valid_text in Hv. rewrite !andb_true_iff in Hv. destruct Hv as [_ H].
  apply Forall_forall. intros b Hb. rewrite forallb_forall in H.
  apply list_elem_of_In, H in Hb. revert Hb.
  destruct b; vm_compute; (done || (intros _; repeat split; done)).
Qed.

(** * Structured errors ([sysboost-core/src/error.rs]) *)

(** Transaction stage at which an error occurred. *)
Module Stage.
Inductive t :=
| Detect | Plan | Snapshot | DurableIntent | Apply | Verify | Restore
| Recovery | Transport | Config.
#[global] Instance t_eq_dec : EqDecision t. Proof. solve_decision. Defined.
Definition fmt (x : t) : string :=
  match x with
  | Detect => "detect" | Plan => "plan" | Snapshot => "snapshot"
  | DurableIntent => "durable_intent" | Apply => "apply" | Verify => "verify"
  | Restore => "restore" | Recovery => "recovery" | Transport => "transport"
  | Config => "config"
  end.
End Stage.

Module ErrorCode.
Inductive t :=
| ConfigError | CapabilityError | Unsupported | AuthorizationError
| TargetError | PlanningError | SnapshotError | DurabilityError
| TransportError | ApplyError | VerificationError | RestoreConflict
| RestoreError | JournalCorrupt | InvariantViolation | InvalidInput.
#[global] Instance t_eq_dec : EqDecision t. Proof. solve_decision. Defined.
Definition fmt (x : t) : string :=
  match x with
  | ConfigError => "config_error" | CapabilityError => "capability_error"
  | Unsupported => "unsupported" | AuthorizationError => "authorization_error"
  | TargetError => "target_error" | PlanningError => "planning_error"
  | SnapshotError => "snapshot_error" | DurabilityError => "durability_error"
  | TransportError => "transport_error" | ApplyError => "apply_error"
  | VerificationError => "verification_error"
  | RestoreConflict => "restore_conflict" | RestoreError => "restore_error"
  | JournalCorrupt => "journal_corrupt"
  | InvariantViolation => "invariant_violation"
  | InvalidInput => "invalid_input"
  end.
End ErrorCode.

(** Whether retrying without changing state is safe. *)
Module Retryability.
Inductive t := Never | Retry | AfterRecovery | Unknown.
#[global] Instance t_eq_dec : EqDecision t. Proof. solve_decision. Defined.
End Retryability.

Module ErrorContext.
Record t := mk {
  stage : option Stage.t;
  session_id : option SessionId.t;
  mutation_id : option MutationId.t;
  backend_id : option BackendId.t;
  capability_id : option CapabilityId.t;
  target_id : option TargetId.t
}.
#[global] Instance t_eq_dec : EqDecision t. Proof. solve_decision. Defined.
Definition default : t := mk None None None None None None.
End ErrorContext.

Module SysboostError.
Record t := mk {
  code : ErrorCode.t;
  message : string;
  context : ErrorContext.t;
  retryability : Retryability.t
}.
#[global] Instance t_eq_dec : EqDecision t. Proof. solve_decision. Defined.

Definition new (code : ErrorCode.t) (message : string) : t :=
  mk code message ErrorContext.default Retryability.Never.

Definition with_stage (stage : Stage.t) (e : t) : t :=
  let 'ErrorContext.mk _ s m b c g := e.(context) in
  mk e.(code) e.(message) (ErrorContext.mk (Some stage) s m b c g) e.(retryability).

Definition with_session (session_id : SessionId.t) (e : t) : t :=
  let 'ErrorContext.mk st _ m b c g := e.(context) in
  mk e.(code) e.(message) (ErrorContext.mk st (Some session_id) m b c g) e.(retryability).

Definition with_mutation (mutation_id : MutationId.t) (e : t) : t :=
  let 'ErrorContext.mk st s _ b c g := e.(context) in
  mk e.(code) e.(message) (ErrorContext.mk st s (Some mutation_id) b c g) e.(retryability).

Definition with_backend (backend_id : BackendId.t) (e : t) : t :=
  let 'ErrorContext.mk st s m _ c g := e.(context) in
  mk e.(code) e.(message) (ErrorContext.mk st s m (Some backend_id) c g) e.(retryability).

Definition with_capability (capability_id : CapabilityId.t) (e : t) : t :=
  let 'ErrorContext.mk st s m b _ g := e.(context) in
  mk e.(code) e.(message) (ErrorContext.mk st s m b (Some capability_id) g) e.(retryability).

Definition with_target (target_id : TargetId.t) (e : t) : t :=
  let 'ErrorContext.mk st s m b c _ := e.(context) in
  mk e.(code) e.(message) (ErrorContext.mk st s m b c (Some target_id)) e.(retryability).

Definition retryable (r : Retryability.t) (e : t) : t :=
  mk e.(code) e.(message) e.(context) r.
End SysboostError.

(** [Result<A, SysboostError>]. *)
Notation Result := (result SysboostError.t).

(** Builder chains read in the order of the source: [new c m |> with_stage s]. *)
Notation "e |> f" := (f e) (at level 45, left associativity, only parsing).

(** The builders change only the context or the retry guidance. *)
Lemma code_with_stage s e : SysboostError.code (SysboostError.with_stage s e) = SysboostError.code e.
Proof. by destruct e as [? ? [] ?]. Qed.
Lemma code_with_session s e : SysboostError.code (SysboostError.with_session s e) = SysboostError.code e.
Proof. by destruct e as [? ? [] ?]. Qed.
Lemma code_with_mutation s e : SysboostError.code (SysboostError.with_mutation s e) = SysboostError.code e.
Proof. by destruct e as [? ? [] ?]. Qed.
Lemma message_with_stage s e : SysboostError.message (SysboostError.with_stage s e) = SysboostError.message e.
Proof. by destruct e as [? ? [] ?]. Qed.
Lemma message_with_session s e : SysboostError.message (SysboostError.with_session s e) = SysboostError.message e.
Proof. by destruct e as [? ? [] ?]. Qed.
Lemma message_with_mutation s e : SysboostError.message (SysboostError.with_mutation s e) = SysboostError.message e.
Proof. by destruct e as [? ? [] ?]. Qed.
Lemma retryability_with_stage s e : SysboostError.retryability (SysboostError.with_stage s e) = SysboostError.retryability e.
Proof. by destruct e as [? ? [] ?]. Qed.
Lemma retryability_with_session s e : SysboostError.retryability (SysboostError.with_session s e) = SysboostError.retryability e.
Proof. by destruct e as [? ? [] ?]. Qed.
Lemma retryability_with_mutation s e : SysboostError.retryability (SysboostError.with_mutation s e) = SysboostError.retryability e.
Proof. by destruct e as [? ? [] ?]. Qed.

Create HintDb errors.
#[export] Hint Rewrite code_with_stage code_with_session code_with_mutation
  message_with_stage message_with_session message_with_mutation
  retryability_with_stage retryability_with_session retryability_with_mutation : errors.
