(* ===== verification/Process.v ===== *)
(** * Process identities ([sysboost-platform/src/process.rs])

    A PID is only a locator; the identity also carries the start time of the
    process and the boot, so that a reused PID is not mistaken for its former
    owner. *)
From Stdlib Require Import Strings.Byte.
From S2P Require Import Prelude Ids.
Local Open Scope N_scope.

Module ProcessIdentity.
Record t := mk { pid : u32; generation : u64; boot_id : array 16 }.
#[global] Instance t_eq_dec : EqDecision t. Proof. solve_decision. Defined.
#[global] Instance t_countable : Countable t.
Proof.
  apply (inj_countable' (λ x, (x.(pid), x.(generation), x.(boot_id)))
           (λ '(p, g, b), mk p g b)).
  by intros [].
Defined.

Definition zero_boot : array 16 := array_repeat 16 x00.

Definition new (pid : u32) (generation : u64) : Result t :=
  if pid =? 0 then Err (SysboostError.new ErrorCode.InvalidInput "process ID must be non-zero")
  else Ok (mk pid generation zero_boot).

Definition with_boot_id (pid : u32) (generation : u64) (boot_id : array 16) : Result t :=
  if pid =? 0 then Err (SysboostError.new ErrorCode.InvalidInput "process ID must be non-zero")
  else if (generation =? 0) || bool_decide (boot_id = zero_boot)
  then Err (SysboostError.new ErrorCode.InvalidInput
              "process identity requires a non-zero start and boot identity")
  else Ok (mk pid generation boot_id).

Definition fixture := mk.

Definition same_generation (x other : t) : bool :=
  (x.(pid) =? other.(pid))
  && negb (x.(generation) =? 0)
  && (x.(generation) =? other.(generation))
  && negb (bool_decide (x.(boot_id) = zero_boot))
  && bool_decide (x.(boot_id) = other.(boot_id)).

(** An identity strong enough to own something. *)
Definition strong (x : t) : Prop := x.(generation) ≠ 0 ∧ x.(boot_id) ≠ zero_boot.
#[global] Instance strong_dec x : Decision (strong x). Proof. unfold strong. apply _. Defined.

(** The type invariant: the widths of the fields. *)
Definition wf (x : t) : Prop := fits 32 x.(pid) ∧ fits 64 x.(generation).
End ProcessIdentity.

(** [FixedProcessIdentity]: the provider of fixtures. *)
Module FixedProcessIdentity.
Record t := mk { identity : ProcessIdentity.t }.
Definition new := mk.
Definition current (x : t) : Result ProcessIdentity.t := Ok x.(identity).
End FixedProcessIdentity.

Lemma same_generation_true x y :
  ProcessIdentity.same_generation x y = true ↔ x = y ∧ ProcessIdentity.strong x.
Proof.
  unfold ProcessIdentity.same_generation, ProcessIdentity.strong.
  destruct x as [p g b], y as [p' g' b']. cbn.
  rewrite !andb_true_iff, !negb_true_iff, !N.eqb_eq, N.eqb_neq, !bool_decide_eq_true,
    bool_decide_eq_false. naive_solver.
Qed.

Lemma with_boot_id_Ok p g b x :
  ProcessIdentity.with_boot_id p g b = Ok x ↔
  x = ProcessIdentity.mk p g b ∧ p ≠ 0 ∧ ProcessIdentity.strong x.
Proof.
  unfold ProcessIdentity.with_boot_id, ProcessIdentity.strong.
  destruct (N.eqb_spec p 0); [naive_solver|]. destruct (N.eqb_spec g 0); [naive_solver|].
  cbn. case_bool_decide; naive_solver.
Qed.
