(* ===== verification/Mut.v ===== *)
(** * The state-and-error monad of [&mut self] methods

    A method that takes [&mut self] and returns a [Result] may fail after it
    has changed its receiver, and the coordinator sometimes ignores such a
    failure; so the final state is kept on both paths. *)
From S2P Require Import Prelude Ids.

Definition Mut (S A : Type) : Type := S → Result A * S.

#[export] Instance mut_ret S : MRet (Mut S) := λ A a s, (Ok a, s).
#[export] Instance mut_bind S : MBind (Mut S) := λ A B f m s,
  match m s with
  | (Ok a, s') => f a s'
  | (Err e, s') => (Err e, s')
  end.

#[export] Instance mut_fmap S : FMap (Mut S) := λ A B f m, m ≫= λ a, mret (f a).

Definition get {S} : Mut S S := λ s, (Ok s, s).
Definition modify {S} (f : S → S) : Mut S unit := λ s, (Ok tt, f s).
Definition throw {S A} (e : SysboostError.t) : Mut S A := λ s, (Err e, s).
Definition lift {S A} (r : Result A) : Mut S A := λ s, (r, s).

(** [match m { Ok(..) => .., Err(..) => .. }] and [let _ = m]. *)
Definition catch {S A} (m : Mut S A) : Mut S (Result A) :=
  λ s, let '(r, s') := m s in (Ok r, s').
Definition ignore {S A} (m : Mut S A) : Mut S unit :=
  λ s, let '(_, s') := m s in (Ok tt, s').

Definition mut_map_err {S A} (f : SysboostError.t → SysboostError.t) (m : Mut S A) : Mut S A :=
  λ s, let '(r, s') := m s in (map_err f r, s').

(** [for x in l { f(x)?; }] *)
Fixpoint mut_for_each {S A} (f : A → Mut S unit) (l : list A) : Mut S unit :=
  match l with
  | [] => mret tt
  | x :: l' => _ ← f x; mut_for_each f l'
  end.

(** [for _ in 0..n { v.push(m?); }] *)
Fixpoint mut_repeat {S A} (n : nat) (m : Mut S A) : Mut S (list A) :=
  match n with
  | O => mret []
  | S n' => x ← m; l ← mut_repeat n' m; mret (x :: l)
  end.

Lemma mut_bind_Ok {S A B} (m : Mut S A) (f : A → Mut S B) s b s'' :
  (m ≫= f) s = (Ok b, s'') ↔ ∃ a s', m s = (Ok a, s') ∧ f a s' = (Ok b, s'').
Proof. unfold mbind, mut_bind. destruct (m s) as [[]?]; naive_solver. Qed.

Lemma mut_bind_run {S A B} (m : Mut S A) (f : A → Mut S B) s a s' :
  m s = (Ok a, s') → (m ≫= f) s = f a s'.
Proof. unfold mbind, mut_bind. by intros ->. Qed.

Lemma mut_bind_cases {S A B} (m : Mut S A) (f : A → Mut S B) s res s' :
  (m ≫= f) s = (res, s') →
  (∃ e, m s = (Err e, s') ∧ res = Err e) ∨ (∃ a s1, m s = (Ok a, s1) ∧ f a s1 = (res, s')).
Proof.
  unfold mbind, mut_bind. destruct (m s) as [[a|e] s1]; intros H; [right|left].
  - by exists a, s1.
  - injection H as <- <-. by exists e.
Qed.

Lemma catch_run {S A} (m : Mut S A) s x s' :
  catch m s = (x, s') → ∃ r, m s = (r, s') ∧ x = Ok r.
Proof. unfold catch. destruct (m s) as [r s1]. intros [= <- <-]. by exists r. Qed.

(** [inv_mut] opens every successful bind of the state monad. *)
Ltac inv_mut :=
  repeat match goal with
  | H : mbind _ _ _ = (Ok _, _) |- _ =>
      apply mut_bind_Ok in H;
      let a := fresh "a" in let s := fresh "s" in destruct H as (a & s & ? & H)
  | H : mret _ _ = (Ok _, _) |- _ => unfold mret, mut_ret in H
  | H : lift _ _ = (Ok _, _) |- _ => unfold lift in H
  | H : get _ = (Ok _, _) |- _ => unfold get in H
  | H : modify _ _ = (Ok _, _) |- _ => unfold modify in H
  | H : throw _ _ = (Ok _, _) |- _ => unfold throw in H
  | H : (_, _) = (_, _) |- _ => injection H as H; subst
  | H : (Err _, _) = (Ok _, _) |- _ => discriminate H
  | H : Err _ = Ok _ |- _ => discriminate H
  | H : Ok _ = Ok _ |- _ => injection H as H; subst
  | u : unit |- _ => destruct u
  end.

(** * What every run of a computation keeps

    [Keeps R m]: whether [m] returns or fails, its initial and final states
    are related by [R].  For a preorder [R] this follows the structure of
    the computation, which the tactic [keeps] walks; the relations used are
    invariants ([I s → I s']), frames ([f s = f s']) and what is appended to
    a trace. *)

Definition Keeps {S A} (R : S → S → Prop) (m : Mut S A) : Prop :=
  ∀ s res s', m s = (res, s') → R s s'.

Definition Invariant {S} (I : S → Prop) (s s' : S) : Prop := I s → I s'.
Definition Frame {S A} (f : S → A) (s s' : S) : Prop := f s = f s'.

#[export] Instance Invariant_preorder {S} (I : S → Prop) : PreOrder (Invariant I).
Proof. unfold Invariant. split; [by intros ?|intros ???; auto]. Qed.
#[export] Instance Frame_preorder {S A} (f : S → A) : PreOrder (Frame f).
Proof. unfold Frame. split; [by intros ?|intros ???; congruence]. Qed.

#[local] Set Default Proof Using "Type*".

Section Keeps.
Context {S : Type} (R : S → S → Prop) `{!PreOrder R}.

Lemma Keeps_ret {A} (a : A) : Keeps R (mret a).
Proof. by intros s res s' [= _ <-]. Qed.

Lemma Keeps_throw {A} e : Keeps R (throw (A := A) e).
Proof. by intros s res s' [= _ <-]. Qed.

Lemma Keeps_lift {A} (r : Result A) : Keeps R (lift r).
Proof. by intros s res s' [= _ <-]. Qed.

Lemma Keeps_get : Keeps R get.
Proof. by intros s res s' [= _ <-]. Qed.

Lemma Keeps_bind {A B} (m : Mut S A) (k : A → Mut S B) :
  Keeps R m → (∀ a, Keeps R (k a)) → Keeps R (m ≫= k).
Proof.
  intros Hm Hk s res s'. unfold mbind, mut_bind.
  destruct (m s) as [[a|e] s1] eqn:E; apply Hm in E.
  - intros H. etrans; [done|by eapply Hk].
  - by intros [= _ <-].
Qed.

Lemma Keeps_fmap {A B} (f : A → B) (m : Mut S A) : Keeps R m → Keeps R (f <$> m).
Proof. intros Hm. apply Keeps_bind; [done|intros; apply Keeps_ret]. Qed.

Lemma Keeps_map_err {A} f (m : Mut S A) : Keeps R m → Keeps R (mut_map_err f m).
Proof using Type.
  intros Hm s res s'. unfold mut_map_err. destruct (m s) as [r s1] eqn:E.
  intros [= _ <-]. by eapply Hm.
Qed.

Lemma Keeps_catch {A} (m : Mut S A) : Keeps R m → Keeps R (catch m).
Proof using Type.
  intros Hm s res s'. unfold catch. destruct (m s) as [r s1] eqn:E.
  intros [= _ <-]. by eapply Hm.
Qed.

Lemma Keeps_ignore {A} (m : Mut S A) : Keeps R m → Keeps R (ignore m).
Proof using Type.
  intros Hm s res s'. unfold ignore. destruct (m s) as [r s1] eqn:E.
  intros [= _ <-]. by eapply Hm.
Qed.

Lemma Keeps_for_each {A} (f : A → Mut S unit) l :
  (∀ a, Keeps R (f a)) → Keeps R (mut_for_each f l).
Proof.
  intros Hf. induction l as [|a l IH]; cbn [mut_for_each]; [apply Keeps_ret|].
  apply Keeps_bind; [apply Hf|done].
Qed.
End Keeps.

Lemma Keeps_weaken {S A} (R R' : S → S → Prop) (m : Mut S A) :
  Keeps R m → (∀ s s', R s s' → R' s s') → Keeps R' m.
Proof. intros Hm HR s res s' H. eauto. Qed.

Lemma Keeps_and {S A} (R R' : S → S → Prop) (m : Mut S A) :
  Keeps R m → Keeps R' m → Keeps (λ s s', R s s' ∧ R' s s') m.
Proof. intros HR HR' s res s' H. eauto. Qed.

Create HintDb keeps.
#[export] Hint Extern 1 (PreOrder _) => apply _ : keeps.

Ltac keeps_step :=
  match goal with
  | |- Keeps _ (mret _) => apply Keeps_ret; apply _
  | |- Keeps _ (throw _) => apply Keeps_throw; apply _
  | |- Keeps _ (lift _) => apply Keeps_lift; apply _
  | |- Keeps _ get => apply Keeps_get; apply _
  | |- Keeps _ (mbind _ _) => apply Keeps_bind; [apply _| |intros ?]
  | |- Keeps _ (_ <$> _) => apply Keeps_fmap; [apply _|]
  | |- Keeps _ (mut_map_err _ _) => apply Keeps_map_err
  | |- Keeps _ (catch _) => apply Keeps_catch
  | |- Keeps _ (ignore _) => apply Keeps_ignore
  | |- Keeps _ (mut_for_each _ _) => apply Keeps_for_each; [apply _|intros ?]
  | |- Keeps _ (match ?x with _ => _ end) => destruct x
  | |- Keeps _ _ => solve [eauto with keeps]
  end.
Ltac keeps := repeat keeps_step.
