(* ===== verification/Capability.v ===== *)
(** * Capability evidence ([sysboost-core/src/capability.rs])

    The closed vocabularies that describe what a host supports, and the
    descriptors a backend registers for them. *)
From S2P Require Import Prelude Ids.

(** Stable semantic capability names ([capability::ids]). *)
Module capability_ids.
Definition CPU_POLICY_FREQUENCY_MIN := "cpu.policy.frequency.min".
Definition CPU_POLICY_FREQUENCY_MAX := "cpu.policy.frequency.max".
Definition CPU_POLICY_GOVERNOR := "cpu.policy.governor".
Definition CPU_POLICY_ENERGY_PREFERENCE := "cpu.policy.energy_preference".
Definition CGROUP_CPU_WEIGHT := "cgroup.cpu.weight".
Definition CGROUP_CPU_MAX := "cgroup.cpu.max".
Definition CGROUP_CPUSET_CPUS := "cgroup.cpuset.cpus".
Definition GPU_PERFORMANCE_PROFILE := "gpu.performance.profile".
Definition GPU_POWER_LIMIT := "gpu.power.limit".
Definition IRQ_AFFINITY := "irq.affinity".
Definition KERNEL_SYSCTL_RUNTIME := "kernel.sysctl.runtime".
Definition CPU_BOOST := "cpu.policy.boost".
Definition PLATFORM_PROFILE := "platform.profile".
Definition MEMORY_THP := "memory.thp".
Definition SCHEDULER := "scheduler.facilities".
Definition CGROUP_UCLAMP := "cgroup.uclamp".
Definition CGROUP_IO_WEIGHT := "cgroup.io.weight".
Definition CGROUP_WORKLOAD := "cgroup.workload".
Definition CGROUP_BACKGROUND := "cgroup.background".
Definition PROCESS_PLACEMENT := "scheduler.process.placement".
Definition PROCESS_NICE := "scheduler.nice".
Definition PROCESS_IOPRIO := "scheduler.ioprio".
Definition CHILD_SUPERVISION := "scheduler.child.supervision".
Definition CPU_TOPOLOGY := "cpu.topology".
Definition CPU_CAPACITY := "cpu.capacity".
Definition NUMA_TOPOLOGY := "memory.numa".
End capability_ids.

Module CapabilityState.
Inductive t := Available | ReadOnly | Unsupported | Indeterminate | Denied.
#[global] Instance t_eq_dec : EqDecision t. Proof. solve_decision. Defined.
End CapabilityState.

Module FeatureClass.
Inductive t := RuntimeMutable | Conditional | Experimental | BootOnlyReportOnly.
#[global] Instance t_eq_dec : EqDecision t. Proof. solve_decision. Defined.
End FeatureClass.

(** Equality used for verification and restore. *)
Module EqualityKind.
Inductive t := ByteExact | ScalarExact | SetExact.
#[global] Instance t_eq_dec : EqDecision t. Proof. solve_decision. Defined.
End EqualityKind.

Module PrivilegeRequirement.
Inductive t := None | ReadOnly | PrivilegedMutation.
#[global] Instance t_eq_dec : EqDecision t. Proof. solve_decision. Defined.
End PrivilegeRequirement.

(** Blast radius, ordered as declared. *)
Module RiskClass.
Inductive t := Low | Medium | High | Critical.
#[global] Instance t_eq_dec : EqDecision t. Proof. solve_decision. Defined.
Definition rank (x : t) : nat :=
  match x with Low => 0 | Medium => 1 | High => 2 | Critical => 3 end.
Definition gtb (x y : t) : bool := Nat.ltb (rank y) (rank x).
End RiskClass.

Module TargetKind.
Inductive t := CpuPolicy | CpuSystem | Cgroup | Process | Gpu | Irq | Sysctl.
#[global] Instance t_eq_dec : EqDecision t. Proof. solve_decision. Defined.
End TargetKind.

Module EvidenceSource.
Inductive t := Sysfs | Procfs | CgroupV1 | CgroupV2 | Device | Permission | Synthetic.
#[global] Instance t_eq_dec : EqDecision t. Proof. solve_decision. Defined.
End EvidenceSource.

Module CapabilityEvidence.
Record t := mk { source : EvidenceSource.t; detail : string }.
#[global] Instance t_eq_dec : EqDecision t. Proof. solve_decision. Defined.
End CapabilityEvidence.

Module OperationDescriptor.
Record t := mk {
  id : OperationId.t;
  privilege : PrivilegeRequirement.t;
  equality : EqualityKind.t;
  classification : FeatureClass.t
}.
#[global] Instance t_eq_dec : EqDecision t. Proof. solve_decision. Defined.
End OperationDescriptor.

Module CapabilityDescriptor.
Record t := mk {
  id : CapabilityId.t;
  backend : BackendId.t;
  target_kind : TargetKind.t;
  state : CapabilityState.t;
  operations : list OperationDescriptor.t;
  privilege : PrivilegeRequirement.t;
  equality : EqualityKind.t;
  risk : RiskClass.t;
  classification : FeatureClass.t;
  evidence : list CapabilityEvidence.t
}.
#[global] Instance t_eq_dec : EqDecision t. Proof. solve_decision. Defined.
End CapabilityDescriptor.

Module CapabilityInventory.
Record t := mk {
  observed_at : Timestamp.t;
  capabilities : list CapabilityDescriptor.t
}.
#[global] Instance t_eq_dec : EqDecision t. Proof. solve_decision. Defined.
End CapabilityInventory.

(** A target selector of a capability, without a path. *)
Module CapabilityTarget.
Record t := mk { capability : CapabilityId.t; target : TargetId.t }.
#[global] Instance t_eq_dec : EqDecision t. Proof. solve_decision. Defined.
End CapabilityTarget.
