(* ===== verification/Mutation.v ===== *)
(** * The closed mutation vocabulary ([sysboost-core/src/mutation.rs])

    Each newtype is a module [X] with the constructor [X.new] of the source
    and the type invariant [X.wf] that its private field guarantees. *)
From Stdlib Require Import Strings.Byte.
From stdpp Require Import sorting pretty.
From S2P Require Import Prelude Text Ids Capability.
Local Open Scope N_scope.

Definition MAX_PREIMAGE_BYTES : usize := 4096.

Definition invalid_input {A} (message : string) : Result A :=
  Err (SysboostError.new ErrorCode.InvalidInput message).

Module CpuPolicyId.
Record t := mk { get : u32 }.
#[global] Instance t_eq_dec : EqDecision t. Proof. solve_decision. Defined.
Definition new := mk.
Definition wf (x : t) : Prop := fits 32 x.(get).
End CpuPolicyId.

Module GpuId.
Record t := mk { get : u32 }.
#[global] Instance t_eq_dec : EqDecision t. Proof. solve_decision. Defined.
Definition new := mk.
Definition wf (x : t) : Prop := fits 32 x.(get).
End GpuId.

Module IrqId.
Record t := mk { get : u32 }.
#[global] Instance t_eq_dec : EqDecision t. Proof. solve_decision. Defined.
Definition new := mk.
Definition wf (x : t) : Prop := fits 32 x.(get).
End IrqId.

Module CgroupId.
Record t := mk { mount_id : u64; inode : u64; handle : TargetId.t }.
#[global] Instance t_eq_dec : EqDecision t. Proof. solve_decision. Defined.
Definition new := mk.
Definition wf (x : t) : Prop :=
  fits 64 x.(mount_id) ∧ fits 64 x.(inode) ∧ TargetId.wf x.(handle).
End CgroupId.

(** A process identity: PID and kernel start time. *)
Module ProcessId.
Record t := mk { pid : u32; start_time_ticks : u64 }.
#[global] Instance t_eq_dec : EqDecision t. Proof. solve_decision. Defined.
Definition new (pid : u32) (start_time_ticks : u64) : Result t :=
  if (pid =? 0) || (start_time_ticks =? 0)
  then invalid_input "process identity requires a positive PID and start time"
  else Ok (mk pid start_time_ticks).
Definition wf (x : t) : Prop :=
  fits 32 x.(pid) ∧ fits 64 x.(start_time_ticks) ∧ x.(pid) ≠ 0 ∧ x.(start_time_ticks) ≠ 0.
(** [format!("process.{}.{}", ...)]; the [expect] is justified by
    [process_target_id_valid]. *)
Definition target_text (x : t) : string :=
  "process." +:+ pretty x.(pid) +:+ "." +:+ pretty x.(start_time_ticks).
Definition target_id (x : t) : result IdentifierError.t TargetId.t :=
  TargetId.new (target_text x).
End ProcessId.

Definition name_byte (extra : string) (b : byte) : bool :=
  is_ascii_alphanumeric b || bytes_contain extra b.

(** One cgroup directory name, never a path. *)
Module CgroupName.
Record t := mk { as_str : string }.
#[global] Instance t_eq_dec : EqDecision t. Proof. solve_decision. Defined.
Definition new (value : string) : Result t :=
  if (str_len value =? 0) || (64 <? str_len value)
     || bool_decide (value = ".") || bool_decide (value = "..")
     || negb (forallb (name_byte "._-") (bytes_of_string value))
  then invalid_input "cgroup name is not a bounded single component"
  else Ok (mk value).
Definition wf (x : t) : Prop := new x.(as_str) = Ok x.
End CgroupName.

Module NiceValue.
Record t := mk { get : i8 }.
#[global] Instance t_eq_dec : EqDecision t. Proof. solve_decision. Defined.
Definition MIN : i8 := (-20)%Z.
Definition MAX : i8 := 19%Z.
Definition new (value : i8) : Result t :=
  if negb ((MIN <=? value) && (value <=? MAX))%Z
  then invalid_input "nice value is outside the Linux range"
  else Ok (mk value).
Definition wf (x : t) : Prop := (MIN <= x.(get) <= MAX)%Z.
End NiceValue.

Module IoPriorityClass.
Inductive t := None | BestEffort | Idle.
#[global] Instance t_eq_dec : EqDecision t. Proof. solve_decision. Defined.
End IoPriorityClass.

Module IoPriority.
Record t := mk { class : IoPriorityClass.t; level : u8 }.
#[global] Instance t_eq_dec : EqDecision t. Proof. solve_decision. Defined.
Definition new (class : IoPriorityClass.t) (level : u8) : Result t :=
  if 7 <? level then invalid_input "I/O priority level is outside the Linux range"
  else Ok (mk class level).
Definition wf (x : t) : Prop := x.(level) ≤ 7.
End IoPriority.

Module IoWeight.
Record t := mk { get : u16 }.
#[global] Instance t_eq_dec : EqDecision t. Proof. solve_decision. Defined.
Definition MIN : u16 := 1.
Definition MAX : u16 := 10000.
Definition new (value : u16) : Result t :=
  if negb (in_range MIN MAX value)
  then invalid_input "I/O weight is outside the accepted range"
  else Ok (mk value).
Definition wf (x : t) : Prop := MIN ≤ x.(get) ≤ MAX.
End IoWeight.

(** The variant [Value] is public, so only [UclampValue.new] bounds it. *)
Module UclampValue.
Inductive t := Value (value : u16) | Max.
#[global] Instance t_eq_dec : EqDecision t. Proof. solve_decision. Defined.
Definition new (value : u16) : Result t :=
  if 1024 <? value
  then invalid_input "utilization clamp is outside the 0..=1024 range"
  else Ok (Value value).
Definition get (x : t) : option u16 :=
  match x with Value v => Some v | Max => None end.
Definition wf (x : t) : Prop := match x with Value v => v ≤ 1024 | Max => True end.
End UclampValue.

Module CgroupGroupKind.
Inductive t := Workload | ConservativeBackground.
#[global] Instance t_eq_dec : EqDecision t. Proof. solve_decision. Defined.
End CgroupGroupKind.

Module GovernorId.
Record t := mk { as_str : string }.
#[global] Instance t_eq_dec : EqDecision t. Proof. solve_decision. Defined.
Definition new (value : string) : Result t :=
  if (str_len value =? 0) || (64 <? str_len value)
     || negb (forallb (name_byte "._:-") (bytes_of_string value))
  then invalid_input "governor identifier is not a bounded semantic value"
  else Ok (mk value).
Definition wf (x : t) : Prop := new x.(as_str) = Ok x.
End GovernorId.

Module EnergyPreference.
Inductive t := Performance | BalancePerformance | BalancePower | Power.
#[global] Instance t_eq_dec : EqDecision t. Proof. solve_decision. Defined.
End EnergyPreference.

Module CpuBoostState.
Inductive t := Enabled | Disabled.
#[global] Instance t_eq_dec : EqDecision t. Proof. solve_decision. Defined.
End CpuBoostState.

Module PlatformProfileId.
Record t := mk { as_str : string }.
#[global] Instance t_eq_dec : EqDecision t. Proof. solve_decision. Defined.
Definition new (value : string) : Result t :=
  if (str_len value =? 0) || (64 <? str_len value)
     || negb (forallb (name_byte "._:-") (bytes_of_string value))
  then invalid_input "platform profile identifier is not a bounded semantic value"
  else Ok (mk value).
Definition wf (x : t) : Prop := new x.(as_str) = Ok x.
End PlatformProfileId.

Module FrequencyKHz.
Record t := mk { get : u64 }.
#[global] Instance t_eq_dec : EqDecision t. Proof. solve_decision. Defined.
Definition new (value : u64) : Result t :=
  if value =? 0 then invalid_input "frequency must be greater than zero"
  else Ok (mk value).
Definition wf (x : t) : Prop := fits 64 x.(get) ∧ x.(get) ≠ 0.
End FrequencyKHz.

Module CpuWeight.
Record t := mk { get : u16 }.
#[global] Instance t_eq_dec : EqDecision t. Proof. solve_decision. Defined.
Definition MIN : u16 := 1.
Definition MAX : u16 := 10000.
Definition new (value : u16) : Result t :=
  if negb (in_range MIN MAX value)
  then invalid_input "CPU weight is outside the accepted range"
  else Ok (mk value).
Definition wf (x : t) : Prop := MIN ≤ x.(get) ≤ MAX.
End CpuWeight.

Module CpuPeriod.
Record t := mk { get : u64 }.
#[global] Instance t_eq_dec : EqDecision t. Proof. solve_decision. Defined.
Definition MIN : u64 := 1000.
Definition MAX : u64 := 1000000.
Definition new (value : u64) : Result t :=
  if negb (in_range MIN MAX value)
  then invalid_input "CPU period is outside the accepted range"
  else Ok (mk value).
Definition wf (x : t) : Prop := MIN ≤ x.(get) ≤ MAX.
End CpuPeriod.

(** The variant [Micros] is public, so only [CpuQuota.micros] rejects 0. *)
Module CpuQuota.
Inductive t := Max | Micros (value : u64).
#[global] Instance t_eq_dec : EqDecision t. Proof. solve_decision. Defined.
Definition micros (value : u64) : Result t :=
  if value =? 0 then invalid_input "finite CPU quota must be greater than zero"
  else Ok (Micros value).
Definition wf (x : t) : Prop :=
  match x with Max => True | Micros v => fits 64 v ∧ v ≠ 0 end.
End CpuQuota.

(** [Vec::dedup]: keep the first element of every run of equal ones. *)
Fixpoint dedup_from {A} `{!EqDecision A} (x : A) (l : list A) : list A :=
  match l with
  | [] => []
  | y :: l' => if decide (y = x) then dedup_from x l' else y :: dedup_from y l'
  end.
Definition dedup {A} `{!EqDecision A} (l : list A) : list A :=
  match l with [] => [] | x :: l' => x :: dedup_from x l' end.

(** [slice::binary_search(..).is_ok()] over the index interval [lo, hi). *)
Fixpoint binary_search_ok (fuel : nat) (l : list u32) (lo hi : nat) (x : u32) : bool :=
  match fuel with
  | O => false
  | S fuel' =>
    if Nat.ltb lo hi then
      let mid := Nat.div (lo + hi) 2 in
      match l !! mid with
      | Some y => if y =? x then true
                  else if y <? x then binary_search_ok fuel' l (S mid) hi x
                  else binary_search_ok fuel' l lo mid x
      | None => false
      end
    else false
  end.

(** A sorted, duplicate-free, non-empty CPU set. *)
Module CpuSet.
Record t := mk { as_slice : list u32 }.
#[global] Instance t_eq_dec : EqDecision t. Proof. solve_decision. Defined.
Definition new (cpus : list u32) : Result t :=
  let cpus := dedup (merge_sort N.le cpus) in
  if bool_decide (cpus = []) then invalid_input "CPU set must not be empty"
  else Ok (mk cpus).
Definition len (x : t) : nat := length x.(as_slice).
Definition is_empty (x : t) : bool := bool_decide (x.(as_slice) = []).
Definition contains (x : t) (cpu : u32) : bool :=
  binary_search_ok (S (len x)) x.(as_slice) 0 (len x) cpu.
Definition is_subset_of (x other : t) : bool :=
  forallb (contains other) x.(as_slice).
Definition intersects (x other : t) : bool :=
  existsb (contains other) x.(as_slice).
Definition wf (x : t) : Prop :=
  StronglySorted N.lt x.(as_slice) ∧ x.(as_slice) ≠ [] ∧ Forall (fits 32) x.(as_slice).
End CpuSet.

Module GpuProfile.
Inductive t := Performance | Balanced | PowerSave.
#[global] Instance t_eq_dec : EqDecision t. Proof. solve_decision. Defined.
End GpuProfile.

Module PowerMilliwatts.
Record t := mk { get : u32 }.
#[global] Instance t_eq_dec : EqDecision t. Proof. solve_decision. Defined.
Definition new (value : u32) : Result t :=
  if value =? 0 then invalid_input "power limit must be greater than zero"
  else Ok (mk value).
Definition wf (x : t) : Prop := fits 32 x.(get) ∧ x.(get) ≠ 0.
End PowerMilliwatts.

Module ApprovedSysctlKey.
Inductive t := SchedulerUtilClamping.
#[global] Instance t_eq_dec : EqDecision t. Proof. solve_decision. Defined.
End ApprovedSysctlKey.

Module ApprovedSysctlValue.
Record t := mk { get : i64 }.
#[global] Instance t_eq_dec : EqDecision t. Proof. solve_decision. Defined.
Definition new := mk.
Definition wf (x : t) : Prop := fits_signed 64 x.(get).
End ApprovedSysctlValue.

(** Raw preimage bytes, bounded by [MAX_PREIMAGE_BYTES]. *)
Module BoundedBytes.
Record t := mk { as_slice : list byte }.
#[global] Instance t_eq_dec : EqDecision t. Proof. solve_decision. Defined.
Definition new (value : list byte) : Result t :=
  if MAX_PREIMAGE_BYTES <? N.of_nat (length value)
  then Err (SysboostError.new ErrorCode.SnapshotError
              "preimage exceeds the journal byte bound"
            |> SysboostError.with_stage Stage.Snapshot)
  else Ok (mk value).
Definition wf (x : t) : Prop := N.of_nat (length x.(as_slice)) ≤ MAX_PREIMAGE_BYTES.
End BoundedBytes.

Module StateFingerprint.
Record t := mk { as_bytes : array 32 }.
#[global] Instance t_eq_dec : EqDecision t. Proof. solve_decision. Defined.
Definition from_bytes := mk.
End StateFingerprint.

Module TargetIdentity.
Record t := mk { as_bytes : array 16 }.
#[global] Instance t_eq_dec : EqDecision t. Proof. solve_decision. Defined.
Definition from_bytes := mk.
End TargetIdentity.

(** ** The operation vocabulary *)

Module MutationKind.
Inductive t :=
| CpuFrequency (policy : CpuPolicyId.t) (min_khz max_khz : option FrequencyKHz.t)
| CpuGovernor (policy : CpuPolicyId.t) (governor : GovernorId.t)
| CpuEnergyPreference (policy : CpuPolicyId.t) (value : EnergyPreference.t)
| CpuBoost (state : CpuBoostState.t)
| PlatformProfile (profile : PlatformProfileId.t)
| CgroupCpuWeight (cgroup : CgroupId.t) (weight : CpuWeight.t)
| CgroupCpuMax (cgroup : CgroupId.t) (quota : CpuQuota.t) (period : CpuPeriod.t)
| CgroupCpuset (cgroup : CgroupId.t) (cpus : CpuSet.t)
| CgroupIoWeight (cgroup : CgroupId.t) (weight : IoWeight.t)
| CgroupUclampMin (cgroup : CgroupId.t) (value : UclampValue.t)
| CgroupUclampMax (cgroup : CgroupId.t) (value : UclampValue.t)
| CgroupWorkload (parent : CgroupId.t) (name : CgroupName.t)
| CgroupBackground (parent : CgroupId.t) (name : CgroupName.t)
| ProcessPlacement (process : ProcessId.t) (cgroup : CgroupId.t)
| ProcessNice (process : ProcessId.t) (nice : NiceValue.t)
| ProcessIoPriority (process : ProcessId.t) (priority : IoPriority.t)
| GpuPerformanceProfile (device : GpuId.t) (profile : GpuProfile.t)
| GpuPowerLimit (device : GpuId.t) (milliwatts : PowerMilliwatts.t)
| IrqAffinity (irq : IrqId.t) (cpus : CpuSet.t)
| RuntimeSysctl (key : ApprovedSysctlKey.t) (value : ApprovedSysctlValue.t).
#[global] Instance t_eq_dec : EqDecision t. Proof. solve_decision. Defined.
End MutationKind.

(** Typed payload corresponding to a [MutationKind]. *)
Module TypedValue.
Inductive t :=
| CpuFrequency (min_khz max_khz : option FrequencyKHz.t)
| Governor (governor : GovernorId.t)
| EnergyPreference (value : EnergyPreference.t)
| CpuBoost (state : CpuBoostState.t)
| PlatformProfile (profile : PlatformProfileId.t)
| CgroupCpuWeight (weight : CpuWeight.t)
| CgroupCpuMax (quota : CpuQuota.t) (period : CpuPeriod.t)
| CgroupCpuset (cpus : CpuSet.t)
| CgroupIoWeight (weight : IoWeight.t)
| CgroupUclamp (value : UclampValue.t)
| CgroupLifecycle (kind : CgroupGroupKind.t) (name : CgroupName.t) (present : bool)
| ProcessPlacement (cgroup : CgroupId.t)
| Nice (nice : NiceValue.t)
| IoPriority (priority : IoPriority.t)
| GpuPerformanceProfile (profile : GpuProfile.t)
| GpuPowerLimit (limit : PowerMilliwatts.t)
| IrqAffinity (cpus : CpuSet.t)
| RuntimeSysctl (key : ApprovedSysctlKey.t) (value : ApprovedSysctlValue.t).
#[global] Instance t_eq_dec : EqDecision t. Proof. solve_decision. Defined.
End TypedValue.

(** The static operation name of a kind; [MutationKind_operation_id] builds
    the identifier and [operation_id_static] justifies its [expect]. *)
Definition operation_name (k : MutationKind.t) : string :=
  match k with
  | MutationKind.CpuFrequency _ _ _ => "cpu.frequency"
  | MutationKind.CpuGovernor _ _ => "cpu.governor"
  | MutationKind.CpuEnergyPreference _ _ => "cpu.energy_preference"
  | MutationKind.CpuBoost _ => "cpu.boost"
  | MutationKind.PlatformProfile _ => "platform.profile"
  | MutationKind.CgroupCpuWeight _ _ => "cgroup.cpu.weight"
  | MutationKind.CgroupCpuMax _ _ _ => "cgroup.cpu.max"
  | MutationKind.CgroupCpuset _ _ => "cgroup.cpuset.cpus"
  | MutationKind.CgroupIoWeight _ _ => "cgroup.io.weight"
  | MutationKind.CgroupUclampMin _ _ => "cgroup.uclamp.min"
  | MutationKind.CgroupUclampMax _ _ => "cgroup.uclamp.max"
  | MutationKind.CgroupWorkload _ _ => "cgroup.workload"
  | MutationKind.CgroupBackground _ _ => "cgroup.background"
  | MutationKind.ProcessPlacement _ _ => "scheduler.process.placement"
  | MutationKind.ProcessNice _ _ => "scheduler.nice"
  | MutationKind.ProcessIoPriority _ _ => "scheduler.ioprio"
  | MutationKind.GpuPerformanceProfile _ _ => "gpu.performance.profile"
  | MutationKind.GpuPowerLimit _ _ => "gpu.power.limit"
  | MutationKind.IrqAffinity _ _ => "irq.affinity"
  | MutationKind.RuntimeSysctl _ _ => "kernel.sysctl.runtime"
  end.

(** [OperationId::new(value).expect(..)]: the [expect] cannot fail, see
    [operation_id_static]. *)
Definition operation_id (k : MutationKind.t) : OperationId.t :=
  OperationId.mk (operation_name k).

Definition typed_value (k : MutationKind.t) : TypedValue.t :=
  match k with
  | MutationKind.CpuFrequency _ min max => TypedValue.CpuFrequency min max
  | MutationKind.CpuGovernor _ governor => TypedValue.Governor governor
  | MutationKind.CpuEnergyPreference _ value => TypedValue.EnergyPreference value
  | MutationKind.CpuBoost state => TypedValue.CpuBoost state
  | MutationKind.PlatformProfile profile => TypedValue.PlatformProfile profile
  | MutationKind.CgroupCpuWeight _ weight => TypedValue.CgroupCpuWeight weight
  | MutationKind.CgroupCpuMax _ quota period => TypedValue.CgroupCpuMax quota period
  | MutationKind.CgroupCpuset _ cpus => TypedValue.CgroupCpuset cpus
  | MutationKind.CgroupIoWeight _ weight => TypedValue.CgroupIoWeight weight
  | MutationKind.CgroupUclampMin _ value | MutationKind.CgroupUclampMax _ value =>
      TypedValue.CgroupUclamp value
  | MutationKind.CgroupWorkload _ name =>
      TypedValue.CgroupLifecycle CgroupGroupKind.Workload name true
  | MutationKind.CgroupBackground _ name =>
      TypedValue.CgroupLifecycle CgroupGroupKind.ConservativeBackground name true
  | MutationKind.ProcessPlacement _ cgroup => TypedValue.ProcessPlacement cgroup
  | MutationKind.ProcessNice _ nice => TypedValue.Nice nice
  | MutationKind.ProcessIoPriority _ priority => TypedValue.IoPriority priority
  | MutationKind.GpuPerformanceProfile _ profile => TypedValue.GpuPerformanceProfile profile
  | MutationKind.GpuPowerLimit _ milliwatts => TypedValue.GpuPowerLimit milliwatts
  | MutationKind.IrqAffinity _ cpus => TypedValue.IrqAffinity cpus
  | MutationKind.RuntimeSysctl key value => TypedValue.RuntimeSysctl key value
  end.

Definition planning_error {A} (message : string) : Result A :=
  Err (SysboostError.new ErrorCode.PlanningError message
       |> SysboostError.with_stage Stage.Plan).

Definition validate_kind (k : MutationKind.t) : Result unit :=
  match k with
  | MutationKind.CpuFrequency _ None None =>
      planning_error "CPU frequency mutation must select a minimum or maximum"
  | MutationKind.CpuFrequency _ (Some min) (Some max) =>
      if FrequencyKHz.get max <? FrequencyKHz.get min
      then planning_error "CPU frequency minimum exceeds maximum" else Ok tt
  | MutationKind.CgroupUclampMin _ UclampValue.Max =>
      planning_error "cgroup uclamp.min cannot use the max sentinel"
  | _ => Ok tt
  end.

(** ** Type invariants of the vocabulary *)

Definition option_wf {A} (P : A → Prop) (o : option A) : Prop :=
  match o with Some a => P a | None => True end.

Definition kind_wf (k : MutationKind.t) : Prop :=
  match k with
  | MutationKind.CpuFrequency p min max =>
      CpuPolicyId.wf p ∧ option_wf FrequencyKHz.wf min ∧ option_wf FrequencyKHz.wf max
  | MutationKind.CpuGovernor p g => CpuPolicyId.wf p ∧ GovernorId.wf g
  | MutationKind.CpuEnergyPreference p _ => CpuPolicyId.wf p
  | MutationKind.CpuBoost _ => True
  | MutationKind.PlatformProfile p => PlatformProfileId.wf p
  | MutationKind.CgroupCpuWeight c w => CgroupId.wf c ∧ CpuWeight.wf w
  | MutationKind.CgroupCpuMax c q p => CgroupId.wf c ∧ CpuQuota.wf q ∧ CpuPeriod.wf p
  | MutationKind.CgroupCpuset c s => CgroupId.wf c ∧ CpuSet.wf s
  | MutationKind.CgroupIoWeight c w => CgroupId.wf c ∧ IoWeight.wf w
  | MutationKind.CgroupUclampMin c v | MutationKind.CgroupUclampMax c v =>
      CgroupId.wf c ∧ UclampValue.wf v
  | MutationKind.CgroupWorkload c n | MutationKind.CgroupBackground c n =>
      CgroupId.wf c ∧ CgroupName.wf n
  | MutationKind.ProcessPlacement p c => ProcessId.wf p ∧ CgroupId.wf c
  | MutationKind.ProcessNice p n => ProcessId.wf p ∧ NiceValue.wf n
  | MutationKind.ProcessIoPriority p i => ProcessId.wf p ∧ IoPriority.wf i
  | MutationKind.GpuPerformanceProfile d _ => GpuId.wf d
  | MutationKind.GpuPowerLimit d m => GpuId.wf d ∧ PowerMilliwatts.wf m
  | MutationKind.IrqAffinity i s => IrqId.wf i ∧ CpuSet.wf s
  | MutationKind.RuntimeSysctl _ v => ApprovedSysctlValue.wf v
  end.

Definition value_wf (v : TypedValue.t) : Prop :=
  match v with
  | TypedValue.CpuFrequency min max =>
      option_wf FrequencyKHz.wf min ∧ option_wf FrequencyKHz.wf max
  | TypedValue.Governor g => GovernorId.wf g
  | TypedValue.EnergyPreference _ => True
  | TypedValue.CpuBoost _ => True
  | TypedValue.PlatformProfile p => PlatformProfileId.wf p
  | TypedValue.CgroupCpuWeight w => CpuWeight.wf w
  | TypedValue.CgroupCpuMax q p => CpuQuota.wf q ∧ CpuPeriod.wf p
  | TypedValue.CgroupCpuset s => CpuSet.wf s
  | TypedValue.CgroupIoWeight w => IoWeight.wf w
  | TypedValue.CgroupUclamp v => UclampValue.wf v
  | TypedValue.CgroupLifecycle _ n _ => CgroupName.wf n
  | TypedValue.ProcessPlacement c => CgroupId.wf c
  | TypedValue.Nice n => NiceValue.wf n
  | TypedValue.IoPriority i => IoPriority.wf i
  | TypedValue.GpuPerformanceProfile _ => True
  | TypedValue.GpuPowerLimit m => PowerMilliwatts.wf m
  | TypedValue.IrqAffinity s => CpuSet.wf s
  | TypedValue.RuntimeSysctl _ v => ApprovedSysctlValue.wf v
  end.

(** ** Planned mutations, snapshots and receipts *)

Module RestoreMode.
Inductive t := CompareAndRestore.
#[global] Instance t_eq_dec : EqDecision t. Proof. solve_decision. Defined.
End RestoreMode.

Module RollbackContract.
Record t := mk { equality : EqualityKind.t; mode : RestoreMode.t }.
#[global] Instance t_eq_dec : EqDecision t. Proof. solve_decision. Defined.
End RollbackContract.

Module PlannedMutation.
Record t := mk {
  mutation_id : MutationId.t;
  capability : CapabilityId.t;
  target : TargetId.t;
  kind : MutationKind.t;
  desired : TypedValue.t;
  precondition : StateFingerprint.t;
  equality : EqualityKind.t;
  dependencies : list MutationId.t;
  rollback : RollbackContract.t
}.
#[global] Instance t_eq_dec : EqDecision t. Proof. solve_decision. Defined.

Definition new (mutation_id : MutationId.t) (capability : CapabilityId.t)
    (target : TargetId.t) (kind : MutationKind.t) (desired : TypedValue.t)
    (precondition : StateFingerprint.t) (equality : EqualityKind.t)
    (dependencies : list MutationId.t) : Result t :=
  _ ← validate_kind kind;
  if negb (bool_decide (typed_value kind = desired))
  then Err (SysboostError.new ErrorCode.PlanningError
              "mutation kind and typed desired value disagree"
            |> SysboostError.with_stage Stage.Plan
            |> SysboostError.with_mutation mutation_id)
  else if bool_decide (mutation_id ∈ dependencies)
  then Err (SysboostError.new ErrorCode.PlanningError
              "mutation cannot depend on itself"
            |> SysboostError.with_stage Stage.Plan
            |> SysboostError.with_mutation mutation_id)
  else Ok (mk mutation_id capability target kind desired precondition equality
             dependencies
             (RollbackContract.mk equality RestoreMode.CompareAndRestore)).

(** Integer widths and newtype invariants of the fields. *)
Definition fields_wf (m : t) : Prop :=
  MutationId.wf m.(mutation_id) ∧ CapabilityId.wf m.(capability)
  ∧ TargetId.wf m.(target) ∧ kind_wf m.(kind) ∧ value_wf m.(desired)
  ∧ Forall MutationId.wf m.(dependencies).

(** What [new] establishes beyond the field types. *)
Definition consistent (m : t) : Prop :=
  validate_kind m.(kind) = Ok tt ∧ typed_value m.(kind) = m.(desired)
  ∧ m.(mutation_id) ∉ m.(dependencies)
  ∧ m.(rollback) = RollbackContract.mk m.(equality) RestoreMode.CompareAndRestore.

Definition wf (m : t) : Prop := fields_wf m ∧ consistent m.
End PlannedMutation.

Module Snapshot.
Record t := mk {
  mutation_id : MutationId.t;
  target : TargetId.t;
  original_raw : BoundedBytes.t;
  original_typed : TypedValue.t;
  original_fingerprint : StateFingerprint.t;
  equality : EqualityKind.t;
  target_identity : TargetIdentity.t;
  captured_at : Timestamp.t
}.
#[global] Instance t_eq_dec : EqDecision t. Proof. solve_decision. Defined.
Definition wf (s : t) : Prop :=
  MutationId.wf s.(mutation_id) ∧ TargetId.wf s.(target)
  ∧ BoundedBytes.wf s.(original_raw) ∧ value_wf s.(original_typed)
  ∧ Timestamp.wf s.(captured_at).
End Snapshot.

Module ApplyReceipt.
Record t := mk {
  mutation_id : MutationId.t;
  observed_precondition : StateFingerprint.t;
  observed_postcondition : StateFingerprint.t;
  ownership_fingerprint : StateFingerprint.t
}.
#[global] Instance t_eq_dec : EqDecision t. Proof. solve_decision. Defined.
Definition wf (r : t) : Prop := MutationId.wf r.(mutation_id).
End ApplyReceipt.

Module RestoreReceipt.
Record t := mk {
  mutation_id : MutationId.t;
  restored_fingerprint : StateFingerprint.t;
  verified : bool
}.
#[global] Instance t_eq_dec : EqDecision t. Proof. solve_decision. Defined.
Definition wf (r : t) : Prop := MutationId.wf r.(mutation_id).
End RestoreReceipt.
