(* ===== verification/MutationLaws.v ===== *)
(** * Laws of the mutation vocabulary

    Every newtype constructor accepts exactly the values of its type
    invariant; CPU sets are canonical; a planned mutation carries the
    desired value of its kind. *)
From Stdlib Require Import Strings.Byte.
From stdpp Require Import sorting pretty.
From S2P Require Import Prelude Text Ids Capability Mutation.
Local Open Scope N_scope.

(** ** Newtypes *)

Lemma ProcessId_new_wf x : ProcessId.wf x → ProcessId.new x.(ProcessId.pid) x.(ProcessId.start_time_ticks) = Ok x.
Proof.
  destruct x as [p s]. unfold ProcessId.wf, ProcessId.new; cbn. intros (_ & _ & Hp & Hs).
  by rewrite (proj2 (N.eqb_neq p 0)), (proj2 (N.eqb_neq s 0)).
Qed.

Lemma ProcessId_new_Ok p s x :
  ProcessId.new p s = Ok x → fits 32 p → fits 64 s → ProcessId.wf x.
Proof.
  unfold ProcessId.new, ProcessId.wf, invalid_input.
  destruct (N.eqb_spec p 0), (N.eqb_spec s 0); cbn; intros [= <-]; done.
Qed.

Lemma NiceValue_new_wf x : NiceValue.wf x → NiceValue.new x.(NiceValue.get) = Ok x.
Proof.
  destruct x as [v]. unfold NiceValue.wf, NiceValue.new; cbn [NiceValue.get]. intros [??].
  by rewrite (proj2 (Z.leb_le _ v)), (proj2 (Z.leb_le v _)).
Qed.

Lemma NiceValue_new_Ok v x : NiceValue.new v = Ok x → NiceValue.wf x.
Proof.
  unfold NiceValue.new, NiceValue.wf, invalid_input.
  destruct (Z.leb_spec NiceValue.MIN v), (Z.leb_spec v NiceValue.MAX);
    cbn; intros [= <-]; done.
Qed.

Lemma IoPriority_new_wf x :
  IoPriority.wf x → IoPriority.new x.(IoPriority.class) x.(IoPriority.level) = Ok x.
Proof.
  destruct x as [c l]. unfold IoPriority.wf, IoPriority.new; cbn. intros H.
  by rewrite (proj2 (N.ltb_ge 7 l)).
Qed.

Lemma IoPriority_new_Ok c l x : IoPriority.new c l = Ok x → IoPriority.wf x.
Proof.
  unfold IoPriority.new, IoPriority.wf, invalid_input.
  destruct (N.ltb_spec 7 l); intros [= <-]; done.
Qed.

Lemma in_range_wf {A} lo hi v (e a : A) :
  lo ≤ v ≤ hi → (if negb (in_range lo hi v) then e else a) = a.
Proof. intros H. by rewrite (proj2 (in_range_true lo hi v)). Qed.

Lemma IoWeight_new_wf x : IoWeight.wf x → IoWeight.new x.(IoWeight.get) = Ok x.
Proof. destruct x. apply in_range_wf. Qed.
Lemma CpuWeight_new_wf x : CpuWeight.wf x → CpuWeight.new x.(CpuWeight.get) = Ok x.
Proof. destruct x. apply in_range_wf. Qed.
Lemma CpuPeriod_new_wf x : CpuPeriod.wf x → CpuPeriod.new x.(CpuPeriod.get) = Ok x.
Proof. destruct x. apply in_range_wf. Qed.

Lemma IoWeight_new_Ok v x : IoWeight.new v = Ok x → IoWeight.wf x.
Proof.
  unfold IoWeight.new, IoWeight.wf, invalid_input.
  destruct (in_range _ _ v) eqn:E; intros [= <-]. by apply in_range_true.
Qed.
Lemma CpuWeight_new_Ok v x : CpuWeight.new v = Ok x → CpuWeight.wf x.
Proof.
  unfold CpuWeight.new, CpuWeight.wf, invalid_input.
  destruct (in_range _ _ v) eqn:E; intros [= <-]. by apply in_range_true.
Qed.
Lemma CpuPeriod_new_Ok v x : CpuPeriod.new v = Ok x → CpuPeriod.wf x.
Proof.
  unfold CpuPeriod.new, CpuPeriod.wf, invalid_input.
  destruct (in_range _ _ v) eqn:E; intros [= <-]. by apply in_range_true.
Qed.

Lemma UclampValue_new_wf v : v ≤ 1024 → UclampValue.new v = Ok (UclampValue.Value v).
Proof. intros H. unfold UclampValue.new. by rewrite (proj2 (N.ltb_ge 1024 v)). Qed.
Lemma UclampValue_new_Ok v x : UclampValue.new v = Ok x → UclampValue.wf x.
Proof.
  unfold UclampValue.new, invalid_input.
  destruct (N.ltb_spec 1024 v); intros [= <-]; done.
Qed.

Lemma FrequencyKHz_new_wf x : FrequencyKHz.wf x → FrequencyKHz.new x.(FrequencyKHz.get) = Ok x.
Proof.
  destruct x as [v]. unfold FrequencyKHz.wf, FrequencyKHz.new; cbn [FrequencyKHz.get].
  intros [_ H]. by rewrite (proj2 (N.eqb_neq v 0)).
Qed.
Lemma FrequencyKHz_new_Ok v x : FrequencyKHz.new v = Ok x → fits 64 v → FrequencyKHz.wf x.
Proof.
  unfold FrequencyKHz.new, FrequencyKHz.wf, invalid_input.
  destruct (N.eqb_spec v 0); intros [= <-]; done.
Qed.

Lemma CpuQuota_micros_wf v : v ≠ 0 → CpuQuota.micros v = Ok (CpuQuota.Micros v).
Proof. intros H. unfold CpuQuota.micros. by rewrite (proj2 (N.eqb_neq v 0)). Qed.
Lemma CpuQuota_micros_Ok v x : CpuQuota.micros v = Ok x → fits 64 v → CpuQuota.wf x.
Proof.
  unfold CpuQuota.micros, invalid_input. destruct (N.eqb_spec v 0); intros [= <-]; done.
Qed.

Lemma PowerMilliwatts_new_wf x :
  PowerMilliwatts.wf x → PowerMilliwatts.new x.(PowerMilliwatts.get) = Ok x.
Proof.
  destruct x as [v]. unfold PowerMilliwatts.wf, PowerMilliwatts.new; cbn [PowerMilliwatts.get].
  intros [_ H]. by rewrite (proj2 (N.eqb_neq v 0)).
Qed.
Lemma PowerMilliwatts_new_Ok v x :
  PowerMilliwatts.new v = Ok x → fits 32 v → PowerMilliwatts.wf x.
Proof.
  unfold PowerMilliwatts.new, PowerMilliwatts.wf, invalid_input.
  destruct (N.eqb_spec v 0); intros [= <-]; done.
Qed.

Lemma BoundedBytes_new_wf x : BoundedBytes.wf x → BoundedBytes.new x.(BoundedBytes.as_slice) = Ok x.
Proof.
  destruct x as [v]. unfold BoundedBytes.wf, BoundedBytes.new; cbn [BoundedBytes.as_slice].
  intros H. by rewrite (proj2 (N.ltb_ge _ _)).
Qed.
Lemma BoundedBytes_new_Ok v x : BoundedBytes.new v = Ok x → BoundedBytes.wf x.
Proof.
  unfold BoundedBytes.new, BoundedBytes.wf.
  destruct (N.ltb_spec MAX_PREIMAGE_BYTES (N.of_nat (length v))); intros [= <-]; done.
Qed.

(** ** Bounded names *)

(** What the three name constructors share: 1 to 64 bytes of an ASCII
    alphabet. *)
Definition bounded_name (s : string) : Prop :=
  1 ≤ str_len s ≤ 64 ∧ utf8 s ∧ contains_nul s = false.

Lemma name_byte_bounded extra l :
  Forall (λ b, 1 ≤ b2n b < 128) (bytes_of_string extra) →
  forallb (name_byte extra) l = true → Forall (λ b, 1 ≤ b2n b < 128) l.
Proof.
  intros He Hl. apply Forall_forall. intros b Hb. rewrite forallb_forall in Hl.
  apply list_elem_of_In, Hl in Hb. unfold name_byte in Hb.
  apply orb_true_iff in Hb as [Hb|Hb].
  - revert Hb. destruct b; vm_compute; (done || intros _; split; done).
  - unfold bytes_contain in Hb. apply bool_decide_eq_true in Hb.
    rewrite Forall_forall in He. by apply He.
Qed.

Lemma bounded_name_intro extra s :
  Forall (λ b, 1 ≤ b2n b < 128) (bytes_of_string extra) →
  str_len s ≠ 0 → str_len s ≤ 64 →
  forallb (name_byte extra) (bytes_of_string s) = true → bounded_name s.
Proof.
  intros He H0 H1 Hl. apply name_byte_bounded in Hl; [|done].
  split; [lia|]. split.
  - apply ascii_utf8_valid. eapply Forall_impl; [exact Hl|]. simpl. lia.
  - apply not_true_is_false. unfold contains_nul. intros (b & Hb & Hz)%existsb_exists.
    rewrite Forall_forall in Hl. apply list_elem_of_In, Hl in Hb.
    apply N.eqb_eq in Hz. lia.
Qed.

Lemma ascii_extras :
  Forall (λ b, 1 ≤ b2n b < 128) (bytes_of_string "._:-")
  ∧ Forall (λ b, 1 ≤ b2n b < 128) (bytes_of_string "._-").
Proof. split; vm_compute; repeat constructor; done. Qed.

Lemma GovernorId_new_Ok s x :
  GovernorId.new s = Ok x → x = GovernorId.mk s ∧ bounded_name s.
Proof.
  unfold GovernorId.new, invalid_input.
  destruct (N.eqb_spec (str_len s) 0), (N.ltb_spec 64 (str_len s)); try done.
  destruct (forallb _ _) eqn:E; [|done]. intros [= <-]. split; [done|].
  eapply bounded_name_intro; [exact (proj1 ascii_extras)|done..].
Qed.

Lemma PlatformProfileId_new_Ok s x :
  PlatformProfileId.new s = Ok x → x = PlatformProfileId.mk s ∧ bounded_name s.
Proof.
  unfold PlatformProfileId.new, invalid_input.
  destruct (N.eqb_spec (str_len s) 0), (N.ltb_spec 64 (str_len s)); try done.
  destruct (forallb _ _) eqn:E; [|done]. intros [= <-]. split; [done|].
  eapply bounded_name_intro; [exact (proj1 ascii_extras)|done..].
Qed.

Lemma CgroupName_new_Ok s x :
  CgroupName.new s = Ok x → x = CgroupName.mk s ∧ bounded_name s.
Proof.
  unfold CgroupName.new, invalid_input.
  destruct (N.eqb_spec (str_len s) 0), (N.ltb_spec 64 (str_len s)); try done.
  case_bool_decide; [done|]. case_bool_decide; [done|].
  destruct (forallb _ _) eqn:E; [|done]. intros [= <-]. split; [done|].
  eapply bounded_name_intro; [exact (proj2 ascii_extras)|done..].
Qed.

(** ** CPU sets *)

Lemma dedup_from_spec (x : N) l :
  StronglySorted N.le (x :: l) →
  StronglySorted N.lt (x :: dedup_from x l)
  ∧ ∀ y, y ∈ x :: dedup_from x l ↔ y ∈ x :: l.
Proof.
  revert x. induction l as [|y l IH]; intros x Hs.
  { split; [repeat constructor|done]. }
  apply StronglySorted_inv in Hs as [Hs Hx]. inversion Hx as [|? ? Hxy Hxl]; subst.
  cbn [dedup_from]. destruct (decide (y = x)) as [->|Hne].
  - destruct (IH x Hs) as [IH1 IH2]. split; [done|]. set_solver.
  - destruct (IH y Hs) as [IH1 IH2]. split; [|set_solver].
    constructor; [done|]. apply Forall_forall. intros z Hz%IH2.
    apply StronglySorted_inv in Hs as [_ Hy]. rewrite Forall_forall in Hy.
    apply elem_of_cons in Hz as [->|Hz]; [lia|]. apply Hy in Hz. lia.
Qed.

Lemma dedup_from_elem {A} `{!EqDecision A} (x y : A) l : y ∈ x :: l ↔ y ∈ x :: dedup_from x l.
Proof.
  revert x. induction l as [|z l IH]; intros x; cbn; [done|].
  case_decide as E; [subst; rewrite <-IH; set_solver|].
  rewrite elem_of_cons, (elem_of_cons (z :: _)). by rewrite <-(IH z).
Qed.
Lemma dedup_elem {A} `{!EqDecision A} (y : A) l : y ∈ dedup l ↔ y ∈ l.
Proof. destruct l; [done|]. cbn. symmetry. apply dedup_from_elem. Qed.

Lemma dedup_sorted l :
  StronglySorted N.le l →
  StronglySorted N.lt (dedup l) ∧ ∀ y, y ∈ dedup l ↔ y ∈ l.
Proof. destruct l; [by split; [constructor|]|]. apply dedup_from_spec. Qed.

Lemma dedup_strict l : StronglySorted N.lt l → dedup l = l.
Proof.
  destruct l as [|x l]; [done|]. cbn [dedup]. intros H. f_equal. revert x H.
  induction l as [|y l IH]; intros x H; [done|]. cbn [dedup_from].
  apply StronglySorted_inv in H as [H Hx]. inversion Hx; subst.
  rewrite decide_False by lia. by rewrite IH.
Qed.

Lemma merge_sort_sorted (l : list N) : StronglySorted N.le (merge_sort N.le l).
Proof. apply (StronglySorted_merge_sort N.le). Qed.

Lemma strict_unique (l1 l2 : list N) :
  StronglySorted N.lt l1 → StronglySorted N.lt l2 →
  (∀ y, y ∈ l1 ↔ y ∈ l2) → l1 = l2.
Proof.
  revert l2. induction l1 as [|x l1 IH]; intros [|y l2] H1 H2 E; [done|set_solver..|].
  apply StronglySorted_inv in H1 as [H1 Hx]. apply StronglySorted_inv in H2 as [H2 Hy].
  rewrite Forall_forall in Hx, Hy.
  assert (x = y) as ->.
  { assert (x ∈ y :: l2) as [?|Hxl]%elem_of_cons by (apply E; set_solver); [done|].
    assert (y ∈ x :: l1) as [?|Hyl]%elem_of_cons by (apply E; set_solver); [done|].
    apply Hx in Hyl. apply Hy in Hxl. lia. }
  f_equal. apply IH; [done..|]. intros z. specialize (E z).
  rewrite !elem_of_cons in E. split; intros Hz.
  - destruct (proj1 E (or_intror Hz)) as [->|]; [|done]. apply Hx in Hz. lia.
  - destruct (proj2 E (or_intror Hz)) as [->|]; [|done]. apply Hy in Hz. lia.
Qed.

(** [CpuSet.new] sorts and removes duplicates: the result is the unique
    strictly increasing list with the given elements. *)
Lemma CpuSet_new_spec l :
  (∀ x, CpuSet.new l = Ok x →
    StronglySorted N.lt x.(CpuSet.as_slice)
    ∧ ∀ y, y ∈ x.(CpuSet.as_slice) ↔ y ∈ l)
  ∧ (is_ok (CpuSet.new l) = true ↔ l ≠ []).
Proof.
  unfold CpuSet.new, invalid_input.
  destruct (dedup_sorted _ (merge_sort_sorted l)) as [Hs Hin].
  assert (∀ y, y ∈ dedup (merge_sort N.le l) ↔ y ∈ l) as Hin'.
  { intros y. rewrite Hin. by rewrite (merge_sort_Permutation N.le l). }
  case_bool_decide as E; cbn.
  - split; [done|]. rewrite E in Hin'. split; [done|]. intros Hl. exfalso.
    apply Hl. apply elem_of_nil_inv. intros y Hy%Hin'. set_solver.
  - split; [intros x [= <-]; done|]. split; [|done]. intros _ ->. done.
Qed.

Lemma CpuSet_new_wf x : CpuSet.wf x → CpuSet.new x.(CpuSet.as_slice) = Ok x.
Proof.
  destruct x as [l]. intros (Hs & Hne & _); cbn in *.
  unfold CpuSet.new, invalid_input.
  assert (dedup (merge_sort N.le l) = l) as ->.
  { destruct (dedup_sorted _ (merge_sort_sorted l)) as [H1 H2].
    apply strict_unique; [done..|]. intros y.
    by rewrite H2, (merge_sort_Permutation N.le l). }
  by rewrite bool_decide_false.
Qed.

Lemma CpuSet_new_Ok l x : CpuSet.new l = Ok x → Forall (fits 32) l → CpuSet.wf x.
Proof.
  intros H Hl. destruct (proj1 (CpuSet_new_spec l) x H) as [Hs Hin].
  split; [done|]. split.
  - revert H. unfold CpuSet.new, invalid_input. case_bool_decide; [done|].
    by intros [= <-].
  - rewrite Forall_forall in Hl |- *. intros y Hy%Hin. auto.
Qed.

Lemma sorted_lookup_lt (l : list N) i j x y :
  StronglySorted N.lt l → l !! i = Some x → l !! j = Some y → (i < j)%nat → x < y.
Proof.
  revert i j. induction l as [|z l IH]; intros i j Hs Hi Hj Hlt; [done|].
  apply StronglySorted_inv in Hs as [Hs Hz]. rewrite Forall_forall in Hz.
  destruct j as [|j]; [lia|]. cbn in Hj. destruct i as [|i]; cbn in Hi.
  - simplify_eq. apply Hz. by eapply list_elem_of_lookup_2.
  - eapply IH; eauto. lia.
Qed.

Lemma sorted_lookup_order (l : list N) i j x y :
  StronglySorted N.lt l → l !! i = Some x → l !! j = Some y → x < y → (i < j)%nat.
Proof.
  intros Hs Hi Hj Hlt. destruct (lt_eq_lt_dec i j) as [[Hl|Hl]|Hgt]; [done|subst j|].
  - simplify_eq. lia.
  - pose proof (sorted_lookup_lt l j i y x Hs Hj Hi Hgt). lia.
Qed.

Lemma binary_search_correct fuel l lo hi x :
  StronglySorted N.lt l → (hi ≤ length l)%nat → (hi - lo < fuel)%nat →
  binary_search_ok fuel l lo hi x = true ↔ ∃ i, (lo ≤ i < hi)%nat ∧ l !! i = Some x.
Proof.
  intros Hs. revert lo hi. induction fuel as [|fuel IH]; intros lo hi Hhi Hf; [lia|].
  cbn [binary_search_ok]. destruct (Nat.ltb_spec lo hi).
  2: { split; [done|]. intros (i & ? & _). lia. }
  set (mid := Nat.div (lo + hi) 2).
  assert (lo ≤ mid < hi)%nat as Hmid.
  { subst mid. split.
    - apply Nat.div_le_lower_bound; lia.
    - apply Nat.Div0.div_lt_upper_bound; lia. }
  destruct (lookup_lt_is_Some_2 l mid) as [y Hy]; [lia|]. rewrite Hy.
  destruct (N.eqb_spec y x) as [->|Hne].
  { split; [|done]. intros _. eauto. }
  destruct (N.ltb_spec y x) as [Hlt|Hge]; rewrite IH by lia.
  - split; intros (i & Hi & Hx); exists i; (split; [|done]); [lia|].
    pose proof (sorted_lookup_order l mid i y x Hs Hy Hx Hlt). lia.
  - split; intros (i & Hi & Hx); exists i; (split; [|done]); [lia|].
    assert (x < y) as Hxy by lia.
    pose proof (sorted_lookup_order l i mid x y Hs Hx Hy Hxy). lia.
Qed.

Lemma CpuSet_contains_spec s cpu :
  StronglySorted N.lt s.(CpuSet.as_slice) →
  CpuSet.contains s cpu = true ↔ cpu ∈ s.(CpuSet.as_slice).
Proof.
  intros Hs. unfold CpuSet.contains, CpuSet.len.
  rewrite binary_search_correct by (done || lia). rewrite list_elem_of_lookup.
  split; [intros (i & _ & Hi); eauto|]. intros [i Hi]. exists i. split; [|done].
  apply lookup_lt_Some in Hi. lia.
Qed.

(** A constructed CPU set is canonical and its queries are exact: it is the
    strictly increasing list of the given CPUs, membership by binary search
    agrees with membership in the input, and subset and intersection are
    those of the sets; construction fails only for the empty list. *)
Theorem cpu_set_queries_exact l s l' s' :
  CpuSet.new l = Ok s → CpuSet.new l' = Ok s' →
  StronglySorted N.lt s.(CpuSet.as_slice) ∧ CpuSet.is_empty s = false
  ∧ (∀ cpu, CpuSet.contains s cpu = true ↔ cpu ∈ l)
  ∧ (CpuSet.is_subset_of s s' = true ↔ ∀ cpu, cpu ∈ l → cpu ∈ l')
  ∧ (CpuSet.intersects s s' = true ↔ ∃ cpu, cpu ∈ l ∧ cpu ∈ l').
Proof.
  intros Hs Hs'. destruct (proj1 (CpuSet_new_spec l) s Hs) as [Ho Hin].
  destruct (proj1 (CpuSet_new_spec l') s' Hs') as [Ho' Hin'].
  assert (∀ c, CpuSet.contains s' c = true ↔ c ∈ l') as Hc'
    by (intros c; by rewrite CpuSet_contains_spec, Hin').
  split_and!; [done| | | |].
  - revert Hs. unfold CpuSet.new, invalid_input. case_bool_decide as Hne; [done|].
    intros [= <-]. by apply bool_decide_eq_false.
  - intros c. by rewrite CpuSet_contains_spec, Hin.
  - unfold CpuSet.is_subset_of. rewrite forallb_forall. setoid_rewrite <-list_elem_of_In.
    setoid_rewrite Hin. by setoid_rewrite Hc'.
  - unfold CpuSet.intersects. rewrite existsb_exists. setoid_rewrite <-list_elem_of_In.
    setoid_rewrite Hin. by setoid_rewrite Hc'.
Qed.

(** ** Planned mutations *)

Lemma operation_id_static k :
  OperationId.new (operation_name k) = Ok (operation_id k).
Proof. by destruct k. Qed.

Lemma PlannedMutation_new_Ok id c t k d p e deps m :
  PlannedMutation.new id c t k d p e deps = Ok m ↔
  validate_kind k = Ok tt ∧ typed_value k = d ∧ id ∉ deps
  ∧ m = PlannedMutation.mk id c t k d p e deps
          (RollbackContract.mk e RestoreMode.CompareAndRestore).
Proof.
  unfold PlannedMutation.new. rewrite bind_Ok. split.
  - intros ([] & Hv & H). case_bool_decide; [|done]. cbn in H.
    case_bool_decide; [done|]. by injection H as <-.
  - intros (Hv & Hd & Hn & ->). exists tt. split; [done|].
    by rewrite bool_decide_true, bool_decide_false.
Qed.

Lemma PlannedMutation_new_wf m :
  PlannedMutation.consistent m →
  PlannedMutation.new m.(PlannedMutation.mutation_id) m.(PlannedMutation.capability)
    m.(PlannedMutation.target) m.(PlannedMutation.kind) m.(PlannedMutation.desired)
    m.(PlannedMutation.precondition) m.(PlannedMutation.equality)
    m.(PlannedMutation.dependencies) = Ok m.
Proof.
  destruct m. intros (Hv & Ht & Hn & Hr); cbn in *. apply PlannedMutation_new_Ok.
  split_and!; congruence || done.
Qed.
