(* ===== verification/Decision.v ===== *)
(** * Plan decisions ([sysboost-core/src/planner.rs], data and contracts)

    The vocabulary of the typed planner: profiles, feature families,
    control identifiers, the snapshot/restore/verification contracts of an
    operation and the explainable decision items of a plan, with the
    validation of one item and of one operation contract. *)
From Stdlib Require Import Strings.Byte.
From S2P Require Import Prelude Text Ids Capability Mutation.
Local Open Scope N_scope.

Module PerformanceIntent.
Inductive t := Balanced | Performance.
#[global] Instance t_eq_dec : EqDecision t. Proof. solve_decision. Defined.
End PerformanceIntent.

Module Aggressiveness.
Inductive t := Conservative | Standard | Aggressive.
#[global] Instance t_eq_dec : EqDecision t. Proof. solve_decision. Defined.
End Aggressiveness.

Module Profile.
Inductive t := Balanced | Performance | Extreme.
#[global] Instance t_eq_dec : EqDecision t. Proof. solve_decision. Defined.
Definition fmt (p : t) : string :=
  match p with
  | Balanced => "balanced" | Performance => "performance" | Extreme => "extreme"
  end.
Definition from_str (value : string) : Result t :=
  if bool_decide (value = "balanced") then Ok Balanced
  else if bool_decide (value = "performance") then Ok Performance
  else if bool_decide (value = "extreme") then Ok Extreme
  else Err (SysboostError.new ErrorCode.ConfigError
              "profile must be balanced, performance, or extreme"
            |> SysboostError.with_stage Stage.Config).
End Profile.

Module ProfileIntent.
Record t := mk {
  profile : Profile.t;
  governor : PerformanceIntent.t;
  energy_preference : PerformanceIntent.t;
  aggressiveness : Aggressiveness.t
}.
#[global] Instance t_eq_dec : EqDecision t. Proof. solve_decision. Defined.
End ProfileIntent.

Definition Profile_intent (p : Profile.t) : ProfileIntent.t :=
  match p with
  | Profile.Balanced =>
      ProfileIntent.mk Profile.Balanced PerformanceIntent.Balanced
        PerformanceIntent.Balanced Aggressiveness.Conservative
  | Profile.Performance =>
      ProfileIntent.mk Profile.Performance PerformanceIntent.Performance
        PerformanceIntent.Performance Aggressiveness.Standard
  | Profile.Extreme =>
      ProfileIntent.mk Profile.Extreme PerformanceIntent.Performance
        PerformanceIntent.Performance Aggressiveness.Aggressive
  end.

Module Feature.
Inductive t :=
| CpuGovernor | CpuFrequency | CpuEnergyPreference | CpuBoost | PlatformProfile
| CgroupCpu | CpuPlacement | GpuTuning | IrqTuning | SchedulerTuning | MemoryVm
| TransparentHugePages | Custom (capability : CapabilityId.t).
#[global] Instance t_eq_dec : EqDecision t. Proof. solve_decision. Defined.

Definition from_capability (capability : CapabilityId.t) : t :=
  let named := λ s, bool_decide (CapabilityId.as_str capability = s) in
  if named capability_ids.CPU_POLICY_GOVERNOR then CpuGovernor
  else if named capability_ids.CPU_POLICY_FREQUENCY_MIN
       || named capability_ids.CPU_POLICY_FREQUENCY_MAX then CpuFrequency
  else if named capability_ids.CPU_POLICY_ENERGY_PREFERENCE then CpuEnergyPreference
  else if named capability_ids.CPU_BOOST then CpuBoost
  else if named capability_ids.PLATFORM_PROFILE then PlatformProfile
  else if named capability_ids.CGROUP_CPU_WEIGHT || named capability_ids.CGROUP_CPU_MAX
       || named capability_ids.CGROUP_CPUSET_CPUS || named capability_ids.CGROUP_UCLAMP
       || named capability_ids.CGROUP_IO_WEIGHT || named capability_ids.CGROUP_WORKLOAD
       || named capability_ids.CGROUP_BACKGROUND then CgroupCpu
  else if named capability_ids.GPU_PERFORMANCE_PROFILE
       || named capability_ids.GPU_POWER_LIMIT then GpuTuning
  else if named capability_ids.IRQ_AFFINITY then IrqTuning
  else if named capability_ids.KERNEL_SYSCTL_RUNTIME
       || named capability_ids.MEMORY_THP then MemoryVm
  else if named capability_ids.SCHEDULER || named capability_ids.PROCESS_PLACEMENT
       || named capability_ids.PROCESS_NICE || named capability_ids.PROCESS_IOPRIO
       || named capability_ids.CHILD_SUPERVISION then SchedulerTuning
  else if named "cpu.topology" || named "cpu.capacity" then CpuPlacement
  else Custom capability.

Definition is_experimental (f : t) : bool :=
  match f with GpuTuning | IrqTuning | SchedulerTuning => true | _ => false end.
Definition fmt (f : t) : string :=
  match f with
  | CpuGovernor => "CPU governor"
  | CpuFrequency => "CPU frequency"
  | CpuEnergyPreference => "CPU EPP"
  | CpuBoost => "CPU boost/turbo"
  | PlatformProfile => "platform profile"
  | CgroupCpu => "cgroup CPU policy"
  | CpuPlacement => "CPU placement"
  | GpuTuning => "GPU tuning"
  | IrqTuning => "IRQ tuning"
  | SchedulerTuning => "scheduler/workload policy"
  | MemoryVm => "memory/VM policy"
  | TransparentHugePages => "THP"
  | Custom capability => "custom capability " +:+ CapabilityId.as_str capability
  end.
End Feature.

(** Bounded text observed on a report-only interface. *)
Module ObservedText.
Record t := mk { as_str : string }.
#[global] Instance t_eq_dec : EqDecision t. Proof. solve_decision. Defined.
Definition new (value : string) : Result t :=
  if (str_len value =? 0) || (1024 <? str_len value) || contains_nul value
  then invalid_input "observed text is empty, oversized, or contains NUL"
  else Ok (mk value).
End ObservedText.

Module ControlId.
Inductive t :=
| CpuGovernor | CpuEnergyPreference | CpuFrequency | CpuBoost | PlatformProfile
| CgroupCpuWeight | CgroupCpuMax | CgroupCpuset | CgroupIoWeight | CgroupWorkload
| CgroupBackground | GpuPerformanceProfile | GpuPowerLimit | IrqAffinity
| SchedulerWorkload | ProcessPlacement | ProcessNice | ProcessIoPriority
| CgroupUclamp | CgroupUclampMin | CgroupUclampMax | TransparentHugePages
| MemoryVm | ReportOnly.
#[global] Instance t_eq_dec : EqDecision t. Proof. solve_decision. Defined.
Definition fmt (c : t) : string :=
  match c with
  | CpuGovernor => "CPU governor"
  | CpuEnergyPreference => "CPU EPP"
  | CpuFrequency => "CPU frequency"
  | CpuBoost => "CPU boost/turbo"
  | PlatformProfile => "platform profile"
  | CgroupCpuWeight => "cgroup CPU weight"
  | CgroupCpuMax => "cgroup CPU quota"
  | CgroupCpuset => "cgroup CPU placement"
  | CgroupIoWeight => "cgroup I/O weight"
  | CgroupWorkload => "workload cgroup"
  | CgroupBackground => "conservative background cgroup"
  | GpuPerformanceProfile => "GPU performance profile"
  | GpuPowerLimit => "GPU power limit"
  | IrqAffinity => "IRQ affinity"
  | SchedulerWorkload => "scheduler/workload policy"
  | ProcessPlacement => "process cgroup placement"
  | ProcessNice => "process nice"
  | ProcessIoPriority => "process I/O priority"
  | CgroupUclamp => "cgroup uclamp"
  | CgroupUclampMin => "cgroup uclamp minimum"
  | CgroupUclampMax => "cgroup uclamp maximum"
  | TransparentHugePages => "THP"
  | MemoryVm => "memory/VM policy"
  | ReportOnly => "report-only control"
  end.
End ControlId.

Module PlanValue.
Inductive t := Typed (value : TypedValue.t) | Text (text : ObservedText.t).
#[global] Instance t_eq_dec : EqDecision t. Proof. solve_decision. Defined.
End PlanValue.

(** ** Admission contracts *)

Module SnapshotContract.
Record t := mk {
  defined : bool; typed_preimage : bool; raw_preimage : bool;
  equality : EqualityKind.t
}.
#[global] Instance t_eq_dec : EqDecision t. Proof. solve_decision. Defined.
Definition not_applicable : t := mk false false false EqualityKind.ByteExact.
Definition is_complete (c : t) : bool := c.(defined) && c.(typed_preimage).
End SnapshotContract.

Module RestoreContract.
Record t := mk {
  defined : bool; mode : option RestoreMode.t; equality : EqualityKind.t
}.
#[global] Instance t_eq_dec : EqDecision t. Proof. solve_decision. Defined.
Definition not_applicable : t := mk false None EqualityKind.ByteExact.
Definition is_complete (c : t) : bool :=
  c.(defined) && bool_decide (is_Some c.(mode)).
End RestoreContract.

Module VerificationContract.
Record t := mk { defined : bool; readback : bool; equality : EqualityKind.t }.
#[global] Instance t_eq_dec : EqDecision t. Proof. solve_decision. Defined.
Definition not_applicable : t := mk false false EqualityKind.ByteExact.
Definition is_complete (c : t) : bool := c.(defined) && c.(readback).
End VerificationContract.

Module OperationContract.
Record t := mk {
  operation : OperationId.t;
  capability : CapabilityId.t;
  backend : BackendId.t;
  target_kind : TargetKind.t;
  control : ControlId.t;
  equality : EqualityKind.t;
  risk : RiskClass.t;
  classification : FeatureClass.t;
  explicit_opt_in : bool;
  target_identity_required : bool;
  current_state_required : bool;
  dependencies : list OperationId.t;
  snapshot : SnapshotContract.t;
  restore : RestoreContract.t;
  verification : VerificationContract.t
}.
#[global] Instance t_eq_dec : EqDecision t. Proof. solve_decision. Defined.

Definition complete (operation : OperationId.t) (capability : CapabilityId.t)
    (backend : BackendId.t) (target_kind : TargetKind.t) (control : ControlId.t)
    (equality : EqualityKind.t) (risk : RiskClass.t)
    (classification : FeatureClass.t) (explicit_opt_in : bool) : t :=
  mk operation capability backend target_kind control equality risk
    classification explicit_opt_in true true []
    (SnapshotContract.mk true true false equality)
    (RestoreContract.mk true (Some RestoreMode.CompareAndRestore) equality)
    (VerificationContract.mk true true equality).

(** The sort and [dedup] of the source compare the number of distinct
    dependencies with their number. *)
Definition validate (c : t) : Result unit :=
  let bad := λ message,
    Err (SysboostError.new ErrorCode.PlanningError message
         |> SysboostError.with_stage Stage.Plan
         |> SysboostError.with_capability c.(capability)) in
  if bool_decide (SnapshotContract.equality c.(snapshot) ≠ c.(equality))
     || bool_decide (RestoreContract.equality c.(restore) ≠ c.(equality))
     || bool_decide (VerificationContract.equality c.(verification) ≠ c.(equality))
  then bad "operation contract uses inconsistent equality semantics"
  else if bool_decide (c.(operation) ∈ c.(dependencies))
  then bad "operation contract depends on itself"
  else if negb (Nat.eqb (length (remove_dups c.(dependencies))) (length c.(dependencies)))
  then bad "operation contract contains a duplicate dependency"
  else Ok tt.

Definition is_complete (c : t) : bool :=
  SnapshotContract.is_complete c.(snapshot)
  && RestoreContract.is_complete c.(restore)
  && VerificationContract.is_complete c.(verification)
  && c.(target_identity_required) && c.(current_state_required).
End OperationContract.

(** ** Decisions *)

Module PlanAction.
Inductive t :=
| Mutation | NoOp | Unsupported | Preserved | ExplicitOptInRequired
| ExperimentalDisabled | DeniedByPolicy | CapabilityDenied | Indeterminate.
#[global] Instance t_eq_dec : EqDecision t. Proof. solve_decision. Defined.
Definition is_executable (a : t) : bool :=
  match a with Mutation => true | _ => false end.
Definition fmt (a : t) : string :=
  match a with
  | Mutation => "change"
  | NoOp => "no-op"
  | Unsupported => "unsupported"
  | Preserved => "preserved"
  | ExplicitOptInRequired => "explicit opt-in required"
  | ExperimentalDisabled => "experimental disabled"
  | DeniedByPolicy => "denied by policy"
  | CapabilityDenied => "capability denied"
  | Indeterminate => "indeterminate"
  end.
End PlanAction.

Module ExperimentalStatus.
Inductive t := NotExperimental | Disabled | OptInRequired | Enabled.
#[global] Instance t_eq_dec : EqDecision t. Proof. solve_decision. Defined.
Definition fmt (e : t) : string :=
  match e with
  | NotExperimental => "not-experimental"
  | Disabled => "disabled"
  | OptInRequired => "opt-in-required"
  | Enabled => "enabled"
  end.
End ExperimentalStatus.

Module PlanItem.
Record t := mk {
  capability : CapabilityId.t;
  operation : OperationId.t;
  backend : option BackendId.t;
  target : option TargetId.t;
  control : ControlId.t;
  current : option PlanValue.t;
  desired : option PlanValue.t;
  action : PlanAction.t;
  feature : Feature.t;
  feature_class : FeatureClass.t;
  risk : RiskClass.t;
  explicit_opt_in_required : bool;
  experimental : ExperimentalStatus.t;
  evidence : list CapabilityEvidence.t;
  rationale : string;
  reason : option string;
  target_identity : option TargetIdentity.t;
  snapshot : SnapshotContract.t;
  restore : RestoreContract.t;
  verification : VerificationContract.t;
  dependencies : list MutationId.t;
  mutation : option PlannedMutation.t
}.
#[global] Instance t_eq_dec : EqDecision t. Proof. solve_decision. Defined.

(** The item's metadata agrees with its mutation. *)
Definition metadata_disagrees (i : t) (m : PlannedMutation.t) : bool :=
  bool_decide (i.(operation) ≠ operation_id m.(PlannedMutation.kind))
  || bool_decide (i.(capability) ≠ m.(PlannedMutation.capability))
  || bool_decide (i.(target) ≠ Some m.(PlannedMutation.target))
  || bool_decide (i.(desired) ≠ Some (PlanValue.Typed m.(PlannedMutation.desired)))
  || bool_decide (i.(dependencies) ≠ m.(PlannedMutation.dependencies))
  || bool_decide (SnapshotContract.equality i.(snapshot) ≠ m.(PlannedMutation.equality))
  || bool_decide (RestoreContract.equality i.(restore) ≠ m.(PlannedMutation.equality))
  || bool_decide (VerificationContract.equality i.(verification) ≠ m.(PlannedMutation.equality)).

Definition validate (i : t) : Result unit :=
  if negb (PlanAction.is_executable i.(action)) then
    if bool_decide (is_Some i.(mutation))
    then planning_error "non-mutation plan item contains executable mutation data"
    else Ok tt
  else
    match i.(mutation) with
    | None => planning_error "mutation plan item has no typed mutation payload"
    | Some m =>
      let bad := λ message,
        Err (SysboostError.new ErrorCode.PlanningError message
             |> SysboostError.with_stage Stage.Plan
             |> SysboostError.with_mutation m.(PlannedMutation.mutation_id)) in
      if bool_decide (i.(backend) = None) || bool_decide (i.(target) = None)
         || bool_decide (i.(target_identity) = None)
         || bool_decide (i.(current) = None) || bool_decide (i.(desired) = None)
         || bool_decide (i.(evidence) = [])
      then bad "mutation plan item is missing target, state, identity, or evidence metadata"
      else if negb (SnapshotContract.is_complete i.(snapshot))
           || negb (RestoreContract.is_complete i.(restore))
           || negb (VerificationContract.is_complete i.(verification))
      then bad "mutation plan item lacks a complete snapshot/restore/verification contract"
      else if metadata_disagrees i m
      then bad "plan item metadata disagrees with its typed mutation"
      else Ok tt
    end.
End PlanItem.
