(* ===== verification/Plan.v ===== *)
(** * Plans ([sysboost-core/src/plan.rs])

    Policy requests and the validated transaction plan: decision items,
    uniqueness of mutation IDs, dependency references, acyclicity and
    dependency order. *)
From stdpp Require Import sorting.
From S2P Require Import Prelude Lists Text Ids Capability Mutation Decision MutationLaws.

Module PolicyMode.
Inductive t := Report | Boost.
#[global] Instance t_eq_dec : EqDecision t. Proof. solve_decision. Defined.
End PolicyMode.

Module PolicyRequest.
Record t := mk {
  capability : CapabilityId.t;
  target : TargetId.t;
  operation : MutationKind.t;
  required : bool
}.
#[global] Instance t_eq_dec : EqDecision t. Proof. solve_decision. Defined.
Definition optional (c : CapabilityId.t) (g : TargetId.t) (o : MutationKind.t) : t :=
  mk c g o false.
Definition set_required (r : t) : t :=
  mk r.(capability) r.(target) r.(operation) true.
End PolicyRequest.

Module Policy.
Record t := mk {
  mode : PolicyMode.t;
  max_risk : RiskClass.t;
  allow_experimental : bool;
  required_default : bool;
  requests : list PolicyRequest.t;
  session_timeout_ms : u64
}.
#[global] Instance t_eq_dec : EqDecision t. Proof. solve_decision. Defined.
Definition safe_defaults : t :=
  mk PolicyMode.Report RiskClass.Critical true false [] 30000%N.
End Policy.

(** [mutations.sort_by_key(|m| m.mutation_id)]: a stable sort. *)
Definition mutation_le (m n : PlannedMutation.t) : Prop :=
  (MutationId.get m.(PlannedMutation.mutation_id)
   ≤ MutationId.get n.(PlannedMutation.mutation_id))%N.
#[export] Instance mutation_le_dec m n : Decision (mutation_le m n).
Proof. unfold mutation_le. apply _. Defined.
Definition sort_mutations (l : list PlannedMutation.t) : list PlannedMutation.t :=
  merge_sort mutation_le l.

Definition mutation_ids (l : list PlannedMutation.t) : list MutationId.t :=
  PlannedMutation.mutation_id <$> l.

Definition find_mutation (l : list PlannedMutation.t) (id : MutationId.t) :
    option PlannedMutation.t :=
  List.find (λ m, bool_decide (PlannedMutation.mutation_id m = id)) l.

(** Index of the first mutation with an ID. *)
Definition position (l : list PlannedMutation.t) (id : MutationId.t) : option nat :=
  fst <$> list_find (λ m, PlannedMutation.mutation_id m = id) l.

(** [None] means out of fuel; [reaches_cycle_total] shows that
    [S (length mutations)] is always enough. *)
Fixpoint reaches_cycle (fuel : nat) (current : MutationId.t)
    (mutations : list PlannedMutation.t) (stack : list MutationId.t) : option bool :=
  match fuel with
  | O => None
  | S fuel' =>
    if bool_decide (current ∈ stack) then Some true else
    match find_mutation mutations current with
    | None => Some false
    | Some m =>
      (fix any (deps : list MutationId.t) : option bool :=
         match deps with
         | [] => Some false
         | d :: deps' =>
           match reaches_cycle fuel' d mutations (current :: stack) with
           | None => None
           | Some true => Some true
           | Some false => any deps'
           end
         end) m.(PlannedMutation.dependencies)
    end
  end.

Module Plan.
Record t := mk {
  id : PlanId.t;
  plan_digest : array 32;
  policy_digest : array 32;
  capability_digest : array 32;
  mutations : list PlannedMutation.t;
  items : list PlanItem.t;
  profile : option Profile.t
}.
#[global] Instance t_eq_dec : EqDecision t. Proof. solve_decision. Defined.

Definition bad (message : string) (id : MutationId.t) : SysboostError.t :=
  SysboostError.new ErrorCode.PlanningError message
  |> SysboostError.with_stage Stage.Plan |> SysboostError.with_mutation id.

(** The executable payloads of the items, in canonical order. *)
Definition item_mutations (items : list PlanItem.t) : list PlannedMutation.t :=
  sort_mutations (omap PlanItem.mutation items).

(** Two executable items claim the same control of the same target. *)
Definition conflicts (previous item : PlanItem.t) : bool :=
  PlanAction.is_executable previous.(PlanItem.action)
  && bool_decide (previous.(PlanItem.target) = item.(PlanItem.target))
  && bool_decide (previous.(PlanItem.control) = item.(PlanItem.control)).

Definition validate_items (p : t) : Result unit :=
  if bool_decide (p.(items) = []) then Ok tt else
  _ ← for_each PlanItem.validate p.(items);
  if negb (bool_decide (item_mutations p.(items) = p.(mutations)))
  then planning_error "plan mutation set does not match its executable decision items"
  else
    for_each (λ '(index, item),
      if PlanAction.is_executable item.(PlanItem.action)
         && bool_decide (is_Some item.(PlanItem.target))
         && existsb (λ previous, conflicts previous item) (take index p.(items))
      then planning_error "plan contains conflicting mutations for one target control"
      else Ok tt) (enumerate p.(items)).

Definition validate_references (p : t) : Result unit :=
  for_each (λ '(index, m),
    let id := m.(PlannedMutation.mutation_id) in
    if bool_decide (id ∈ mutation_ids (take index p.(mutations)))
    then Err (bad "plan contains duplicate mutation IDs" id)
    else
      for_each (λ dependency,
        if Nat.ltb 1 (length (filter (λ c, c = dependency) m.(PlannedMutation.dependencies)))
        then Err (bad "plan contains a duplicate mutation dependency" id)
        else if negb (bool_decide (dependency ∈ mutation_ids p.(mutations)))
        then Err (bad "plan dependency does not refer to a mutation in the plan" id)
        else Ok tt) m.(PlannedMutation.dependencies))
    (enumerate p.(mutations)).

Definition validate_acyclic (p : t) : Result unit :=
  for_each (λ m,
    let id := m.(PlannedMutation.mutation_id) in
    if bool_decide (reaches_cycle (S (length p.(mutations))) id p.(mutations) [] ≠ Some false)
    then Err (bad "plan dependency graph contains a cycle" id)
    else Ok tt) p.(mutations).

Definition validate_order (p : t) : Result unit :=
  for_each (λ '(index, m),
    for_each (λ dependency,
      match position p.(mutations) dependency with
      | Some dependency_index =>
        if Nat.leb index dependency_index
        then Err (bad "plan dependency appears after the mutation that requires it"
                    m.(PlannedMutation.mutation_id))
        else Ok tt
      | None => Ok tt (* excluded by [validate_references] *)
      end) m.(PlannedMutation.dependencies)) (enumerate p.(mutations)).

Definition validate (p : t) : Result unit :=
  _ ← validate_items p; _ ← validate_references p;
  _ ← validate_acyclic p; validate_order p.

Definition validate_complete (p : t) : Result unit :=
  if bool_decide (p.(items) = []) && negb (bool_decide (p.(mutations) = []))
  then planning_error "complete plan validation requires explainable decision items"
  else validate p.

Definition new (id : PlanId.t) (plan_digest policy_digest capability_digest : array 32)
    (mutations : list PlannedMutation.t) : Result t :=
  let plan := mk id plan_digest policy_digest capability_digest mutations [] None in
  _ ← validate plan; Ok plan.

Definition from_items (id : PlanId.t)
    (plan_digest policy_digest capability_digest : array 32)
    (profile : Profile.t) (items : list PlanItem.t) : Result t :=
  let plan := mk id plan_digest policy_digest capability_digest
                (item_mutations items) items (Some profile) in
  _ ← validate_complete plan; Ok plan.
End Plan.

(** * Plan validation is exactly topological order

    [Plan.validate] accepts a mutation list iff IDs are unique, dependency
    lists have no duplicates and every dependency occurs strictly earlier;
    the depth-first cycle check always terminates within its fuel. *)

(** The specification of an executable order. *)
Definition topological (l : list PlannedMutation.t) : Prop :=
  NoDup (mutation_ids l)
  ∧ ∀ i m, l !! i = Some m →
      NoDup m.(PlannedMutation.dependencies)
      ∧ ∀ d, d ∈ m.(PlannedMutation.dependencies) →
          ∃ j, j < i ∧ mutation_ids l !! j = Some d.

(** ** The cycle check *)

Lemma find_mutation_Some l id m :
  find_mutation l id = Some m → m ∈ l ∧ PlannedMutation.mutation_id m = id.
Proof.
  unfold find_mutation. intros [H1 H2]%find_some.
  split; [by apply list_elem_of_In|]. by apply bool_decide_eq_true in H2.
Qed.

Lemma mutation_ids_lookup l i m :
  l !! i = Some m → mutation_ids l !! i = Some m.(PlannedMutation.mutation_id).
Proof. intros H. unfold mutation_ids. by rewrite list_lookup_fmap, H. Qed.

Lemma mutation_ids_elem l m :
  m ∈ l → m.(PlannedMutation.mutation_id) ∈ mutation_ids l.
Proof. intros H. unfold mutation_ids. by apply list_elem_of_fmap_2. Qed.

Section cycle.
  Context (l : list PlannedMutation.t).

Let any (f : MutationId.t → option bool) :=
  fix any (deps : list MutationId.t) : option bool :=
    match deps with
    | [] => Some false
    | d :: deps' =>
      match f d with None => None | Some true => Some true | Some false => any deps' end
    end.

Lemma any_total f deps : (∀ d, d ∈ deps → is_Some (f d)) → is_Some (any f deps).
Proof.
  induction deps as [|d deps IH]; intros H; cbn; [eauto|].
  destruct (H d) as [[] ->]; [set_solver|eauto|]. apply IH. set_solver.
Qed.

Lemma any_false f deps : (∀ d, d ∈ deps → f d = Some false) → any f deps = Some false.
Proof.
  induction deps as [|d deps IH]; intros H; cbn; [done|].
  rewrite H by set_solver. apply IH. set_solver.
Qed.

(** Fuel: the stack holds distinct IDs of the plan, so it cannot outgrow
    the plan. *)
Lemma reaches_cycle_fuel fuel current stack :
  NoDup stack → stack ⊆ mutation_ids l → length l < fuel + length stack →
  is_Some (reaches_cycle fuel current l stack).
Proof.
  revert current stack. induction fuel as [|fuel IH]; intros current stack Hn Hsub Hf.
  { exfalso. apply NoDup_submseteq in Hsub; [|done].
    apply submseteq_length in Hsub. unfold mutation_ids in Hsub.
    rewrite length_fmap in Hsub. lia. }
  cbn [reaches_cycle]. case_bool_decide as Hin; [eauto|].
  destruct (find_mutation l current) as [m|] eqn:Hm; [|eauto].
  apply find_mutation_Some in Hm as [Hm <-].
  apply (any_total (λ d, reaches_cycle fuel d l (_ :: stack))).
  intros d _. apply IH; [by constructor| |cbn; lia].
  intros x [->|?]%elem_of_cons; [by apply mutation_ids_elem|by apply Hsub].
Qed.

(** In a topological order a walk along dependencies only moves to earlier
    positions, so it never meets its own stack. *)
Lemma topological_no_cycle fuel current stack :
  topological l → length l < fuel + length stack →
  NoDup stack → stack ⊆ mutation_ids l →
  (∀ i, mutation_ids l !! i = Some current →
    ∀ s, s ∈ stack → ∃ j, i < j ∧ mutation_ids l !! j = Some s) →
  reaches_cycle fuel current l stack = Some false.
Proof.
  intros [Hids Htop]. revert current stack.
  induction fuel as [|fuel IH]; intros current stack Hf Hn Hsub Hpos.
  { destruct (reaches_cycle_fuel 0 current stack Hn Hsub Hf) as [? [=]]. }
  assert (∀ i, mutation_ids l !! i = Some current → current ∉ stack) as Hnot.
  { intros i Hi Hin. destruct (Hpos i Hi _ Hin) as (j & Hij & Hj).
    pose proof (NoDup_lookup _ _ _ _ Hids Hi Hj). lia. }
  cbn [reaches_cycle]. case_bool_decide as Hin.
  { pose proof Hin as Hin'. apply Hsub in Hin as [i Hi]%list_elem_of_lookup.
    by destruct (Hnot i Hi). }
  destruct (find_mutation l current) as [m|] eqn:Hm; [|done].
  apply find_mutation_Some in Hm as [Hm <-].
  apply (any_false (λ d, reaches_cycle fuel d l (_ :: stack))).
  apply list_elem_of_lookup in Hm as [i Hi]. pose proof (mutation_ids_lookup l i m Hi) as Hid.
  intros d Hd. destruct (Htop i m Hi) as [_ Hdeps].
  destruct (Hdeps d Hd) as (j & Hji & Hj).
  apply IH; [cbn; lia|by constructor| |].
  - intros x [->|?]%elem_of_cons; [|by apply Hsub].
    apply list_elem_of_lookup. eauto.
  - intros k Hk s Hs. pose proof (NoDup_lookup _ _ _ _ Hids Hj Hk) as <-.
    apply elem_of_cons in Hs as [->|Hs]; [eauto|].
    destruct (Hpos i Hid s Hs) as (j' & Hij' & Hj'). exists j'. split; [lia|done].
Qed.
End cycle.

(** ** The validation passes *)

Lemma validate_references_Ok p :
  Plan.validate_references p = Ok tt ↔
  NoDup (mutation_ids p.(Plan.mutations))
  ∧ ∀ i m, p.(Plan.mutations) !! i = Some m →
      NoDup m.(PlannedMutation.dependencies)
      ∧ m.(PlannedMutation.dependencies) ⊆ mutation_ids p.(Plan.mutations).
Proof.
  unfold Plan.validate_references. rewrite for_each_enumerate, NoDup_prefix.
  setoid_rewrite guard_Ok. setoid_rewrite for_each_elem. setoid_rewrite guard_Ok.
  setoid_rewrite guard_Ok. setoid_rewrite negb_false_iff.
  setoid_rewrite bool_decide_eq_false. setoid_rewrite bool_decide_eq_true.
  setoid_rewrite Nat.ltb_ge. setoid_rewrite NoDup_counts. split.
  - intros H. split.
    + intros i x Hx. unfold mutation_ids in Hx. rewrite list_lookup_fmap in Hx.
      destruct (_ !! i) as [m|] eqn:Hm; [|done]. cbn in Hx. injection Hx as <-.
      destruct (H i m Hm) as [Hnin _]. unfold mutation_ids in *.
      by rewrite fmap_take in Hnin.
    + intros i m Hm. destruct (H i m Hm) as [_ Hd].
      split; intros d Hdin; by apply Hd.
  - intros [Hn H] i m Hm. destruct (H i m Hm) as [Hc Hs]. split.
    + pose proof (Hn i _ (mutation_ids_lookup _ _ _ Hm)) as Hnin.
      unfold mutation_ids in *. by rewrite fmap_take.
    + intros d Hd. split_and!; auto.
Qed.

Lemma position_Some l id j :
  NoDup (mutation_ids l) →
  position l id = Some j ↔ mutation_ids l !! j = Some id.
Proof.
  intros Hn. unfold position. split.
  - rewrite fmap_Some. intros ([j' m] & Hf & ->). cbn.
    apply list_find_Some in Hf as (Hl & <- & _). by apply mutation_ids_lookup.
  - intros Hj. destruct (list_find _ l) as [[j' m]|] eqn:Hf.
    + cbn. f_equal. apply list_find_Some in Hf as (Hl & <- & _).
      apply mutation_ids_lookup in Hl. eapply NoDup_lookup; eauto.
    + exfalso. apply list_find_None in Hf. rewrite Forall_forall in Hf.
      unfold mutation_ids in Hj. rewrite list_lookup_fmap in Hj.
      destruct (l !! j) as [m|] eqn:Hm; [|done]. cbn in Hj. injection Hj as Hj.
      apply (Hf m); [by eapply list_elem_of_lookup_2|done].
Qed.

Lemma validate_order_Ok p :
  Plan.validate_references p = Ok tt →
  Plan.validate_order p = Ok tt ↔ topological p.(Plan.mutations).
Proof.
  intros [Hn Href]%validate_references_Ok.
  unfold Plan.validate_order, topological. rewrite for_each_enumerate.
  setoid_rewrite for_each_elem. split.
  - intros H. split; [done|]. intros i m Hm. destruct (Href i m Hm) as [Hd Hsub].
    split; [done|]. intros d Hdin. specialize (H i m Hm d Hdin).
    apply Hsub in Hdin as [j Hj]%list_elem_of_lookup.
    rewrite (proj2 (position_Some _ d j Hn) Hj) in H. apply guard_Ok in H as [H _].
    exists j. split; [by apply Nat.leb_gt|done].
  - intros [_ H] i m Hm d Hd. destruct (H i m Hm) as [_ Ht].
    destruct (Ht d Hd) as (j & Hji & Hj).
    rewrite (proj2 (position_Some _ d j Hn) Hj). apply guard_Ok.
    split; [by apply Nat.leb_gt|done].
Qed.

Lemma validate_acyclic_Ok p :
  topological p.(Plan.mutations) → Plan.validate_acyclic p = Ok tt.
Proof.
  intros H. unfold Plan.validate_acyclic. apply for_each_elem. intros m Hm.
  apply guard_Ok. split; [|done]. apply bool_decide_eq_false. intros [].
  apply topological_no_cycle; [done|cbn; lia|constructor|set_solver|set_solver].
Qed.

Lemma validate_topological (p : Plan.t) :
  Plan.validate p = Ok tt ↔
  Plan.validate_items p = Ok tt ∧ topological p.(Plan.mutations).
Proof.
  unfold Plan.validate. split.
  - intros H. inv_res. split; [done|]. by apply validate_order_Ok.
  - intros [-> H]. cbn.
    assert (Plan.validate_references p = Ok tt) as Hr.
    { apply validate_references_Ok. destruct H as [Hn H]. split; [done|].
      intros i m Hm. destruct (H i m Hm) as [Hd Hj]. split; [done|].
      intros d (j & _ & Hd')%Hj. apply list_elem_of_lookup. eauto. }
    rewrite Hr. cbn. rewrite validate_acyclic_Ok by done. cbn.
    by apply validate_order_Ok.
Qed.

(** C32. A list is accepted as a plan exactly when it is a topological order:
    IDs are unique, dependency lists have no duplicates, and every
    dependency is the ID of a strictly earlier mutation. In particular the
    cycle check never rejects an ordered plan and the order check never
    meets a missing dependency. *)
Theorem plan_validate_iff (p : Plan.t) :
  Plan.validate p = Ok tt ↔
  Plan.validate_items p = Ok tt ∧ topological p.(Plan.mutations).
Proof. apply validate_topological. Qed.

(** The cycle check of every mutation of any list terminates: its fuel is
    never exhausted, whatever the dependencies are. *)
Theorem reaches_cycle_total (l : list PlannedMutation.t) (id : MutationId.t) :
  is_Some (reaches_cycle (S (length l)) id l []).
Proof. apply reaches_cycle_fuel; [constructor|set_solver|cbn; lia]. Qed.

(** ** Decision items *)

Lemma validate_items_Ok p :
  p.(Plan.items) ≠ [] →
  Plan.validate_items p = Ok tt →
  (∀ i, i ∈ p.(Plan.items) → PlanItem.validate i = Ok tt)
  ∧ Plan.item_mutations p.(Plan.items) = p.(Plan.mutations)
  ∧ ∀ index i, p.(Plan.items) !! index = Some i →
      ∀ j previous, j < index → p.(Plan.items) !! j = Some previous →
      PlanAction.is_executable i.(PlanItem.action) = true →
      is_Some i.(PlanItem.target) → Plan.conflicts previous i = false.
Proof.
  unfold Plan.validate_items. intros Hne. rewrite bool_decide_false by done.
  intros H. inv_res. rewrite for_each_elem in H0.
  destruct (bool_decide _) eqn:E in H; [|done]. cbn in H.
  apply bool_decide_eq_true in E. split; [done|]. split; [done|].
  rewrite for_each_enumerate in H. intros index i Hi j previous Hj Hp Hex Ht.
  specialize (H index i Hi). cbn in H. rewrite Hex, bool_decide_true in H by done.
  cbn in H. destruct (existsb _ _) eqn:Ee; [done|].
  apply not_true_iff_false in Ee. apply not_true_iff_false. intros Hc. apply Ee.
  apply existsb_exists. exists previous. split; [|done].
  apply list_elem_of_In, list_elem_of_lookup. exists j. by rewrite lookup_take_lt.
Qed.

(** What an accepted executable item promises about its mutation. *)
Lemma plan_item_validate_Ok i m :
  PlanItem.validate i = Ok tt → i.(PlanItem.mutation) = Some m →
  PlanAction.is_executable i.(PlanItem.action) = true
  ∧ i.(PlanItem.operation) = operation_id m.(PlannedMutation.kind)
  ∧ i.(PlanItem.target) = Some m.(PlannedMutation.target)
  ∧ i.(PlanItem.desired) = Some (PlanValue.Typed m.(PlannedMutation.desired))
  ∧ is_Some i.(PlanItem.target_identity) ∧ is_Some i.(PlanItem.current)
  ∧ i.(PlanItem.evidence) ≠ []
  ∧ SnapshotContract.is_complete i.(PlanItem.snapshot) = true
  ∧ RestoreContract.is_complete i.(PlanItem.restore) = true
  ∧ VerificationContract.is_complete i.(PlanItem.verification) = true.
Proof.
  unfold PlanItem.validate. intros H Hm. rewrite Hm in H.
  destruct (PlanAction.is_executable _); cbn in H; [|done].
  destruct (_ || _ || _ || _ || _ || _) eqn:E1 in H; [done|].
  destruct (_ || _ || _) eqn:E2 in H; [done|].
  destruct (PlanItem.metadata_disagrees i m) eqn:E3; [done|].
  unfold PlanItem.metadata_disagrees in E3.
  rewrite !orb_false_iff, !negb_false_iff, !bool_decide_eq_false in *.
  destruct_and!. split_and!; try done; try (by apply dec_stable);
    by apply not_eq_None_Some.
Qed.

(** Every executable mutation of an accepted complete plan comes from a
    decision item that names its target, identity, current state, evidence
    and complete contracts; the order of the mutations is topological; and
    no two executable items address the same control of the same target. *)
Theorem plan_from_items_complete id d1 d2 d3 profile items p :
  Plan.from_items id d1 d2 d3 profile items = Ok p →
  topological p.(Plan.mutations)
  ∧ (∀ m, m ∈ p.(Plan.mutations) →
       ∃ i, i ∈ items ∧ i.(PlanItem.mutation) = Some m
            ∧ i.(PlanItem.target) = Some m.(PlannedMutation.target)
            ∧ is_Some i.(PlanItem.target_identity) ∧ is_Some i.(PlanItem.current)
            ∧ SnapshotContract.is_complete i.(PlanItem.snapshot) = true
            ∧ RestoreContract.is_complete i.(PlanItem.restore) = true
            ∧ VerificationContract.is_complete i.(PlanItem.verification) = true)
  ∧ (∀ a b i j, a < b → items !! a = Some i → items !! b = Some j →
       PlanAction.is_executable i.(PlanItem.action) = true →
       PlanAction.is_executable j.(PlanItem.action) = true →
       (i.(PlanItem.target), i.(PlanItem.control))
         ≠ (j.(PlanItem.target), j.(PlanItem.control))).
Proof.
  unfold Plan.from_items. intros H. inv_res.
  unfold Plan.validate_complete in H0.
  destruct (_ && _) eqn:E in H0; [done|].
  apply validate_topological in H0 as [Hitems Htop]. cbn in *.
  destruct (decide (items = [])) as [->|Hne].
  { split_and!; [done|cbn; intros m Hm|intros ???? ?; by rewrite lookup_nil].
    exfalso. unfold Plan.item_mutations, sort_mutations in Hm.
    by apply elem_of_nil in Hm. }
  apply validate_items_Ok in Hitems as (Hval & _ & Hconf); [|done]; cbn in *.
  split_and!; [done| |].
  - intros m Hm. unfold Plan.item_mutations, sort_mutations in Hm.
    rewrite merge_sort_Permutation in Hm. apply list_elem_of_omap in Hm as (i & Hi & Hm).
    exists i. destruct (plan_item_validate_Ok i m (Hval i Hi) Hm).
    destruct_and!. split_and!; done.
  - intros a b i j Hab Hi Hj Hei Hej [= Ht Hc].
    assert (∃ m, j.(PlanItem.mutation) = Some m) as [m Hm].
    { specialize (Hval j ltac:(by eapply list_elem_of_lookup_2)).
      unfold PlanItem.validate in Hval. rewrite Hej in Hval. cbn in Hval.
      destruct (PlanItem.mutation j); [eauto|done]. }
    destruct (plan_item_validate_Ok j m) as (_ & _ & Htj & _);
      [apply Hval; by eapply list_elem_of_lookup_2|done|].
    assert (Plan.conflicts i j = false) as Hf by (eapply Hconf; eauto).
    unfold Plan.conflicts in Hf. by rewrite Hei, !bool_decide_true in Hf.
Qed.
