(* ===== verification/Config.v ===== *)
(** * Configuration layers ([sysboost-config/src/lib.rs])

    The trust hierarchy of policies and its merge: a layer of lower trust
    can only restrict what the others allow. *)
From S2P Require Import Prelude Lists Ids Capability Mutation Plan.
Local Open Scope N_scope.

Module ConfigSource.
Inductive t := Defaults | System | User | Invocation.
#[global] Instance t_eq_dec : EqDecision t. Proof. solve_decision. Defined.
End ConfigSource.

Module ConfigLayer.
Record t := mk { source : ConfigSource.t; policy : Policy.t }.
Definition new := mk.
End ConfigLayer.

(** [Iterator::min] for an order given by a rank: the first of the least. *)
Definition min_by {A} (rank : A → N) (l : list A) : option A :=
  match l with
  | [] => None
  | x :: l' => Some (foldl (λ best y, if rank y <? rank best then y else best) x l')
  end.

(** [contains_request] of the source. *)
Definition contains_request (requests : list PolicyRequest.t) (requested : PolicyRequest.t) : bool :=
  existsb (λ candidate,
    bool_decide (candidate.(PolicyRequest.capability) = requested.(PolicyRequest.capability))
    && bool_decide (candidate.(PolicyRequest.target) = requested.(PolicyRequest.target))
    && bool_decide (candidate.(PolicyRequest.operation) = requested.(PolicyRequest.operation)))
    requests.

Module ConfigHierarchy.
Record t := mk {
  defaults : ConfigLayer.t;
  system : option ConfigLayer.t;
  user : option ConfigLayer.t;
  invocation : option ConfigLayer.t
}.

Definition new (defaults : Policy.t) : t :=
  mk (ConfigLayer.new ConfigSource.Defaults defaults) None None None.
Definition with_system (policy : Policy.t) (h : t) : t :=
  mk h.(defaults) (Some (ConfigLayer.new ConfigSource.System policy)) h.(user) h.(invocation).
Definition with_user (policy : Policy.t) (h : t) : t :=
  mk h.(defaults) h.(system) (Some (ConfigLayer.new ConfigSource.User policy)) h.(invocation).
Definition with_invocation (policy : Policy.t) (h : t) : t :=
  mk h.(defaults) h.(system) h.(user) (Some (ConfigLayer.new ConfigSource.Invocation policy)).

(** [layers.iter().flatten()] *)
Definition layers (h : t) : list ConfigLayer.t :=
  omap id [Some h.(defaults); h.(system); h.(user); h.(invocation)].

Definition reports (layer : option ConfigLayer.t) : bool :=
  match layer with
  | Some l => bool_decide (l.(ConfigLayer.policy).(Policy.mode) = PolicyMode.Report)
  | None => false
  end.

Definition effective_mode (h : t) : PolicyMode.t :=
  if reports h.(system) || reports h.(user) || reports h.(invocation) then PolicyMode.Report
  else match List.find (λ l, negb (bool_decide (l.(ConfigLayer.source) = ConfigSource.Defaults)))
               (layers h) with
       | Some l => l.(ConfigLayer.policy).(Policy.mode)
       | None => h.(defaults).(ConfigLayer.policy).(Policy.mode)
       end.

(** The requests of the most specific layer that is not the defaults. *)
Definition selected (h : t) : list PolicyRequest.t :=
  match h.(invocation), h.(user), h.(system) with
  | Some l, _, _ | None, Some l, _ | None, None, Some l =>
    l.(ConfigLayer.policy).(Policy.requests)
  | None, None, None => []
  end.

(** The request is in every allowlist of higher trust that is not empty. *)
Definition allowed (h : t) (request : PolicyRequest.t) : bool :=
  forallb (λ l, bool_decide (l.(ConfigLayer.policy).(Policy.requests) = [])
                || contains_request l.(ConfigLayer.policy).(Policy.requests) request)
    (omap id [h.(system); h.(user)]).

Fixpoint filter_requests (h : t) (l requests : list PolicyRequest.t) : Result (list PolicyRequest.t) :=
  match l with
  | [] => Ok requests
  | request :: rest =>
    if allowed h request then filter_requests h rest (requests ++ [request])
    else if request.(PolicyRequest.required)
    then Err (SysboostError.new ErrorCode.AuthorizationError
                "required request is outside a higher-trust configuration allowlist")
    else filter_requests h rest requests
  end.

Definition effective (h : t) : Result Policy.t :=
  let max_risk := default RiskClass.Low
    (min_by (λ r, N.of_nat (RiskClass.rank r))
       ((λ l, l.(ConfigLayer.policy).(Policy.max_risk)) <$> layers h)) in
  let allow_experimental :=
    forallb (λ l, l.(ConfigLayer.policy).(Policy.allow_experimental)) (layers h) in
  let required_default :=
    existsb (λ l, l.(ConfigLayer.policy).(Policy.required_default)) (layers h) in
  session_timeout_ms ← ok_or
    (min_by id (filter (λ value, 0 < value)
       ((λ l, l.(ConfigLayer.policy).(Policy.session_timeout_ms)) <$> layers h)))
    (SysboostError.new ErrorCode.ConfigError
       "configuration hierarchy has no positive session timeout");
  requests ← filter_requests h (selected h) [];
  Ok (Policy.mk (effective_mode h) max_risk allow_experimental required_default requests
        session_timeout_ms).
End ConfigHierarchy.

(** ** The merge only restricts *)

Import ConfigHierarchy.

Lemma min_by_spec {A} (rank : A → N) l x :
  min_by rank l = Some x → x ∈ l ∧ ∀ y, y ∈ l → rank x ≤ rank y.
Proof.
  destruct l as [|a l]; [done|]. cbn [min_by]. intros [= <-]. revert a.
  induction l as [|b l IH]; intros a; cbn [foldl].
  { split; [set_solver|]. intros y ->%list_elem_of_singleton. done. }
  destruct (N.ltb_spec (rank b) (rank a)) as [Hlt|Hge].
  - destruct (IH b) as [Hin Hle]. split; [set_solver|]. intros y.
    rewrite !elem_of_cons. intros [->|[->|Hy]].
    + specialize (Hle b ltac:(set_solver)). lia.
    + apply Hle. set_solver.
    + apply Hle. set_solver.
  - destruct (IH a) as [Hin Hle]. split; [set_solver|]. intros y.
    rewrite !elem_of_cons. intros [->|[->|Hy]].
    + apply Hle. set_solver.
    + specialize (Hle a ltac:(set_solver)). lia.
    + apply Hle. set_solver.
Qed.

Lemma min_by_None {A} (rank : A → N) l : min_by rank l = None ↔ l = [].
Proof. by destruct l. Qed.

Lemma filter_requests_Ok h l acc requests :
  filter_requests h l acc = Ok requests ↔
  requests = acc ++ filter (λ r, allowed h r = true) l
  ∧ ∀ r, r ∈ l → r.(PolicyRequest.required) = true → allowed h r = true.
Proof.
  revert acc. induction l as [|r l IH]; intros acc; cbn [filter_requests].
  { rewrite filter_nil, app_nil_r. split; [intros [= <-]; split; [done|set_solver]|by intros [-> _]]. }
  destruct (allowed h r) eqn:Ha.
  - rewrite IH, filter_cons_True by done. rewrite <-app_assoc. cbn.
    setoid_rewrite elem_of_cons. naive_solver.
  - rewrite filter_cons_False by congruence.
    destruct (PolicyRequest.required r) eqn:Hr.
    + split; [done|]. intros [_ Hall]. specialize (Hall r ltac:(left) Hr). congruence.
    + rewrite IH. setoid_rewrite elem_of_cons. naive_solver congruence.
Qed.

Lemma filter_requests_Err h l acc e :
  filter_requests h l acc = Err e →
  ∃ r, r ∈ l ∧ r.(PolicyRequest.required) = true ∧ allowed h r = false.
Proof.
  revert acc. induction l as [|r l IH]; intros acc; cbn [filter_requests]; [done|].
  setoid_rewrite elem_of_cons.
  destruct (allowed h r) eqn:Ha; [intros H; apply IH in H; naive_solver|].
  destruct (PolicyRequest.required r) eqn:Hr; [eauto|]. intros H; apply IH in H; naive_solver.
Qed.

Definition layer_policies (h : t) : list Policy.t := ConfigLayer.policy <$> layers h.

(** The layers as the constructors build them: each of its own source. *)
Definition configured_layers (h : t) : list ConfigLayer.t := omap id [h.(system); h.(user); h.(invocation)].
Definition sources_ok (h : t) : Prop :=
  h.(defaults).(ConfigLayer.source) = ConfigSource.Defaults
  ∧ Forall (λ l, l.(ConfigLayer.source) ≠ ConfigSource.Defaults) (configured_layers h).

(** What is configured beyond the defaults. *)
Definition configured (h : t) : list Policy.t := ConfigLayer.policy <$> configured_layers h.
Definition is_report (q : Policy.t) : Prop := q.(Policy.mode) = PolicyMode.Report.

Lemma reports_configured h :
  reports h.(system) || reports h.(user) || reports h.(invocation) = true ↔ Exists is_report (configured h).
Proof.
  unfold configured, configured_layers, reports, is_report.
  destruct h.(system), h.(user), h.(invocation); cbn;
    rewrite ?orb_true_iff, ?Exists_cons, ?Exists_nil, ?bool_decide_eq_true; cbn; intuition congruence.
Qed.

Lemma effective_mode_report h :
  sources_ok h →
  effective_mode h = PolicyMode.Report
  ↔ Exists is_report (configured h) ∨ configured h = [] ∧ is_report h.(defaults).(ConfigLayer.policy).
Proof.
  intros [Hd Hl]. unfold effective_mode.
  assert (layers h = h.(defaults) :: configured_layers h) as -> by done.
  pose proof (reports_configured h) as Hr. destruct (_ || _ || _); [tauto|].
  assert (¬ Exists is_report (configured h)) as Hno by (rewrite <-Hr; done).
  cbn [List.find]. rewrite Hd. unfold configured in *.
  destruct (configured_layers h) as [|l ls]; [|].
  { change (ConfigLayer.policy <$> []) with (@nil Policy.t) in *. cbn [List.find]. unfold is_report in *.
    split; [auto|intros [H|[_ H]]; [by apply Exists_nil in H|done]]. }
  apply Forall_cons in Hl as [Hl _]. cbn [List.find negb bool_decide].
  rewrite (bool_decide_eq_false_2 (ConfigLayer.source l = _)) by done. cbn.
  unfold is_report in *. split; [intros Hm; destruct Hno; by apply Exists_cons_hd|].
  intros [H|[H _]]; [by destruct Hno|done].
Qed.

(** C36. No layer can widen what another restricts.  The effective policy's
    risk limit is the least of all layers, the defaults included; experimental
    features need every layer's consent; requests are required by default if
    any layer says so; the timeout is the least of the positive ones; the mode
    is [Report] exactly if a layer beyond the defaults reports, or there is none
    and the defaults report; and the requests are exactly those of the most
    specific layer that every non-empty administrator and user allowlist
    contains, with no required request dropped. *)
Theorem effective_only_restricts (h : t) (p : Policy.t) :
  effective h = Ok p →
  (∀ q, q ∈ layer_policies h → RiskClass.rank p.(Policy.max_risk) ≤ RiskClass.rank q.(Policy.max_risk))%nat
  ∧ (∃ q, q ∈ layer_policies h ∧ p.(Policy.max_risk) = q.(Policy.max_risk))
  ∧ (p.(Policy.allow_experimental) = true ↔
      ∀ q, q ∈ layer_policies h → q.(Policy.allow_experimental) = true)
  ∧ (p.(Policy.required_default) = true ↔
      ∃ q, q ∈ layer_policies h ∧ q.(Policy.required_default) = true)
  ∧ 0 < p.(Policy.session_timeout_ms)
  ∧ (∃ q, q ∈ layer_policies h ∧ p.(Policy.session_timeout_ms) = q.(Policy.session_timeout_ms))
  ∧ (∀ q, q ∈ layer_policies h → 0 < q.(Policy.session_timeout_ms) →
       p.(Policy.session_timeout_ms) ≤ q.(Policy.session_timeout_ms))
  ∧ (Exists is_report (configured h) → is_report p)
  ∧ (sources_ok h →
       is_report p ↔ Exists is_report (configured h)
                     ∨ configured h = [] ∧ is_report h.(defaults).(ConfigLayer.policy))
  ∧ p.(Policy.requests) = filter (λ r, allowed h r = true) (selected h)
  ∧ ∀ r, r ∈ selected h → r.(PolicyRequest.required) = true → r ∈ p.(Policy.requests).
Proof.
  unfold effective. intros H. apply bind_Ok in H as (timeout & Ht & H). apply ok_or_Ok in Ht.
  apply bind_Ok in H as (requests & Hr & H). apply Ok_inj in H as <-.
  apply filter_requests_Ok in Hr as [-> Hreq].
  apply min_by_spec in Ht as [Hin Hle].
  apply list_elem_of_filter in Hin as [Hpos Hin].
  match goal with |- context [min_by ?f ?l] => destruct (min_by f l) as [risk|] eqn:Hrisk end;
    [|by apply min_by_None in Hrisk].
  apply min_by_spec in Hrisk as [Hrin Hrle].
  unfold is_report at 2 3.
  cbn [Policy.max_risk Policy.allow_experimental Policy.required_default Policy.session_timeout_ms Policy.mode
       Policy.requests app default].
  apply list_elem_of_fmap in Hrin as (l0 & -> & Hl0).
  unfold layer_policies. setoid_rewrite list_elem_of_fmap. split_and!.
  - intros q (l & -> & Hl). specialize (Hrle (Policy.max_risk (ConfigLayer.policy l))).
    rewrite list_elem_of_fmap in Hrle. specialize (Hrle ltac:(eauto)). cbv beta in Hrle. unfold id. lia.
  - eauto.
  - rewrite forallb_forall. setoid_rewrite <-list_elem_of_In. naive_solver.
  - rewrite existsb_exists. setoid_rewrite <-list_elem_of_In. naive_solver.
  - done.
  - apply list_elem_of_fmap in Hin as (l & -> & Hl). eauto.
  - intros q (l & -> & Hl) Hq. apply Hle. apply list_elem_of_filter. split; [done|].
    apply list_elem_of_fmap. eauto.
  - unfold effective_mode. by intros ->%reports_configured.
  - apply effective_mode_report.
  - done.
  - intros r Hr Hrr. apply list_elem_of_filter. auto.
Qed.

(** The merge fails only for the two documented reasons: no layer has a
    positive timeout, or a required request is outside an allowlist of higher
    trust. *)
Theorem effective_error_iff (h : t) :
  is_ok (effective h) = false ↔
  (∀ q, q ∈ layer_policies h → q.(Policy.session_timeout_ms) = 0)
  ∨ ∃ r, r ∈ selected h ∧ r.(PolicyRequest.required) = true ∧ allowed h r = false.
Proof.
  unfold effective, layer_policies. setoid_rewrite list_elem_of_fmap.
  destruct (min_by id _) as [timeout|] eqn:Ht; cbn [ok_or mbind result_bind].
  - apply min_by_spec in Ht as [Hin _]. apply list_elem_of_filter in Hin as [Hpos Hin].
    apply list_elem_of_fmap in Hin as (l & -> & Hl).
    destruct (filter_requests h (selected h) []) as [requests|e] eqn:Hr; cbn [is_ok mbind result_bind].
    + apply filter_requests_Ok in Hr as [_ Hreq]. split; [done|].
      intros [H|(r & Hr & Hrr & Ha)].
      * specialize (H (ConfigLayer.policy l) ltac:(eauto)). cbn in Hpos. lia.
      * pose proof (Hreq _ Hr Hrr). congruence.
    + split; [intros _; right|done]. by eapply filter_requests_Err.
  - apply min_by_None in Ht. split; [intros _; left|done]. intros q (l & -> & Hl).
    destruct (N.eq_dec (Policy.session_timeout_ms (ConfigLayer.policy l)) 0) as [|Hne]; [done|].
    exfalso. eapply elem_of_nil. rewrite <-Ht. apply list_elem_of_filter.
    split; [|apply list_elem_of_fmap; eauto]. cbn. lia.
Qed.

(** ** A concrete hierarchy *)

Module ConfigFixture.
Definition request (n : N) (required : bool) : PolicyRequest.t :=
  PolicyRequest.mk (CapabilityId.mk "cpu.policy.governor") (TargetId.mk "cpu.policy.0")
    (MutationKind.CpuGovernor (CpuPolicyId.mk n) (GovernorId.mk "performance")) required.
Definition administrator : Policy.t :=
  Policy.mk PolicyMode.Boost RiskClass.Medium false false [request 0 false] 20000.
Definition desktop : Policy.t :=
  Policy.mk PolicyMode.Boost RiskClass.Critical true false [request 0 true; request 1 false] 60000.
Definition hierarchy : t :=
  ConfigHierarchy.new Policy.safe_defaults |> with_system administrator |> with_user desktop.
Definition merged : Policy.t :=
  Policy.mk PolicyMode.Boost RiskClass.Medium false false [request 0 true] 20000.
End ConfigFixture.
Import ConfigFixture.

Lemma effective_only_restricts_witness :
  effective hierarchy = Ok merged
  ∧ merged.(Policy.requests) = filter (λ r, allowed hierarchy r = true) (selected hierarchy).
Proof.
  assert (effective hierarchy = Ok merged) as H by (vm_compute; reflexivity).
  split; [exact H|].
  destruct (effective_only_restricts hierarchy merged H) as (_ & _ & _ & _ & _ & _ & _ & _ & _ & Hr & _).
  exact Hr.
Defined.
