(* ===== verification/Policy.v ===== *)
(** * Planner input ([sysboost-core/src/planner.rs], policy, facts, catalog)

    The effective policy with its preserve rules, opt-ins and proposals, the
    current-state facts of discovery, the catalog of reviewed operation
    contracts, and the orders the planner sorts them by. *)
From S2P Require Import Prelude Lists Text Ids Capability Mutation Decision Plan.
Local Open Scope N_scope.

(** ** Derived orders *)

#[export] Instance capability_id_ord : Ord CapabilityId.t := cmp_by CapabilityId.as_str.
#[export] Instance capability_id_ord_laws : OrdLaws CapabilityId.t.
Proof. apply cmp_by_laws. intros [] []; cbn; congruence. Qed.
#[export] Instance operation_id_ord : Ord OperationId.t := cmp_by OperationId.as_str.
#[export] Instance operation_id_ord_laws : OrdLaws OperationId.t.
Proof. apply cmp_by_laws. intros [] []; cbn; congruence. Qed.
#[export] Instance backend_id_ord : Ord BackendId.t := cmp_by BackendId.as_str.
#[export] Instance backend_id_ord_laws : OrdLaws BackendId.t.
Proof. apply cmp_by_laws. intros [] []; cbn; congruence. Qed.
#[export] Instance target_id_ord : Ord TargetId.t := cmp_by TargetId.as_str.
#[export] Instance target_id_ord_laws : OrdLaws TargetId.t.
Proof. apply cmp_by_laws. intros [] []; cbn; congruence. Qed.

(** [item.control as u8]: the place of the variant, by which the enum is
    ordered. *)
Definition control_tag (c : ControlId.t) : N :=
  match c with
  | ControlId.CpuGovernor => 0 | ControlId.CpuEnergyPreference => 1
  | ControlId.CpuFrequency => 2 | ControlId.CpuBoost => 3
  | ControlId.PlatformProfile => 4 | ControlId.CgroupCpuWeight => 5
  | ControlId.CgroupCpuMax => 6 | ControlId.CgroupCpuset => 7
  | ControlId.CgroupIoWeight => 8 | ControlId.CgroupWorkload => 9
  | ControlId.CgroupBackground => 10 | ControlId.GpuPerformanceProfile => 11
  | ControlId.GpuPowerLimit => 12 | ControlId.IrqAffinity => 13
  | ControlId.SchedulerWorkload => 14 | ControlId.ProcessPlacement => 15
  | ControlId.ProcessNice => 16 | ControlId.ProcessIoPriority => 17
  | ControlId.CgroupUclamp => 18 | ControlId.CgroupUclampMin => 19
  | ControlId.CgroupUclampMax => 20 | ControlId.TransparentHugePages => 21
  | ControlId.MemoryVm => 22 | ControlId.ReportOnly => 23
  end.
#[export] Instance control_ord : Ord ControlId.t := cmp_by control_tag.
#[export] Instance control_ord_laws : OrdLaws ControlId.t.
Proof. apply cmp_by_laws. by intros [] []. Qed.

(** Features: the place of the variant, then the capability of a custom
    one. *)
Definition feature_tag (f : Feature.t) : N * string :=
  match f with
  | Feature.CpuGovernor => (0, "") | Feature.CpuFrequency => (1, "")
  | Feature.CpuEnergyPreference => (2, "") | Feature.CpuBoost => (3, "")
  | Feature.PlatformProfile => (4, "") | Feature.CgroupCpu => (5, "")
  | Feature.CpuPlacement => (6, "") | Feature.GpuTuning => (7, "")
  | Feature.IrqTuning => (8, "") | Feature.SchedulerTuning => (9, "")
  | Feature.MemoryVm => (10, "") | Feature.TransparentHugePages => (11, "")
  | Feature.Custom c => (12, CapabilityId.as_str c)
  end.
#[export] Instance feature_ord : Ord Feature.t := cmp_by feature_tag.
#[export] Instance feature_ord_laws : OrdLaws Feature.t.
Proof.
  apply cmp_by_laws. intros [] []; cbn; try done.
  intros [= Hc]. destruct capability, capability0. cbn in Hc. by subst.
Qed.

(** ** Policy *)

Module PolicySource.
Inductive t := Profile | Invocation | User | System.
#[global] Instance t_eq_dec : EqDecision t. Proof. solve_decision. Defined.
Definition precedence (s : t) : u8 :=
  match s with Profile => 0 | Invocation => 1 | User => 2 | System => 3 end.
End PolicySource.

Module PreserveRule.
Record t := mk { feature : Feature.t; target : option TargetId.t; reason : string }.
#[global] Instance t_eq_dec : EqDecision t. Proof. solve_decision. Defined.
Definition family (feature : Feature.t) (reason : string) : t := mk feature None reason.
Definition for_target (feature : Feature.t) (target : TargetId.t) (reason : string) : t :=
  mk feature (Some target) reason.
End PreserveRule.

Module PolicyProposal.
Record t := mk { source : PolicySource.t; request : PolicyRequest.t }.
#[global] Instance t_eq_dec : EqDecision t. Proof. solve_decision. Defined.
Definition new := mk.
End PolicyProposal.

Module PlannerPolicy.
Record t := mk {
  profile : Profile.t;
  mode : PolicyMode.t;
  max_risk : RiskClass.t;
  allow_experimental : bool;
  required_default : bool;
  session_timeout_ms : u64;
  preserves : list PreserveRule.t;
  explicit_opt_ins : list Feature.t;
  proposals : list PolicyProposal.t
}.
#[global] Instance t_eq_dec : EqDecision t. Proof. solve_decision. Defined.

Definition for_profile (profile : Profile.t) : t :=
  mk profile PolicyMode.Boost RiskClass.Critical false false 30000 [] [] [].

Definition from_policy (profile : Profile.t) (p : Policy.t) : t :=
  mk profile p.(Policy.mode) p.(Policy.max_risk) p.(Policy.allow_experimental)
     p.(Policy.required_default) p.(Policy.session_timeout_ms) [] []
     (PolicyProposal.new PolicySource.Invocation <$> p.(Policy.requests)).

Definition with_mode (mode : PolicyMode.t) (p : t) : t :=
  mk p.(profile) mode p.(max_risk) p.(allow_experimental) p.(required_default)
     p.(session_timeout_ms) p.(preserves) p.(explicit_opt_ins) p.(proposals).
Definition report (profile : Profile.t) : t := with_mode PolicyMode.Report (for_profile profile).
Definition add_preserve (r : PreserveRule.t) (p : t) : t :=
  mk p.(profile) p.(mode) p.(max_risk) p.(allow_experimental) p.(required_default)
     p.(session_timeout_ms) (p.(preserves) ++ [r]) p.(explicit_opt_ins) p.(proposals).
Definition preserve (feature : Feature.t) (reason : string) : t → t :=
  add_preserve (PreserveRule.family feature reason).
Definition preserve_target (feature : Feature.t) (target : TargetId.t) (reason : string) : t → t :=
  add_preserve (PreserveRule.for_target feature target reason).
Definition opt_in (feature : Feature.t) (p : t) : t :=
  mk p.(profile) p.(mode) p.(max_risk) p.(allow_experimental) p.(required_default)
     p.(session_timeout_ms) p.(preserves) (set_insert feature p.(explicit_opt_ins)) p.(proposals).
Definition with_experimental_permission (allowed : bool) (p : t) : t :=
  mk p.(profile) p.(mode) p.(max_risk) allowed p.(required_default)
     p.(session_timeout_ms) p.(preserves) p.(explicit_opt_ins) p.(proposals).
Definition with_max_risk (risk : RiskClass.t) (p : t) : t :=
  mk p.(profile) p.(mode) risk p.(allow_experimental) p.(required_default)
     p.(session_timeout_ms) p.(preserves) p.(explicit_opt_ins) p.(proposals).
Definition proposal (source : PolicySource.t) (request : PolicyRequest.t) (p : t) : t :=
  mk p.(profile) p.(mode) p.(max_risk) p.(allow_experimental) p.(required_default)
     p.(session_timeout_ms) p.(preserves) p.(explicit_opt_ins)
     (p.(proposals) ++ [PolicyProposal.new source request]).
Definition add_request : PolicyRequest.t → t → t := proposal PolicySource.Invocation.

(** The first matching rule. *)
Definition rule_matches (feature : Feature.t) (target : option TargetId.t) (r : PreserveRule.t) :
    bool :=
  bool_decide (r.(PreserveRule.feature) = feature)
  && match r.(PreserveRule.target), target with
     | None, _ => true
     | Some rule_target, Some actual => bool_decide (rule_target = actual)
     | Some _, None => false
     end.
Definition is_preserved (feature : Feature.t) (target : option TargetId.t) (p : t) :
    option string :=
  PreserveRule.reason <$> List.find (rule_matches feature target) p.(preserves).

Definition is_opted_in (feature : Feature.t) (p : t) : bool :=
  bool_decide (feature ∈ p.(explicit_opt_ins)).
End PlannerPolicy.

(** ** Current state *)

Module CurrentValue.
Inductive t := Known (value : PlanValue.t) | Unknown (reason : string).
#[global] Instance t_eq_dec : EqDecision t. Proof. solve_decision. Defined.
End CurrentValue.

Module TypedTarget.
Inductive t :=
| CpuPolicy (policy : CpuPolicyId.t) | CpuSystem | Cgroup (cgroup : CgroupId.t)
| Process (process : ProcessId.t) | Gpu (device : GpuId.t) | Irq (irq : IrqId.t)
| Sysctl (key : ApprovedSysctlKey.t).
#[global] Instance t_eq_dec : EqDecision t. Proof. solve_decision. Defined.
End TypedTarget.

Module CurrentStateFact.
Record t := mk {
  capability : CapabilityId.t;
  target : TargetId.t;
  control : ControlId.t;
  value : CurrentValue.t;
  fingerprint : option StateFingerprint.t;
  target_identity : option TargetIdentity.t;
  supported_values : list PlanValue.t;
  evidence : list CapabilityEvidence.t;
  typed_target : option TypedTarget.t
}.
#[global] Instance t_eq_dec : EqDecision t. Proof. solve_decision. Defined.

Definition known (capability : CapabilityId.t) (target : TargetId.t) (control : ControlId.t)
    (value : PlanValue.t) (fingerprint : StateFingerprint.t) : t :=
  mk capability target control (CurrentValue.Known value) (Some fingerprint) None [] [] None.
Definition unknown (capability : CapabilityId.t) (target : TargetId.t) (control : ControlId.t)
    (reason : string) : t :=
  mk capability target control (CurrentValue.Unknown reason) None None [] [] None.

Definition with_supported_values (values : list PlanValue.t) (f : t) : t :=
  mk f.(capability) f.(target) f.(control) f.(value) f.(fingerprint) f.(target_identity) values
     f.(evidence) f.(typed_target).
Definition with_optional_target_identity (identity : option TargetIdentity.t) (f : t) : t :=
  mk f.(capability) f.(target) f.(control) f.(value) f.(fingerprint) identity
     f.(supported_values) f.(evidence) f.(typed_target).
Definition with_target_identity (identity : TargetIdentity.t) : t → t :=
  with_optional_target_identity (Some identity).
Definition with_typed_target (target' : TypedTarget.t) (f : t) : t :=
  mk f.(capability) f.(target) f.(control) f.(value) f.(fingerprint) f.(target_identity)
     f.(supported_values) f.(evidence) (Some target').
Definition with_evidence (evidence : list CapabilityEvidence.t) (f : t) : t :=
  mk f.(capability) f.(target) f.(control) f.(value) f.(fingerprint) f.(target_identity)
     f.(supported_values) evidence f.(typed_target).

(** What facts are sorted by, and identified by. *)
Definition key (f : t) : CapabilityId.t * TargetId.t * ControlId.t :=
  (f.(capability), f.(target), f.(control)).

(** The value, when it is known. *)
Definition known_value (f : t) : option PlanValue.t :=
  match f.(value) with CurrentValue.Known v => Some v | CurrentValue.Unknown _ => None end.
End CurrentStateFact.

Module CurrentState.
Record t := mk { observed_at : Timestamp.t; facts : list CurrentStateFact.t }.
#[global] Instance t_eq_dec : EqDecision t. Proof. solve_decision. Defined.

(** Two facts with one key that are not the same fact. *)
Definition contradict (previous current : CurrentStateFact.t) : bool :=
  bool_decide (CurrentStateFact.key previous = CurrentStateFact.key current)
  && bool_decide (previous ≠ current).

(** [for index in 1..facts.len()]: every fact with its predecessor. *)
Fixpoint check_neighbours (previous : CurrentStateFact.t) (l : list CurrentStateFact.t) :
    Result unit :=
  match l with
  | [] => Ok tt
  | current :: l' =>
    if contradict previous current
    then Err (SysboostError.new ErrorCode.PlanningError
                "current-state inventory contains contradictory duplicate facts"
              |> SysboostError.with_stage Stage.Plan
              |> SysboostError.with_capability current.(CurrentStateFact.capability)
              |> SysboostError.with_target current.(CurrentStateFact.target))
    else check_neighbours current l'
  end.

Definition new (observed_at : Timestamp.t) (facts : list CurrentStateFact.t) : Result t :=
  let facts := sort_by (cmp_by CurrentStateFact.key) facts in
  _ ← match facts with [] => Ok tt | f :: l => check_neighbours f l end;
  Ok (mk observed_at (dedup facts)).

Definition empty (observed_at : Timestamp.t) : t := mk observed_at [].
End CurrentState.

(** ** The catalog of operation contracts *)

Module OperationCatalog.
Record t := mk { contracts : list OperationContract.t }.
#[global] Instance t_eq_dec : EqDecision t. Proof. solve_decision. Defined.

Definition contract_key (c : OperationContract.t) : OperationId.t * BackendId.t * CapabilityId.t :=
  (c.(OperationContract.operation), c.(OperationContract.backend),
   c.(OperationContract.capability)).

Definition new (contracts : list OperationContract.t) : t :=
  mk (sort_by (cmp_by contract_key) contracts).
Definition empty : t := mk [].

Fixpoint check_ownership (previous : OperationContract.t) (l : list OperationContract.t) :
    Result unit :=
  match l with
  | [] => Ok tt
  | current :: l' =>
    if bool_decide (previous.(OperationContract.operation) = current.(OperationContract.operation))
    then Err (SysboostError.new ErrorCode.InvariantViolation
                "operation catalog contains duplicate operation ownership"
              |> SysboostError.with_stage Stage.Plan
              |> SysboostError.with_backend current.(OperationContract.backend))
    else check_ownership current l'
  end.

Definition validate (c : t) : Result unit :=
  _ ← for_each OperationContract.validate c.(contracts);
  match c.(contracts) with [] => Ok tt | x :: l => check_ownership x l end.

Definition find (capability : CapabilityId.t) (operation : OperationId.t) (c : t) :
    option OperationContract.t :=
  List.find (λ x, bool_decide (x.(OperationContract.capability) = capability)
                  && bool_decide (x.(OperationContract.operation) = operation)) c.(contracts).
End OperationCatalog.
