(* ===== verification/Specs.v ===== *)
(** * What profiles ask for ([sysboost-core/src/planner.rs], feature specifications)

    The built-in feature specifications, the value a profile wants for each
    of them, the closed operation that sets it, and the shape of every
    operation. *)
From S2P Require Import Prelude Lists Text Ids Capability Mutation Decision Plan Policy.
Local Open Scope N_scope.

Module PlannerInput.
Record t := mk {
  policy : PlannerPolicy.t;
  inventory : CapabilityInventory.t;
  current_state : CurrentState.t
}.
End PlannerInput.

Module PolicyResolution.
Record t := mk { profile : Profile.t; items : list PlanItem.t }.
#[global] Instance t_eq_dec : EqDecision t. Proof. solve_decision. Defined.
End PolicyResolution.

Module ProfileTarget.
Inductive t := Governor | EnergyPreference | PlatformPerformance | GpuPerformance | None.
#[global] Instance t_eq_dec : EqDecision t. Proof. solve_decision. Defined.
End ProfileTarget.

Module FeatureSpec.
Record t := mk {
  feature : Feature.t;
  capability : CapabilityId.t;
  operation : OperationId.t;
  control : ControlId.t;
  risk : RiskClass.t;
  classification : FeatureClass.t;
  explicit_opt_in : bool;
  extreme_candidate : bool;
  profile_target : ProfileTarget.t
}.
#[global] Instance t_eq_dec : EqDecision t. Proof. solve_decision. Defined.
End FeatureSpec.

(** The static identifiers: the [expect] of their construction cannot fail,
    see [feature_specs_static]. *)
Definition static_capability (value : string) : CapabilityId.t := CapabilityId.mk value.
Definition static_operation (value : string) : OperationId.t := OperationId.mk value.

Definition feature_specs : list FeatureSpec.t := [
  FeatureSpec.mk Feature.CpuGovernor
    (static_capability capability_ids.CPU_POLICY_GOVERNOR) (static_operation "cpu.governor")
    ControlId.CpuGovernor RiskClass.Low FeatureClass.RuntimeMutable false false
    ProfileTarget.Governor;
  FeatureSpec.mk Feature.CpuEnergyPreference
    (static_capability capability_ids.CPU_POLICY_ENERGY_PREFERENCE)
    (static_operation "cpu.energy_preference")
    ControlId.CpuEnergyPreference RiskClass.Low FeatureClass.RuntimeMutable false false
    ProfileTarget.EnergyPreference;
  FeatureSpec.mk Feature.CpuFrequency
    (static_capability capability_ids.CPU_POLICY_FREQUENCY_MAX) (static_operation "cpu.frequency")
    ControlId.CpuFrequency RiskClass.Medium FeatureClass.RuntimeMutable false false
    ProfileTarget.None;
  FeatureSpec.mk Feature.CpuPlacement
    (static_capability capability_ids.CPU_TOPOLOGY) (static_operation "report.cpu.topology")
    ControlId.ReportOnly RiskClass.Low FeatureClass.BootOnlyReportOnly false false
    ProfileTarget.None;
  FeatureSpec.mk Feature.CpuBoost
    (static_capability capability_ids.CPU_BOOST) (static_operation "cpu.boost")
    ControlId.CpuBoost RiskClass.Medium FeatureClass.RuntimeMutable false false
    ProfileTarget.None;
  FeatureSpec.mk Feature.PlatformProfile
    (static_capability capability_ids.PLATFORM_PROFILE) (static_operation "platform.profile")
    ControlId.PlatformProfile RiskClass.Medium FeatureClass.Conditional false false
    ProfileTarget.PlatformPerformance;
  FeatureSpec.mk Feature.CgroupCpu
    (static_capability capability_ids.CGROUP_CPU_WEIGHT) (static_operation "cgroup.cpu.weight")
    ControlId.CgroupCpuWeight RiskClass.Medium FeatureClass.RuntimeMutable false false
    ProfileTarget.None;
  FeatureSpec.mk Feature.CgroupCpu
    (static_capability capability_ids.CGROUP_CPU_MAX) (static_operation "cgroup.cpu.max")
    ControlId.CgroupCpuMax RiskClass.Medium FeatureClass.RuntimeMutable false false
    ProfileTarget.None;
  FeatureSpec.mk Feature.CgroupCpu
    (static_capability capability_ids.CGROUP_CPUSET_CPUS) (static_operation "cgroup.cpuset.cpus")
    ControlId.CgroupCpuset RiskClass.Medium FeatureClass.Conditional false false
    ProfileTarget.None;
  FeatureSpec.mk Feature.GpuTuning
    (static_capability capability_ids.GPU_PERFORMANCE_PROFILE)
    (static_operation "gpu.performance.profile")
    ControlId.GpuPerformanceProfile RiskClass.Critical FeatureClass.Experimental true true
    ProfileTarget.GpuPerformance;
  FeatureSpec.mk Feature.GpuTuning
    (static_capability capability_ids.GPU_POWER_LIMIT) (static_operation "gpu.power.limit")
    ControlId.GpuPowerLimit RiskClass.Critical FeatureClass.Experimental true true
    ProfileTarget.None;
  FeatureSpec.mk Feature.IrqTuning
    (static_capability capability_ids.IRQ_AFFINITY) (static_operation "irq.affinity")
    ControlId.IrqAffinity RiskClass.Critical FeatureClass.Experimental true true
    ProfileTarget.None;
  FeatureSpec.mk Feature.SchedulerTuning
    (static_capability capability_ids.SCHEDULER) (static_operation "report.scheduler.workload")
    ControlId.SchedulerWorkload RiskClass.Critical FeatureClass.Experimental true true
    ProfileTarget.None;
  FeatureSpec.mk Feature.CgroupCpu
    (static_capability capability_ids.CGROUP_UCLAMP) (static_operation "report.cgroup.uclamp")
    ControlId.CgroupUclamp RiskClass.Medium FeatureClass.Conditional false false
    ProfileTarget.None;
  FeatureSpec.mk Feature.TransparentHugePages
    (static_capability capability_ids.MEMORY_THP) (static_operation "report.memory.thp")
    ControlId.TransparentHugePages RiskClass.Medium FeatureClass.Conditional false false
    ProfileTarget.None;
  FeatureSpec.mk Feature.MemoryVm
    (static_capability capability_ids.KERNEL_SYSCTL_RUNTIME)
    (static_operation "kernel.sysctl.runtime")
    ControlId.MemoryVm RiskClass.High FeatureClass.Conditional false false
    ProfileTarget.None ].

Lemma feature_specs_static :
  forallb (λ s,
    is_ok (CapabilityId.new (CapabilityId.as_str s.(FeatureSpec.capability)))
    && is_ok (OperationId.new (OperationId.as_str s.(FeatureSpec.operation)))) feature_specs = true.
Proof. by vm_compute. Qed.

(** ** The value a profile wants *)

(** [values.is_empty() || values.contains(&value)]: an interface that
    advertises nothing is not constrained. *)
Definition advertised (fact : CurrentStateFact.t) (value : PlanValue.t) : bool :=
  let values := fact.(CurrentStateFact.supported_values) in
  bool_decide (values = []) || bool_decide (value ∈ values).

(** The static governor and profile names are valid, see
    [static_names_valid]. *)
Definition choose_governor (fact : option CurrentStateFact.t) (candidates : list string) :
    option PlanValue.t :=
  f ← fact;
  List.find (advertised f) ((λ c, PlanValue.Typed (TypedValue.Governor (GovernorId.mk c))) <$> candidates).

Definition choose_energy_preference (fact : option CurrentStateFact.t)
    (candidates : list EnergyPreference.t) : option PlanValue.t :=
  f ← fact;
  List.find (advertised f) ((λ c, PlanValue.Typed (TypedValue.EnergyPreference c)) <$> candidates).

Definition choose_platform_profile (fact : option CurrentStateFact.t) (desired : string) :
    option PlanValue.t :=
  let value := PlanValue.Typed (TypedValue.PlatformProfile (PlatformProfileId.mk desired)) in
  match fact with
  | Some f => if advertised f value then Some value else None
  | None => None
  end.

Lemma static_names_valid :
  GovernorId.new "schedutil" = Ok (GovernorId.mk "schedutil")
  ∧ GovernorId.new "ondemand" = Ok (GovernorId.mk "ondemand")
  ∧ GovernorId.new "performance" = Ok (GovernorId.mk "performance")
  ∧ PlatformProfileId.new "performance" = Ok (PlatformProfileId.mk "performance").
Proof. by vm_compute. Qed.

(** The chosen value, or why there is none: silence without a fact, a
    reason when the interface does not advertise the target. *)
Definition or_reason (chosen : option PlanValue.t) (fact : option CurrentStateFact.t)
    (reason : string) : option PlanValue.t * option string :=
  match chosen with
  | Some value => (Some value, None)
  | None => if bool_decide (is_Some fact) then (None, Some reason) else (None, None)
  end.

Definition profile_desired (profile : Profile.t) (spec : FeatureSpec.t)
    (fact : option CurrentStateFact.t) : option PlanValue.t * option string :=
  match spec.(FeatureSpec.profile_target) with
  | ProfileTarget.Governor =>
    let candidates :=
      match ProfileIntent.governor (Profile_intent profile) with
      | PerformanceIntent.Balanced => ["schedutil"; "ondemand"]
      | PerformanceIntent.Performance => ["performance"]
      end in
    or_reason (choose_governor fact candidates) fact
      "profile target is not among the values advertised by the interface"
  | ProfileTarget.EnergyPreference =>
    let candidates :=
      match ProfileIntent.energy_preference (Profile_intent profile) with
      | PerformanceIntent.Balanced =>
          [EnergyPreference.BalancePerformance; EnergyPreference.BalancePower]
      | PerformanceIntent.Performance => [EnergyPreference.Performance]
      end in
    or_reason (choose_energy_preference fact candidates) fact
      "profile EPP target is not among the values advertised by the interface"
  | ProfileTarget.PlatformPerformance =>
    if bool_decide (profile ≠ Profile.Balanced)
    then or_reason (choose_platform_profile fact "performance") fact
           "platform performance profile is not advertised by the interface"
    else (None, None)
  | ProfileTarget.GpuPerformance =>
    if bool_decide (profile = Profile.Extreme)
    then (Some (PlanValue.Typed (TypedValue.GpuPerformanceProfile GpuProfile.Performance)), None)
    else (None, None)
  | ProfileTarget.None => (None, None)
  end.

(** The closed operation that gives a typed target the desired value. *)
Definition default_kind (control : ControlId.t) (fact : CurrentStateFact.t)
    (desired : TypedValue.t) : option MutationKind.t :=
  target ← fact.(CurrentStateFact.typed_target);
  match control, target, desired with
  | ControlId.CpuGovernor, TypedTarget.CpuPolicy policy, TypedValue.Governor governor =>
      Some (MutationKind.CpuGovernor policy governor)
  | ControlId.CpuEnergyPreference, TypedTarget.CpuPolicy policy,
    TypedValue.EnergyPreference value => Some (MutationKind.CpuEnergyPreference policy value)
  | ControlId.CpuBoost, TypedTarget.CpuSystem, TypedValue.CpuBoost state =>
      Some (MutationKind.CpuBoost state)
  | ControlId.PlatformProfile, TypedTarget.CpuSystem, TypedValue.PlatformProfile profile =>
      Some (MutationKind.PlatformProfile profile)
  | ControlId.CgroupCpuWeight, TypedTarget.Cgroup cgroup, TypedValue.CgroupCpuWeight weight =>
      Some (MutationKind.CgroupCpuWeight cgroup weight)
  | ControlId.CgroupCpuMax, TypedTarget.Cgroup cgroup, TypedValue.CgroupCpuMax quota period =>
      Some (MutationKind.CgroupCpuMax cgroup quota period)
  | ControlId.CgroupCpuset, TypedTarget.Cgroup cgroup, TypedValue.CgroupCpuset cpus =>
      Some (MutationKind.CgroupCpuset cgroup cpus)
  | (ControlId.CgroupUclamp | ControlId.CgroupUclampMin), TypedTarget.Cgroup cgroup,
    TypedValue.CgroupUclamp value => Some (MutationKind.CgroupUclampMin cgroup value)
  | ControlId.CgroupUclampMax, TypedTarget.Cgroup cgroup, TypedValue.CgroupUclamp value =>
      Some (MutationKind.CgroupUclampMax cgroup value)
  | ControlId.CgroupIoWeight, TypedTarget.Cgroup cgroup, TypedValue.CgroupIoWeight weight =>
      Some (MutationKind.CgroupIoWeight cgroup weight)
  | (ControlId.SchedulerWorkload | ControlId.ProcessNice), TypedTarget.Process process,
    TypedValue.Nice nice => Some (MutationKind.ProcessNice process nice)
  | (ControlId.SchedulerWorkload | ControlId.ProcessIoPriority), TypedTarget.Process process,
    TypedValue.IoPriority priority => Some (MutationKind.ProcessIoPriority process priority)
  | (ControlId.SchedulerWorkload | ControlId.ProcessPlacement), TypedTarget.Process process,
    TypedValue.ProcessPlacement cgroup => Some (MutationKind.ProcessPlacement process cgroup)
  | ControlId.CgroupWorkload, TypedTarget.Cgroup parent,
    TypedValue.CgroupLifecycle CgroupGroupKind.Workload name true =>
      Some (MutationKind.CgroupWorkload parent name)
  | ControlId.CgroupBackground, TypedTarget.Cgroup parent,
    TypedValue.CgroupLifecycle CgroupGroupKind.ConservativeBackground name true =>
      Some (MutationKind.CgroupBackground parent name)
  | ControlId.GpuPerformanceProfile, TypedTarget.Gpu device,
    TypedValue.GpuPerformanceProfile profile =>
      Some (MutationKind.GpuPerformanceProfile device profile)
  | _, _, _ => None
  end.

Definition operation_shape (kind : MutationKind.t) : ControlId.t * TargetKind.t :=
  match kind with
  | MutationKind.CpuFrequency _ _ _ => (ControlId.CpuFrequency, TargetKind.CpuPolicy)
  | MutationKind.CpuGovernor _ _ => (ControlId.CpuGovernor, TargetKind.CpuPolicy)
  | MutationKind.CpuEnergyPreference _ _ => (ControlId.CpuEnergyPreference, TargetKind.CpuPolicy)
  | MutationKind.CpuBoost _ => (ControlId.CpuBoost, TargetKind.CpuSystem)
  | MutationKind.PlatformProfile _ => (ControlId.PlatformProfile, TargetKind.CpuSystem)
  | MutationKind.CgroupCpuWeight _ _ => (ControlId.CgroupCpuWeight, TargetKind.Cgroup)
  | MutationKind.CgroupCpuMax _ _ _ => (ControlId.CgroupCpuMax, TargetKind.Cgroup)
  | MutationKind.CgroupCpuset _ _ => (ControlId.CgroupCpuset, TargetKind.Cgroup)
  | MutationKind.CgroupIoWeight _ _ => (ControlId.CgroupIoWeight, TargetKind.Cgroup)
  | MutationKind.CgroupUclampMin _ _ => (ControlId.CgroupUclampMin, TargetKind.Cgroup)
  | MutationKind.CgroupUclampMax _ _ => (ControlId.CgroupUclampMax, TargetKind.Cgroup)
  | MutationKind.CgroupWorkload _ _ => (ControlId.CgroupWorkload, TargetKind.Cgroup)
  | MutationKind.CgroupBackground _ _ => (ControlId.CgroupBackground, TargetKind.Cgroup)
  | MutationKind.ProcessPlacement _ _ => (ControlId.ProcessPlacement, TargetKind.Process)
  | MutationKind.ProcessNice _ _ => (ControlId.ProcessNice, TargetKind.Process)
  | MutationKind.ProcessIoPriority _ _ => (ControlId.ProcessIoPriority, TargetKind.Process)
  | MutationKind.GpuPerformanceProfile _ _ => (ControlId.GpuPerformanceProfile, TargetKind.Gpu)
  | MutationKind.GpuPowerLimit _ _ => (ControlId.GpuPowerLimit, TargetKind.Gpu)
  | MutationKind.IrqAffinity _ _ => (ControlId.IrqAffinity, TargetKind.Irq)
  | MutationKind.RuntimeSysctl _ _ => (ControlId.MemoryVm, TargetKind.Sysctl)
  end.

(** The capability an operation belongs to. *)
Definition expected_capability (kind : MutationKind.t) : string :=
  match kind with
  | MutationKind.CpuFrequency _ _ _ => capability_ids.CPU_POLICY_FREQUENCY_MAX
  | MutationKind.CpuGovernor _ _ => capability_ids.CPU_POLICY_GOVERNOR
  | MutationKind.CpuEnergyPreference _ _ => capability_ids.CPU_POLICY_ENERGY_PREFERENCE
  | MutationKind.CpuBoost _ => capability_ids.CPU_BOOST
  | MutationKind.PlatformProfile _ => capability_ids.PLATFORM_PROFILE
  | MutationKind.CgroupCpuWeight _ _ => capability_ids.CGROUP_CPU_WEIGHT
  | MutationKind.CgroupCpuMax _ _ _ => capability_ids.CGROUP_CPU_MAX
  | MutationKind.CgroupCpuset _ _ => capability_ids.CGROUP_CPUSET_CPUS
  | MutationKind.CgroupIoWeight _ _ => capability_ids.CGROUP_IO_WEIGHT
  | MutationKind.CgroupUclampMin _ _ | MutationKind.CgroupUclampMax _ _ =>
      capability_ids.CGROUP_UCLAMP
  | MutationKind.CgroupWorkload _ _ => capability_ids.CGROUP_WORKLOAD
  | MutationKind.CgroupBackground _ _ => capability_ids.CGROUP_BACKGROUND
  | MutationKind.ProcessPlacement _ _ => capability_ids.PROCESS_PLACEMENT
  | MutationKind.ProcessNice _ _ => capability_ids.PROCESS_NICE
  | MutationKind.ProcessIoPriority _ _ => capability_ids.PROCESS_IOPRIO
  | MutationKind.GpuPerformanceProfile _ _ => capability_ids.GPU_PERFORMANCE_PROFILE
  | MutationKind.GpuPowerLimit _ _ => capability_ids.GPU_POWER_LIMIT
  | MutationKind.IrqAffinity _ _ => capability_ids.IRQ_AFFINITY
  | MutationKind.RuntimeSysctl _ _ => capability_ids.KERNEL_SYSCTL_RUNTIME
  end.

(** What a profile wants is among the values the interface advertises. *)
Lemma find_advertised f l v : List.find (advertised f) l = Some v → advertised f v = true.
Proof. intros [_ ?]%find_some. done. Qed.

(** A default operation sets exactly the desired value. *)
Lemma default_kind_value control fact desired kind :
  default_kind control fact desired = Some kind → typed_value kind = desired.
Proof.
  unfold default_kind. destruct (CurrentStateFact.typed_target fact) as [target|]; [|done]. cbn.
  destruct control, target; try done; destruct desired; try done;
    repeat case_match; naive_solver.
Qed.
