(* ===== verification/Resolver.v ===== *)
(** * Policy resolution ([sysboost-core/src/planner.rs], [PolicyResolver])

    From policy, capability evidence and current state to explainable
    decisions: the selection of proposals, the decision for one
    specification and target, and the candidates of a whole resolution.
    The ordering of the mutations is in [Finalize.v]. *)
From S2P Require Import Prelude Lists Text Ids Capability Mutation Decision Plan Policy Specs.
Local Open Scope N_scope.

(** ** Keys and candidates *)

Module CandidateKey.
Record t := mk {
  capability : CapabilityId.t;
  target : option TargetId.t;
  operation : OperationId.t;
  order : u16
}.
#[global] Instance t_eq_dec : EqDecision t. Proof. solve_decision. Defined.
Definition new (capability : CapabilityId.t) (target : TargetId.t) (operation : OperationId.t)
    (order : u16) : t := mk capability (Some target) operation order.
Definition aggregate (capability : CapabilityId.t) (operation : OperationId.t) (order : u16) : t :=
  mk capability None operation order.

(** The derived order compares the fields in turn. *)
Definition fields (k : t) : CapabilityId.t * option TargetId.t * OperationId.t * N :=
  (k.(capability), k.(target), k.(operation), k.(order)).
#[global] Instance key_ord : Ord t := cmp_by fields.
#[global] Instance key_ord_laws : OrdLaws t.
Proof. apply cmp_by_laws. intros [] []. unfold fields. cbn. by intros [= -> -> -> ->]. Qed.
End CandidateKey.

Module MutationDraft.
Record t := mk {
  capability : CapabilityId.t;
  target : TargetId.t;
  kind : MutationKind.t;
  desired : TypedValue.t;
  precondition : StateFingerprint.t;
  equality : EqualityKind.t;
  target_identity : TargetIdentity.t;
  dependencies : list OperationId.t
}.
#[global] Instance t_eq_dec : EqDecision t. Proof. solve_decision. Defined.
End MutationDraft.

Module Candidate.
Record t := mk {
  key : CandidateKey.t;
  item : PlanItem.t;
  mutation : option MutationDraft.t;
  dependencies : list OperationId.t
}.
#[global] Instance t_eq_dec : EqDecision t. Proof. solve_decision. Defined.

Definition non_mutating (order : u16) (capability : CapabilityId.t) (operation : OperationId.t)
    (backend : option BackendId.t) (target : option TargetId.t) (control : ControlId.t)
    (current desired : option PlanValue.t) (action : PlanAction.t) (feature : Feature.t)
    (feature_class : FeatureClass.t) (risk : RiskClass.t) (explicit_opt_in_required : bool)
    (experimental : ExperimentalStatus.t) (evidence : list CapabilityEvidence.t)
    (rationale : string) (reason : option string) (target_identity : option TargetIdentity.t) : t :=
  let key := match target with
             | Some target => CandidateKey.new capability target operation order
             | None => CandidateKey.aggregate capability operation order
             end in
  mk key
    (PlanItem.mk capability operation backend target control current desired action feature
       feature_class risk explicit_opt_in_required experimental evidence rationale reason
       target_identity SnapshotContract.not_applicable RestoreContract.not_applicable
       VerificationContract.not_applicable [] None)
    None [].

Definition of_mutation (order : u16) (capability : CapabilityId.t) (operation : OperationId.t)
    (contract : OperationContract.t) (target : TargetId.t) (control : ControlId.t)
    (current desired : option PlanValue.t) (feature : Feature.t)
    (evidence : list CapabilityEvidence.t) (draft : MutationDraft.t) : t :=
  mk (CandidateKey.new capability target operation order)
    (PlanItem.mk capability operation (Some contract.(OperationContract.backend)) (Some target)
       control current desired PlanAction.Mutation feature
       contract.(OperationContract.classification) contract.(OperationContract.risk)
       contract.(OperationContract.explicit_opt_in)
       (if bool_decide (contract.(OperationContract.classification) = FeatureClass.Experimental)
        then ExperimentalStatus.Enabled else ExperimentalStatus.NotExperimental)
       evidence "typed operation is supported, policy-admitted, and reversible by contract" None
       (Some draft.(MutationDraft.target_identity)) contract.(OperationContract.snapshot)
       contract.(OperationContract.restore) contract.(OperationContract.verification) [] None)
    (Some draft) draft.(MutationDraft.dependencies).

Definition action (c : t) : PlanAction.t := c.(item).(PlanItem.action).
End Candidate.

Abbreviation candidate_map := (list (CandidateKey.t * Candidate.t)).

(** ** Proposals *)

Definition validate_policy (p : PlannerPolicy.t) : Result unit :=
  if p.(PlannerPolicy.session_timeout_ms) =? 0
  then Err (SysboostError.new ErrorCode.ConfigError
              "planner policy requires a positive session timeout"
            |> SysboostError.with_stage Stage.Config)
  else Ok tt.

Definition validate_request (request : PolicyRequest.t) : Result unit :=
  let control := fst (operation_shape request.(PolicyRequest.operation)) in
  if negb (bool_decide (CapabilityId.as_str request.(PolicyRequest.capability)
                        = expected_capability request.(PolicyRequest.operation)))
  then Err (SysboostError.new ErrorCode.PlanningError
              ("explicit request capability does not match its " +:+ ControlId.fmt control
               +:+ " operation")
            |> SysboostError.with_stage Stage.Plan
            |> SysboostError.with_capability request.(PolicyRequest.capability)
            |> SysboostError.with_target request.(PolicyRequest.target))
  else Ok tt.

Definition proposal_key (request : PolicyRequest.t) : CapabilityId.t * TargetId.t * OperationId.t :=
  (request.(PolicyRequest.capability), request.(PolicyRequest.target),
   operation_id request.(PolicyRequest.operation)).

(** By key, the strongest source first. *)
Definition compare_proposals (left right : PolicyProposal.t) : comparison :=
  then_with
    (cmp (proposal_key left.(PolicyProposal.request)) (proposal_key right.(PolicyProposal.request)))
    (cmp (PolicySource.precedence right.(PolicyProposal.source))
         (PolicySource.precedence left.(PolicyProposal.source))).

Definition selection_key (p : PolicyProposal.t) : CandidateKey.t :=
  let r := p.(PolicyProposal.request) in
  CandidateKey.new r.(PolicyRequest.capability) r.(PolicyRequest.target)
    (operation_id r.(PolicyRequest.operation)) 0.

Abbreviation proposal_map := (list (CandidateKey.t * PolicyProposal.t)).

(** One proposal against what is selected under its key. *)
Definition select_step (selected : proposal_map) (p : PolicyProposal.t) : Result proposal_map :=
  _ ← validate_request p.(PolicyProposal.request);
  let key := selection_key p in
  match map_get key selected with
  | None => Ok (map_insert key p selected)
  | Some existing =>
    let before := PolicySource.precedence existing.(PolicyProposal.source) in
    let now := PolicySource.precedence p.(PolicyProposal.source) in
    if bool_decide (existing.(PolicyProposal.request).(PolicyRequest.operation)
                    = p.(PolicyProposal.request).(PolicyRequest.operation))
    then Ok selected
    else if now <? before then Ok selected
    else if before <? now then Ok (map_insert key p selected)
    else planning_error "equal-precedence policy sources propose incompatible values"
  end.

Definition select_proposals (proposals : list PolicyProposal.t) : Result proposal_map :=
  try_fold select_step (sort_by compare_proposals proposals) [].

Definition proposal_for (proposals : proposal_map) (capability : CapabilityId.t)
    (operation : OperationId.t) (target : option TargetId.t) : option PolicyProposal.t :=
  t ← target; map_get (CandidateKey.new capability t operation 0) proposals.

(** ** Evidence *)

Definition descriptor_rank (state : CapabilityState.t) : u8 :=
  match state with
  | CapabilityState.Available => 0 | CapabilityState.ReadOnly => 1 | CapabilityState.Denied => 2
  | CapabilityState.Indeterminate => 3 | CapabilityState.Unsupported => 4
  end.

Module DescriptorIndex.
Record t := mk { descriptors : list CapabilityDescriptor.t }.

Definition preference (d : CapabilityDescriptor.t) : N * BackendId.t :=
  (descriptor_rank d.(CapabilityDescriptor.state), d.(CapabilityDescriptor.backend)).

Definition new (inventory : CapabilityInventory.t) : t :=
  mk (sort_by (cmp_by (λ d, (d.(CapabilityDescriptor.id), preference d)))
        inventory.(CapabilityInventory.capabilities)).

(** [Iterator::min_by]: the first of the least elements. *)
Fixpoint min_by {A} (c : A → A → comparison) (l : list A) : option A :=
  match l with
  | [] => None
  | x :: l' => match min_by c l' with
               | None => Some x
               | Some y => match c x y with Gt => Some y | _ => Some x end
               end
  end.

Definition select (capability : CapabilityId.t) (index : t) : option CapabilityDescriptor.t :=
  min_by (cmp_by preference)
    (filter (λ d, d.(CapabilityDescriptor.id) = capability) index.(descriptors)).
End DescriptorIndex.

(** The derived [Debug] form of a source. *)
Definition debug_source (s : EvidenceSource.t) : string :=
  match s with
  | EvidenceSource.Sysfs => "Sysfs" | EvidenceSource.Procfs => "Procfs"
  | EvidenceSource.CgroupV1 => "CgroupV1" | EvidenceSource.CgroupV2 => "CgroupV2"
  | EvidenceSource.Device => "Device" | EvidenceSource.Permission => "Permission"
  | EvidenceSource.Synthetic => "Synthetic"
  end.

Definition evidence_key (e : CapabilityEvidence.t) : string * string :=
  (debug_source e.(CapabilityEvidence.source), e.(CapabilityEvidence.detail)).

Definition canonicalize_evidence (evidence : list CapabilityEvidence.t) :
    list CapabilityEvidence.t :=
  dedup (sort_by (cmp_by evidence_key) evidence).

(** ** One decision *)

Section Resolve.
Variable catalog : OperationCatalog.t.

(** The experimental gate of a family. *)
Definition experimental_status (policy : PlannerPolicy.t) (spec : FeatureSpec.t)
    (class : FeatureClass.t) : ExperimentalStatus.t :=
  let feature := spec.(FeatureSpec.feature) in
  if bool_decide (class = FeatureClass.Experimental) || Feature.is_experimental feature then
    if negb policy.(PlannerPolicy.allow_experimental) then ExperimentalStatus.Disabled
    else if spec.(FeatureSpec.explicit_opt_in) && negb (PlannerPolicy.is_opted_in feature policy)
    then ExperimentalStatus.OptInRequired
    else ExperimentalStatus.Enabled
  else ExperimentalStatus.NotExperimental.

(** Why the capability layer alone rules a mutation out. *)
Definition descriptor_action (descriptor : option CapabilityDescriptor.t)
    (current desired : option PlanValue.t) : option (PlanAction.t * string) :=
  match CapabilityDescriptor.state <$> descriptor with
  | None => Some (PlanAction.Unsupported, "capability evidence was not present in the inventory")
  | Some CapabilityState.Unsupported =>
      Some (PlanAction.Unsupported, "runtime interface was not detected")
  | Some CapabilityState.Denied =>
      Some (PlanAction.CapabilityDenied, "capability evidence was permission denied")
  | Some CapabilityState.Indeterminate =>
      Some (PlanAction.Indeterminate, "capability evidence was malformed or incomplete")
  | Some CapabilityState.ReadOnly =>
      if bool_decide (is_Some desired) && bool_decide (current ≠ desired)
      then Some (PlanAction.Unsupported,
                 "interface is readable but no mutation operation is admitted")
      else None
  | Some CapabilityState.Available => None
  end.

(** The contract is not about the evidence it is used with. *)
Definition contract_disagrees (contract : OperationContract.t) (descriptor : CapabilityDescriptor.t)
    (spec : FeatureSpec.t) : bool :=
  bool_decide (contract.(OperationContract.backend) ≠ descriptor.(CapabilityDescriptor.backend))
  || bool_decide (contract.(OperationContract.target_kind)
                  ≠ descriptor.(CapabilityDescriptor.target_kind))
  || bool_decide (contract.(OperationContract.control) ≠ spec.(FeatureSpec.control))
  || bool_decide (contract.(OperationContract.equality) ≠ descriptor.(CapabilityDescriptor.equality))
  || bool_decide (contract.(OperationContract.classification)
                  ≠ descriptor.(CapabilityDescriptor.classification))
  || negb (existsb (λ o, bool_decide (o.(OperationDescriptor.id) = spec.(FeatureSpec.operation)))
             descriptor.(CapabilityDescriptor.operations)).

(** [descriptor] is the one that [select] finds for the capability of the
    specification: its state was checked by the caller. *)
Definition resolve_mutation (policy : PlannerPolicy.t) (descriptor : CapabilityDescriptor.t)
    (spec : FeatureSpec.t) (order : u16) (target : option TargetId.t)
    (fact : option CurrentStateFact.t) (proposal : option PolicyProposal.t)
    (desired : PlanValue.t) (current : option PlanValue.t)
    (target_identity : option TargetIdentity.t) (evidence : list CapabilityEvidence.t)
    (feature : Feature.t) (class : FeatureClass.t) (risk : RiskClass.t)
    (explicit_required : bool) (experimental : ExperimentalStatus.t) : Result Candidate.t :=
  let capability := spec.(FeatureSpec.capability) in
  let operation := spec.(FeatureSpec.operation) in
  let control := spec.(FeatureSpec.control) in
  let early := λ current action rationale reason,
    Ok (Candidate.non_mutating order capability operation
          (Some descriptor.(CapabilityDescriptor.backend)) target control current (Some desired)
          action feature class risk explicit_required experimental evidence rationale (Some reason)
          target_identity) in
  if bool_decide (policy.(PlannerPolicy.mode) = PolicyMode.Report)
  then early current PlanAction.DeniedByPolicy "report mode prohibits mutation admission"
         "select an explicit mutation-admitting policy mode"
  else if bool_decide (experimental = ExperimentalStatus.Disabled)
  then early current PlanAction.ExperimentalDisabled
         "experimental permission is disabled by effective policy"
         "enable the trusted experimental policy permission"
  else if bool_decide (experimental = ExperimentalStatus.OptInRequired)
  then early current PlanAction.ExplicitOptInRequired
         "experimental capability is supported but its feature opt-in is absent"
         "supply the feature-specific opt-in"
  else
  match OperationCatalog.find capability operation catalog with
  | None => early (f ← fact; CurrentStateFact.known_value f) PlanAction.Unsupported
              "no approved typed backend operation contract is registered"
              "operation remains report-only until a reviewed contract exists"
  | Some contract =>
    _ ← OperationContract.validate contract;
    if contract.(OperationContract.explicit_opt_in)
       && negb (PlannerPolicy.is_opted_in feature policy)
    then Ok (Candidate.non_mutating order capability operation
               (Some contract.(OperationContract.backend)) target control current (Some desired)
               PlanAction.ExplicitOptInRequired feature contract.(OperationContract.classification)
               contract.(OperationContract.risk) true
               (if bool_decide (contract.(OperationContract.classification)
                                = FeatureClass.Experimental)
                then ExperimentalStatus.OptInRequired else experimental)
               evidence "backend contract requires an explicit feature opt-in"
               (Some "supply the feature-specific opt-in") target_identity)
    else if negb (OperationContract.is_complete contract)
    then Err (SysboostError.new ErrorCode.PlanningError
                "a proposed mutation has an incomplete snapshot/restore/verification contract"
              |> SysboostError.with_stage Stage.Plan
              |> SysboostError.with_capability capability
              |> SysboostError.with_backend contract.(OperationContract.backend))
    else if contract_disagrees contract descriptor spec
    then Err (SysboostError.new ErrorCode.InvariantViolation
                "capability evidence and backend operation contract disagree"
              |> SysboostError.with_stage Stage.Plan
              |> SysboostError.with_capability capability
              |> SysboostError.with_backend contract.(OperationContract.backend))
    else
    let late := λ current desired action rationale reason,
      Ok (Candidate.non_mutating order capability operation
            (Some contract.(OperationContract.backend)) target control current (Some desired)
            action feature contract.(OperationContract.classification)
            contract.(OperationContract.risk)
            (explicit_required || contract.(OperationContract.explicit_opt_in)) experimental
            evidence rationale (Some reason) target_identity) in
    if RiskClass.gtb contract.(OperationContract.risk) policy.(PlannerPolicy.max_risk)
    then late current desired PlanAction.DeniedByPolicy
           "effective policy risk ceiling denies this operation" "raise the trusted risk ceiling"
    else
    match fact with
    | None => late current desired PlanAction.Indeterminate
                "current state is required but was not supplied by discovery"
                "re-detect current state before planning a mutation"
    | Some fact =>
    match fact.(CurrentStateFact.value) with
    | CurrentValue.Known (PlanValue.Typed current_typed) =>
      let current_typed := Some (PlanValue.Typed current_typed) in
      match desired with
      | PlanValue.Text _ =>
          late current_typed desired PlanAction.Unsupported
            "the requested target is not represented by a closed typed operation"
            "use an approved typed operation instead of a raw interface value"
      | PlanValue.Typed desired_typed =>
      match target with
      | None => late current_typed desired PlanAction.Indeterminate
                  "mutation target identity is ambiguous"
                  "bind the operation to an enumerated target"
      | Some target =>
      match target_identity with
      | None => late current_typed desired PlanAction.Indeterminate
                  "target identity evidence is incomplete"
                  "re-detect the target identity before mutation admission"
      | Some identity =>
      match fact.(CurrentStateFact.fingerprint) with
      | None => late current_typed desired PlanAction.Indeterminate
                  "current-state fingerprint is missing"
                  "capture a backend-owned precondition before planning"
      | Some precondition =>
      match match proposal with
            | Some p => Some p.(PolicyProposal.request).(PolicyRequest.operation)
            | None => default_kind control fact desired_typed
            end with
      | None => late current_typed desired PlanAction.Indeterminate
                  "typed target information is missing for the closed operation"
                  "pass a typed target reference from discovery"
      | Some kind =>
        if negb (bool_decide (typed_value kind = desired_typed))
        then planning_error "resolved desired value does not match the closed operation"
        else
        let draft := MutationDraft.mk capability target kind desired_typed precondition
                       contract.(OperationContract.equality) identity
                       contract.(OperationContract.dependencies) in
        Ok (Candidate.of_mutation order capability operation contract target control current_typed
              (Some desired) feature evidence draft)
      end end end end end
    | _ => late current desired PlanAction.Indeterminate
             "current state is not a typed value admitted by the operation"
             "retain the feature as report-only until parsing is complete"
    end end
  end.

Definition resolve_spec_inner (policy : PlannerPolicy.t) (descriptors : DescriptorIndex.t)
    (spec : FeatureSpec.t) (order : u16) (target : option TargetId.t)
    (fact : option CurrentStateFact.t) (proposal : option PolicyProposal.t) :
    Result Candidate.t :=
  let capability := spec.(FeatureSpec.capability) in
  let descriptor := DescriptorIndex.select capability descriptors in
  let feature := spec.(FeatureSpec.feature) in
  let current := f ← fact; CurrentStateFact.known_value f in
  let target_identity := f ← fact; f.(CurrentStateFact.target_identity) in
  let evidence := canonicalize_evidence
    (default [] (CapabilityDescriptor.evidence <$> descriptor)
     ++ default [] (CurrentStateFact.evidence <$> fact)) in
  let class := default spec.(FeatureSpec.classification)
                 (CapabilityDescriptor.classification <$> descriptor) in
  let risk := default spec.(FeatureSpec.risk) (CapabilityDescriptor.risk <$> descriptor) in
  let explicit_required := spec.(FeatureSpec.explicit_opt_in) in
  let experimental := experimental_status policy spec class in
  let give := λ desired action rationale reason,
    Ok (Candidate.non_mutating order capability spec.(FeatureSpec.operation)
          (CapabilityDescriptor.backend <$> descriptor) target spec.(FeatureSpec.control) current
          desired action feature class risk explicit_required experimental evidence rationale
          (Some reason) target_identity) in
  match PlannerPolicy.is_preserved feature target policy with
  | Some reason =>
      give None PlanAction.Preserved "policy preserve override takes precedence over profile intent"
        reason
  | None =>
  let '(desired, desired_unavailable_reason) :=
    match proposal with
    | Some p =>
        (Some (PlanValue.Typed (typed_value p.(PolicyProposal.request).(PolicyRequest.operation))),
         None)
    | None => profile_desired policy.(PlannerPolicy.profile) spec fact
    end in
  match descriptor_action descriptor current desired with
  | Some (action, reason) => give desired action reason reason
  | None =>
  match desired_unavailable_reason with
  | Some reason => give desired PlanAction.Unsupported reason reason
  | None =>
  match desired with
  | None =>
    let '(action, reason) :=
      if bool_decide (experimental = ExperimentalStatus.Disabled)
      then (PlanAction.ExperimentalDisabled,
            "experimental permission is disabled by effective policy")
      else if spec.(FeatureSpec.extreme_candidate)
              && bool_decide (policy.(PlannerPolicy.profile) = Profile.Extreme)
              && bool_decide (experimental = ExperimentalStatus.OptInRequired)
      then (PlanAction.ExplicitOptInRequired,
            "extreme profile considers this experimental family only after explicit opt-in")
      else (PlanAction.Preserved,
            "profile has no executable target for this capability family") in
    give desired action reason reason
  | Some wanted =>
    if bool_decide (current = desired)
    then give desired PlanAction.NoOp "current value already equals the resolved profile target"
           "no mutation is required"
    else
    match descriptor with
    | Some descriptor =>
      resolve_mutation policy descriptor spec order target fact proposal wanted current
        target_identity evidence feature class risk explicit_required experimental
    | None => (* excluded by [descriptor_action] *)
        planning_error "descriptor state was checked before resolve_mutation"
    end
  end end end end.

Definition is_settled (a : PlanAction.t) : bool :=
  match a with PlanAction.Mutation | PlanAction.NoOp => true | _ => false end.

(** The request of a required proposal must be met. *)
Definition resolve_spec (policy : PlannerPolicy.t) (descriptors : DescriptorIndex.t)
    (spec : FeatureSpec.t) (order : u16) (target : option TargetId.t)
    (fact : option CurrentStateFact.t) (proposal : option PolicyProposal.t) :
    Result Candidate.t :=
  let required := match proposal with
                  | Some p => p.(PolicyProposal.request).(PolicyRequest.required)
                              || policy.(PlannerPolicy.required_default)
                  | None => false
                  end in
  candidate ← resolve_spec_inner policy descriptors spec order target fact proposal;
  if required && negb (is_settled (Candidate.action candidate))
  then
    let error := SysboostError.new ErrorCode.PlanningError
                   "required policy request could not be admitted"
                 |> SysboostError.with_stage Stage.Plan
                 |> SysboostError.with_capability candidate.(Candidate.item).(PlanItem.capability) in
    Err (match candidate.(Candidate.item).(PlanItem.target) with
         | Some target => SysboostError.with_target target error
         | None => error
         end)
  else Ok candidate.

(** The specification made up for an operation without a built-in one. *)
Definition custom_spec (request : PolicyRequest.t) : FeatureSpec.t :=
  let feature := Feature.from_capability request.(PolicyRequest.capability) in
  let experimental := Feature.is_experimental feature in
  FeatureSpec.mk feature request.(PolicyRequest.capability)
    (operation_id request.(PolicyRequest.operation))
    (fst (operation_shape request.(PolicyRequest.operation)))
    (if experimental then RiskClass.Critical else RiskClass.Medium)
    (if experimental then FeatureClass.Experimental else FeatureClass.Conditional)
    experimental false ProfileTarget.None.

Definition resolve_custom (policy : PlannerPolicy.t) (descriptors : DescriptorIndex.t)
    (proposal : PolicyProposal.t) (current_state : CurrentState.t) (order : u16) :
    Result Candidate.t :=
  let request := proposal.(PolicyProposal.request) in
  let '(control, target_kind) := operation_shape request.(PolicyRequest.operation) in
  _ ← match DescriptorIndex.select request.(PolicyRequest.capability) descriptors with
      | Some descriptor =>
        if bool_decide (descriptor.(CapabilityDescriptor.target_kind) ≠ target_kind)
        then Err (SysboostError.new ErrorCode.InvariantViolation
                    "explicit operation target kind disagrees with capability evidence"
                  |> SysboostError.with_stage Stage.Plan
                  |> SysboostError.with_capability request.(PolicyRequest.capability))
        else Ok tt
      | None => Ok tt
      end;
  let fact := List.find (λ f,
      bool_decide (f.(CurrentStateFact.capability) = request.(PolicyRequest.capability))
      && bool_decide (f.(CurrentStateFact.target) = request.(PolicyRequest.target))
      && bool_decide (f.(CurrentStateFact.control) = control))
    current_state.(CurrentState.facts) in
  resolve_spec policy descriptors (custom_spec request) order
    (Some request.(PolicyRequest.target)) fact (Some proposal).

(** ** All decisions *)

(** The [expect] that a mutation has a target cannot fail, see
    [resolve_spec_shape]. *)
Definition insert_candidate (candidates : candidate_map) (candidate : Candidate.t) :
    Result candidate_map :=
  let item := candidate.(Candidate.item) in
  match map_get candidate.(Candidate.key) candidates with
  | Some existing =>
    if bool_decide (Candidate.action existing = PlanAction.Mutation)
       && bool_decide (Candidate.action candidate = PlanAction.Mutation)
       && bool_decide (existing.(Candidate.item).(PlanItem.desired) ≠ item.(PlanItem.desired))
    then
      let error := SysboostError.new ErrorCode.PlanningError
                     "duplicate target/control proposals have incompatible desired values"
                   |> SysboostError.with_stage Stage.Plan
                   |> SysboostError.with_capability item.(PlanItem.capability) in
      Err (match item.(PlanItem.target) with
           | Some target => SysboostError.with_target target error
           | None => error
           end)
    else if bool_decide (existing.(Candidate.item) ≠ item)
    then Err (SysboostError.new ErrorCode.PlanningError
                "duplicate plan keys carry contradictory decisions"
              |> SysboostError.with_stage Stage.Plan
              |> SysboostError.with_capability item.(PlanItem.capability))
    else Ok candidates
  | None => Ok (map_insert candidate.(Candidate.key) candidate candidates)
  end.

Definition as_u16 (n : nat) : u16 := N.of_nat n mod 2 ^ 16.

(** The facts about one specification, and the targets it is decided for. *)
Definition spec_facts (state : CurrentState.t) (spec : FeatureSpec.t) : list CurrentStateFact.t :=
  filter (λ f, f.(CurrentStateFact.capability) = spec.(FeatureSpec.capability)
               ∧ f.(CurrentStateFact.control) = spec.(FeatureSpec.control))
    state.(CurrentState.facts).

Definition proposes (spec : FeatureSpec.t) (p : PolicyProposal.t) : Prop :=
  p.(PolicyProposal.request).(PolicyRequest.capability) = spec.(FeatureSpec.capability)
  ∧ operation_id p.(PolicyProposal.request).(PolicyRequest.operation) = spec.(FeatureSpec.operation).
#[export] Instance proposes_dec spec p : Decision (proposes spec p).
Proof. unfold proposes. apply _. Defined.

Definition spec_targets (proposals : proposal_map) (facts : list CurrentStateFact.t)
    (spec : FeatureSpec.t) : list (option TargetId.t) :=
  let targets :=
    ((λ f, Some f.(CurrentStateFact.target)) <$> facts)
    ++ ((λ p, Some p.(PolicyProposal.request).(PolicyRequest.target))
        <$> filter (proposes spec) (map_values proposals)) in
  dedup (sort_by cmp (if bool_decide (targets = []) then [None] else targets)).

Definition resolve_feature (input : PlannerInput.t) (proposals : proposal_map)
    (descriptors : DescriptorIndex.t) (candidates : candidate_map) '(order, spec) :
    Result candidate_map :=
  let facts := spec_facts input.(PlannerInput.current_state) spec in
  try_fold (λ candidates target,
    let fact := t ← target;
                List.find (λ f, bool_decide (f.(CurrentStateFact.target) = t)) facts in
    let proposal := proposal_for proposals spec.(FeatureSpec.capability)
                      spec.(FeatureSpec.operation) target in
    candidate ← resolve_spec input.(PlannerInput.policy) descriptors spec (as_u16 order) target
                  fact proposal;
    insert_candidate candidates candidate)
    (spec_targets proposals facts spec) candidates.

Definition resolve_proposal (input : PlannerInput.t) (descriptors : DescriptorIndex.t)
    (candidates : candidate_map) (proposal : PolicyProposal.t) : Result candidate_map :=
  if existsb (λ spec, bool_decide (proposes spec proposal)) feature_specs then Ok candidates
  else
    candidate ← resolve_custom input.(PlannerInput.policy) descriptors proposal
                  input.(PlannerInput.current_state) (as_u16 (length feature_specs));
    insert_candidate candidates candidate.

(** [PolicyResolver::resolve] up to the ordering of its mutations. *)
Definition resolve_candidates (input : PlannerInput.t) : Result candidate_map :=
  _ ← validate_policy input.(PlannerInput.policy);
  _ ← OperationCatalog.validate catalog;
  proposals ← select_proposals input.(PlannerInput.policy).(PlannerPolicy.proposals);
  let descriptors := DescriptorIndex.new input.(PlannerInput.inventory) in
  candidates ← try_fold (resolve_feature input proposals descriptors) (enumerate feature_specs) [];
  try_fold (resolve_proposal input descriptors) (map_values proposals) candidates.
End Resolve.
