(* ===== verification/Kahn.v ===== *)
(** * Deterministic topological order ([sysboost-core/src/planner.rs], [finalize_candidates])

    Kahn's algorithm as the planner runs it: ordered maps of dependencies and
    open degrees, an ordered set of ready nodes from which the least is
    popped. Proved: it never runs out of fuel, its order puts every node
    after all it requires, and it leaves a node out exactly when the graph
    has a cycle. *)
From stdpp Require Import relations.
From S2P Require Import Prelude Lists.
Unset Default Proof Using.

Section Kahn.
Context {K : Type} `{!Ord K, !OrdLaws K} (key : nat → K).

Abbreviation graph := (list (nat * list nat)).
Abbreviation degree_map := (list (nat * nat)).
Abbreviation ready_set := (list (K * nat)).

Definition required (deps : graph) (i : nat) : list nat := default [] (map_get i deps).

(** [dependencies.entry(index).or_default().push(x)]. *)
Definition add_requirement (index x : nat) (deps : graph) : graph :=
  map_insert index (required deps index ++ [x]) deps.

(** The degree of every mutation: how many others it waits for. *)
Definition start_degrees (deps : graph) (nodes : list nat) : degree_map :=
  foldl (λ m i, map_insert i (length (required deps i)) m) [] nodes.

Definition start_ready (degrees : degree_map) : ready_set :=
  foldl (λ ready '(index, degree),
    if Nat.eqb degree 0 then set_insert (key index, index) ready else ready) [] degrees.

(** One entry of [dependencies] when [index] has been ordered. *)
Definition release (index : nat) (st : degree_map * ready_set) (entry : nat * list nat) :
    degree_map * ready_set :=
  let '(degrees, ready) := st in
  let '(dependent, required) := entry in
  if bool_decide (index ∈ required) then
    let degree := Nat.pred (default 0 (map_get dependent degrees)) in
    (map_insert dependent degree degrees,
     if Nat.eqb degree 0 then set_insert (key dependent, dependent) ready else ready)
  else st.

(** [None]: out of fuel; one unit per node is enough, see [kahn_run]. *)
Fixpoint kahn (fuel : nat) (deps : graph) (degrees : degree_map) (ready : ready_set)
    (ordered : list nat) : option (list nat) :=
  match ready with
  | [] => Some ordered
  | (_, index) :: ready' =>
    match fuel with
    | O => None
    | S fuel' =>
      let '(degrees', ready'') := foldl (release index) (degrees, ready') deps in
      kahn fuel' deps degrees' ready'' (ordered ++ [index])
    end
  end.

Definition order (deps : graph) (nodes : list nat) : option (list nat) :=
  let degrees := start_degrees deps nodes in
  kahn (length nodes) deps degrees (start_ready degrees) [].

(** ** Releasing dependents *)

Lemma set_insert_perm {A} `{!Ord A, !OrdLaws A} (x : A) l : x ∉ l → set_insert x l ≡ₚ x :: l.
Proof.
  induction l as [|y l IH]; cbn; intros Hx; [done|].
  destruct (cmp x y) eqn:E; [apply cmp_eq in E as ->; set_solver|done|].
  rewrite IH by set_solver. apply Permutation_swap.
Qed.

Definition touches (index : nat) (l : graph) (i : nat) : Prop :=
  ∃ req, (i, req) ∈ l ∧ index ∈ req.

Lemma release_all index l degrees ready :
  NoDup (fst <$> l) →
  let '(degrees', ready') := foldl (release index) (degrees, ready) l in
  (∀ i, (touches index l i → map_get i degrees' = Some (Nat.pred (default 0 (map_get i degrees))))
        ∧ (¬ touches index l i → map_get i degrees' = map_get i degrees))
  ∧ (∀ x, x ∈ ready' ↔ x ∈ ready ∨ ∃ i, x = (key i, i) ∧ touches index l i
                       ∧ Nat.pred (default 0 (map_get i degrees)) = 0)
  ∧ (NoDup ready → (∀ i, touches index l i → (key i, i) ∉ ready) → NoDup ready').
Proof.
  revert degrees ready. induction l as [|[d req] l IH]; intros degrees ready Hn; cbn [foldl].
  { unfold touches. split_and!; [set_solver| |done]. split; [auto|]. intros [?|(? & _ & H & _)]; [done|set_solver]. }
  apply NoDup_cons in Hn as [Hd Hn]. cbn [fst] in Hd.
  assert (∀ i, touches index ((d, req) :: l) i ↔ i = d ∧ index ∈ req ∨ touches index l i) as Ht.
  { intros i. unfold touches. set_solver. }
  assert (¬ touches index l d) as Hnd.
  { intros (r & Hr & _). apply Hd. apply list_elem_of_fmap. by exists (d, r). }
  cbn [release]. case_bool_decide as Hin.
  - set (deg := Nat.pred (default 0 (map_get d degrees))).
    set (ready1 := if Nat.eqb deg 0 then _ else ready).
    specialize (IH (map_insert d deg degrees) ready1 Hn).
    destruct (foldl _ _ l) as [degrees' ready']. destruct IH as (Ha & Hb & Hc).
    assert (∀ i, touches index l i → map_get i (map_insert d deg degrees) = map_get i degrees) as Hget.
    { intros i Hi. apply map_get_insert_ne. by intros ->. }
    assert (∀ x, x ∈ ready1 ↔ x ∈ ready ∨ deg = 0 ∧ x = (key d, d)) as Hr1.
    { intros x. subst ready1. destruct (Nat.eqb_spec deg 0) as [E|E]; [|naive_solver].
      rewrite elem_of_set_insert. naive_solver. }
    split_and!.
    + intros i. rewrite Ht. split.
      * intros [[-> _]|Hi].
        -- rewrite (proj2 (Ha d)) by done. apply map_get_insert_eq.
        -- rewrite (proj1 (Ha i)) by done. by rewrite Hget.
      * intros Hi. rewrite (proj2 (Ha i)) by naive_solver. apply map_get_insert_ne. naive_solver.
    + intros x. rewrite Hb, Hr1. split.
      * intros [[?|[E ->]]|(i & -> & Hi & E)]; [by left|..]; right.
        -- exists d. rewrite Ht. auto.
        -- exists i. rewrite Ht. rewrite Hget in E by done. auto.
      * intros [?|(i & -> & [[-> _]|Hi]%Ht & E)]; [auto|auto|].
        right. exists i. rewrite Hget by done. auto.
    + intros Hnr Hfresh. apply Hc.
      * subst ready1. destruct (Nat.eqb deg 0); [|done].
        rewrite set_insert_perm by (apply Hfresh, Ht; auto).
        constructor; [apply Hfresh, Ht; auto|done].
      * intros i Hi. rewrite Hr1. intros [Hr|[_ [= _ ->]]]; [|done].
        by apply (Hfresh i (proj2 (Ht i) (or_intror Hi))).
  - specialize (IH degrees ready Hn). destruct (foldl _ _ l) as [degrees' ready'].
    destruct IH as (Ha & Hb & Hc). assert (∀ i, touches index ((d, req) :: l) i ↔ touches index l i) as Ht'.
    { intros i. rewrite Ht. naive_solver. }
    setoid_rewrite Ht'. auto.
Qed.

(** ** The start *)

Lemma start_degrees_get (deps : graph) (l : list nat) m i :
  map_get i (foldl (λ m i, map_insert i (length (required deps i)) m) m l)
  = if decide (i ∈ l) then Some (length (required deps i)) else map_get i m.
Proof.
  revert m. induction l as [|j l IH]; intros m; cbn [foldl].
  { destruct (decide (i ∈ [])) as [[]%elem_of_nil|]; done. }
  rewrite IH. pose proof (elem_of_cons l i j) as Hc.
  destruct (decide (i ∈ l)), (decide (i ∈ j :: l)); [done|tauto|..].
  - assert (i = j) as -> by tauto. apply map_get_insert_eq.
  - apply map_get_insert_ne. tauto.
Qed.

Lemma start_degrees_sorted deps nodes : map_sorted (start_degrees deps nodes).
Proof.
  unfold start_degrees. assert (map_sorted ([] : degree_map)) as Hm by constructor.
  revert Hm. generalize ([] : degree_map).
  induction nodes as [|i l IH]; intros m Hm; cbn; [done|].
  by apply IH, map_insert_sorted.
Qed.

(** ** The invariant of the loop *)

Context (deps : graph) (nodes : list nat).
Context (Hsorted : map_sorted deps) (Hnodes : NoDup nodes).
Context (Hdeps : ∀ i, i ∈ nodes → NoDup (required deps i) ∧ required deps i ⊆ nodes).
Context (Hkeys : ∀ i req, (i, req) ∈ deps → i ∈ nodes).

Definition open (ordered : list nat) (i : nat) : list nat :=
  filter (λ j, j ∉ ordered) (required deps i).

(** Every node comes after all it requires. *)
Definition well_ordered (ordered : list nat) : Prop :=
  NoDup ordered ∧ ordered ⊆ nodes
  ∧ ∀ p i, ordered !! p = Some i →
      ∀ j, j ∈ required deps i → ∃ q, q < p ∧ ordered !! q = Some j.

Record Inv (degrees : degree_map) (ready : ready_set) (ordered : list nat) : Prop := {
  inv_order : well_ordered ordered;
  inv_degree i : i ∈ nodes → map_get i degrees = Some (length (open ordered i));
  inv_ready x : x ∈ ready ↔ ∃ i, x = (key i, i) ∧ i ∈ nodes ∧ i ∉ ordered ∧ open ordered i = [];
  inv_nodup : NoDup ready
}.

Lemma touches_required index i : touches index deps i ↔ i ∈ nodes ∧ index ∈ required deps i.
Proof.
  unfold touches, required. split.
  - intros (req & Hr & Hi). split; [eauto|].
    apply map_get_elem in Hr as ->; done.
  - intros [_ Hi]. destruct (map_get i deps) as [req|] eqn:E; [|set_solver].
    exists req. apply map_get_elem in E; done.
Qed.

Lemma open_nil ordered i : open ordered i = [] ↔ required deps i ⊆ ordered.
Proof.
  unfold open. split.
  - intros Ho j Hj. destruct (decide (j ∈ ordered)) as [|Hn]; [done|].
    assert (j ∈ filter (λ j, j ∉ ordered) (required deps i)) as Hf by (by apply list_elem_of_filter).
    rewrite Ho in Hf. set_solver.
  - intros Hs. apply elem_of_nil_inv. intros j [Hn Hj]%list_elem_of_filter. by apply Hn, Hs.
Qed.

Lemma filter_snoc_out ordered index (l : list nat) :
  NoDup l → index ∉ ordered →
  length (filter (λ j, j ∉ ordered ++ [index]) l)
  = if decide (index ∈ l) then Nat.pred (length (filter (λ j, j ∉ ordered) l))
    else length (filter (λ j, j ∉ ordered) l).
Proof.
  intros Hnd Hn. induction Hnd as [|j l Hj Hl IH]; [done|]. rewrite !filter_cons.
  destruct (decide (j = index)) as [->|Hji].
  - destruct (decide (index ∉ ordered ++ [index])) as [Hx|_]; [clear IH; set_solver|].
    destruct (decide (index ∉ ordered)); [|done]. rewrite IH, decide_False by done.
    by rewrite decide_True by (by apply elem_of_cons; left).
  - assert (index ∈ j :: l ↔ index ∈ l) as Hiff by (clear IH; set_solver).
    assert (j ∉ ordered ++ [index] ↔ j ∉ ordered) as Hiff' by (clear IH; set_solver).
    rewrite (decide_ext _ _ _ _ Hiff), (decide_ext _ _ _ _ Hiff').
    destruct (decide (j ∉ ordered)); [|exact IH]. cbn [length]. rewrite IH.
    destruct (decide (index ∈ l)) as [Hil|]; [|done].
    assert (index ∈ filter (λ x, x ∉ ordered) l) as Hf by (by apply list_elem_of_filter).
    apply list_elem_of_split in Hf as (l1 & l2 & ->). rewrite length_app. cbn. lia.
Qed.

Lemma open_snoc ordered index i :
  i ∈ nodes → index ∉ ordered →
  length (open (ordered ++ [index]) i)
  = if decide (index ∈ required deps i) then Nat.pred (length (open ordered i))
    else length (open ordered i).
Proof. intros Hi Hn. apply filter_snoc_out; [apply Hdeps, Hi|done]. Qed.

Lemma inv_step degrees k index ready ordered :
  Inv degrees ((k, index) :: ready) ordered →
  let '(degrees', ready') := foldl (release index) (degrees, ready) deps in
  Inv degrees' ready' (ordered ++ [index]).
Proof.
  intros [Ho Hd Hr Hn]. apply NoDup_cons in Hn as [Hnr Hn].
  destruct (proj1 (Hr (k, index)) ltac:(set_solver)) as (? & [= -> <-] & Hi & Hout & Hopen).
  pose proof (release_all index deps degrees ready (map_sorted_keys _ Hsorted)) as Hrel.
  destruct (foldl _ _ deps) as [degrees' ready']. destruct Hrel as (Ha & Hb & Hc).
  destruct Ho as (Hnd & Hsub & Htop).
  assert (∀ i, touches index deps i → (key i, i) ∉ ready) as Hfresh.
  { intros i [Hin Hreq]%touches_required Hir.
    destruct (proj1 (Hr (key i, i)) ltac:(set_solver)) as (? & [= _ <-] & _ & _ & Hoi).
    apply open_nil in Hoi. by apply Hout, Hoi. }
  split.
  - split_and!.
    + apply NoDup_app. split_and!; [done|set_solver|apply NoDup_singleton].
    + set_solver.
    + intros p i [Hp|[Hlen Hp]]%lookup_app_Some j Hj.
      * destruct (Htop p i Hp j Hj) as (q & Hq & Hqj). exists q. split; [done|].
        by apply lookup_app_l_Some.
      * apply list_lookup_singleton_Some in Hp as [Hz <-].
        apply open_nil in Hopen. apply Hopen, list_elem_of_lookup in Hj as (q & Hqj).
        exists q. split; [apply lookup_lt_Some in Hqj; lia|by apply lookup_app_l_Some].
  - intros i Hin. rewrite open_snoc by done. destruct (Ha i) as [Hyes Hno]. case_decide as Hreq.
    + rewrite Hyes by (by apply touches_required). by rewrite Hd.
    + rewrite Hno by (rewrite touches_required; naive_solver). by apply Hd.
  - intros x. rewrite Hb. split.
    + intros [Hx|(i & -> & [Hin Hreq]%touches_required & Hz)].
      * destruct (proj1 (Hr x) ltac:(set_solver)) as (i & -> & Hin & Hio & Hoi).
        exists i. split_and!; [done|done| |].
        -- intros [?|Heq]%elem_of_app; [done|]. assert (i = index) as -> by set_solver. done.
        -- apply open_nil. apply open_nil in Hoi. set_solver.
      * exists i. split_and!; [done|done| |].
        -- intros [Hio|Heq]%elem_of_app.
           ++ apply list_elem_of_lookup in Hio as (p & Hp). destruct (Htop p i Hp _ Hreq) as (q & _ & Hq).
              apply Hout. by eapply list_elem_of_lookup_2.
           ++ assert (i = index) as -> by set_solver. apply open_nil in Hopen. set_solver.
        -- rewrite Hd in Hz by done. cbn in Hz. apply length_zero_iff_nil.
           by rewrite open_snoc, decide_True by done.
    + intros (i & -> & Hin & Hio & Hoi). destruct (decide (index ∈ required deps i)) as [Hreq|Hreq].
      * right. exists i. rewrite touches_required, Hd by done. split_and!; [done..|].
        cbn. apply (f_equal length) in Hoi. by rewrite open_snoc, decide_True in Hoi by set_solver.
      * left. assert ((key i, i) ∈ (key index, index) :: ready) as Hin'.
        { apply Hr. exists i. split_and!; [done|done|set_solver|]. apply (f_equal length) in Hoi.
          rewrite open_snoc, decide_False in Hoi by set_solver. by apply length_zero_iff_nil. }
        apply elem_of_cons in Hin' as [[= _ ->]|]; [set_solver|done].
  - by apply Hc.
Qed.

(** ** Termination and order *)

Lemma kahn_inv fuel degrees ready ordered :
  Inv degrees ready ordered → length nodes <= fuel + length ordered →
  ∃ l degrees', kahn fuel deps degrees ready ordered = Some l ∧ Inv degrees' [] l.
Proof.
  revert degrees ready ordered. induction fuel as [|fuel IH]; intros degrees ready ordered HI Hf.
  - destruct ready as [|[k index] ready]; [cbn; eauto|]. exfalso.
    destruct (inv_ready _ _ _ HI (k, index)) as [Hx _].
    destruct (Hx ltac:(set_solver)) as (? & [= _ <-] & Hi & Hout & _).
    destruct (inv_order _ _ _ HI) as (Hnd & Hsub & _).
    assert (index :: ordered ⊆+ nodes) as Hs.
    { apply NoDup_submseteq; [by constructor|]. intros y [->|?]%elem_of_cons; auto. }
    apply submseteq_length in Hs. cbn in Hs. lia.
  - destruct ready as [|[k index] ready]; [cbn; eauto|].
    pose proof (inv_step _ _ _ _ _ HI) as HI'. cbn [kahn].
    destruct (foldl _ _ deps) as [degrees' ready']. apply (IH _ _ _ HI').
    rewrite length_app. cbn. lia.
Qed.

Lemma start_ready_spec degrees :
  map_sorted degrees →
  (∀ x, x ∈ start_ready degrees ↔ ∃ i, x = (key i, i) ∧ map_get i degrees = Some 0)
  ∧ NoDup (start_ready degrees).
Proof.
  intros Hs. unfold start_ready. enough (∀ ready,
    NoDup ready → (∀ i d, (i, d) ∈ degrees → (key i, i) ∉ ready) →
    let out := foldl (λ ready '(index, degree),
      if Nat.eqb degree 0 then set_insert (key index, index) ready else ready) ready degrees in
    (∀ x, x ∈ out ↔ x ∈ ready ∨ ∃ i, x = (key i, i) ∧ (i, 0) ∈ degrees) ∧ NoDup out) as Hgen.
  { destruct (Hgen [] ltac:(constructor) ltac:(intros; apply not_elem_of_nil)) as [H1' H2'].
    split; [|done]. intros x. rewrite H1', elem_of_nil. setoid_rewrite (map_get_elem _ _ _ Hs).
    tauto. }
  apply map_sorted_keys in Hs. clear -Hs OrdLaws0. induction degrees as [|[j d] l IH]; intros ready Hn Hf; cbn.
  { split; [|done]. intros x. split; [by left|]. intros [|(? & _ & []%elem_of_nil)]; done. }
  apply NoDup_cons in Hs as [Hj Hs]. cbn in Hj.
  destruct (Nat.eqb_spec d 0) as [->|Hd].
  - assert ((key j, j) ∉ ready) as Hr by (apply (Hf j 0), elem_of_cons; by left).
    destruct (IH Hs (set_insert (key j, j) ready)) as [H1' H2'].
    + rewrite set_insert_perm by done. by constructor.
    + intros i d Hi. rewrite elem_of_set_insert. intros [[= _ ->]|Hin].
      * apply Hj, list_elem_of_fmap. by exists (j, d).
      * apply (Hf i d); [apply elem_of_cons; by right|done].
    + split; [|done]. intros x. rewrite H1', elem_of_set_insert. setoid_rewrite elem_of_cons.
      split; [intros [[->|?]|(i & -> & ?)]|intros [?|(i & -> & [[= ->]|?])]]; eauto 7.
  - destruct (IH Hs ready Hn) as [H1' H2'].
    + intros i d' Hi. apply (Hf i d'), elem_of_cons. by right.
    + split; [|done]. intros x. rewrite H1'. setoid_rewrite elem_of_cons.
      split; [intros [?|(i & -> & ?)]|intros [?|(i & -> & [[= _ ?]|?])]]; eauto 7. done.
Qed.

Lemma inv_start : Inv (start_degrees deps nodes) (start_ready (start_degrees deps nodes)) [].
Proof.
  assert (∀ i, open [] i = required deps i) as Ho.
  { intros i. unfold open. induction (required deps i) as [|j l IH]; [done|].
    rewrite filter_cons_True, IH; [done|]. apply not_elem_of_nil. }
  assert (∀ i, map_get i (start_degrees deps nodes)
    = if decide (i ∈ nodes) then Some (length (required deps i)) else None) as Hd.
  { intros i. unfold start_degrees. by rewrite start_degrees_get. }
  destruct (start_ready_spec _ (start_degrees_sorted deps nodes)) as [Hr Hn].
  split; [|..|done].
  - split_and!; [constructor|apply list_subseteq_nil|intros p i Hp; by rewrite lookup_nil in Hp].
  - intros i Hi. by rewrite Hd, decide_True, Ho.
  - intros x. rewrite Hr. setoid_rewrite Hd. setoid_rewrite Ho. split.
    + intros (i & -> & Hi). case_decide; [|done]. injection Hi as Hi.
      exists i. split_and!; [done|done|apply not_elem_of_nil|]. by apply length_zero_iff_nil.
    + intros (i & -> & Hi & _ & Hl). exists i. split; [done|]. rewrite decide_True by done.
      by rewrite Hl.
Qed.

(** [i] waits for [j]. *)
Definition waits (i j : nat) : Prop := i ∈ nodes ∧ j ∈ required deps i.

(** The algorithm ends with a well-ordered list that holds every node whose
    requirements it holds. *)
Lemma kahn_run :
  ∃ l, order deps nodes = Some l ∧ well_ordered l
       ∧ ∀ i, i ∈ nodes → required deps i ⊆ l → i ∈ l.
Proof.
  destruct (kahn_inv (length nodes) _ _ _ inv_start) as (l & degrees & Hl & HI); [cbn; lia|].
  exists l. split_and!; [done|apply HI|]. intros i Hi Hr.
  destruct (decide (i ∈ l)) as [|Hout]; [done|]. exfalso.
  apply (not_elem_of_nil (key i, i)). apply (inv_ready _ _ _ HI). exists i.
  split_and!; [done..|]. by apply open_nil.
Qed.

Lemma well_ordered_waits l i j p q :
  well_ordered l → l !! p = Some i → l !! q = Some j → tc waits i j → q < p.
Proof.
  intros (Hn & _ & Ht) Hp Hq Hw. revert p Hp. induction Hw as [i j [_ Hij]|i k j [_ Hik] _ IH];
    intros p Hp.
  - destruct (Ht p i Hp j Hij) as (q' & Hlt & Hq').
    by rewrite (NoDup_lookup _ _ _ _ Hn Hq Hq').
  - destruct (Ht p i Hp k Hik) as (k' & Hlt & Hk'). specialize (IH Hq k' Hk'). lia.
Qed.

(** Everything is ordered exactly when nothing waits for itself. *)
Lemma kahn_complete l :
  order deps nodes = Some l → length l = length nodes ↔ ∀ i, ¬ tc waits i i.
Proof.
  intros Hl. destruct kahn_run as (? & Hl' & Hw & Hclosed).
  rewrite Hl in Hl'. injection Hl' as <-. destruct Hw as (Hn & Hs & Ht). split.
  - intros Hlen i Hi.
    assert (i ∈ nodes) as Hin by (by inversion Hi as [? ? []|? ? ? []]).
    assert (l ≡ₚ nodes) as Hp.
    { apply submseteq_length_Permutation; [by apply NoDup_submseteq|lia]. }
    rewrite <-Hp in Hin. apply list_elem_of_lookup in Hin as (p & Hp').
    assert (p < p); [|lia]. by eapply well_ordered_waits.
  - intros Hac. enough (nodes ⊆ l) as Hsub.
    { apply Permutation_length, NoDup_Permutation; [done..|]. intros i. split; auto. }
    assert (∀ i, sn waits i) as Hsn.
    { intros i. apply tc_finite_sn; [intros j; apply Hac|].
      exists nodes. intros j Hj. induction Hj as [x y [Hx Hy]|]; [|done]. by apply (Hdeps x Hx). }
    intros i. induction (Hsn i) as [i _ IH]. intros Hi. apply Hclosed; [done|].
    intros j Hj. apply IH; [done|]. by apply (Hdeps i Hi).
Qed.
End Kahn.
