(* ===== verification/Finalize.v ===== *)
(** * Ordering the mutations ([sysboost-core/src/planner.rs], [finalize_candidates])

    Dependencies between candidates, their topological order, the numbering
    of the planned mutations, and the whole of [PolicyResolver::resolve]. *)
From S2P Require Import Prelude Lists Text Ids Capability Mutation Decision Plan Policy Specs Resolver Kahn.
Local Open Scope N_scope.

Abbreviation graph := (list (nat * list nat)).
Abbreviation id_map := (list (nat * MutationId.t)).

(** [candidates[i].key]; every index used comes from [enumerate]. *)
Definition key_at (cs : list Candidate.t) (i : nat) : option CandidateKey.t :=
  Candidate.key <$> cs !! i.

Definition mutation_indices (cs : list Candidate.t) : list nat :=
  sort_by (cmp_by (key_at cs))
    (omap (λ '(index, c), (λ _, index) <$> c.(Candidate.mutation)) (enumerate cs)).

(** The first candidate for an operation on a target. *)
Definition find_dependency (cs : list Candidate.t) (target : TargetId.t)
    (dependency : OperationId.t) : option (nat * Candidate.t) :=
  List.find (λ '(_, c), bool_decide (c.(Candidate.item).(PlanItem.target) = Some target)
                        && bool_decide (c.(Candidate.item).(PlanItem.operation) = dependency))
    (enumerate cs).

(** The dependency needs no mutation of its own. *)
Definition is_satisfied (a : PlanAction.t) : bool :=
  match a with PlanAction.NoOp | PlanAction.Preserved => true | _ => false end.

Definition dependency_step (cs : list Candidate.t) (index : nat) (candidate : Candidate.t)
    (target : TargetId.t) (dependencies : graph) (dependency : OperationId.t) : Result graph :=
  let bad := λ message,
    Err (SysboostError.new ErrorCode.PlanningError message
         |> SysboostError.with_stage Stage.Plan
         |> SysboostError.with_capability candidate.(Candidate.item).(PlanItem.capability)
         |> SysboostError.with_target target) in
  match find_dependency cs target dependency with
  | None => bad "planned operation depends on a missing executable operation"
  | Some (matching_index, matching) =>
    if negb (PlanAction.is_executable (Candidate.action matching)) then
      if is_satisfied (Candidate.action matching) then Ok dependencies
      else bad "planned operation depends on an operation that was not admitted"
    else if Nat.eqb matching_index index
    then planning_error "planned operation depends on itself"
    else Ok (add_requirement index matching_index dependencies)
  end.

Definition candidate_step (cs : list Candidate.t) (dependencies : graph) (index : nat) :
    Result graph :=
  match cs !! index with
  | Some candidate =>
    match candidate.(Candidate.item).(PlanItem.target) with
    | Some target => try_fold (dependency_step cs index candidate target)
                       candidate.(Candidate.dependencies) dependencies
    | None => Ok dependencies
    end
  | None => Ok dependencies
  end.

Definition collect_dependencies (cs : list Candidate.t) : Result graph :=
  try_fold (candidate_step cs) (mutation_indices cs) [].

(** Mutation IDs count from one in execution order. *)
Definition as_u32 (n : nat) : u32 := N.of_nat n mod 2 ^ 32.

Definition assign_ids (ordered : list nat) : id_map :=
  foldl (λ m '(position, index), map_insert index (MutationId.mk (as_u32 (S position))) m) []
    (enumerate ordered).

(** [mutation_ids[&index]]: every ordered index has an ID, see
    [assign_ids_get]. *)
Definition id_of (ids : id_map) (index : nat) : MutationId.t :=
  default (MutationId.mk 0) (map_get index ids).

Definition complete_item (i : PlanItem.t) (dependencies : list MutationId.t)
    (mutation : PlannedMutation.t) (identity : TargetIdentity.t) : PlanItem.t :=
  PlanItem.mk i.(PlanItem.capability) i.(PlanItem.operation) i.(PlanItem.backend)
    i.(PlanItem.target) i.(PlanItem.control) i.(PlanItem.current) i.(PlanItem.desired)
    i.(PlanItem.action) i.(PlanItem.feature) i.(PlanItem.feature_class) i.(PlanItem.risk)
    i.(PlanItem.explicit_opt_in_required) i.(PlanItem.experimental) i.(PlanItem.evidence)
    i.(PlanItem.rationale) i.(PlanItem.reason) (Some identity) i.(PlanItem.snapshot)
    i.(PlanItem.restore) i.(PlanItem.verification) dependencies (Some mutation).

(** The draft of an ordered candidate becomes its planned mutation; that
    there is one is [mutation_indices_spec]. *)
Definition complete_step (ids : id_map) (dependencies : graph) (cs : list Candidate.t)
    (index : nat) : Result (list Candidate.t) :=
  match cs !! index with
  | Some candidate =>
    match candidate.(Candidate.mutation) with
    | Some draft =>
      let dependency_ids := id_of ids <$> required dependencies index in
      mutation ← PlannedMutation.new (id_of ids index) draft.(MutationDraft.capability)
                   draft.(MutationDraft.target) draft.(MutationDraft.kind)
                   draft.(MutationDraft.desired) draft.(MutationDraft.precondition)
                   draft.(MutationDraft.equality) dependency_ids;
      Ok (<[index := Candidate.mk candidate.(Candidate.key)
             (complete_item candidate.(Candidate.item) dependency_ids mutation
                draft.(MutationDraft.target_identity))
             None candidate.(Candidate.dependencies)]> cs)
    | None => planning_error "mutation index was selected from mutation candidates"
    end
  | None => planning_error "mutation index was selected from mutation candidates"
  end.

(** The place of an action, by which the enum is ordered. *)
Definition action_tag (a : PlanAction.t) : N :=
  match a with
  | PlanAction.Mutation => 0 | PlanAction.NoOp => 1 | PlanAction.Unsupported => 2
  | PlanAction.Preserved => 3 | PlanAction.ExplicitOptInRequired => 4
  | PlanAction.ExperimentalDisabled => 5 | PlanAction.DeniedByPolicy => 6
  | PlanAction.CapabilityDenied => 7 | PlanAction.Indeterminate => 8
  end.

Definition final_order (left right : Candidate.t) : comparison :=
  then_with (cmp left.(Candidate.key) right.(Candidate.key))
    (cmp (action_tag (Candidate.action left)) (action_tag (Candidate.action right))).

Definition cycle_error : SysboostError.t :=
  SysboostError.new ErrorCode.PlanningError "planned operation dependencies contain a cycle"
  |> SysboostError.with_stage Stage.Plan.

(** The fuel of [order] is always enough, see [finalize_never_stuck]. *)
Definition finalize_candidates (policy : PlannerPolicy.t)
    (candidates : list (CandidateKey.t * Candidate.t)) : Result PolicyResolution.t :=
  let cs := map_values candidates in
  let indices := mutation_indices cs in
  dependencies ← collect_dependencies cs;
  ordered ← ok_or (order (key_at cs) dependencies indices)
              (SysboostError.new ErrorCode.InvariantViolation "out of fuel");
  if negb (Nat.eqb (length ordered) (length indices)) then Err cycle_error
  else
    cs ← try_fold (complete_step (assign_ids ordered) dependencies) ordered cs;
    Ok (PolicyResolution.mk policy.(PlannerPolicy.profile)
          (Candidate.item <$> sort_by final_order cs)).

Module PolicyResolver.
Record t := mk { catalog : OperationCatalog.t }.
Definition new := mk.

Definition resolve (input : PlannerInput.t) (r : t) : Result PolicyResolution.t :=
  candidates ← resolve_candidates r.(catalog) input;
  finalize_candidates input.(PlannerInput.policy) candidates.
End PolicyResolver.
