(* ===== verification/FinalizeLaws.v ===== *)
(** * The order of the planned mutations

    What [finalize_candidates] makes of any set of well-shaped candidates:
    the dependencies it collects, the identifiers it assigns, and the
    completed decisions. *)
From stdpp Require Import relations sorting.
From S2P Require Import Prelude Lists Text Ids Capability Mutation Decision Plan Policy Specs Resolver Kahn Finalize.
Local Open Scope N_scope.
Unset Default Proof Using.

(** What every candidate of the resolver satisfies. *)
Record Shape (c : Candidate.t) : Prop := {
  shape_mutation : c.(Candidate.item).(PlanItem.mutation) = None;
  shape_executable : Candidate.action c = PlanAction.Mutation ↔ is_Some c.(Candidate.mutation);
  shape_target d : c.(Candidate.mutation) = Some d →
    c.(Candidate.item).(PlanItem.target) = Some d.(MutationDraft.target);
  shape_distinct : NoDup c.(Candidate.dependencies)
}.

(** ** Indices of mutations *)

Lemma enumerate_elem {A} (l : list A) i x : (i, x) ∈ enumerate l ↔ l !! i = Some x.
Proof.
  rewrite list_elem_of_lookup. setoid_rewrite lookup_enumerate. split.
  - intros (j & Hj). destruct (l !! j) as [y|] eqn:E; [|done]. by injection Hj as -> ->.
  - intros Hi. exists i. by rewrite Hi.
Qed.

Lemma enumerate_nodup {A} (l : list A) : NoDup (enumerate l).
Proof.
  apply NoDup_alt. intros i j p Hi Hj. rewrite lookup_enumerate in Hi, Hj.
  destruct (l !! i), (l !! j); naive_solver.
Qed.

Lemma omap_indices {A B} (f : A → option B) (l : list (nat * A)) :
  omap (λ '(i, x), (λ _, i) <$> f x) l = (filter (λ p, is_Some (f p.2)) l).*1.
Proof.
  induction l as [|[i x] l IH]; [done|]. rewrite filter_cons.
  case_decide as Hd; cbn in *; destruct (f x); cbn; rewrite ?IH; try done; by destruct Hd.
Qed.

Lemma mutation_indices_spec cs i :
  i ∈ mutation_indices cs ↔ ∃ c, cs !! i = Some c ∧ is_Some c.(Candidate.mutation).
Proof.
  unfold mutation_indices. rewrite sort_by_elem, omap_indices, list_elem_of_fmap.
  setoid_rewrite list_elem_of_filter. split.
  - intros ([j c] & -> & Hc & Hj%enumerate_elem). eauto.
  - intros (c & Hc & Hd). exists (i, c). by rewrite enumerate_elem.
Qed.

Lemma mutation_indices_nodup cs : NoDup (mutation_indices cs).
Proof.
  unfold mutation_indices. rewrite (sort_by_perm _ _), omap_indices. apply NoDup_fmap_fst.
  - intros i c c' [_ Hc%enumerate_elem]%list_elem_of_filter [_ Hc'%enumerate_elem]%list_elem_of_filter.
    congruence.
  - apply NoDup_filter, enumerate_nodup.
Qed.

(** ** Dependencies *)

Lemma find_dependency_Some cs target dep j c :
  find_dependency cs target dep = Some (j, c) →
  cs !! j = Some c ∧ c.(Candidate.item).(PlanItem.target) = Some target
  ∧ c.(Candidate.item).(PlanItem.operation) = dep.
Proof.
  unfold find_dependency. intros [Hin Hp]%find_some.
  apply list_elem_of_In, enumerate_elem in Hin. apply andb_true_iff in Hp as [?%bool_decide_eq_true ?%bool_decide_eq_true].
  done.
Qed.

(** The mutations that the operations of [l] stand for. *)
Definition edge (cs : list Candidate.t) (target : TargetId.t) (dep : OperationId.t) : option nat :=
  match find_dependency cs target dep with
  | Some (j, c) => if PlanAction.is_executable (Candidate.action c) then Some j else None
  | None => None
  end.
Definition edges (cs : list Candidate.t) (target : TargetId.t) (l : list OperationId.t) : list nat :=
  omap (edge cs target) l.

(** A dependency is decided: planned, or in no need of a mutation. *)
Definition settled (cs : list Candidate.t) (target : TargetId.t) (dep : OperationId.t) : Prop :=
  ∃ j c, find_dependency cs target dep = Some (j, c)
         ∧ (Candidate.action c = PlanAction.Mutation ∨ is_satisfied (Candidate.action c) = true).

Lemma is_executable_iff a : PlanAction.is_executable a = true ↔ a = PlanAction.Mutation.
Proof. by destruct a. Qed.

Lemma dependency_step_Ok cs index c target deps dep deps' :
  dependency_step cs index c target deps dep = Ok deps' →
  settled cs target dep ∧ edge cs target dep ≠ Some index
  ∧ deps' = match edge cs target dep with
            | Some j => add_requirement index j deps
            | None => deps
            end.
Proof.
  unfold dependency_step, settled, edge. intros Hs.
  destruct (find_dependency _ _ _) as [[j cj]|] eqn:Hf; [|done].
  destruct (PlanAction.is_executable _) eqn:He; cbn in Hs.
  - apply is_executable_iff in He. destruct (Nat.eqb_spec j index); [done|].
    injection Hs as <-. split_and!; [eauto 6|naive_solver|done].
  - destruct (is_satisfied _) eqn:Hsat; [|done]. injection Hs as <-. split_and!; [eauto 6|done|done].
Qed.

Lemma required_add_eq i x deps : required (add_requirement i x deps) i = required deps i ++ [x].
Proof. unfold required, add_requirement. by rewrite map_get_insert_eq. Qed.
Lemma required_add_ne i k x deps :
  k ≠ i → required (add_requirement i x deps) k = required deps k.
Proof. intros Hk. unfold required, add_requirement. by rewrite map_get_insert_ne. Qed.

(** The keys of a dependency map are among [P]. *)
Definition keyed (P : nat → Prop) (deps : graph) : Prop := ∀ i req, (i, req) ∈ deps → P i.

Lemma keyed_add P i x deps : P i → keyed P deps → keyed P (add_requirement i x deps).
Proof.
  intros Hi Hk j req [[= -> ->]|[[Hin _]|Hin]]%map_insert_elem; [done|by eapply Hk..].
Qed.

Lemma candidate_dependencies_Ok (P : nat → Prop) cs index c target l deps deps' :
  try_fold (dependency_step cs index c target) l deps = Ok deps' →
  P index → map_sorted deps → keyed P deps →
  map_sorted deps' ∧ keyed P deps'
  ∧ required deps' index = required deps index ++ edges cs target l
  ∧ (∀ k, k ≠ index → required deps' k = required deps k)
  ∧ Forall (λ dep, settled cs target dep ∧ edge cs target dep ≠ Some index) l.
Proof.
  revert deps. induction l as [|dep l IH]; intros deps Hf Hi Hs Hk; cbn in Hf.
  { injection Hf as <-. split_and!; try done. by rewrite app_nil_r. }
  apply bind_Ok in Hf as (deps1 & Hstep & Hf).
  apply dependency_step_Ok in Hstep as (Hset & Hne & ->).
  destruct (edge cs target dep) as [j|] eqn:He.
  - destruct (IH _ Hf Hi) as (? & ? & Hr & Ho & Hall);
      [by apply map_insert_sorted|by apply keyed_add|].
    split_and!; [done|done| | |by constructor; [rewrite He|]].
    + rewrite Hr, required_add_eq, <-app_assoc. unfold edges. cbn. by rewrite He.
    + intros k Hne'. rewrite Ho by done. by apply required_add_ne.
  - destruct (IH _ Hf Hi Hs Hk) as (? & ? & Hr & Ho & Hall).
    split_and!; [done|done| |done|by constructor; [rewrite He|]].
    rewrite Hr. unfold edges. cbn. by rewrite He.
Qed.

(** What one mutation waits for. *)
Definition edges_of (cs : list Candidate.t) (i : nat) : list nat :=
  match cs !! i with
  | Some c => match c.(Candidate.item).(PlanItem.target) with
              | Some target => edges cs target c.(Candidate.dependencies)
              | None => []
              end
  | None => []
  end.

(** All dependencies of a mutation are settled, and not by itself. *)
Definition all_settled (cs : list Candidate.t) (i : nat) : Prop :=
  ∀ c target, cs !! i = Some c → c.(Candidate.item).(PlanItem.target) = Some target →
    Forall (λ dep, settled cs target dep ∧ edge cs target dep ≠ Some i) c.(Candidate.dependencies).

Lemma candidate_step_Ok (P : nat → Prop) cs deps index deps' :
  candidate_step cs deps index = Ok deps' → P index → map_sorted deps → keyed P deps →
  map_sorted deps' ∧ keyed P deps'
  ∧ required deps' index = required deps index ++ edges_of cs index
  ∧ (∀ k, k ≠ index → required deps' k = required deps k)
  ∧ all_settled cs index.
Proof.
  unfold candidate_step, edges_of, all_settled. intros Hf Hi Hs Hk.
  destruct (cs !! index) as [c|] eqn:Hc.
  - destruct (PlanItem.target _) as [target|] eqn:Ht.
    + eapply (candidate_dependencies_Ok P) in Hf as (? & ? & ? & ? & Hall); [|done..].
      split_and!; [done..|]. intros c' t [= <-] Ht'. rewrite Ht in Ht'. by injection Ht' as <-.
    + injection Hf as <-. rewrite app_nil_r. split_and!; try done. intros c' t [= <-]. congruence.
  - injection Hf as <-. rewrite app_nil_r. by split_and!.
Qed.

Lemma collect_Ok_gen (P : nat → Prop) cs l deps deps' :
  try_fold (candidate_step cs) l deps = Ok deps' →
  NoDup l → Forall P l → map_sorted deps → keyed P deps →
  map_sorted deps' ∧ keyed P deps'
  ∧ (∀ i, required deps' i = required deps i ++ if decide (i ∈ l) then edges_of cs i else [])
  ∧ Forall (all_settled cs) l.
Proof.
  revert deps. induction l as [|x l IH]; intros deps Hf Hn HP Hs Hk; cbn in Hf.
  { injection Hf as <-. split_and!; try done. intros i.
    destruct (decide _) as [[]%elem_of_nil|]; by rewrite app_nil_r. }
  apply bind_Ok in Hf as (deps1 & Hstep & Hf). apply NoDup_cons in Hn as [Hx Hn].
  apply Forall_cons in HP as [HPx HP].
  destruct (candidate_step_Ok P _ _ _ _ Hstep HPx Hs Hk) as (Hs1 & Hk1 & Hr1 & Ho1 & Ha).
  destruct (IH _ Hf Hn HP Hs1 Hk1) as (Hs' & Hk' & Hr & Hall).
  split_and!; [done|done| |by constructor]. intros i. rewrite Hr.
  pose proof (elem_of_cons l i x) as Hc. destruct (decide (i = x)) as [->|Hne].
  - rewrite Hr1. destruct (decide (x ∈ l)), (decide (x ∈ x :: l)); try tauto.
    by rewrite app_nil_r.
  - rewrite Ho1 by done. destruct (decide (i ∈ l)), (decide (i ∈ x :: l)); tauto.
Qed.

Lemma collect_Ok cs deps :
  collect_dependencies cs = Ok deps →
  map_sorted deps ∧ keyed (.∈ mutation_indices cs) deps
  ∧ (∀ i, i ∈ mutation_indices cs → required deps i = edges_of cs i)
  ∧ (∀ i, i ∈ mutation_indices cs → all_settled cs i).
Proof.
  intros Hf. apply (collect_Ok_gen (.∈ mutation_indices cs)) in Hf as (Hs & Hk & Hr & Ha);
    [|apply mutation_indices_nodup|by apply Forall_forall|constructor|by intros ? ? []%elem_of_nil].
  split_and!; [done|done| |by apply Forall_forall].
  intros i Hi. rewrite Hr. by rewrite decide_True.
Qed.

(** ** The graph of well-shaped candidates *)

Section Graph.
Context (cs : list Candidate.t) (Hshape : Forall Shape cs).

Lemma edge_Some target dep j :
  edge cs target dep = Some j →
  j ∈ mutation_indices cs ∧ ∃ c, cs !! j = Some c ∧ find_dependency cs target dep = Some (j, c).
Proof.
  unfold edge. destruct (find_dependency cs target dep) as [[k c]|] eqn:Hf; [|done].
  destruct (PlanAction.is_executable _) eqn:He; [|done]. intros [= <-].
  apply is_executable_iff in He. pose proof (find_dependency_Some _ _ _ _ _ Hf) as (Hk & _ & _).
  split; [|eauto]. apply mutation_indices_spec. exists c. split; [done|].
  rewrite Forall_lookup in Hshape. by apply (Hshape k c).
Qed.

Lemma edges_of_nodes i : edges_of cs i ⊆ mutation_indices cs.
Proof.
  intros j. unfold edges_of, edges. repeat (case_match; [|by intros []%elem_of_nil]).
  intros (dep & _ & He)%list_elem_of_omap. by apply edge_Some in He as [? _].
Qed.

Lemma omap_nodup {A B} (f : A → option B) (l : list A) :
  NoDup l → (∀ x y z, f x = Some z → f y = Some z → x = y) → NoDup (omap f l).
Proof.
  intros Hn Hinj. induction Hn as [|x l Hx Hl IH]; cbn; [constructor|].
  destruct (f x) as [z|] eqn:E; [|done]. constructor; [|done].
  intros (y & Hy & Hz)%list_elem_of_omap. by rewrite (Hinj x y z) in Hx.
Qed.

Lemma edges_of_nodup i : NoDup (edges_of cs i).
Proof.
  unfold edges_of. destruct (cs !! i) as [c|] eqn:Hc; [|constructor].
  destruct (PlanItem.target _) as [target|]; [|constructor]. apply omap_nodup.
  - rewrite Forall_lookup in Hshape. by apply (Hshape i c).
  - intros x y z (_ & c1 & _ & H1)%edge_Some (_ & c2 & _ & H2)%edge_Some.
    apply find_dependency_Some in H1 as (Hc1 & _ & <-).
    apply find_dependency_Some in H2 as (Hc2 & _ & <-). congruence.
Qed.

(** Kahn's algorithm on the collected dependencies. *)
Lemma order_of_dependencies deps :
  collect_dependencies cs = Ok deps →
  ∃ l, order (key_at cs) deps (mutation_indices cs) = Some l
    ∧ well_ordered deps (mutation_indices cs) l
    ∧ (length l = length (mutation_indices cs)
       ↔ ∀ i, ¬ tc (waits deps (mutation_indices cs)) i i).
Proof.
  intros (Hs & Hk & Hr & _)%collect_Ok.
  assert (∀ i, i ∈ mutation_indices cs →
    NoDup (required deps i) ∧ required deps i ⊆ mutation_indices cs) as Hd.
  { intros i Hi. rewrite Hr by done. split; [apply edges_of_nodup|apply edges_of_nodes]. }
  destruct (kahn_run (key_at cs) deps _ Hs (mutation_indices_nodup cs) Hd Hk) as (l & Hl & Hw & _).
  exists l. split_and!; [done|done|]. by eapply (kahn_complete (key_at cs)), Hl; try apply mutation_indices_nodup.
Qed.
End Graph.

(** ** Identifiers *)

Lemma assign_ids_get ordered p i :
  NoDup ordered → ordered !! p = Some i →
  id_of (assign_ids ordered) i = MutationId.mk (as_u32 (S p)).
Proof.
  intros Hn Hp. unfold id_of, assign_ids.
  assert (∀ l m, NoDup (snd <$> l) →
    map_get i (foldl (λ m '(position, index), map_insert index (MutationId.mk (as_u32 (S position))) m) m l)
    = match List.find (λ q, bool_decide (snd q = i)) l with
      | Some (q, _) => Some (MutationId.mk (as_u32 (S q)))
      | None => map_get i m
      end) as Hgen.
  { induction l as [|[q j] l IH]; intros m Hl; cbn; [done|].
    apply NoDup_cons in Hl as [Hj Hl]. rewrite IH by done. case_bool_decide as Hd; cbn in Hd.
    - subst j. destruct (List.find _ l) as [[q' j']|] eqn:Hf; [|by rewrite map_get_insert_eq].
      exfalso. apply find_some in Hf as [Hin Hq%bool_decide_eq_true]. cbn in Hq. subst j'.
      apply Hj. apply list_elem_of_fmap. exists (q', i). split; [done|]. by apply list_elem_of_In.
    - destruct (List.find _ l) as [[q' j']|]; [done|]. by apply map_get_insert_ne. }
  assert (snd <$> enumerate ordered = ordered) as Hsnd.
  { apply list_eq. intros k. rewrite list_lookup_fmap, lookup_enumerate. by destruct (ordered !! k). }
  rewrite Hgen by (by rewrite Hsnd).
  destruct (List.find _ _) as [[q j]|] eqn:Hf.
  - apply find_some in Hf as [Hin Hq%bool_decide_eq_true]. cbn in Hq. subst j.
    apply list_elem_of_In, enumerate_elem in Hin. cbn.
    by rewrite (NoDup_lookup _ _ _ _ Hn Hp Hin).
  - exfalso. assert (In (p, i) (enumerate ordered)) as Hq by (by apply list_elem_of_In, enumerate_elem).
    apply (find_none _ _ Hf) in Hq. cbn in Hq. by rewrite bool_decide_true in Hq.
Qed.

(** ** Completion *)

(** Candidate [i] after its draft has become a mutation. *)
Definition completed (ids : id_map) (deps : graph) (i : nat) (c c' : Candidate.t) : Prop :=
  ∃ d m, c.(Candidate.mutation) = Some d
    ∧ PlannedMutation.new (id_of ids i) d.(MutationDraft.capability) d.(MutationDraft.target)
        d.(MutationDraft.kind) d.(MutationDraft.desired) d.(MutationDraft.precondition)
        d.(MutationDraft.equality) (id_of ids <$> required deps i) = Ok m
    ∧ c' = Candidate.mk c.(Candidate.key)
             (complete_item c.(Candidate.item) (id_of ids <$> required deps i) m
                d.(MutationDraft.target_identity)) None c.(Candidate.dependencies).

Lemma complete_all ids deps l cs cs' :
  try_fold (complete_step ids deps) l cs = Ok cs' → NoDup l →
  length cs' = length cs
  ∧ ∀ i c, cs !! i = Some c → ∃ c', cs' !! i = Some c' ∧
      if decide (i ∈ l) then completed ids deps i c c' else c' = c.
Proof.
  revert cs. induction l as [|x l IH]; intros cs Hf Hn; cbn in Hf.
  { injection Hf as <-. split; [done|]. intros i c Hi. exists c. split; [done|].
    by destruct (decide _) as [[]%elem_of_nil|]. }
  apply bind_Ok in Hf as (cs1 & Hstep & Hf). apply NoDup_cons in Hn as [Hx Hn].
  unfold complete_step in Hstep. destruct (cs !! x) as [cx|] eqn:Hcx; [|done].
  destruct (Candidate.mutation cx) as [d|] eqn:Hd; [|done].
  apply bind_Ok in Hstep as (m & Hm & [= <-]).
  destruct (IH _ Hf Hn) as [Hlen Hget]. split; [by rewrite Hlen, length_insert|].
  intros i c Hi. pose proof (elem_of_cons l i x) as Hc. destruct (decide (i = x)) as [->|Hne].
  - rewrite Hcx in Hi. injection Hi as <-.
    edestruct (Hget x) as (c' & Hc' & Hd'); [by eapply list_lookup_insert_eq, lookup_lt_Some|].
    rewrite decide_False in Hd' by done. exists c'. split; [done|].
    rewrite decide_True by tauto. by exists d, m.
  - destruct (Hget i c) as (c' & Hc' & Hd'); [by rewrite list_lookup_insert_ne|].
    exists c'. split; [done|]. destruct (decide (i ∈ l)), (decide (i ∈ x :: l)); tauto.
Qed.

(** ** The numbered mutations *)

Section Numbered.
Context (cs : list Candidate.t) (Hshape : Forall Shape cs).
Context (deps : graph) (ordered : list nat) (cs' : list Candidate.t).
Context (Hordered : ordered ≡ₚ mutation_indices cs).
Context (Hwell : well_ordered deps (mutation_indices cs) ordered).
Context (Hdeps : ∀ i, i ∈ mutation_indices cs → required deps i = edges_of cs i).
Context (Hlen : length cs' = length cs) (Hbound : N.of_nat (length cs) < 2 ^ 32).
Context (Hget : ∀ i c, cs !! i = Some c → ∃ c', cs' !! i = Some c' ∧
  if decide (i ∈ ordered) then completed (assign_ids ordered) deps i c c' else c' = c).

Definition mutation_at (i : nat) : option PlannedMutation.t :=
  c ← cs' !! i; c.(Candidate.item).(PlanItem.mutation).
Definition number (p : nat) : MutationId.t := MutationId.mk (N.of_nat (S p)).

Lemma number_inj p q : number p = number q → p = q.
Proof. intros [=]. lia. Qed.

Lemma ordered_bound p i : ordered !! p = Some i → N.of_nat (S p) < 2 ^ 32.
Proof.
  intros Hp%lookup_lt_Some. rewrite (Permutation_length Hordered) in Hp.
  enough (length (mutation_indices cs) <= length cs)%nat by lia.
  rewrite <-(length_seq (length cs) 0). apply submseteq_length, NoDup_submseteq.
  - apply mutation_indices_nodup.
  - intros j (c & Hj%lookup_lt_Some & _)%mutation_indices_spec. apply elem_of_seq. lia.
Qed.

Lemma ordered_id p i : ordered !! p = Some i → id_of (assign_ids ordered) i = number p.
Proof.
  intros Hp. rewrite (assign_ids_get _ p) by (done || apply Hwell). unfold number, as_u32.
  by rewrite N.mod_small by (by eapply ordered_bound).
Qed.

Lemma mutation_at_ordered p i :
  ordered !! p = Some i →
  ∃ m c d, mutation_at i = Some m ∧ cs !! i = Some c ∧ c.(Candidate.mutation) = Some d
    ∧ m.(PlannedMutation.mutation_id) = number p
    ∧ m.(PlannedMutation.dependencies) = id_of (assign_ids ordered) <$> required deps i.
Proof.
  intros Hp. assert (i ∈ ordered) as Hi by (by eapply list_elem_of_lookup_2).
  pose proof Hi as Hin. rewrite Hordered in Hin.
  apply mutation_indices_spec in Hin as (c & Hc & _).
  destruct (Hget i c Hc) as (c' & Hc' & Hd). rewrite decide_True in Hd by done.
  destruct Hd as (d & m & Hd & Hm & ->). exists m, c, d.
  unfold mutation_at. rewrite Hc'. cbn. split_and!; [done|done|done|..];
    unfold PlannedMutation.new in Hm; inv_res; repeat case_match; simplify_eq; cbn; [|done].
  by apply ordered_id.
Qed.

Lemma mutation_at_inv i m : mutation_at i = Some m → ∃ p, ordered !! p = Some i.
Proof.
  unfold mutation_at. destruct (cs' !! i) as [c'|] eqn:Hc'; [|done]. cbn. intros Hm.
  destruct (lookup_lt_is_Some_2 cs i) as [c Hc]; [rewrite <-Hlen; by eapply lookup_lt_Some|].
  destruct (Hget i c Hc) as (? & Heq & Hd). rewrite Hc' in Heq. injection Heq as <-.
  destruct (decide (i ∈ ordered)) as [Hi|]; [by apply list_elem_of_lookup|].
  subst. rewrite Forall_lookup in Hshape. by rewrite (shape_mutation _ (Hshape _ _ Hc)) in Hm.
Qed.

Lemma all_mutations :
  omap PlanItem.mutation (Candidate.item <$> cs') = omap mutation_at (seq 0 (length cs')).
Proof.
  unfold mutation_at. clear. induction cs' as [|c l IH] using rev_ind; [done|].
  rewrite fmap_app, omap_app, IH, length_app, seq_app, omap_app. f_equal.
  - apply list_omap_ext. apply Forall_Forall2_diag, Forall_forall. intros i Hi%elem_of_seq.
    by rewrite lookup_app_l by lia.
  - cbn. by rewrite lookup_app_r, Nat.sub_diag by lia.
Qed.

Lemma numbers_perm :
  mutation_ids (omap PlanItem.mutation (Candidate.item <$> cs'))
  ≡ₚ number <$> seq 0 (length ordered).
Proof.
  rewrite all_mutations. unfold mutation_ids. apply NoDup_Permutation.
  - apply NoDup_fmap_2_strong.
    + intros x y (i & _ & Hx)%list_elem_of_omap (j & _ & Hy)%list_elem_of_omap Hid.
      destruct (mutation_at_inv _ _ Hx) as [p Hp], (mutation_at_inv _ _ Hy) as [q Hq].
      destruct (mutation_at_ordered _ _ Hp) as (? & ? & ? & Hx' & _ & _ & Hxi & _).
      destruct (mutation_at_ordered _ _ Hq) as (? & ? & ? & Hy' & _ & _ & Hyi & _).
      simplify_eq. rewrite Hxi, Hyi in Hid. apply number_inj in Hid as ->. congruence.
    + apply omap_nodup; [apply NoDup_seq|]. intros i j m Hx Hy.
      destruct (mutation_at_inv _ _ Hx) as [p Hp], (mutation_at_inv _ _ Hy) as [q Hq].
      destruct (mutation_at_ordered _ _ Hp) as (? & ? & ? & Hx' & _ & _ & Hxi & _).
      destruct (mutation_at_ordered _ _ Hq) as (? & ? & ? & Hy' & _ & _ & Hyi & _).
      simplify_eq. rewrite Hxi in Hyi. apply number_inj in Hyi as ->. congruence.
  - apply NoDup_fmap_2; [intros ??; apply number_inj|apply NoDup_seq].
  - intros x. rewrite !list_elem_of_fmap. split.
    + intros (m & -> & (i & _ & Hm)%list_elem_of_omap).
      destruct (mutation_at_inv _ _ Hm) as [p Hp].
      destruct (mutation_at_ordered _ _ Hp) as (? & ? & ? & Hm' & _ & _ & Hid & _). simplify_eq.
      exists p. split; [done|]. apply elem_of_seq. apply lookup_lt_Some in Hp. lia.
    + intros (p & -> & Hp%elem_of_seq).
      destruct (lookup_lt_is_Some_2 ordered p) as [i Hi]; [lia|].
      destruct (mutation_at_ordered _ _ Hi) as (m & c & d & Hm & Hc & _ & Hid & _).
      exists m. split; [done|]. apply list_elem_of_omap. exists i. split; [|done].
      apply elem_of_seq. rewrite Hlen. apply lookup_lt_Some in Hc. lia.
Qed.

(** Sorting by identifier puts number [p] at place [p]. *)
Lemma sorted_numbers l n :
  mutation_ids l ≡ₚ number <$> seq 0 n → mutation_ids (sort_mutations l) = number <$> seq 0 n.
Proof.
  intros Hp. assert (Inj (=) (=) MutationId.get) as Hinj by (intros [] []; cbn; congruence).
  apply (inj (fmap (M := list) MutationId.get)).
  apply (StronglySorted_unique N.le).
  - assert (StronglySorted mutation_le (sort_mutations l)) as Hs.
    { apply StronglySorted_merge_sort; unfold mutation_le.
      - intros x y z ??. cbn in *. lia.
      - intros x y. lia. }
    clear -Hs. unfold mutation_ids. revert Hs. generalize (sort_mutations l). intros s Hs.
    induction Hs as [|m s Hs IH Hf]; cbn; constructor; [done|].
    rewrite Forall_fmap, Forall_fmap. exact Hf.
  - clear. enough (∀ k, StronglySorted N.le (MutationId.get <$> (number <$> seq k n))) by done.
    induction n as [|n IH]; intros k; cbn; constructor; [apply IH|].
    rewrite !Forall_fmap. apply Forall_forall. intros x Hx%elem_of_seq. cbn. lia.
  - rewrite <-Hp. unfold mutation_ids, sort_mutations. by rewrite merge_sort_Permutation.
Qed.

Lemma numbered_topological L :
  L ≡ₚ omap PlanItem.mutation (Candidate.item <$> cs') → topological (sort_mutations L).
Proof.
  intros HL. pose proof numbers_perm as Hnum. unfold mutation_ids in Hnum. rewrite <-HL in Hnum.
  pose proof (sorted_numbers L _ Hnum) as Hids. clear Hnum. split.
  - rewrite Hids. apply NoDup_fmap_2; [intros ??; apply number_inj|apply NoDup_seq].
  - intros k m Hk. pose proof (mutation_ids_lookup _ _ _ Hk) as Hid. rewrite Hids in Hid.
    apply list_lookup_fmap_Some in Hid as (p & Hid & Hp). apply lookup_seq in Hp as [-> _].
    assert (m ∈ L) as Hin.
    { apply list_elem_of_lookup_2 in Hk. unfold sort_mutations in Hk.
      by rewrite merge_sort_Permutation in Hk. }
    rewrite HL, all_mutations in Hin. apply list_elem_of_omap in Hin as (i & _ & Hi).
    destruct (mutation_at_inv _ _ Hi) as [p Hp].
    destruct (mutation_at_ordered _ _ Hp) as (m' & c & d & Hm' & Hc & _ & Hid' & Hdep).
    rewrite Hi in Hm'. injection Hm' as <-. rewrite Hid in Hid'. apply number_inj in Hid'.
    cbn in Hid'. subst p.
    assert (i ∈ mutation_indices cs) as Hin by (rewrite <-Hordered; by eapply list_elem_of_lookup_2).
    destruct Hwell as (Hnd & Hsub & Htop). rewrite Hdep. split.
    + apply NoDup_fmap_2_strong; [|rewrite Hdeps by done; by apply edges_of_nodup].
      intros x y Hx Hy. destruct (Htop k i Hp x Hx) as (q & _ & Hq).
      destruct (Htop k i Hp y Hy) as (q' & _ & Hq').
      rewrite (ordered_id _ _ Hq), (ordered_id _ _ Hq'). intros ->%number_inj. congruence.
    + intros x (j & -> & Hj)%list_elem_of_fmap. destruct (Htop k i Hp j Hj) as (q & Hlt & Hq).
      exists q. split; [done|]. rewrite Hids, (ordered_id _ _ Hq), list_lookup_fmap.
      rewrite lookup_seq_lt; [done|]. by eapply lookup_lt_Some.
Qed.

(** A dependency of a planned mutation is planned before it, or was in no
    need of a mutation. *)
Lemma dependency_before i m c target dep :
  mutation_at i = Some m → cs !! i = Some c →
  c.(Candidate.item).(PlanItem.target) = Some target → dep ∈ c.(Candidate.dependencies) →
  all_settled cs i →
  ∃ j c', cs' !! j = Some c' ∧ c'.(Candidate.item).(PlanItem.target) = Some target
    ∧ c'.(Candidate.item).(PlanItem.operation) = dep
    ∧ (is_satisfied (Candidate.action c') = true
       ∨ ∃ m', c'.(Candidate.item).(PlanItem.mutation) = Some m'
               ∧ m'.(PlannedMutation.mutation_id) ∈ m.(PlannedMutation.dependencies)
               ∧ MutationId.get m'.(PlannedMutation.mutation_id)
                 < MutationId.get m.(PlannedMutation.mutation_id)).
Proof.
  intros Hm Hc Ht Hdep Hall. specialize (Hall c target Hc Ht). rewrite Forall_forall in Hall.
  destruct (Hall dep Hdep) as [(j & cj & Hfind & Hj) _].
  destruct (find_dependency_Some _ _ _ _ _ Hfind) as (Hcj & Hjt & Hjo).
  destruct (Hget j cj Hcj) as (c' & Hc' & Hd). exists j, c'. split; [done|].
  pose proof (proj1 (Forall_lookup _ _) Hshape j cj Hcj) as Hs.
  destruct Hj as [Hact|Hsat].
  - assert (edge cs target dep = Some j) as He by (unfold edge; rewrite Hfind, Hact; done).
    destruct (mutation_at_inv _ _ Hm) as [p Hp].
    destruct (mutation_at_ordered _ _ Hp) as (? & ? & ? & Hm' & _ & _ & Hid & Hdeps').
    rewrite Hm in Hm'. injection Hm' as <-.
    assert (i ∈ mutation_indices cs) as Hin by (rewrite <-Hordered; by eapply list_elem_of_lookup_2).
    assert (j ∈ required deps i) as Hreq.
    { rewrite Hdeps by done. unfold edges_of. rewrite Hc, Ht. apply list_elem_of_omap. eauto. }
    destruct Hwell as (_ & _ & Htop). destruct (Htop p i Hp j Hreq) as (q & Hlt & Hq).
    destruct (mutation_at_ordered _ _ Hq) as (mj & ? & ? & Hmj & _ & _ & Hidj & _).
    rewrite decide_True in Hd by (by eapply list_elem_of_lookup_2).
    destruct Hd as (d & pm & _ & _ & ->). split_and!; [done|done|]. right. exists pm.
    unfold mutation_at in Hmj. rewrite Hc' in Hmj. cbn in Hmj. injection Hmj as ->.
    split_and!; [done| |rewrite Hid, Hidj; cbn; lia].
    rewrite Hdeps', Hidj, <-(ordered_id _ _ Hq). by apply list_elem_of_fmap_2.
  - assert (Candidate.mutation cj = None) as Hno.
    { destruct (Candidate.mutation cj) eqn:E; [|done].
      by rewrite (proj2 (shape_executable _ Hs)) in Hsat by eauto. }
    rewrite decide_False in Hd.
    + subst c'. by split_and!; [..|left].
    + rewrite Hordered, mutation_indices_spec. intros (? & ? & []). congruence.
Qed.
End Numbered.
