(* ===== verification/ResolutionLaws.v ===== *)
(** * What the resolver admits, and laws of whole resolutions

    Every decision of [resolve_spec] either leaves the host alone or is an
    admission: each condition of policy, evidence, contract and current
    state under which a mutation may be planned holds. *)
From stdpp Require Import relations sorting.
From S2P Require Import Prelude Lists Text Ids Capability Mutation MutationLaws Decision Plan.
From S2P Require Import Policy Specs Resolver Plan Kahn Finalize FinalizeLaws.
Local Open Scope N_scope.
Unset Default Proof Using.

(** A decision that plans nothing. *)
Record Declined (spec : FeatureSpec.t) (order : u16) (target : option TargetId.t)
    (proposal : option PolicyProposal.t) (c : Candidate.t) : Prop := {
  dec_key : c.(Candidate.key)
            = CandidateKey.mk spec.(FeatureSpec.capability) target spec.(FeatureSpec.operation) order;
  dec_capability : c.(Candidate.item).(PlanItem.capability) = spec.(FeatureSpec.capability);
  dec_operation : c.(Candidate.item).(PlanItem.operation) = spec.(FeatureSpec.operation);
  dec_control : c.(Candidate.item).(PlanItem.control) = spec.(FeatureSpec.control);
  dec_target : c.(Candidate.item).(PlanItem.target) = target;
  dec_draft : c.(Candidate.mutation) = None;
  dec_dependencies : c.(Candidate.dependencies) = [];
  dec_mutation : c.(Candidate.item).(PlanItem.mutation) = None;
  dec_action : Candidate.action c ≠ PlanAction.Mutation;
  dec_noop : Candidate.action c = PlanAction.NoOp →
    c.(Candidate.item).(PlanItem.current) = c.(Candidate.item).(PlanItem.desired)
    ∧ ∀ p, proposal = Some p →
        c.(Candidate.item).(PlanItem.desired)
        = Some (PlanValue.Typed (typed_value p.(PolicyProposal.request).(PolicyRequest.operation)))
}.

(** The contract, evidence and observation an admission rests on. *)
Record grounds := {
  g_contract : OperationContract.t;
  g_descriptor : CapabilityDescriptor.t;
  g_fact : CurrentStateFact.t;
  g_target : TargetId.t;
  g_identity : TargetIdentity.t;
  g_precondition : StateFingerprint.t;
  g_kind : MutationKind.t;
  g_current : TypedValue.t
}.

(** Every gate of the resolver is open. *)
Record Admissible (catalog : OperationCatalog.t) (policy : PlannerPolicy.t)
    (index : DescriptorIndex.t) (spec : FeatureSpec.t) (target : option TargetId.t)
    (fact : option CurrentStateFact.t) (proposal : option PolicyProposal.t)
    (g : grounds) : Prop := {
  adm_mode : policy.(PlannerPolicy.mode) = PolicyMode.Boost;
  adm_preserve : PlannerPolicy.is_preserved spec.(FeatureSpec.feature) target policy = None;
  adm_descriptor : DescriptorIndex.select spec.(FeatureSpec.capability) index = Some g.(g_descriptor);
  adm_available : g.(g_descriptor).(CapabilityDescriptor.state) = CapabilityState.Available;
  adm_contract :
    OperationCatalog.find spec.(FeatureSpec.capability) spec.(FeatureSpec.operation) catalog
    = Some g.(g_contract);
  adm_valid : OperationContract.validate g.(g_contract) = Ok tt;
  adm_complete : OperationContract.is_complete g.(g_contract) = true;
  adm_agrees : contract_disagrees g.(g_contract) g.(g_descriptor) spec = false;
  adm_risk : RiskClass.gtb g.(g_contract).(OperationContract.risk)
               policy.(PlannerPolicy.max_risk) = false;
  adm_opt_in : g.(g_contract).(OperationContract.explicit_opt_in) = true →
               PlannerPolicy.is_opted_in spec.(FeatureSpec.feature) policy = true;
  adm_experimental :
    g.(g_descriptor).(CapabilityDescriptor.classification) = FeatureClass.Experimental
    ∨ Feature.is_experimental spec.(FeatureSpec.feature) = true →
    policy.(PlannerPolicy.allow_experimental) = true
    ∧ (spec.(FeatureSpec.explicit_opt_in) = true →
       PlannerPolicy.is_opted_in spec.(FeatureSpec.feature) policy = true);
  adm_fact : fact = Some g.(g_fact);
  adm_current : g.(g_fact).(CurrentStateFact.value)
                = CurrentValue.Known (PlanValue.Typed g.(g_current));
  adm_identity : g.(g_fact).(CurrentStateFact.target_identity) = Some g.(g_identity);
  adm_fingerprint : g.(g_fact).(CurrentStateFact.fingerprint) = Some g.(g_precondition);
  adm_target : target = Some g.(g_target);
  adm_change : typed_value g.(g_kind) ≠ g.(g_current);
  adm_proposal p : proposal = Some p →
    p.(PolicyProposal.request).(PolicyRequest.operation) = g.(g_kind);
  adm_profile : proposal = None →
    profile_desired policy.(PlannerPolicy.profile) spec fact
    = (Some (PlanValue.Typed (typed_value g.(g_kind))), None)
    ∧ default_kind spec.(FeatureSpec.control) g.(g_fact) (typed_value g.(g_kind)) = Some g.(g_kind)
}.

Definition draft_of (spec : FeatureSpec.t) (g : grounds) : MutationDraft.t :=
  MutationDraft.mk spec.(FeatureSpec.capability) g.(g_target) g.(g_kind) (typed_value g.(g_kind))
    g.(g_precondition) g.(g_contract).(OperationContract.equality) g.(g_identity)
    g.(g_contract).(OperationContract.dependencies).

Definition admission (spec : FeatureSpec.t) (order : u16) (evidence : list CapabilityEvidence.t)
    (g : grounds) : Candidate.t :=
  Candidate.of_mutation order spec.(FeatureSpec.capability) spec.(FeatureSpec.operation)
    g.(g_contract) g.(g_target) spec.(FeatureSpec.control)
    (Some (PlanValue.Typed g.(g_current))) (Some (PlanValue.Typed (typed_value g.(g_kind))))
    spec.(FeatureSpec.feature) evidence (draft_of spec g).

Lemma declined_intro order spec backend target proposal current desired action feature class risk
    opt experimental evidence rationale reason identity :
  action ≠ PlanAction.Mutation → action ≠ PlanAction.NoOp →
  Declined spec order target proposal
    (Candidate.non_mutating order spec.(FeatureSpec.capability) spec.(FeatureSpec.operation)
       backend target spec.(FeatureSpec.control) current desired action feature class risk opt
       experimental evidence rationale reason identity).
Proof. intros Ha Hn. by destruct target. Qed.

(** [declined] closes a branch that answers with a non-mutating decision. *)
Ltac declined := left; by apply declined_intro.

(** What has been checked before [resolve_mutation] is called. *)
Lemma resolve_mutation_cases catalog policy descriptor spec order target fact proposal desired
    evidence class risk opt experimental c :
  resolve_mutation catalog policy descriptor spec order target fact proposal desired
    (f ← fact; CurrentStateFact.known_value f) (f ← fact; f.(CurrentStateFact.target_identity))
    evidence spec.(FeatureSpec.feature) class risk opt experimental = Ok c →
  Declined spec order target proposal c ∨
  ∃ g, c = admission spec order evidence g
    ∧ policy.(PlannerPolicy.mode) = PolicyMode.Boost
    ∧ experimental ≠ ExperimentalStatus.Disabled
    ∧ experimental ≠ ExperimentalStatus.OptInRequired
    ∧ g.(g_descriptor) = descriptor
    ∧ OperationCatalog.find spec.(FeatureSpec.capability) spec.(FeatureSpec.operation) catalog
      = Some g.(g_contract)
    ∧ OperationContract.validate g.(g_contract) = Ok tt
    ∧ OperationContract.is_complete g.(g_contract) = true
    ∧ contract_disagrees g.(g_contract) descriptor spec = false
    ∧ RiskClass.gtb g.(g_contract).(OperationContract.risk) policy.(PlannerPolicy.max_risk) = false
    ∧ (g.(g_contract).(OperationContract.explicit_opt_in) = true →
       PlannerPolicy.is_opted_in spec.(FeatureSpec.feature) policy = true)
    ∧ fact = Some g.(g_fact) ∧ target = Some g.(g_target)
    ∧ g.(g_fact).(CurrentStateFact.value) = CurrentValue.Known (PlanValue.Typed g.(g_current))
    ∧ g.(g_fact).(CurrentStateFact.target_identity) = Some g.(g_identity)
    ∧ g.(g_fact).(CurrentStateFact.fingerprint) = Some g.(g_precondition)
    ∧ desired = PlanValue.Typed (typed_value g.(g_kind))
    ∧ match proposal with
      | Some p => Some p.(PolicyProposal.request).(PolicyRequest.operation)
      | None => default_kind spec.(FeatureSpec.control) g.(g_fact) (typed_value g.(g_kind))
      end = Some g.(g_kind).
Proof.
  unfold resolve_mutation. cbn zeta beta. intros Hr.
  case_bool_decide as Hmode; [inv_res; declined|].
  case_bool_decide as Hdis; [inv_res; declined|].
  case_bool_decide as Hopt; [inv_res; declined|].
  destruct (OperationCatalog.find _ _ _) as [contract|] eqn:Hfind; [|inv_res; declined].
  apply bind_Ok in Hr as ([] & Hvalid & Hr).
  destruct (_ && negb _) eqn:Hin in Hr; [inv_res; declined|].
  destruct (OperationContract.is_complete contract) eqn:Hcomplete; cbn [negb] in Hr; [|done].
  destruct (contract_disagrees _ _ _) eqn:Hagree; [done|].
  destruct (RiskClass.gtb _ _) eqn:Hrisk; [inv_res; declined|].
  destruct fact as [fact|]; [|inv_res; declined]. cbn in Hr.
  destruct (CurrentStateFact.value fact) as [[current|]|] eqn:Hvalue; [|inv_res; declined..].
  destruct desired as [desired|]; [|inv_res; declined].
  destruct target as [target|]; [|inv_res; declined].
  destruct (CurrentStateFact.target_identity fact) as [identity|] eqn:Hid; [|inv_res; declined].
  destruct (CurrentStateFact.fingerprint fact) as [precondition|] eqn:Hfp; [|inv_res; declined].
  destruct (match proposal with Some _ => _ | None => _ end) as [kind|] eqn:Hkind;
    [|inv_res; declined].
  case_bool_decide as Hv; [|done]. subst desired. injection Hr as <-.
  right. exists (Build_grounds contract descriptor fact target identity precondition kind current).
  split_and!; try done; cbn.
  - by destruct (PlannerPolicy.mode policy).
  - intros Hx. rewrite Hx in Hin. by apply negb_false_iff in Hin.
Qed.

Lemma experimental_open policy spec class :
  experimental_status policy spec class ≠ ExperimentalStatus.Disabled →
  experimental_status policy spec class ≠ ExperimentalStatus.OptInRequired →
  class = FeatureClass.Experimental ∨ Feature.is_experimental spec.(FeatureSpec.feature) = true →
  policy.(PlannerPolicy.allow_experimental) = true
  ∧ (spec.(FeatureSpec.explicit_opt_in) = true →
     PlannerPolicy.is_opted_in spec.(FeatureSpec.feature) policy = true).
Proof.
  unfold experimental_status. intros Hd Ho Hx.
  assert (bool_decide (class = FeatureClass.Experimental)
          || Feature.is_experimental spec.(FeatureSpec.feature) = true) as Hc.
  { destruct Hx as [->|Hx]; [done|]. by rewrite Hx, orb_true_r. }
  rewrite Hc in Hd, Ho. destruct (PlannerPolicy.allow_experimental policy); [|done].
  split; [done|]. intros He. rewrite He in Ho. cbn in Ho.
  by destruct (PlannerPolicy.is_opted_in _ _).
Qed.

(** Every decision about one specification declines or is an admission. *)
Lemma resolve_spec_inner_cases catalog policy index spec order target fact proposal c :
  resolve_spec_inner catalog policy index spec order target fact proposal = Ok c →
  Declined spec order target proposal c ∨
  ∃ g evidence, c = admission spec order evidence g
                ∧ Admissible catalog policy index spec target fact proposal g.
Proof.
  unfold resolve_spec_inner. cbn zeta beta. intros Hr.
  destruct (PlannerPolicy.is_preserved _ _ _) eqn:Hpreserve; [inv_res; declined|].
  destruct (match proposal with Some _ => _ | None => _ end) as [desired unavailable] eqn:Hdesired.
  destruct (descriptor_action _ _ _) as [[action reason]|] eqn:Hdesc.
  { inv_res. left. apply declined_intro; unfold descriptor_action in Hdesc.
    all: repeat case_match; naive_solver. }
  destruct unavailable as [reason|]; [inv_res; declined|].
  destruct desired as [wanted|].
  2: { left. repeat case_match; simplify_eq; by apply declined_intro. }
  case_bool_decide as Hsame.
  { inv_res. left. split; try done; [by destruct target|]. cbn. intros _. split; [done|].
    intros p ->. by simplify_eq. }
  destruct (DescriptorIndex.select _ _) as [descriptor|] eqn:Hsel; [|done].
  apply resolve_mutation_cases in Hr as [Hr|(g & -> & Hg)]; [by left|right].
  eexists g, _. split; [done|]. destruct_and! Hg. subst.
  split; try done.
  - unfold descriptor_action in Hdesc. cbn in Hdesc.
    destruct (CapabilityDescriptor.state _); try done.
    rewrite !bool_decide_true in Hdesc by (done || eauto). done.
  - by apply experimental_open.
  - intros Heq. apply Hsame. cbn. unfold CurrentStateFact.known_value.
    destruct (CurrentStateFact.value _); [|done]. congruence.
  - intros p ->. cbn in *. naive_solver.
  - intros ->. by split.
Qed.

(** * Whole resolutions

    Which proposals are selected, and where every decision of a resolution
    comes from. *)
Local Open Scope N_scope.
Unset Default Proof Using.

(** ** Selection of proposals *)

Lemma selection_key_eq p q :
  selection_key p = selection_key q
  ↔ proposal_key p.(PolicyProposal.request) = proposal_key q.(PolicyProposal.request).
Proof.
  unfold selection_key, proposal_key, CandidateKey.new, operation_id.
  split; intros [=]; congruence.
Qed.

Definition precedence_of (p : PolicyProposal.t) : N := PolicySource.precedence p.(PolicyProposal.source).
Definition operation_of (p : PolicyProposal.t) : MutationKind.t :=
  p.(PolicyProposal.request).(PolicyRequest.operation).

(** [e] is the proposal that speaks for [p]. *)
Definition speaks_for (e p : PolicyProposal.t) : Prop :=
  selection_key e = selection_key p ∧ precedence_of p <= precedence_of e
  ∧ (precedence_of p = precedence_of e → operation_of p = operation_of e).

Record Selected (l : list PolicyProposal.t) (m : proposal_map) : Prop := {
  sel_sorted : map_sorted m;
  sel_keys k p : (k, p) ∈ m → k = selection_key p ∧ p ∈ l
                 ∧ validate_request p.(PolicyProposal.request) = Ok tt;
  sel_all p : p ∈ l → ∃ e, map_get (selection_key p) m = Some e ∧ speaks_for e p
}.

(** A proposal after [q] in the sorted list is not stronger. *)
Definition not_stronger (q p : PolicyProposal.t) : Prop := cmp_le compare_proposals q p.

Lemma not_stronger_precedence q p :
  not_stronger q p → selection_key q = selection_key p → precedence_of p <= precedence_of q.
Proof.
  unfold not_stronger, cmp_le, compare_proposals. rewrite selection_key_eq. intros Hle Hk.
  rewrite Hk, cmp_refl in Hle. cbn in Hle. unfold cmp, N_ord in Hle.
  unfold precedence_of. by apply N.compare_le_iff.
Qed.

Lemma select_step_selected done_ m p m' :
  select_step m p = Ok m' → Selected done_ m → Forall (λ q, not_stronger q p) done_ →
  Selected (done_ ++ [p]) m'.
Proof.
  unfold select_step. intros Hs [Hsorted Hkeys Hall] Hord.
  apply bind_Ok in Hs as ([] & Hvalid & Hs).
  assert (∀ q, speaks_for q q) as Hself by (intros q; unfold speaks_for; split_and!; done || lia).
  destruct (map_get (selection_key p) m) as [e|] eqn:Hget.
  - assert ((selection_key p, e) ∈ m) as Hin by (by apply map_get_elem).
    destruct (Hkeys _ _ Hin) as (Hk & He & _). rewrite Forall_forall in Hord.
    pose proof (not_stronger_precedence _ _ (Hord e He) (eq_sym Hk)) as Hle.
    assert (m' = m ∧ (precedence_of p = precedence_of e → operation_of p = operation_of e)) as [-> Hop].
    { unfold precedence_of, operation_of in *. case_bool_decide; [naive_solver|].
      destruct (N.ltb_spec (PolicySource.precedence (PolicyProposal.source p))
                  (PolicySource.precedence (PolicyProposal.source e))).
      - injection Hs as <-. split; [done|lia].
      - destruct (N.ltb_spec (PolicySource.precedence (PolicyProposal.source e))
                    (PolicySource.precedence (PolicyProposal.source p))); [lia|done]. }
    split; [done| |].
    + intros k q Hq. destruct (Hkeys k q Hq) as (? & ? & ?). set_solver.
    + intros q [Hq| ->%list_elem_of_singleton]%elem_of_app; [by apply Hall|].
      exists e. by split.
  - injection Hs as <-. split; [by apply map_insert_sorted| |].
    + intros k q [[= -> ->]|[[Hq _]|Hq]]%map_insert_elem.
      * split_and!; [done|set_solver|done].
      * destruct (Hkeys k q Hq) as (? & ? & ?). set_solver.
      * destruct (Hkeys k q Hq) as (? & ? & ?). set_solver.
    + intros q [Hq| ->%list_elem_of_singleton]%elem_of_app.
      * destruct (Hall q Hq) as (e & He & Hsp). exists e. split; [|done].
        rewrite map_get_insert_ne; [done|]. intros Heq. rewrite Heq in He. congruence.
      * exists p. by rewrite map_get_insert_eq.
Qed.

#[export] Instance compare_proposals_total : Total (cmp_le compare_proposals).
Proof.
  intros p q. unfold cmp_le, compare_proposals.
  destruct (cmp (proposal_key p.(PolicyProposal.request)) _) eqn:E.
  - apply cmp_eq in E. rewrite E, cmp_refl. cbn. unfold cmp, N_ord. rewrite !N.compare_le_iff. lia.
  - by left.
  - right. by rewrite cmp_opp, E.
Qed.

#[export] Instance compare_proposals_trans : Transitive (cmp_le compare_proposals).
Proof.
  intros p q r. unfold cmp_le, compare_proposals, then_with.
  destruct (cmp (proposal_key p.(PolicyProposal.request)) _) eqn:E1; [apply cmp_eq in E1; rewrite E1| |done].
  - destruct (cmp (proposal_key q.(PolicyProposal.request)) _) eqn:E2; [|done|done].
    unfold cmp, N_ord. rewrite !N.compare_le_iff. lia.
  - destruct (cmp (proposal_key q.(PolicyProposal.request)) _) eqn:E2; [apply cmp_eq in E2| |done].
    + intros _ _. rewrite <-E2, E1. done.
    + intros _ _. by rewrite (cmp_lt_trans _ _ _ E1 E2).
Qed.

Lemma select_selected l m : select_proposals l = Ok m → Selected l m.
Proof.
  unfold select_proposals. intros Hf.
  assert (StronglySorted not_stronger (sort_by compare_proposals l)) as Hs.
  { apply StronglySorted_merge_sort; apply _. }
  enough (∀ done_ m0, Selected done_ m0 → Forall (λ q, Forall (not_stronger q) (sort_by compare_proposals l)) done_ →
    try_fold select_step (sort_by compare_proposals l) m0 = Ok m →
    Selected (done_ ++ sort_by compare_proposals l) m) as Hgen.
  { destruct (Hgen [] []) as [H1' H2' H3']; [|constructor|done|].
    - split; [constructor|by intros ?? ?%elem_of_nil|by intros ? ?%elem_of_nil].
    - cbn in *. split; [done| |].
      + intros k p Hp. rewrite <-(sort_by_elem compare_proposals). by apply H2'.
      + intros p Hp. apply H3'. by apply sort_by_elem. }
  clear Hf. induction Hs as [|p s Hs IH Hp]; intros done_ m0 Hm Hord Hf.
  { cbn in Hf. injection Hf as <-. by rewrite app_nil_r. }
  cbn in Hf. apply bind_Ok in Hf as (m1 & Hstep & Hf).
  rewrite cons_middle, app_assoc. apply (IH _ m1); [| |done].
  - eapply select_step_selected; [done|done|].
    eapply Forall_impl; [exact Hord|]. intros q Hq. by inversion Hq.
  - apply Forall_app. split; [|by repeat constructor].
    eapply Forall_impl; [exact Hord|]. intros q Hq. by inversion Hq.
Qed.

(** ** Where candidates come from *)

Section Candidates.
Context (catalog : OperationCatalog.t) (input : PlannerInput.t) (proposals : proposal_map).
Let policy := input.(PlannerInput.policy).
Let index := DescriptorIndex.new input.(PlannerInput.inventory).

(** A fact and a proposal that a decision may rest on. *)
Record Relevant (spec : FeatureSpec.t) (target : option TargetId.t)
    (fact : option CurrentStateFact.t) (proposal : option PolicyProposal.t) : Prop := {
  rel_fact f : fact = Some f →
    f ∈ input.(PlannerInput.current_state).(CurrentState.facts)
    ∧ f.(CurrentStateFact.capability) = spec.(FeatureSpec.capability)
    ∧ f.(CurrentStateFact.control) = spec.(FeatureSpec.control)
    ∧ target = Some f.(CurrentStateFact.target);
  rel_proposal p : proposal = Some p →
    p ∈ map_values proposals ∧ proposes spec p
    ∧ target = Some p.(PolicyProposal.request).(PolicyRequest.target);
  rel_none p : proposal = None → p ∈ map_values proposals → proposes spec p →
    target ≠ Some p.(PolicyProposal.request).(PolicyRequest.target)
}.

(** A built-in specification or that of a custom request. *)
Definition known_spec (spec : FeatureSpec.t) : Prop :=
  spec ∈ feature_specs ∨ ∃ request, spec = custom_spec request.

(** The decision about one specification and target. *)
Definition Decided (spec : FeatureSpec.t) (target : option TargetId.t)
    (proposal : option PolicyProposal.t) (c : Candidate.t) : Prop :=
  ∃ order fact, known_spec spec ∧ Relevant spec target fact proposal
    ∧ resolve_spec catalog policy index spec order target fact proposal = Ok c.

Record Answers (m : candidate_map) : Prop := {
  ans_sorted : map_sorted m;
  ans_decided k c : (k, c) ∈ m →
    k = c.(Candidate.key) ∧ ∃ spec target proposal, Decided spec target proposal c
}.

(** [c] or an equal decision is in the map. *)
Definition answered (c : Candidate.t) (m : candidate_map) : Prop :=
  ∃ c', map_get c.(Candidate.key) m = Some c' ∧ c'.(Candidate.item) = c.(Candidate.item).

Lemma insert_candidate_Ok m c m' :
  insert_candidate m c = Ok m' →
  answered c m' ∧ (∀ d, answered d m → answered d m')
  ∧ (m' = m ∨ map_get c.(Candidate.key) m = None ∧ m' = map_insert c.(Candidate.key) c m).
Proof.
  unfold insert_candidate, answered. intros Hi.
  destruct (map_get _ m) as [e|] eqn:Hg.
  - destruct (_ && _ && _); [done|]. case_bool_decide as Hne; [done|]. injection Hi as <-.
    rewrite Hg. eauto 7.
  - injection Hi as <-. split_and!; [exists c; by rewrite map_get_insert_eq| |by right].
    intros d (c' & Hd & Heq). exists c'. split; [|done]. rewrite map_get_insert_ne; [done|].
    intros Hk. rewrite Hk in Hd. congruence.
Qed.

Lemma answers_insert m c m' spec target proposal :
  Answers m → Decided spec target proposal c → insert_candidate m c = Ok m' → Answers m'.
Proof.
  intros [Hs Hd] Hc Hi. apply insert_candidate_Ok in Hi as (_ & _ & [->|[_ ->]]); [done|].
  split; [by apply map_insert_sorted|].
  intros k e [[= -> ->]|[[He _]|He]]%map_insert_elem; [eauto 6|by apply Hd..].
Qed.

(** A loop that only adds answers keeps the old ones and adds those of its
    elements. *)
Lemma try_fold_answers {A} (f : candidate_map → A → Result candidate_map)
    (Q : A → candidate_map → Prop) l m m' :
  try_fold f l m = Ok m' → Answers m →
  (∀ x a b, x ∈ l → Answers a → f a x = Ok b →
     Answers b ∧ Q x b ∧ (∀ d, answered d a → answered d b)) →
  (∀ x a b, Q x a → (∀ d, answered d a → answered d b) → Q x b) →
  Answers m' ∧ (∀ x, x ∈ l → Q x m') ∧ (∀ d, answered d m → answered d m').
Proof.
  intros Hf HA Hstep Hmono. revert m Hf HA. induction l as [|x l IH]; intros m Hf HA; cbn in Hf.
  { injection Hf as <-. split_and!; [done|by intros ? ?%elem_of_nil|done]. }
  apply bind_Ok in Hf as (a & Ha & Hf).
  destruct (Hstep x m a ltac:(set_solver) HA Ha) as (HA' & HQ & Hk).
  destruct (IH ltac:(intros; eapply Hstep; [|done..]; set_solver) a Hf HA') as (HA'' & HQ' & Hk').
  split_and!; [done| |auto]. intros y [->|Hy]%elem_of_cons; [|by apply HQ'].
  by eapply Hmono.
Qed.

Context (Hsel : ∀ k p, (k, p) ∈ proposals → k = selection_key p).
Context (Hsorted : map_sorted proposals).

Lemma proposal_for_Some spec target p :
  proposal_for proposals spec.(FeatureSpec.capability) spec.(FeatureSpec.operation) target = Some p
  ↔ p ∈ map_values proposals ∧ proposes spec p
    ∧ target = Some p.(PolicyProposal.request).(PolicyRequest.target).
Proof.
  unfold proposal_for, map_values, proposes. destruct target as [t|]; cbn.
  - rewrite map_get_elem by done. rewrite list_elem_of_fmap. split.
    + intros Hin. pose proof (Hsel _ _ Hin) as Hk.
      split_and!; [by eexists (_, p)|by apply (f_equal CandidateKey.capability) in Hk
        |by apply (f_equal CandidateKey.operation) in Hk|by apply (f_equal CandidateKey.target) in Hk].
    + intros (([k q] & -> & Hin) & [Hc Ho] & [= ->]). cbn in *.
      rewrite (Hsel _ _ Hin) in Hin. unfold selection_key in Hin. by rewrite Hc, Ho in Hin.
  - naive_solver.
Qed.

Lemma find_spec_fact spec target f :
  (t ← target; List.find (λ f, bool_decide (f.(CurrentStateFact.target) = t))
                 (spec_facts input.(PlannerInput.current_state) spec)) = Some f →
  f ∈ input.(PlannerInput.current_state).(CurrentState.facts)
  ∧ f.(CurrentStateFact.capability) = spec.(FeatureSpec.capability)
  ∧ f.(CurrentStateFact.control) = spec.(FeatureSpec.control)
  ∧ target = Some f.(CurrentStateFact.target).
Proof.
  destruct target as [t|]; [|done]. cbn. intros [Hin Ht%bool_decide_eq_true]%find_some.
  apply list_elem_of_In, list_elem_of_filter in Hin as [[? ?] ?]. subst. done.
Qed.

(** Every proposal about a built-in specification gives a target. *)
Lemma spec_targets_proposal spec p :
  p ∈ map_values proposals → proposes spec p →
  Some p.(PolicyProposal.request).(PolicyRequest.target)
    ∈ spec_targets proposals (spec_facts input.(PlannerInput.current_state) spec) spec.
Proof.
  intros Hp Hs. unfold spec_targets. rewrite dedup_elem, sort_by_elem.
  assert (Some p.(PolicyProposal.request).(PolicyRequest.target)
    ∈ ((λ f, Some f.(CurrentStateFact.target)) <$> spec_facts input.(PlannerInput.current_state) spec)
      ++ ((λ p, Some p.(PolicyProposal.request).(PolicyRequest.target))
          <$> filter (proposes spec) (map_values proposals))) as Hin.
  { apply elem_of_app. right. apply list_elem_of_fmap. exists p.
    split; [done|]. by apply list_elem_of_filter. }
  case_bool_decide as E; [|done]. rewrite E in Hin. by apply elem_of_nil in Hin.
Qed.

(** Some answer to [p] is in the map. *)
Definition met (p : PolicyProposal.t) (m : candidate_map) : Prop :=
  ∃ spec c, proposes spec p
    ∧ Decided spec (Some p.(PolicyProposal.request).(PolicyRequest.target)) (Some p) c
    ∧ answered c m.

Lemma resolve_feature_answers m order spec m' :
  resolve_feature catalog input proposals index m (order, spec) = Ok m' → Answers m →
  spec ∈ feature_specs →
  Answers m' ∧ (∀ p, p ∈ map_values proposals → proposes spec p → met p m')
  ∧ (∀ d, answered d m → answered d m').
Proof.
  unfold resolve_feature. intros Hf HA Hspec.
  eapply (try_fold_answers _ (λ target m, ∀ p, p ∈ map_values proposals → proposes spec p →
    target = Some p.(PolicyProposal.request).(PolicyRequest.target) → met p m)) in Hf
    as (HA' & HQ & Hk); [|done|..].
  - split_and!; [done| |done]. intros p Hp Hs. exact (HQ _ (spec_targets_proposal spec p Hp Hs) p Hp Hs eq_refl).
  - intros target a b Ht Ha Hb. apply bind_Ok in Hb as (c & Hc & Hi).
    set (fact := t ← target; _) in Hc. set (proposal := proposal_for _ _ _ _) in Hc.
    assert (Decided spec target proposal c) as Hd.
    { exists (as_u16 order), fact. split; [by left|]. split; [|done]. split.
      - intros f. apply find_spec_fact.
      - intros p. apply proposal_for_Some.
      - intros p Hn Hp Hs Heq. assert (proposal = Some p) by (by apply proposal_for_Some). congruence. }
    pose proof (insert_candidate_Ok _ _ _ Hi) as (Hin & Hkeep & _).
    split_and!; [by eapply answers_insert| |done]. intros p Hp Hs ->.
    assert (proposal = Some p) as Heq by (by apply proposal_for_Some).
    exists spec, c. rewrite <-Heq. by split_and!.
  - intros target a b HQ Hk p Hp Hs Ht. destruct (HQ p Hp Hs Ht) as (s & c & ? & ? & ?).
    exists s, c. auto.
Qed.

Lemma custom_proposes p : proposes (custom_spec p.(PolicyProposal.request)) p.
Proof. done. Qed.

Lemma resolve_proposal_answers m p m' :
  resolve_proposal catalog input index m p = Ok m' → Answers m → p ∈ map_values proposals →
  Answers m' ∧ (existsb (λ spec, bool_decide (proposes spec p)) feature_specs = true ∨ met p m')
  ∧ (∀ d, answered d m → answered d m').
Proof.
  unfold resolve_proposal. intros Hf HA Hp.
  destruct (existsb _ _) eqn:He; [injection Hf as <-; auto|].
  apply bind_Ok in Hf as (c & Hc & Hi). unfold resolve_custom in Hc.
  destruct (operation_shape _) as [control kind] eqn:Hshape.
  apply bind_Ok in Hc as (_ & _ & Hc). set (fact := List.find _ _) in Hc.
  assert (Decided (custom_spec p.(PolicyProposal.request))
            (Some p.(PolicyProposal.request).(PolicyRequest.target)) (Some p) c) as Hd.
  { exists (as_u16 (length feature_specs)), fact. split; [by right; eexists|]. split; [|done]. split.
    - intros f Hf. apply find_some in Hf as [Hin Hb]. apply list_elem_of_In in Hin.
      apply andb_true_iff in Hb as [[H1'%bool_decide_eq_true H2'%bool_decide_eq_true]%andb_true_iff
        H3'%bool_decide_eq_true].
      cbn. rewrite Hshape. cbn. rewrite H2'. done.
    - by intros q [= <-].
    - done. }
  pose proof (insert_candidate_Ok _ _ _ Hi) as (Hin & Hkeep & _).
  split_and!; [by eapply answers_insert| |done]. right. eexists _, c.
  split_and!; [apply custom_proposes|done|done].
Qed.

Lemma resolve_candidates_answers m0 m :
  try_fold (resolve_feature catalog input proposals index) (enumerate feature_specs) [] = Ok m0 →
  try_fold (resolve_proposal catalog input index) (map_values proposals) m0 = Ok m →
  Answers m ∧ ∀ p, p ∈ map_values proposals → met p m.
Proof.
  intros H1' H2'. eapply (try_fold_answers _ (λ '(_, spec) m, ∀ p, p ∈ map_values proposals →
    proposes spec p → met p m)) in H1' as (HA & HQ & _).
  - eapply (try_fold_answers _ (λ p m,
      existsb (λ spec, bool_decide (proposes spec p)) feature_specs = true ∨ met p m)) in H2'
      as (HA' & HQ' & Hk); [|done|..].
    + split; [done|]. intros p Hp. destruct (HQ' p Hp) as [He|]; [|done].
      apply existsb_exists in He as (spec & Hs & Hb%bool_decide_eq_true).
      apply list_elem_of_In, list_elem_of_lookup in Hs as (i & Hi).
      destruct (HQ (i, spec) (proj2 (enumerate_elem _ _ _) Hi) p Hp Hb) as (s & c & ? & ? & ?).
      exists s, c. auto.
    + intros p a b Hp Ha Hb. by eapply resolve_proposal_answers.
    + intros p a b [?|(s & c & ? & ? & ?)] Hk; [by left|right; exists s, c; auto].
  - split; [constructor|by intros ? ? ?%elem_of_nil].
  - intros [order spec] a b Hs%enumerate_elem Ha Hb. eapply resolve_feature_answers; [done..|].
    by eapply list_elem_of_lookup_2.
  - intros [order spec] a b HQ Hk p Hp Hs. destruct (HQ p Hp Hs) as (s & c & ? & ? & ?).
    exists s, c. auto.
Qed.
End Candidates.
