(* ===== verification/Render.v ===== *)
(** * Dry-run text ([sysboost-core/src/planner.rs], rendering)

    The stable human-readable form of values and of a whole plan. *)
From stdpp Require Import pretty.
From S2P Require Import Prelude Lists Text Ids Capability Mutation Decision Plan.
Local Open Scope N_scope.

Definition newline : string := String (Ascii.ascii_of_nat 10) "".

(** [writeln!]. *)
Definition line (s : string) : string := s +:+ newline.

Definition render_uclamp (value : UclampValue.t) : string :=
  match value with UclampValue.Value value => pretty value | UclampValue.Max => "max" end.

Definition render_energy (value : EnergyPreference.t) : string :=
  match value with
  | EnergyPreference.Performance => "performance"
  | EnergyPreference.BalancePerformance => "balance_performance"
  | EnergyPreference.BalancePower => "balance_power"
  | EnergyPreference.Power => "power"
  end.

Definition render_gpu_profile (value : GpuProfile.t) : string :=
  match value with
  | GpuProfile.Performance => "performance" | GpuProfile.Balanced => "balanced"
  | GpuProfile.PowerSave => "powersave"
  end.

Definition render_risk (value : RiskClass.t) : string :=
  match value with
  | RiskClass.Low => "low" | RiskClass.Medium => "medium" | RiskClass.High => "high"
  | RiskClass.Critical => "critical"
  end.

Definition render_equality (value : EqualityKind.t) : string :=
  match value with
  | EqualityKind.ByteExact => "byte-exact" | EqualityKind.ScalarExact => "scalar-exact"
  | EqualityKind.SetExact => "set-exact"
  end.

Definition render_rollback (control : ControlId.t) (contract : RestoreContract.t) : string :=
  let value := match contract.(RestoreContract.mode) with
               | Some RestoreMode.CompareAndRestore => "compare-and-restore"
               | None => "not defined"
               end in
  value +:+ " original " +:+ ControlId.fmt control +:+ " ("
  +:+ render_equality contract.(RestoreContract.equality) +:+ ")".

(** The derived [Debug] forms that values are rendered with. *)
Definition debug_group_kind (k : CgroupGroupKind.t) : string :=
  match k with
  | CgroupGroupKind.Workload => "Workload"
  | CgroupGroupKind.ConservativeBackground => "ConservativeBackground"
  end.
Definition debug_io_class (c : IoPriorityClass.t) : string :=
  match c with
  | IoPriorityClass.None => "None" | IoPriorityClass.BestEffort => "BestEffort"
  | IoPriorityClass.Idle => "Idle"
  end.
Definition debug_sysctl_key (k : ApprovedSysctlKey.t) : string :=
  match k with ApprovedSysctlKey.SchedulerUtilClamping => "SchedulerUtilClamping" end.
Definition show_bool (b : bool) : string := if b then "true" else "false".

Fixpoint join (sep : string) (l : list string) : string :=
  match l with
  | [] => ""
  | [s] => s
  | s :: l' => s +:+ sep +:+ join sep l'
  end.

Definition render_cpus (s : CpuSet.t) : string := join "," (pretty <$> s.(CpuSet.as_slice)).

Definition render_bound (f : option FrequencyKHz.t) : string :=
  match f with None => "preserve" | Some v => pretty (FrequencyKHz.get v) end.

Definition render_value (value : PlanValue.t) : string :=
  match value with
  | PlanValue.Text value => ObservedText.as_str value
  | PlanValue.Typed value =>
    match value with
    | TypedValue.Governor value => GovernorId.as_str value
    | TypedValue.EnergyPreference value => render_energy value
    | TypedValue.CpuBoost CpuBoostState.Enabled => "enabled"
    | TypedValue.CpuBoost CpuBoostState.Disabled => "disabled"
    | TypedValue.PlatformProfile value => PlatformProfileId.as_str value
    | TypedValue.GpuPerformanceProfile value => render_gpu_profile value
    | TypedValue.GpuPowerLimit value => pretty (PowerMilliwatts.get value) +:+ " mW"
    | TypedValue.IrqAffinity value | TypedValue.CgroupCpuset value => render_cpus value
    | TypedValue.CpuFrequency min_khz max_khz =>
        "min=" +:+ render_bound min_khz +:+ " kHz max=" +:+ render_bound max_khz +:+ " kHz"
    | TypedValue.CgroupCpuWeight value => pretty (CpuWeight.get value)
    | TypedValue.CgroupCpuMax quota period =>
        match quota with CpuQuota.Max => "max" | CpuQuota.Micros value => pretty value end
        +:+ " / " +:+ pretty (CpuPeriod.get period) +:+ " us"
    | TypedValue.CgroupIoWeight value => pretty (IoWeight.get value)
    | TypedValue.CgroupUclamp value => render_uclamp value
    | TypedValue.CgroupLifecycle kind name present =>
        debug_group_kind kind +:+ ":" +:+ CgroupName.as_str name +:+ ":" +:+ show_bool present
    | TypedValue.ProcessPlacement cgroup =>
        "cgroup:" +:+ TargetId.as_str cgroup.(CgroupId.handle)
    | TypedValue.Nice value => pretty (NiceValue.get value)
    | TypedValue.IoPriority value =>
        debug_io_class value.(IoPriority.class) +:+ ":" +:+ pretty value.(IoPriority.level)
    | TypedValue.RuntimeSysctl key value =>
        debug_sysctl_key key +:+ "=" +:+ pretty (ApprovedSysctlValue.get value)
    end
  end.

(** The lines of one decision. *)
Definition render_item (item : PlanItem.t) : string :=
  newline
  +:+ line (ControlId.fmt item.(PlanItem.control))
  +:+ match item.(PlanItem.target) with
      | Some target => line ("  target: " +:+ TargetId.as_str target)
      | None => line "  target: aggregate/unknown"
      end
  +:+ match item.(PlanItem.current) with
      | Some current => line ("  current: " +:+ render_value current)
      | None => ""
      end
  +:+ match item.(PlanItem.desired) with
      | Some desired => line ("  proposed: " +:+ render_value desired)
      | None => ""
      end
  +:+ line ("  action: " +:+ PlanAction.fmt item.(PlanItem.action))
  +:+ line ("  risk: " +:+ render_risk item.(PlanItem.risk))
  +:+ line ("  feature: " +:+ Feature.fmt item.(PlanItem.feature))
  +:+ (if bool_decide (item.(PlanItem.feature_class) = FeatureClass.Experimental)
       then line ("  experimental: " +:+ ExperimentalStatus.fmt item.(PlanItem.experimental))
       else "")
  +:+ match item.(PlanItem.reason) with
      | Some reason => line ("  reason: " +:+ reason)
      | None => ""
      end
  +:+ (if PlanAction.is_executable item.(PlanItem.action)
       then line ("  rollback: "
                  +:+ render_rollback item.(PlanItem.control) item.(PlanItem.restore))
            +:+ line ("  verify: bounded readback ("
                      +:+ render_equality
                            (VerificationContract.equality item.(PlanItem.verification)) +:+ ")")
       else "")
  +:+ line ("  rationale: " +:+ item.(PlanItem.rationale)).

Definition render_dry_run (plan : Plan.t) : string :=
  match plan.(Plan.profile) with
  | Some profile => line ("Profile: " +:+ Profile.fmt profile)
  | None => line "Profile: unspecified"
  end
  +:+ foldr (λ item rest, render_item item +:+ rest) "" plan.(Plan.items).
