(* ===== verification/Digest.v ===== *)
(** * Plan digests ([sysboost-core/src/planner.rs], digests and [TypedPlanner])

    The canonical byte form of policy, inventory and resolution, the
    four-lane digest over it, and the planner that resolves and digests a
    plan. The derived [Debug] text of a whole operation is a parameter. *)
From Stdlib Require Import Strings.Byte.
From S2P Require Import Prelude Lists Text Ids Capability Mutation Decision Plan Policy Specs Resolver Kahn Finalize Render.
Local Open Scope N_scope.

(** [lane ^= byte; lane *= P; lane ^= lane.rotate_left(27); lane += index * 0x9e37], wrapping. *)
Definition digest_mix (index : nat) (b : byte) (lane : u64) : u64 :=
  let lane := wrapping_mul64 (N.lxor lane (b2n b)) 0x100000001b3 in
  let lane := N.lxor lane (rotate_left64 lane 27) in
  (lane + wrapping_mul64 (N.of_nat index) 0x9e37) mod 2 ^ 64.

Fixpoint digest_absorb (index : nat) (bytes : list byte) (lanes : list u64) : list u64 :=
  match bytes with
  | [] => lanes
  | b :: bytes' =>
    digest_absorb (S index) bytes' (alter (digest_mix index b) (index mod 4)%nat lanes)
  end.

Definition digest_lanes : list u64 :=
  [0xcbf29ce484222325; 0x84222325cbf29ce4; 0x9e3779b185ebca87; 0xd6e8feb86659fd93].

Definition stable_digest (bytes : list byte) : array 32 :=
  array_copy 32 (concat (to_be 8 <$> digest_absorb 0 bytes digest_lanes)).

(** What a [DigestWriter] appends for each kind of field. *)
Module DigestWriter.
Definition u8 (value : N) : list byte := [n2b value].
Definition bool (value : bool) : list byte := u8 (if value then 1 else 0).
Definition u32 (value : N) : list byte := to_be 4 value.
Definition u64 (value : N) : list byte := to_be 8 value.
Definition bytes (value : list byte) : list byte := u64 (N.of_nat (length value)) ++ value.
Definition str (value : string) : list byte := bytes (bytes_of_string value).
Definition option_str (value : option string) : list byte :=
  match value with Some value => bool true ++ str value | None => bool false end.
Definition finish (written : list byte) : array 32 := stable_digest written.
End DigestWriter.
Import DigestWriter.

Definition fingerprint_for_bytes (bytes : list byte) : StateFingerprint.t :=
  StateFingerprint.from_bytes (stable_digest bytes).
Definition fingerprint_for_value (value : PlanValue.t) : StateFingerprint.t :=
  fingerprint_for_bytes (bytes_of_string (render_value value)).

(** ** Tags *)

Definition target_kind_tag (kind : TargetKind.t) : N :=
  match kind with
  | TargetKind.CpuPolicy => 0 | TargetKind.CpuSystem => 1 | TargetKind.Cgroup => 2
  | TargetKind.Process => 3 | TargetKind.Gpu => 4 | TargetKind.Irq => 5 | TargetKind.Sysctl => 6
  end.
Definition equality_tag (kind : EqualityKind.t) : N :=
  match kind with
  | EqualityKind.ByteExact => 0 | EqualityKind.ScalarExact => 1 | EqualityKind.SetExact => 2
  end.
Definition feature_class_tag (c : FeatureClass.t) : N :=
  match c with
  | FeatureClass.RuntimeMutable => 0 | FeatureClass.Conditional => 1
  | FeatureClass.Experimental => 2 | FeatureClass.BootOnlyReportOnly => 3
  end.
Definition risk_tag (r : RiskClass.t) : N :=
  match r with
  | RiskClass.Low => 0 | RiskClass.Medium => 1 | RiskClass.High => 2 | RiskClass.Critical => 3
  end.
Definition experimental_tag (e : ExperimentalStatus.t) : N :=
  match e with
  | ExperimentalStatus.NotExperimental => 0 | ExperimentalStatus.Disabled => 1
  | ExperimentalStatus.OptInRequired => 2 | ExperimentalStatus.Enabled => 3
  end.

Section Digests.
Variable debug_kind : MutationKind.t → string.

Definition write_kind (kind : MutationKind.t) : list byte :=
  str (OperationId.as_str (operation_id kind)) ++ str (debug_kind kind).

(** ** Policy *)

Definition write_preserve (r : PreserveRule.t) : list byte :=
  str (Feature.fmt r.(PreserveRule.feature))
  ++ option_str (TargetId.as_str <$> r.(PreserveRule.target)) ++ str r.(PreserveRule.reason).

Definition write_proposal (p : PolicyProposal.t) : list byte :=
  let request := p.(PolicyProposal.request) in
  u8 (PolicySource.precedence p.(PolicyProposal.source))
  ++ str (CapabilityId.as_str request.(PolicyRequest.capability))
  ++ str (TargetId.as_str request.(PolicyRequest.target))
  ++ bool request.(PolicyRequest.required) ++ write_kind request.(PolicyRequest.operation).

Definition preserve_order (r : PreserveRule.t) : Feature.t * option TargetId.t * string :=
  (r.(PreserveRule.feature), r.(PreserveRule.target), r.(PreserveRule.reason)).
Definition proposal_order (p : PolicyProposal.t) :
    (CapabilityId.t * TargetId.t * OperationId.t) * N :=
  (proposal_key p.(PolicyProposal.request), PolicySource.precedence p.(PolicyProposal.source)).

Definition write_policy (p : PlannerPolicy.t) : list byte :=
  str (Profile.fmt p.(PlannerPolicy.profile))
  ++ u8 (match p.(PlannerPolicy.mode) with PolicyMode.Report => 0 | PolicyMode.Boost => 1 end)
  ++ u8 (risk_tag p.(PlannerPolicy.max_risk))
  ++ bool p.(PlannerPolicy.allow_experimental)
  ++ bool p.(PlannerPolicy.required_default)
  ++ u64 p.(PlannerPolicy.session_timeout_ms)
  ++ concat ((λ f, str (Feature.fmt f)) <$> p.(PlannerPolicy.explicit_opt_ins))
  ++ concat (write_preserve <$> sort_by (cmp_by preserve_order) p.(PlannerPolicy.preserves))
  ++ concat (write_proposal <$> sort_by (cmp_by proposal_order) p.(PlannerPolicy.proposals)).
Definition digest_policy (p : PlannerPolicy.t) : array 32 := finish (write_policy p).

(** ** Inventory *)

Definition write_operation (o : OperationDescriptor.t) : list byte :=
  str (OperationId.as_str o.(OperationDescriptor.id))
  ++ u8 (equality_tag o.(OperationDescriptor.equality))
  ++ u8 (feature_class_tag o.(OperationDescriptor.classification)).

Definition write_evidence (e : CapabilityEvidence.t) : list byte :=
  str (debug_source e.(CapabilityEvidence.source)) ++ str e.(CapabilityEvidence.detail).

Definition write_descriptor (d : CapabilityDescriptor.t) : list byte :=
  str (CapabilityId.as_str d.(CapabilityDescriptor.id))
  ++ str (BackendId.as_str d.(CapabilityDescriptor.backend))
  ++ u8 (target_kind_tag d.(CapabilityDescriptor.target_kind))
  ++ u8 (descriptor_rank d.(CapabilityDescriptor.state))
  ++ u8 (equality_tag d.(CapabilityDescriptor.equality))
  ++ u8 (risk_tag d.(CapabilityDescriptor.risk))
  ++ u8 (feature_class_tag d.(CapabilityDescriptor.classification))
  ++ concat (write_operation <$>
       sort_by (cmp_by OperationDescriptor.id) d.(CapabilityDescriptor.operations))
  ++ concat (write_evidence <$> canonicalize_evidence d.(CapabilityDescriptor.evidence)).

Definition descriptor_order (d : CapabilityDescriptor.t) : CapabilityId.t * BackendId.t * N :=
  (d.(CapabilityDescriptor.id), d.(CapabilityDescriptor.backend),
   descriptor_rank d.(CapabilityDescriptor.state)).

Definition write_inventory (i : CapabilityInventory.t) : list byte :=
  u64 (Timestamp.as_unix_millis i.(CapabilityInventory.observed_at))
  ++ concat (write_descriptor <$>
       sort_by (cmp_by descriptor_order) i.(CapabilityInventory.capabilities)).
Definition digest_inventory (i : CapabilityInventory.t) : array 32 := finish (write_inventory i).

(** ** Resolution *)

Definition write_item (item : PlanItem.t) : list byte :=
  str (CapabilityId.as_str item.(PlanItem.capability))
  ++ str (OperationId.as_str item.(PlanItem.operation))
  ++ option_str (BackendId.as_str <$> item.(PlanItem.backend))
  ++ option_str (TargetId.as_str <$> item.(PlanItem.target))
  ++ u8 (control_tag item.(PlanItem.control))
  ++ u8 (action_tag item.(PlanItem.action))
  ++ str (Feature.fmt item.(PlanItem.feature))
  ++ u8 (feature_class_tag item.(PlanItem.feature_class))
  ++ u8 (risk_tag item.(PlanItem.risk))
  ++ u8 (experimental_tag item.(PlanItem.experimental))
  ++ bool item.(PlanItem.explicit_opt_in_required)
  ++ option_str (render_value <$> item.(PlanItem.current))
  ++ option_str (render_value <$> item.(PlanItem.desired))
  ++ str item.(PlanItem.rationale)
  ++ option_str item.(PlanItem.reason)
  ++ concat ((λ d, u32 (MutationId.get d)) <$> item.(PlanItem.dependencies))
  ++ match item.(PlanItem.mutation) with
     | Some m => u32 (MutationId.get m.(PlannedMutation.mutation_id))
                 ++ bytes (StateFingerprint.as_bytes m.(PlannedMutation.precondition))
                 ++ write_kind m.(PlannedMutation.kind)
     | None => []
     end.

Definition write_resolution (r : PolicyResolution.t) (policy_digest capability_digest : array 32) :
    list byte :=
  str (Profile.fmt r.(PolicyResolution.profile)) ++ bytes policy_digest ++ bytes capability_digest
  ++ concat (write_item <$> r.(PolicyResolution.items)).
Definition digest_resolution (r : PolicyResolution.t) (policy_digest capability_digest : array 32) :
    array 32 :=
  finish (write_resolution r policy_digest capability_digest).

End Digests.

(** ** The planner *)

Module PlanRequest.
Record t := mk { policy : Policy.t; inventory : CapabilityInventory.t }.
End PlanRequest.

Module TypedPlanner.
Record t := mk { resolver : PolicyResolver.t }.
Definition new (catalog : OperationCatalog.t) : t := mk (PolicyResolver.new catalog).

Section Build.
Variable debug_kind : MutationKind.t → string.

Definition build (input : PlannerInput.t) (p : t) : Result Plan.t :=
  resolution ← PolicyResolver.resolve input p.(resolver);
  let policy_digest := digest_policy debug_kind input.(PlannerInput.policy) in
  let capability_digest := digest_inventory input.(PlannerInput.inventory) in
  let plan_digest := digest_resolution debug_kind resolution policy_digest capability_digest in
  Plan.from_items (PlanId.from_bytes (array_copy 16 (take 16 plan_digest))) plan_digest
    policy_digest capability_digest resolution.(PolicyResolution.profile)
    resolution.(PolicyResolution.items).

(** [Planner::build]: the balanced profile, no current state. *)
Definition build_request (request : PlanRequest.t) (p : t) : Result Plan.t :=
  build (PlannerInput.mk
           (PlannerPolicy.from_policy Profile.Balanced request.(PlanRequest.policy))
           request.(PlanRequest.inventory)
           (CurrentState.empty
              (CapabilityInventory.observed_at request.(PlanRequest.inventory)))) p.
End Build.
End TypedPlanner.
