(* ===== verification/Str.v ===== *)
(** * String methods of the standard library

    The [str] methods the parsers of the platform use: prefixes, splitting,
    lines, Unicode white space and unsigned decimal numbers.  A string is its
    UTF-8 bytes, so a search for an ASCII pattern is a search for bytes. *)
From Stdlib Require Import Strings.Byte Strings.Ascii.
From stdpp Require Import pretty.
From S2P Require Import Prelude Lists Text Render.
Local Open Scope string_scope.
Local Open Scope N_scope.

Fixpoint strip_prefix (p s : string) : option string :=
  match p, s with
  | EmptyString, _ => Some s
  | String a p', String b s' => if bool_decide (a = b) then strip_prefix p' s' else None
  | String _ _, EmptyString => None
  end.

Definition starts_with (p s : string) : bool := is_some (strip_prefix p s).

Fixpoint strip_suffix (p s : string) : option string :=
  if bool_decide (s = p) then Some EmptyString
  else match s with
       | EmptyString => None
       | String c s' => r ← strip_suffix p s'; Some (String c r)
       end.

Definition ends_with (p s : string) : bool := is_some (strip_suffix p s).

(** [str::split_once]: at the first match. *)
Fixpoint split_once (p s : string) : option (string * string) :=
  match strip_prefix p s with
  | Some rest => Some (EmptyString, rest)
  | None =>
    match s with
    | EmptyString => None
    | String c s' => '(l, r) ← split_once p s'; Some (String c l, r)
    end
  end.

Definition contains (p s : string) : bool := is_some (split_once p s).

(** [str::trim_end_matches] with a pattern that is not empty: as long as it
    is a suffix, it is removed; a string of length [n] ends with it at most
    [n] times. *)
Fixpoint trim_end_loop (fuel : nat) (p s : string) : string :=
  match fuel with
  | O => s
  | S fuel' => match strip_suffix p s with
               | Some s' => trim_end_loop fuel' p s'
               | None => s
               end
  end.
Definition trim_end_matches (p s : string) : string := trim_end_loop (String.length s) p s.

(** The text after the last [c]: [rfind(c)] and [get(index + 1..)]. *)
Fixpoint after_last (c : ascii) (s : string) : option string :=
  match s with
  | EmptyString => None
  | String a s' =>
    match after_last c s' with
    | Some r => Some r
    | None => if bool_decide (a = c) then Some s' else None
    end
  end.

(** [replace(c, ..)] with the empty string. *)
Fixpoint remove_char (c : ascii) (s : string) : string :=
  match s with
  | EmptyString => EmptyString
  | String a s' => if bool_decide (a = c) then remove_char c s' else String a (remove_char c s')
  end.

(** [str::split] on a character. *)
Fixpoint split_on (c : ascii) (s : string) : list string :=
  match s with
  | EmptyString => [EmptyString]
  | String a s' =>
    if bool_decide (a = c) then EmptyString :: split_on c s'
    else match split_on c s' with
         | w :: ws => String a w :: ws
         | [] => [String a EmptyString]
         end
  end.

Definition NEWLINE : ascii := ascii_of_byte x0a.
Definition CARRIAGE_RETURN : string := String (ascii_of_byte x0d) EmptyString.

(** [str::lines]: the pieces between line feeds, without a last empty one
    and without a carriage return at the end of a terminated line. *)
Definition terminated_line (s : string) : string := default s (strip_suffix CARRIAGE_RETURN s).
Fixpoint lines_of (pieces : list string) : list string :=
  match pieces with
  | [] => []
  | [last] => if bool_decide (last = EmptyString) then [] else [last]
  | piece :: rest => terminated_line piece :: lines_of rest
  end.
Definition lines (s : string) : list string := lines_of (split_on NEWLINE s).

(** ** White space *)

(** The length of the white-space character at the front, 0 if there is
    none: the code points of the property [White_Space] in UTF-8. *)
Definition white_space_prefix (l : list byte) : nat :=
  match l with
  | b0 :: l' =>
    let n0 := b2n b0 in
    if in_range 9 13 n0 || (n0 =? 32) then 1%nat
    else
      match l' with
      | b1 :: l'' =>
        let n1 := b2n b1 in
        if (n0 =? 194) && ((n1 =? 133) || (n1 =? 160)) then 2%nat
        else
          match l'' with
          | b2 :: _ =>
            let n2 := b2n b2 in
            if ((n0 =? 225) && (n1 =? 154) && (n2 =? 128))
               || ((n0 =? 226) && (n1 =? 128)
                   && (in_range 128 138 n2 || (n2 =? 168) || (n2 =? 169) || (n2 =? 175)))
               || ((n0 =? 226) && (n1 =? 129) && (n2 =? 159))
               || ((n0 =? 227) && (n1 =? 128) && (n2 =? 128))
            then 3%nat else O
          | [] => O
          end
      | [] => O
      end
  | [] => O
  end.

(** The words of a text: [skip] bytes of white space are still to be passed
    over and [word] is the word being read. *)
Fixpoint words (skip : nat) (word : list byte) (l : list byte) : list (list byte) :=
  let flush := match word with [] => [] | _ => [word] end in
  match l with
  | [] => flush
  | b :: l' =>
    match skip with
    | S skip' => words skip' word l'
    | O =>
      match white_space_prefix l with
      | O => words O (word ++ [b]) l'
      | S n => flush ++ words n [] l'
      end
    end
  end.
Definition split_whitespace (s : string) : list string :=
  string_of_bytes <$> words O [] (bytes_of_string s).

Fixpoint blank (skip : nat) (l : list byte) : bool :=
  match l, skip with
  | [], _ => true
  | _ :: l', S skip' => blank skip' l'
  | _ :: l', O => match white_space_prefix l with O => false | S n => blank n l' end
  end.
Fixpoint trim_start (skip : nat) (l : list byte) : list byte :=
  match l, skip with
  | [], _ => []
  | _ :: l', S skip' => trim_start skip' l'
  | _ :: l', O => match white_space_prefix l with O => l | S n => trim_start n l' end
  end.
Fixpoint trim_end (l : list byte) : list byte :=
  match l with
  | [] => []
  | b :: l' => if blank O l then [] else b :: trim_end l'
  end.
Definition trim (s : string) : string :=
  string_of_bytes (trim_end (trim_start O (bytes_of_string s))).

(** ** Unsigned numbers *)

(** [str::parse] into a [w]-bit unsigned integer: an optional plus sign and
    at least one decimal digit; a value out of range is an error. *)
Fixpoint parse_digits (w acc : N) (s : string) : option N :=
  match s with
  | EmptyString => Some acc
  | String c s' =>
    let n := N_of_ascii c in
    if in_range 48 57 n
    then let acc' := acc * 10 + (n - 48) in
         if acc' <? 2 ^ w then parse_digits w acc' s' else None
    else None
  end.
Definition parse_uint (w : N) (s : string) : option N :=
  match s with
  | EmptyString => None
  | String c s' =>
    if bool_decide (c = "+"%char)
    then match s' with EmptyString => None | _ => parse_digits w 0 s' end
    else parse_digits w 0 s
  end.

(** ** Laws *)

Fixpoint all_chars (P : ascii → bool) (s : string) : bool :=
  match s with EmptyString => true | String c s' => P c && all_chars P s' end.

Definition is_digit (c : ascii) : bool := in_range 48 57 (N_of_ascii c).

Lemma str_cons_app c (s t : string) : String c s +:+ t = String c (s +:+ t).
Proof. done. Qed.
Lemma str_nil_app (t : string) : "" +:+ t = t.
Proof. done. Qed.

Lemma all_chars_app P s t : all_chars P (s +:+ t) = all_chars P s && all_chars P t.
Proof.
  induction s as [|c s IH]; [done|]. rewrite str_cons_app. cbn. by rewrite IH, andb_assoc.
Qed.

Lemma all_chars_impl (P Q : ascii → bool) s :
  (∀ c, P c = true → Q c = true) → all_chars P s = true → all_chars Q s = true.
Proof. intros HPQ. induction s as [|c s IH]; cbn; [done|]. rewrite !andb_true_iff. naive_solver. Qed.

Lemma str_app_assoc (s t u : string) : (s +:+ t) +:+ u = s +:+ (t +:+ u).
Proof. induction s as [|c s IH]; [done|]. rewrite ?str_cons_app. cbn. by rewrite IH. Qed.

Lemma str_app_nil (s : string) : s +:+ "" = s.
Proof. induction s as [|c s IH]; [done|]. rewrite ?str_cons_app. cbn. by rewrite IH. Qed.

Lemma strip_prefix_Some p s r : strip_prefix p s = Some r ↔ s = p +:+ r.
Proof.
  revert s. induction p as [|a p IH]; intros s; [rewrite str_nil_app; cbn; naive_solver|].
  rewrite str_cons_app. cbn. destruct s as [|b s]; [done|]. case_bool_decide as Hab; [subst; rewrite IH; naive_solver|naive_solver].
Qed.

Lemma strip_suffix_Some p s r : strip_suffix p s = Some r → s = r +:+ p.
Proof.
  revert r. induction s as [|c s IH]; intros r; cbn [strip_suffix].
  - case_bool_decide as Hp; [|done]. intros [= <-]. done.
  - case_bool_decide as Hp; [intros [= <-]; done|].
    destruct (strip_suffix p s) as [r'|]; [|done]. cbn. intros [= <-]. rewrite str_cons_app. by rewrite <-(IH r').
Qed.

Lemma str_length_app (s t : string) :
  String.length (s +:+ t) = (String.length s + String.length t)%nat.
Proof. induction s as [|c s IH]; [done|]. rewrite ?str_cons_app. cbn. by rewrite IH. Qed.

Lemma strip_suffix_app p s : strip_suffix p (s +:+ p) = Some s.
Proof.
  induction s as [|c s IH].
  - rewrite str_nil_app. destruct p; cbn [strip_suffix]; by rewrite bool_decide_eq_true_2.
  - rewrite str_cons_app. cbn [strip_suffix]. rewrite bool_decide_eq_false_2, IH; [done|].
    intros Hc. apply (f_equal String.length) in Hc. cbn in Hc. rewrite str_length_app in Hc. lia.
Qed.

(** The pattern is removed once from a text that has not all of its
    characters. *)
Lemma trim_end_matches_app p s (P : ascii → bool) :
  all_chars P s = true → all_chars P p = false → trim_end_matches p (s +:+ p) = s.
Proof.
  intros Hs Hp. unfold trim_end_matches.
  assert (∀ n, trim_end_loop n p s = s) as Hstop.
  { intros [|n]; cbn [trim_end_loop]; [done|].
    destruct (strip_suffix p s) as [r|] eqn:Hr; [|done]. apply strip_suffix_Some in Hr.
    by rewrite Hr, all_chars_app, Hp, andb_false_r in Hs. }
  rewrite str_length_app. destruct p as [|c p]; [done|]. cbn [String.length].
  rewrite Nat.add_succ_r. cbn [trim_end_loop]. by rewrite strip_suffix_app.
Qed.

(** Splitting at a pattern whose first character is not before it. *)
Lemma split_once_app c p l r :
  all_chars (λ a, negb (bool_decide (a = c))) l = true →
  split_once (String c p) (l +:+ String c p +:+ r) = Some (l, r).
Proof.
  induction l as [|a l IH]; intros Hl.
  - rewrite str_nil_app, str_cons_app. cbn [split_once].
    assert (strip_prefix (String c p) (String c (p +:+ r)) = Some r) as ->; [|done].
    by apply strip_prefix_Some.
  - cbn in Hl. apply andb_true_iff in Hl as [Ha Hl]. apply negb_true_iff, bool_decide_eq_false in Ha.
    change (String a l +:+ String c p +:+ r) with (String a (l +:+ String c p +:+ r)).
    cbn [split_once strip_prefix]. rewrite bool_decide_eq_false_2 by congruence.
    by rewrite IH.
Qed.

(** ** Printing and parsing of numbers *)

Lemma pretty_N_char_digit x :
  x < 10 → N_of_ascii (pretty_N_char x) = 48 + x ∧ is_digit (pretty_N_char x) = true.
Proof.
  intros Hx. assert (x = 0 ∨ x = 1 ∨ x = 2 ∨ x = 3 ∨ x = 4 ∨ x = 5 ∨ x = 6 ∨ x = 7 ∨ x = 8 ∨ x = 9)
    as Hc by lia. by destruct_or!; subst.
Qed.

Lemma pretty_N_go_digits x s :
  all_chars is_digit s = true → all_chars is_digit (pretty_N_go x s) = true.
Proof.
  revert s. induction (N.lt_wf_0 x) as [x _ IH]. intros s Hs.
  destruct (N.eq_dec x 0) as [->|Hx]; [by rewrite pretty_N_go_0|].
  rewrite pretty_N_go_step by lia. apply IH; [apply N.div_lt; lia|].
  cbn [all_chars]. rewrite Hs, andb_true_r.
  by apply pretty_N_char_digit, N.mod_lt.
Qed.

Lemma pretty_N_digits (x : N) : all_chars is_digit (pretty x) = true ∧ pretty x ≠ "".
Proof.
  unfold pretty, pretty_N. destruct (decide (x = 0)) as [|Hx]; [done|]. split.
  - by apply pretty_N_go_digits.
  - assert (∀ y s, s ≠ "" → pretty_N_go y s ≠ "") as Hne.
    { intros y. induction (N.lt_wf_0 y) as [y _ IH]. intros s Hs.
      destruct (N.eq_dec y 0) as [->|Hy]; [by rewrite pretty_N_go_0|].
      rewrite pretty_N_go_step by lia. apply IH; [apply N.div_lt; lia|done]. }
    rewrite pretty_N_go_step by lia. by apply Hne.
Qed.

Lemma parse_digits_pretty_go w x s :
  x < 2 ^ w → parse_digits w 0 (pretty_N_go x s) = parse_digits w x s.
Proof.
  revert s. induction (N.lt_wf_0 x) as [x _ IH]. intros s Hx.
  destruct (N.eq_dec x 0) as [->|Hne]; [by rewrite pretty_N_go_0|].
  rewrite pretty_N_go_step by lia.
  assert (x `div` 10 < x) as Hlt by (apply N.div_lt; lia).
  rewrite IH by lia. cbn [parse_digits].
  destruct (pretty_N_char_digit (x `mod` 10)) as [Hc Hd]; [by apply N.mod_lt|].
  unfold is_digit in Hd. rewrite Hd, Hc.
  rewrite (N.add_comm 48), N.add_sub, (N.mul_comm _ 10), <-(N.div_mod x 10) by done.
  by rewrite (proj2 (N.ltb_lt _ _) Hx).
Qed.

(** A printed number parses to itself. *)
Lemma parse_uint_pretty w x : fits w x → parse_uint w (pretty x) = Some x.
Proof.
  intros Hx. unfold parse_uint. destruct (pretty_N_digits x) as [Hd Hne].
  destruct (pretty x) as [|c s] eqn:E; [done|]. rewrite bool_decide_eq_false_2.
  2: { intros ->. done. }
  rewrite <-E. unfold pretty, pretty_N. destruct (decide (x = 0)) as [->|H0].
  - change (parse_digits w 0 "0") with (if 0 <? 2 ^ w then Some 0 else None).
    by rewrite (proj2 (N.ltb_lt _ _) Hx).
  - by rewrite parse_digits_pretty_go.
Qed.

(** ** Lines *)

Lemma split_on_cons c s : ∃ w ws, split_on c s = w :: ws.
Proof.
  destruct s as [|a s]; cbn; [eauto|]. case_bool_decide; [eauto|].
  destruct (split_on c s); eauto.
Qed.

Lemma split_on_app c l r :
  all_chars (λ a, negb (bool_decide (a = c))) l = true →
  split_on c (l +:+ String c r) = l :: split_on c r.
Proof.
  induction l as [|a l IH]; intros Hl.
  - rewrite str_nil_app. cbn. by rewrite bool_decide_eq_true_2.
  - cbn in Hl. apply andb_true_iff in Hl as [Ha Hl]. apply negb_true_iff, bool_decide_eq_false in Ha.
    rewrite str_cons_app. cbn. by rewrite bool_decide_eq_false_2, IH.
Qed.

(** A character of a line: neither a line feed nor a carriage return. *)
Definition line_char (c : ascii) : bool :=
  negb (bool_decide (c = NEWLINE)) && negb (bool_decide (c = ascii_of_byte x0d)).

Lemma terminated_line_same s : all_chars line_char s = true → terminated_line s = s.
Proof.
  intros Hs. unfold terminated_line. destruct (strip_suffix _ s) as [r|] eqn:E; [|done].
  apply strip_suffix_Some in E. subst s. rewrite all_chars_app in Hs.
  by apply andb_true_iff in Hs as [_ ?].
Qed.

Definition unlines (l : list string) : string :=
  foldr (λ s rest, s +:+ String NEWLINE rest) EmptyString l.

Lemma lines_unlines l : Forall (λ s, all_chars line_char s = true) l → lines (unlines l) = l.
Proof.
  unfold lines. induction 1 as [|s l Hs Hl IH]; [done|]. cbn [unlines foldr].
  fold (unlines l). rewrite split_on_app.
  2: { eapply all_chars_impl; [|exact Hs]. intros c. unfold line_char. by destruct (negb _). }
  destruct (split_on_cons NEWLINE (unlines l)) as (w & ws & Hw). rewrite Hw in *.
  cbn [lines_of]. f_equal; [by apply terminated_line_same|exact IH].
Qed.

(** ** ASCII text and lengths *)

Definition is_ascii (c : ascii) : bool := N_of_ascii c <? 128.

Lemma ascii_utf8 s : all_chars is_ascii s = true → utf8 s.
Proof.
  intros Hs. apply ascii_utf8_valid. induction s as [|c s IH]; cbn; [done|].
  cbn in Hs. apply andb_true_iff in Hs as [Hc Hs]. constructor; [|by apply IH].
  unfold is_ascii in Hc. apply N.ltb_lt in Hc. revert Hc. by destruct c as [[] [] [] [] [] [] [] []].
Qed.

Lemma all_chars_unlines P l :
  P NEWLINE = true → Forall (λ s, all_chars P s = true) l → all_chars P (unlines l) = true.
Proof.
  intros HP. induction 1 as [|s l Hs Hl IH]; [done|]. cbn [unlines foldr].
  fold (unlines l). rewrite all_chars_app. cbn [all_chars]. by rewrite Hs, HP, IH.
Qed.

Lemma length_pretty_go k : ∀ x s,
  x < 10 ^ N.of_nat k → (String.length (pretty_N_go x s) ≤ k + String.length s)%nat.
Proof.
  induction k as [|k IH]; intros x s Hx.
  - change (10 ^ N.of_nat 0) with 1 in Hx. assert (x = 0) as -> by lia. by rewrite pretty_N_go_0.
  - destruct (decide (x = 0)) as [->|Hne]; [rewrite pretty_N_go_0; lia|].
    rewrite pretty_N_go_step by lia.
    assert (x `div` 10 < 10 ^ N.of_nat k) as Hd.
    { apply N.Div0.div_lt_upper_bound. rewrite <-N.pow_succ_r'. by rewrite <-Nat2N.inj_succ. }
    specialize (IH _ (String (pretty_N_char (x `mod` 10)) s) Hd). cbn [String.length] in IH. lia.
Qed.

Lemma length_pretty k x : (0 < k)%nat → x < 10 ^ N.of_nat k → (String.length (pretty x) ≤ k)%nat.
Proof.
  intros Hk Hx. unfold pretty, pretty_N. destruct (decide (x = 0)); [cbn [String.length]; lia|].
  pose proof (length_pretty_go k x "" Hx) as Hl. cbn [String.length] in Hl. lia.
Qed.

(** A parsed number is in range. *)
Lemma parse_digits_fits w s : ∀ acc x, acc < 2 ^ w → parse_digits w acc s = Some x → fits w x.
Proof.
  induction s as [|c s IH]; intros acc x Hacc; cbn [parse_digits].
  - intros [= <-]. exact Hacc.
  - destruct (in_range _ _ _); [|done]. destruct (N.ltb_spec (acc * 10 + (N_of_ascii c - 48)) (2 ^ w)); [|done].
    by apply IH.
Qed.

Lemma parse_uint_fits w s x : parse_uint w s = Some x → fits w x.
Proof.
  assert (0 < 2 ^ w) as Hw by (apply N.neq_0_lt_0, N.pow_nonzero; lia).
  destruct s as [|c s]; cbn [parse_uint]; [done|].
  case_bool_decide; [destruct s; [done|]|]; by apply parse_digits_fits.
Qed.

(** * Splitting, joining and trimming

    Laws of [split], [split_once], [join] and [trim] on text without the
    separator or without white space. *)
Local Close Scope string_scope.
Local Open Scope N_scope.

(** No character of the text is [c]. *)
Definition lacks (c : ascii) (s : string) : bool := all_chars (λ a, negb (bool_decide (a = c))) s.

Lemma split_once_lacks c s : lacks c s = true → split_once (String c "") s = None.
Proof.
  unfold lacks. induction s as [|a s IH]; cbn; [done|]. intros [Ha Hs]%andb_true_iff.
  apply negb_true_iff, bool_decide_eq_false in Ha.
  rewrite bool_decide_eq_false_2 by congruence. by rewrite IH.
Qed.

Lemma split_on_lacks c s : lacks c s = true → split_on c s = [s].
Proof.
  unfold lacks. induction s as [|a s IH]; cbn; [done|]. intros [Ha Hs]%andb_true_iff.
  apply negb_true_iff, bool_decide_eq_false in Ha. by rewrite bool_decide_eq_false_2, IH.
Qed.

(** Joining and splitting at a character of no part. *)
Lemma split_on_join c l :
  l ≠ [] → Forall (λ s, lacks c s = true) l → split_on c (join (String c "") l) = l.
Proof.
  intros Hne. induction 1 as [|s l Hs Hl IH]; [done|]. destruct l as [|s' l].
  - by apply split_on_lacks.
  - change (join (String c "") (s :: s' :: l))
      with (s +:+ String c "" +:+ join (String c "") (s' :: l)).
    rewrite str_cons_app, str_nil_app, split_on_app by done. f_equal. by apply IH.
Qed.

(** ** Text without white space *)

Definition graphic (c : ascii) : bool := in_range 33 126 (N_of_ascii c).

Lemma white_space_prefix_graphic b l : in_range 33 126 (b2n b) = true → white_space_prefix (b :: l) = O.
Proof. destruct l as [|b1 [|b2 l]], b; intros Hb; (discriminate Hb || reflexivity). Qed.

Lemma trim_graphic s : all_chars graphic s = true → trim s = s.
Proof.
  intros Hs. unfold trim.
  assert (Forall (λ b, in_range 33 126 (b2n b) = true) (bytes_of_string s)) as Hb.
  { induction s as [|c s IH]; [constructor|]. cbn in Hs. apply andb_true_iff in Hs as [Hc Hs].
    constructor; [|by apply IH]. revert Hc. by destruct c as [[] [] [] [] [] [] [] []]. }
  assert (trim_start O (bytes_of_string s) = bytes_of_string s) as ->.
  { destruct Hb as [|b l Hb Hl]; [done|]. cbn [trim_start]. by rewrite white_space_prefix_graphic. }
  assert (trim_end (bytes_of_string s) = bytes_of_string s) as ->; [|apply string_of_bytes_of].
  induction Hb as [|b l Hb Hl IH]; [done|]. cbn [trim_end blank].
  by rewrite white_space_prefix_graphic, IH.
Qed.

Lemma graphic_no_nul s : all_chars graphic s = true → contains_nul s = false.
Proof.
  unfold contains_nul. induction s as [|c s IH]; [done|]. cbn [all_chars].
  intros [Hc Hs]%andb_true_iff. change (bytes_of_string (String c s)) with (byte_of_ascii c :: bytes_of_string s).
  cbn [existsb]. rewrite IH by done. revert Hc. by destruct c as [[] [] [] [] [] [] [] []].
Qed.

(** A printed number has digits only. *)
Lemma digit_graphic c : is_digit c = true → graphic c = true.
Proof. by destruct c as [[] [] [] [] [] [] [] []]. Qed.

Lemma digits_lack c s : is_digit c = false → all_chars is_digit s = true → lacks c s = true.
Proof.
  intros Hc. apply all_chars_impl. intros a Ha. apply negb_true_iff, bool_decide_eq_false.
  congruence.
Qed.

Lemma pretty_lacks c (x : N) : is_digit c = false → lacks c (pretty x) = true.
Proof. intros Hc. by apply digits_lack, pretty_N_digits. Qed.

Lemma pretty_graphic (x : N) : all_chars graphic (pretty x) = true.
Proof. eapply all_chars_impl; [apply digit_graphic|]. apply pretty_N_digits. Qed.

(** ** Words *)

Lemma graphic_bytes s :
  all_chars graphic s = true → Forall (λ b, in_range 33 126 (b2n b) = true) (bytes_of_string s).
Proof.
  induction s as [|c s IH]; [constructor|]. cbn [all_chars]. intros [Hc Hs]%andb_true_iff.
  change (bytes_of_string (String c s)) with (byte_of_ascii c :: bytes_of_string s).
  constructor; [|by apply IH]. revert Hc. by destruct c as [[] [] [] [] [] [] [] []].
Qed.

Lemma words_word l r : ∀ w,
  Forall (λ b, in_range 33 126 (b2n b) = true) l → words O w (l ++ r) = words O (w ++ l) r.
Proof.
  induction l as [|b l IH]; intros w Hl; [by rewrite app_nil_r|].
  apply Forall_cons in Hl as [Hb Hl]. cbn [app words]. rewrite white_space_prefix_graphic by done.
  rewrite IH by done. by rewrite <-app_assoc.
Qed.

Lemma words_space w r :
  words O w (x20 :: r) = match w with [] => words O [] r | _ => w :: words O [] r end.
Proof. cbn [words]. change (white_space_prefix (x20 :: r)) with 1%nat. by destruct w. Qed.

Lemma bytes_of_string_app s t : bytes_of_string (s +:+ t) = bytes_of_string s ++ bytes_of_string t.
Proof.
  induction s as [|c s IH]; [done|]. rewrite str_cons_app.
  change (bytes_of_string (String c (s +:+ t))) with (byte_of_ascii c :: bytes_of_string (s +:+ t)).
  by rewrite IH.
Qed.

Lemma bytes_nonempty s : s ≠ EmptyString → bytes_of_string s ≠ [].
Proof. by destruct s. Qed.

Lemma split_whitespace_two s t :
  all_chars graphic s = true → all_chars graphic t = true → s ≠ EmptyString → t ≠ EmptyString →
  split_whitespace (s +:+ " " +:+ t) = [s; t].
Proof.
  intros Hs Ht Hns Hnt. unfold split_whitespace. rewrite !bytes_of_string_app.
  rewrite words_word by by apply graphic_bytes. change (bytes_of_string " ") with [x20].
  cbn [app]. rewrite words_space. apply bytes_nonempty in Hns, Hnt.
  destruct (bytes_of_string s) as [|b l] eqn:Es; [done|].
  rewrite <-(app_nil_r (bytes_of_string t)), words_word by by apply graphic_bytes.
  cbn [app words]. destruct (bytes_of_string t) as [|b' l'] eqn:Et; [done|].
  cbn [fmap list_fmap]. by rewrite <-Es, <-Et, !string_of_bytes_of.
Qed.

(** A text without line feeds is one line. *)
Lemma lines_one s : lacks NEWLINE s = true → s ≠ EmptyString → lines s = [s].
Proof. intros Hs Hn. unfold lines. rewrite split_on_lacks by done. cbn. by rewrite bool_decide_false. Qed.

Lemma lacks_app c s t : lacks c (s +:+ t) = lacks c s && lacks c t.
Proof. apply all_chars_app. Qed.

Lemma graphic_ascii s : all_chars graphic s = true → all_chars is_ascii s = true.
Proof. apply all_chars_impl. intros c. by destruct c as [[] [] [] [] [] [] [] []]. Qed.

Lemma graphic_utf8 s : all_chars graphic s = true → utf8 s.
Proof. intros Hs. by apply ascii_utf8, graphic_ascii. Qed.
