(* ===== verification/Topology.v ===== *)
(** * CPU topology and soft isolation ([sysboost-linux/src/topology.rs])

    CPU lists of the kernel, the normalized topology, the choice of workload
    and housekeeping CPUs, affinity masks, and the check of a placement
    against a fresh topology before it becomes a mutation.  The facts come
    from discovery ([discovery.rs]). *)
From Stdlib Require Import Strings.Byte Strings.Ascii.
From stdpp Require Import pretty sorting.
From S2P Require Import Prelude Lists Text Str Ids Capability Mutation Render Digest.
Local Open Scope N_scope.

Definition CPUSET_CAPACITY_LIMIT : usize := 1048576.
Definition PREFER_PERFORMANCE_CORES_FLAG : string := "--prefer-performance-cores".

Definition topology_error (message : string) : SysboostError.t :=
  SysboostError.new ErrorCode.CapabilityError message |> SysboostError.with_stage Stage.Detect.

(** An error of the planner. *)
Definition plan_error (code : ErrorCode.t) (message : string) : SysboostError.t :=
  SysboostError.new code message |> SysboostError.with_stage Stage.Plan.

(** ** Facts of discovery *)

Module CpuTopologyEntry.
Record t := mk {
  cpu : u32;
  package_id : option u32;
  core_id : option u32;
  thread_siblings : option string;
  capacity : option u64;
  online : bool
}.
#[global] Instance t_eq_dec : EqDecision t. Proof. solve_decision. Defined.
End CpuTopologyEntry.

Module CpuTopologyFacts.
Record t := mk {
  possible : option string;
  online : option string;
  entries : list CpuTopologyEntry.t;
  heterogeneous : bool
}.
#[global] Instance t_eq_dec : EqDecision t. Proof. solve_decision. Defined.
(** The CPU numbers are 32-bit integers. *)
Definition wf (x : t) : Prop := Forall (λ e, fits 32 e.(CpuTopologyEntry.cpu)) x.(entries).
End CpuTopologyFacts.

Module NumaNodeFacts.
Record t := mk { id : u32; cpus : option string; memory_total_kb : option u64 }.
#[global] Instance t_eq_dec : EqDecision t. Proof. solve_decision. Defined.
End NumaNodeFacts.

Module NumaFacts.
Record t := mk { nodes : list NumaNodeFacts.t }.
#[global] Instance t_eq_dec : EqDecision t. Proof. solve_decision. Defined.
End NumaFacts.

(** ** CPU lists *)

(** [start..=end] *)
Definition range_inclusive (first last : u32) : list u32 :=
  (λ i, first + N.of_nat i) <$> seq 0 (N.to_nat (last - first + 1)).

Definition parse_cpu (message part : string) : Result u32 :=
  ok_or (parse_uint 32 part) (topology_error message).

Definition too_large : SysboostError.t :=
  topology_error "CPU list exceeds the bounded planning size".

(** One component of the list, after the CPUs read so far. *)
Definition parse_cpu_part (cpus : list u32) (part : string) : Result (list u32) :=
  if bool_decide (part = ""%string)
  then Err (topology_error "CPU list contains an empty component")
  else
    cpus ← match split_once "-" part with
           | Some (first, last) =>
             first ← parse_cpu "CPU list range start is malformed" first;
             last ← parse_cpu "CPU list range end is malformed" last;
             if last <? first then Err (topology_error "CPU list range is reversed")
             else if CPUSET_CAPACITY_LIMIT
                     <? saturating_add64 (N.of_nat (length cpus)) (last - first + 1)
             then Err too_large
             else Ok (cpus ++ range_inclusive first last)
           | None =>
             cpu ← parse_cpu "CPU list member is malformed" part;
             Ok (cpus ++ [cpu])
           end;
    if CPUSET_CAPACITY_LIMIT <? N.of_nat (length cpus) then Err too_large else Ok cpus.

Fixpoint parse_cpu_parts (cpus : list u32) (parts : list string) : Result (list u32) :=
  match parts with
  | [] => Ok cpus
  | part :: rest => cpus ← parse_cpu_part cpus (trim part); parse_cpu_parts cpus rest
  end.

Definition parse_cpu_list (value : string) : Result CpuSet.t :=
  let value := trim value in
  if bool_decide (value = ""%string) then Err (topology_error "CPU list is empty")
  else
    cpus ← parse_cpu_parts [] (split_on "," value);
    CpuSet.new cpus.

Definition render_range (first last : u32) : string :=
  if first =? last then pretty first else pretty first +:+ "-" +:+ pretty last.

(** The loop of [render_cpu_set] with its open range. *)
Fixpoint render_ranges (first last : u32) (rest : list u32) : list string :=
  match rest with
  | [] => [render_range first last]
  | cpu :: rest =>
    if cpu =? N.min (last + 1) (2 ^ 32 - 1) then render_ranges first cpu rest
    else render_range first last :: render_ranges cpu cpu rest
  end.

Definition render_cpu_set (cpus : CpuSet.t) : string :=
  match cpus.(CpuSet.as_slice) with
  | [] => ""
  | cpu :: rest => join "," (render_ranges cpu cpu rest)
  end.

(** ** The normalized topology *)

Module CpuCapacityMode.
Inductive t := HeterogeneousProven | Homogeneous | Unknown.
#[global] Instance t_eq_dec : EqDecision t. Proof. solve_decision. Defined.
Definition fmt (x : t) : string :=
  match x with
  | HeterogeneousProven => "heterogeneous-proven"
  | Homogeneous => "homogeneous"
  | Unknown => "unknown"
  end.
End CpuCapacityMode.

Module CpuPerformanceClass.
Inductive t := Performance | Efficiency | Unknown.
#[global] Instance t_eq_dec : EqDecision t. Proof. solve_decision. Defined.
Definition fmt (x : t) : string :=
  match x with
  | Performance => "performance"
  | Efficiency => "efficiency"
  | Unknown => "unknown"
  end.
End CpuPerformanceClass.

Module CpuTopologyCpu.
Record t := mk {
  id : u32;
  package_id : option u32;
  core_id : option u32;
  thread_siblings : CpuSet.t;
  capacity : option u64;
  online : bool;
  numa_node : option u32;
  performance_class : CpuPerformanceClass.t
}.
#[global] Instance t_eq_dec : EqDecision t. Proof. solve_decision. Defined.
Definition set_performance_class (c : CpuPerformanceClass.t) (x : t) : t :=
  mk x.(id) x.(package_id) x.(core_id) x.(thread_siblings) x.(capacity) x.(online) x.(numa_node) c.
End CpuTopologyCpu.

Module CpuCoreGroup.
Record t := mk {
  cpus : CpuSet.t;
  performance_class : CpuPerformanceClass.t;
  numa_node : option u32
}.
#[global] Instance t_eq_dec : EqDecision t. Proof. solve_decision. Defined.
End CpuCoreGroup.

Module TopologyRevision.
Record t := mk { as_bytes : array 32 }.
#[global] Instance t_eq_dec : EqDecision t. Proof. solve_decision. Defined.
End TopologyRevision.

(** [online.as_slice().contains(&cpu)] *)
Definition has_cpu (s : CpuSet.t) (cpu : u32) : bool := bool_decide (cpu ∈ s.(CpuSet.as_slice)).

Definition capacity_rank (c : CpuPerformanceClass.t) : u8 :=
  match c with
  | CpuPerformanceClass.Performance => 0
  | CpuPerformanceClass.Unknown => 1
  | CpuPerformanceClass.Efficiency => 2
  end.

Definition classify_cpu (online : CpuSet.t) (maximum : u64) (cpu : CpuTopologyCpu.t) : CpuTopologyCpu.t :=
  if negb (has_cpu online cpu.(CpuTopologyCpu.id)) then cpu
  else CpuTopologyCpu.set_performance_class
         match cpu.(CpuTopologyCpu.capacity) with
         | Some capacity => if capacity =? maximum then CpuPerformanceClass.Performance
                            else CpuPerformanceClass.Efficiency
         | None => CpuPerformanceClass.Unknown
         end cpu.

(** The mode and the CPUs with their classes. *)
Definition classify_capacities (cpus : list CpuTopologyCpu.t) (online : option CpuSet.t) :
    CpuCapacityMode.t * list CpuTopologyCpu.t :=
  match online with
  | None => (CpuCapacityMode.Unknown, cpus)
  | Some online =>
    match mapM CpuTopologyCpu.capacity (filter (λ c, has_cpu online c.(CpuTopologyCpu.id) = true) cpus) with
    | None => (CpuCapacityMode.Unknown, cpus)
    | Some capacities =>
      if bool_decide (0 ∈ capacities) then (CpuCapacityMode.Unknown, cpus)
      else
        let capacities := dedup (merge_sort N.le capacities) in
        if Nat.eqb (length capacities) 1 then (CpuCapacityMode.Homogeneous, cpus)
        else (CpuCapacityMode.HeterogeneousProven,
              classify_cpu online (default 0 (last capacities)) <$> cpus)
    end
  end.

Fixpoint normalize_nodes (nodes : list NumaNodeFacts.t) (m : list (u32 * CpuSet.t)) :
    Result (list (u32 * CpuSet.t)) :=
  match nodes with
  | [] => Ok m
  | node :: rest =>
    match node.(NumaNodeFacts.cpus) with
    | None => normalize_nodes rest m
    | Some cpus => cpus ← parse_cpu_list cpus;
                   normalize_nodes rest (map_insert node.(NumaNodeFacts.id) cpus m)
    end
  end.
Definition normalize_numa (numa : NumaFacts.t) : Result (list (u32 * CpuSet.t)) :=
  normalize_nodes numa.(NumaFacts.nodes) [].

(** ** The revision of a topology *)

Definition write_set (set : CpuSet.t) : list byte :=
  to_be 8 (N.of_nat (CpuSet.len set)) ++ concat (to_be 4 <$> set.(CpuSet.as_slice)).
Definition write_option_set (set : option CpuSet.t) : list byte :=
  match set with Some set => n2b 1 :: write_set set | None => [n2b 0] end.

Definition write_cpu (cpu : CpuTopologyCpu.t) : list byte :=
  to_be 4 cpu.(CpuTopologyCpu.id)
  ++ to_be 4 (default (2 ^ 32 - 1) cpu.(CpuTopologyCpu.package_id))
  ++ to_be 4 (default (2 ^ 32 - 1) cpu.(CpuTopologyCpu.core_id))
  ++ to_be 8 (default 0 cpu.(CpuTopologyCpu.capacity))
  ++ [n2b (if cpu.(CpuTopologyCpu.online) then 1 else 0);
      n2b (capacity_rank cpu.(CpuTopologyCpu.performance_class))]
  ++ write_set cpu.(CpuTopologyCpu.thread_siblings)
  ++ to_be 4 (default (2 ^ 32 - 1) cpu.(CpuTopologyCpu.numa_node)).

Definition topology_lanes : list u64 :=
  [0xcbf29ce484222325; 0x84222325cb29ce4; 0x9e3779b185ebca87; 0xd6e8feb86659fd93].

(** The digest of [topology.rs]: the loop of the planner's, from lanes of its
    own. *)
Definition topology_digest (bytes : list byte) : array 32 :=
  array_copy 32 (concat (to_be 8 <$> digest_absorb 0 bytes topology_lanes)).

Definition topology_revision (possible online : option CpuSet.t) (cpus : list CpuTopologyCpu.t)
    (numa : list (u32 * CpuSet.t)) : TopologyRevision.t :=
  TopologyRevision.mk (topology_digest
    (write_option_set possible ++ write_option_set online ++ concat (write_cpu <$> cpus)
     ++ concat ((λ '(node, cpus), to_be 4 node ++ write_set cpus) <$> numa))).

Module CpuTopology.
Record t := mk {
  possible : option CpuSet.t;
  online : option CpuSet.t;
  cpus : list CpuTopologyCpu.t;
  numa_nodes : list (u32 * CpuSet.t);
  capacity_mode : CpuCapacityMode.t;
  revision : TopologyRevision.t
}.
#[global] Instance t_eq_dec : EqDecision t. Proof. solve_decision. Defined.
End CpuTopology.

(** [value.as_deref().map(parse_cpu_list).transpose()?] *)
Definition parse_optional (value : option string) : Result (option CpuSet.t) :=
  match value with
  | Some value => cpus ← parse_cpu_list value; Ok (Some cpus)
  | None => Ok None
  end.

(** Without an online list, the entries that call themselves online. *)
Definition inferred_online (declared : option CpuSet.t) (entries : list CpuTopologyEntry.t) :
    Result (option CpuSet.t) :=
  if is_none declared then
    let ids := CpuTopologyEntry.cpu <$> filter (λ e, CpuTopologyEntry.online e = true) entries in
    if bool_decide (ids = []) then Ok None
    else cpus ← CpuSet.new ids; Ok (Some cpus)
  else Ok None.

Definition check_online (possible online : option CpuSet.t) : Result unit :=
  match possible, online with
  | Some possible, Some online =>
    ensure (forallb (has_cpu possible) online.(CpuSet.as_slice))
      (topology_error "online CPU list contains a CPU outside the possible CPU list")
  | _, _ => Ok tt
  end.

Definition insert_entry (raw : list (u32 * CpuTopologyEntry.t)) (entry : CpuTopologyEntry.t) :
    Result (list (u32 * CpuTopologyEntry.t)) :=
  if is_some (map_get entry.(CpuTopologyEntry.cpu) raw)
  then Err (topology_error "CPU topology contains duplicate logical CPU IDs")
  else Ok (map_insert entry.(CpuTopologyEntry.cpu) entry raw).

(** [ids.extend(cpus)] *)
Definition set_extend (ids cpus : list u32) : list u32 := foldl (λ ids cpu, set_insert cpu ids) ids cpus.

Definition set_slice (s : option CpuSet.t) : list u32 :=
  match s with Some s => s.(CpuSet.as_slice) | None => [] end.

Definition topology_ids (possible online : option CpuSet.t) (raw : list (u32 * CpuTopologyEntry.t)) : list u32 :=
  set_extend (set_extend (set_extend [] (set_slice possible)) (set_slice online)) (fst <$> raw).

Definition assign_cpu (node : u32) (m : list (u32 * u32)) (cpu : u32) : Result (list (u32 * u32)) :=
  if is_some (map_get cpu m)
  then Err (topology_error "NUMA facts assign one CPU to multiple NUMA nodes")
  else Ok (map_insert cpu node m).
Definition assign_node (m : list (u32 * u32)) (node : u32 * CpuSet.t) : Result (list (u32 * u32)) :=
  try_fold (assign_cpu (fst node)) node.2.(CpuSet.as_slice) m.
Definition cpu_to_numa (nodes : list (u32 * CpuSet.t)) : Result (list (u32 * u32)) :=
  try_fold assign_node nodes [].

(** The siblings of [id] that are online; without any, [id] alone. *)
Definition normal_siblings (online : option CpuSet.t) (id : u32) (siblings : option CpuSet.t) : Result CpuSet.t :=
  match online with
  | Some online =>
    let filtered := filter (λ cpu, has_cpu online cpu = true) (set_slice siblings) in
    CpuSet.new (if bool_decide (filtered = []) then [id] else filtered)
  | None => match siblings with Some siblings => Ok siblings | None => CpuSet.new [id] end
  end.

Definition normalize_cpu (online : option CpuSet.t) (raw : list (u32 * CpuTopologyEntry.t))
    (numa : list (u32 * u32)) (id : u32) : Result CpuTopologyCpu.t :=
  let entry := map_get id raw in
  siblings ← parse_optional (entry ≫= CpuTopologyEntry.thread_siblings);
  if match siblings with Some siblings => negb (has_cpu siblings id) | None => false end
  then Err (topology_error "CPU thread-sibling metadata does not contain its owning CPU")
  else
    let is_online :=
      match online with Some online => has_cpu online id | None => false end
      || (is_none online && match entry with Some e => e.(CpuTopologyEntry.online) | None => false end) in
    siblings ← normal_siblings online id siblings;
    Ok (CpuTopologyCpu.mk id (entry ≫= CpuTopologyEntry.package_id) (entry ≫= CpuTopologyEntry.core_id)
          siblings
          (entry ≫= λ e, match e.(CpuTopologyEntry.capacity) with
                         | Some value => if 0 <? value then Some value else None
                         | None => None
                         end)
          is_online (map_get id numa) CpuPerformanceClass.Unknown).

Definition from_facts (facts : CpuTopologyFacts.t) (numa : NumaFacts.t) : Result CpuTopology.t :=
  possible ← parse_optional facts.(CpuTopologyFacts.possible);
  declared_online ← parse_optional facts.(CpuTopologyFacts.online);
  inferred ← inferred_online declared_online facts.(CpuTopologyFacts.entries);
  let online := match declared_online with Some _ => declared_online | None => inferred end in
  _ ← check_online possible online;
  raw_entries ← try_fold insert_entry facts.(CpuTopologyFacts.entries) [];
  let ids := topology_ids possible online raw_entries in
  if bool_decide (ids = [])
  then Err (topology_error "CPU topology exposes neither possible CPUs nor topology entries")
  else
    numa_nodes ← normalize_numa numa;
    numa_of ← cpu_to_numa numa_nodes;
    cpus ← mapM (normalize_cpu online raw_entries numa_of) ids;
    let '(capacity_mode, cpus) := classify_capacities cpus online in
    Ok (CpuTopology.mk possible online cpus numa_nodes capacity_mode
          (topology_revision possible online cpus numa_nodes)).

(** ** Physical-core groups *)

Module CoreKey.
Inductive t :=
| PackageCore (package core : u32)
| SiblingSet (siblings : CpuSet.t).
#[global] Instance t_eq_dec : EqDecision t. Proof. solve_decision. Defined.
#[global] Instance ord : Ord t := λ x y,
  match x, y with
  | PackageCore p c, PackageCore p' c' => cmp (p, c) (p', c')
  | PackageCore _ _, SiblingSet _ => Lt
  | SiblingSet _, PackageCore _ _ => Gt
  | SiblingSet s, SiblingSet s' => cmp s.(CpuSet.as_slice) s'.(CpuSet.as_slice)
  end.
#[global] Instance ord_laws : OrdLaws t.
Proof.
  split.
  - intros [p c|[s]] [p' c'|[s']]; unfold cmp, ord; try done.
    + rewrite (cmp_eq (p, c)). naive_solver.
    + cbn [CpuSet.as_slice]. rewrite cmp_eq. naive_solver.
  - intros [p c|s] [p' c'|s']; unfold cmp, ord; try done; apply cmp_opp.
  - intros [p c|s] [p' c'|s'] [p'' c''|s'']; unfold cmp, ord; try done; apply cmp_lt_trans.
Qed.
End CoreKey.

Definition core_key (cpu : CpuTopologyCpu.t) : CoreKey.t :=
  match cpu.(CpuTopologyCpu.package_id), cpu.(CpuTopologyCpu.core_id) with
  | Some package, Some core => CoreKey.PackageCore package core
  | _, _ => CoreKey.SiblingSet cpu.(CpuTopologyCpu.thread_siblings)
  end.

(** [groups.entry(key).or_default().push(cpu)] *)
Definition group_push (groups : list (CoreKey.t * list CpuTopologyCpu.t)) (cpu : CpuTopologyCpu.t) :
    list (CoreKey.t * list CpuTopologyCpu.t) :=
  let key := core_key cpu in map_insert key (default [] (map_get key groups) ++ [cpu]) groups.

(** One group from its members; [None] when it has no CPU set. *)
Definition core_group (members : list CpuTopologyCpu.t) : option CpuCoreGroup.t :=
  let members := sort_by (cmp_by CpuTopologyCpu.id) members in
  match CpuSet.new (CpuTopologyCpu.id <$> members) with
  | Err _ => None
  | Ok cpus =>
    let performance_class :=
      match head members with
      | Some cpu =>
        let class := cpu.(CpuTopologyCpu.performance_class) in
        if forallb (λ c, bool_decide (c.(CpuTopologyCpu.performance_class) = class)) members
        then class else CpuPerformanceClass.Unknown
      | None => CpuPerformanceClass.Unknown
      end in
    let numa_node :=
      match head members ≫= CpuTopologyCpu.numa_node with
      | Some node =>
        if forallb (λ c, bool_decide (c.(CpuTopologyCpu.numa_node) = Some node)) members
        then Some node else None
      | None => None
      end in
    Some (CpuCoreGroup.mk cpus performance_class numa_node)
  end.

Definition cmp_group (left right : CpuCoreGroup.t) : comparison :=
  cmp left.(CpuCoreGroup.cpus).(CpuSet.as_slice) right.(CpuCoreGroup.cpus).(CpuSet.as_slice).

Definition core_groups (x : CpuTopology.t) : list CpuCoreGroup.t :=
  match x.(CpuTopology.online) with
  | None => []
  | Some online =>
    let groups := foldl group_push []
      (filter (λ c, has_cpu online c.(CpuTopologyCpu.id) = true) x.(CpuTopology.cpus)) in
    sort_by cmp_group (omap core_group (map_values groups))
  end.
