(* ===== verification/Isolation.v ===== *)
(** * Soft isolation ([sysboost-linux/src/topology.rs])

    The choice of workload and housekeeping CPUs over a normalized topology,
    affinity masks, and the last check of a placement before it becomes a
    cpuset mutation. *)
From Stdlib Require Import Strings.Byte.
From stdpp Require Import pretty.
From S2P Require Import Prelude Lists Text Str Ids Capability Mutation Render Topology.
Local Open Scope N_scope.

Module CpuSelectionPolicy.
Record t := mk {
  prefer_performance_cores : bool;
  workload_cpu_count : option usize;
  preferred_numa_node : option u32
}.
#[global] Instance t_eq_dec : EqDecision t. Proof. solve_decision. Defined.
Definition conservative : t := mk false None None.
Definition prefer_performance : t := mk true None None.
Definition with_prefer_performance_cores (enabled : bool) (x : t) : t :=
  mk enabled x.(workload_cpu_count) x.(preferred_numa_node).
Definition with_workload_cpu_count (count : usize) (x : t) : t :=
  mk x.(prefer_performance_cores) (Some count) x.(preferred_numa_node).
Definition with_preferred_numa_node (node : u32) (x : t) : t :=
  mk x.(prefer_performance_cores) x.(workload_cpu_count) (Some node).

Definition from_arg (policy : t) (argument : string) : Result t :=
  if bool_decide (argument = PREFER_PERFORMANCE_CORES_FLAG)
  then Ok (with_prefer_performance_cores true policy)
  else if starts_with "-" argument
  then Err (SysboostError.new ErrorCode.ConfigError "unknown CPU placement option"
            |> SysboostError.with_stage Stage.Config)
  else Ok policy.
Definition from_args (args : list string) : Result t := try_fold from_arg args conservative.
End CpuSelectionPolicy.

(** ** Affinity masks *)

Module CpuAffinityMask.
Record t := mk { as_bytes : list byte }.
#[global] Instance t_eq_dec : EqDecision t. Proof. solve_decision. Defined.

(** [output[cpu / 8] |= 1 << (cpu % 8)].  The source would panic on an index
    out of range; [mask_index_in_range] shows that it never is. *)
Definition set_bit (output : list byte) (cpu : u32) : list byte :=
  alter (λ b, n2b (N.lor (b2n b) (N.shiftl 1 (cpu mod 8)))) (N.to_nat (cpu / 8)) output.

Definition from_cpu_set (cpus : CpuSet.t) : Result t :=
  match last cpus.(CpuSet.as_slice) with
  | None => Err (SysboostError.new ErrorCode.InvalidInput
                   "cannot generate an affinity mask for an empty CPU set")
  | Some max_cpu =>
    bytes ← ok_or (checked_add64 (max_cpu / 8) 1)
              (SysboostError.new ErrorCode.InvalidInput "CPU affinity mask size overflowed");
    if CPUSET_CAPACITY_LIMIT / 8 <? bytes
    then Err (SysboostError.new ErrorCode.InvalidInput
                "CPU affinity mask exceeds the bounded planning size")
    else Ok (mk (foldl set_bit (replicate (N.to_nat bytes) (n2b 0)) cpus.(CpuSet.as_slice)))
  end.

Definition to_hex (x : t) : string := string_of_bytes (encode_hex (rev x.(as_bytes))).
End CpuAffinityMask.

Module CpuPlacementFallback.
Inductive t :=
| HomogeneousTopology | CapacityMetadataUnavailable
| NumaPreferenceUnavailable | ReducedToPreserveHousekeeping.
#[global] Instance t_eq_dec : EqDecision t. Proof. solve_decision. Defined.
Definition fmt (x : t) : string :=
  match x with
  | HomogeneousTopology => "homogeneous-topology"
  | CapacityMetadataUnavailable => "capacity-metadata-unavailable"
  | NumaPreferenceUnavailable => "numa-preference-unavailable"
  | ReducedToPreserveHousekeeping => "reduced-to-preserve-housekeeping"
  end.
End CpuPlacementFallback.

Module CpuIsolationPlan.
Record t := mk {
  workload_cpus : CpuSet.t;
  housekeeping_cpus : CpuSet.t;
  workload_mask : CpuAffinityMask.t;
  housekeeping_mask : CpuAffinityMask.t;
  capacity_mode : CpuCapacityMode.t;
  fallbacks : list CpuPlacementFallback.t;
  topology_revision : TopologyRevision.t;
  online_at_plan : CpuSet.t;
  target_identity : option TargetIdentity.t
}.
#[global] Instance t_eq_dec : EqDecision t. Proof. solve_decision. Defined.
Definition primary_fallback (x : t) : option CpuPlacementFallback.t := head x.(fallbacks).
End CpuIsolationPlan.

(** ** The choice *)

Section Select.
Variables (topology : CpuTopology.t) (policy : CpuSelectionPolicy.t).
Let mode := topology.(CpuTopology.capacity_mode).
Let prefers := policy.(CpuSelectionPolicy.prefer_performance_cores).
Let preferred_numa := policy.(CpuSelectionPolicy.preferred_numa_node).

Definition capacity_fallback : list CpuPlacementFallback.t :=
  if prefers then
    match mode with
    | CpuCapacityMode.HeterogeneousProven => []
    | CpuCapacityMode.Homogeneous => [CpuPlacementFallback.HomogeneousTopology]
    | CpuCapacityMode.Unknown => [CpuPlacementFallback.CapacityMetadataUnavailable]
    end
  else [].

(** [preferred_numa.is_some_and(|node| group.numa_node == Some(node))] *)
Definition is_preferred (group : CpuCoreGroup.t) : bool :=
  match preferred_numa with
  | Some node => bool_decide (group.(CpuCoreGroup.numa_node) = Some node)
  | None => false
  end.

(** Groups of the preferred node first; the fallback when it has none. *)
Definition numa_candidates (groups : list CpuCoreGroup.t) :
    list CpuPlacementFallback.t * list CpuCoreGroup.t :=
  match preferred_numa with
  | None => ([], groups)
  | Some node =>
    let preferred := filter (λ g, g.(CpuCoreGroup.numa_node) = Some node) groups in
    if bool_decide (preferred = [])
    then ([CpuPlacementFallback.NumaPreferenceUnavailable], groups)
    else
      let preferred_ids := concat ((λ g, g.(CpuCoreGroup.cpus).(CpuSet.as_slice)) <$> preferred) in
      ([], preferred ++ filter (λ g, Forall (.∉ preferred_ids) g.(CpuCoreGroup.cpus).(CpuSet.as_slice)) groups)
  end.

Definition cmp_candidate (left right : CpuCoreGroup.t) : comparison :=
  then_with (cmp (is_preferred right) (is_preferred left))
    (then_with
       (if prefers && bool_decide (mode = CpuCapacityMode.HeterogeneousProven)
        then cmp (capacity_rank left.(CpuCoreGroup.performance_class))
                 (capacity_rank right.(CpuCoreGroup.performance_class))
        else Eq)
       (cmp_group left right)).

Definition group_len (group : CpuCoreGroup.t) : usize := N.of_nat (CpuSet.len group.(CpuCoreGroup.cpus)).
Definition sum_len (groups : list CpuCoreGroup.t) : usize := foldr (λ g n, group_len g + n) 0 groups.

(** Whether the request is capped to keep housekeeping CPUs. *)
Definition is_reduced (online : CpuSet.t) (candidates : list CpuCoreGroup.t) (max_groups : nat) : bool :=
  match policy.(CpuSelectionPolicy.workload_cpu_count) with
  | Some requested =>
    (N.of_nat (CpuSet.len online) - 1 <? requested) || (sum_len (take max_groups candidates) <? requested)
  | None => false
  end.

(** The loop over the candidates. *)
Fixpoint select_groups (max_groups : nat) (requested : usize) (selected : list CpuCoreGroup.t)
    (logical : usize) (candidates : list CpuCoreGroup.t) : list CpuCoreGroup.t :=
  match candidates with
  | [] => selected
  | group :: rest =>
    if (max_groups <=? length selected)%nat then selected
    else if (requested <=? logical) && negb (bool_decide (selected = [])) then selected
    else select_groups max_groups requested (selected ++ [group]) (logical + group_len group) rest
  end.

Definition select_for_target (target_identity : option TargetIdentity.t) : Result CpuIsolationPlan.t :=
  online ← ok_or topology.(CpuTopology.online)
             (plan_error ErrorCode.CapabilityError
                "current online CPU set is unavailable; soft isolation is report-only");
  let groups := core_groups topology in
  if (CpuSet.len online <? 2)%nat || (length groups <? 2)%nat
  then Err (plan_error ErrorCode.PlanningError
              "at least two online physical-core groups are required to preserve housekeeping")
  else
    let housekeeping_group_count := Nat.max ((length groups + 1) / 2) 1 in
    let max_workload_groups := (length groups - housekeeping_group_count)%nat in
    if (max_workload_groups =? 0)%nat
    then Err (plan_error ErrorCode.PlanningError
                "no workload CPU group remains after the housekeeping reserve")
    else
      let '(numa_fallback, candidates) := numa_candidates groups in
      let candidates := sort_by cmp_candidate candidates in
      let requested := default (2 ^ 64 - 1) policy.(CpuSelectionPolicy.workload_cpu_count) in
      if requested =? 0
      then Err (plan_error ErrorCode.InvalidInput "requested workload CPU count must be positive")
      else
        let reduced := if is_reduced online candidates max_workload_groups
                       then [CpuPlacementFallback.ReducedToPreserveHousekeeping] else [] in
        let selected := select_groups max_workload_groups requested [] 0 candidates in
        if bool_decide (selected = [])
        then Err (plan_error ErrorCode.PlanningError
                    "the topology produced no eligible workload CPU group")
        else
          workload_cpus ← CpuSet.new (concat ((λ g, g.(CpuCoreGroup.cpus).(CpuSet.as_slice)) <$> selected));
          housekeeping_cpus ← CpuSet.new (filter (λ cpu, has_cpu workload_cpus cpu = false)
                                            online.(CpuSet.as_slice));
          if (CpuSet.len online <=? CpuSet.len workload_cpus)%nat || CpuSet.is_empty housekeeping_cpus
          then Err (plan_error ErrorCode.PlanningError
                      "soft isolation would consume the entire online CPU set")
          else
            workload_mask ← CpuAffinityMask.from_cpu_set workload_cpus;
            housekeeping_mask ← CpuAffinityMask.from_cpu_set housekeeping_cpus;
            Ok (CpuIsolationPlan.mk workload_cpus housekeeping_cpus workload_mask housekeeping_mask
                  mode (capacity_fallback ++ numa_fallback ++ reduced)
                  topology.(CpuTopology.revision) online target_identity).

Definition select : Result CpuIsolationPlan.t := select_for_target None.
End Select.

Definition select_workload (topology : CpuTopology.t) : Result CpuIsolationPlan.t :=
  select topology CpuSelectionPolicy.conservative.

(** ** The last check *)

Definition apply_error (message : string) : SysboostError.t :=
  SysboostError.new ErrorCode.TargetError message |> SysboostError.with_stage Stage.Apply.

Definition validate_before_apply (plan : CpuIsolationPlan.t) (current : CpuTopology.t)
    (current_target_identity : option TargetIdentity.t) : Result unit :=
  if negb (bool_decide (current.(CpuTopology.revision) = plan.(CpuIsolationPlan.topology_revision)))
     || negb (bool_decide (current.(CpuTopology.online) = Some plan.(CpuIsolationPlan.online_at_plan)))
  then Err (apply_error "CPU topology or online CPU set changed after planning")
  else
    current_online ← ok_or current.(CpuTopology.online)
                       (apply_error "current online CPU set disappeared after planning");
    if negb (forallb (has_cpu current_online) plan.(CpuIsolationPlan.workload_cpus).(CpuSet.as_slice))
       || negb (forallb (has_cpu current_online) plan.(CpuIsolationPlan.housekeeping_cpus).(CpuSet.as_slice))
    then Err (apply_error "planned CPU set contains a CPU that is no longer online")
    else if negb (bool_decide (plan.(CpuIsolationPlan.target_identity) = current_target_identity))
    then Err (apply_error "CPU placement target identity changed after planning")
    else Ok tt.

(** The [expect] of this static identifier cannot fail, see
    [cpuset_capability_valid]. *)
Definition cpuset_capability : CapabilityId.t := CapabilityId.mk "cgroup.cpuset.cpus".

Definition to_cgroup_cpuset_mutation (plan : CpuIsolationPlan.t) (current : CpuTopology.t)
    (current_target_identity : TargetIdentity.t) (mutation_id : MutationId.t) (cgroup : CgroupId.t)
    (current_cpuset_precondition : StateFingerprint.t) : Result PlannedMutation.t :=
  _ ← validate_before_apply plan current (Some current_target_identity);
  if negb (bool_decide (plan.(CpuIsolationPlan.target_identity) = Some current_target_identity))
  then Err (plan_error ErrorCode.TargetError "cpuset mutation target identity is not the planned identity")
  else
    PlannedMutation.new mutation_id cpuset_capability cgroup.(CgroupId.handle)
      (MutationKind.CgroupCpuset cgroup plan.(CpuIsolationPlan.workload_cpus))
      (TypedValue.CgroupCpuset plan.(CpuIsolationPlan.workload_cpus))
      current_cpuset_precondition EqualityKind.SetExact [].

Definition explain (plan : CpuIsolationPlan.t) : string :=
  unlines
    [ "capacity: " +:+ CpuCapacityMode.fmt plan.(CpuIsolationPlan.capacity_mode);
      "workload CPUs: " +:+ render_cpu_set plan.(CpuIsolationPlan.workload_cpus)
        +:+ " (mask=0x" +:+ CpuAffinityMask.to_hex plan.(CpuIsolationPlan.workload_mask) +:+ ")";
      "housekeeping CPUs: " +:+ render_cpu_set plan.(CpuIsolationPlan.housekeeping_cpus)
        +:+ " (mask=0x" +:+ CpuAffinityMask.to_hex plan.(CpuIsolationPlan.housekeeping_mask) +:+ ")";
      "fallback: " +:+
        (if bool_decide (plan.(CpuIsolationPlan.fallbacks) = []) then "none"
         else join "," (CpuPlacementFallback.fmt <$> plan.(CpuIsolationPlan.fallbacks)))].
