(* ===== verification/TopologyNormal.v ===== *)
(** * Laws of the CPU topology

    CPU lists print and parse back, every parsed list is bounded and
    canonical, a normalized topology satisfies its invariant, and its core
    groups partition the online CPUs. *)
From Stdlib Require Import Strings.Byte Strings.Ascii.
From stdpp Require Import pretty sorting.
From S2P Require Import Prelude Lists Text Str Ids Capability Mutation MutationLaws Render.
From S2P Require Import Topology.
Local Open Scope N_scope.
Unset Default Proof Using.

(** ** Parsing a CPU list *)

Lemma range_inclusive_elem first last x :
  first ≤ last → x ∈ range_inclusive first last ↔ first ≤ x ≤ last.
Proof.
  intros Hle. unfold range_inclusive. rewrite list_elem_of_fmap. split.
  - intros (i & -> & Hi%elem_of_seq). lia.
  - intros Hx. exists (N.to_nat (x - first)). rewrite elem_of_seq. lia.
Qed.

Lemma range_inclusive_length first last :
  length (range_inclusive first last) = N.to_nat (last - first + 1).
Proof. unfold range_inclusive. by rewrite length_fmap, length_seq. Qed.

Lemma range_inclusive_snoc first last :
  first ≤ last → range_inclusive first (last + 1) = range_inclusive first last ++ [last + 1].
Proof.
  intros Hle. unfold range_inclusive.
  replace (N.to_nat (last + 1 - first + 1)) with (N.to_nat (last - first + 1) + 1)%nat by lia.
  rewrite seq_app, fmap_app. cbn. do 2 f_equal. lia.
Qed.

(** The list read so far: within the bound, and every member fits. *)
Definition list_bounded (cpus : list u32) : Prop :=
  N.of_nat (length cpus) ≤ CPUSET_CAPACITY_LIMIT ∧ Forall (fits 32) cpus.

Lemma parse_cpu_part_bounded cpus part cpus' :
  parse_cpu_part cpus part = Ok cpus' → list_bounded cpus → list_bounded cpus'.
Proof.
  unfold parse_cpu_part, parse_cpu. intros Hp [_ Hf]. case_bool_decide; [done|]. inv_res.
  destruct (CPUSET_CAPACITY_LIMIT <? _) eqn:Hlim in Hp; [done|]. inv_res.
  apply N.ltb_ge in Hlim. split; [done|].
  destruct (split_once "-" part) as [[first last]|]; inv_res.
  - destruct (_ <? _) eqn:Hlt in *; [done|]. apply N.ltb_ge in Hlt.
    destruct (_ <? _) eqn:Hcap in *; [done|]. inv_res.
    apply Forall_app. split; [done|]. apply Forall_forall. intros x Hx%range_inclusive_elem; [|done].
    eapply N.le_lt_trans; [apply Hx|]. by eapply parse_uint_fits.
  - apply Forall_app. split; [done|]. repeat constructor. by eapply parse_uint_fits.
Qed.

Lemma parse_cpu_parts_bounded parts cpus cpus' :
  parse_cpu_parts cpus parts = Ok cpus' → list_bounded cpus → list_bounded cpus'.
Proof.
  revert cpus. induction parts as [|part parts IH]; intros cpus Hp Hb; cbn in Hp; inv_res; [done|].
  eapply IH; [exact Hp|]. by eapply parse_cpu_part_bounded.
Qed.

Lemma strict_NoDup (l : list N) : StronglySorted N.lt l → NoDup l.
Proof.
  induction 1 as [|x l Hs IH Hf]; constructor; [|done]. intros Hx.
  rewrite Forall_forall in Hf. specialize (Hf _ Hx). lia.
Qed.

Lemma CpuSet_new_length l s : CpuSet.new l = Ok s → (CpuSet.len s ≤ length l)%nat.
Proof.
  intros Hs. destruct (proj1 (CpuSet_new_spec l) s Hs) as [Hso Hin]. unfold CpuSet.len.
  apply submseteq_length, NoDup_submseteq; [|by intros x ?%Hin].
  eapply strict_NoDup, Hso.
Qed.

Lemma parse_cpu_list_bounded_aux value s :
  parse_cpu_list value = Ok s → CpuSet.wf s ∧ N.of_nat (CpuSet.len s) ≤ CPUSET_CAPACITY_LIMIT.
Proof.
  unfold parse_cpu_list. case_bool_decide; [done|]. intros Hp. inv_res.
  match goal with Hc : parse_cpu_parts _ _ = _ |- _ => apply parse_cpu_parts_bounded in Hc as [Hl Hf]; [|by split] end.
  split; [by eapply CpuSet_new_Ok|]. apply CpuSet_new_length in Hp. lia.
Qed.

(** ** Printing and parsing *)

Definition hyphen : ascii := "-"%char.
Definition comma : ascii := ","%char.

Lemma render_range_lacks first last : lacks comma (render_range first last) = true.
Proof.
  unfold render_range. destruct (_ =? _); [by apply pretty_lacks|].
  unfold lacks. rewrite !all_chars_app. apply andb_true_iff. split; [by apply pretty_lacks|].
  apply andb_true_iff. split; [done|by apply pretty_lacks].
Qed.

Lemma render_range_graphic first last : all_chars graphic (render_range first last) = true.
Proof.
  unfold render_range. destruct (_ =? _); [apply pretty_graphic|].
  rewrite !all_chars_app, !pretty_graphic. done.
Qed.

Lemma pretty_nonempty (x : N) : ∃ c s, pretty x = String c s.
Proof. destruct (pretty_N_digits x) as [_ Hne]. destruct (pretty x); [done|eauto]. Qed.

Lemma render_range_nonempty first last : render_range first last ≠ ""%string.
Proof.
  unfold render_range. destruct (pretty_nonempty first) as (c & s & ->).
  destruct (_ =? _); [done|]. by rewrite str_cons_app.
Qed.

(** A printed range parses to its members. *)
Lemma parse_render_range cpus first last :
  first ≤ last → fits 32 last →
  N.of_nat (length cpus) + (last - first + 1) ≤ CPUSET_CAPACITY_LIMIT →
  parse_cpu_part cpus (render_range first last) = Ok (cpus ++ range_inclusive first last).
Proof.
  intros Hle Hfit Hlim. assert (fits 32 first) by (unfold fits in *; lia).
  unfold parse_cpu_part, parse_cpu. rewrite bool_decide_false by apply render_range_nonempty.
  assert (∀ l : list u32, N.of_nat (length l) ≤ CPUSET_CAPACITY_LIMIT →
    (if CPUSET_CAPACITY_LIMIT <? N.of_nat (length l) then Err too_large else Ok l) = @Ok SysboostError.t _ l) as Hok
    by (intros l Hl; by rewrite (proj2 (N.ltb_ge _ _) Hl)).
  unfold render_range. destruct (N.eqb_spec first last) as [->|Hne].
  - rewrite split_once_lacks by by apply pretty_lacks. rewrite parse_uint_pretty by done. cbn.
    rewrite Hok by (rewrite length_app; cbn; lia). do 2 f_equal.
    unfold range_inclusive. replace (N.to_nat _) with 1%nat by lia. cbn. f_equal. lia.
  - rewrite (split_once_app hyphen ""); [|by apply pretty_lacks].
    rewrite !parse_uint_pretty by done. cbn [ok_or mbind result_bind].
    rewrite (proj2 (N.ltb_ge _ _) Hle).
    rewrite (proj2 (N.ltb_ge CPUSET_CAPACITY_LIMIT (saturating_add64 _ _)));
      [|unfold saturating_add64; lia].
    apply Hok. rewrite length_app, range_inclusive_length. lia.
Qed.

(** The pieces of a rendered set, in order, give back its members. *)
Lemma parse_render_ranges rest : ∀ cpus first last,
  first ≤ last → StronglySorted N.lt (last :: rest) → Forall (fits 32) (last :: rest) →
  N.of_nat (length cpus) + (last - first + 1) + N.of_nat (length rest) ≤ CPUSET_CAPACITY_LIMIT →
  parse_cpu_parts cpus (render_ranges first last rest) = Ok (cpus ++ range_inclusive first last ++ rest).
Proof.
  induction rest as [|cpu rest IH]; intros cpus first last Hle Hs Hf Hlim; cbn [render_ranges].
  - cbn [parse_cpu_parts]. rewrite trim_graphic by apply render_range_graphic.
    apply Forall_cons in Hf as [Hl _]. cbn [length] in Hlim.
    rewrite parse_render_range by (done || lia). cbn. by rewrite app_nil_r.
  - apply StronglySorted_inv in Hs as [Hs Hlt]. apply Forall_cons in Hlt as [Hlt _].
    apply Forall_cons in Hf as [Hl Hf]. pose proof (proj1 (Forall_cons _ _ _) Hf) as [Hc _].
    unfold fits in Hl, Hc. cbn [length] in Hlim.
    replace (N.min (last + 1) (2 ^ 32 - 1)) with (last + 1) by lia.
    destruct (N.eqb_spec cpu (last + 1)) as [->|Hne].
    + rewrite IH by (done || lia). rewrite range_inclusive_snoc by done. by rewrite <-!app_assoc.
    + cbn [parse_cpu_parts]. rewrite trim_graphic by apply render_range_graphic.
      rewrite parse_render_range by (done || lia). cbn [mbind result_bind].
      rewrite IH; [|done..|rewrite length_app, range_inclusive_length; lia].
      rewrite <-!app_assoc. do 3 f_equal. unfold range_inclusive.
      replace (N.to_nat (cpu - cpu + 1)) with 1%nat by lia. cbn. f_equal. lia.
Qed.

Lemma join_graphic l :
  Forall (λ s, all_chars graphic s = true) l → all_chars graphic (join "," l) = true.
Proof.
  induction 1 as [|s l Hs Hl IH]; [done|]. destruct l as [|s' l]; [done|].
  change (join "," (s :: s' :: l)) with (s +:+ "," +:+ join "," (s' :: l)).
  by rewrite !all_chars_app, Hs, IH.
Qed.

Lemma render_ranges_all (P : string → Prop) rest : ∀ first last,
  (∀ first last, P (render_range first last)) →
  Forall P (render_ranges first last rest) ∧ render_ranges first last rest ≠ [].
Proof.
  induction rest as [|cpu rest IH]; intros first last HP; cbn [render_ranges]; [by split; [constructor|]|].
  destruct (_ =? _); [by apply IH|]. split; [|done]. constructor; [done|]. by apply IH.
Qed.

Lemma cpu_list_round_trip_aux s :
  CpuSet.wf s → N.of_nat (CpuSet.len s) ≤ CPUSET_CAPACITY_LIMIT →
  parse_cpu_list (render_cpu_set s) = Ok s.
Proof.
  intros Hw Hlen. pose proof (CpuSet_new_wf s Hw) as Hnew. destruct s as [[|cpu rest]].
  { by destruct Hw as (_ & ? & _). }
  destruct Hw as (Hs & _ & Hf). unfold CpuSet.len in Hlen. cbn [CpuSet.as_slice length] in *.
  unfold parse_cpu_list, render_cpu_set. cbn [CpuSet.as_slice].
  destruct (render_ranges_all (λ s, all_chars graphic s = true) rest cpu cpu render_range_graphic) as [Hg Hne].
  destruct (render_ranges_all (λ s, lacks comma s = true) rest cpu cpu render_range_lacks) as [Hl _].
  rewrite trim_graphic by by apply join_graphic.
  pose proof (split_on_join comma _ Hne Hl) as Hj. unfold comma in Hj.
  rewrite bool_decide_false.
  2: { intros He. rewrite He in Hj. cbn in Hj.
       destruct (render_ranges_all (.≠ ""%string) rest cpu cpu render_range_nonempty) as [Hn _].
       rewrite <-Hj in Hn. apply Forall_cons in Hn as [? _]. done. }
  rewrite Hj, parse_render_ranges by (done || cbn; lia).
  cbn [mbind result_bind app]. unfold range_inclusive.
  replace (N.to_nat (cpu - cpu + 1)) with 1%nat by lia. cbn [seq fmap list_fmap app]. change (N.of_nat 0) with 0.
  rewrite N.add_0_r. exact Hnew.
Qed.

(** A printed CPU set parses back to itself, and every list that parses is a
    canonical set within the bound. *)
Theorem cpu_list_round_trip s :
  CpuSet.wf s → N.of_nat (CpuSet.len s) ≤ CPUSET_CAPACITY_LIMIT →
  parse_cpu_list (render_cpu_set s) = Ok s
  ∧ ∀ value t, parse_cpu_list value = Ok t →
      CpuSet.wf t ∧ N.of_nat (CpuSet.len t) ≤ CPUSET_CAPACITY_LIMIT
      ∧ parse_cpu_list (render_cpu_set t) = Ok t.
Proof.
  intros Hw Hl. split; [by apply cpu_list_round_trip_aux|].
  intros value t Ht. destruct (parse_cpu_list_bounded_aux _ _ Ht).
  split_and!; [done..|]. by apply cpu_list_round_trip_aux.
Qed.

(** A NUMA node without CPUs, whose list the kernel shows empty, makes the
    whole topology an error. *)
Lemma memory_only_node_rejected facts nodes node :
  node ∈ nodes → node.(NumaNodeFacts.cpus) = Some ""%string →
  is_ok (from_facts facts (NumaFacts.mk nodes)) = false.
Proof.
  intros Hin Hempty. destruct (from_facts facts (NumaFacts.mk nodes)) as [x|] eqn:E; [|done].
  exfalso. unfold from_facts in E.
  do 5 apply bind_Ok in E as (? & _ & E). case_bool_decide; [done|].
  apply bind_Ok in E as (? & Hn & _). clear -Hin Hempty Hn. unfold normalize_numa in Hn. cbn in Hn.
  revert Hn. generalize (@nil (u32 * CpuSet.t)). induction nodes as [|n nodes IH]; [set_solver|].
  intros m Hn. cbn in Hn. apply elem_of_cons in Hin as [->|Hin].
  - by rewrite Hempty in Hn.
  - destruct (NumaNodeFacts.cpus n); [apply bind_Ok in Hn as (? & _ & Hn)|]; by eapply IH.
Qed.

(** * The normalized topology and its core groups

    What [from_facts] establishes: one record per CPU in increasing order,
    online flags and siblings that agree with the online set, NUMA nodes that
    agree with the node map, and performance classes only where the capacities
    prove them. *)
Local Open Scope N_scope.
Unset Default Proof Using.

Abbreviation cpu_id := CpuTopologyCpu.id.

Lemma has_cpu_true s c : has_cpu s c = true ↔ c ∈ s.(CpuSet.as_slice).
Proof. apply bool_decide_eq_true. Qed.
Lemma has_cpu_false s c : has_cpu s c = false ↔ c ∉ s.(CpuSet.as_slice).
Proof. apply bool_decide_eq_false. Qed.

(** ** Identifiers *)

Lemma set_extend_spec cpus : ∀ ids,
  StronglySorted N.lt ids →
  StronglySorted N.lt (set_extend ids cpus) ∧ (∀ c, c ∈ set_extend ids cpus ↔ c ∈ ids ∨ c ∈ cpus).
Proof.
  unfold set_extend. induction cpus as [|x cpus IH]; intros ids Hs; cbn [foldl]; [set_solver|].
  destruct (IH (set_insert x ids)) as [Hs' Hin]; [by apply set_insert_sorted|].
  split; [done|]. intros c. rewrite Hin, elem_of_set_insert. set_solver.
Qed.

Lemma topology_ids_spec possible online raw :
  StronglySorted N.lt (topology_ids possible online raw)
  ∧ ∀ c, c ∈ topology_ids possible online raw
      ↔ c ∈ set_slice possible ∨ c ∈ set_slice online ∨ c ∈ fst <$> raw.
Proof.
  unfold topology_ids.
  destruct (set_extend_spec (set_slice possible) []) as [H1 E1]; [constructor|].
  destruct (set_extend_spec (set_slice online) _ H1) as [H2 E2].
  destruct (set_extend_spec (fst <$> raw) _ H2) as [H3 E3].
  split; [done|]. intros c. rewrite E3, E2, E1. set_solver.
Qed.

(** The entries are found again under their CPU numbers. *)
Lemma raw_entries_spec entries : ∀ raw raw',
  try_fold insert_entry entries raw = Ok raw' →
  ∀ c e, map_get c raw' = Some e ↔ map_get c raw = Some e ∨ e ∈ entries ∧ e.(CpuTopologyEntry.cpu) = c.
Proof.
  induction entries as [|x entries IH]; intros raw raw' Hf c e; cbn in Hf; inv_res; [set_solver|].
  unfold insert_entry in *. destruct (is_some (map_get x.(CpuTopologyEntry.cpu) raw)) eqn:Hn; [done|]. inv_res.
  assert (map_get x.(CpuTopologyEntry.cpu) raw = None) as Hnew by (by destruct (map_get _ raw)).
  rewrite (IH _ _ Hf). destruct (decide (c = x.(CpuTopologyEntry.cpu))) as [->|Hne].
  - rewrite map_get_insert_eq, Hnew. set_solver.
  - rewrite map_get_insert_ne by done. set_solver.
Qed.

Lemma map_keys_get {V} (m : list (u32 * V)) c : c ∈ fst <$> m ↔ is_Some (map_get c m).
Proof.
  induction m as [|[k v] m IH]; cbn; [split; [set_solver|by intros [? ?]]|].
  destruct (cmp c k) eqn:E.
  - apply cmp_eq in E as ->. split; [eauto|set_solver].
  - rewrite elem_of_cons, IH. split; [intros [->|?]; [by rewrite cmp_refl in E|done]|auto].
  - rewrite elem_of_cons, IH. split; [intros [->|?]; [by rewrite cmp_refl in E|done]|auto].
Qed.

(** ** NUMA nodes *)

Lemma assign_node_spec node cpus : ∀ m m',
  try_fold (assign_cpu node) cpus m = Ok m' →
  ∀ c n, map_get c m' = Some n ↔ map_get c m = Some n ∨ n = node ∧ c ∈ cpus.
Proof.
  induction cpus as [|x cpus IH]; intros m m' Hf c n; cbn in Hf; inv_res; [set_solver|].
  unfold assign_cpu in *. destruct (is_some (map_get x m)) eqn:Hn; [done|]. inv_res.
  assert (map_get x m = None) as Hnew by (by destruct (map_get x m)).
  rewrite (IH _ _ Hf). destruct (decide (c = x)) as [->|Hne].
  - rewrite map_get_insert_eq, Hnew. set_solver.
  - rewrite map_get_insert_ne by done. set_solver.
Qed.

Lemma cpu_to_numa_spec nodes : ∀ m m',
  try_fold assign_node nodes m = Ok m' →
  ∀ c n, map_get c m' = Some n
      ↔ map_get c m = Some n ∨ ∃ cpus, (n, cpus) ∈ nodes ∧ c ∈ cpus.(CpuSet.as_slice).
Proof.
  induction nodes as [|[node cpus] nodes IH]; intros m m' Hf c n; cbn in Hf; inv_res; [set_solver|].
  rewrite (IH _ _ Hf). unfold assign_node in *. cbn [fst snd] in *.
  match goal with Ha : try_fold _ _ m = _ |- _ => rewrite (assign_node_spec _ _ _ _ Ha) end.
  set_solver.
Qed.

Lemma normalize_nodes_wf nodes : ∀ m m',
  normalize_nodes nodes m = Ok m' → map_sorted m → Forall (λ p, CpuSet.wf p.2) m →
  map_sorted m' ∧ Forall (λ p, CpuSet.wf p.2) m'.
Proof.
  induction nodes as [|node nodes IH]; intros m m' Hf Hs Hw; cbn in Hf; [by inv_res|].
  destruct (NumaNodeFacts.cpus node) as [cpus|]; [|by eapply IH]. inv_res.
  eapply IH; [exact Hf|by apply map_insert_sorted|].
  apply Forall_forall. rewrite Forall_forall in Hw.
  intros p [->|[[Hp _]|Hp]]%map_insert_elem; [|by apply Hw..].
  by eapply parse_cpu_list_bounded_aux.
Qed.

(** ** The invariant *)

Definition online_cpus (x : CpuTopology.t) : list u32 := set_slice x.(CpuTopology.online).
Definition is_online (x : CpuTopology.t) (c : CpuTopologyCpu.t) : Prop :=
  c ∈ x.(CpuTopology.cpus) ∧ c.(cpu_id) ∈ online_cpus x.

(** The classes claim no more than the capacities of the online CPUs
    prove. *)
Definition classes_proven (x : CpuTopology.t) : Prop :=
  match x.(CpuTopology.capacity_mode) with
  | CpuCapacityMode.HeterogeneousProven =>
    ∃ maximum,
      (∃ c d, is_online x c ∧ is_online x d
         ∧ c.(CpuTopologyCpu.capacity) = Some maximum
         ∧ d.(CpuTopologyCpu.capacity) ≠ Some maximum)
      ∧ ∀ c, is_online x c → ∃ capacity,
          c.(CpuTopologyCpu.capacity) = Some capacity ∧ 0 < capacity ≤ maximum
          ∧ c.(CpuTopologyCpu.performance_class)
            = if capacity =? maximum then CpuPerformanceClass.Performance
              else CpuPerformanceClass.Efficiency
  | CpuCapacityMode.Homogeneous =>
    (∃ capacity, 0 < capacity ∧ ∀ c, is_online x c → c.(CpuTopologyCpu.capacity) = Some capacity)
    ∧ ∀ c, c ∈ x.(CpuTopology.cpus) → c.(CpuTopologyCpu.performance_class) = CpuPerformanceClass.Unknown
  | CpuCapacityMode.Unknown =>
    ∀ c, c ∈ x.(CpuTopology.cpus) → c.(CpuTopologyCpu.performance_class) = CpuPerformanceClass.Unknown
  end.

(** The thread siblings of a CPU: those online, the CPU itself among them when
    it is online; an offline CPU without online siblings has itself only. *)
Definition siblings_ok (online : option CpuSet.t) (id : u32) (s : CpuSet.t) : Prop :=
  match online with
  | Some o => (∀ x, x ∈ s.(CpuSet.as_slice) → x ∈ o.(CpuSet.as_slice))
              ∧ (id ∈ o.(CpuSet.as_slice) → id ∈ s.(CpuSet.as_slice))
              ∨ id ∉ o.(CpuSet.as_slice) ∧ ∀ x, x ∈ s.(CpuSet.as_slice) ↔ x = id
  | None => id ∈ s.(CpuSet.as_slice)
  end.

Record normalized (x : CpuTopology.t) : Prop := {
  ids_increase : StronglySorted N.lt (cpu_id <$> x.(CpuTopology.cpus));
  ids_fit : Forall (fits 32) (cpu_id <$> x.(CpuTopology.cpus));
  online_wf : ∀ s, x.(CpuTopology.online) = Some s → CpuSet.wf s;
  online_known : ∀ c, c ∈ online_cpus x → c ∈ cpu_id <$> x.(CpuTopology.cpus);
  online_possible : ∀ p, x.(CpuTopology.possible) = Some p →
    CpuSet.wf p ∧ ∀ c, c ∈ online_cpus x → c ∈ p.(CpuSet.as_slice);
  online_flags : ∀ c, c ∈ x.(CpuTopology.cpus) →
    c.(CpuTopologyCpu.online) = true ↔ c.(cpu_id) ∈ online_cpus x;
  siblings_wf : ∀ c, c ∈ x.(CpuTopology.cpus) → CpuSet.wf c.(CpuTopologyCpu.thread_siblings);
  siblings_online : ∀ c, is_online x c →
    c.(cpu_id) ∈ c.(CpuTopologyCpu.thread_siblings).(CpuSet.as_slice)
    ∧ ∀ s, s ∈ c.(CpuTopologyCpu.thread_siblings).(CpuSet.as_slice) → s ∈ online_cpus x;
  siblings_hold : ∀ c, c ∈ x.(CpuTopology.cpus) →
    siblings_ok x.(CpuTopology.online) c.(cpu_id) c.(CpuTopologyCpu.thread_siblings);
  capacities_nonzero : ∀ c k, c ∈ x.(CpuTopology.cpus) → c.(CpuTopologyCpu.capacity) = Some k → 0 < k;
  numa_disjoint : ∀ n s n' s' cpu, (n, s) ∈ x.(CpuTopology.numa_nodes) → (n', s') ∈ x.(CpuTopology.numa_nodes) →
    cpu ∈ s.(CpuSet.as_slice) → cpu ∈ s'.(CpuSet.as_slice) → n = n';
  numa_agrees : ∀ c node, c ∈ x.(CpuTopology.cpus) →
    c.(CpuTopologyCpu.numa_node) = Some node
    ↔ ∃ s, (node, s) ∈ x.(CpuTopology.numa_nodes) ∧ c.(cpu_id) ∈ s.(CpuSet.as_slice);
  classes_hold : classes_proven x
}.

(** ** Capacity classes *)

Lemma sorted_last_max (l : list N) m :
  StronglySorted N.lt l → last l = Some m → m ∈ l ∧ ∀ k, k ∈ l → k ≤ m.
Proof.
  induction 1 as [|x l Hs IH Hf]; [done|]. destruct l as [|y l]; [intros [= ->]; set_solver|].
  intros Hl. destruct (IH Hl) as [Hin Hmax]. split; [set_solver|].
  rewrite Forall_forall in Hf. intros k [->|Hk]%elem_of_cons; [|by apply Hmax].
  apply Hf in Hin. lia.
Qed.

Lemma sorted_capacities_spec ks :
  StronglySorted N.lt (dedup (merge_sort N.le ks)) ∧ ∀ k, k ∈ dedup (merge_sort N.le ks) ↔ k ∈ ks.
Proof.
  destruct (dedup_sorted _ (merge_sort_sorted ks)) as [Hs Hin]. split; [done|].
  intros k. by rewrite Hin, (merge_sort_Permutation N.le ks).
Qed.

Lemma mapM_capacity l ks :
  mapM CpuTopologyCpu.capacity l = Some ks → CpuTopologyCpu.capacity <$> l = Some <$> ks.
Proof. intros Hm%mapM_Some_1. induction Hm; [done|]. cbn. by f_equal. Qed.

(** Classification changes classes only. *)
Definition same_but_class (c c' : CpuTopologyCpu.t) : Prop :=
  c' = CpuTopologyCpu.set_performance_class c'.(CpuTopologyCpu.performance_class) c.

Lemma same_but_class_refl c : same_but_class c c.
Proof. by destruct c. Qed.

Lemma classify_fields cpus online mode cpus' :
  classify_capacities cpus online = (mode, cpus') → Forall2 same_but_class cpus cpus'.
Proof.
  assert (Forall2 same_but_class cpus cpus) as Hrefl
    by (apply Forall_Forall2_diag, Forall_true, same_but_class_refl).
  unfold classify_capacities. destruct online as [online|]; [|by intros [= <- <-]].
  destruct (mapM _ _) as [ks|]; [|by intros [= <- <-]].
  case_bool_decide; [by intros [= <- <-]|]. destruct (Nat.eqb _ 1); [by intros [= <- <-]|].
  intros [= <- <-]. apply Forall2_fmap_r, Forall_Forall2_diag, Forall_true. intros c. unfold compose.
  unfold classify_cpu. destruct (negb _); [apply same_but_class_refl|]. by destruct c.
Qed.

(** The capacities seen, when every online CPU has one. *)
Lemma online_capacities cpus online ks :
  mapM CpuTopologyCpu.capacity (filter (λ c, has_cpu online c.(cpu_id) = true) cpus) = Some ks →
  (∀ c, c ∈ cpus → c.(cpu_id) ∈ online.(CpuSet.as_slice) →
    ∃ k, c.(CpuTopologyCpu.capacity) = Some k ∧ k ∈ ks)
  ∧ (∀ k, k ∈ ks → ∃ c, c ∈ cpus ∧ c.(cpu_id) ∈ online.(CpuSet.as_slice)
      ∧ c.(CpuTopologyCpu.capacity) = Some k).
Proof.
  intros Hm%mapM_capacity. split.
  - intros c Hc Ho. assert (c.(CpuTopologyCpu.capacity) ∈ Some <$> ks) as Hin.
    { rewrite <-Hm. apply list_elem_of_fmap. exists c. split; [done|].
      apply list_elem_of_filter. by rewrite has_cpu_true. }
    apply list_elem_of_fmap in Hin as (k & Hk & Hin). eauto.
  - intros k Hk. assert (Some k ∈ CpuTopologyCpu.capacity <$> filter (λ c, has_cpu online c.(cpu_id) = true) cpus) as Hin.
    { rewrite Hm. apply list_elem_of_fmap. eauto. }
    apply list_elem_of_fmap in Hin as (c & Hc & [Ho Hin]%list_elem_of_filter).
    apply has_cpu_true in Ho. eauto.
Qed.

Lemma classify_hetero online maximum c :
  c.(cpu_id) ∈ online.(CpuSet.as_slice) →
  (classify_cpu online maximum c).(CpuTopologyCpu.performance_class)
  = match c.(CpuTopologyCpu.capacity) with
    | Some capacity => if capacity =? maximum then CpuPerformanceClass.Performance
                       else CpuPerformanceClass.Efficiency
    | None => CpuPerformanceClass.Unknown
    end.
Proof. intros Ho%has_cpu_true. unfold classify_cpu. by rewrite Ho. Qed.

Lemma classify_cpu_fields online maximum c :
  (classify_cpu online maximum c).(cpu_id) = c.(cpu_id)
  ∧ (classify_cpu online maximum c).(CpuTopologyCpu.capacity) = c.(CpuTopologyCpu.capacity).
Proof. unfold classify_cpu. by destruct (negb _). Qed.

Lemma classified possible online cpus numa mode cpus' revision :
  classify_capacities cpus online = (mode, cpus') →
  (∀ s c, online = Some s → c ∈ s.(CpuSet.as_slice) → c ∈ cpu_id <$> cpus) →
  (∀ s, online = Some s → s.(CpuSet.as_slice) ≠ []) →
  (∀ c, c ∈ cpus → c.(CpuTopologyCpu.performance_class) = CpuPerformanceClass.Unknown) →
  (∀ c k, c ∈ cpus → c.(CpuTopologyCpu.capacity) = Some k → 0 < k) →
  classes_proven (CpuTopology.mk possible online cpus' numa mode revision).
Proof.
  intros Hc Hknown Hne Hclass Hpos. unfold classify_capacities in Hc.
  destruct online as [online|]; [|injection Hc as <- <-; exact Hclass].
  destruct (mapM _ _) as [ks|] eqn:Hm; [|injection Hc as <- <-; exact Hclass].
  case_bool_decide as Hz; [injection Hc as <- <-; exact Hclass|].
  apply online_capacities in Hm as [Hto Hfrom].
  pose proof (λ c, Hknown online c eq_refl) as Hkn. clear Hknown. rename Hkn into Hknown. specialize (Hne online eq_refl).
  assert (∃ k, k ∈ ks) as [k0 Hk0].
  { destruct (CpuSet.as_slice online) as [|o l] eqn:El; [done|].
    assert (o ∈ cpu_id <$> cpus) as (c & -> & Hin)%list_elem_of_fmap by (apply Hknown; set_solver).
    destruct (Hto c Hin) as (k & _ & ?); [set_solver|eauto]. }
  destruct (sorted_capacities_spec ks) as [Hs Hks]. set (ds := dedup (merge_sort N.le ks)) in *.
  apply Hks in Hk0. destruct ds as [|d ds]; [set_solver|]. cbn [length Nat.eqb] in Hc.
  destruct ds as [|d' ds].
  - injection Hc as <- <-. cbn. split; [|exact Hclass]. exists d.
    assert (d ∈ ks) as Hd by (apply Hks; set_solver). split.
    + destruct (Hfrom d Hd) as (c & Hin & _ & Hcap). by eapply Hpos.
    + intros c [Hin Ho]. destruct (Hto c Hin Ho) as (k & -> & Hk). f_equal. apply Hks in Hk. set_solver.
  - destruct (last (d :: d' :: ds)) as [m|] eqn:Hl; [|by apply last_None in Hl].
    destruct (sorted_last_max _ _ Hs Hl) as [Hm Hmax].
    cbn [length Nat.eqb default from_option id] in Hc. injection Hc as <- <-. exists m.
    assert (∀ c, c ∈ cpus → c.(cpu_id) ∈ online.(CpuSet.as_slice) →
      is_online (CpuTopology.mk possible (Some online) (classify_cpu online m <$> cpus) numa
        CpuCapacityMode.HeterogeneousProven revision) (classify_cpu online m c)) as Hon.
    { intros c Hin Ho. split; cbn; [by apply list_elem_of_fmap_2|].
      by rewrite (proj1 (classify_cpu_fields _ _ _)). }
    split.
    + assert (d ≠ m) as Hdm.
      { apply StronglySorted_inv in Hs as [_ Hf]. rewrite Forall_forall in Hf.
        assert (m ∈ d' :: ds) as Hin%Hf by (by apply last_Some_elem_of). lia. }
      destruct (Hfrom m) as (c & Hc1 & Hc2 & Hc3); [by apply Hks|].
      destruct (Hfrom d) as (e & He1 & He2 & He3); [apply Hks; set_solver|].
      exists (classify_cpu online m c), (classify_cpu online m e).
      rewrite !(proj2 (classify_cpu_fields _ _ _)), Hc3, He3.
      split_and!; [by apply Hon..|done|congruence].
    + intros c' [(c & -> & Hin)%list_elem_of_fmap Ho]. cbn in Ho.
      rewrite (proj1 (classify_cpu_fields _ _ _)) in Ho.
      rewrite (proj2 (classify_cpu_fields _ _ _)), classify_hetero by done.
      destruct (Hto c Hin Ho) as (k & Hk & Hkk). exists k. rewrite Hk. split_and!; [done| |by apply Hmax, Hks|done].
      by eapply Hpos.
Qed.

(** ** Normalization *)

Lemma parse_optional_wf v o s : parse_optional v = Ok o → o = Some s → CpuSet.wf s.
Proof.
  unfold parse_optional. destruct v; intros Hp ->; inv_res; simplify_eq.
  by eapply parse_cpu_list_bounded_aux.
Qed.

Lemma normal_siblings_spec online id siblings s :
  normal_siblings online id siblings = Ok s → fits 32 id →
  (∀ s, siblings = Some s → CpuSet.wf s ∧ id ∈ s.(CpuSet.as_slice)) →
  CpuSet.wf s
  ∧ ∀ o, online = Some o → id ∈ o.(CpuSet.as_slice) →
      id ∈ s.(CpuSet.as_slice) ∧ ∀ x, x ∈ s.(CpuSet.as_slice) → x ∈ o.(CpuSet.as_slice).
Proof.
  intros Hs Hid Hsib. unfold normal_siblings in Hs. destruct online as [o|].
  2: { split; [|done]. destruct siblings as [s'|]; [inv_res; by apply Hsib|].
       eapply CpuSet_new_Ok; [exact Hs|by repeat constructor]. }
  set (l := filter (λ cpu, has_cpu o cpu = true) (set_slice siblings)) in Hs.
  assert (∀ x, x ∈ l ↔ x ∈ set_slice siblings ∧ x ∈ o.(CpuSet.as_slice)) as Hl.
  { intros x. unfold l. rewrite list_elem_of_filter, has_cpu_true. tauto. }
  destruct (proj1 (CpuSet_new_spec _) _ Hs) as [_ Hin]. split.
  - eapply CpuSet_new_Ok; [exact Hs|]. case_bool_decide; [by repeat constructor|].
    apply Forall_forall. intros x [Hx _]%Hl. destruct siblings as [s'|]; [|set_solver].
    destruct (Hsib _ eq_refl) as [(_ & _ & Hf) _]. rewrite Forall_forall in Hf. by apply Hf.
  - intros o' [= <-] Ho. case_bool_decide as Hn.
    + split; [apply Hin; set_solver|]. by intros x Hx%Hin%list_elem_of_singleton; subst.
    + split; [|by intros x [_ Hx]%Hin%Hl].
      apply Hin, Hl. split; [|done]. destruct siblings as [s'|]; [by apply Hsib|].
      exfalso. apply Hn, elem_of_nil_inv. intros x [Hx _]%Hl. set_solver.
Qed.

Lemma normal_siblings_ok online id siblings s :
  normal_siblings online id siblings = Ok s →
  (∀ s, siblings = Some s → id ∈ s.(CpuSet.as_slice)) → siblings_ok online id s.
Proof.
  intros Hs Hsib. unfold normal_siblings in Hs. destruct online as [o|]; cbn [siblings_ok].
  2: { destruct siblings as [s'|]; [inv_res; by apply Hsib|].
       apply (proj1 (CpuSet_new_spec _)) in Hs as [_ Hin]. apply Hin. set_solver. }
  destruct (proj1 (CpuSet_new_spec _) _ Hs) as [_ Hin]. case_bool_decide as Hn.
  - assert (∀ x, x ∈ s.(CpuSet.as_slice) ↔ x = id) as Hs' by (intros x; by rewrite Hin, list_elem_of_singleton).
    destruct (decide (id ∈ o.(CpuSet.as_slice))); [left|by right].
    split; [by intros x ->%Hs'|intros _; by apply Hs'].
  - left. setoid_rewrite Hin. setoid_rewrite list_elem_of_filter. setoid_rewrite has_cpu_true.
    split; [tauto|]. intros Ho. split; [done|]. destruct siblings as [s'|]; [by apply Hsib|].
    destruct Hn. done.
Qed.

(** What one record holds, its class apart. *)
Definition record_ok (online : option CpuSet.t) (raw : list (u32 * CpuTopologyEntry.t))
    (numa : list (u32 * u32)) (c : CpuTopologyCpu.t) : Prop :=
  c.(CpuTopologyCpu.numa_node) = map_get c.(cpu_id) numa
  ∧ (∀ k, c.(CpuTopologyCpu.capacity) = Some k → 0 < k)
  ∧ (c.(CpuTopologyCpu.online) = true
     ↔ match online with
       | Some o => c.(cpu_id) ∈ o.(CpuSet.as_slice)
       | None => ∃ e, map_get c.(cpu_id) raw = Some e ∧ e.(CpuTopologyEntry.online) = true
       end)
  ∧ CpuSet.wf c.(CpuTopologyCpu.thread_siblings)
  ∧ siblings_ok online c.(cpu_id) c.(CpuTopologyCpu.thread_siblings)
  ∧ ∀ o, online = Some o → c.(cpu_id) ∈ o.(CpuSet.as_slice) →
      c.(cpu_id) ∈ c.(CpuTopologyCpu.thread_siblings).(CpuSet.as_slice)
      ∧ ∀ x, x ∈ c.(CpuTopologyCpu.thread_siblings).(CpuSet.as_slice) → x ∈ o.(CpuSet.as_slice).

Lemma normalize_cpu_spec online raw numa id c :
  normalize_cpu online raw numa id = Ok c → fits 32 id →
  c.(cpu_id) = id ∧ c.(CpuTopologyCpu.performance_class) = CpuPerformanceClass.Unknown
  ∧ record_ok online raw numa c.
Proof.
  unfold normalize_cpu. intros Hc Hid. apply bind_Ok in Hc as (sib & Hp & Hc).
  destruct (match sib with Some s => negb (has_cpu s id) | None => false end) eqn:Hown; [done|].
  apply bind_Ok in Hc as (s & Hs & Hc). injection Hc as <-.
  assert (∀ s', sib = Some s' → id ∈ s'.(CpuSet.as_slice)) as Hself
    by (intros s' ->; by apply has_cpu_true, negb_false_iff).
  pose proof (normal_siblings_ok _ _ _ _ Hs Hself) as Hok.
  apply normal_siblings_spec in Hs as [Hw Ho]; [|done|].
  2: { intros s' ->. split; [by eapply parse_optional_wf|by apply Hself]. }
  unfold record_ok. cbn. split_and!; [done..| | |done|done|done].
  - intros k. destruct (map_get id raw) as [e|]; [|done]. cbn.
    destruct (CpuTopologyEntry.capacity e) as [v|]; [|done].
    destruct (N.ltb_spec 0 v); [|done]. by intros [= <-].
  - destruct online as [o|]; cbn; [by rewrite orb_false_r, has_cpu_true|].
    destruct (map_get id raw) as [e|]; naive_solver.
Qed.

Lemma record_ok_same online raw numa c c' :
  same_but_class c c' → record_ok online raw numa c → record_ok online raw numa c'.
Proof. by intros ->. Qed.

(** The online set: parsed, or inferred from the entries. *)
Lemma online_spec facts declared inferred :
  CpuTopologyFacts.wf facts →
  parse_optional facts.(CpuTopologyFacts.online) = Ok declared →
  inferred_online declared facts.(CpuTopologyFacts.entries) = Ok inferred →
  match match declared with Some _ => declared | None => inferred end with
  | Some s => CpuSet.wf s
  | None => ∀ e, e ∈ facts.(CpuTopologyFacts.entries) → e.(CpuTopologyEntry.online) = false
  end.
Proof.
  intros Hw Hd Hi. destruct declared as [s|]; [by eapply parse_optional_wf|].
  unfold inferred_online in Hi. cbn [is_none] in Hi.
  set (l := filter (λ e, CpuTopologyEntry.online e = true) _) in Hi.
  case_bool_decide as Hn; inv_res.
  - intros e He. apply not_true_is_false. intros Ho. apply fmap_nil_inv in Hn.
    assert (e ∈ l) as Hel by (by apply list_elem_of_filter). rewrite Hn in Hel. set_solver.
  - eapply CpuSet_new_Ok; [done|]. apply Forall_fmap, Forall_forall.
    unfold CpuTopologyFacts.wf in Hw. rewrite Forall_forall in Hw.
    intros e [_ He]%list_elem_of_filter. by apply Hw.
Qed.

(** The records of a successful traversal, before and after
    classification. *)
Lemma classified_records {online raw numa ids cpus mode cpus'} :
  mapM (normalize_cpu online raw numa) ids = Ok cpus →
  classify_capacities cpus online = (mode, cpus') → Forall (fits 32) ids →
  cpu_id <$> cpus = ids ∧ cpu_id <$> cpus' = ids
  ∧ Forall (λ c, c.(CpuTopologyCpu.performance_class) = CpuPerformanceClass.Unknown
                 ∧ record_ok online raw numa c) cpus
  ∧ Forall (record_ok online raw numa) cpus'.
Proof.
  intros Hm%mapM_Forall2 Hc%classify_fields Hf.
  assert (cpu_id <$> cpus = ids
    ∧ Forall (λ c, c.(CpuTopologyCpu.performance_class) = CpuPerformanceClass.Unknown
                   ∧ record_ok online raw numa c) cpus) as [Hids Hcpus].
  { clear Hc. induction Hm as [|id c ids cpus Hn Hm IH]; [done|].
    apply Forall_cons in Hf as [Hid Hf]. destruct (IH Hf) as [Hids Hcpus].
    destruct (normalize_cpu_spec _ _ _ _ _ Hn Hid) as (Hi & Hu & Hr). cbn. rewrite Hids, Hi.
    split; [done|]. by constructor. }
  split_and!; [done| |done|].
  - rewrite <-Hids. clear -Hc. induction Hc as [|c c' l l' Hcc Hl IH]; [done|].
    cbn. rewrite IH. f_equal. by rewrite Hcc.
  - clear -Hc Hcpus. induction Hc as [|c c' l l' Hcc Hl IH]; [constructor|].
    apply Forall_cons in Hcpus as [[_ Hr] Hcpus]. constructor; [|by apply IH].
    by eapply record_ok_same.
Qed.

Lemma set_slice_fits o : (∀ s, o = Some s → CpuSet.wf s) → Forall (fits 32) (set_slice o).
Proof. destruct o as [s|]; [|constructor]. intros Hw. by apply (Hw s). Qed.

(** The identifiers of the topology fit 32 bits. *)
Lemma topology_ids_fit facts possible online raw :
  CpuTopologyFacts.wf facts → try_fold insert_entry facts.(CpuTopologyFacts.entries) [] = Ok raw →
  (∀ s, possible = Some s → CpuSet.wf s) → (∀ s, online = Some s → CpuSet.wf s) →
  Forall (fits 32) (topology_ids possible online raw).
Proof.
  intros Hw Hraw Hp%set_slice_fits Ho%set_slice_fits.
  unfold CpuTopologyFacts.wf in Hw. rewrite !Forall_forall in *.
  intros c [Hc|[Hc|Hc]]%topology_ids_spec; [auto..|].
  apply map_keys_get in Hc as [e He]. apply (raw_entries_spec _ _ _ Hraw) in He as [He|[He <-]]; [done|].
  by apply Hw.
Qed.

(** The record assembled from checked parts. *)
Lemma assembled_normalized possible online raw nodes numa_of cpus mode cpus' revision :
  (∀ s, possible = Some s → CpuSet.wf s) → (∀ s, online = Some s → CpuSet.wf s) →
  check_online possible online = Ok tt →
  (online = None → ∀ c e, map_get c raw = Some e → e.(CpuTopologyEntry.online) = false) →
  map_sorted nodes → try_fold assign_node nodes [] = Ok numa_of →
  Forall (fits 32) (topology_ids possible online raw) →
  mapM (normalize_cpu online raw numa_of) (topology_ids possible online raw) = Ok cpus →
  classify_capacities cpus online = (mode, cpus') →
  normalized (CpuTopology.mk possible online cpus' nodes mode revision).
Proof.
  intros Hpwf Howf Hcheck Hoff Hsort Hnuma Hfit Hcpus Hcl.
  destruct (topology_ids_spec possible online raw) as [Hsorted Hids].
  destruct (classified_records Hcpus Hcl Hfit) as (Hi & Hi' & Hrec & Hrec').
  rewrite Forall_forall in Hrec, Hrec'.
  assert (∀ c, c ∈ set_slice online → c ∈ topology_ids possible online raw) as Hknown
    by (intros c Hc; apply Hids; auto).
  split; cbn [CpuTopology.possible CpuTopology.online CpuTopology.cpus CpuTopology.numa_nodes].
  - by rewrite Hi'.
  - by rewrite Hi'.
  - exact Howf.
  - intros c Hc. rewrite Hi'. by apply Hknown.
  - intros p ->. split; [by apply Hpwf|]. unfold online_cpus; cbn [CpuTopology.online].
    destruct online as [o|]; [|set_solver]. cbn [check_online] in Hcheck. apply ensure_Ok in Hcheck.
    rewrite forallb_forall in Hcheck. intros c Hc%list_elem_of_In%Hcheck. by apply has_cpu_true.
  - intros c Hc. destruct (Hrec' c Hc) as (_ & _ & Hflag & _). rewrite Hflag.
    unfold online_cpus; cbn [CpuTopology.online]. destruct online as [o|]; [done|].
    split; [|set_solver]. intros (e & He & Hon). by rewrite (Hoff eq_refl _ _ He) in Hon.
  - intros c Hc. by apply (Hrec' c Hc).
  - intros c [Hc Ho]. cbn in Hc, Ho. destruct (Hrec' c Hc) as (_ & _ & _ & _ & _ & Hsib).
    unfold online_cpus in *; cbn [CpuTopology.online] in *. destruct online as [o|]; [|set_solver].
    by apply (Hsib o).
  - intros c Hc. by apply (Hrec' c Hc).
  - intros c k Hc. by apply (Hrec' c Hc).
  - intros n s n' s' cpu Hn Hn' Hs Hs'.
    assert (map_get cpu numa_of = Some n ∧ map_get cpu numa_of = Some n') as [H1 H2]
      by (rewrite !(cpu_to_numa_spec _ _ _ Hnuma); split; right; eauto).
    congruence.
  - intros c node Hc. destruct (Hrec' c Hc) as [-> _].
    rewrite (cpu_to_numa_spec _ _ _ Hnuma). set_solver.
  - eapply classified; [exact Hcl|..].
    + intros s c -> Hc. rewrite Hi. by apply Hknown.
    + intros s Hs. by apply Howf.
    + intros c Hc. by apply Hrec.
    + intros c k Hc. by apply Hrec.
Qed.

Lemma from_facts_normalized facts numa x :
  CpuTopologyFacts.wf facts → from_facts facts numa = Ok x → normalized x.
Proof.
  intros Hw Hf. unfold from_facts in Hf.
  apply bind_Ok in Hf as (possible & Hpossible & Hf). apply bind_Ok in Hf as (declared & Hdecl & Hf).
  apply bind_Ok in Hf as (inferred & Hinf & Hf). apply bind_Ok in Hf as ([] & Hcheck & Hf).
  apply bind_Ok in Hf as (raw & Hraw & Hf). case_bool_decide; [done|].
  pose proof (online_spec _ _ _ Hw Hdecl Hinf) as Hon.
  set (online := match declared with Some _ => declared | None => inferred end) in *.
  apply bind_Ok in Hf as (nodes & Hnodes & Hf). apply bind_Ok in Hf as (numa_of & Hnuma & Hf).
  apply bind_Ok in Hf as (cpus & Hcpus & Hf).
  destruct (classify_capacities cpus online) as [mode cpus'] eqn:Hcl. injection Hf as <-.
  assert (∀ s, online = Some s → CpuSet.wf s) as Howf by (intros s E; by rewrite E in Hon).
  assert (∀ s, possible = Some s → CpuSet.wf s) as Hpwf by (intros s; by apply parse_optional_wf with (1 := Hpossible)).
  eapply assembled_normalized; [done..| | |exact Hnuma| |exact Hcpus|exact Hcl].
  - intros E c e He. rewrite E in Hon. apply Hon.
    by apply (raw_entries_spec _ _ _ Hraw) in He as [He|[He _]].
  - by apply (normalize_nodes_wf _ _ _ Hnodes); constructor.
  - by eapply topology_ids_fit.
Qed.

(** C25. Normalization: every accepted set of facts gives a topology with its
    invariant, and the topology has exactly the CPUs the facts name.  The
    invariant: distinct sorted CPUs; the online ones known and possible; the
    siblings of an online CPU contain it and are online, those of an offline
    one are online or itself alone; no capacity is zero; the nodes of NUMA do
    not overlap and agree with the CPUs' records; the performance classes are
    proven by the capacities. *)
Theorem normalization_sound facts numa x :
  CpuTopologyFacts.wf facts → from_facts facts numa = Ok x →
  normalized x
  ∧ ∀ c, c ∈ cpu_id <$> x.(CpuTopology.cpus)
      ↔ c ∈ set_slice x.(CpuTopology.possible) ∨ c ∈ online_cpus x
        ∨ ∃ e, e ∈ facts.(CpuTopologyFacts.entries) ∧ e.(CpuTopologyEntry.cpu) = c.
Proof.
  intros Hw Hf. split; [by eapply from_facts_normalized|]. unfold from_facts in Hf.
  apply bind_Ok in Hf as (possible & Hpossible & Hf). apply bind_Ok in Hf as (declared & Hdecl & Hf).
  apply bind_Ok in Hf as (inferred & Hinf & Hf). apply bind_Ok in Hf as ([] & Hcheck & Hf).
  apply bind_Ok in Hf as (raw & Hraw & Hf). case_bool_decide; [done|].
  pose proof (online_spec _ _ _ Hw Hdecl Hinf) as Hon.
  set (online := match declared with Some _ => declared | None => inferred end) in *.
  apply bind_Ok in Hf as (nodes & Hnodes & Hf). apply bind_Ok in Hf as (numa_of & Hnuma & Hf).
  apply bind_Ok in Hf as (cpus & Hcpus & Hf).
  destruct (classify_capacities cpus online) as [mode cpus'] eqn:Hcl. injection Hf as <-.
  unfold online_cpus. cbn [CpuTopology.possible CpuTopology.online CpuTopology.cpus].
  assert (Forall (fits 32) (topology_ids possible online raw)) as Hfit.
  { eapply topology_ids_fit; [done..| |].
    - intros s. by apply parse_optional_wf with (1 := Hpossible).
    - intros s E. by rewrite E in Hon. }
  destruct (classified_records Hcpus Hcl Hfit) as (_ & -> & _).
  intros c. rewrite (proj2 (topology_ids_spec possible online raw)).
  rewrite map_keys_get. unfold is_Some. setoid_rewrite (raw_entries_spec _ _ _ Hraw). cbn. naive_solver.
Qed.

(** * Core groups partition the online CPUs

    The groups of a normalized topology are the classes of the online CPUs
    under [core_key], and every online CPU is in exactly one of them. *)
Local Open Scope N_scope.
Unset Default Proof Using.

Abbreviation slice g := ((CpuCoreGroup.cpus g).(CpuSet.as_slice)).

(** ** The map of groups *)

(** Replacing the value of a key. *)
Lemma map_insert_replace {K V} `{!Ord K, !OrdLaws K} (k : K) (v v' : V) m :
  map_get k m = Some v → map_sorted m →
  ∃ rest, m ≡ₚ (k, v) :: rest ∧ map_insert k v' m ≡ₚ (k, v') :: rest.
Proof.
  unfold map_sorted. induction m as [|[k1 v1] m IH]; cbn; intros Hg Hs; [done|].
  apply StronglySorted_inv in Hs as [Hs Hf]. destruct (cmp k k1) eqn:E.
  - apply cmp_eq in E as ->. injection Hg as ->. by exists m.
  - apply map_get_elem in Hg; [|done]. rewrite Forall_forall in Hf. specialize (Hf _ Hg).
    unfold key_lt in Hf. cbn in Hf. apply cmp_gt_lt in Hf. by rewrite E in Hf.
  - destruct (IH Hg Hs) as (rest & H1 & H2). exists ((k1, v1) :: rest).
    split; [rewrite H1|rewrite H2]; apply Permutation_swap.
Qed.

(** The groups collected from [cpus]. *)
Definition groups_of (gs : list (CoreKey.t * list CpuTopologyCpu.t)) (cpus : list CpuTopologyCpu.t) : Prop :=
  map_sorted gs ∧ concat (map_values gs) ≡ₚ cpus
  ∧ Forall (λ '(k, ms), ms ≠ [] ∧ Forall (λ c, core_key c = k) ms) gs.

Lemma group_push_spec gs cpus c : groups_of gs cpus → groups_of (group_push gs c) (c :: cpus).
Proof.
  intros (Hs & Hp & Hf). unfold group_push, groups_of, map_values in *.
  split; [by apply map_insert_sorted|].
  destruct (map_get (core_key c) gs) as [ms|] eqn:Hg; cbn [default from_option id].
  - destruct (map_insert_replace _ _ (ms ++ [c]) _ Hg Hs) as (rest & Hgs & Hins).
    rewrite Hgs in Hp, Hf. rewrite Hins. cbn in *. split.
    + rewrite <-Hp, <-app_assoc. symmetry. apply Permutation_middle.
    + apply Forall_cons in Hf as [[Hne Hk] Hf]. constructor; [|done]. split; [by destruct ms|].
      apply Forall_app. by split; [|repeat constructor].
  - rewrite map_insert_new by done. cbn. split; [by rewrite Hp|].
    constructor; [|done]. by split; [|repeat constructor].
Qed.

Lemma groups_fold cpus : ∀ gs past, groups_of gs past → groups_of (foldl group_push gs cpus) (cpus ++ past).
Proof.
  induction cpus as [|c cpus IH]; intros gs past Hg; cbn; [exact Hg|].
  destruct (IH _ _ (group_push_spec _ _ c Hg)) as (H1 & H2 & H3). split; [done|].
  split; [|done]. rewrite H2. symmetry. apply Permutation_middle.
Qed.

(** ** One group *)

Lemma core_group_spec ms :
  ms ≠ [] → NoDup (cpu_id <$> ms) → Forall (fits 32) (cpu_id <$> ms) →
  ∃ g, core_group ms = Some g ∧ CpuSet.wf g.(CpuCoreGroup.cpus) ∧ slice g ≡ₚ cpu_id <$> ms
    ∧ (∀ c, c ∈ ms → g.(CpuCoreGroup.performance_class) = c.(CpuTopologyCpu.performance_class)
         ∨ g.(CpuCoreGroup.performance_class) = CpuPerformanceClass.Unknown)
    ∧ (∀ node c, g.(CpuCoreGroup.numa_node) = Some node → c ∈ ms → c.(CpuTopologyCpu.numa_node) = Some node).
Proof.
  intros Hne Hnd Hf. unfold core_group.
  assert (∀ c, c ∈ sort_by (cmp_by cpu_id) ms ↔ c ∈ ms) as Hel by (intros; apply sort_by_elem).
  assert (cpu_id <$> sort_by (cmp_by cpu_id) ms ≡ₚ cpu_id <$> ms) as Hp by (by rewrite sort_by_perm).
  set (l := sort_by (cmp_by cpu_id) ms) in *.
  destruct (CpuSet.new (cpu_id <$> l)) as [s|e] eqn:Hs.
  2: { exfalso. destruct (CpuSet_new_spec (cpu_id <$> l)) as [_ Hok]. rewrite Hs in Hok. cbn in Hok.
       destruct ms as [|m ms]; [done|].
       assert (cpu_id <$> l ≠ []) as Hk%Hok; [|done].
       intros Hl. rewrite Hl in Hp. by apply Permutation_nil_cons in Hp. }
  eexists. split; [reflexivity|]. cbn.
  destruct (proj1 (CpuSet_new_spec _) _ Hs) as [Hso Hin]. split_and!.
  - eapply CpuSet_new_Ok; [exact Hs|]. by rewrite Hp.
  - apply NoDup_Permutation; [by apply strict_NoDup|done|]. intros x. by rewrite Hin, Hp.
  - intros c Hc. destruct (head l) as [m|]; [|by right].
    destruct (forallb _ l) eqn:Hall; [|by right]. left. rewrite forallb_forall in Hall.
    apply Hel, list_elem_of_In, Hall, bool_decide_eq_true in Hc. done.
  - intros node c Hnode Hc. destruct (head l ≫= CpuTopologyCpu.numa_node) as [n|]; [|done].
    destruct (forallb _ l) eqn:Hall; [|done]. injection Hnode as ->. rewrite forallb_forall in Hall.
    by apply Hel, list_elem_of_In, Hall, bool_decide_eq_true in Hc.
Qed.

(** ** All groups *)

(** The groups are the classes of the online CPUs under [core_key]. *)
Record grouped (x : CpuTopology.t) (groups : list CpuCoreGroup.t) : Prop := {
  groups_partition : concat ((λ g, slice g) <$> groups) ≡ₚ online_cpus x;
  groups_wf : ∀ g, g ∈ groups → CpuSet.wf g.(CpuCoreGroup.cpus);
  groups_key : ∀ g, g ∈ groups → ∃ k, ∀ d, is_online x d → d.(cpu_id) ∈ slice g ↔ core_key d = k;
  groups_class : ∀ g c, g ∈ groups → is_online x c → c.(cpu_id) ∈ slice g →
    g.(CpuCoreGroup.performance_class) = c.(CpuTopologyCpu.performance_class)
    ∨ g.(CpuCoreGroup.performance_class) = CpuPerformanceClass.Unknown
}.

Section Groups.
Variables (x : CpuTopology.t) (online : CpuSet.t).
Hypothesis Hnorm : normalized x.
Hypothesis Honline : x.(CpuTopology.online) = Some online.

Definition online_records : list CpuTopologyCpu.t :=
  filter (λ c, has_cpu online c.(cpu_id) = true) x.(CpuTopology.cpus).

Lemma online_records_elem c : c ∈ online_records ↔ is_online x c.
Proof.
  unfold online_records, is_online, online_cpus. rewrite Honline, list_elem_of_filter, has_cpu_true.
  cbn. tauto.
Qed.

Lemma ids_NoDup : NoDup (cpu_id <$> x.(CpuTopology.cpus)).
Proof. apply strict_NoDup, Hnorm. Qed.

(** A CPU number names one record. *)
Lemma id_unique c d :
  c ∈ x.(CpuTopology.cpus) → d ∈ x.(CpuTopology.cpus) → c.(cpu_id) = d.(cpu_id) → c = d.
Proof.
  intros [i Hi]%list_elem_of_lookup [j Hj]%list_elem_of_lookup E.
  assert (i = j) as ->; [|congruence].
  eapply NoDup_lookup; [apply ids_NoDup|rewrite list_lookup_fmap, Hi; reflexivity|].
  by rewrite list_lookup_fmap, Hj, E.
Qed.

Lemma online_ids_NoDup : NoDup (cpu_id <$> online_records).
Proof.
  apply NoDup_fmap_2_strong.
  - intros c d [Hc _]%online_records_elem [Hd _]%online_records_elem. by apply id_unique.
  - apply NoDup_filter. eapply NoDup_fmap_1, ids_NoDup.
Qed.

Lemma online_ids : cpu_id <$> online_records ≡ₚ online_cpus x.
Proof.
  apply NoDup_Permutation; [apply online_ids_NoDup| |].
  - unfold online_cpus. rewrite Honline. by apply strict_NoDup, (online_wf x Hnorm).
  - intros i. rewrite list_elem_of_fmap. split.
    + by intros (c & -> & [_ Hc]%online_records_elem).
    + intros Hi. destruct (proj1 (list_elem_of_fmap _ _ _) (online_known x Hnorm i Hi)) as (c & -> & Hc).
      exists c. by rewrite online_records_elem.
Qed.

Lemma groups_collected : groups_of (foldl group_push [] online_records) online_records.
Proof.
  rewrite <-(app_nil_r online_records) at 2. apply groups_fold.
  split; [constructor|]. split; [done|constructor].
Qed.

Lemma members_good k ms :
  (k, ms) ∈ foldl group_push [] online_records →
  ms ≠ [] ∧ (∀ c, c ∈ ms ↔ is_online x c ∧ core_key c = k)
  ∧ NoDup (cpu_id <$> ms) ∧ Forall (fits 32) (cpu_id <$> ms).
Proof.
  intros Hin. destruct groups_collected as (Hs & Hp & Hf). rewrite Forall_forall in Hf.
  destruct (Hf _ Hin) as [Hne Hk]. rewrite Forall_forall in Hk.
  assert (ms ⊆ online_records) as Hsub.
  { intros c Hc. rewrite <-Hp. apply list_elem_of_In, in_concat. exists ms.
    rewrite <-!list_elem_of_In. split; [|done]. by apply (list_elem_of_fmap_2 snd _ (k, ms)). }
  split_and!; [done| | |].
  - intros c. split; [intros Hc; split; [by apply online_records_elem, Hsub|by apply Hk]|].
    intros [Ho E]. apply online_records_elem in Ho. rewrite <-Hp in Ho.
    apply list_elem_of_In, in_concat in Ho as (ms' & Hms'%list_elem_of_In & Hc%list_elem_of_In).
    apply list_elem_of_fmap in Hms' as ([k' ms''] & -> & Hin'). destruct (Hf _ Hin') as [_ Hk'].
    rewrite Forall_forall in Hk'. assert (k' = k) as -> by (rewrite <-(Hk' c Hc); exact E).
    apply map_get_elem in Hin, Hin'; [|done..]. cbn in Hc. congruence.
  - apply list_elem_of_split in Hin as (l1 & l2 & E). unfold map_values in Hp. rewrite E in Hp.
    rewrite fmap_app, concat_app in Hp. cbn in Hp. pose proof online_ids_NoDup as Hnd.
    rewrite <-Hp, !fmap_app in Hnd. by apply NoDup_app in Hnd as (_ & _ & [? _]%NoDup_app).
  - apply Forall_forall. intros i (c & -> & Hc%Hsub%online_records_elem)%list_elem_of_fmap.
    pose proof (ids_fit x Hnorm) as Hfit. rewrite Forall_forall in Hfit. apply Hfit.
    apply list_elem_of_fmap_2, Hc.
Qed.

(** The groups and the members they come from. *)
Lemma groups_made :
  ∃ L, core_groups x ≡ₚ L
    ∧ Forall2 (λ p g, core_group (snd p) = Some g) (foldl group_push [] online_records) L.
Proof.
  exists (omap core_group (map_values (foldl group_push [] online_records))). split.
  - unfold core_groups. rewrite Honline. apply sort_by_perm.
  - unfold map_values. pose proof members_good as Hgood. induction (foldl group_push [] online_records) as [|[k ms] gs IH]; [constructor|].
    destruct (Hgood k ms) as (Hne & _ & Hnd & Hf); [set_solver|].
    destruct (core_group_spec ms Hne Hnd Hf) as (g & Hg & _). cbn. rewrite Hg.
    constructor; [done|]. apply IH. intros k' ms' Hin. apply Hgood. set_solver.
Qed.

Lemma groups_made_concat gs L :
  Forall (λ p, snd p ≠ [] ∧ NoDup (cpu_id <$> snd p) ∧ Forall (fits 32) (cpu_id <$> snd p)) gs →
  Forall2 (λ (p : CoreKey.t * list CpuTopologyCpu.t) g, core_group (snd p) = Some g) gs L →
  concat ((λ g, slice g) <$> L) ≡ₚ cpu_id <$> concat (map_values gs).
Proof.
  unfold map_values. intros Hgood Hm. induction Hm as [|[k ms] g gs L Hg Hm IH]; [done|].
  apply Forall_cons in Hgood as [(Hne & Hnd & Hf) Hgood]. cbn in *.
  destruct (core_group_spec ms Hne Hnd Hf) as (g' & Hg' & _ & Hp & _).
  assert (g' = g) as -> by congruence. rewrite fmap_app, Hp. by rewrite IH.
Qed.

Lemma core_groups_grouped_aux : grouped x (core_groups x).
Proof.
  destruct groups_made as (L & Hp & Hm). pose proof members_good as Hgood.
  assert (∀ g, g ∈ core_groups x → ∃ k ms, (k, ms) ∈ foldl group_push [] online_records
    ∧ core_group ms = Some g) as Hfrom.
  { intros g Hg. rewrite Hp in Hg. apply list_elem_of_lookup in Hg as [i Hi].
    destruct (Forall2_lookup_r _ _ _ _ _ Hm Hi) as ([k ms] & Hk & Hc).
    exists k, ms. split; [by eapply list_elem_of_lookup_2|done]. }
  split.
  - rewrite Hp, (fun Hall => groups_made_concat _ _ Hall Hm).
    2: { apply Forall_forall. intros [k ms] Hin. destruct (Hgood k ms Hin) as (? & _ & ? & ?). done. }
    destruct groups_collected as (_ & -> & _). apply online_ids.
  - intros g (k & ms & (Hne & _ & Hnd & Hf)%Hgood & Hg)%Hfrom.
    destruct (core_group_spec ms Hne Hnd Hf) as (g' & Hg' & Hw & _). congruence.
  - intros g (k & ms & (Hne & Hk & Hnd & Hf)%Hgood & Hg)%Hfrom. exists k. intros d Hd.
    destruct (core_group_spec ms Hne Hnd Hf) as (g' & Hg' & _ & Hs & _).
    assert (g' = g) as -> by congruence. rewrite Hs, list_elem_of_fmap. split.
    + intros (c & E & Hc). pose proof (proj1 (Hk c) Hc) as [Hoc Hkc].
      by rewrite (id_unique d c (proj1 Hd) (proj1 Hoc) E).
    + intros E. exists d. split; [done|]. by apply Hk.
  - intros g c (k & ms & (Hne & Hk & Hnd & Hf)%Hgood & Hg)%Hfrom Hc Hin.
    destruct (core_group_spec ms Hne Hnd Hf) as (g' & Hg' & _ & Hs & Hcl & _).
    assert (g' = g) as -> by congruence. rewrite Hs in Hin. apply Hcl.
    apply list_elem_of_fmap in Hin as (c' & E & Hc'). pose proof (proj1 (Hk c') Hc') as [Hoc' _].
    by rewrite (id_unique c c' (proj1 Hc) (proj1 Hoc') E).
Qed.
End Groups.

Lemma core_groups_grouped x : normalized x → grouped x (core_groups x).
Proof.
  intros Hn. destruct (CpuTopology.online x) as [online|] eqn:Ho; [by eapply core_groups_grouped_aux|].
  assert (core_groups x = []) as -> by (unfold core_groups; by rewrite Ho).
  assert (online_cpus x = []) as Hc by (unfold online_cpus; by rewrite Ho).
  split; [by rewrite Hc|set_solver..].
Qed.
