(* ===== verification/IsolationLaws.v ===== *)
(** * Soft isolation keeps housekeeping CPUs

    Affinity masks have exactly the bits of their CPUs; a placement splits the
    online CPUs by whole cores and leaves at least half of the cores to
    housekeeping; a placement exists on every host with two cores; and a
    mutation is built only against the topology it was planned for. *)
From Stdlib Require Import Strings.Byte.
From stdpp Require Import sorting.
From S2P Require Import Prelude Lists Text Ids Capability Mutation MutationLaws Topology.
From S2P Require Import TopologyNormal Isolation.
Local Open Scope N_scope.
Unset Default Proof Using.

(** ** Masks *)

Definition mask_bit (bytes : list byte) (cpu : u32) : bool :=
  match bytes !! N.to_nat (cpu / 8) with
  | Some b => N.testbit (b2n b) (cpu mod 8)
  | None => false
  end.

Lemma set_bit_length bytes c : length (CpuAffinityMask.set_bit bytes c) = length bytes.
Proof. apply length_alter. Qed.

Lemma set_bit_spec bytes c d :
  (N.to_nat (c / 8) < length bytes)%nat →
  mask_bit (CpuAffinityMask.set_bit bytes c) d = mask_bit bytes d || bool_decide (d = c).
Proof.
  intros Hlen. unfold mask_bit, CpuAffinityMask.set_bit.
  assert (d mod 8 < 8 ∧ c mod 8 < 8) as [Hd8 Hc8] by (split; by apply N.mod_lt).
  pose proof (N.div_mod d 8) as Hd. pose proof (N.div_mod c 8) as Hc.
  destruct (decide (d / 8 = c / 8)) as [Hq|Hq].
  - rewrite Hq, list_lookup_alter_eq. destruct (lookup_lt_is_Some_2 bytes _ Hlen) as [b Hb].
    rewrite Hb. cbn [fmap option_fmap option_map]. rewrite b2n_n2b. change 256 with (2 ^ 8).
    rewrite N.mod_pow2_bits_low, N.lor_spec by done. f_equal.
    rewrite N.shiftl_mul_pow2, N.mul_1_l, N.pow2_bits_eqb.
    destruct (N.eqb_spec (c mod 8) (d mod 8)) as [E|E].
    + rewrite bool_decide_eq_true_2; [done|]. lia.
    + rewrite bool_decide_eq_false_2; [done|]. congruence.
  - rewrite list_lookup_alter_ne by lia. rewrite bool_decide_eq_false_2 by congruence.
    by rewrite orb_false_r.
Qed.

Lemma set_bits_spec cpus : ∀ bytes d,
  Forall (λ c, (N.to_nat (c / 8) < length bytes)%nat) cpus →
  mask_bit (foldl CpuAffinityMask.set_bit bytes cpus) d = mask_bit bytes d || bool_decide (d ∈ cpus).
Proof.
  induction cpus as [|c cpus IH]; intros bytes d Hf; cbn [foldl].
  - by rewrite orb_false_r.
  - apply Forall_cons in Hf as [Hc Hf].
    rewrite IH by (by rewrite set_bit_length). rewrite set_bit_spec by done.
    rewrite <-orb_assoc. f_equal. apply eq_true_iff_eq.
    by rewrite orb_true_iff, !bool_decide_eq_true, elem_of_cons.
Qed.

Lemma empty_mask n d : mask_bit (replicate n (n2b 0)) d = false.
Proof.
  unfold mask_bit. destruct (_ !! _) as [b|] eqn:E; [|done].
  apply lookup_replicate in E as [-> _]. apply N.bits_0.
Qed.

(** The highest CPU number of a mask. *)
Definition MASK_CPU_LIMIT : u32 := CPUSET_CAPACITY_LIMIT.

Lemma set_last s : CpuSet.wf s →
  ∃ m, last s.(CpuSet.as_slice) = Some m ∧ m ∈ s.(CpuSet.as_slice) ∧ (∀ c, c ∈ s.(CpuSet.as_slice) → c ≤ m) ∧ fits 32 m.
Proof.
  intros (Hs & Hne & Hf). destruct (last _) as [m|] eqn:Hl; [|by apply last_None in Hl].
  exists m. destruct (sorted_last_max _ _ Hs Hl) as [Hin Hmax].
  rewrite Forall_forall in Hf. auto.
Qed.

(** The index of every CPU is within the mask. *)
Lemma mask_index_in_range m c : c ≤ m → (N.to_nat (c / 8) < N.to_nat (m / 8 + 1))%nat.
Proof. intros Hc. pose proof (N.Div0.div_le_mono c m 8 Hc). lia. Qed.

Lemma from_cpu_set_spec s :
  CpuSet.wf s →
  (is_ok (CpuAffinityMask.from_cpu_set s) = true ↔ ∀ c, c ∈ s.(CpuSet.as_slice) → c < MASK_CPU_LIMIT)
  ∧ ∀ mask, CpuAffinityMask.from_cpu_set s = Ok mask →
      ∀ d, mask_bit mask.(CpuAffinityMask.as_bytes) d = has_cpu s d.
Proof.
  intros Hw. destruct (set_last s Hw) as (m & Hl & Hin & Hmax & Hfit).
  unfold CpuAffinityMask.from_cpu_set. rewrite Hl. unfold checked_add64.
  pose proof (N.Div0.mul_div_le m 8) as Hdm. pose proof (N.mul_succ_div_gt m 8 ltac:(done)) as Hmod. unfold fits in Hfit.
  change (2 ^ 32) with 4294967296 in Hfit. change (2 ^ 64) with 18446744073709551616.
  destruct (N.ltb_spec (m / 8 + 1) 18446744073709551616); [|lia]. cbn [ok_or mbind result_bind].
  change (CPUSET_CAPACITY_LIMIT / 8) with 131072. unfold MASK_CPU_LIMIT, CPUSET_CAPACITY_LIMIT.
  destruct (N.ltb_spec 131072 (m / 8 + 1)) as [Hlt|Hle]; cbn [is_ok]; split.
  - split; [done|]. intros Hall. specialize (Hall m Hin). lia.
  - done.
  - split; [|done]. intros _ c Hc%Hmax. lia.
  - intros mask [= <-] d. cbn [CpuAffinityMask.as_bytes]. rewrite set_bits_spec.
    + by rewrite empty_mask.
    + rewrite length_replicate. apply Forall_forall. intros c Hc%Hmax. by apply mask_index_in_range.
Qed.

(** ** The choice of groups *)

Lemma concat_unique {A B} (f : A → list B) l x y c :
  NoDup (concat (f <$> l)) → x ∈ l → y ∈ l → c ∈ f x → c ∈ f y → x = y.
Proof.
  assert (∀ l z, z ∈ l → c ∈ f z → c ∈ concat (f <$> l)) as Hin.
  { intros l' z Hz Hc. apply list_elem_of_In, in_concat. exists (f z).
    rewrite <-!list_elem_of_In. split; [by apply list_elem_of_fmap_2|done]. }
  induction l as [|z l IH]; cbn; [set_solver|].
  intros (_ & Hd & Hnd)%NoDup_app [->|Hx]%elem_of_cons [->|Hy]%elem_of_cons Hcx Hcy; [done|..].
  - destruct (Hd c Hcx). by eapply Hin.
  - destruct (Hd c Hcy). by eapply Hin.
  - by apply IH.
Qed.

Lemma elem_of_slices (c : u32) (groups : list CpuCoreGroup.t) :
  c ∈ concat ((λ g, slice g) <$> groups) ↔ ∃ g, g ∈ groups ∧ c ∈ slice g.
Proof.
  rewrite list_elem_of_In, in_concat. split.
  - intros (l & Hl & Hc). rewrite <-!list_elem_of_In in *.
    apply list_elem_of_fmap in Hl as (g & -> & Hg). eauto.
  - intros (g & Hg & Hc). exists (slice g). rewrite <-!list_elem_of_In.
    split; [|done]. by apply (list_elem_of_fmap_2 (λ g, slice g)).
Qed.

Lemma groups_NoDup x groups : normalized x → grouped x groups → NoDup (concat ((λ g, slice g) <$> groups)).
Proof.
  intros Hn Hg. rewrite (groups_partition _ _ Hg). unfold online_cpus.
  destruct (CpuTopology.online x) as [s|] eqn:Ho; [|constructor].
  by apply strict_NoDup, (online_wf _ Hn).
Qed.

(** Preferring a node reorders the groups. *)
Lemma numa_candidates_perm x policy groups :
  normalized x → grouped x groups → snd (numa_candidates policy groups) ≡ₚ groups.
Proof.
  intros Hn Hg. unfold numa_candidates.
  destruct (CpuSelectionPolicy.preferred_numa_node policy) as [node|]; [|done].
  set (P := λ g : CpuCoreGroup.t, g.(CpuCoreGroup.numa_node) = Some node).
  case_bool_decide as Hnone; [done|]. cbn [snd].
  rewrite <-(filter_app_complement P groups) at 3. f_equiv.
  assert (∀ l, l ⊆ groups →
    filter (λ g, Forall (.∉ concat ((λ g, slice g) <$> filter P groups)) (slice g)) l = filter (λ g, ¬ P g) l) as Heq;
    [|by rewrite Heq].
  induction l as [|g l IH]; intros Hsub; [done|]. rewrite !filter_cons, IH by set_solver.
  assert (Forall (.∉ concat ((λ g, slice g) <$> filter P groups)) (slice g) ↔ ¬ P g) as Hiff;
    [|by destruct (decide (Forall _ (slice g))), (decide (¬ P g)); tauto].
  assert (g ∈ groups) as Hin by set_solver. split.
  - intros Hf Hp. destruct (groups_wf _ _ Hg g Hin) as (_ & Hne & _).
    destruct (slice g) as [|c s] eqn:Es; [done|]. apply Forall_cons in Hf as [Hc _].
    apply Hc, elem_of_slices. exists g. rewrite list_elem_of_filter, Es. set_solver.
  - intros Hp. apply Forall_forall. intros c Hc (g' & [Hp' Hin']%list_elem_of_filter & Hc')%elem_of_slices.
    by rewrite (concat_unique _ _ _ _ _ (groups_NoDup _ _ Hn Hg) Hin Hin' Hc Hc') in Hp.
Qed.

Lemma sum_len_app g h : sum_len (g ++ h) = sum_len g + sum_len h.
Proof. induction g as [|x g IH]; cbn; [done|]. fold (sum_len g). fold (sum_len (g ++ h)). rewrite IH. lia. Qed.

(** The loop takes a prefix of the candidates: at most [max_groups], and
    fewer only when the request is met or nothing is left. *)
Lemma select_groups_spec max_groups requested cands : ∀ selected logical,
  logical = sum_len selected → (length selected ≤ max_groups)%nat →
  ∃ n, select_groups max_groups requested selected logical cands = selected ++ take n cands
    ∧ (length (selected ++ take n cands) ≤ max_groups)%nat
    ∧ (length (selected ++ take n cands) = max_groups ∨ (length cands ≤ n)%nat
       ∨ requested ≤ sum_len (selected ++ take n cands) ∧ selected ++ take n cands ≠ []).
Proof.
  induction cands as [|g cands IH]; intros selected logical Hl Hlen; cbn [select_groups].
  - exists O. rewrite app_nil_r. split_and!; [done..|]. right. left. cbn. lia.
  - destruct (Nat.leb_spec max_groups (length selected)) as [Hm|Hm].
    { exists O. cbn [take]. rewrite app_nil_r. split_and!; [done..|]. left. lia. }
    destruct ((requested <=? logical) && _) eqn:Hstop.
    { exists O. cbn [take]. rewrite app_nil_r. split_and!; [done..|]. right. right.
      apply andb_true_iff in Hstop as [Hr Hne]. apply N.leb_le in Hr.
      apply negb_true_iff, bool_decide_eq_false in Hne. by subst. }
    destruct (IH (selected ++ [g]) (logical + group_len g)) as (n & Hn & Hle & Hwhy).
    + rewrite sum_len_app, Hl. cbn. lia.
    + rewrite length_app. cbn. lia.
    + exists (S n). cbn [take]. rewrite <-app_assoc in Hn, Hle, Hwhy. cbn [app] in *.
      split_and!; [done..|]. destruct Hwhy as [?|[?|?]]; [by left|right; left; cbn; lia|auto].
Qed.

(** ** The sets of a placement *)

Lemma CpuSet_new_some l : l ≠ [] → ∃ s, CpuSet.new l = Ok s.
Proof.
  intros Hl. destruct (CpuSet_new_spec l) as [_ Hok]. destruct (CpuSet.new l) as [s|e]; [eauto|].
  by apply Hok in Hl.
Qed.

Lemma slices_nonempty (groups : list CpuCoreGroup.t) :
  (∀ g, g ∈ groups → slice g ≠ []) →
  (length groups ≤ length (concat ((λ g, slice g) <$> groups)))%nat.
Proof.
  induction groups as [|g groups IH]; cbn; intros Hne; [lia|].
  rewrite length_app. assert (slice g ≠ []) as Hg by (apply Hne; set_solver).
  destruct (slice g); [done|]. cbn. specialize (IH ltac:(set_solver)). lia.
Qed.

Lemma sum_len_concat groups : sum_len groups = N.of_nat (length (concat ((λ g, slice g) <$> groups))).
Proof.
  induction groups as [|g groups IH]; [done|]. change (sum_len (g :: groups)) with (group_len g + sum_len groups).
  rewrite IH. unfold group_len, CpuSet.len. cbn. rewrite length_app. lia.
Qed.

(** A split of the candidates into the groups taken and the rest. *)
Record placed (x : CpuTopology.t) (policy : CpuSelectionPolicy.t) (taken rest : list CpuCoreGroup.t) : Prop := {
  placed_order : taken ++ rest
    = sort_by (cmp_candidate x policy) (snd (numa_candidates policy (core_groups x)));
  placed_some : taken ≠ [];
  placed_half : (length taken ≤ length rest)%nat
}.

Section Placement.
Context {x : CpuTopology.t} {policy : CpuSelectionPolicy.t} {online : CpuSet.t}.
Hypothesis Hnorm : normalized x.
Hypothesis Honline : x.(CpuTopology.online) = Some online.

Lemma grouped_nonempty g : g ∈ core_groups x → slice g ≠ [].
Proof. intros Hg. by apply (groups_wf _ _ (core_groups_grouped x Hnorm)). Qed.

Lemma online_concat : concat ((λ g, slice g) <$> core_groups x) ≡ₚ online.(CpuSet.as_slice).
Proof.
  rewrite (groups_partition _ _ (core_groups_grouped x Hnorm)).
  unfold online_cpus. by rewrite Honline.
Qed.

(** Two groups have two CPUs. *)
Lemma groups_online : (length (core_groups x) ≤ CpuSet.len online)%nat.
Proof.
  unfold CpuSet.len. rewrite <-online_concat. apply slices_nonempty, grouped_nonempty.
Qed.

Section Placed.
Context {taken rest : list CpuCoreGroup.t}.
Hypothesis Hplaced : placed x policy taken rest.

Lemma placed_perm : taken ++ rest ≡ₚ core_groups x.
Proof.
  rewrite (placed_order _ _ _ _ Hplaced), sort_by_perm.
  apply (numa_candidates_perm x); [exact Hnorm|by apply core_groups_grouped].
Qed.

Lemma placed_concat :
  concat ((λ g, slice g) <$> taken) ++ concat ((λ g, slice g) <$> rest) ≡ₚ online.(CpuSet.as_slice).
Proof. rewrite <-online_concat, <-placed_perm, fmap_app, concat_app. done. Qed.

Lemma placed_disjoint c :
  c ∈ concat ((λ g, slice g) <$> taken) → c ∉ concat ((λ g, slice g) <$> rest).
Proof.
  assert (NoDup (concat ((λ g, slice g) <$> taken) ++ concat ((λ g, slice g) <$> rest))) as (_ & Hd & _)%NoDup_app.
  { rewrite placed_concat. by apply strict_NoDup, (online_wf _ Hnorm). }
  apply Hd.
Qed.

Lemma placed_member g : g ∈ taken ∨ g ∈ rest → g ∈ core_groups x.
Proof. intros Hg. rewrite <-placed_perm. by apply elem_of_app. Qed.

Lemma rest_nonempty : rest ≠ [].
Proof.
  destruct Hplaced as [_ Hs Hh]. intros E. rewrite E in Hh. cbn in Hh.
  apply Hs, nil_length_inv. lia.
Qed.

Lemma rest_cpus : concat ((λ g, slice g) <$> rest) ≠ [].
Proof.
  assert (length rest ≤ length (concat ((λ g, slice g) <$> rest)))%nat as Hl.
  { apply slices_nonempty. intros g Hg. apply grouped_nonempty, placed_member. by right. }
  intros E. rewrite E in Hl. cbn in Hl. apply rest_nonempty, nil_length_inv. lia.
Qed.

Lemma taken_cpus : concat ((λ g, slice g) <$> taken) ≠ [].
Proof.
  assert (length taken ≤ length (concat ((λ g, slice g) <$> taken)))%nat as Hl.
  { apply slices_nonempty. intros g Hg. apply grouped_nonempty, placed_member. by left. }
  intros E. rewrite E in Hl. cbn in Hl. apply (placed_some _ _ _ _ Hplaced), nil_length_inv. lia.
Qed.

(** The two sets of the plan. *)
Lemma placed_sets :
  ∃ w h,
    CpuSet.new (concat ((λ g, slice g) <$> taken)) = Ok w
    ∧ CpuSet.new (filter (λ cpu, has_cpu w cpu = false) online.(CpuSet.as_slice)) = Ok h
    ∧ CpuSet.wf w ∧ CpuSet.wf h
    ∧ (∀ c, c ∈ w.(CpuSet.as_slice) ↔ ∃ g, g ∈ taken ∧ c ∈ slice g)
    ∧ (∀ c, c ∈ h.(CpuSet.as_slice) ↔ ∃ g, g ∈ rest ∧ c ∈ slice g)
    ∧ N.of_nat (CpuSet.len w) = sum_len taken
    ∧ (CpuSet.len w < CpuSet.len online)%nat.
Proof.
  pose proof (online_wf _ Hnorm _ Honline) as Hwo.
  assert (∀ l, l ⊆ online.(CpuSet.as_slice) → Forall (fits 32) l) as Hfit.
  { intros l Hl. destruct Hwo as (_ & _ & Hf). rewrite Forall_forall in Hf |- *. auto. }
  destruct (CpuSet_new_some _ taken_cpus) as [w Hw].
  destruct (proj1 (CpuSet_new_spec _) _ Hw) as [Hws Hwin].
  assert (∀ c, c ∈ filter (λ cpu, has_cpu w cpu = false) online.(CpuSet.as_slice)
    ↔ c ∈ concat ((λ g, slice g) <$> rest)) as Hh.
  { intros c. rewrite list_elem_of_filter, has_cpu_false, Hwin, <-placed_concat, elem_of_app.
    pose proof (placed_disjoint c). tauto. }
  destruct (CpuSet_new_some (filter (λ cpu, has_cpu w cpu = false) online.(CpuSet.as_slice))) as [h Hhn].
  { intros E. apply rest_cpus, elem_of_nil_inv. intros c Hc%Hh. rewrite E in Hc. set_solver. }
  destruct (proj1 (CpuSet_new_spec _) _ Hhn) as [_ Hhin].
  assert (CpuSet.len w = length (concat ((λ g, slice g) <$> taken))) as Hlen.
  { unfold CpuSet.len. apply Permutation_length, NoDup_Permutation; [by apply strict_NoDup| |done].
    assert (NoDup (concat ((λ g, slice g) <$> taken) ++ concat ((λ g, slice g) <$> rest))) as (Hnd & _)%NoDup_app;
      [|done]. rewrite placed_concat. by apply strict_NoDup, Hwo. }
  exists w, h. split_and!; [done..| | | | | |].
  - eapply CpuSet_new_Ok; [exact Hw|]. apply Hfit. intros c Hc. rewrite <-placed_concat. set_solver.
  - eapply CpuSet_new_Ok; [exact Hhn|]. apply Hfit. intros c Hc%list_elem_of_filter. tauto.
  - intros c. by rewrite Hwin, elem_of_slices.
  - intros c. by rewrite Hhin, Hh, elem_of_slices.
  - by rewrite sum_len_concat, Hlen.
  - rewrite Hlen. unfold CpuSet.len. rewrite <-placed_concat, length_app. pose proof rest_cpus.
    destruct (concat ((λ g, slice g) <$> rest)); [done|cbn; lia].
Qed.
End Placed.
End Placement.

(** ** The plan *)

(** Where the count is given it is not zero. *)
Definition count_positive (policy : CpuSelectionPolicy.t) : Prop :=
  policy.(CpuSelectionPolicy.workload_cpu_count) ≠ Some 0.

(** The request is met, or the plan says that it is not. *)
Definition request_answered (policy : CpuSelectionPolicy.t) (cpus : CpuSet.t)
    (fallbacks : list CpuPlacementFallback.t) : Prop :=
  ∀ n, policy.(CpuSelectionPolicy.workload_cpu_count) = Some n →
    n ≤ N.of_nat (CpuSet.len cpus) ∨ CpuPlacementFallback.ReducedToPreserveHousekeeping ∈ fallbacks.

(** With two groups or more, a placement is found; only its masks can still
    fail. *)
Lemma select_placed x policy online tid :
  normalized x → x.(CpuTopology.online) = Some online →
  (2 ≤ length (core_groups x))%nat → count_positive policy →
  ∃ taken rest w h fallbacks,
    placed x policy taken rest
    ∧ CpuSet.new (concat ((λ g, slice g) <$> taken)) = Ok w
    ∧ CpuSet.new (filter (λ cpu, has_cpu w cpu = false) online.(CpuSet.as_slice)) = Ok h
    ∧ request_answered policy w fallbacks
    ∧ select_for_target x policy tid
      = (wm ← CpuAffinityMask.from_cpu_set w;
         hm ← CpuAffinityMask.from_cpu_set h;
         Ok (CpuIsolationPlan.mk w h wm hm x.(CpuTopology.capacity_mode) fallbacks
               x.(CpuTopology.revision) online tid)).
Proof.
  intros Hn Ho H2 Hpos. pose proof (groups_online Hn Ho) as Hlen.
  unfold select_for_target. rewrite Ho. cbn [ok_or mbind result_bind].
  rewrite !(proj2 (Nat.ltb_ge _ _)) by lia. cbn [orb].
  set (n := length (core_groups x)) in *.
  set (m := (n - Nat.max ((n + 1) / 2) 1)%nat).
  assert (1 ≤ m ∧ 2 * m ≤ n)%nat as [Hm1 Hm2].
  { unfold m. pose proof (Nat.div_mod (n + 1) 2 ltac:(done)).
    pose proof (Nat.mod_upper_bound (n + 1) 2 ltac:(done)). lia. }
  rewrite (proj2 (Nat.eqb_neq m 0)) by lia.
  destruct (numa_candidates policy (core_groups x)) as [nf cands0] eqn:Hnum.
  set (cands := sort_by (cmp_candidate x policy) cands0).
  assert (length cands = n) as Hcl.
  { unfold cands. rewrite sort_by_perm. pose proof (numa_candidates_perm x policy _ Hn (core_groups_grouped x Hn)) as Hp.
    rewrite Hnum in Hp. cbn in Hp. by rewrite Hp. }
  assert (default (2 ^ 64 - 1) policy.(CpuSelectionPolicy.workload_cpu_count) ≠ 0) as Hreq.
  { unfold count_positive in Hpos. destruct (CpuSelectionPolicy.workload_cpu_count policy); cbn; [congruence|done]. }
  rewrite (proj2 (N.eqb_neq _ _) Hreq).
  set (requested := default (2 ^ 64 - 1) policy.(CpuSelectionPolicy.workload_cpu_count)) in *.
  destruct (select_groups_spec m requested cands [] 0 eq_refl) as (k & Hk & Hle & Hwhy); [cbn; lia|].
  cbn [app] in *. rewrite Hk.
  assert (length (take k cands) = Nat.min k n) as Htl by (by rewrite length_take, Hcl).
  assert (take k cands ≠ []) as Hne.
  { intros E. rewrite E in *. cbn in *. destruct Hwhy as [?|[?|[_ ?]]]; [lia|lia|done]. }
  rewrite bool_decide_eq_false_2 by done.
  assert (placed x policy (take k cands) (drop k cands)) as Hplaced.
  { split; [rewrite take_drop; unfold cands; by rewrite Hnum|done|].
    rewrite length_drop, Hcl. lia. }
  destruct (placed_sets Hn Ho Hplaced) as (w & h & Hw & Hh & Hww & Hwh & _ & _ & Hsum & Hlt).
  exists (take k cands), (drop k cands), w, h. eexists. split; [exact Hplaced|].
  rewrite Hw. cbn [mbind result_bind]. rewrite Hh. cbn [mbind result_bind].
  rewrite (proj2 (Nat.leb_gt _ _)) by exact Hlt. cbn [orb].
  assert (CpuSet.is_empty h = false) as ->.
  { unfold CpuSet.is_empty. apply bool_decide_eq_false. apply Hwh. }
  split_and!; [done|done| |reflexivity].
  intros r Hr. destruct (is_reduced policy online cands m) eqn:Hred.
  { right. rewrite !elem_of_app. right. right. set_solver. }
  left. unfold is_reduced in Hred. rewrite Hr in Hred. apply orb_false_iff in Hred as [_ Hred].
  apply N.ltb_ge in Hred. rewrite Hsum.
  destruct Hwhy as [Hm|[Hall|[Hr' _]]].
  - assert (take k cands = take m cands) as ->; [|done].
    destruct (decide (k ≤ n)%nat) as [Hkn|Hkn]; [|lia]. f_equal. lia.
  - exfalso. lia.
  - unfold requested in Hr'. by rewrite Hr in Hr'.
Qed.

(** What a plan rests on. *)
Lemma select_inv x policy tid p :
  normalized x → select_for_target x policy tid = Ok p →
  ∃ online, x.(CpuTopology.online) = Some online
    ∧ (2 ≤ length (core_groups x))%nat ∧ count_positive policy.
Proof.
  unfold select_for_target. intros Hn Hs. apply bind_Ok in Hs as (online & Ho%ok_or_Ok & Hs).
  exists online. split; [done|].
  destruct (_ || _) eqn:Hg in Hs; [done|]. apply orb_false_iff in Hg as [_ Hg%Nat.ltb_ge].
  split; [done|]. destruct (_ =? _)%nat in Hs; [done|].
  destruct (numa_candidates _ _) as [nf cands].
  destruct (N.eqb_spec (default (2 ^ 64 - 1) policy.(CpuSelectionPolicy.workload_cpu_count)) 0) as [E|E]; [done|].
  intros Hz. by rewrite Hz in E.
Qed.

Lemma select_spec x policy tid p :
  normalized x → select_for_target x policy tid = Ok p →
  ∃ online taken rest,
    x.(CpuTopology.online) = Some online ∧ placed x policy taken rest
    ∧ CpuSet.new (concat ((λ g, slice g) <$> taken)) = Ok p.(CpuIsolationPlan.workload_cpus)
    ∧ CpuSet.new (filter (λ cpu, has_cpu p.(CpuIsolationPlan.workload_cpus) cpu = false) online.(CpuSet.as_slice))
      = Ok p.(CpuIsolationPlan.housekeeping_cpus)
    ∧ CpuAffinityMask.from_cpu_set p.(CpuIsolationPlan.workload_cpus) = Ok p.(CpuIsolationPlan.workload_mask)
    ∧ CpuAffinityMask.from_cpu_set p.(CpuIsolationPlan.housekeeping_cpus) = Ok p.(CpuIsolationPlan.housekeeping_mask)
    ∧ request_answered policy p.(CpuIsolationPlan.workload_cpus) p.(CpuIsolationPlan.fallbacks)
    ∧ p.(CpuIsolationPlan.online_at_plan) = online
    ∧ p.(CpuIsolationPlan.topology_revision) = x.(CpuTopology.revision)
    ∧ p.(CpuIsolationPlan.target_identity) = tid.
Proof.
  intros Hn Hs. destruct (select_inv _ _ _ _ Hn Hs) as (online & Ho & H2 & Hc).
  destruct (select_placed x policy online tid Hn Ho H2 Hc)
    as (taken & rest & w & h & fb & Hpl & Hw & Hh & Hr & E).
  rewrite E in Hs. apply bind_Ok in Hs as (wm & Hwm & Hs). apply bind_Ok in Hs as (hm & Hhm & Hs).
  injection Hs as <-. exists online, taken, rest. by split_and!.
Qed.

(** ** The properties *)

Lemma filter_keep {A} (P : A → Prop) `{∀ x, Decision (P x)} l : Forall P l → filter P l = l.
Proof. induction 1; [done|]. by rewrite filter_cons_True, IHForall. Qed.

Lemma filter_drop {A} (P : A → Prop) `{∀ x, Decision (P x)} l : Forall (λ x, ¬ P x) l → filter P l = [].
Proof. induction 1; [done|]. by rewrite filter_cons_False. Qed.

(** The cores whose CPUs are all in a set. *)
Definition cores_in (x : CpuTopology.t) (s : CpuSet.t) : nat :=
  length (filter (λ g, Forall (.∈ s.(CpuSet.as_slice)) (slice g)) (core_groups x)).

Lemma placed_cores x policy taken rest (w h : CpuSet.t) :
  normalized x → placed x policy taken rest →
  (∀ c, c ∈ w.(CpuSet.as_slice) ↔ ∃ g, g ∈ taken ∧ c ∈ slice g) →
  (∀ c, c ∈ h.(CpuSet.as_slice) ↔ ∃ g, g ∈ rest ∧ c ∈ slice g) →
  (∀ c, c ∈ w.(CpuSet.as_slice) → c ∉ h.(CpuSet.as_slice)) →
  cores_in x w = length taken ∧ cores_in x h = length rest.
Proof.
  intros Hn Hpl Hw Hh Hd. unfold cores_in. pose proof (placed_perm Hn Hpl) as Hp.
  assert (∀ (s t : CpuSet.t) l l', (∀ c, c ∈ s.(CpuSet.as_slice) → c ∉ t.(CpuSet.as_slice)) →
    (∀ g, g ∈ l ∨ g ∈ l' → slice g ≠ []) →
    (∀ c, c ∈ s.(CpuSet.as_slice) ↔ ∃ g, g ∈ l ∧ c ∈ slice g) →
    (∀ c, c ∈ t.(CpuSet.as_slice) ↔ ∃ g, g ∈ l' ∧ c ∈ slice g) →
    length (filter (λ g, Forall (.∈ s.(CpuSet.as_slice)) (slice g)) (l ++ l')) = length l) as Hcount.
  { intros s t l l' Hst Hne Hs Ht. rewrite filter_app, length_app.
    rewrite (filter_keep _ l), (filter_drop _ l'); [cbn; lia|..].
    - apply Forall_forall. intros g Hg Hall. pose proof (Hne g (or_intror Hg)) as Hgne.
      destruct (slice g) as [|c cs] eqn:Es; [done|]. apply Forall_cons in Hall as [Hc _].
      apply (Hst c Hc), Ht. exists g. rewrite Es. split; [done|]. set_solver.
    - apply Forall_forall. intros g Hg. apply Forall_forall. intros c Hc. apply Hs. eauto. }
  split.
  - rewrite <-Hp. apply (Hcount w h); [done| |done..].
    intros g Hg. by eapply (grouped_nonempty Hn), (placed_member Hn Hpl).
  - rewrite <-Hp, Permutation_app_comm. apply (Hcount h w); [intros c H1 H2; by apply (Hd c)| |done..].
    intros g Hg. apply (grouped_nonempty Hn), (placed_member Hn Hpl). tauto.
Qed.

(** What a placement promises to the host it was made for. *)
Record keeps_housekeeping (x : CpuTopology.t) (policy : CpuSelectionPolicy.t) (p : CpuIsolationPlan.t) : Prop := {
  kept_wf : CpuSet.wf p.(CpuIsolationPlan.workload_cpus) ∧ CpuSet.wf p.(CpuIsolationPlan.housekeeping_cpus);
  kept_online : ∀ c, c ∈ online_cpus x
    ↔ c ∈ p.(CpuIsolationPlan.workload_cpus).(CpuSet.as_slice)
      ∨ c ∈ p.(CpuIsolationPlan.housekeeping_cpus).(CpuSet.as_slice);
  kept_apart : ∀ c, c ∈ p.(CpuIsolationPlan.workload_cpus).(CpuSet.as_slice) →
    c ∉ p.(CpuIsolationPlan.housekeeping_cpus).(CpuSet.as_slice);
  kept_cores : ∀ c d, is_online x c → is_online x d → core_key c = core_key d →
    c.(cpu_id) ∈ p.(CpuIsolationPlan.workload_cpus).(CpuSet.as_slice)
    ↔ d.(cpu_id) ∈ p.(CpuIsolationPlan.workload_cpus).(CpuSet.as_slice);
  kept_half : (cores_in x p.(CpuIsolationPlan.workload_cpus)
               ≤ cores_in x p.(CpuIsolationPlan.housekeeping_cpus))%nat;
  kept_request : request_answered policy p.(CpuIsolationPlan.workload_cpus) p.(CpuIsolationPlan.fallbacks);
  kept_masks : ∀ c,
    mask_bit p.(CpuIsolationPlan.workload_mask).(CpuAffinityMask.as_bytes) c
    = has_cpu p.(CpuIsolationPlan.workload_cpus) c
    ∧ mask_bit p.(CpuIsolationPlan.housekeeping_mask).(CpuAffinityMask.as_bytes) c
      = has_cpu p.(CpuIsolationPlan.housekeeping_cpus) c
}.

Lemma plan_keeps x policy tid p :
  normalized x → select_for_target x policy tid = Ok p → keeps_housekeeping x policy p.
Proof.
  intros Hn Hs.
  destruct (select_spec _ _ _ _ Hn Hs) as (online & taken & rest & Ho & Hpl & Hw & Hh & Hwm & Hhm & Hr & _).
  destruct (placed_sets Hn Ho Hpl) as (w & h & Hw' & Hh' & Hww & Hwh & Hwin & Hhin & _).
  rewrite Hw in Hw'. injection Hw' as <-. rewrite Hh in Hh'. injection Hh' as <-.
  pose proof (core_groups_grouped x Hn) as Hg.
  assert (∀ c, c ∈ p.(CpuIsolationPlan.workload_cpus).(CpuSet.as_slice) →
    c ∉ p.(CpuIsolationPlan.housekeeping_cpus).(CpuSet.as_slice)) as Hd.
  { intros c Hc%Hwin Hc'%Hhin. apply elem_of_slices in Hc, Hc'. by apply (placed_disjoint Hn Ho Hpl c). }
  split; [done| |done| | |done|].
  - intros c. unfold online_cpus. rewrite Ho. cbn [set_slice].
    by rewrite <-(placed_concat Hn Ho Hpl), elem_of_app, !elem_of_slices, Hwin, Hhin.
  - assert (∀ c d, is_online x c → is_online x d → core_key c = core_key d →
      (∃ g, g ∈ taken ∧ c.(cpu_id) ∈ slice g) → ∃ g, g ∈ taken ∧ d.(cpu_id) ∈ slice g) as Hgo.
    { intros c d Hc Hdd E (g & Hgt & Hcg). exists g. split; [done|].
      destruct (groups_key _ _ Hg g) as [k Hk]; [apply (placed_member Hn Hpl); by left|].
      apply Hk; [done|]. rewrite <-E. by apply Hk. }
    intros c d Hc Hdd E. rewrite !Hwin. split; apply Hgo; done.
  - destruct (placed_cores x policy taken rest _ _ Hn Hpl Hwin Hhin Hd) as [-> ->].
    apply (placed_half _ _ _ _ Hpl).
  - intros c. split; [by apply (from_cpu_set_spec _ Hww)|by apply (from_cpu_set_spec _ Hwh)].
Qed.

(** C15. A plan keeps the housekeeping CPUs. *)
Theorem isolation_keeps_housekeeping facts numa x policy tid p :
  CpuTopologyFacts.wf facts → from_facts facts numa = Ok x →
  select_for_target x policy tid = Ok p →
  keeps_housekeeping x policy p.
Proof. intros Hf Hx. by eapply plan_keeps, from_facts_normalized. Qed.

(** Two CPUs of different cores. *)
Definition two_cores (x : CpuTopology.t) : Prop :=
  ∃ c d, is_online x c ∧ is_online x d ∧ core_key c ≠ core_key d.

Lemma group_member x g : normalized x → g ∈ core_groups x → ∃ c, is_online x c ∧ c.(cpu_id) ∈ slice g.
Proof.
  intros Hn Hg. pose proof (core_groups_grouped x Hn) as Hgr.
  destruct (slice g) as [|i s] eqn:Es; [by apply (grouped_nonempty Hn) in Es|].
  assert (i ∈ online_cpus x) as Hi.
  { rewrite <-(groups_partition _ _ Hgr), elem_of_slices. exists g. rewrite Es. split; [done|]. set_solver. }
  pose proof (online_known _ Hn i Hi) as Hk. apply list_elem_of_fmap in Hk as (c & -> & Hc).
  exists c. split; [done|]. set_solver.
Qed.

Lemma two_groups x : normalized x → (2 ≤ length (core_groups x))%nat ↔ two_cores x.
Proof.
  intros Hn. pose proof (core_groups_grouped x Hn) as Hgr. split.
  - intros H2. pose proof (groups_NoDup _ _ Hn Hgr) as Hnd.
    destruct (core_groups x) as [|g1 [|g2 gs]] eqn:Egs; [cbn in H2; lia..|].
    destruct (group_member x g1 Hn) as (c & Hc & Hcg); [rewrite Egs; set_solver|].
    destruct (group_member x g2 Hn) as (d & Hd & Hdg); [rewrite Egs; set_solver|].
    exists c, d. split_and!; [done..|]. intros E.
    destruct (groups_key _ _ Hgr g1) as [k Hk]; [set_solver|].
    assert (d.(cpu_id) ∈ slice g1) as Hd1 by (apply Hk; [done|]; rewrite <-E; by apply Hk).
    cbn in Hnd. apply NoDup_app in Hnd as (_ & Hdis & _). apply (Hdis _ Hd1). set_solver.
  - intros (c & d & Hc & Hd & Hne).
    assert (∀ e, is_online x e → ∃ g, g ∈ core_groups x ∧ e.(cpu_id) ∈ slice g) as Hin.
    { intros e [_ He]. by rewrite <-(groups_partition _ _ Hgr), elem_of_slices in He. }
    destruct (Hin c Hc) as (g1 & H1 & Hcg), (Hin d Hd) as (g2 & H2 & Hdg).
    destruct (core_groups x) as [|g [|g' gs]] eqn:Egs; [set_solver| |cbn; lia].
    apply list_elem_of_singleton in H1 as ->, H2 as ->.
    destruct (groups_key _ _ Hgr g) as [k Hk]; [set_solver|].
    destruct Hne. rewrite (proj1 (Hk c Hc)), (proj1 (Hk d Hd)); done.
Qed.

(** A plan exists exactly where there are two online cores to split, the
    request is not for zero CPUs, and no CPU number is beyond a mask. *)
Theorem isolation_exists_iff facts numa x policy tid :
  CpuTopologyFacts.wf facts → from_facts facts numa = Ok x →
  is_ok (select_for_target x policy tid) = true
  ↔ two_cores x ∧ policy.(CpuSelectionPolicy.workload_cpu_count) ≠ Some 0
    ∧ ∀ c, c ∈ online_cpus x → c < MASK_CPU_LIMIT.
Proof.
  intros Hf Hx. pose proof (from_facts_normalized _ _ _ Hf Hx) as Hn. split.
  - intros Hs. destruct (select_for_target x policy tid) as [p|] eqn:E; [|done]. clear Hs.
    destruct (select_inv _ _ _ _ Hn E) as (online & Ho & H2 & Hc). split; [by apply two_groups|].
    split; [done|]. pose proof (select_spec _ _ _ _ Hn E) as (online' & taken & rest & Ho' & Hpl & Hw & Hh & Hwm & Hhm & _).
    destruct (placed_sets Hn Ho' Hpl) as (w & h & Hw' & Hh' & Hww & Hwh & _).
    rewrite Hw in Hw'. injection Hw' as <-. rewrite Hh in Hh'. injection Hh' as <-.
    destruct (plan_keeps _ _ _ _ Hn E) as [_ Hon _ _ _ _ _].
    intros c [Hcw|Hch]%Hon.
    + apply (proj1 (proj1 (from_cpu_set_spec _ Hww))); [by rewrite Hwm|done].
    + apply (proj1 (proj1 (from_cpu_set_spec _ Hwh))); [by rewrite Hhm|done].
  - intros (H2%two_groups & Hc & Hlim); [|done].
    destruct (CpuTopology.online x) as [online|] eqn:Ho.
    2: { unfold core_groups in H2. rewrite Ho in H2. cbn in H2. lia. }
    destruct (select_placed x policy online tid Hn Ho H2 Hc) as (taken & rest & w & h & fb & Hpl & Hw & Hh & _ & ->).
    destruct (placed_sets Hn Ho Hpl) as (w' & h' & Hw' & Hh' & Hww & Hwh & Hwin & Hhin & _).
    rewrite Hw in Hw'. injection Hw' as <-. rewrite Hh in Hh'. injection Hh' as <-.
    assert (∀ s, CpuSet.wf s → (∀ c, c ∈ s.(CpuSet.as_slice) → c ∈ online_cpus x) →
      ∃ m, CpuAffinityMask.from_cpu_set s = Ok m) as Hmask.
    { intros s Hs Hsub. destruct (from_cpu_set_spec s Hs) as [Hok _].
      destruct (CpuAffinityMask.from_cpu_set s) as [m|]; [eauto|]. cbn in Hok.
      assert (false = true) as ?; [|done]. apply Hok. auto. }
    assert (∀ g, g ∈ taken ∨ g ∈ rest → ∀ c, c ∈ slice g → c ∈ online_cpus x) as Hsub.
    { intros g Hg c Hcg. rewrite <-(groups_partition _ _ (core_groups_grouped x Hn)), elem_of_slices.
      exists g. split; [|done]. by apply (placed_member Hn Hpl). }
    destruct (Hmask w Hww) as [wm ->]; [intros c (g & Hg & Hcg)%Hwin; eapply Hsub; [by left|done]|].
    destruct (Hmask h Hwh) as [hm ->]; [intros c (g & Hg & Hcg)%Hhin; eapply Hsub; [by right|done]|].
    done.
Qed.

(** * From a placement to a cpuset mutation

    The last check of a plan accepts exactly the topology and the target the
    plan was made for, the mutation it leads to is consistent, and the order
    of preference decides which cores a workload gets. *)
Local Open Scope N_scope.
Unset Default Proof Using.

Lemma cpuset_capability_valid :
  CapabilityId.new "cgroup.cpuset.cpus" = Ok cpuset_capability.
Proof. reflexivity. Qed.

(** The plan is accepted where revision, online set and target are the ones
    it holds. *)
Lemma validate_before_apply_iff p current tid :
  (∀ c, c ∈ p.(CpuIsolationPlan.workload_cpus).(CpuSet.as_slice)
        ∨ c ∈ p.(CpuIsolationPlan.housekeeping_cpus).(CpuSet.as_slice) →
     c ∈ p.(CpuIsolationPlan.online_at_plan).(CpuSet.as_slice)) →
  validate_before_apply p current tid = Ok tt
  ↔ current.(CpuTopology.revision) = p.(CpuIsolationPlan.topology_revision)
    ∧ current.(CpuTopology.online) = Some p.(CpuIsolationPlan.online_at_plan)
    ∧ p.(CpuIsolationPlan.target_identity) = tid.
Proof.
  intros Hsub. unfold validate_before_apply.
  destruct (decide (CpuTopology.revision current = CpuIsolationPlan.topology_revision p)) as [E1|E1];
    [rewrite (bool_decide_eq_true_2 _ E1)|rewrite (bool_decide_eq_false_2 _ E1)]; cbn [negb orb]; [|naive_solver].
  destruct (decide (CpuTopology.online current = Some (CpuIsolationPlan.online_at_plan p))) as [E2|E2];
    [rewrite (bool_decide_eq_true_2 _ E2)|rewrite (bool_decide_eq_false_2 _ E2)]; cbn [negb orb]; [|naive_solver].
  rewrite E2. cbn [ok_or mbind result_bind].
  assert (∀ s, (∀ c, c ∈ s.(CpuSet.as_slice) → c ∈ (CpuIsolationPlan.online_at_plan p).(CpuSet.as_slice)) →
    forallb (has_cpu (CpuIsolationPlan.online_at_plan p)) s.(CpuSet.as_slice) = true) as Hall.
  { intros s Hs. apply forallb_forall. intros c Hc%list_elem_of_In. by apply has_cpu_true, Hs. }
  rewrite !Hall by auto. cbn [negb orb]. case_bool_decide; cbn [negb]; naive_solver.
Qed.

(** A plan becomes a mutation exactly against the revision, the online set
    and the target it was made for; the mutation gives the cgroup the workload
    CPUs and nothing else. *)
Theorem revalidated_mutation_iff facts numa x policy tid p current now mid cgroup fingerprint :
  CpuTopologyFacts.wf facts → from_facts facts numa = Ok x →
  select_for_target x policy tid = Ok p →
  (is_ok (to_cgroup_cpuset_mutation p current now mid cgroup fingerprint) = true
   ↔ current.(CpuTopology.revision) = x.(CpuTopology.revision)
     ∧ current.(CpuTopology.online) = x.(CpuTopology.online) ∧ tid = Some now)
  ∧ ∀ m, to_cgroup_cpuset_mutation p current now mid cgroup fingerprint = Ok m →
      m.(PlannedMutation.kind) = MutationKind.CgroupCpuset cgroup p.(CpuIsolationPlan.workload_cpus)
      ∧ m.(PlannedMutation.target) = cgroup.(CgroupId.handle)
      ∧ PlannedMutation.consistent m
      ∧ (∀ c, c ∈ p.(CpuIsolationPlan.workload_cpus).(CpuSet.as_slice) → c ∈ online_cpus current)
      ∧ ∃ c, c ∈ online_cpus current ∧ c ∉ p.(CpuIsolationPlan.workload_cpus).(CpuSet.as_slice).
Proof.
  intros Hf Hx Hs. pose proof (from_facts_normalized _ _ _ Hf Hx) as Hn.
  destruct (select_spec _ _ _ _ Hn Hs) as (online & _ & _ & Ho & _ & _ & _ & _ & _ & _ & Hp & Hrev & Htid).
  destruct (plan_keeps _ _ _ _ Hn Hs) as [[Hww Hwh] Hon Hd _ _ _ _].
  unfold online_cpus in Hon. rewrite Ho in Hon. cbn [set_slice] in Hon.
  assert (validate_before_apply p current (Some now) = Ok tt
    ↔ current.(CpuTopology.revision) = x.(CpuTopology.revision)
      ∧ current.(CpuTopology.online) = x.(CpuTopology.online) ∧ tid = Some now) as Hval.
  { rewrite validate_before_apply_iff; [by rewrite Hp, Hrev, Htid, Ho|].
    intros c. rewrite Hp. apply Hon. }
  unfold to_cgroup_cpuset_mutation.
  destruct (validate_before_apply p current (Some now)) as [[]|e] eqn:Hv; cbn [mbind result_bind].
  2: { split; [|done]. split; [done|]. intros [=]%Hval. }
  destruct (proj1 Hval eq_refl) as (H1 & H2 & H3). rewrite Htid, H3.
  rewrite bool_decide_eq_true_2 by done. cbn [negb].
  set (r := PlannedMutation.new _ _ _ _ _ _ _ _).
  assert (∃ m, r = Ok m ∧ PlannedMutation.consistent m
    ∧ m.(PlannedMutation.kind) = MutationKind.CgroupCpuset cgroup p.(CpuIsolationPlan.workload_cpus)
    ∧ m.(PlannedMutation.target) = cgroup.(CgroupId.handle)) as (m & Hr & Hm).
  { unfold r, PlannedMutation.new. cbn. rewrite bool_decide_eq_true_2 by done. cbn.
    rewrite bool_decide_eq_false_2 by set_solver. eexists. split; [reflexivity|].
    split; [|done]. unfold PlannedMutation.consistent. cbn. set_solver. }
  rewrite Hr. split; [done|]. intros m' [= <-]. destruct Hm as (Hm1 & Hm2 & Hm3).
  unfold online_cpus. rewrite H2, Ho. cbn [set_slice]. split_and!; [done..|intros c Hc; apply Hon; by left|].
  destruct Hwh as (_ & Hne & _). destruct (CpuSet.as_slice (CpuIsolationPlan.housekeeping_cpus p)) as [|c l] eqn:Eh; [done|].
  exists c. split; [apply Hon; right; set_solver|]. intros Hc. apply (Hd c Hc). set_solver.
Qed.

(** ** The order of preference *)

(** The candidates are compared by a key. *)
Definition candidate_key (x : CpuTopology.t) (policy : CpuSelectionPolicy.t) (g : CpuCoreGroup.t) :
    bool * (N * list u32) :=
  (negb (is_preferred policy g),
   (if policy.(CpuSelectionPolicy.prefer_performance_cores)
       && bool_decide (x.(CpuTopology.capacity_mode) = CpuCapacityMode.HeterogeneousProven)
    then capacity_rank g.(CpuCoreGroup.performance_class) else 0,
    slice g)).

Lemma cmp_candidate_key x policy g h :
  cmp_candidate x policy g h = cmp (candidate_key x policy g) (candidate_key x policy h).
Proof.
  unfold cmp_candidate, candidate_key, cmp, prod_ord. cbn [fst snd].
  destruct (_ && _); by destruct (is_preferred policy g), (is_preferred policy h).
Qed.

Lemma sort_by_key_sorted {A B} `{!Ord B, !OrdLaws B} (f : A → B) (c : A → A → comparison) l :
  (∀ x y, c x y = cmp (f x) (f y)) → StronglySorted (cmp_le c) (sort_by c l).
Proof.
  intros Hc. apply StronglySorted_merge_sort.
  - intros x y z. unfold cmp_le. rewrite !Hc. apply cmp_le_trans.
  - intros x y. unfold cmp_le. rewrite !Hc. apply cmp_le_total.
Qed.

Lemma sorted_app_le {A} (R : A → A → Prop) l l' x y :
  StronglySorted R (l ++ l') → x ∈ l → y ∈ l' → R x y.
Proof.
  induction l as [|z l IH]; cbn; intros Hs Hx Hy; [set_solver|].
  apply StronglySorted_inv in Hs as [Hs Hf]. rewrite Forall_forall in Hf.
  apply elem_of_cons in Hx as [->|Hx]; [apply Hf; set_solver|by apply IH].
Qed.

(** The workload gets the cores that come first in the order of preference:
    cores of the preferred node before others, and among these, where the
    capacities are proven and the policy asks for them, cores of a higher
    class. *)
Theorem preferred_cores_first facts numa x policy tid p g h :
  CpuTopologyFacts.wf facts → from_facts facts numa = Ok x →
  select_for_target x policy tid = Ok p →
  g ∈ core_groups x → h ∈ core_groups x →
  Forall (.∈ p.(CpuIsolationPlan.workload_cpus).(CpuSet.as_slice)) (slice g) →
  Forall (.∈ p.(CpuIsolationPlan.housekeeping_cpus).(CpuSet.as_slice)) (slice h) →
  (is_preferred policy h = true → is_preferred policy g = true)
  ∧ (policy.(CpuSelectionPolicy.prefer_performance_cores) = true →
     x.(CpuTopology.capacity_mode) = CpuCapacityMode.HeterogeneousProven →
     is_preferred policy g = is_preferred policy h →
     capacity_rank g.(CpuCoreGroup.performance_class) ≤ capacity_rank h.(CpuCoreGroup.performance_class)).
Proof.
  intros Hf Hx Hs Hg Hh Hgw Hhh. pose proof (from_facts_normalized _ _ _ Hf Hx) as Hn.
  destruct (select_spec _ _ _ _ Hn Hs) as (online & taken & rest & Ho & Hpl & Hw & Hhk & _).
  destruct (placed_sets Hn Ho Hpl) as (w' & h' & Hw' & Hh' & _ & _ & Hwin & Hhin & _).
  rewrite Hw in Hw'. injection Hw' as <-. rewrite Hhk in Hh'. injection Hh' as <-.
  assert (∀ k, k ∈ core_groups x → ∃ c, c ∈ slice k) as Hsome.
  { intros k Hk. apply (grouped_nonempty Hn) in Hk. destruct (slice k) as [|c l]; [done|].
    exists c. set_solver. }
  pose proof (groups_NoDup _ _ Hn (core_groups_grouped x Hn)) as Hnd.
  rewrite Forall_forall in Hgw, Hhh.
  assert (g ∈ taken) as Hgt.
  { destruct (Hsome g Hg) as [c Hc]. destruct (proj1 (Hwin c) (Hgw c Hc)) as (g' & Hg' & Hc').
    by rewrite (concat_unique _ _ _ _ _ Hnd Hg (placed_member Hn Hpl _ (or_introl Hg')) Hc Hc'). }
  assert (h ∈ rest) as Hhr.
  { destruct (Hsome h Hh) as [c Hc]. destruct (proj1 (Hhin c) (Hhh c Hc)) as (g' & Hg' & Hc').
    by rewrite (concat_unique _ _ _ _ _ Hnd Hh (placed_member Hn Hpl _ (or_intror Hg')) Hc Hc'). }
  assert (cmp_le (cmp_candidate x policy) g h) as Hle.
  { eapply sorted_app_le; [|exact Hgt|exact Hhr]. rewrite (placed_order _ _ _ _ Hpl).
    apply (sort_by_key_sorted (candidate_key x policy)), cmp_candidate_key. }
  unfold cmp_le, cmp_candidate in Hle. split.
  - intros Hp. rewrite Hp in Hle. by destruct (is_preferred policy g).
  - intros Hpref Hmode E. rewrite Hpref, Hmode, E, cmp_refl in Hle. cbn [then_with andb] in Hle.
    rewrite bool_decide_eq_true_2 in Hle by done.
    destruct (cmp (capacity_rank (CpuCoreGroup.performance_class g)) _) eqn:Ec; [apply cmp_eq in Ec as ->; done| |done].
    apply N.compare_lt_iff in Ec. by apply N.lt_le_incl.
Qed.
