(* ===== verification/Resolution.v ===== *)
(** * What a resolution promises

    The theorems about [PolicyResolver::resolve] and [TypedPlanner::build]:
    every planned mutation is permitted, every proposal is answered,
    dependencies come first, and a resolved plan is a valid plan. *)
From stdpp Require Import relations sorting.
From S2P Require Import Prelude Lists Text Ids Capability Mutation Decision Plan Policy Specs Resolver ResolutionLaws Kahn Finalize FinalizeLaws Digest.
Local Open Scope N_scope.
Unset Default Proof Using.

(** ** Shapes of decided candidates *)

Lemma contract_validate_Ok c :
  OperationContract.validate c = Ok tt →
  NoDup c.(OperationContract.dependencies)
  ∧ c.(OperationContract.operation) ∉ c.(OperationContract.dependencies)
  ∧ SnapshotContract.equality c.(OperationContract.snapshot) = c.(OperationContract.equality)
  ∧ RestoreContract.equality c.(OperationContract.restore) = c.(OperationContract.equality)
  ∧ VerificationContract.equality c.(OperationContract.verification) = c.(OperationContract.equality).
Proof.
  unfold OperationContract.validate. intros Hv.
  destruct (_ || _ || _) eqn:E in Hv; [done|]. case_bool_decide as Hin; [done|].
  destruct (Nat.eqb _ _) eqn:El in Hv; [|done]. rewrite !orb_false_iff, !bool_decide_ne_false in E.
  destruct_and! E. split_and!; try done. apply Nat.eqb_eq in El. clear -El.
  induction (OperationContract.dependencies c) as [|d l IH]; [constructor|]. cbn in El.
  assert (length (remove_dups l) <= length l)%nat as Hle.
  { clear. induction l as [|d l IH]; cbn; [done|]. case_decide; cbn; lia. }
  case_decide as Hd; cbn in El; [lia|]. constructor; [done|].
  apply IH. lia.
Qed.

Lemma resolve_spec_cases catalog policy index spec order target fact proposal c :
  resolve_spec catalog policy index spec order target fact proposal = Ok c →
  (Declined spec order target proposal c ∨
   ∃ g evidence, c = admission spec order evidence g
                 ∧ Admissible catalog policy index spec target fact proposal g)
  ∧ (∀ p, proposal = Some p →
       p.(PolicyProposal.request).(PolicyRequest.required) = true
       ∨ policy.(PlannerPolicy.required_default) = true →
       is_settled (Candidate.action c) = true).
Proof.
  unfold resolve_spec. intros Hr. apply bind_Ok in Hr as (c' & Hc & Hr).
  destruct (_ && negb _) eqn:Hreq in Hr; [by destruct (PlanItem.target _)|].
  injection Hr as <-. split; [by apply resolve_spec_inner_cases in Hc|].
  intros p -> Hp. apply andb_false_iff in Hreq as [Hreq|Hreq].
  - apply orb_false_iff in Hreq as [H1' H2']. rewrite H1', H2' in Hp. by destruct Hp.
  - by apply negb_false_iff in Hreq.
Qed.

Lemma find_contract catalog capability operation c :
  OperationCatalog.find capability operation catalog = Some c →
  c ∈ catalog.(OperationCatalog.contracts) ∧ c.(OperationContract.capability) = capability
  ∧ c.(OperationContract.operation) = operation.
Proof.
  unfold OperationCatalog.find. intros [Hin Hb]%find_some. apply list_elem_of_In in Hin.
  by apply andb_true_iff in Hb as [?%bool_decide_eq_true ?%bool_decide_eq_true].
Qed.

Lemma decided_shape catalog input proposals spec target proposal c :
  Decided catalog input proposals spec target proposal c → Shape c.
Proof.
  intros (order & fact & _ & _ & [[Hd|(g & ev & -> & Ha)] _]%resolve_spec_cases).
  - destruct Hd as [_ _ _ _ _ Hdraft Hdeps Hm Hact _].
    split; rewrite ?Hdraft, ?Hdeps; [done| |done|constructor]. split; [done|by intros []].
  - split; cbn; [done| |by intros d [= <-]|].
    + split; eauto.
    + apply contract_validate_Ok. apply (adm_valid _ _ _ _ _ _ _ _ Ha).
Qed.

(** ** Inversion of a resolution *)

Lemma finalize_inv policy m res :
  finalize_candidates policy m = Ok res → Forall Shape (map_values m) →
  ∃ deps ordered cs',
    collect_dependencies (map_values m) = Ok deps
    ∧ ordered ≡ₚ mutation_indices (map_values m)
    ∧ well_ordered deps (mutation_indices (map_values m)) ordered
    ∧ (∀ i, ¬ tc (waits deps (mutation_indices (map_values m))) i i)
    ∧ length cs' = length (map_values m)
    ∧ (∀ i c, map_values m !! i = Some c → ∃ c', cs' !! i = Some c' ∧
         if decide (i ∈ ordered) then completed (assign_ids ordered) deps i c c' else c' = c)
    ∧ res.(PolicyResolution.items) ≡ₚ Candidate.item <$> cs'
    ∧ res.(PolicyResolution.profile) = policy.(PlannerPolicy.profile).
Proof.
  unfold finalize_candidates. intros Hf Hshape. apply bind_Ok in Hf as (deps & Hdeps & Hf).
  destruct (order_of_dependencies _ Hshape _ Hdeps) as (ordered & Ho & Hw & Hac).
  rewrite Ho in Hf. cbn in Hf. destruct (Nat.eqb _ _) eqn:El in Hf; [|done]. cbn in Hf.
  apply Nat.eqb_eq in El. apply bind_Ok in Hf as (cs' & Hcs & [= <-]).
  exists deps, ordered, cs'.
  assert (ordered ≡ₚ mutation_indices (map_values m)) as Hp.
  { apply submseteq_length_Permutation; [|lia]. destruct Hw as (Hn & Hs & _).
    by apply NoDup_submseteq. }
  destruct (complete_all _ _ _ _ _ Hcs) as [Hlen Hget]; [apply Hw|].
  split_and!; try done; [by apply Hac|]. cbn. by rewrite sort_by_perm.
Qed.

Record Resolved (catalog : OperationCatalog.t) (input : PlannerInput.t)
    (res : PolicyResolution.t) (proposals : proposal_map) (m : candidate_map) : Prop := {
  res_catalog : OperationCatalog.validate catalog = Ok tt;
  res_selected : Selected input.(PlannerInput.policy).(PlannerPolicy.proposals) proposals;
  res_answers : Answers catalog input proposals m;
  res_met p : p ∈ map_values proposals → met catalog input proposals p m;
  res_final : finalize_candidates input.(PlannerInput.policy) m = Ok res
}.

Lemma resolve_candidates_inv catalog input m :
  resolve_candidates catalog input = Ok m →
  ∃ proposals, OperationCatalog.validate catalog = Ok tt
    ∧ Selected input.(PlannerInput.policy).(PlannerPolicy.proposals) proposals
    ∧ Answers catalog input proposals m
    ∧ ∀ p, p ∈ map_values proposals → met catalog input proposals p m.
Proof.
  unfold resolve_candidates. intros Hm. apply bind_Ok in Hm as (_ & _ & Hm).
  apply bind_Ok in Hm as ([] & Hcat & Hm). apply bind_Ok in Hm as (proposals & Hsel & Hm).
  cbn zeta in Hm. apply bind_Ok in Hm as (m0 & Hm0 & Hm). exists proposals.
  apply select_selected in Hsel.
  destruct (resolve_candidates_answers catalog input proposals) with m0 m as [Ha Hmet];
    [|apply Hsel|done..|done].
  intros k p Hp. by apply (sel_keys _ _ Hsel).
Qed.

Lemma resolve_inv input r res :
  PolicyResolver.resolve input r = Ok res →
  ∃ proposals m, Resolved r.(PolicyResolver.catalog) input res proposals m.
Proof.
  unfold PolicyResolver.resolve. intros Hr. apply bind_Ok in Hr as (m & Hm & Hf).
  apply resolve_candidates_inv in Hm as (proposals & ? & ? & ? & ?). by exists proposals, m.
Qed.

Lemma resolved_shape catalog input res proposals m :
  Resolved catalog input res proposals m → Forall Shape (map_values m).
Proof.
  intros HR. apply Forall_forall. intros c ([k c'] & -> & Hin)%list_elem_of_fmap.
  apply (ans_decided _ _ _ _ (res_answers _ _ _ _ _ HR)) in Hin as (_ & spec & t & p & Hd).
  by eapply decided_shape.
Qed.

(** What becomes of a candidate. *)
Definition final_item (c : Candidate.t) (item : PlanItem.t) : Prop :=
  match c.(Candidate.mutation) with
  | None => item = c.(Candidate.item)
  | Some d => ∃ ids id pm, item = complete_item c.(Candidate.item) ids pm d.(MutationDraft.target_identity)
      ∧ PlannedMutation.new id d.(MutationDraft.capability) d.(MutationDraft.target)
          d.(MutationDraft.kind) d.(MutationDraft.desired) d.(MutationDraft.precondition)
          d.(MutationDraft.equality) ids = Ok pm
  end.

Lemma resolved_items catalog input res proposals m :
  Resolved catalog input res proposals m →
  (∀ item, item ∈ res.(PolicyResolution.items) → ∃ c, c ∈ map_values m ∧ final_item c item)
  ∧ (∀ c, c ∈ map_values m → ∃ item, item ∈ res.(PolicyResolution.items) ∧ final_item c item).
Proof.
  intros HR. pose proof (resolved_shape _ _ _ _ _ HR) as Hs.
  destruct (finalize_inv _ _ _ (res_final _ _ _ _ _ HR) Hs)
    as (deps & ordered & cs' & _ & Hp & _ & _ & Hlen & Hget & Hitems & _).
  assert (∀ i c, map_values m !! i = Some c →
    ∃ c', cs' !! i = Some c' ∧ final_item c c'.(Candidate.item)) as Hfinal.
  { intros i c Hc. destruct (Hget i c Hc) as (c' & Hc' & Hd). exists c'. split; [done|].
    unfold final_item. destruct (decide (i ∈ ordered)) as [|Hout].
    - destruct Hd as (d & pm & Hd & Hpm & ->). rewrite Hd. eauto 6.
    - subst c'. destruct (Candidate.mutation c) eqn:Hm; [|done]. exfalso. apply Hout.
      rewrite Hp. apply mutation_indices_spec. eauto. }
  split.
  - intros item Hin. rewrite Hitems in Hin. apply list_elem_of_fmap in Hin as (c' & -> & Hin).
    apply list_elem_of_lookup in Hin as (i & Hi).
    destruct (lookup_lt_is_Some_2 (map_values m) i) as [c Hc]; [rewrite <-Hlen; by eapply lookup_lt_Some|].
    destruct (Hfinal i c Hc) as (? & Heq & Hf). rewrite Hi in Heq. injection Heq as <-.
    exists c. split; [by eapply list_elem_of_lookup_2|done].
  - intros c Hin. apply list_elem_of_lookup in Hin as (i & Hi).
    destruct (Hfinal i c Hi) as (c' & Hc' & Hf). exists c'.(Candidate.item). split; [|done].
    rewrite Hitems. apply list_elem_of_fmap. exists c'. split; [done|by eapply list_elem_of_lookup_2].
Qed.

(** ** The policy specification of a planned mutation *)

Record Permitted (catalog : OperationCatalog.t) (input : PlannerInput.t) (i : PlanItem.t)
    (m : PlannedMutation.t) : Prop := {
  perm_mode : input.(PlannerInput.policy).(PlannerPolicy.mode) = PolicyMode.Boost;
  perm_preserve :
    PlannerPolicy.is_preserved i.(PlanItem.feature) i.(PlanItem.target)
      input.(PlannerInput.policy) = None;
  perm_risk :
    RiskClass.gtb i.(PlanItem.risk) input.(PlannerInput.policy).(PlannerPolicy.max_risk) = false;
  perm_experimental :
    i.(PlanItem.feature_class) = FeatureClass.Experimental
    ∨ Feature.is_experimental i.(PlanItem.feature) = true →
    input.(PlannerInput.policy).(PlannerPolicy.allow_experimental) = true;
  perm_opt_in :
    i.(PlanItem.explicit_opt_in_required) = true
    ∨ Feature.is_experimental i.(PlanItem.feature) = true →
    PlannerPolicy.is_opted_in i.(PlanItem.feature) input.(PlannerInput.policy) = true;
  (** a complete reviewed contract, whose metadata the decision carries *)
  perm_contract : ∃ c,
    c ∈ catalog.(OperationCatalog.contracts)
    ∧ c.(OperationContract.capability) = i.(PlanItem.capability)
    ∧ c.(OperationContract.operation) = i.(PlanItem.operation)
    ∧ OperationContract.is_complete c = true
    ∧ c.(OperationContract.risk) = i.(PlanItem.risk)
    ∧ Some c.(OperationContract.backend) = i.(PlanItem.backend)
    ∧ c.(OperationContract.equality) = m.(PlannedMutation.equality)
    ∧ c.(OperationContract.snapshot) = i.(PlanItem.snapshot)
    ∧ c.(OperationContract.restore) = i.(PlanItem.restore)
    ∧ c.(OperationContract.verification) = i.(PlanItem.verification);
  (** available evidence of the same backend for the same operation *)
  perm_evidence : ∃ d o,
    d ∈ input.(PlannerInput.inventory).(CapabilityInventory.capabilities)
    ∧ d.(CapabilityDescriptor.id) = i.(PlanItem.capability)
    ∧ d.(CapabilityDescriptor.state) = CapabilityState.Available
    ∧ Some d.(CapabilityDescriptor.backend) = i.(PlanItem.backend)
    ∧ o ∈ d.(CapabilityDescriptor.operations)
    ∧ o.(OperationDescriptor.id) = i.(PlanItem.operation);
  (** the observation whose fingerprint is the precondition *)
  perm_fact : ∃ f v identity,
    f ∈ input.(PlannerInput.current_state).(CurrentState.facts)
    ∧ f.(CurrentStateFact.capability) = i.(PlanItem.capability)
    ∧ f.(CurrentStateFact.control) = i.(PlanItem.control)
    ∧ Some f.(CurrentStateFact.target) = i.(PlanItem.target)
    ∧ f.(CurrentStateFact.value) = CurrentValue.Known v ∧ i.(PlanItem.current) = Some v
    ∧ f.(CurrentStateFact.fingerprint) = Some m.(PlannedMutation.precondition)
    ∧ f.(CurrentStateFact.target_identity) = Some identity
    ∧ i.(PlanItem.target_identity) = Some identity;
  perm_change : i.(PlanItem.current) ≠ i.(PlanItem.desired);
  perm_mutation :
    i.(PlanItem.mutation) = Some m
    ∧ m.(PlannedMutation.capability) = i.(PlanItem.capability)
    ∧ Some m.(PlannedMutation.target) = i.(PlanItem.target)
    ∧ typed_value m.(PlannedMutation.kind) = m.(PlannedMutation.desired)
    ∧ i.(PlanItem.desired) = Some (PlanValue.Typed m.(PlannedMutation.desired))
    ∧ PlannedMutation.consistent m;
  (** asked for by the policy or by the profile *)
  perm_source :
    (∃ p, p ∈ input.(PlannerInput.policy).(PlannerPolicy.proposals)
          ∧ p.(PolicyProposal.request).(PolicyRequest.capability) = i.(PlanItem.capability)
          ∧ Some p.(PolicyProposal.request).(PolicyRequest.target) = i.(PlanItem.target)
          ∧ p.(PolicyProposal.request).(PolicyRequest.operation) = m.(PlannedMutation.kind))
    ∨ ∃ spec f, spec ∈ feature_specs ∧ spec.(FeatureSpec.operation) = i.(PlanItem.operation)
          ∧ profile_desired input.(PlannerInput.policy).(PlannerPolicy.profile) spec (Some f)
            = (i.(PlanItem.desired), None)
}.

Lemma planned_mutation_fields id capability target kind desired precondition equality ids m :
  PlannedMutation.new id capability target kind desired precondition equality ids = Ok m →
  PlannedMutation.mutation_id m = id ∧ PlannedMutation.capability m = capability
  ∧ PlannedMutation.target m = target ∧ PlannedMutation.kind m = kind
  ∧ PlannedMutation.desired m = desired ∧ PlannedMutation.precondition m = precondition
  ∧ PlannedMutation.equality m = equality ∧ PlannedMutation.dependencies m = ids
  ∧ PlannedMutation.consistent m.
Proof.
  unfold PlannedMutation.new. intros Hn. apply bind_Ok in Hn as ([] & Hv & Hn).
  case_bool_decide as Ht; [|done]. cbn in Hn. case_bool_decide as Hd; [done|].
  injection Hn as <-. by split_and!.
Qed.

Lemma min_by_elem {A} (c : A → A → comparison) l x : DescriptorIndex.min_by c l = Some x → x ∈ l.
Proof.
  revert x. induction l as [|y l IH]; intros x; cbn; [done|].
  destruct (DescriptorIndex.min_by c l) as [z|]; [|intros [= <-]; set_solver].
  specialize (IH z eq_refl). destruct (c y z); intros [= <-]; set_solver.
Qed.

Lemma select_elem capability inventory d :
  DescriptorIndex.select capability (DescriptorIndex.new inventory) = Some d →
  d ∈ inventory.(CapabilityInventory.capabilities) ∧ d.(CapabilityDescriptor.id) = capability.
Proof.
  intros Hm%min_by_elem. apply list_elem_of_filter in Hm as [Hid Hin].
  cbn in Hin. by rewrite sort_by_elem in Hin.
Qed.

(** Every experimental family asks for an opt-in. *)
Lemma known_spec_opt_in spec :
  known_spec spec → Feature.is_experimental spec.(FeatureSpec.feature) = true →
  spec.(FeatureSpec.explicit_opt_in) = true.
Proof.
  intros [Hin|[request ->]]; [|done]. revert Hin.
  assert (Forall (λ s, Feature.is_experimental s.(FeatureSpec.feature) = true →
    s.(FeatureSpec.explicit_opt_in) = true) feature_specs) as Hall.
  { unfold feature_specs. repeat constructor; cbn; done. }
  rewrite Forall_forall in Hall. apply Hall.
Qed.

Lemma admission_permitted catalog input res proposals m spec target proposal order fact g evidence ids
    id pm :
  Resolved catalog input res proposals m →
  known_spec spec → Relevant input proposals spec target fact proposal →
  Admissible catalog input.(PlannerInput.policy) (DescriptorIndex.new input.(PlannerInput.inventory))
    spec target fact proposal g →
  PlannedMutation.new id spec.(FeatureSpec.capability) g.(g_target) g.(g_kind)
    (typed_value g.(g_kind)) g.(g_precondition) g.(g_contract).(OperationContract.equality) ids = Ok pm →
  Permitted catalog input
    (complete_item (admission spec order evidence g).(Candidate.item) ids pm g.(g_identity)) pm.
Proof.
  intros HR Hspec [Hfact Hprop _] [] (?&?&?&?&?&?&?&?&?)%planned_mutation_fields.
  unfold contract_disagrees in adm_agrees.
  rewrite !orb_false_iff, !bool_decide_ne_false, negb_false_iff in adm_agrees.
  destruct_and! adm_agrees.
  destruct (select_elem _ _ _ adm_descriptor) as [Hd Hdid].
  destruct (find_contract _ _ _ _ adm_contract) as (Hc & Hccap & Hcop).
  destruct (Hfact _ adm_fact) as (Hf & Hfcap & Hfctl & Hft). subst target fact.
  split; cbn; try done.
  - intros Hx. apply adm_experimental. destruct Hx as [Hx|Hx]; [left; congruence|by right].
  - intros [Hx|Hx]; [by apply adm_opt_in|].
    apply adm_experimental; [by right|by apply known_spec_opt_in].
  - exists g.(g_contract). by split_and!.
  - match goal with Hx : existsb _ _ = true |- _ => apply existsb_exists in Hx as (o & Ho & Hoid) end.
    apply bool_decide_eq_true in Hoid. apply list_elem_of_In in Ho.
    exists g.(g_descriptor), o. split_and!; try done. congruence.
  - exists g.(g_fact), (PlanValue.Typed g.(g_current)), g.(g_identity). split_and!; congruence || done.
  - intros [= Heq]. congruence.
  - split_and!; congruence || done.
  - destruct proposal as [p|].
    + left. destruct (Hprop p eq_refl) as (Hin & [Hpc Hpo] & Ht).
      exists p. apply list_elem_of_fmap in Hin as ([k q] & -> & Hin).
      destruct (sel_keys _ _ (res_selected _ _ _ _ _ HR) _ _ Hin) as (_ & Hin' & _).
      split_and!; [done|done|congruence|]. rewrite (adm_proposal _ eq_refl). by symmetry.
    + right. destruct (adm_profile eq_refl) as [Hprof _]. exists spec, g.(g_fact).
      destruct Hspec as [Hin|[request ->]]; [|done]. by split_and!.
Qed.

Lemma mutations_permitted input r res item :
  PolicyResolver.resolve input r = Ok res → item ∈ res.(PolicyResolution.items) →
  item.(PlanItem.action) = PlanAction.Mutation →
  ∃ m, Permitted r.(PolicyResolver.catalog) input item m.
Proof.
  intros (proposals & cands & HR)%resolve_inv Hin Hact.
  destruct (proj1 (resolved_items _ _ _ _ _ HR) item Hin) as (c & Hc & Hfinal).
  apply list_elem_of_fmap in Hc as ([k c'] & -> & Hc). cbn in Hfinal.
  destruct (ans_decided _ _ _ _ (res_answers _ _ _ _ _ HR) _ _ Hc)
    as (_ & spec & target & proposal & order & fact & Hspec & Hrel & Hres).
  apply resolve_spec_cases in Hres as [[Hd|(g & ev & -> & Ha)] _]; unfold final_item in Hfinal.
  - rewrite (dec_draft _ _ _ _ _ Hd) in Hfinal. subst item. by destruct (dec_action _ _ _ _ _ Hd).
  - destruct Hfinal as (ids & id & pm & -> & Hpm). exists pm. by eapply admission_permitted.
Qed.

(** C3. Every mutation a resolution plans is permitted: the policy is in boost
    mode, does not preserve the target, admits the risk and, for
    experimental families, both the permission and the opt-in; a complete
    reviewed contract and available evidence of the same backend cover the
    operation; the precondition is the fingerprint of the observed current
    value, which differs from the desired one; and the operation was asked
    for by a proposal or by the profile. *)
Theorem planned_mutations_permitted input r res item :
  PolicyResolver.resolve input r = Ok res → item ∈ res.(PolicyResolution.items) →
  item.(PlanItem.action) = PlanAction.Mutation →
  ∃ m, Permitted r.(PolicyResolver.catalog) input item m.
Proof. apply mutations_permitted. Qed.

(** ** Every proposal is answered *)

Lemma decided_key catalog input proposals spec target proposal c :
  Decided catalog input proposals spec target proposal c →
  c.(Candidate.key).(CandidateKey.capability) = spec.(FeatureSpec.capability)
  ∧ c.(Candidate.key).(CandidateKey.target) = target
  ∧ c.(Candidate.key).(CandidateKey.operation) = spec.(FeatureSpec.operation)
  ∧ c.(Candidate.item).(PlanItem.capability) = spec.(FeatureSpec.capability)
  ∧ c.(Candidate.item).(PlanItem.target) = target
  ∧ c.(Candidate.item).(PlanItem.operation) = spec.(FeatureSpec.operation).
Proof.
  intros (order & fact & _ & _ & [[Hd|(g & ev & -> & Ha)] _]%resolve_spec_cases).
  - destruct Hd as [Hk ? ? ? ? _ _ _ _ _]. rewrite Hk. by split_and!.
  - cbn. by rewrite (adm_target _ _ _ _ _ _ _ _ Ha).
Qed.

(** The decision in the map is the one made for the selected proposal. *)
Lemma met_decided catalog input res proposals m e :
  Resolved catalog input res proposals m → e ∈ map_values proposals →
  ∃ c spec, c ∈ map_values m ∧ proposes spec e
    ∧ Decided catalog input proposals spec
        (Some e.(PolicyProposal.request).(PolicyRequest.target)) (Some e) c.
Proof.
  intros HR He. destruct (res_met _ _ _ _ _ HR e He) as (spec & c & [Hcap Hop] & Hdec & c' & Hget & _).
  apply map_get_elem in Hget; [|apply (ans_sorted _ _ _ _ (res_answers _ _ _ _ _ HR))].
  destruct (ans_decided _ _ _ _ (res_answers _ _ _ _ _ HR) _ _ Hget) as (Hk & spec' & t' & p' & Hdec').
  destruct (decided_key _ _ _ _ _ _ _ Hdec) as (Hk1 & Hk2 & Hk3 & _).
  destruct (decided_key _ _ _ _ _ _ _ Hdec') as (Hk1' & Hk2' & Hk3' & _).
  rewrite <-Hk in Hk1', Hk2', Hk3'.
  assert (proposes spec' e) as Hpe by (split; congruence).
  assert (t' = Some e.(PolicyProposal.request).(PolicyRequest.target)) as -> by congruence.
  exists c', spec'. split; [apply list_elem_of_fmap; by exists (Candidate.key c, c')|].
  split; [done|]. destruct p' as [p'|].
  - enough (p' = e) as -> by done. destruct Hdec' as (o & f & _ & [_ Hrel _] & _).
    destruct (Hrel p' eq_refl) as (Hin & [Hcap' Hop'] & Ht).
    apply list_elem_of_fmap in Hin as ([k1 q1] & -> & Hin). cbn in *.
    apply list_elem_of_fmap in He as ([k2 q2] & -> & He). cbn in *.
    destruct (sel_keys _ _ (res_selected _ _ _ _ _ HR) _ _ Hin) as (-> & _ & _).
    destruct (sel_keys _ _ (res_selected _ _ _ _ _ HR) _ _ He) as (-> & _ & _).
    pose proof (sel_sorted _ _ (res_selected _ _ _ _ _ HR)) as Hs.
    apply (map_get_elem _ _ _ Hs) in Hin, He.
    assert (selection_key q1 = selection_key q2) as Heq.
    { unfold selection_key, CandidateKey.new. destruct Hpe as [Hcap2 Hop2]. congruence. }
    rewrite Heq in Hin. congruence.
  - destruct Hdec' as (o & f & _ & [_ _ Hrel] & _). by destruct (Hrel e eq_refl He Hpe).
Qed.

(** C33. Every proposal of a resolved policy is answered: a proposal for the
    same operation and target that is at least as strong, and that agrees
    with it when equally strong, speaks for it, and the resolution holds a
    decision about them. If the speaker is required the decision is a
    mutation to, or the presence of, exactly the value it asks for. *)
Theorem proposals_answered input r res p :
  PolicyResolver.resolve input r = Ok res →
  p ∈ input.(PlannerInput.policy).(PlannerPolicy.proposals) →
  ∃ e item,
    e ∈ input.(PlannerInput.policy).(PlannerPolicy.proposals) ∧ speaks_for e p
    ∧ item ∈ res.(PolicyResolution.items)
    ∧ item.(PlanItem.capability) = p.(PolicyProposal.request).(PolicyRequest.capability)
    ∧ item.(PlanItem.target) = Some p.(PolicyProposal.request).(PolicyRequest.target)
    ∧ item.(PlanItem.operation) = operation_id (operation_of p)
    ∧ (e.(PolicyProposal.request).(PolicyRequest.required) = true
       ∨ input.(PlannerInput.policy).(PlannerPolicy.required_default) = true →
       is_settled item.(PlanItem.action) = true)
    ∧ (item.(PlanItem.action) = PlanAction.Mutation →
       ∃ m, item.(PlanItem.mutation) = Some m ∧ m.(PlannedMutation.kind) = operation_of e)
    ∧ (item.(PlanItem.action) = PlanAction.NoOp →
       item.(PlanItem.current) = Some (PlanValue.Typed (typed_value (operation_of e)))).
Proof.
  intros (proposals & cands & HR)%resolve_inv Hp.
  destruct (sel_all _ _ (res_selected _ _ _ _ _ HR) p Hp) as (e & Hget & Hsp).
  apply map_get_elem in Hget; [|apply (sel_sorted _ _ (res_selected _ _ _ _ _ HR))].
  destruct (sel_keys _ _ (res_selected _ _ _ _ _ HR) _ _ Hget) as (Hk & He & _).
  destruct (met_decided _ _ _ _ _ e HR) as (c & spec & Hc & [Hcap Hop] & Hdec).
  { apply list_elem_of_fmap. by exists (selection_key p, e). }
  destruct (proj2 (resolved_items _ _ _ _ _ HR) c Hc) as (item & Hitem & Hfinal).
  destruct (decided_key _ _ _ _ _ _ _ Hdec) as (_ & _ & _ & Hic & Hit & Hio).
  destruct Hdec as (order & fact & _ & _ & [Hcases Hreq]%resolve_spec_cases).
  exists e, item. pose proof (f_equal CandidateKey.capability Hk) as Hk1.
  pose proof (f_equal CandidateKey.target Hk) as Hk2.
  pose proof (f_equal CandidateKey.operation Hk) as Hk3. cbn in Hk1, Hk2, Hk3.
  specialize (Hreq e eq_refl). unfold final_item in Hfinal. unfold operation_of, operation_id in *.
  destruct Hcases as [Hd|(g & ev & -> & Ha)].
  - rewrite (dec_draft _ _ _ _ _ Hd) in Hfinal. subst item.
    split_and!; try done; [congruence..| |].
    + intros Hm. by destruct (dec_action _ _ _ _ _ Hd).
    + intros Hn. destruct (dec_noop _ _ _ _ _ Hd Hn) as [-> Hdes]. by apply Hdes.
  - destruct Hfinal as (ids & id & pm & -> & Hpm). cbn in *.
    split_and!; try done; [congruence..|]. intros _. exists pm. split; [done|].
    apply planned_mutation_fields in Hpm as (_ & _ & _ & -> & _).
    symmetry. by apply (adm_proposal _ _ _ _ _ _ _ _ Ha).
Qed.

(** ** Dependencies come first *)

Lemma resolved_topological catalog input res proposals m :
  Resolved catalog input res proposals m → N.of_nat (length res.(PolicyResolution.items)) < 2 ^ 32 →
  topological (Plan.item_mutations res.(PolicyResolution.items)).
Proof.
  intros HR Hbound. pose proof (resolved_shape _ _ _ _ _ HR) as Hshape.
  destruct (finalize_inv _ _ _ (res_final _ _ _ _ _ HR) Hshape)
    as (deps & ordered & cs' & Hcol & Hperm & Hwell & _ & Hlen & Hget & Hitems & _).
  remember (map_values m) as cs eqn:Hcs. destruct (collect_Ok _ _ Hcol) as (_ & _ & Hdeps & Hall).
  rewrite Hitems, length_fmap, Hlen in Hbound.
  eapply (numbered_topological cs Hshape deps ordered cs'); try done.
  unfold Plan.item_mutations. by rewrite Hitems.
Qed.

(** The mutations of a resolution are in topological order, and whatever a
    reviewed contract depends on is decided on the same target: by a
    mutation with a smaller identifier that the mutation names, or by a
    decision that no mutation is needed. *)
Theorem dependencies_first input r res :
  PolicyResolver.resolve input r = Ok res →
  N.of_nat (length res.(PolicyResolution.items)) < 2 ^ 32 →
  topological (Plan.item_mutations res.(PolicyResolution.items))
  ∧ ∀ item m contract dep,
      item ∈ res.(PolicyResolution.items) → item.(PlanItem.mutation) = Some m →
      OperationCatalog.find item.(PlanItem.capability) item.(PlanItem.operation)
        r.(PolicyResolver.catalog) = Some contract →
      dep ∈ contract.(OperationContract.dependencies) →
      ∃ before, before ∈ res.(PolicyResolution.items)
        ∧ before.(PlanItem.target) = item.(PlanItem.target) ∧ before.(PlanItem.operation) = dep
        ∧ (is_satisfied before.(PlanItem.action) = true
           ∨ ∃ m', before.(PlanItem.mutation) = Some m'
               ∧ m'.(PlannedMutation.mutation_id) ∈ m.(PlannedMutation.dependencies)
               ∧ MutationId.get m'.(PlannedMutation.mutation_id)
                 < MutationId.get m.(PlannedMutation.mutation_id)).
Proof.
  intros (proposals & cands & HR)%resolve_inv Hbound.
  pose proof (resolved_shape _ _ _ _ _ HR) as Hshape.
  destruct (finalize_inv _ _ _ (res_final _ _ _ _ _ HR) Hshape)
  as (deps & ordered & cs' & Hcol & Hperm & Hwell & _ & Hlen & Hget & Hitems & _).
  remember (map_values cands) as cs eqn:Hcs. destruct (collect_Ok _ _ Hcol) as (_ & _ & Hdeps & Hall).
  assert (N.of_nat (length cs) < 2 ^ 32) as Hb.
  { pose proof Hbound as Hb. rewrite Hitems, length_fmap in Hb. by rewrite <-Hlen. }
  split; [by eapply resolved_topological|].
  intros item m contract dep Hin Hm Hfind Hdep. rewrite Hitems in Hin.
  apply list_elem_of_fmap in Hin as (c' & -> & Hin).
  apply list_elem_of_lookup in Hin as (i & Hi).
  assert (mutation_at cs' i = Some m) as Hat by (unfold mutation_at; by rewrite Hi).
  destruct (mutation_at_inv _ Hshape _ _ _ Hlen Hget _ _ Hat) as [p Hp].
  destruct (mutation_at_ordered _ _ _ _ Hperm Hwell Hlen Hb Hget _ _ Hp) as (_ & c & d & _ & Hc & Hd & _).
  destruct (Hget i c Hc) as (c'' & Heq & Hcomp). rewrite Hi in Heq. injection Heq as <-.
  rewrite decide_True in Hcomp by (by eapply list_elem_of_lookup_2).
  destruct Hcomp as (d' & pm & Hd' & _ & ->). cbn in *.
  assert (c ∈ cs) as Hcin by (by eapply list_elem_of_lookup_2).
  rewrite Hcs in Hcin. apply list_elem_of_fmap in Hcin as ([k c1] & -> & Hcin). cbn in *.
  destruct (ans_decided _ _ _ _ (res_answers _ _ _ _ _ HR) _ _ Hcin)
    as (_ & spec & target & prop & order & fact & _ & _ & [Hcases _]%resolve_spec_cases).
  destruct Hcases as [Hdec|(g & ev & -> & Ha)].
  { rewrite (dec_draft _ _ _ _ _ Hdec) in Hd. done. }
  cbn in Hfind. rewrite (adm_contract _ _ _ _ _ _ _ _ Ha) in Hfind. injection Hfind as <-.
  assert (i ∈ mutation_indices cs) as Hiin by (rewrite <-Hperm; by eapply list_elem_of_lookup_2).
  destruct (dependency_before cs Hshape deps ordered cs' Hperm Hwell Hdeps Hlen Hb Hget i m _
    g.(g_target) dep Hat Hc eq_refl Hdep (Hall i Hiin)) as (j & b & Hj & Hbt & Hbo & Hbm).
  exists b.(Candidate.item). split_and!; [|done..].
  rewrite Hitems. apply list_elem_of_fmap. exists b. split; [done|by eapply list_elem_of_lookup_2].
Qed.

(** ** Cycles *)

(** Mutation [i] waits for mutation [j]. *)
Definition depends (cs : list Candidate.t) (i j : nat) : Prop :=
  i ∈ mutation_indices cs ∧ j ∈ edges_of cs i.

Lemma planned_mutation_error id capability target kind desired precondition equality ids e :
  PlannedMutation.new id capability target kind desired precondition equality ids = Err e →
  e ≠ cycle_error.
Proof.
  unfold PlannedMutation.new, validate_kind, planning_error. intros Hn ->.
  repeat (case_match; cbn in *; try discriminate).
Qed.

Lemma complete_error ids deps l cs e :
  try_fold (complete_step ids deps) l cs = Err e → e ≠ cycle_error.
Proof.
  revert cs. induction l as [|i l IH]; intros cs; cbn; [done|].
  destruct (complete_step ids deps cs i) as [cs1|e1] eqn:Hs; cbn; [apply IH|].
  intros [= <-]. unfold complete_step, planning_error in Hs.
  destruct (cs !! i) as [c|]; [|by injection Hs as <-].
  destruct (Candidate.mutation c) as [d|]; [|by injection Hs as <-].
  destruct (PlannedMutation.new _ _ _ _ _ _ _ _) eqn:Hn; [done|].
  injection Hs as <-. by eapply planned_mutation_error.
Qed.

(** When the dependencies of all decisions can be collected, the resolver
    reports a cycle exactly when some mutation depends, through others, on
    itself; and the ordering never runs out of steps. *)
Theorem cycle_error_iff catalog input m deps policy :
  resolve_candidates catalog input = Ok m → collect_dependencies (map_values m) = Ok deps →
  (finalize_candidates policy m = Err cycle_error
   ↔ ¬ ∀ i, ¬ tc (depends (map_values m)) i i)
  ∧ is_Some (order (key_at (map_values m)) deps (mutation_indices (map_values m))).
Proof.
  intros (proposals & _ & _ & HA & _)%resolve_candidates_inv Hcol.
  assert (Forall Shape (map_values m)) as Hshape.
  { apply Forall_forall. intros c ([k c'] & -> & Hin)%list_elem_of_fmap.
    apply (ans_decided _ _ _ _ HA) in Hin as (_ & spec & t & p & Hd). by eapply decided_shape. }
  destruct (order_of_dependencies _ Hshape _ Hcol) as (l & Hl & Hw & Hac).
  split; [|by rewrite Hl].
  destruct (collect_Ok _ _ Hcol) as (_ & _ & Hdeps & _).
  assert (∀ i, tc (waits deps (mutation_indices (map_values m))) i i
               ↔ tc (depends (map_values m)) i i) as Hiff.
  { intros i. split; (apply (tc_congruence id)); intros x y [Hx Hy]; split; try done.
    - by rewrite <-Hdeps.
    - by rewrite Hdeps. }
  setoid_rewrite <-Hiff. rewrite <-Hac.
  unfold finalize_candidates. rewrite Hcol, bind_Ok_l with (a := deps) by done.
  rewrite Hl. cbn. destruct (Nat.eqb_spec (length l) (length (mutation_indices (map_values m)))) as [E|E]; cbn.
  - split; [|done]. intros Hf. exfalso.
    destruct (try_fold _ l (map_values m)) as [cs'|e] eqn:Ht; cbn in Hf; [done|].
    injection Hf as ->. by eapply complete_error.
  - by split.
Qed.

(** ** The assembled plan *)

Lemma bool_decide_ne_refl {A} `{!EqDecision A} (x : A) : bool_decide (x ≠ x) = false.
Proof. by apply bool_decide_ne_false. Qed.


(** The default operation of a built-in family is the family's own. *)
Lemma default_kind_operation spec profile fact f v kind :
  spec ∈ feature_specs → profile_desired profile spec fact = (Some (PlanValue.Typed v), None) →
  default_kind spec.(FeatureSpec.control) f v = Some kind →
  operation_id kind = spec.(FeatureSpec.operation).
Proof.
  assert (∀ o fact reason w, or_reason o fact reason = (Some w, None) → o = Some w) as Hor.
  { intros o fact' reason w. unfold or_reason. destruct o; [by intros [= ->]|by case_bool_decide]. }
  intros Hin Hp Hk. unfold feature_specs in Hin.
  assert (∃ t, f.(CurrentStateFact.typed_target) = Some t) as [t Ht].
  { unfold default_kind in Hk. destruct (CurrentStateFact.typed_target f); [eauto|done]. }
  unfold default_kind in Hk. rewrite Ht in Hk. cbn in Hk.
  repeat (apply elem_of_cons in Hin as [->|Hin];
    [cbn in *; try (injection Hp as ?; discriminate); try discriminate Hp;
     repeat case_match; by simplify_eq|]).
  by apply elem_of_nil in Hin.
Qed.

Lemma final_item_validate catalog input res proposals m item :
  Resolved catalog input res proposals m → item ∈ res.(PolicyResolution.items) →
  PlanItem.validate item = Ok tt
  ↔ (item.(PlanItem.action) = PlanAction.Mutation → item.(PlanItem.evidence) ≠ []).
Proof.
  intros HR Hin. destruct (proj1 (resolved_items _ _ _ _ _ HR) item Hin) as (c & Hc & Hfinal).
  apply list_elem_of_fmap in Hc as ([k c'] & -> & Hc). cbn in Hfinal.
  destruct (ans_decided _ _ _ _ (res_answers _ _ _ _ _ HR) _ _ Hc)
    as (_ & spec & target & proposal & order & fact & Hspec & Hrel & Hres).
  apply resolve_spec_cases in Hres as [[Hd|(g & ev & -> & Ha)] _]; unfold final_item in Hfinal.
  - rewrite (dec_draft _ _ _ _ _ Hd) in Hfinal. subst item. pose proof (dec_action _ _ _ _ _ Hd) as Hact.
    unfold PlanItem.validate, Candidate.action in *. rewrite (dec_mutation _ _ _ _ _ Hd).
    destruct (PlanItem.action _); try done; by split.
  - destruct Hfinal as (ids & id & pm & -> & Hpm).
    apply planned_mutation_fields in Hpm as (Hid & Hcap & Ht & Hk & Hdes & Hpre & Heq & Hdeps & _).
    unfold PlanItem.validate, PlanItem.metadata_disagrees. cbn in *.
    destruct Ha as [_ _ _ _ _ Hvalid Hcomplete _ _ _ _ _ _ _ _ _ _ Hprop Hprof].
    apply contract_validate_Ok in Hvalid as (_ & _ & He1 & He2 & He3).
    unfold OperationContract.is_complete in Hcomplete. rewrite !andb_true_iff in Hcomplete.
    destruct Hcomplete as [[[[H1' H2'] H3'] _] _]. rewrite H1', H2', H3'. cbn.
    rewrite Hk, Hcap, Ht, Hdes, Heq, Hdeps, He1, He2, He3.
    assert (spec.(FeatureSpec.operation) = operation_id g.(g_kind)) as Hop.
    { destruct proposal as [p|].
      - destruct Hrel as [_ Hrel _]. destruct (Hrel p eq_refl) as (_ & [_ <-] & _).
        by rewrite (Hprop p eq_refl).
      - destruct (Hprof eq_refl) as [Hpd Hdk]. destruct Hspec as [Hin'|[request ->]]; [|done].
        symmetry. by eapply default_kind_operation. }
    rewrite Hop, !bool_decide_ne_refl. cbn.
    destruct (bool_decide_reflect (ev = [])) as [Hev|Hev].
    + split; [done|]. intros Hne. by destruct (Hne eq_refl).
    + by split; [intros _ _|].
Qed.

(** Two decisions to change one control of one target. *)
Definition clash (i j : PlanItem.t) : Prop :=
  i.(PlanItem.action) = PlanAction.Mutation ∧ j.(PlanItem.action) = PlanAction.Mutation
  ∧ i.(PlanItem.target) = j.(PlanItem.target) ∧ i.(PlanItem.control) = j.(PlanItem.control).

Lemma conflicts_iff i j :
  PlanItem.validate j = Ok tt →
  (PlanAction.is_executable j.(PlanItem.action) && bool_decide (is_Some j.(PlanItem.target)))
  && Plan.conflicts i j = true ↔ clash i j.
Proof.
  intros Hv. unfold Plan.conflicts, clash.
  rewrite !andb_true_iff, !bool_decide_eq_true, !is_executable_iff.
  split; [tauto|]. intros (Hi & Hj & Ht & Hc). split_and!; try done.
  unfold PlanItem.validate in Hv. rewrite Hj in Hv. cbn in Hv.
  destruct (PlanItem.mutation j); [|done]. cbn in Hv.
  destruct (PlanItem.target j); [eauto|]. exfalso. clear -Hv.
  destruct (bool_decide (PlanItem.backend j = None)); cbn in Hv; done.
Qed.


Lemma validate_items_iff p :
  Plan.item_mutations p.(Plan.items) = p.(Plan.mutations) →
  (∀ i, i ∈ p.(Plan.items) → PlanItem.validate i = Ok tt) →
  Plan.validate_items p = Ok tt
  ↔ ∀ a b i j, (a < b)%nat → p.(Plan.items) !! a = Some i → p.(Plan.items) !! b = Some j →
      ¬ clash i j.
Proof.
  intros Hm Hv. unfold Plan.validate_items. case_bool_decide as Hnil.
  { rewrite Hnil. split; [|done]. intros _ a b i j _ Ha. by rewrite lookup_nil in Ha. }
  rewrite (proj2 (for_each_elem _ _) Hv), bind_Ok_l with (a := tt) by done.
  rewrite bool_decide_true by done. cbn [negb]. rewrite for_each_enumerate. split.
  - intros H' a b i j Hab Hi Hj Hc. specialize (H' b j Hj). cbn in H'.
    apply conflicts_iff in Hc as Hc'; [|by eapply Hv, list_elem_of_lookup_2].
    apply andb_true_iff in Hc' as [Hc1 Hc2]. rewrite Hc1 in H'. cbn in H'.
    assert (existsb (λ previous, Plan.conflicts previous j) (take b p.(Plan.items)) = true) as He.
    { apply existsb_exists. exists i. split; [|done].
      apply list_elem_of_In, list_elem_of_lookup. exists a. by rewrite lookup_take_lt. }
    by rewrite He in H'.
  - intros Hno b j Hj. cbn. destruct (_ && existsb _ _) eqn:E; [|done]. exfalso.
    apply andb_true_iff in E as [E1 E2]. apply existsb_exists in E2 as (i & Hi & Hc).
    apply list_elem_of_In, list_elem_of_lookup in Hi as (a & Ha).
    apply lookup_take_Some in Ha as [Ha Hab].
    apply (Hno a b i j Hab Ha Hj), conflicts_iff; [by eapply Hv, list_elem_of_lookup_2|].
    by rewrite E1, Hc.
Qed.

(** The two ways in which a resolution is not a plan. *)
Definition plannable (items : list PlanItem.t) : Prop :=
  (∀ i, i ∈ items → i.(PlanItem.action) = PlanAction.Mutation → i.(PlanItem.evidence) ≠ [])
  ∧ ∀ a b i j, (a < b)%nat → items !! a = Some i → items !! b = Some j → ¬ clash i j.

(** The planner turns a resolution into a plan exactly when every planned
    mutation carries evidence and no two of them change one control of one
    target: the reference, cycle and order checks of the plan, and all
    other checks of its items, never reject a resolution. The plan holds
    the resolution's decisions, and its identity is a prefix of its
    digest. *)
Theorem build_iff_plannable debug_kind input r res :
  PolicyResolver.resolve input r = Ok res →
  N.of_nat (length res.(PolicyResolution.items)) < 2 ^ 32 →
  (plannable res.(PolicyResolution.items)
   ↔ ∃ p, TypedPlanner.build debug_kind input (TypedPlanner.mk r) = Ok p
          ∧ p.(Plan.items) = res.(PolicyResolution.items)
          ∧ p.(Plan.profile) = Some input.(PlannerInput.policy).(PlannerPolicy.profile)
          ∧ vec_to_list p.(Plan.id).(PlanId.as_bytes) = take 16 p.(Plan.plan_digest)).
Proof.
  intros Hres Hbound. pose proof (resolve_inv _ _ _ Hres) as (proposals & m & HR).
  pose proof (resolved_topological _ _ _ _ _ HR Hbound) as Htop.
  assert (res.(PolicyResolution.profile) = input.(PlannerInput.policy).(PlannerPolicy.profile)) as Hprofile.
  { by destruct (finalize_inv _ _ _ (res_final _ _ _ _ _ HR) (resolved_shape _ _ _ _ _ HR))
      as (? & ? & ? & _ & _ & _ & _ & _ & _ & _ & ?). }
  pose proof (λ i Hi, final_item_validate _ _ _ _ _ i HR Hi) as Hval.
  set (plan_of := λ id d1 d2 d3, Plan.mk id d1 d2 d3 (Plan.item_mutations res.(PolicyResolution.items))
    res.(PolicyResolution.items) (Some res.(PolicyResolution.profile))).
  assert (∀ id d1 d2 d3, plannable res.(PolicyResolution.items)
    ↔ Plan.validate_complete (plan_of id d1 d2 d3) = Ok tt) as Hok.
  { intros id d1 d2 d3. unfold Plan.validate_complete, plannable.
    assert (bool_decide (Plan.items (plan_of id d1 d2 d3) = [])
            && negb (bool_decide (Plan.mutations (plan_of id d1 d2 d3) = [])) = false) as ->.
    { cbn. case_bool_decide as E; [|done]. by rewrite E. }
    rewrite validate_topological. split.
    - intros [Hev Hno]. split; [|done]. apply validate_items_iff; [done| |done].
      intros i Hi. apply (Hval i Hi). by apply Hev.
    - intros [Hvi _]. assert (∀ i, i ∈ res.(PolicyResolution.items) → PlanItem.validate i = Ok tt) as Hall.
      { intros i Hi. cbn in Hvi. revert i Hi.
        destruct (decide (res.(PolicyResolution.items) = [])) as [->|Hne];
          [by intros ? ?%elem_of_nil|].
        by destruct (validate_items_Ok (plan_of id d1 d2 d3) Hne Hvi) as [? _]. }
      split; [|by apply (validate_items_iff (plan_of id d1 d2 d3))].
      intros i Hi. by apply (Hval i Hi), Hall. }
  unfold TypedPlanner.build, Plan.from_items. rewrite (bind_Ok_l _ _ res) by done. cbn zeta.
  set (d2 := digest_policy _ _). set (d3 := digest_inventory _). set (d1 := digest_resolution _ _ _ _).
  set (id := PlanId.from_bytes _). fold (plan_of id d1 d2 d3). rewrite (Hok id d1 d2 d3). split.
  - intros Hv. exists (plan_of id d1 d2 d3). rewrite (bind_Ok_l _ _ tt) by done.
    split_and!; [done|done|cbn; by rewrite Hprofile|].
    apply vec_array_copy. by rewrite length_take, length_vec_to_list.
  - intros (p & Hp & _). by apply bind_Ok in Hp as ([] & Hp & _).
Qed.

(** ** Inert planners *)

Lemma built_from_resolution debug_kind input r p :
  TypedPlanner.build debug_kind input (TypedPlanner.mk r) = Ok p →
  ∃ res, PolicyResolver.resolve input r = Ok res
    ∧ p.(Plan.mutations) = Plan.item_mutations res.(PolicyResolution.items)
    ∧ ∀ i, i ∈ res.(PolicyResolution.items) → PlanItem.validate i = Ok tt.
Proof.
  unfold TypedPlanner.build, Plan.from_items. intros (res & Hres & Hb)%bind_Ok.
  cbn zeta in Hb. revert Hb. generalize (PlanId.from_bytes) (digest_inventory).
  generalize (digest_resolution debug_kind res) (digest_policy debug_kind).
  intros dr dp di id_of Hb. revert Hb. generalize (array_copy 16). intros copy Hb.
  apply bind_Ok in Hb as ([] & Hv & [= <-]). exists res. split; [done|]. split; [done|].
  unfold Plan.validate_complete in Hv. destruct (_ && _) in Hv; [done|].
  apply validate_topological in Hv as [Hv _]. cbn in Hv.
  destruct (decide (res.(PolicyResolution.items) = [])) as [->|Hne]; [by intros ? ?%elem_of_nil|].
  match type of Hv with Plan.validate_items ?q = _ => by destruct (validate_items_Ok q Hne Hv) end.
Qed.

Lemma inert debug_kind input r p :
  input.(PlannerInput.policy).(PlannerPolicy.mode) = PolicyMode.Report
  ∨ input.(PlannerInput.current_state).(CurrentState.facts) = [] →
  TypedPlanner.build debug_kind input (TypedPlanner.mk r) = Ok p → p.(Plan.mutations) = [].
Proof.
  intros Hinert (res & Hres & -> & Hvalid)%built_from_resolution.
  unfold Plan.item_mutations. enough (omap PlanItem.mutation res.(PolicyResolution.items) = []) as -> by done.
  apply elem_of_nil_inv. intros m (i & Hi & Hm)%list_elem_of_omap.
  destruct (plan_item_validate_Ok _ _ (Hvalid i Hi) Hm) as (Hex%is_executable_iff & _).
  destruct (mutations_permitted _ _ _ _ Hres Hi Hex) as (m' & Hp). destruct Hinert as [Hr|Hnil].
  - rewrite (perm_mode _ _ _ _ Hp) in Hr. done.
  - destruct (perm_fact _ _ _ _ Hp) as (f & _ & _ & Hf & _). rewrite Hnil in Hf.
    by apply elem_of_nil in Hf.
Qed.

(** Without boost mode, and without observed state, the planner plans
    nothing: in report mode every plan is empty of mutations, and so is
    every plan built through the [Planner] trait, which supplies no current
    state whatever the request asks for. *)
Theorem planner_inert debug_kind r p :
  (∀ input, input.(PlannerInput.policy).(PlannerPolicy.mode) = PolicyMode.Report →
     TypedPlanner.build debug_kind input (TypedPlanner.mk r) = Ok p → p.(Plan.mutations) = [])
  ∧ ∀ request, TypedPlanner.build_request debug_kind request (TypedPlanner.mk r) = Ok p →
      p.(Plan.mutations) = [].
Proof.
  split; [intros input Hm; apply inert; by left|intros request; apply inert; by right].
Qed.
