(* ===== verification/Session.v ===== *)
(** * Session state machine ([sysboost-core/src/session.rs]) *)
From S2P Require Import Prelude Ids Mutation Plan.

Module SessionState.
Inductive t :=
| New | Detected | Planned | Snapshotted | IntentDurable | Applying | Active
| Restoring | Restored | RollingBack | Degraded | RecoveryPending.
#[global] Instance t_eq_dec : EqDecision t. Proof. solve_decision. Defined.

Definition is_terminal (s : t) : bool :=
  match s with Restored | Degraded | RecoveryPending => true | _ => false end.

(** The frozen legal transition table. *)
Definition can_transition (s next : t) : bool :=
  match s, next with
  | New, Detected
  | Detected, Planned
  | Planned, Snapshotted
  | Snapshotted, IntentDurable
  | IntentDurable, Applying
  | IntentDurable, RollingBack
  | Applying, Active
  | Applying, RollingBack
  | Active, Restoring
  | Restoring, Restored
  | Restoring, Degraded
  | RollingBack, Restored
  | RollingBack, Degraded
  | Degraded, RecoveryPending
  | RecoveryPending, Restoring
  | RecoveryPending, Degraded => true
  | _, _ => false
  end.
End SessionState.

Module SessionHeader.
Record t := mk {
  session_id : SessionId.t;
  plan_id : PlanId.t;
  plan_digest : array 32;
  created_at : Timestamp.t;
  targets : list TargetId.t
}.
#[global] Instance t_eq_dec : EqDecision t. Proof. solve_decision. Defined.
End SessionHeader.

Definition stage_for_state (s : SessionState.t) : Stage.t :=
  match s with
  | SessionState.New | SessionState.Detected => Stage.Detect
  | SessionState.Planned => Stage.Plan
  | SessionState.Snapshotted => Stage.Snapshot
  | SessionState.IntentDurable => Stage.DurableIntent
  | SessionState.Applying => Stage.Apply
  | SessionState.Active => Stage.Verify
  | SessionState.Restoring | SessionState.Restored => Stage.Restore
  | SessionState.RollingBack | SessionState.Degraded
  | SessionState.RecoveryPending => Stage.Recovery
  end.

Module Session.
Record t := mk { header : SessionHeader.t; state : SessionState.t }.
#[global] Instance t_eq_dec : EqDecision t. Proof. solve_decision. Defined.

Definition new (session_id : SessionId.t) (plan : Plan.t) (created_at : Timestamp.t) : t :=
  mk (SessionHeader.mk session_id plan.(Plan.id) plan.(Plan.plan_digest) created_at
        (PlannedMutation.target <$> plan.(Plan.mutations)))
     SessionState.New.

(** On an error the receiver is unchanged. *)
Definition transition (s : t) (next : SessionState.t) : Result t :=
  if negb (SessionState.can_transition s.(state) next)
  then Err (SysboostError.new ErrorCode.InvariantViolation
              "illegal session state transition"
            |> SysboostError.with_stage (stage_for_state next)
            |> SysboostError.with_session s.(header).(SessionHeader.session_id))
  else Ok (mk s.(header) next).
End Session.

(** One append-only journal transition. *)
Module TransitionRecord.
Record t := mk {
  sequence : u64;
  session_id : SessionId.t;
  from : SessionState.t;
  to : SessionState.t;
  at_ : Timestamp.t;
  reason : string
}.
#[global] Instance t_eq_dec : EqDecision t. Proof. solve_decision. Defined.
End TransitionRecord.

(** ** Reachable states *)

Inductive reachable : list SessionState.t → SessionState.t → Prop :=
| reach_new : reachable [] SessionState.New
| reach_step path s next :
    reachable path s → SessionState.can_transition s next = true →
    reachable (path ++ [s]) next.

Lemma transition_Ok s next s' :
  Session.transition s next = Ok s' ↔
  SessionState.can_transition s.(Session.state) next = true
  ∧ s' = Session.mk s.(Session.header) next.
Proof. unfold Session.transition. destruct (SessionState.can_transition _ _); naive_solver. Qed.

(** A state after which mutations may exist on the host. *)
Definition mutating (s : SessionState.t) : bool :=
  match s with
  | SessionState.Applying | SessionState.Active | SessionState.Restoring
  | SessionState.RollingBack | SessionState.Degraded
  | SessionState.RecoveryPending | SessionState.Restored => true
  | _ => false
  end.

(** The write-ahead order of the life cycle: every state in which host
    mutations may exist is entered only after [Snapshotted] and
    [IntentDurable]; [Active] only from [Applying]; [Restored] only from a
    restore or rollback state and then the session stays there. *)
Theorem session_write_ahead_order (path : list SessionState.t) (s : SessionState.t) :
  reachable path s →
  (mutating s = true → SessionState.Snapshotted ∈ path ∧ SessionState.IntentDurable ∈ path)
  ∧ (s = SessionState.Active → last path = Some SessionState.Applying)
  ∧ (s = SessionState.Restored →
       last path = Some SessionState.Restoring ∨ last path = Some SessionState.RollingBack)
  ∧ SessionState.Restored ∉ path.
Proof.
  assert (∀ p q, reachable p q → q = SessionState.IntentDurable →
    SessionState.Snapshotted ∈ p) as Hsnap.
  { intros p q []; [done|]. intros ->.
    destruct s0; try done. set_solver. }
  induction 1 as [|path s next Hr IH Hc]; [set_solver|].
  destruct IH as (IH1 & IH2 & IH3 & IH4). pose proof (Hsnap _ _ Hr) as Hs.
  rewrite last_snoc. split_and!.
  - intros Hm. destruct s, next; try done; set_solver.
  - intros ->. by destruct s.
  - intros ->. destruct s; try done; auto.
  - intros [?|Heq%list_elem_of_singleton]%elem_of_app; [done|]. by subst s.
Qed.
