(* ===== verification/Protocol.v ===== *)
(** * The wire protocol ([sysboost-protocol/src/lib.rs])

    The closed request and response messages, their length-bounded frames
    and the cursor that reads a payload.  The codec is exact: a frame decodes
    to a message precisely when it is the encoding of that message, so every
    message has one frame and every accepted frame one meaning. *)
From Stdlib Require Import Strings.Byte.
From S2P Require Import Prelude Lists Text Ids Mut Session.
Local Open Scope N_scope.

Definition PROTOCOL_VERSION : u16 := 1.
Definition MAX_FRAME_BYTES : usize := 65536.
Definition FRAME_MAGIC : list byte := bytes_of_string "SBP1".

Definition protocol_error (message : string) : SysboostError.t :=
  SysboostError.new ErrorCode.TransportError message.

(** A request ID is not zero. *)
Module RequestId.
Record t := mk { get : u64 }.
#[global] Instance t_eq_dec : EqDecision t. Proof. solve_decision. Defined.
Definition new (value : u64) : Result t :=
  if value =? 0 then Err (SysboostError.new ErrorCode.InvalidInput "request ID must be non-zero")
  else Ok (mk value).
(** The type invariant: [new] is the only constructor. *)
Definition wf (x : t) : Prop := x.(get) ≠ 0 ∧ fits 64 x.(get).
#[global] Instance wf_dec x : Decision (wf x). Proof. unfold wf. apply _. Defined.
End RequestId.

Module Request.
Inductive t :=
| Prepare (request_id : RequestId.t) (plan_id : PlanId.t) (plan_digest : array 32)
| Apply (request_id : RequestId.t) (session_id : SessionId.t)
| Restore (request_id : RequestId.t) (session_id : SessionId.t)
| Status (request_id : RequestId.t) (session_id : SessionId.t).
#[global] Instance t_eq_dec : EqDecision t. Proof. solve_decision. Defined.

Definition request_id (r : t) : RequestId.t :=
  match r with
  | Prepare request_id _ _ | Apply request_id _ | Restore request_id _ | Status request_id _ =>
    request_id
  end.
End Request.

Module Response.
Inductive t :=
| Accepted (request_id : RequestId.t) (session_id : SessionId.t)
| Status (request_id : RequestId.t) (session_id : SessionId.t) (state : SessionState.t)
| Rejected (request_id : RequestId.t) (code : ErrorCode.t).
#[global] Instance t_eq_dec : EqDecision t. Proof. solve_decision. Defined.

Definition request_id (r : t) : RequestId.t :=
  match r with Accepted id _ | Status id _ _ | Rejected id _ => id end.
End Response.

(** ** Tags *)

Definition state_tag (state : SessionState.t) : u8 :=
  match state with
  | SessionState.New => 0
  | SessionState.Detected => 1
  | SessionState.Planned => 2
  | SessionState.Snapshotted => 3
  | SessionState.IntentDurable => 4
  | SessionState.Applying => 5
  | SessionState.Active => 6
  | SessionState.Restoring => 7
  | SessionState.Restored => 8
  | SessionState.RollingBack => 9
  | SessionState.Degraded => 10
  | SessionState.RecoveryPending => 11
  end.

Definition state_from_tag (tag : u8) : Result SessionState.t :=
  match tag with
  | 0 => Ok SessionState.New
  | 1 => Ok SessionState.Detected
  | 2 => Ok SessionState.Planned
  | 3 => Ok SessionState.Snapshotted
  | 4 => Ok SessionState.IntentDurable
  | 5 => Ok SessionState.Applying
  | 6 => Ok SessionState.Active
  | 7 => Ok SessionState.Restoring
  | 8 => Ok SessionState.Restored
  | 9 => Ok SessionState.RollingBack
  | 10 => Ok SessionState.Degraded
  | 11 => Ok SessionState.RecoveryPending
  | _ => Err (protocol_error "unknown session-state tag")
  end.

Definition error_tag (code : ErrorCode.t) : u16 :=
  match code with
  | ErrorCode.ConfigError => 1
  | ErrorCode.CapabilityError => 2
  | ErrorCode.Unsupported => 3
  | ErrorCode.AuthorizationError => 4
  | ErrorCode.TargetError => 5
  | ErrorCode.PlanningError => 6
  | ErrorCode.SnapshotError => 7
  | ErrorCode.DurabilityError => 8
  | ErrorCode.TransportError => 9
  | ErrorCode.ApplyError => 10
  | ErrorCode.VerificationError => 11
  | ErrorCode.RestoreConflict => 12
  | ErrorCode.RestoreError => 13
  | ErrorCode.JournalCorrupt => 14
  | ErrorCode.InvariantViolation => 15
  | ErrorCode.InvalidInput => 16
  end.

Definition error_from_tag (tag : u16) : Result ErrorCode.t :=
  match tag with
  | 1 => Ok ErrorCode.ConfigError
  | 2 => Ok ErrorCode.CapabilityError
  | 3 => Ok ErrorCode.Unsupported
  | 4 => Ok ErrorCode.AuthorizationError
  | 5 => Ok ErrorCode.TargetError
  | 6 => Ok ErrorCode.PlanningError
  | 7 => Ok ErrorCode.SnapshotError
  | 8 => Ok ErrorCode.DurabilityError
  | 9 => Ok ErrorCode.TransportError
  | 10 => Ok ErrorCode.ApplyError
  | 11 => Ok ErrorCode.VerificationError
  | 12 => Ok ErrorCode.RestoreConflict
  | 13 => Ok ErrorCode.RestoreError
  | 14 => Ok ErrorCode.JournalCorrupt
  | 15 => Ok ErrorCode.InvariantViolation
  | 16 => Ok ErrorCode.InvalidInput
  | _ => Err (protocol_error "unknown error tag")
  end.

(** ** Frames *)

Definition put_u16 (value : u16) : list byte := to_be 2 value.
Definition put_u32 (value : u32) : list byte := to_be 4 value.
Definition put_u64 (value : u64) : list byte := to_be 8 value.

Definition two_ids (request_id : RequestId.t) (session_id : SessionId.t) : list byte :=
  put_u64 request_id.(RequestId.get) ++ SessionId.as_bytes session_id.

Definition frame (tag : u8) (payload : list byte) : Result (list byte) :=
  if MAX_FRAME_BYTES <? 4 + 2 + 1 + 4 + N.of_nat (length payload)
  then Err (protocol_error "protocol frame exceeds maximum size")
  else Ok (FRAME_MAGIC ++ put_u16 PROTOCOL_VERSION ++ [n2b tag]
             ++ put_u32 (N.of_nat (length payload) mod 2 ^ 32) ++ payload).

Definition unframe (bytes : list byte) : Result (u8 * list byte) :=
  if (MAX_FRAME_BYTES <? N.of_nat (length bytes)) || (N.of_nat (length bytes) <? 11)
  then Err (protocol_error "protocol frame length is invalid")
  else if negb (bool_decide (take 4 bytes = FRAME_MAGIC))
  then Err (protocol_error "protocol magic is invalid")
  else if negb (from_be (take 2 (drop 4 bytes)) =? PROTOCOL_VERSION)
  then Err (protocol_error "protocol version is unsupported")
  else if negb (from_be (take 4 (drop 7 bytes)) =? N.of_nat (length bytes) - 11)
  then Err (protocol_error "protocol payload length does not match frame")
  else Ok (from_be (take 1 (drop 6 bytes)), drop 11 bytes).

Module Cursor.
Record t := mk { bytes : list byte; position : usize }.
Definition new (bytes : list byte) : t := mk bytes 0.

Definition take (length : usize) : Mut t (list byte) := λ c,
  match checked_add64 c.(position) length with
  | None => (Err (protocol_error "protocol cursor overflow"), c)
  | Some stop =>
    if N.of_nat (List.length c.(bytes)) <? stop
    then (Err (protocol_error "protocol payload is truncated"), c)
    else (Ok (take (N.to_nat length) (drop (N.to_nat c.(position)) c.(bytes))),
          mk c.(bytes) stop)
  end.

Definition u8 : Mut t N := l ← take 1; mret (from_be l).
Definition u16 : Mut t N := l ← take 2; mret (from_be l).
Definition u64 : Mut t N := l ← take 8; mret (from_be l).
Definition array_16 : Mut t (array 16) := l ← take 16; mret (array_copy 16 l).
Definition array_32 : Mut t (array 32) := l ← take 32; mret (array_copy 32 l).

Definition finish (c : t) : Result unit :=
  if c.(position) =? N.of_nat (length c.(bytes)) then Ok tt
  else Err (protocol_error "protocol payload contains trailing bytes").
End Cursor.

(** ** Messages *)

Definition encode_request (r : Request.t) : Result (list byte) :=
  match r with
  | Request.Prepare request_id plan_id plan_digest =>
    frame 1 (put_u64 request_id.(RequestId.get) ++ PlanId.as_bytes plan_id ++ plan_digest)
  | Request.Apply request_id session_id => frame 2 (two_ids request_id session_id)
  | Request.Restore request_id session_id => frame 3 (two_ids request_id session_id)
  | Request.Status request_id session_id => frame 4 (two_ids request_id session_id)
  end.

Definition request_body (tag : u8) : Mut Cursor.t Request.t :=
  value ← Cursor.u64;
  request_id ← lift (RequestId.new value);
  match tag with
  | 1 => plan_id ← PlanId.from_bytes <$> Cursor.array_16;
         plan_digest ← Cursor.array_32;
         mret (Request.Prepare request_id plan_id plan_digest)
  | 2 => session_id ← SessionId.from_bytes <$> Cursor.array_16;
         mret (Request.Apply request_id session_id)
  | 3 => session_id ← SessionId.from_bytes <$> Cursor.array_16;
         mret (Request.Restore request_id session_id)
  | 4 => session_id ← SessionId.from_bytes <$> Cursor.array_16;
         mret (Request.Status request_id session_id)
  | _ => throw (protocol_error "unknown request tag")
  end.

(** Read the whole payload with [body]: [cursor.finish()?]. *)
Definition read_payload {A} (body : Mut Cursor.t A) (payload : list byte) : Result A :=
  match body (Cursor.new payload) with
  | (Ok a, cursor) => _ ← Cursor.finish cursor; Ok a
  | (Err e, _) => Err e
  end.

Definition decode_request (bytes : list byte) : Result Request.t :=
  '(tag, payload) ← unframe bytes; read_payload (request_body tag) payload.

Definition encode_response (r : Response.t) : Result (list byte) :=
  match r with
  | Response.Accepted request_id session_id => frame 129 (two_ids request_id session_id)
  | Response.Status request_id session_id state =>
    frame 130 (two_ids request_id session_id ++ [n2b (state_tag state)])
  | Response.Rejected request_id code =>
    frame 131 (put_u64 request_id.(RequestId.get) ++ put_u16 (error_tag code))
  end.

Definition response_body (tag : u8) : Mut Cursor.t Response.t :=
  value ← Cursor.u64;
  request_id ← lift (RequestId.new value);
  match tag with
  | 129 => session_id ← SessionId.from_bytes <$> Cursor.array_16;
           mret (Response.Accepted request_id session_id)
  | 130 => session_id ← SessionId.from_bytes <$> Cursor.array_16;
           tag ← Cursor.u8;
           state ← lift (state_from_tag tag);
           mret (Response.Status request_id session_id state)
  | 131 => tag ← Cursor.u16;
           code ← lift (error_from_tag tag);
           mret (Response.Rejected request_id code)
  | _ => throw (protocol_error "unknown response tag")
  end.

Definition decode_response (bytes : list byte) : Result Response.t :=
  '(tag, payload) ← unframe bytes; read_payload (response_body tag) payload.

(** ** What a cursor program reads

    [Exact d P]: on any remaining input, [d] succeeds with [a] precisely on
    the prefixes [x] with [P a x], and leaves what follows them. *)

Definition At (c : Cursor.t) (l : list byte) : Prop :=
  drop (N.to_nat c.(Cursor.position)) c.(Cursor.bytes) = l
  ∧ c.(Cursor.position) ≤ N.of_nat (length c.(Cursor.bytes)) < 2 ^ 64.

Definition Exact {A} (d : Mut Cursor.t A) (P : A → list byte → Prop) : Prop :=
  ∀ c l, At c l →
    (∀ a c', d c = (Ok a, c') → ∃ x l', l = x ++ l' ∧ P a x ∧ At c' l')
    ∧ (∀ a x l', l = x ++ l' → P a x → ∃ c', d c = (Ok a, c') ∧ At c' l').

Lemma Exact_ret {A} (a : A) : Exact (mret a) (λ b x, b = a ∧ x = []).
Proof.
  intros c l Hc. split.
  - intros b c' [= <- <-]. exists [], l. auto.
  - intros b x l' Hl [-> ->]. exists c. by subst.
Qed.

Lemma Exact_throw {A} e : Exact (throw e : Mut Cursor.t A) (λ _ _, False).
Proof. intros c l Hc. split; [by intros ??|by intros ??? _ []]. Qed.

Lemma Exact_lift {A} (r : Result A) : Exact (lift r) (λ a x, r = Ok a ∧ x = []).
Proof.
  intros c l Hc. split.
  - intros a c' [= -> <-]. exists [], l. auto.
  - intros a x l' Hl [-> ->]. exists c. by subst.
Qed.

Lemma Exact_bind {A B} (d : Mut Cursor.t A) (k : A → Mut Cursor.t B) P Q :
  Exact d P → (∀ a, Exact (k a) (Q a)) →
  Exact (d ≫= k) (λ b x, ∃ a x1 x2, x = x1 ++ x2 ∧ P a x1 ∧ Q a b x2).
Proof.
  intros Hd Hk c l Hc. destruct (Hd c l Hc) as [Hd1 Hd2]. split.
  - intros b c' H. apply mut_bind_Ok in H as (a & c1 & H1 & Hrun).
    destruct (Hd1 _ _ H1) as (x1 & l1 & -> & HP & Hc1).
    destruct (proj1 (Hk a c1 l1 Hc1) _ _ Hrun) as (x2 & l2 & -> & HQ & Hc2).
    exists (x1 ++ x2), l2. rewrite <-app_assoc. eauto 10.
  - intros b x l' -> (a & x1 & x2 & -> & HP & HQ).
    destruct (Hd2 a x1 (x2 ++ l')) as (c1 & Hrun1 & Hc1); [by rewrite app_assoc|done|].
    destruct (proj2 (Hk a c1 _ Hc1) b x2 l' eq_refl HQ) as (c2 & Hrun2 & Hc2).
    exists c2. by rewrite (mut_bind_run _ _ _ _ _ Hrun1).
Qed.

Lemma Exact_weaken {A} (d : Mut Cursor.t A) P Q :
  Exact d P → (∀ a x, P a x ↔ Q a x) → Exact d Q.
Proof. intros H HPQ c l Hc. destruct (H c l Hc) as [H1 H2]. split; naive_solver. Qed.

Lemma Exact_take n : Exact (Cursor.take n) (λ x y, y = x ∧ N.of_nat (length x) = n).
Proof.
  intros [bs p] l [Hd Hp]. cbn in *. unfold Cursor.take, checked_add64. cbn.
  assert (Hl : length l = (length bs - N.to_nat p)%nat) by (by rewrite <-Hd, length_drop).
  destruct (N.ltb_spec (N.of_nat (length bs)) (p + n)) as [Hlt|Hge].
  { split; [destruct (p + n <? 2 ^ 64); cbn; rewrite ?(proj2 (N.ltb_lt _ _) Hlt); by intros ?? [=]|].
    intros x y l' -> [-> Hx]. rewrite length_app in Hl. lia. }
  rewrite (proj2 (N.ltb_lt (p + n) (2 ^ 64))) by lia.
  rewrite (proj2 (N.ltb_ge (N.of_nat (length bs)) (p + n))) by lia. split.
  - intros x c' [= <- <-]. exists (take (N.to_nat n) l), (drop (N.to_nat n) l).
    rewrite take_drop, Hd, length_take. split; [done|]. split; [split; [done|lia]|].
    split; cbn; [|lia]. rewrite <-Hd, drop_drop. f_equal. lia.
  - intros x y l' -> [-> Hx]. rewrite Hd. eexists. split.
    + by rewrite take_app_length' by lia.
    + split; cbn; [|lia]. replace (N.to_nat (p + n)) with (N.to_nat p + N.to_nat n)%nat by lia.
      rewrite <-drop_drop, Hd. by rewrite drop_app_length' by lia.
Qed.

Lemma Exact_uint k w :
  w = 8 * N.of_nat k →
  Exact (l ← Cursor.take (N.of_nat k); mret (from_be l)) (λ v x, x = to_be k v ∧ fits w v).
Proof.
  intros Hw. eapply Exact_weaken.
  { eapply Exact_bind; [apply Exact_take|]. intros l. apply Exact_ret. }
  intros v x. split.
  - intros (l & x1 & x2 & -> & [-> Hl] & -> & ->). rewrite app_nil_r.
    apply Nat2N.inj in Hl. split.
    + by rewrite <-Hl, to_from_be.
    + unfold fits. rewrite Hw, N.pow_mul_r, <-Hl. apply from_be_bound.
  - intros [-> Hv]. exists (to_be k v), (to_be k v), []. rewrite app_nil_r, length_to_be.
    repeat split; try done. symmetry. by apply (from_to_be_small k w).
Qed.

Lemma Exact_array n :
  Exact (l ← Cursor.take (N.of_nat n); mret (array_copy n l)) (λ v x, x = vec_to_list v).
Proof.
  eapply Exact_weaken.
  { eapply Exact_bind; [apply Exact_take|]. intros l. apply Exact_ret. }
  intros v x. split.
  - intros (l & x1 & x2 & -> & [-> Hl] & -> & ->). rewrite app_nil_r, vec_array_copy; [done|lia].
  - intros ->. exists (vec_to_list v), (vec_to_list v), []. rewrite app_nil_r, length_vec_to_list.
    by rewrite array_copy_vec.
Qed.

Lemma read_payload_Ok {A} (d : Mut Cursor.t A) P payload a :
  Exact d P → N.of_nat (length payload) < 2 ^ 64 →
  read_payload d payload = Ok a ↔ P a payload.
Proof.
  intros Hd Hlen. unfold read_payload.
  assert (Hat : At (Cursor.new payload) payload) by (split; [done|cbn; lia]).
  destruct (Hd _ _ Hat) as [Hd1 Hd2]. split.
  - destruct (d _) as [[b|e] c'] eqn:Hrun; [|done]. intros H. inv_res.
    destruct (Hd1 _ _ eq_refl) as (x & l' & Hl & HP & Hend & Hc').
    unfold Cursor.finish in *. destruct (N.eqb_spec c'.(Cursor.position)
      (N.of_nat (length c'.(Cursor.bytes)))) as [Hp|]; [|done].
    rewrite Hp, Nat2N.id, drop_all in Hend. subst l'. by rewrite app_nil_r in Hl; subst.
  - intros HP. destruct (Hd2 a payload [] (eq_sym (app_nil_r _)) HP) as (c' & -> & Hend & Hc').
    unfold Cursor.finish. rewrite (proj2 (N.eqb_eq _ _)); [done|].
    apply (f_equal length) in Hend. rewrite length_drop in Hend. cbn in Hend. lia.
Qed.

(** ** Frames *)

Lemma frame_Ok tag payload bytes :
  frame tag payload = Ok bytes ↔
  11 + N.of_nat (length payload) ≤ MAX_FRAME_BYTES
  ∧ bytes = FRAME_MAGIC ++ put_u16 PROTOCOL_VERSION ++ [n2b tag]
              ++ put_u32 (N.of_nat (length payload)) ++ payload.
Proof.
  unfold frame, MAX_FRAME_BYTES.
  destruct (N.ltb_spec 65536 (4 + 2 + 1 + 4 + N.of_nat (length payload))) as [|Hmax].
  { split; [done|]. intros [??]. lia. }
  rewrite N.mod_small by lia. split; [|intros [_ ->]; done].
  intros H. split; [lia|]. assert (Hinj : ∀ x y : list byte, @Ok SysboostError.t _ x = Ok y → x = y)
    by congruence. by apply Hinj in H.
Qed.

Lemma unframe_frame tag payload bytes :
  fits 8 tag → frame tag payload = Ok bytes → unframe bytes = Ok (tag, payload).
Proof.
  intros Ht [Hmax ->]%frame_Ok. unfold MAX_FRAME_BYTES in Hmax.
  assert (Hl : length (FRAME_MAGIC ++ put_u16 PROTOCOL_VERSION ++ [n2b tag]
            ++ put_u32 (N.of_nat (length payload)) ++ payload) = (11 + length payload)%nat).
  { unfold put_u16, put_u32. by rewrite !length_app, !length_to_be. }
  unfold unframe. rewrite Hl. clear Hl.
  rewrite (proj2 (N.ltb_ge MAX_FRAME_BYTES _)) by (unfold MAX_FRAME_BYTES; lia).
  rewrite (proj2 (N.ltb_ge _ 11)) by lia. cbn [orb]. unfold put_u32.
  assert (H4 : length (to_be 4 (N.of_nat (length payload))) = 4%nat) by apply length_to_be.
  assert (H4v : from_be (to_be 4 (N.of_nat (length payload))) = N.of_nat (length payload)).
  { apply (from_to_be_small 4 32); [done|]. unfold fits. lia. }
  destruct (to_be 4 _) as [|a [|b [|c [|d [|]]]]]; try done.
  change (put_u16 PROTOCOL_VERSION) with [x00; x01].
  change FRAME_MAGIC with [x53; x42; x50; x31]. cbn [app take drop].
  rewrite bool_decide_eq_true_2 by done. cbn [negb].
  change (from_be [x00; x01] =? PROTOCOL_VERSION) with true. cbn [negb].
  rewrite take_0, drop_0, H4v. replace (N.of_nat (11 + length payload) - 11) with (N.of_nat (length payload)) by lia.
  rewrite N.eqb_refl. cbn [negb]. do 2 f_equal.
  unfold from_be. cbn. rewrite b2n_n2b. apply N.mod_small. exact Ht.
Qed.

Lemma frame_unframe tag payload bytes :
  unframe bytes = Ok (tag, payload) → fits 8 tag ∧ frame tag payload = Ok bytes.
Proof.
  unfold unframe.
  destruct (N.ltb_spec MAX_FRAME_BYTES (N.of_nat (length bytes))) as [|Hmax]; [done|].
  destruct (N.ltb_spec (N.of_nat (length bytes)) 11) as [|Hmin]; [done|]. cbn [orb].
  case_bool_decide as Hm; [|done]. cbn [negb].
  destruct (N.eqb_spec (from_be (take 2 (drop 4 bytes))) PROTOCOL_VERSION) as [Hv|]; [|done].
  destruct (N.eqb_spec (from_be (take 4 (drop 7 bytes))) (N.of_nat (length bytes) - 11))
    as [Hn|]; [|done]. cbn [negb]. intros [= <- <-].
  unfold MAX_FRAME_BYTES in Hmax. split.
  { unfold fits. pose proof (from_be_bound (take 1 (drop 6 bytes))) as Hb.
    eapply N.lt_le_trans; [exact Hb|]. rewrite length_take, length_drop.
    replace (N.of_nat (1 `min` (length bytes - 6))) with 1 by lia. done. }
  apply frame_Ok. rewrite length_drop. unfold MAX_FRAME_BYTES. split; [lia|].
  destruct bytes as [|b0 [|b1 [|b2 [|b3 [|b4 [|b5 [|b6 [|b7 [|b8 [|b9 [|b10 l]]]]]]]]]]];
    cbn [length] in Hmin; try lia.
  cbn [take drop length] in *. rewrite ?take_0, ?drop_0 in *. rewrite <-Hm. unfold put_u16, put_u32.
  rewrite <-Hv. replace (N.of_nat (S (S (S (S (S (S (S (S (S (S (S (length l))))))))))) - 11))
    with (from_be [b7; b8; b9; b10]) by (rewrite Hn; lia).
  rewrite (to_from_be [b4; b5] : to_be 2 _ = _), (to_from_be [b7; b8; b9; b10] : to_be 4 _ = _).
  by rewrite (n2b_b2n b6 : n2b (from_be [b6]) = b6).
Qed.

Lemma unframe_length bytes tag payload :
  unframe bytes = Ok (tag, payload) → N.of_nat (length payload) < 2 ^ 64.
Proof.
  intros [_ [H _]%frame_Ok]%frame_unframe. unfold MAX_FRAME_BYTES in H. lia.
Qed.

(** A message codec over frames: a tag and a payload per message. *)
Lemma framed_codec {A} (tag : A → u8) (payload : A → list byte) (wf : A → Prop)
    (body : u8 → Mut Cursor.t A) bytes a :
  (∀ a, fits 8 (tag a)) →
  (∀ t, Exact (body t) (λ a x, wf a ∧ t = tag a ∧ x = payload a)) →
  ('(t, p) ← unframe bytes; read_payload (body t) p) = Ok a
  ↔ wf a ∧ frame (tag a) (payload a) = Ok bytes.
Proof.
  intros Ht Hbody. split.
  - intros H. apply bind_Ok in H as ([t p] & Hu & H).
    apply (read_payload_Ok _ _ _ _ (Hbody t)) in H as (Hwf & -> & ->);
      [|by eapply unframe_length].
    by apply frame_unframe in Hu as [_ Hf].
  - intros [Hwf Hf]. apply (unframe_frame _ _ _ (Ht a)) in Hf.
    rewrite Hf. cbn. apply (read_payload_Ok _ _ _ _ (Hbody (tag a))); [|done].
    by eapply unframe_length.
Qed.

(** ** The grammars of the two message types *)

Definition request_tag (r : Request.t) : u8 :=
  match r with
  | Request.Prepare _ _ _ => 1 | Request.Apply _ _ => 2
  | Request.Restore _ _ => 3 | Request.Status _ _ => 4
  end.
Definition request_payload (r : Request.t) : list byte :=
  match r with
  | Request.Prepare id plan_id plan_digest =>
    put_u64 id.(RequestId.get) ++ PlanId.as_bytes plan_id ++ plan_digest
  | Request.Apply id s | Request.Restore id s | Request.Status id s => two_ids id s
  end.

Definition response_tag (r : Response.t) : u8 :=
  match r with Response.Accepted _ _ => 129 | Response.Status _ _ _ => 130
             | Response.Rejected _ _ => 131 end.
Definition response_payload (r : Response.t) : list byte :=
  match r with
  | Response.Accepted id s => two_ids id s
  | Response.Status id s state => two_ids id s ++ [n2b (state_tag state)]
  | Response.Rejected id code => put_u64 id.(RequestId.get) ++ put_u16 (error_tag code)
  end.

Lemma RequestId_new_Ok v id : RequestId.new v = Ok id ↔ v ≠ 0 ∧ id = RequestId.mk v.
Proof. unfold RequestId.new. destruct (N.eqb_spec v 0); naive_solver. Qed.

Lemma state_from_tag_Ok t s : state_from_tag t = Ok s ↔ t = state_tag s.
Proof.
  split; [|intros ->; by destruct s].
  unfold state_from_tag. repeat case_match; intros [= <-]; done.
Qed.

Lemma error_from_tag_Ok t c : error_from_tag t = Ok c ↔ t = error_tag c.
Proof.
  split; [|intros ->; by destruct c].
  unfold error_from_tag. repeat case_match; intros [= <-]; done.
Qed.

Lemma Exact_u64 : Exact Cursor.u64 (λ v x, x = put_u64 v ∧ fits 64 v).
Proof. by apply (Exact_uint 8). Qed.

(** The request ID every payload starts with. *)
Lemma Exact_request_id {A} (k : RequestId.t → Mut Cursor.t A) Q :
  (∀ id, Exact (k id) (Q id)) →
  Exact (value ← Cursor.u64; id ← lift (RequestId.new value); k id)
    (λ a x, ∃ id y, RequestId.wf id ∧ x = put_u64 id.(RequestId.get) ++ y ∧ Q id a y).
Proof.
  intros Hk. eapply Exact_weaken.
  { eapply Exact_bind; [apply Exact_u64|]. intros v.
    eapply Exact_bind; [apply Exact_lift|exact Hk]. }
  intros a x. split.
  - intros (v & x1 & x2 & -> & [-> Hv] & id & x3 & x4 & -> & [Hid ->] & HQ).
    apply RequestId_new_Ok in Hid as [H0 ->]. by exists (RequestId.mk v), x4.
  - intros (id & y & [H0 Hf] & -> & HQ). exists id.(RequestId.get), (put_u64 id.(RequestId.get)), y.
    repeat split; [done|]. exists id, [], y. repeat split; [|done].
    apply RequestId_new_Ok. by destruct id.
Qed.

Lemma Exact_id {I A} (from : array 16 → I) (bytes : I → array 16) (k : I → A) :
  (∀ v, bytes (from v) = v) → (∀ i, from (bytes i) = i) →
  Exact (i ← from <$> Cursor.array_16; mret (k i)) (λ a x, ∃ i, a = k i ∧ x = bytes i).
Proof.
  intros H1 H2. eapply Exact_weaken.
  { eapply Exact_bind; [eapply Exact_bind; [apply (Exact_array 16)|]; intros; apply Exact_ret|].
    intros i. apply Exact_ret. }
  intros a x. split.
  - intros (i & x1 & x2 & -> & (v & y1 & y2 & -> & -> & -> & ->) & -> & ->).
    exists (from v). by rewrite H1, !app_nil_r.
  - intros (i & -> & ->). exists i, (vec_to_list (bytes i)), []. rewrite app_nil_r.
    repeat split. exists (bytes i), (vec_to_list (bytes i)), []. rewrite app_nil_r.
    repeat split. by rewrite H2.
Qed.

Lemma Exact_session_id {A} (k : SessionId.t → A) :
  Exact (s ← SessionId.from_bytes <$> Cursor.array_16; mret (k s))
    (λ a x, ∃ s, a = k s ∧ x = SessionId.as_bytes s).
Proof. apply (Exact_id SessionId.mk SessionId.as_bytes); [done|by intros []]. Qed.

Lemma Exact_prepare id :
  Exact (plan_id ← PlanId.from_bytes <$> Cursor.array_16; plan_digest ← Cursor.array_32;
         mret (Request.Prepare id plan_id plan_digest))
    (λ r x, ∃ p d, r = Request.Prepare id p d ∧ x = PlanId.as_bytes p ++ vec_to_list d).
Proof.
  eapply Exact_weaken.
  { eapply Exact_bind; [eapply Exact_bind; [apply (Exact_array 16)|]; intros; apply Exact_ret|].
    intros p. eapply Exact_bind; [apply (Exact_array 32)|]. intros d. apply Exact_ret. }
  intros r x. split.
  - intros (p & x1 & x2 & -> & (v & y1 & y2 & -> & -> & -> & ->) & d & z1 & z2 & -> & -> & -> & ->).
    exists (PlanId.mk v), d. by rewrite !app_nil_r.
  - intros ([v] & d & -> & ->). exists (PlanId.mk v), (vec_to_list v), (vec_to_list d).
    split; [done|]. split; [by exists v, (vec_to_list v), []; rewrite app_nil_r|].
    by exists d, (vec_to_list d), []; rewrite app_nil_r.
Qed.

Lemma Exact_state id s :
  Exact (tag ← Cursor.u8; state ← lift (state_from_tag tag); mret (Response.Status id s state))
    (λ r x, ∃ state, r = Response.Status id s state ∧ x = [n2b (state_tag state)]).
Proof.
  eapply Exact_weaken.
  { eapply Exact_bind; [by apply (Exact_uint 1)|]. intros t.
    eapply Exact_bind; [apply Exact_lift|]. intros state. apply Exact_ret. }
  intros r x. split.
  - intros (t & x1 & x2 & -> & [-> _] & state & y1 & y2 & -> & [Ht ->] & -> & ->).
    apply state_from_tag_Ok in Ht as ->. exists state. split; [done|]. by destruct state.
  - intros (state & -> & ->). exists (state_tag state), [n2b (state_tag state)], [].
    split; [done|]. split; [by destruct state|]. exists state, [], [].
    by rewrite (proj2 (state_from_tag_Ok _ _) eq_refl).
Qed.

Lemma Exact_code id :
  Exact (tag ← Cursor.u16; code ← lift (error_from_tag tag); mret (Response.Rejected id code))
    (λ r x, ∃ code, r = Response.Rejected id code ∧ x = put_u16 (error_tag code)).
Proof.
  eapply Exact_weaken.
  { eapply Exact_bind; [by apply (Exact_uint 2)|]. intros t.
    eapply Exact_bind; [apply Exact_lift|]. intros code. apply Exact_ret. }
  intros r x. split.
  - intros (t & x1 & x2 & -> & [-> _] & code & y1 & y2 & -> & [Ht ->] & -> & ->).
    apply error_from_tag_Ok in Ht as ->. exists code. by rewrite !app_nil_r.
  - intros (code & -> & ->). exists (error_tag code), (put_u16 (error_tag code)), [].
    rewrite app_nil_r. split; [done|]. split; [by destruct code|]. exists code, [], [].
    by rewrite (proj2 (error_from_tag_Ok _ _) eq_refl).
Qed.

Lemma Exact_status id :
  Exact (session_id ← SessionId.from_bytes <$> Cursor.array_16; tag ← Cursor.u8;
         state ← lift (state_from_tag tag); mret (Response.Status id session_id state))
    (λ r x, ∃ s state, r = Response.Status id s state
                       ∧ x = SessionId.as_bytes s ++ [n2b (state_tag state)]).
Proof.
  eapply Exact_weaken.
  { eapply Exact_bind; [eapply Exact_bind; [apply (Exact_array 16)|]; intros; apply Exact_ret|].
    intros s. apply Exact_state. }
  intros r x. split.
  - intros (s & x1 & x2 & -> & (v & y1 & y2 & -> & -> & -> & ->) & state & -> & ->).
    exists (SessionId.mk v), state. by rewrite app_nil_r.
  - intros ([v] & state & -> & ->). exists (SessionId.mk v), (vec_to_list v), [n2b (state_tag state)].
    split; [done|]. split; [by exists v, (vec_to_list v), []; rewrite app_nil_r|eauto].
Qed.

Lemma request_payload_id r :
  ∃ y, request_payload r = put_u64 (RequestId.get (Request.request_id r)) ++ y.
Proof. destruct r; unfold request_payload, two_ids; rewrite <-?app_assoc; eexists; done. Qed.
Lemma response_payload_id r :
  ∃ y, response_payload r = put_u64 (RequestId.get (Response.request_id r)) ++ y.
Proof. destruct r; unfold response_payload, two_ids; rewrite <-?app_assoc; eexists; done. Qed.

(** Close a branch on the tag: the messages that carry it. *)
Ltac exact_branch :=
  eapply Exact_weaken;
  [first [apply Exact_throw | apply Exact_status | apply Exact_session_id | apply Exact_prepare | apply Exact_code]|];
  intros r y; split;
  [intros ?; repeat match goal with
     | H : _ ∧ _ |- _ => destruct H | H : ∃ _, _ |- _ => destruct H end; subst;
   cbn [request_payload response_payload]; unfold two_ids; rewrite <-?app_assoc; done
  |intros (<- & Ht & Hx); destruct r; try discriminate Ht;
   cbn [Request.request_id Response.request_id request_payload response_payload] in Hx;
   unfold two_ids in Hx; rewrite <-?app_assoc in Hx;
   apply app_inv_head in Hx; subst; eauto].

Lemma request_body_exact t :
  Exact (request_body t)
    (λ r x, RequestId.wf (Request.request_id r) ∧ t = request_tag r ∧ x = request_payload r).
Proof.
  eapply Exact_weaken.
  { apply (Exact_request_id _ (λ id r y, Request.request_id r = id ∧ t = request_tag r
      ∧ put_u64 (RequestId.get id) ++ y = request_payload r)).
    intros id. repeat case_match; exact_branch. }
  intros r x. split; [naive_solver|]. intros (Hwf & -> & ->).
  destruct (request_payload_id r) as [y Hy]. rewrite Hy. eauto 10.
Qed.

Lemma response_body_exact t :
  Exact (response_body t)
    (λ r x, RequestId.wf (Response.request_id r) ∧ t = response_tag r ∧ x = response_payload r).
Proof.
  eapply Exact_weaken.
  { apply (Exact_request_id _ (λ id r y, Response.request_id r = id ∧ t = response_tag r
      ∧ put_u64 (RequestId.get id) ++ y = response_payload r)).
    intros id. repeat case_match; exact_branch. }
  intros r x. split; [naive_solver|]. intros (Hwf & -> & ->).
  destruct (response_payload_id r) as [y Hy]. rewrite Hy. eauto 10.
Qed.

Lemma encode_request_frame r : encode_request r = frame (request_tag r) (request_payload r).
Proof. by destruct r. Qed.
Lemma encode_response_frame r : encode_response r = frame (response_tag r) (response_payload r).
Proof. by destruct r. Qed.

(** A request ID taken from a frame is legal. *)
Lemma request_codec_sound r bytes :
  decode_request bytes = Ok r → RequestId.wf (Request.request_id r) ∧ encode_request r = Ok bytes.
Proof.
  rewrite encode_request_frame. unfold decode_request.
  apply (framed_codec request_tag request_payload (λ r, RequestId.wf (Request.request_id r)));
    [by intros []|apply request_body_exact].
Qed.

(** C35. The request codec is exact: a frame decodes to a request precisely
    when it is that request's encoding and the request ID is legal.  So every
    request has exactly one frame, decoding inverts encoding, and no two
    frames mean the same request. *)
Theorem request_codec_exact (r : Request.t) (bytes : list byte) :
  decode_request bytes = Ok r ↔ RequestId.wf (Request.request_id r) ∧ encode_request r = Ok bytes.
Proof.
  rewrite encode_request_frame. unfold decode_request.
  apply (framed_codec request_tag request_payload (λ r, RequestId.wf (Request.request_id r)));
    [by intros []|apply request_body_exact].
Qed.

(** The response codec is exact in the same sense. *)
Theorem response_codec_exact (r : Response.t) (bytes : list byte) :
  decode_response bytes = Ok r ↔ RequestId.wf (Response.request_id r) ∧ encode_response r = Ok bytes.
Proof.
  rewrite encode_response_frame. unfold decode_response.
  apply (framed_codec response_tag response_payload (λ r, RequestId.wf (Response.request_id r)));
    [by intros []|apply response_body_exact].
Qed.

(** Every message fits in a frame. *)
Lemma encode_response_total r : ∃ bytes, encode_response r = Ok bytes.
Proof.
  rewrite encode_response_frame. eexists. apply frame_Ok. split; [|done].
  destruct r; cbn [response_payload]; unfold two_ids, put_u64, put_u16;
    rewrite ?length_app, ?length_to_be, ?length_vec_to_list; done.
Qed.
