(* ===== verification/Record.v ===== *)
(** * Durable session records ([sysboost-core/src/transaction.rs], state)

    The operation life cycle, the session record with its operations, and
    the validation a record must pass before it is encoded and after it is
    decoded. *)
From Stdlib Require Import Strings.Byte.
From S2P Require Import Prelude Lists Text Ids Mut Capability Mutation Decision Plan.
From S2P Require Import Session.
Local Open Scope N_scope.

Definition MAX_OPERATIONS : usize := 4096.
Definition MAX_TRANSITIONS : usize := 16384.
Definition MAX_TARGETS : usize := 4096.
Definition MAX_DEPENDENCIES : usize := 4096.
Definition MAX_FAILURES : usize := 4096.
Definition MAX_STRING_BYTES : usize := 4096.
Definition MAX_REASON_BYTES : usize := 1024.

Definition invariant_error (message : string) (id : MutationId.t) : SysboostError.t :=
  SysboostError.new ErrorCode.InvariantViolation message
  |> SysboostError.with_stage Stage.Recovery |> SysboostError.with_mutation id.

Definition corrupt (message : string) : SysboostError.t :=
  SysboostError.new ErrorCode.JournalCorrupt message
  |> SysboostError.with_stage Stage.Recovery.

Module OperationState.
Inductive t :=
| Planned | Snapshotted | IntentRecorded | Applying | Applied | Verified
| Restoring | Restored | Failed | RestoreFailed.
#[global] Instance t_eq_dec : EqDecision t. Proof. solve_decision. Defined.

Definition can_transition (s next : t) : bool :=
  match s, next with
  | Planned, Snapshotted
  | Snapshotted, IntentRecorded
  | IntentRecorded, Applying
  | Applying, Applied
  | Applying, Failed
  | Applied, Verified
  | Applied, Failed
  | Verified, Restoring
  | Applied, Restoring
  | Applying, Restoring
  | Failed, Restoring
  | Restoring, Restored
  | Restoring, RestoreFailed
  | RestoreFailed, Restoring => true
  | _, _ => false
  end.

Definition is_restored (s : t) : bool :=
  match s with Restored => true | _ => false end.
End OperationState.

Module VerificationResult.
Record t := mk {
  mutation_id : MutationId.t;
  expected : StateFingerprint.t;
  observed : option StateFingerprint.t;
  matched : bool
}.
#[global] Instance t_eq_dec : EqDecision t. Proof. solve_decision. Defined.
Definition wf (v : t) : Prop := MutationId.wf v.(mutation_id).
End VerificationResult.

(** The loop [while !value.is_char_boundary(end) { end -= 1 }]. *)
Fixpoint floor_boundary (l : list byte) (e : nat) : nat :=
  if is_char_boundary l e then e
  else match e with O => O | S e' => floor_boundary l e' end.

Definition truncate_text (value : string) (max_bytes : usize) : string :=
  if str_len value <=? max_bytes then value
  else let bytes := bytes_of_string value in
       string_of_bytes (take (floor_boundary bytes (N.to_nat max_bytes)) bytes).

Module FailureRecord.
Record t := mk {
  code : ErrorCode.t;
  stage : Stage.t;
  mutation_id : option MutationId.t;
  message : string
}.
#[global] Instance t_eq_dec : EqDecision t. Proof. solve_decision. Defined.

Definition from_error (e : SysboostError.t) : t :=
  mk e.(SysboostError.code)
     (default Stage.Recovery e.(SysboostError.context).(ErrorContext.stage))
     e.(SysboostError.context).(ErrorContext.mutation_id)
     (truncate_text e.(SysboostError.message) MAX_REASON_BYTES).

Definition wf (f : t) : Prop := option_wf MutationId.wf f.(mutation_id) ∧ utf8 f.(message).
End FailureRecord.

Module OperationRecord.
Record t := mk {
  mutation : PlannedMutation.t;
  state : OperationState.t;
  snapshot : option Snapshot.t;
  apply_receipt : option ApplyReceipt.t;
  verification : option VerificationResult.t;
  restore_receipt : option RestoreReceipt.t;
  failure : option FailureRecord.t
}.
#[global] Instance t_eq_dec : EqDecision t. Proof. solve_decision. Defined.

Definition planned (m : PlannedMutation.t) : t :=
  mk m OperationState.Planned None None None None None.

Definition id (o : t) : MutationId.t := o.(mutation).(PlannedMutation.mutation_id).

(** Field updates. *)
Definition set_state (x : OperationState.t) (o : t) : t :=
  mk o.(mutation) x o.(snapshot) o.(apply_receipt) o.(verification) o.(restore_receipt) o.(failure).
Definition set_snapshot (x : Snapshot.t) (o : t) : t :=
  mk o.(mutation) o.(state) (Some x) o.(apply_receipt) o.(verification) o.(restore_receipt) o.(failure).
Definition set_apply_receipt (x : ApplyReceipt.t) (o : t) : t :=
  mk o.(mutation) o.(state) o.(snapshot) (Some x) o.(verification) o.(restore_receipt) o.(failure).
Definition set_verification (x : VerificationResult.t) (o : t) : t :=
  mk o.(mutation) o.(state) o.(snapshot) o.(apply_receipt) (Some x) o.(restore_receipt) o.(failure).
Definition set_restore_receipt (x : RestoreReceipt.t) (o : t) : t :=
  mk o.(mutation) o.(state) o.(snapshot) o.(apply_receipt) o.(verification) (Some x) o.(failure).
Definition set_failure (x : FailureRecord.t) (o : t) : t :=
  mk o.(mutation) o.(state) o.(snapshot) o.(apply_receipt) o.(verification) o.(restore_receipt) (Some x).

Definition transition (next : OperationState.t) : Mut t unit := λ o,
  if negb (OperationState.can_transition o.(state) next)
  then (Err (invariant_error "illegal operation state transition" (id o)), o)
  else (Ok tt, set_state next o).

Definition needs_restore (o : t) : bool :=
  bool_decide (is_Some o.(apply_receipt)) && negb (OperationState.is_restored o.(state)).

Definition failure_error (o : t) : option SysboostError.t :=
  (λ f, SysboostError.new f.(FailureRecord.code) f.(FailureRecord.message)
        |> SysboostError.with_stage f.(FailureRecord.stage)
        |> SysboostError.with_mutation (id o)) <$> o.(failure).
End OperationRecord.

Module SessionRecord.
Record t := mk {
  session : Session.t;
  operations : list OperationRecord.t;
  transitions : list TransitionRecord.t;
  failures : list FailureRecord.t
}.
#[global] Instance t_eq_dec : EqDecision t. Proof. solve_decision. Defined.

Definition session_id (r : t) : SessionId.t :=
  r.(session).(Session.header).(SessionHeader.session_id).

Definition set_session (x : Session.t) (r : t) : t :=
  mk x r.(operations) r.(transitions) r.(failures).
Definition set_operations (x : list OperationRecord.t) (r : t) : t :=
  mk r.(session) x r.(transitions) r.(failures).
Definition push_transition (x : TransitionRecord.t) (r : t) : t :=
  mk r.(session) r.(operations) (r.(transitions) ++ [x]) r.(failures).
Definition push_failure (x : FailureRecord.t) (r : t) : t :=
  mk r.(session) r.(operations) r.(transitions) (r.(failures) ++ [x]).

(** The [map] and [collect] over the mutations, with [seen]. *)
Fixpoint new_operations (seen : list MutationId.t) (mutations : list PlannedMutation.t) :
    Result (list OperationRecord.t) :=
  match mutations with
  | [] => Ok []
  | m :: rest =>
    if bool_decide (m.(PlannedMutation.mutation_id) ∈ seen)
    then Err (invariant_error "durable transaction contains duplicate mutation IDs"
                m.(PlannedMutation.mutation_id))
    else l ← new_operations (seen ++ [m.(PlannedMutation.mutation_id)]) rest;
         Ok (OperationRecord.planned m :: l)
  end.

Definition new (session : Session.t) (mutations : list PlannedMutation.t) : Result t :=
  if bool_decide (mutations = [])
  then planning_error "a durable transaction must contain at least one mutation"
  else if MAX_OPERATIONS <? N.of_nat (length mutations)
  then planning_error "transaction contains too many mutations"
  else operations ← new_operations [] mutations;
       Ok (mk session operations [] []).

Definition transition (next : SessionState.t) (at_ : Timestamp.t) (reason : string) :
    Mut t unit := λ r,
  if (str_len reason =? 0) || (MAX_REASON_BYTES <? str_len reason) || contains_nul reason
  then (Err (SysboostError.new ErrorCode.InvalidInput
               "session transition reason is empty or oversized"
             |> SysboostError.with_stage Stage.Recovery
             |> SysboostError.with_session (session_id r)), r)
  else
    let from := r.(session).(Session.state) in
    match Session.transition r.(session) next with
    | Err e => (Err e, r)
    | Ok session' =>
      let sequence :=
        match last r.(transitions) with
        | None => 1
        | Some tr => saturating_add64 tr.(TransitionRecord.sequence) 1
        end in
      (Ok tt, push_transition
                (TransitionRecord.mk sequence (session_id r) from next at_ reason)
                (set_session session' r))
    end.

(** [operation_mut(id)?] followed by updates through the reference: the
    first operation with the ID is updated in place, also when the update
    ends in an error. *)
Fixpoint update_operation {A} (id : MutationId.t) (body : Mut OperationRecord.t A)
    (l : list OperationRecord.t) : option (Result A * list OperationRecord.t) :=
  match l with
  | [] => None
  | o :: l' =>
    if bool_decide (OperationRecord.id o = id)
    then let '(r, o') := body o in Some (r, o' :: l')
    else (λ '(r, l''), (r, o :: l'')) <$> update_operation id body l'
  end.

Definition absent (id : MutationId.t) : SysboostError.t :=
  invariant_error "operation ID is absent from the session record" id.

Definition operation_mut {A} (id : MutationId.t) (body : Mut OperationRecord.t A) : Mut t A :=
  λ r, match update_operation id body r.(operations) with
       | Some (res, ops) => (res, set_operations ops r)
       | None => (Err (absent id), r)
       end.

Definition operation (r : t) (id : MutationId.t) : Result OperationRecord.t :=
  ok_or (List.find (λ o, bool_decide (OperationRecord.id o = id)) r.(operations)) (absent id).

Definition capture_snapshot (s : Snapshot.t) : Mut t unit :=
  operation_mut s.(Snapshot.mutation_id) (λ o,
    let m := o.(OperationRecord.mutation) in
    if bool_decide (s.(Snapshot.target) ≠ m.(PlannedMutation.target))
       || bool_decide (s.(Snapshot.equality) ≠ m.(PlannedMutation.equality))
       || bool_decide (s.(Snapshot.original_fingerprint) ≠ m.(PlannedMutation.precondition))
       || bool_decide (TargetIdentity.as_bytes s.(Snapshot.target_identity) = array_repeat 16 x00)
    then (Err (SysboostError.new ErrorCode.SnapshotError
                 "snapshot identity, equality, precondition, or target token is invalid"
               |> SysboostError.with_stage Stage.Snapshot
               |> SysboostError.with_mutation s.(Snapshot.mutation_id)
               |> SysboostError.with_target m.(PlannedMutation.target)), o)
    else if bool_decide (is_Some o.(OperationRecord.snapshot))
            || bool_decide (o.(OperationRecord.state) ≠ OperationState.Planned)
    then (Err (invariant_error
                 "operation snapshot was captured more than once or at the wrong stage"
                 s.(Snapshot.mutation_id)), o)
    else OperationRecord.transition OperationState.Snapshotted
           (OperationRecord.set_snapshot s o)).

(** [for operation in &mut self.operations { operation.transition(next)?; }] *)
Fixpoint transition_all (next : OperationState.t) (l : list OperationRecord.t) :
    Result unit * list OperationRecord.t :=
  match l with
  | [] => (Ok tt, [])
  | o :: l' =>
    match OperationRecord.transition next o with
    | (Err e, o') => (Err e, o' :: l')
    | (Ok _, o') => let '(r, l'') := transition_all next l' in (r, o' :: l'')
    end
  end.

Definition record_intent : Mut t unit := λ r,
  if existsb (λ o, bool_decide (o.(OperationRecord.state) ≠ OperationState.Snapshotted))
       r.(operations)
  then (Err (SysboostError.new ErrorCode.InvariantViolation
               "durable intent requires a complete snapshot for every operation"
             |> SysboostError.with_stage Stage.DurableIntent
             |> SysboostError.with_session (session_id r)), r)
  else let '(res, ops) := transition_all OperationState.IntentRecorded r.(operations) in
       (res, set_operations ops r).

Definition record_apply (id : MutationId.t) (receipt : ApplyReceipt.t) : Mut t unit :=
  operation_mut id (λ o,
    if bool_decide (receipt.(ApplyReceipt.mutation_id) ≠ id)
    then (Err (invariant_error
                 "apply receipt mutation ID does not match the operation" id), o)
    else OperationRecord.transition OperationState.Applied
           (OperationRecord.set_apply_receipt receipt o)).

Definition record_verification (id : MutationId.t) (v : VerificationResult.t) : Mut t unit :=
  operation_mut id (λ o,
    if bool_decide (v.(VerificationResult.mutation_id) ≠ id)
    then (Err (invariant_error
                 "verification mutation ID does not match the operation" id), o)
    else OperationRecord.transition
           (if v.(VerificationResult.matched) then OperationState.Verified
            else OperationState.Failed)
           (OperationRecord.set_verification v o)).

(** The body of [fail_operation] and [fail_restore]: the failure is kept
    even when the transition is illegal. *)
Definition fail_to (state : OperationState.t) (e : SysboostError.t) : Mut OperationRecord.t unit :=
  λ o, let o := OperationRecord.set_failure (FailureRecord.from_error e) o in
       if bool_decide (o.(OperationRecord.state) ≠ state)
       then OperationRecord.transition state o else (Ok tt, o).

Definition record_failure (e : SysboostError.t) : Mut t unit :=
  modify (push_failure (FailureRecord.from_error e)).

Definition fail_operation (id : MutationId.t) (e : SysboostError.t) : Mut t unit :=
  _ ← operation_mut id (fail_to OperationState.Failed e); record_failure e.

Definition begin_restore_operation (id : MutationId.t) : Mut t unit :=
  operation_mut id (λ o,
    if bool_decide (o.(OperationRecord.state) = OperationState.Restored) then (Ok tt, o)
    else OperationRecord.transition OperationState.Restoring o).

Definition record_restore (id : MutationId.t) (receipt : RestoreReceipt.t) : Mut t unit :=
  operation_mut id (λ o,
    if bool_decide (receipt.(RestoreReceipt.mutation_id) ≠ id)
       || negb receipt.(RestoreReceipt.verified)
    then (Err (invariant_error
                 "restore receipt is not a verified receipt for the operation" id), o)
    else OperationRecord.transition OperationState.Restored
           (OperationRecord.set_restore_receipt receipt o)).

Definition fail_restore (id : MutationId.t) (e : SysboostError.t) : Mut t unit :=
  _ ← operation_mut id (fail_to OperationState.RestoreFailed e); record_failure e.

Definition restoration_proven (r : t) : bool :=
  forallb (λ o, negb (OperationRecord.needs_restore o)
                && bool_decide (o.(OperationRecord.state) ≠ OperationState.Applying)
                && bool_decide (o.(OperationRecord.state) ≠ OperationState.RestoreFailed))
    r.(operations).
End SessionRecord.

(** ** Validation *)


Definition zero_identity (s : Snapshot.t) : bool :=
  bool_decide (TargetIdentity.as_bytes s.(Snapshot.target_identity) = array_repeat 16 x00).

(** [validate_operation_record], first half: each stored part is bound to
    the one it depends on. *)
Definition validate_bindings (o : OperationRecord.t) : Result unit :=
  let pre := o.(OperationRecord.mutation).(PlannedMutation.precondition) in
  _ ← match o.(OperationRecord.snapshot) with
      | Some s =>
        if bool_decide (s.(Snapshot.original_fingerprint) ≠ pre) || zero_identity s
        then Err (corrupt "operation snapshot does not preserve its planned precondition or identity")
        else Ok tt
      | None => Ok tt
      end;
  _ ← match o.(OperationRecord.apply_receipt) with
      | Some r =>
        if is_none o.(OperationRecord.snapshot)
           || bool_decide (r.(ApplyReceipt.observed_precondition) ≠ pre)
           || bool_decide (r.(ApplyReceipt.observed_postcondition)
                           ≠ r.(ApplyReceipt.ownership_fingerprint))
        then Err (corrupt "apply receipt is not bound to the operation preimage")
        else Ok tt
      | None => Ok tt
      end;
  _ ← match o.(OperationRecord.verification), o.(OperationRecord.apply_receipt) with
      | Some v, Some r =>
        let seen := bool_decide (v.(VerificationResult.observed)
                                 = Some v.(VerificationResult.expected)) in
        if bool_decide (v.(VerificationResult.expected) ≠ r.(ApplyReceipt.ownership_fingerprint))
           || (v.(VerificationResult.matched) && negb seen)
           || (negb v.(VerificationResult.matched) && seen)
        then Err (corrupt "verification result is not bound to its apply receipt")
        else Ok tt
      | Some _, None => Err (corrupt "verification exists without an apply receipt")
      | None, _ => Ok tt
      end;
  match o.(OperationRecord.restore_receipt), o.(OperationRecord.snapshot) with
  | Some r, Some s =>
    if is_none o.(OperationRecord.apply_receipt) || negb r.(RestoreReceipt.verified)
       || bool_decide (r.(RestoreReceipt.restored_fingerprint) ≠ s.(Snapshot.original_fingerprint))
    then Err (corrupt "restore receipt does not prove the captured original")
    else Ok tt
  | Some _, None => Err (corrupt "restore receipt exists without a snapshot")
  | None, _ => Ok tt
  end.

(** [validate_operation_record], second half: the shape of each state. *)
Definition validate_shape (o : OperationRecord.t) : Result unit :=
  let snapshot := is_some o.(OperationRecord.snapshot) in
  let apply := is_some o.(OperationRecord.apply_receipt) in
  let verification := is_some o.(OperationRecord.verification) in
  let restore := is_some o.(OperationRecord.restore_receipt) in
  let matched := match o.(OperationRecord.verification) with
                 | Some v => v.(VerificationResult.matched) | None => false end in
  match o.(OperationRecord.state) with
  | OperationState.Planned =>
    ensure (negb (snapshot || apply || verification || restore))
      (corrupt "planned operation contains post-plan state")
  | OperationState.Snapshotted | OperationState.IntentRecorded =>
    ensure (negb (negb snapshot || apply || verification || restore))
      (corrupt "snapshotted operation does not have the expected durable shape")
  | OperationState.Applying =>
    ensure (negb (negb snapshot || apply || verification || restore))
      (corrupt "ambiguous applying operation has invalid receipts")
  | OperationState.Applied =>
    ensure (negb (negb snapshot || negb apply || verification || restore))
      (corrupt "applied operation does not have the expected receipt shape")
  | OperationState.Verified =>
    ensure (negb (negb snapshot || negb apply || negb verification || negb matched || restore))
      (corrupt "verified operation is not fully read back")
  | OperationState.Restoring =>
    ensure (negb (negb snapshot || negb apply || restore))
      (corrupt "restoring operation lacks its apply ownership")
  | OperationState.Restored =>
    ensure (negb (negb snapshot || negb apply || negb restore))
      (corrupt "restored operation lacks a proven original")
  | OperationState.Failed =>
    ensure (negb (negb snapshot || restore || matched))
      (corrupt "failed operation has an invalid preimage/restore shape")
  | OperationState.RestoreFailed =>
    ensure (negb (negb snapshot || negb apply || restore))
      (corrupt "restore-failed operation lacks retry ownership")
  end.

Definition validate_operation_record (o : OperationRecord.t) : Result unit :=
  _ ← validate_bindings o; validate_shape o.

(** The per-operation part of the loop: receipts name their operation. *)
Definition validate_ids (o : OperationRecord.t) : Result unit :=
  let id := OperationRecord.id o in
  let m := o.(OperationRecord.mutation) in
  _ ← match o.(OperationRecord.snapshot) with
      | Some s =>
        if bool_decide (s.(Snapshot.mutation_id) ≠ id)
           || bool_decide (s.(Snapshot.target) ≠ m.(PlannedMutation.target))
           || bool_decide (s.(Snapshot.equality) ≠ m.(PlannedMutation.equality))
        then Err (corrupt "snapshot does not match its operation") else Ok tt
      | None => Ok tt
      end;
  _ ← match o.(OperationRecord.apply_receipt) with
      | Some r => if bool_decide (r.(ApplyReceipt.mutation_id) ≠ id)
                  then Err (corrupt "apply receipt does not match its operation") else Ok tt
      | None => Ok tt
      end;
  _ ← match o.(OperationRecord.verification) with
      | Some v => if bool_decide (v.(VerificationResult.mutation_id) ≠ id)
                  then Err (corrupt "verification does not match its operation") else Ok tt
      | None => Ok tt
      end;
  match o.(OperationRecord.restore_receipt) with
  | Some r => if bool_decide (r.(RestoreReceipt.mutation_id) ≠ id)
              then Err (corrupt "restore receipt does not match its operation") else Ok tt
  | None => Ok tt
  end.

Fixpoint validate_operations (ids : list MutationId.t) (l : list OperationRecord.t) : Result unit :=
  match l with
  | [] => Ok tt
  | o :: l' =>
    if bool_decide (OperationRecord.id o ∈ ids)
    then Err (corrupt "session record contains duplicate mutation IDs")
    else _ ← validate_ids o; _ ← validate_operation_record o;
         validate_operations (ids ++ [OperationRecord.id o]) l'
  end.

(** The loop over the transition chain; returns the final state. *)
Fixpoint validate_chain (state : SessionState.t) (sequence : u64)
    (l : list TransitionRecord.t) : Result SessionState.t :=
  match l with
  | [] => Ok state
  | tr :: l' =>
    if bool_decide (tr.(TransitionRecord.sequence) ≠ sequence)
       || bool_decide (tr.(TransitionRecord.from) ≠ state)
       || negb (SessionState.can_transition state tr.(TransitionRecord.to))
    then Err (corrupt "session transition sequence or state is invalid")
    else match checked_add64 sequence 1 with
         | None => Err (corrupt "session transition sequence overflows")
         | Some sequence' => validate_chain tr.(TransitionRecord.to) sequence' l'
         end
  end.

Definition validate_for_serialization (r : SessionRecord.t) : Result unit :=
  let operations := r.(SessionRecord.operations) in
  let transitions := r.(SessionRecord.transitions) in
  let header := r.(SessionRecord.session).(Session.header) in
  let targets := header.(SessionHeader.targets) in
  let len := λ {A} (l : list A), N.of_nat (length l) in
  if bool_decide (operations = []) || (MAX_OPERATIONS <? len operations)
  then Err (corrupt "session record has an invalid operation count")
  else if (MAX_TRANSITIONS <? len transitions)
          || (MAX_FAILURES <? len r.(SessionRecord.failures))
  then Err (corrupt "session record has too many journal records")
  else if MAX_TARGETS <? len targets
  then Err (corrupt "session record has too many target leases")
  else
    _ ← validate_operations [] operations;
    if negb (len targets =? len operations)
    then Err (corrupt "session target leases do not match the operation count")
    else
      _ ← for_each (λ '(target, o),
            ensure (bool_decide (target = o.(OperationRecord.mutation).(PlannedMutation.target)))
              (corrupt "session target lease does not match its operation"))
            (zip targets operations);
      _ ← for_each (λ tr,
            ensure (bool_decide (tr.(TransitionRecord.session_id) = header.(SessionHeader.session_id)))
              (corrupt "transition belongs to another session")) transitions;
      state ← validate_chain SessionState.New 1 transitions;
      ensure (bool_decide (state = r.(SessionRecord.session).(Session.state)))
        (corrupt "session state does not match the durable transition chain").
