(* ===== verification/RecordInvariant.v ===== *)
(** * Session records stay durable

    The validation of a record is characterised as a predicate, and every
    state-changing method preserves it when the backend keeps its receipt
    contract: what the coordinator writes can always be read back. *)
From Stdlib Require Import Strings.Byte.
From S2P Require Import Prelude Lists Text Ids Mut Capability Mutation Decision Plan.
From S2P Require Import Session Record.
Local Open Scope N_scope.

(** ** Text bounds *)

Lemma floor_boundary_le l e : (floor_boundary l e ≤ e)%nat.
Proof. induction e as [|e IH]; cbn [floor_boundary]; case_match; lia. Qed.

Lemma floor_boundary_ok l e : is_char_boundary l (floor_boundary l e) = true.
Proof. induction e as [|e IH]; cbn [floor_boundary]; case_match; done. Qed.

(** [truncate_text] keeps a prefix of at most [max] bytes that is still
    valid UTF-8, and leaves short text alone. *)
Lemma truncate_text_spec value max :
  utf8 value →
  utf8 (truncate_text value max) ∧ str_len (truncate_text value max) ≤ max
  ∧ bytes_of_string (truncate_text value max) `prefix_of` bytes_of_string value.
Proof.
  unfold truncate_text. intros Hu. destruct (N.leb_spec (str_len value) max).
  { split_and!; [done|done|reflexivity]. }
  set (l := bytes_of_string value) in *.
  pose proof (floor_boundary_le l (N.to_nat max)).
  unfold utf8, str_len. rewrite bytes_of_string_of. split_and!.
  - apply utf8_valid_take; [done|apply floor_boundary_ok].
  - rewrite length_take. lia.
  - apply prefix_take.
Qed.

(** The text kept in a failure record is a valid UTF-8 prefix of the error's
    message within the durable bound, whatever the length of the message. *)
Theorem failure_message_bounded (e : SysboostError.t) :
  utf8 e.(SysboostError.message) →
  let kept := (FailureRecord.from_error e).(FailureRecord.message) in
  utf8 kept ∧ str_len kept ≤ MAX_REASON_BYTES
  ∧ bytes_of_string kept `prefix_of` bytes_of_string e.(SysboostError.message).
Proof. intros Hu. cbn. by apply truncate_text_spec. Qed.

(** ** Operations *)

(** What ties the stored parts of an operation together. *)
Definition op_bound (o : OperationRecord.t) : Prop :=
  let m := o.(OperationRecord.mutation) in
  let pre := m.(PlannedMutation.precondition) in
  let id := OperationRecord.id o in
  (∀ s, o.(OperationRecord.snapshot) = Some s →
     s.(Snapshot.mutation_id) = id ∧ s.(Snapshot.target) = m.(PlannedMutation.target)
     ∧ s.(Snapshot.equality) = m.(PlannedMutation.equality)
     ∧ s.(Snapshot.original_fingerprint) = pre ∧ zero_identity s = false)
  ∧ (∀ r, o.(OperationRecord.apply_receipt) = Some r →
     r.(ApplyReceipt.mutation_id) = id ∧ is_Some o.(OperationRecord.snapshot)
     ∧ r.(ApplyReceipt.observed_precondition) = pre
     ∧ r.(ApplyReceipt.observed_postcondition) = r.(ApplyReceipt.ownership_fingerprint))
  ∧ (∀ v, o.(OperationRecord.verification) = Some v →
     v.(VerificationResult.mutation_id) = id
     ∧ ∃ r, o.(OperationRecord.apply_receipt) = Some r
            ∧ v.(VerificationResult.expected) = r.(ApplyReceipt.ownership_fingerprint)
            ∧ (v.(VerificationResult.matched) = true ↔
               v.(VerificationResult.observed) = Some v.(VerificationResult.expected)))
  ∧ (∀ r, o.(OperationRecord.restore_receipt) = Some r →
     r.(RestoreReceipt.mutation_id) = id
     ∧ ∃ s, o.(OperationRecord.snapshot) = Some s ∧ is_Some o.(OperationRecord.apply_receipt)
            ∧ r.(RestoreReceipt.verified) = true
            ∧ r.(RestoreReceipt.restored_fingerprint) = s.(Snapshot.original_fingerprint)).

Definition op_ok (o : OperationRecord.t) : Prop :=
  op_bound o ∧ validate_shape o = Ok tt.

(** The two validation passes over one operation compute [op_ok]. *)
Lemma op_ok_validate o :
  validate_ids o = Ok tt ∧ validate_operation_record o = Ok tt ↔ op_ok o.
Proof.
  unfold op_ok, validate_operation_record. rewrite unit_bind_Ok.
  transitivity ((validate_ids o = Ok tt ∧ validate_bindings o = Ok tt)
                ∧ validate_shape o = Ok tt); [tauto|].
  apply and_iff_compat_r. unfold validate_ids, validate_bindings, op_bound.
  generalize (OperationRecord.id o). intros id.
  destruct o as [m st [s|] [a|] [v|] [r|] fa]; cbn [OperationRecord.mutation
    OperationRecord.snapshot OperationRecord.apply_receipt is_none orb
    OperationRecord.verification OperationRecord.restore_receipt];
    norm_options; norm_guards; rewrite ?matched_iff; norm_guards.
  all: split; intros; destruct_and?; split_and?; try done; try congruence; tauto.
Qed.

(** ** Life-cycle steps of one operation *)

(** [solve_op] opens the record, drops the options and states the shape
    rules out, and closes the remaining propositional goal. *)
Ltac solve_op :=
  unfold op_ok in *; destruct_and?;
  repeat match goal with
  | o : OperationRecord.t |- _ => destruct o as [? st sn ap ve re ?]
  end;
  cbn [OperationRecord.state OperationRecord.apply_receipt OperationRecord.snapshot
       OperationRecord.verification OperationRecord.restore_receipt] in *;
  repeat match goal with st : OperationState.t |- _ => destruct st; try discriminate end;
  unfold validate_shape in *; cbn in *;
  repeat match goal with
  | o : option Snapshot.t |- _ => destruct o; cbn in *; try discriminate
  | o : option ApplyReceipt.t |- _ => destruct o; cbn in *; try discriminate
  | o : option VerificationResult.t |- _ => destruct o; cbn in *; try discriminate
  | o : option RestoreReceipt.t |- _ => destruct o; cbn in *; try discriminate
  end;
  unfold op_bound, OperationRecord.id in *; cbn in *;
  norm_options; norm_guards; rewrite ?orb_true_r, ?orb_false_r in *;
  cbn in *; destruct_and?; split_and?; try congruence; try tauto; intuition (try congruence).

Lemma transition_run next o :
  OperationState.can_transition o.(OperationRecord.state) next = true →
  OperationRecord.transition next o = (Ok tt, OperationRecord.set_state next o).
Proof. unfold OperationRecord.transition. by intros ->. Qed.

Lemma transition_inv next o o' :
  OperationRecord.transition next o = (Ok tt, o') →
  OperationState.can_transition o.(OperationRecord.state) next = true
  ∧ o' = OperationRecord.set_state next o.
Proof.
  unfold OperationRecord.transition.
  destruct (OperationState.can_transition _ _); cbn; [by intros [= <-]|done].
Qed.

Lemma planned_ok m : op_ok (OperationRecord.planned m).
Proof. unfold OperationRecord.planned. solve_op. Qed.

(** Capturing a snapshot whose identity matches. *)
Lemma capture_ok o s :
  op_ok o → o.(OperationRecord.state) = OperationState.Planned →
  s.(Snapshot.mutation_id) = OperationRecord.id o →
  s.(Snapshot.target) = o.(OperationRecord.mutation).(PlannedMutation.target) →
  s.(Snapshot.equality) = o.(OperationRecord.mutation).(PlannedMutation.equality) →
  s.(Snapshot.original_fingerprint) = o.(OperationRecord.mutation).(PlannedMutation.precondition) →
  zero_identity s = false →
  op_ok (OperationRecord.set_state OperationState.Snapshotted (OperationRecord.set_snapshot s o)).
Proof. intros. solve_op. Qed.

Lemma intent_ok o :
  op_ok o → o.(OperationRecord.state) = OperationState.Snapshotted →
  op_ok (OperationRecord.set_state OperationState.IntentRecorded o).
Proof. intros. solve_op. Qed.

Lemma start_ok o :
  op_ok o → o.(OperationRecord.state) = OperationState.IntentRecorded →
  op_ok (OperationRecord.set_state OperationState.Applying o).
Proof. intros. solve_op. Qed.

(** The receipt contract of a backend apply. *)
Definition receipt_ok (o : OperationRecord.t) (r : ApplyReceipt.t) : Prop :=
  r.(ApplyReceipt.mutation_id) = OperationRecord.id o
  ∧ r.(ApplyReceipt.observed_precondition) = o.(OperationRecord.mutation).(PlannedMutation.precondition)
  ∧ r.(ApplyReceipt.observed_postcondition) = r.(ApplyReceipt.ownership_fingerprint).

Lemma apply_ok o r :
  op_ok o → o.(OperationRecord.state) = OperationState.Applying → receipt_ok o r →
  op_ok (OperationRecord.set_state OperationState.Applied (OperationRecord.set_apply_receipt r o)).
Proof. unfold receipt_ok. intros. solve_op. Qed.

(** A readback of the session-owned value. *)
Definition readback_ok (o : OperationRecord.t) (v : VerificationResult.t) : Prop :=
  v.(VerificationResult.mutation_id) = OperationRecord.id o
  ∧ (∃ r, o.(OperationRecord.apply_receipt) = Some r
          ∧ v.(VerificationResult.expected) = r.(ApplyReceipt.ownership_fingerprint))
  ∧ (v.(VerificationResult.matched) = true ↔
     v.(VerificationResult.observed) = Some v.(VerificationResult.expected)).

Lemma verification_ok o v :
  op_ok o → o.(OperationRecord.state) = OperationState.Applied → readback_ok o v →
  op_ok (OperationRecord.set_state
           (if v.(VerificationResult.matched) then OperationState.Verified
            else OperationState.Failed)
           (OperationRecord.set_verification v o)).
Proof.
  unfold readback_ok. intros.
  destruct (VerificationResult.matched v) eqn:Hm; solve_op; by rewrite Hm.
Qed.

Lemma failed_ok o f :
  op_ok o →
  o.(OperationRecord.state) ∈ [OperationState.Applying; OperationState.Applied; OperationState.Failed] →
  op_ok (OperationRecord.set_state OperationState.Failed (OperationRecord.set_failure f o)).
Proof.
  intros ? Hst. repeat (apply elem_of_cons in Hst as [Hst|Hst]; [solve_op|]).
  by apply elem_of_nil in Hst.
Qed.

Lemma restoring_ok o :
  op_ok o → is_Some o.(OperationRecord.apply_receipt) →
  o.(OperationRecord.state) ≠ OperationState.Restored →
  op_ok (OperationRecord.set_state OperationState.Restoring o).
Proof. intros. solve_op. Qed.

Lemma restored_ok o r s :
  op_ok o → o.(OperationRecord.state) = OperationState.Restoring →
  o.(OperationRecord.snapshot) = Some s →
  r.(RestoreReceipt.mutation_id) = OperationRecord.id o →
  r.(RestoreReceipt.verified) = true →
  r.(RestoreReceipt.restored_fingerprint) = s.(Snapshot.original_fingerprint) →
  op_ok (OperationRecord.set_state OperationState.Restored (OperationRecord.set_restore_receipt r o)).
Proof. intros. solve_op. Qed.

Lemma restore_failed_ok o f :
  op_ok o →
  o.(OperationRecord.state) ∈ [OperationState.Restoring; OperationState.RestoreFailed] →
  op_ok (OperationRecord.set_state OperationState.RestoreFailed (OperationRecord.set_failure f o)).
Proof.
  intros ? Hst. repeat (apply elem_of_cons in Hst as [Hst|Hst]; [solve_op|]).
  by apply elem_of_nil in Hst.
Qed.

(** * Session records stay durable: whole records

    [validate_for_serialization] decides boundedness and [consistent]; every
    state-changing method preserves [consistent] when the backend keeps its
    receipt contract, so what the coordinator writes passes the validation
    of the encoder and of the decoder. *)
Local Open Scope N_scope.

(** ** Whole records *)

Definition op_target (o : OperationRecord.t) : TargetId.t :=
  o.(OperationRecord.mutation).(PlannedMutation.target).

(** Everything [validate_for_serialization] checks besides the counts. *)
Definition consistent (r : SessionRecord.t) : Prop :=
  NoDup (OperationRecord.id <$> r.(SessionRecord.operations))
  ∧ Forall op_ok r.(SessionRecord.operations)
  ∧ r.(SessionRecord.session).(Session.header).(SessionHeader.targets)
    = op_target <$> r.(SessionRecord.operations)
  ∧ Forall (λ tr, tr.(TransitionRecord.session_id) = SessionRecord.session_id r)
      r.(SessionRecord.transitions)
  ∧ validate_chain SessionState.New 1 r.(SessionRecord.transitions)
    = Ok r.(SessionRecord.session).(Session.state).

(** The counts. *)
Definition within_bounds (r : SessionRecord.t) : Prop :=
  r.(SessionRecord.operations) ≠ []
  ∧ N.of_nat (length r.(SessionRecord.operations)) ≤ MAX_OPERATIONS
  ∧ N.of_nat (length r.(SessionRecord.transitions)) ≤ MAX_TRANSITIONS
  ∧ N.of_nat (length r.(SessionRecord.failures)) ≤ MAX_FAILURES
  ∧ N.of_nat (length r.(SessionRecord.session).(Session.header).(SessionHeader.targets))
    ≤ MAX_TARGETS.

Lemma validate_operations_Ok ids l :
  validate_operations ids l = Ok tt ↔
  NoDup (OperationRecord.id <$> l)
  ∧ (∀ o, o ∈ l → OperationRecord.id o ∉ ids) ∧ Forall op_ok l.
Proof.
  revert ids. induction l as [|o l IH]; intros ids; cbn [validate_operations].
  { rewrite Forall_nil. split; [|done]. intros _. split_and!; [constructor|set_solver|done]. }
  rewrite guard_Ok, !unit_bind_Ok, IH, bool_decide_eq_false, Forall_cons, fmap_cons, NoDup_cons.
  rewrite <-(op_ok_validate o). split.
  - intros (Ho & Hi & Hv & Hn & Hin & Hl). split_and!; try done.
    + intros (o' & Heq & Hin')%list_elem_of_fmap. apply (Hin o' Hin'). set_solver.
    + intros o' [->|Hin']%elem_of_cons; [done|]. specialize (Hin o' Hin'). set_solver.
  - intros ([Ho Hn] & Hin & [Hi Hv] & Hl). split_and!; try done; [set_solver|].
    intros o' Hin' [Hm|Hm%list_elem_of_singleton]%elem_of_app; [set_solver|].
    apply Ho. rewrite <-Hm. by apply list_elem_of_fmap_2.
Qed.

Lemma targets_zip (ts : list TargetId.t) (ops : list OperationRecord.t) :
  length ts = length ops →
  for_each (λ '(target, o), ensure (bool_decide (target = op_target o))
     (corrupt "session target lease does not match its operation")) (zip ts ops) = Ok tt ↔
  ts = op_target <$> ops.
Proof.
  revert ops. induction ts as [|t ts IH]; intros [|o ops]; cbn; try done.
  intros [= Hl]. rewrite unit_bind_Ok, ensure_Ok, bool_decide_eq_true, (IH ops Hl).
  unfold op_target. split; [by intros [-> ->]|by intros [= -> ->]].
Qed.

Lemma session_ids_Ok {E} (sid : SessionId.t) (e : E) (l : list TransitionRecord.t) :
  for_each (λ tr, ensure (bool_decide (tr.(TransitionRecord.session_id) = sid)) e) l = Ok tt
  ↔ Forall (λ tr, tr.(TransitionRecord.session_id) = sid) l.
Proof.
  rewrite for_each_Ok. apply Forall_iff. intros tr.
  by rewrite ensure_Ok, bool_decide_eq_true.
Qed.

(** [validate_for_serialization] decides boundedness and consistency. *)
Lemma validate_iff r :
  validate_for_serialization r = Ok tt ↔ within_bounds r ∧ consistent r.
Proof.
  unfold validate_for_serialization, within_bounds, consistent.
  rewrite !guard_Ok, unit_bind_Ok, validate_operations_Ok, guard_Ok, !unit_bind_Ok.
  rewrite !orb_false_iff, bool_decide_eq_false, !N.ltb_ge, negb_false_iff, N.eqb_eq.
  rewrite session_ids_Ok.
  assert (∀ m : Result SessionState.t,
    (m ≫= λ st, ensure (bool_decide (st = Session.state (SessionRecord.session r)))
       (corrupt "session state does not match the durable transition chain")) = Ok tt
    ↔ m = Ok (Session.state (SessionRecord.session r))) as ->.
  { intros [st|]; cbn; [|done]. rewrite ensure_Ok, bool_decide_eq_true. naive_solver. }
  split.
  - intros ([??] & [??] & ? & (Hn & _ & Hok) & Hlen & Hz & Hs & Hc).
    apply targets_zip in Hz; [|lia]. tauto.
  - intros ((?&?&?&?&?) & Hn & Hok & Ht & Hs & Hc).
    assert (length (SessionHeader.targets (Session.header (SessionRecord.session r)))
            = length (SessionRecord.operations r)) as Hlen
      by (by rewrite Ht, length_fmap).
    split_and!; try done; [set_solver|lia|by apply targets_zip].
Qed.

Lemma validate_chain_snoc st seq l tr st' :
  N.of_nat (length l) + seq + 1 < 2 ^ 64 →
  validate_chain st seq (l ++ [tr]) = Ok st' ↔
  validate_chain st seq l = Ok tr.(TransitionRecord.from)
  ∧ tr.(TransitionRecord.sequence) = seq + N.of_nat (length l)
  ∧ SessionState.can_transition tr.(TransitionRecord.from) tr.(TransitionRecord.to) = true
  ∧ st' = tr.(TransitionRecord.to).
Proof.
  revert st seq. induction l as [|x l IH]; intros st seq Hb; cbn [app validate_chain].
  - unfold checked_add64. cbn [length] in Hb. rewrite (proj2 (N.ltb_lt _ _)) by lia.
    cbn [length]. rewrite N.add_0_r.
    destruct (_ || _ || _) eqn:E; rewrite ?orb_false_iff, ?orb_true_iff,
      ?bool_decide_eq_true, ?bool_decide_ne_false, ?negb_false_iff, ?negb_true_iff in E.
    + split; [done|]. intros ([= ->] & Hs & Hc & ->). destruct E as [[?|?]|?]; congruence.
    + destruct E as [[Hs Hf] Hc]. subst st. naive_solver.
  - destruct (_ || _ || _) eqn:E; [split; [done|]; by intros [? _]|].
    unfold checked_add64. cbn [length] in Hb |- *. rewrite (proj2 (N.ltb_lt _ _)) by lia.
    rewrite IH by lia. by replace (seq + 1 + N.of_nat (length l))
      with (seq + N.of_nat (S (length l))) by lia.
Qed.

Lemma validate_chain_last st seq l st' tr :
  N.of_nat (length l) + seq + 1 < 2 ^ 64 →
  validate_chain st seq l = Ok st' → last l = Some tr →
  tr.(TransitionRecord.sequence) + 1 = seq + N.of_nat (length l).
Proof.
  intros Hb Hv (l' & ->)%last_Some. rewrite length_app in *. cbn [length] in *.
  apply validate_chain_snoc in Hv as (_ & -> & _); lia.
Qed.

(** Replacing an operation by one of the same mutation. *)
Lemma consistent_update r i o o' :
  consistent r → r.(SessionRecord.operations) !! i = Some o →
  o'.(OperationRecord.mutation) = o.(OperationRecord.mutation) → op_ok o' →
  consistent (SessionRecord.set_operations (<[i:=o']> r.(SessionRecord.operations)) r).
Proof.
  intros (Hn & Hok & Ht & Hs & Hc) Hi Hm Ho'. unfold consistent. cbn.
  assert (OperationRecord.id o' = OperationRecord.id o) as Hid
    by (unfold OperationRecord.id; by rewrite Hm).
  split_and!; try done.
  - rewrite list_fmap_insert, Hid, list_insert_id; [done|].
    by rewrite list_lookup_fmap, Hi.
  - by apply Forall_insert.
  - rewrite Ht, list_fmap_insert, list_insert_id; [done|].
    rewrite list_lookup_fmap, Hi. unfold op_target. by rewrite Hm.
Qed.

(** ** Updates through [operation_mut] *)

Lemma update_operation_inv {A} id (body : Mut OperationRecord.t A) l res l' :
  SessionRecord.update_operation id body l = Some (res, l') →
  ∃ i o o', l !! i = Some o ∧ OperationRecord.id o = id
    ∧ List.find (λ o, bool_decide (OperationRecord.id o = id)) l = Some o
    ∧ body o = (res, o') ∧ l' = <[i:=o']> l.
Proof.
  revert l'. induction l as [|o l IH]; intros l'; cbn [SessionRecord.update_operation List.find];
    [done|].
  case_bool_decide as Hid.
  - destruct (body o) as [res' o'] eqn:E. intros [= -> <-]. by exists 0%nat, o, o'.
  - rewrite fmap_Some. intros ([res' l''] & Hu & [= -> ->]).
    destruct (IH _ Hu) as (i & o1 & o1' & Hi & Ho & Hf & Hb & ->).
    by exists (S i), o1, o1'.
Qed.

Lemma operation_mut_inv {A} id (body : Mut OperationRecord.t A) r a r' :
  SessionRecord.operation_mut id body r = (Ok a, r') →
  ∃ i o o', r.(SessionRecord.operations) !! i = Some o ∧ OperationRecord.id o = id
    ∧ SessionRecord.operation r id = Ok o ∧ body o = (Ok a, o')
    ∧ r' = SessionRecord.set_operations (<[i:=o']> r.(SessionRecord.operations)) r.
Proof.
  unfold SessionRecord.operation_mut, SessionRecord.operation.
  destruct (SessionRecord.update_operation _ _ _) as [[res ops]|] eqn:E; [|done].
  intros [= -> <-]. apply update_operation_inv in E as (i & o & o' & Hi & Ho & Hf & Hb & ->).
  exists i, o, o'. by rewrite Hf.
Qed.

(** The induction scheme of every single-operation method. *)
Lemma operation_mut_consistent {A} id (body : Mut OperationRecord.t A) r a r' :
  consistent r →
  (∀ o o', SessionRecord.operation r id = Ok o → OperationRecord.id o = id → op_ok o →
     body o = (Ok a, o') →
     op_ok o' ∧ o'.(OperationRecord.mutation) = o.(OperationRecord.mutation)) →
  SessionRecord.operation_mut id body r = (Ok a, r') → consistent r'.
Proof.
  intros Hc Hb (i & o & o' & Hi & Ho & Hop & Hbo & ->)%operation_mut_inv.
  assert (op_ok o) as Hok by (eapply Forall_lookup_1, Hi; apply Hc).
  destruct (Hb o o' Hop Ho Hok Hbo). by eapply consistent_update.
Qed.

Lemma push_failure_consistent f r :
  consistent r → consistent (SessionRecord.push_failure f r).
Proof. by destruct r. Qed.

(** ** Steps of a session record *)

(** One method call that returned [Ok], with the contract its argument must
    satisfy: the bound on the journal is the bound on the length of a Rust
    vector. *)
Inductive record_step : SessionRecord.t → SessionRecord.t → Prop :=
| step_transition r next at_ reason r' :
    N.of_nat (length r.(SessionRecord.transitions)) < 2 ^ 63 →
    SessionRecord.transition next at_ reason r = (Ok tt, r') → record_step r r'
| step_capture r s r' :
    SessionRecord.capture_snapshot s r = (Ok tt, r') → record_step r r'
| step_intent r r' :
    SessionRecord.record_intent r = (Ok tt, r') → record_step r r'
| step_start r id r' :
    SessionRecord.operation_mut id (OperationRecord.transition OperationState.Applying) r
    = (Ok tt, r') → record_step r r'
| step_apply r id receipt r' :
    (∀ o, SessionRecord.operation r id = Ok o → receipt_ok o receipt) →
    SessionRecord.record_apply id receipt r = (Ok tt, r') → record_step r r'
| step_verify r id v r' :
    (∀ o, SessionRecord.operation r id = Ok o → readback_ok o v) →
    SessionRecord.record_verification id v r = (Ok tt, r') → record_step r r'
| step_fail r id e r' :
    SessionRecord.fail_operation id e r = (Ok tt, r') → record_step r r'
| step_begin_restore r id r' :
    (∀ o, SessionRecord.operation r id = Ok o → is_Some o.(OperationRecord.apply_receipt)) →
    SessionRecord.begin_restore_operation id r = (Ok tt, r') → record_step r r'
| step_restore r id receipt r' :
    (∀ o s, SessionRecord.operation r id = Ok o → o.(OperationRecord.snapshot) = Some s →
       receipt.(RestoreReceipt.restored_fingerprint) = s.(Snapshot.original_fingerprint)) →
    SessionRecord.record_restore id receipt r = (Ok tt, r') → record_step r r'
| step_fail_restore r id e r' :
    SessionRecord.fail_restore id e r = (Ok tt, r') → record_step r r'
| step_failure r e r' :
    SessionRecord.record_failure e r = (Ok tt, r') → record_step r r'.

Lemma transition_consistent r next at_ reason r' :
  consistent r → N.of_nat (length r.(SessionRecord.transitions)) < 2 ^ 63 →
  SessionRecord.transition next at_ reason r = (Ok tt, r') → consistent r'.
Proof.
  intros (Hn & Hok & Ht & Hs & Hc) Hlen. unfold SessionRecord.transition.
  destruct (_ || _ || _); [done|].
  destruct (Session.transition _ next) as [s'|] eqn:E; [|done]. intros [= <-].
  apply transition_Ok in E as [Hcan ->]. unfold consistent. cbn. split_and!; try done.
  - apply Forall_app. split; [exact Hs|]. by constructor.
  - apply validate_chain_snoc; [lia|]. cbn. split_and!; try done.
    destruct (last _) as [tr|] eqn:El.
    + assert (TransitionRecord.sequence tr + 1
              = 1 + N.of_nat (length (SessionRecord.transitions r))) as Hseq
        by (eapply validate_chain_last; [lia|done|done]).
      unfold saturating_add64. lia.
    + by apply last_None in El as ->.
Qed.

Lemma record_intent_consistent r r' :
  consistent r → SessionRecord.record_intent r = (Ok tt, r') → consistent r'.
Proof.
  unfold SessionRecord.record_intent. intros (Hn & Hok & Ht & Hs & Hc).
  destruct (existsb _ _) eqn:Ee; [done|].
  assert (Forall (λ o, o.(OperationRecord.state) = OperationState.Snapshotted)
            r.(SessionRecord.operations)) as Hst.
  { apply Forall_forall. intros o Ho. apply not_true_iff_false in Ee.
    destruct (decide (OperationRecord.state o = OperationState.Snapshotted)) as [|Hne]; [done|].
    destruct Ee. apply existsb_exists. exists o. split; [by apply list_elem_of_In|].
    by apply bool_decide_eq_true. }
  assert (∀ l, Forall (λ o, o.(OperationRecord.state) = OperationState.Snapshotted) l →
    SessionRecord.transition_all OperationState.IntentRecorded l
    = (Ok tt, OperationRecord.set_state OperationState.IntentRecorded <$> l)) as Hall.
  { induction 1 as [|o l Ho _ IH]; [done|]. cbn [SessionRecord.transition_all].
    rewrite transition_run by (by rewrite Ho). by rewrite IH. }
  rewrite (Hall _ Hst). intros [= <-]. unfold consistent. cbn. split_and!; try done.
  - by rewrite <-list_fmap_compose.
  - rewrite Forall_fmap, Forall_forall in *. intros o Ho. apply intent_ok; auto.
  - by rewrite Ht, <-list_fmap_compose.
Qed.

Lemma fail_to_ok state e o o' :
  (state = OperationState.Failed ∨ state = OperationState.RestoreFailed) →
  op_ok o → SessionRecord.fail_to state e o = (Ok tt, o') →
  op_ok o' ∧ o'.(OperationRecord.mutation) = o.(OperationRecord.mutation).
Proof.
  unfold SessionRecord.fail_to. intros Hs Hok.
  set (f := FailureRecord.from_error e). cbn.
  case_bool_decide as Hne; cbn.
  - intros (Hcan & ->)%transition_inv. split; [|done]. cbn in Hcan.
    destruct Hs as [-> | ->]; [apply failed_ok|apply restore_failed_ok]; try done;
      destruct (OperationRecord.state o); done || set_solver.
  - intros [= <-]. split; [|done]. cbn in Hne. subst state.
    assert (OperationRecord.set_failure f o
            = OperationRecord.set_state (OperationRecord.state o)
                (OperationRecord.set_failure f o)) as -> by (by destruct o).
    destruct Hs as [Hs|Hs]; rewrite Hs;
      [apply failed_ok|apply restore_failed_ok]; try done; rewrite Hs; set_solver.
Qed.

(** Split on the guard of a body. *)
Ltac split_guard E :=
  match goal with |- (if ?c then _ else _) = _ → _ => destruct c eqn:E; [done|] end.

(** Every state-changing method of a session record preserves its
    durability invariant. *)
Lemma record_step_consistent r r' : record_step r r' → consistent r → consistent r'.
Proof.
  intros Hstep Hc. inversion Hstep; subst.
  - eauto using transition_consistent.
  - eapply operation_mut_consistent; [done| |exact H]. cbn. intros o o' _ Hid Hok.
    split_guard E1. split_guard E2.
    norm_guards. destruct_and!. intros (_ & ->)%transition_inv. split; [|done].
    by apply capture_ok.
  - eauto using record_intent_consistent.
  - eapply operation_mut_consistent; [done| |exact H]. cbn. intros o o' _ _ Hok.
    intros (Hcan & ->)%transition_inv. split; [|done]. apply start_ok; [done|].
    by destruct (OperationRecord.state o).
  - eapply operation_mut_consistent; [done| |exact H0]. cbn. intros o o' Hop Hid Hok.
    case_bool_decide; [done|]. intros (Hcan & ->)%transition_inv. split; [|done].
    apply apply_ok; auto. cbn in Hcan. by destruct (OperationRecord.state o).
  - eapply operation_mut_consistent; [done| |exact H0]. cbn. intros o o' Hop Hid Hok.
    case_bool_decide; [done|]. intros (Hcan & ->)%transition_inv. split; [|done].
    apply verification_ok; auto. cbn in Hcan.
    destruct (VerificationResult.matched v), (OperationRecord.state o) eqn:Est; try done.
    destruct Hok as [_ Hsh]. destruct (H o Hop) as (_ & (a & Ha & _) & _).
    unfold validate_shape in Hsh. rewrite Est, Ha in Hsh. cbn in Hsh.
    by rewrite orb_true_r in Hsh.
  - unfold SessionRecord.fail_operation, SessionRecord.record_failure in H. inv_mut. apply push_failure_consistent.
    eapply operation_mut_consistent; [done| |done]. intros o o' _ _ Hok. apply fail_to_ok; auto.
  - eapply operation_mut_consistent; [done| |exact H0]. cbn. intros o o' Hop _ Hok.
    case_bool_decide as Hr; [by intros [= <-]|]. intros (_ & ->)%transition_inv.
    split; [|done]. apply restoring_ok; auto.
  - eapply operation_mut_consistent; [done| |exact H0]. cbn. intros o o' Hop Hid Hok.
    split_guard E. norm_guards. destruct_and!.
    intros (Hcan & ->)%transition_inv. split; [|done]. cbn in Hcan.
    destruct (OperationRecord.state o) eqn:Est; try done.
    destruct (OperationRecord.snapshot o) as [s|] eqn:Hsn.
    + eapply restored_ok; eauto; congruence.
    + destruct Hok as [_ Hsh]. unfold validate_shape in Hsh. by rewrite Est, Hsn in Hsh.
  - unfold SessionRecord.fail_restore, SessionRecord.record_failure in H. inv_mut. apply push_failure_consistent.
    eapply operation_mut_consistent; [done| |done]. intros o o' _ _ Hok. apply fail_to_ok; auto.
  - unfold SessionRecord.record_failure in H. inv_mut. by apply push_failure_consistent.
Qed.

(** ** New records *)

Lemma new_operations_Ok seen l ops :
  SessionRecord.new_operations seen l = Ok ops ↔
  ops = OperationRecord.planned <$> l
  ∧ NoDup (mutation_ids l) ∧ ∀ m, m ∈ l → m.(PlannedMutation.mutation_id) ∉ seen.
Proof.
  revert seen ops. induction l as [|m l IH]; intros seen ops;
    cbn [SessionRecord.new_operations].
  { cbn. split; [intros [= <-]; split_and!; [done|constructor|set_solver]|by intros [-> _]]. }
  case_bool_decide as Hin.
  { split; [done|]. intros (_ & _ & H). destruct (H m); [set_solver|done]. }
  rewrite bind_Ok. setoid_rewrite IH. unfold mutation_ids.
  rewrite (fmap_cons PlannedMutation.mutation_id), NoDup_cons. split.
  - intros (l' & (-> & Hn & Hs) & [= <-]). split_and!; try done.
    + intros (m' & Heq & Hm')%list_elem_of_fmap. apply (Hs m' Hm'). set_solver.
    + intros m' [->|Hm']%elem_of_cons; [done|]. specialize (Hs m' Hm'). set_solver.
  - intros (-> & [Hm Hn] & Hs). exists (OperationRecord.planned <$> l). split_and!; try done.
    intros m' Hm' [?|Heq%list_elem_of_singleton]%elem_of_app; [set_solver|].
    apply Hm. rewrite <-Heq. by apply list_elem_of_fmap_2.
Qed.

Lemma new_record_consistent session l r :
  SessionRecord.new session l = Ok r →
  session.(Session.state) = SessionState.New →
  session.(Session.header).(SessionHeader.targets) = PlannedMutation.target <$> l →
  consistent r.
Proof.
  unfold SessionRecord.new, planning_error. case_bool_decide; [done|].
  case_match; [done|]. intros (ops & Hops & [= <-])%bind_Ok Hst Ht.
  apply new_operations_Ok in Hops as (-> & Hn & _). unfold consistent. cbn. split_and!.
  - by rewrite <-list_fmap_compose.
  - apply Forall_fmap, Forall_true. apply planned_ok.
  - by rewrite Ht, <-list_fmap_compose.
  - by apply Forall_nil.
  - by rewrite Hst.
Qed.

(** Records the coordinator can hold: created from a plan, then changed by
    any sequence of contract-respecting method calls. *)
Definition live_record (sid : SessionId.t) (plan : Plan.t) (now : Timestamp.t)
    (r : SessionRecord.t) : Prop :=
  ∃ r0, SessionRecord.new (Session.new sid plan now) plan.(Plan.mutations) = Ok r0
        ∧ rtc record_step r0 r.

(** C31. Every record reachable from a new one by contract-respecting calls, of
    any number and in any order, passes the encoder's validation as long as
    its journal stays within the count limits. *)
Theorem live_record_validates sid plan now r :
  live_record sid plan now r → within_bounds r → validate_for_serialization r = Ok tt.
Proof.
  intros (r0 & Hnew & Hsteps) Hb. apply validate_iff. split; [done|].
  assert (consistent r0) as Hc by (by eapply new_record_consistent).
  clear Hb Hnew. induction Hsteps; eauto using record_step_consistent.
Qed.

Lemma operation_evidence r o :
  validate_for_serialization r = Ok tt → o ∈ r.(SessionRecord.operations) →
  (∀ a, o.(OperationRecord.apply_receipt) = Some a →
     ∃ s, o.(OperationRecord.snapshot) = Some s ∧ zero_identity s = false
          ∧ s.(Snapshot.original_fingerprint) = o.(OperationRecord.mutation).(PlannedMutation.precondition)
          ∧ a.(ApplyReceipt.observed_precondition) = s.(Snapshot.original_fingerprint))
  ∧ (o.(OperationRecord.state) = OperationState.Verified →
     ∃ a v, o.(OperationRecord.apply_receipt) = Some a ∧ o.(OperationRecord.verification) = Some v
            ∧ v.(VerificationResult.observed) = Some a.(ApplyReceipt.ownership_fingerprint))
  ∧ (o.(OperationRecord.state) = OperationState.Restored →
     ∃ s rr, o.(OperationRecord.snapshot) = Some s ∧ o.(OperationRecord.restore_receipt) = Some rr
             ∧ rr.(RestoreReceipt.restored_fingerprint) = s.(Snapshot.original_fingerprint)).
Proof.
  intros (_ & _ & Hok & _)%validate_iff Ho.
  rewrite Forall_forall in Hok. destruct (Hok o Ho) as [(Hs & Ha & Hv & Hr) Hsh].
  split_and!.
  - intros a Eq. destruct (Ha a Eq) as (_ & [s Es] & Hp & _). exists s.
    destruct (Hs s Es) as (_ & _ & _ & Hf & Hz). split_and!; congruence.
  - intros Est. unfold validate_shape in Hsh. rewrite Est in Hsh.
    destruct (OperationRecord.apply_receipt o) as [a|], (OperationRecord.verification o) as [v|];
      cbn in Hsh; rewrite ?orb_true_r in Hsh; try done.
    exists a, v. destruct (Hv v eq_refl) as (_ & a' & [= <-] & He & Hm). split_and!; try done.
    rewrite <-He. apply Hm. destruct (VerificationResult.matched v); [done|].
    by rewrite orb_true_r in Hsh.
  - intros Est. unfold validate_shape in Hsh. rewrite Est in Hsh.
    destruct (OperationRecord.restore_receipt o) as [rr|];
      cbn in Hsh; rewrite ?orb_true_r in Hsh; try done.
    destruct (Hr rr eq_refl) as (_ & s & Es & _ & _ & Hf). eauto.
Qed.

(** The ownership order of one operation, read off a validated record: an
    apply receipt is always backed by a captured original with a non-zero
    target identity and proves the planned precondition; [Verified] means the
    session-owned value was read back; [Restored] means the captured
    original was read back. *)
Theorem validated_operation_evidence r o :
  validate_for_serialization r = Ok tt → o ∈ r.(SessionRecord.operations) →
  (∀ a, o.(OperationRecord.apply_receipt) = Some a →
     ∃ s, o.(OperationRecord.snapshot) = Some s ∧ zero_identity s = false
          ∧ s.(Snapshot.original_fingerprint) = o.(OperationRecord.mutation).(PlannedMutation.precondition)
          ∧ a.(ApplyReceipt.observed_precondition) = s.(Snapshot.original_fingerprint))
  ∧ (o.(OperationRecord.state) = OperationState.Verified →
     ∃ a v, o.(OperationRecord.apply_receipt) = Some a ∧ o.(OperationRecord.verification) = Some v
            ∧ v.(VerificationResult.observed) = Some a.(ApplyReceipt.ownership_fingerprint))
  ∧ (o.(OperationRecord.state) = OperationState.Restored →
     ∃ s rr, o.(OperationRecord.snapshot) = Some s ∧ o.(OperationRecord.restore_receipt) = Some rr
             ∧ rr.(RestoreReceipt.restored_fingerprint) = s.(Snapshot.original_fingerprint)).
Proof. apply operation_evidence. Qed.
