(* ===== verification/Wire.v ===== *)
(** * Wire primitives ([Encoder] and [Decoder] of [transaction.rs])

    The bounded big-endian encoder and the cursor decoder, and the law
    [Codes m d a] that ties an encoder method to a decoder method: whatever
    [m] appends, [d] reads back as [a], leaving the cursor after it. *)
From Stdlib Require Import Strings.Byte.
From S2P Require Import Prelude Lists Text Ids Mut Mutation Record.
Local Open Scope N_scope.

Module Encoder.
Record t := mk { buffer : list byte }.
Definition default : t := mk [].
Definition finish (e : t) : list byte := e.(buffer).
Definition append (l : list byte) : Mut t unit := modify (λ e, mk (e.(buffer) ++ l)).
Definition u8 (value : N) : Mut t unit := append (to_be 1 value).
Definition u16 (value : N) : Mut t unit := append (to_be 2 value).
Definition u32 (value : N) : Mut t unit := append (to_be 4 value).
Definition u64 (value : N) : Mut t unit := append (to_be 8 value).
Definition u128 (value : N) : Mut t unit := append (to_be 16 value).
Definition i64 (value : Z) : Mut t unit := append (to_be 8 (i64_to_u64 value)).
Definition fixed {n} (value : array n) : Mut t unit := append (vec_to_list value).
Definition bytes (value : list byte) : Mut t unit :=
  if 2 ^ 32 - 1 <? N.of_nat (length value)
  then throw (corrupt "encoded byte field exceeds the u32 bound")
  else _ ← u32 (N.of_nat (length value)); append value.
Definition string (value : string) (max : N) : Mut t unit :=
  if (str_len value =? 0) || (max <? str_len value) || contains_nul value
  then throw (corrupt "encoded string is empty, oversized, or contains NUL")
  else bytes (bytes_of_string value).
End Encoder.

Module Decoder.
Record t := mk { buffer : list byte; offset : N }.
Definition new (bytes : list byte) : t := mk bytes 0.

Definition take (count : N) : Mut t (list byte) := λ d,
  match checked_add64 d.(offset) count with
  | None => (Err (corrupt "state cursor overflow"), d)
  | Some stop =>
    if N.of_nat (length d.(buffer)) <? stop
    then (Err (corrupt "state record is truncated"), d)
    else (Ok (take (N.to_nat count) (drop (N.to_nat d.(offset)) d.(buffer))),
          mk d.(buffer) stop)
  end.

Definition u8 : Mut t N := l ← take 1; mret (from_be l).
Definition u16 : Mut t N := l ← take 2; mret (from_be l).
Definition u32 : Mut t N := l ← take 4; mret (from_be l).
Definition u64 : Mut t N := l ← take 8; mret (from_be l).
Definition u128 : Mut t N := l ← take 16; mret (from_be l).
Definition i64 : Mut t Z := l ← take 8; mret (u64_to_i64 (from_be l)).
Definition fixed (n : nat) : Mut t (array n) :=
  l ← take (N.of_nat n); mret (array_copy n l).
Definition bytes (max : N) : Mut t (list byte) :=
  length ← u32;
  if max <? length then throw (corrupt "state byte field exceeds its bound")
  else take length.
Definition string (max : N) : Mut t string :=
  l ← bytes max;
  value ← lift (ok_or (from_utf8 l) (corrupt "state string is not UTF-8"));
  if (str_len value =? 0) || contains_nul value
  then throw (corrupt "state string is empty or contains NUL")
  else mret value.
Definition count (max : N) : Mut t N :=
  count ← u32;
  if max <? count then throw (corrupt "state collection exceeds its bound")
  else mret count.
Definition finish (d : t) : Result unit :=
  if d.(offset) =? N.of_nat (length d.(buffer)) then Ok tt
  else Err (corrupt "state record contains trailing bytes").
End Decoder.

Definition put_count (count max : N) : Mut Encoder.t unit :=
  if (max <? count) || (2 ^ 32 - 1 <? count)
  then throw (corrupt "state collection exceeds its bound")
  else Encoder.u32 count.

Definition encode_optional (present : bool) : Mut Encoder.t unit :=
  Encoder.u8 (if present then 1 else 0).

(** [if let Some(x) = &o { f(x)?; }] *)
Definition if_some {S A} (f : A → Mut S unit) (o : option A) : Mut S unit :=
  match o with Some a => f a | None => mret tt end.

(** [if decoder.u8()? != 0 { Some(d?) } else { None }] *)
Definition decode_option {A} (d : Mut Decoder.t A) : Mut Decoder.t (option A) :=
  flag ← Decoder.u8;
  if flag =? 0 then mret None else x ← d; mret (Some x).

(** ** The codec law *)

Definition Parses {A} (d : Mut Decoder.t A) (bs : list byte) (a : A) : Prop :=
  ∀ pre post, N.of_nat (length (pre ++ bs ++ post)) < 2 ^ 64 →
    d (Decoder.mk (pre ++ bs ++ post) (N.of_nat (length pre)))
    = (Ok a, Decoder.mk (pre ++ bs ++ post) (N.of_nat (length (pre ++ bs)))).

Definition Codes {A} (m : Mut Encoder.t unit) (d : Mut Decoder.t A) (a : A) : Prop :=
  ∀ e e', m e = (Ok tt, e') →
    ∃ bs, Encoder.buffer e' = Encoder.buffer e ++ bs ∧ Parses d bs a.

Lemma Parses_ret {A} (a : A) : Parses (mret a) [] a.
Proof. intros pre post _. cbn. by rewrite app_nil_r. Qed.

Lemma Parses_bind {A B} (d : Mut Decoder.t A) (k : A → Mut Decoder.t B) bs1 bs2 a b :
  Parses d bs1 a → Parses (k a) bs2 b → Parses (d ≫= k) (bs1 ++ bs2) b.
Proof.
  intros H1 H2 pre post Hl. specialize (H1 pre (bs2 ++ post)).
  specialize (H2 (pre ++ bs1) post). rewrite <-!app_assoc in *.
  erewrite mut_bind_run by (by apply H1). by rewrite H2.
Qed.

Lemma Parses_take l : Parses (Decoder.take (N.of_nat (length l))) l l.
Proof.
  intros pre post Hl. unfold Decoder.take, checked_add64. cbn [Decoder.offset Decoder.buffer].
  rewrite !length_app in Hl.
  rewrite (proj2 (N.ltb_lt _ _)) by lia.
  rewrite (proj2 (N.ltb_ge _ _)) by (rewrite !length_app; lia).
  rewrite !Nat2N.id, drop_app_length, take_app_length.
  do 2 f_equal. rewrite length_app. lia.
Qed.

Lemma Codes_ret {A} (a : A) : Codes (mret tt) (mret a) a.
Proof. intros e e' [= <-]. exists []. rewrite app_nil_r. split; [done|apply Parses_ret]. Qed.

Lemma Codes_bind {A B} m m' (d : Mut Decoder.t A) (k : A → Mut Decoder.t B) a b :
  Codes m d a → Codes m' (k a) b → Codes (m ≫= λ _, m') (d ≫= k) b.
Proof.
  intros H1 H2 e e' H. apply mut_bind_Ok in H as ([] & e1 & Hm & Hm').
  destruct (H1 _ _ Hm) as (bs1 & E1 & P1). destruct (H2 _ _ Hm') as (bs2 & E2 & P2).
  exists (bs1 ++ bs2). rewrite E2, E1, app_assoc. split; [done|by eapply Parses_bind].
Qed.

(** The last call of an encoder against a decoder that still computes. *)
Lemma Codes_last {A B} m (d : Mut Decoder.t A) (k : A → Mut Decoder.t B) a b :
  Codes m d a → (∀ s, k a s = (Ok b, s)) → Codes m (d ≫= k) b.
Proof.
  intros H1 H2 e e' H. destruct (H1 _ _ H) as (bs & E & P). exists bs. split; [done|].
  rewrite <-(app_nil_r bs). eapply Parses_bind; [done|].
  intros pre post _. by rewrite H2, app_nil_r.
Qed.

Lemma Codes_lift {A B} m (r : Result A) (k : A → Mut Decoder.t B) a b :
  r = Ok a → Codes m (k a) b → Codes m (lift r ≫= k) b.
Proof. intros -> H e e' Hm. exact (H e e' Hm). Qed.

Lemma Codes_if {A} m (c : bool) (x : A) (d : Mut Decoder.t A) err :
  c = false → Codes m d x → Codes m (if c then throw err else d) x.
Proof. by intros ->. Qed.

Lemma Codes_append {A} l (f : list byte → A) n :
  n = N.of_nat (length l) →
  Codes (Encoder.append l) (bs ← Decoder.take n; mret (f bs)) (f l).
Proof.
  intros -> e e' [= <-]. exists l. split; [done|]. rewrite <-(app_nil_r l) at 2.
  eapply Parses_bind; [apply Parses_take|apply Parses_ret].
Qed.

(** ** Codec laws of the primitives *)

Lemma Codes_uint k w n :
  w = 8 * N.of_nat k → fits w n →
  Codes (Encoder.append (to_be k n))
        (l ← Decoder.take (N.of_nat k); mret (from_be l)) n.
Proof.
  intros Hw Hn e e' H.
  destruct (Codes_append (to_be k n) from_be (N.of_nat k)) with (e := e) (e' := e')
    as (bs & E & P); [by rewrite length_to_be|done|].
  rewrite (from_to_be_small k w n Hw Hn) in P. eauto.
Qed.

Lemma Codes_u8 n : fits 8 n → Codes (Encoder.u8 n) Decoder.u8 n.
Proof. by apply (Codes_uint 1). Qed.
Lemma Codes_u16 n : fits 16 n → Codes (Encoder.u16 n) Decoder.u16 n.
Proof. by apply (Codes_uint 2). Qed.
Lemma Codes_u32 n : fits 32 n → Codes (Encoder.u32 n) Decoder.u32 n.
Proof. by apply (Codes_uint 4). Qed.
Lemma Codes_u64 n : fits 64 n → Codes (Encoder.u64 n) Decoder.u64 n.
Proof. by apply (Codes_uint 8). Qed.
Lemma Codes_u128 n : fits 128 n → Codes (Encoder.u128 n) Decoder.u128 n.
Proof. by apply (Codes_uint 16). Qed.

Lemma Codes_i64 z : fits_signed 64 z → Codes (Encoder.i64 z) Decoder.i64 z.
Proof.
  intros Hz e e' H.
  destruct (Codes_append (to_be 8 (i64_to_u64 z)) (λ l, u64_to_i64 (from_be l)) 8)
    with (e := e) (e' := e') as (bs & E & P); [by rewrite length_to_be|done|].
  rewrite (from_to_be_small 8 64), i64_round in P by (done || apply i64_to_u64_fits).
  eauto.
Qed.

Lemma Codes_fixed {n} (v : array n) : Codes (Encoder.fixed v) (Decoder.fixed n) v.
Proof.
  intros e e' H.
  destruct (Codes_append (vec_to_list v) (array_copy n) (N.of_nat n))
    with (e := e) (e' := e') as (bs & E & P); [by rewrite length_vec_to_list|done|].
  rewrite array_copy_vec in P. eauto.
Qed.

Lemma Codes_bytes l max :
  N.of_nat (length l) ≤ max → Codes (Encoder.bytes l) (Decoder.bytes max) l.
Proof.
  intros Hl. unfold Encoder.bytes, Decoder.bytes.
  destruct (N.ltb_spec (2 ^ 32 - 1) (N.of_nat (length l))); [by intros ??|].
  apply (Codes_bind _ _ _ _ (N.of_nat (length l))); [apply Codes_u32; unfold fits; lia|].
  rewrite (proj2 (N.ltb_ge _ _)) by done.
  intros e e' [= <-]. exists l. split; [done|apply Parses_take].
Qed.

Lemma Codes_string s max :
  utf8 s → Codes (Encoder.string s max) (Decoder.string max) s.
Proof.
  intros Hu. unfold Encoder.string, Decoder.string.
  destruct (str_len s =? 0) eqn:E0; [by intros ??|].
  destruct (N.ltb_spec max (str_len s)); [by intros ??|].
  destruct (contains_nul s) eqn:E1; [by intros ??|]. cbn [orb].
  eapply Codes_last; [by apply Codes_bytes|].
  intros d. rewrite from_utf8_of_string by done. unfold lift, mbind, mut_bind. cbn.
  by rewrite E0, E1.
Qed.

Lemma Codes_put_count n max : Codes (put_count n max) (Decoder.count max) n.
Proof.
  unfold put_count, Decoder.count.
  destruct (N.ltb_spec max n); [by intros ??|].
  destruct (N.ltb_spec (2 ^ 32 - 1) n); [by intros ??|]. cbn [orb].
  eapply Codes_last; [apply Codes_u32; unfold fits; lia|].
  intros d. by rewrite (proj2 (N.ltb_ge _ _)).
Qed.

Lemma Codes_bool b : Codes (encode_optional b) Decoder.u8 (if b then 1 else 0).
Proof. unfold encode_optional. apply Codes_u8. by destruct b. Qed.

(** [encode_optional(o.is_some()); if let Some(x) = o { m(x) }] against
    [decode_option]. *)
Lemma Codes_option {A} (m : A → Mut Encoder.t unit) (d : Mut Decoder.t A) (o : option A) :
  (∀ a, o = Some a → Codes (m a) d a) →
  Codes (_ ← encode_optional (is_some o); if_some m o) (decode_option d) o.
Proof.
  intros H. unfold decode_option.
  eapply Codes_bind; [apply Codes_bool|]. destruct o as [a|]; cbn [is_some is_none negb].
  - eapply Codes_last; [by apply H|done].
  - apply Codes_ret.
Qed.

Lemma Codes_list {A} (m : A → Mut Encoder.t unit) (d : Mut Decoder.t A) (l : list A) :
  (∀ a, a ∈ l → Codes (m a) d a) →
  Codes (mut_for_each m l) (mut_repeat (length l) d) l.
Proof.
  induction l as [|a l IH]; intros H; cbn [mut_for_each mut_repeat length].
  { apply Codes_ret. }
  eapply Codes_bind; [apply H; set_solver|].
  eapply Codes_last; [apply IH; set_solver|done].
Qed.

(** A counted collection, as every [Vec] of the format is written. *)
Lemma Codes_counted {A B} (m : A → Mut Encoder.t unit) (d : Mut Decoder.t A) (l : list A) max
    m' (k : list A → Mut Decoder.t B) b :
  (∀ a, a ∈ l → Codes (m a) d a) → Codes m' (k l) b →
  Codes (_ ← put_count (N.of_nat (length l)) max; _ ← mut_for_each m l; m')
        (n ← Decoder.count max; x ← mut_repeat (N.to_nat n) d; k x) b.
Proof.
  intros H Hk. eapply Codes_bind; [apply Codes_put_count|]. rewrite Nat2N.id.
  eapply Codes_bind; [by apply Codes_list|done].
Qed.

(** A decoder that reads what several calls wrote. *)
Lemma Codes_seq {A B} (m1 m2 m3 : Mut Encoder.t unit) (d : Mut Decoder.t A) (k : A → Mut Decoder.t B) a b :
  Codes (_ ← m1; m2) d a → Codes m3 (k a) b →
  Codes (_ ← m1; _ ← m2; m3) (d ≫= k) b.
Proof.
  intros H1 H2 e e' H. apply (Codes_bind _ _ _ _ _ _ H1 H2 e e').
  apply mut_bind_Ok in H as (u & s1 & Hm1 & H). apply mut_bind_Ok in H as (v & s2 & Hm2 & H).
  apply mut_bind_Ok. exists tt, s2. split; [|done].
  apply mut_bind_Ok. exists u, s1. by destruct v.
Qed.

Lemma Codes_option_then {A B} (m : A → Mut Encoder.t unit) (d : Mut Decoder.t A)
    (o : option A) m' (k : option A → Mut Decoder.t B) b :
  (∀ a, o = Some a → Codes (m a) d a) → Codes m' (k o) b →
  Codes (_ ← encode_optional (is_some o); _ ← if_some m o; m') (decode_option d ≫= k) b.
Proof. intros H H'. eapply Codes_seq; [by apply Codes_option|done]. Qed.

Lemma Codes_option_last {A B} (m : A → Mut Encoder.t unit) (d : Mut Decoder.t A)
    (o : option A) (k : option A → Mut Decoder.t B) b :
  (∀ a, o = Some a → Codes (m a) d a) → (∀ s, k o s = (Ok b, s)) →
  Codes (_ ← encode_optional (is_some o); if_some m o) (decode_option d ≫= k) b.
Proof. intros H H'. eapply Codes_last; [by apply Codes_option|done]. Qed.

Lemma Codes_counted_last {A B} (m : A → Mut Encoder.t unit) (d : Mut Decoder.t A) (l : list A)
    max (k : list A → Mut Decoder.t B) b :
  (∀ a, a ∈ l → Codes (m a) d a) → (∀ s, k l s = (Ok b, s)) →
  Codes (_ ← put_count (N.of_nat (length l)) max; mut_for_each m l)
        (n ← Decoder.count max; x ← mut_repeat (N.to_nat n) d; k x) b.
Proof.
  intros H Hk. eapply Codes_bind; [apply Codes_put_count|]. rewrite Nat2N.id.
  eapply Codes_last; [by apply Codes_list|done].
Qed.

Lemma Codes_fmap {A B} m (d : Mut Decoder.t A) (f : A → B) a b :
  Codes m d a → f a = b → Codes m (f <$> d) b.
Proof. intros H <-. eapply Codes_last; [done|]. by intros s. Qed.

(** ** What a decoder can produce *)

Definition Produces {A} (d : Mut Decoder.t A) (P : A → Prop) : Prop :=
  ∀ s a s', d s = (Ok a, s') → P a.

Lemma Produces_weaken {A} (d : Mut Decoder.t A) (P Q : A → Prop) :
  Produces d P → (∀ a, P a → Q a) → Produces d Q.
Proof. intros H HQ s a s' Hd. eauto. Qed.

Lemma Produces_True {A} (d : Mut Decoder.t A) : Produces d (λ _, True).
Proof. done. Qed.

Lemma Produces_ret {A} (a : A) (P : A → Prop) : P a → Produces (mret a) P.
Proof. by intros H s a' s' [= <- <-]. Qed.

Lemma Produces_throw {A} e (P : A → Prop) : Produces (throw e) P.
Proof. by intros s a s' ?. Qed.

Lemma Produces_lift {A} (r : Result A) (P : A → Prop) :
  (∀ a, r = Ok a → P a) → Produces (lift r) P.
Proof. intros H s a s' [= Hr]. by apply H. Qed.

Lemma Produces_bind {A B} (d : Mut Decoder.t A) (k : A → Mut Decoder.t B) P Q :
  Produces d P → (∀ a, P a → Produces (k a) Q) → Produces (d ≫= k) Q.
Proof.
  intros Hd Hk s b s' H. apply mut_bind_Ok in H as (a & s1 & H1 & H2).
  by apply (Hk a (Hd _ _ _ H1) _ _ _ H2).
Qed.

Lemma Produces_fmap {A B} (d : Mut Decoder.t A) (f : A → B) (P : A → Prop) (Q : B → Prop) :
  Produces d P → (∀ a, P a → Q (f a)) → Produces (f <$> d) Q.
Proof. intros H HQ. eapply Produces_bind; [done|]. intros a Ha. by apply Produces_ret, HQ. Qed.

Lemma Produces_option {A} (d : Mut Decoder.t A) (P : A → Prop) :
  Produces d P → Produces (decode_option d) (option_wf P).
Proof.
  intros H. eapply Produces_bind; [apply Produces_True|]. intros flag _.
  destruct (flag =? 0); [by apply Produces_ret|].
  eapply Produces_bind; [done|]. intros a Ha. by apply Produces_ret.
Qed.

Lemma Produces_repeat {A} n (d : Mut Decoder.t A) (P : A → Prop) :
  Produces d P → Produces (mut_repeat n d) (Forall P).
Proof.
  intros H. induction n as [|n IH]; cbn [mut_repeat]; [by apply Produces_ret|].
  eapply Produces_bind; [done|]. intros a Ha. eapply Produces_bind; [done|].
  intros l Hl. apply Produces_ret. by constructor.
Qed.

Lemma Produces_take n : Produces (Decoder.take n) (λ l, N.of_nat (length l) ≤ n).
Proof.
  intros s l s'. unfold Decoder.take. destruct (checked_add64 _ _); [|done].
  destruct (_ <? _); [done|]. intros [= <- _]. rewrite length_take. lia.
Qed.

Lemma Produces_from_be n w : w = 8 * n →
  Produces (l ← Decoder.take n; mret (from_be l)) (fits w).
Proof.
  intros ->. eapply Produces_bind; [apply Produces_take|]. intros l Hl.
  apply Produces_ret. unfold fits. rewrite N.pow_mul_r. change (2 ^ 8) with 256.
  pose proof (from_be_bound l). eapply N.lt_le_trans; [done|]. by apply N.pow_le_mono_r.
Qed.

Lemma Produces_u8 : Produces Decoder.u8 (fits 8).
Proof. by apply Produces_from_be. Qed.
Lemma Produces_u16 : Produces Decoder.u16 (fits 16).
Proof. by apply Produces_from_be. Qed.
Lemma Produces_u32 : Produces Decoder.u32 (fits 32).
Proof. by apply Produces_from_be. Qed.
Lemma Produces_u64 : Produces Decoder.u64 (fits 64).
Proof. by apply Produces_from_be. Qed.
Lemma Produces_u128 : Produces Decoder.u128 (fits 128).
Proof. by apply Produces_from_be. Qed.

Lemma Produces_i64 : Produces Decoder.i64 (fits_signed 64).
Proof.
  eapply Produces_bind; [apply Produces_take|]. intros l Hl. apply Produces_ret.
  pose proof (from_be_bound l). assert (from_be l < 2 ^ 64).
  { eapply N.lt_le_trans; [done|]. change (2 ^ 64) with (256 ^ 8). by apply N.pow_le_mono_r. }
  unfold fits_signed, u64_to_i64. change (2 ^ (64 - 1))%Z with (2 ^ 63)%Z.
  destruct (N.ltb_spec (from_be l) (2 ^ 63)); lia.
Qed.

Lemma Produces_bytes max : Produces (Decoder.bytes max) (λ l, N.of_nat (length l) ≤ max).
Proof.
  eapply Produces_bind; [apply Produces_True|]. intros n _.
  destruct (N.ltb_spec max n); [apply Produces_throw|].
  eapply Produces_weaken; [apply Produces_take|]. cbn. lia.
Qed.

Lemma Produces_string max : Produces (Decoder.string max)
  (λ s, utf8 s ∧ 1 ≤ str_len s ≤ max ∧ contains_nul s = false).
Proof.
  eapply Produces_bind; [apply Produces_bytes|]. intros l Hl. cbn beta in Hl.
  eapply (Produces_bind _ _ (λ s, from_utf8 l = Some s)).
  { apply Produces_lift. intros a. destruct (from_utf8 l); by intros [= ->]. }
  intros s Hs. apply from_utf8_Some in Hs as [Hu <-].
  destruct (_ || _) eqn:E; [apply Produces_throw|]. apply Produces_ret.
  apply orb_false_elim in E as [E1 E2]. apply N.eqb_neq in E1.
  split_and!; [done|lia| |done]. exact Hl.
Qed.
