(* ===== verification/Checksum.v ===== *)
(** * The state-file checksum ([checksum] of [transaction.rs])

    Four 64-bit lanes absorb the payload bytes round-robin by xor, wrapping
    multiplication and rotation.  Each absorption is a bijection of its
    lane, so two payloads of the same length that differ in exactly one
    byte have different checksums. *)
From Stdlib Require Import Strings.Byte.
From S2P Require Import Prelude Lists.
Local Open Scope N_scope.

Definition PRIME : u64 := 0x100000001b3.
Definition initial_lanes : list u64 :=
  [0xcbf29ce484222325; 0x84222325cbf29ce4; 0x9e3779b185ebca87; 0x517cc1b727220a95].

(** [lanes[lane] ^= byte; lanes[lane] = lanes[lane].wrapping_mul(P).rotate_left((index % 63) + 1)]. *)
Definition mix (index : nat) (b : byte) (lane : u64) : u64 :=
  rotate_left64 (wrapping_mul64 (N.lxor lane (b2n b)) PRIME)
    (N.of_nat index mod 63 + 1).

(** The loop over [bytes.iter().copied().enumerate()]. *)
Fixpoint absorb (index : nat) (bytes : list byte) (lanes : list u64) : list u64 :=
  match bytes with
  | [] => lanes
  | b :: bytes' =>
    absorb (S index) bytes' (alter (mix index b) (index mod 4)%nat lanes)
  end.

Definition checksum (bytes : list byte) : list byte :=
  concat (to_be 8 <$> absorb 0 bytes initial_lanes).

(** ** Lanes stay 64-bit *)

Lemma mul64_fits a b : fits 64 (wrapping_mul64 a b).
Proof. unfold fits, wrapping_mul64. apply N.mod_lt. done. Qed.

Lemma fits_testbit w n : fits w n ↔ ∀ i, w ≤ i → N.testbit n i = false.
Proof.
  unfold fits. split.
  - intros H i Hi. destruct (N.eq_dec n 0) as [->|Hn]; [apply N.bits_0|].
    apply N.bits_above_log2. apply N.log2_lt_pow2 in H; lia.
  - intros H. destruct (N.eq_dec n 0) as [->|Hn].
    { apply N.neq_0_lt_0, N.pow_nonzero. done. }
    apply N.log2_lt_pow2; [lia|]. apply N.nle_gt. intros Hle.
    pose proof (N.bit_log2 n Hn) as Hb. by rewrite H in Hb.
Qed.

Lemma rotate_testbit a r i :
  fits 64 a → 1 ≤ r ≤ 63 → i < 64 →
  N.testbit (rotate_left64 a r) i =
  if i <? r then N.testbit a (i + 64 - r) else N.testbit a (i - r).
Proof.
  intros Ha Hr Hi. unfold rotate_left64. rewrite (N.mod_small r) by lia.
  rewrite N.lor_spec, <-N.land_ones, N.land_spec.
  rewrite N.ones_spec_low, andb_true_r by lia.
  rewrite N.shiftr_spec' . destruct (N.ltb_spec i r).
  - rewrite N.shiftl_spec_low by done. cbn [orb]. f_equal. lia.
  - rewrite N.shiftl_spec_high' by done.
    rewrite (proj1 (fits_testbit 64 a) Ha (i + (64 - r))) by lia. apply orb_false_r.
Qed.

Lemma rotate_fits a r : fits 64 a → 1 ≤ r ≤ 63 → fits 64 (rotate_left64 a r).
Proof.
  intros Ha Hr. apply fits_testbit. intros i Hi. unfold rotate_left64.
  rewrite (N.mod_small r) by lia.
  rewrite N.lor_spec, <-N.land_ones, N.land_spec, N.ones_spec_high, andb_false_r by lia.
  rewrite N.shiftr_spec'. apply (proj1 (fits_testbit 64 a)); [done|lia].
Qed.

Lemma rotate_inj a b r :
  fits 64 a → fits 64 b → 1 ≤ r ≤ 63 → rotate_left64 a r = rotate_left64 b r → a = b.
Proof.
  intros Ha Hb Hr H. apply N.bits_inj. intros i.
  destruct (N.lt_ge_cases i 64) as [Hi|Hi].
  2: { by rewrite (proj1 (fits_testbit 64 a) Ha i), (proj1 (fits_testbit 64 b) Hb i). }
  destruct (N.lt_ge_cases i (64 - r)) as [Hl|Hl].
  - pose proof (f_equal (λ x, N.testbit x (i + r)) H) as Hbit. cbn beta in Hbit.
    rewrite !rotate_testbit in Hbit by (done || lia).
    rewrite (proj2 (N.ltb_ge _ _)) in Hbit by lia.
    by rewrite N.add_sub in Hbit.
  - pose proof (f_equal (λ x, N.testbit x (i + r - 64)) H) as Hbit. cbn beta in Hbit.
    rewrite !rotate_testbit in Hbit by (done || lia).
    rewrite (proj2 (N.ltb_lt _ _)) in Hbit by lia.
    assert (i + r - 64 + 64 - r = i) as Hback by lia. by rewrite Hback in Hbit.
Qed.

(** The prime is odd, hence invertible modulo [2 ^ 64]. *)
Definition PRIME_INVERSE : u64 := 0xce965057aff6957b.

Lemma prime_inverse : (PRIME * PRIME_INVERSE) mod 2 ^ 64 = 1.
Proof. vm_compute. reflexivity. Qed.

Lemma mul64_inj a b :
  fits 64 a → fits 64 b → wrapping_mul64 a PRIME = wrapping_mul64 b PRIME → a = b.
Proof.
  intros Ha Hb H.
  assert (∀ x, fits 64 x → (wrapping_mul64 x PRIME * PRIME_INVERSE) mod 2 ^ 64 = x) as Hinv.
  { intros x Hx. unfold wrapping_mul64.
    rewrite N.Div0.mul_mod_idemp_l, <-N.mul_assoc, <-N.Div0.mul_mod_idemp_r.
    rewrite prime_inverse, N.mul_1_r. by apply N.mod_small. }
  by rewrite <-(Hinv a Ha), <-(Hinv b Hb), H.
Qed.

Lemma lxor_fits a b : fits 64 a → fits 64 (N.lxor a (b2n b)).
Proof.
  intros Ha. apply fits_testbit. intros i Hi. rewrite N.lxor_spec.
  rewrite (proj1 (fits_testbit 64 a) Ha i Hi).
  rewrite (proj1 (fits_testbit 8 (b2n b))); [done| |lia]. apply b2n_lt.
Qed.

Lemma mix_rotation index : 1 ≤ N.of_nat index mod 63 + 1 ≤ 63.
Proof.
  pose proof (N.mod_lt (N.of_nat index) 63 ltac:(done)) as H.
  set (m := N.of_nat index mod 63) in *. clearbody m. lia.
Qed.

Lemma mix_fits index b lane : fits 64 (mix index b lane).
Proof. apply rotate_fits; [apply mul64_fits|apply mix_rotation]. Qed.

(** Mixing is injective in the lane and in the byte. *)
Lemma mix_inj_lane index b x y :
  fits 64 x → fits 64 y → mix index b x = mix index b y → x = y.
Proof.
  intros Hx Hy H. apply rotate_inj in H; try apply mul64_fits; [|apply mix_rotation].
  apply mul64_inj in H; try by apply lxor_fits.
  apply (f_equal (λ z, N.lxor z (b2n b))) in H.
  by rewrite !N.lxor_assoc, N.lxor_nilpotent, !N.lxor_0_r in H.
Qed.

Lemma mix_inj_byte index b c x :
  fits 64 x → mix index b x = mix index c x → b = c.
Proof.
  intros Hx H. apply rotate_inj in H; try apply mul64_fits; [|apply mix_rotation].
  apply mul64_inj in H; try by apply lxor_fits.
  apply (f_equal (N.lxor x)) in H.
  rewrite <-!N.lxor_assoc, N.lxor_nilpotent, !N.lxor_0_l in H. by apply b2n_inj.
Qed.

(** ** Absorption *)

Lemma absorb_app index l1 l2 lanes :
  absorb index (l1 ++ l2) lanes = absorb (index + length l1) l2 (absorb index l1 lanes).
Proof.
  revert index lanes. induction l1 as [|b l1 IH]; intros index lanes; cbn [app absorb length].
  - by rewrite Nat.add_0_r.
  - by rewrite IH, Nat.add_succ_r.
Qed.

Lemma length_absorb index l lanes : length (absorb index l lanes) = length lanes.
Proof.
  revert index lanes. induction l as [|b l IH]; intros index lanes; [done|].
  cbn [absorb]. by rewrite IH, length_alter.
Qed.

Lemma alter_fits index b k lanes :
  Forall (fits 64) lanes → Forall (fits 64) (alter (mix index b) k lanes).
Proof. intros H. apply Forall_alter; [done|]. intros x _ _. apply mix_fits. Qed.

Lemma absorb_fits index l lanes :
  Forall (fits 64) lanes → Forall (fits 64) (absorb index l lanes).
Proof.
  revert index lanes. induction l as [|b l IH]; intros index lanes H; [done|].
  cbn [absorb]. by apply IH, alter_fits.
Qed.

Lemma alter_mix_inj index b k la lb :
  Forall (fits 64) la → Forall (fits 64) lb →
  alter (mix index b) k la = alter (mix index b) k lb → la = lb.
Proof.
  revert k lb. induction la as [|x la IH]; intros [|k] [|y lb] Ha Hb; try done;
    apply Forall_cons in Ha as [Hx Ha]; apply Forall_cons in Hb as [Hy Hb]; intros [= H1 H2].
  - subst lb. f_equal. by eapply mix_inj_lane.
  - subst y. f_equal. by apply (IH k).
Qed.

(** Absorbing the same bytes keeps different lanes different. *)
Lemma absorb_inj index l la lb :
  Forall (fits 64) la → Forall (fits 64) lb →
  absorb index l la = absorb index l lb → la = lb.
Proof.
  revert index la lb. induction l as [|b l IH]; intros index la lb Ha Hb; [done|].
  cbn [absorb]. intros H. eapply alter_mix_inj; [done..|].
  eapply IH; [by apply alter_fits..|exact H].
Qed.

Lemma initial_lanes_fit : Forall (fits 64) initial_lanes.
Proof. by apply (bool_decide_unpack _). Qed.

(** A changed byte changes the lanes. *)
Lemma absorb_byte_inj index b c l lanes :
  Forall (fits 64) lanes → length lanes = 4%nat →
  absorb index (b :: l) lanes = absorb index (c :: l) lanes → b = c.
Proof.
  intros Hf Hl H. cbn [absorb] in H. apply absorb_inj in H; [|by apply alter_fits..].
  destruct (lookup_lt_is_Some_2 lanes (index mod 4)%nat) as [x Hx].
  { rewrite Hl. by apply Nat.mod_upper_bound. }
  apply (f_equal (lookup (index mod 4)%nat)) in H.
  rewrite !list_lookup_alter_eq, Hx in H. injection H as H.
  eapply mix_inj_byte; [|exact H]. by eapply Forall_lookup_1.
Qed.

Lemma concat_to_be_inj la lb :
  Forall (fits 64) la → Forall (fits 64) lb →
  concat (to_be 8 <$> la) = concat (to_be 8 <$> lb) → la = lb.
Proof.
  revert lb. induction la as [|x la IH]; intros [|y lb] Ha Hb; try done.
  apply Forall_cons in Ha as [Hx Ha]. apply Forall_cons in Hb as [Hy Hb].
  rewrite !fmap_cons. cbn [concat]. intros H.
  apply app_inj_1 in H as [H1 H2]; [|by rewrite !length_to_be].
  f_equal; [by apply (to_be_inj 8 64)|by apply IH].
Qed.

Lemma length_concat_to_be (l : list u64) :
  length (concat (to_be 8 <$> l)) = (8 * length l)%nat.
Proof.
  induction l as [|x l IH]; [done|]. rewrite fmap_cons. cbn [concat length].
  rewrite length_app, length_to_be, IH. lia.
Qed.

Lemma length_checksum l : length (checksum l) = 32%nat.
Proof. unfold checksum. by rewrite length_concat_to_be, length_absorb. Qed.

Lemma checksum_byte_inj l1 l2 b c :
  checksum (l1 ++ b :: l2) = checksum (l1 ++ c :: l2) → b = c.
Proof.
  unfold checksum. intros H.
  apply concat_to_be_inj in H; [|by apply absorb_fits, initial_lanes_fit..].
  rewrite !absorb_app in H. apply absorb_byte_inj in H; [done|apply absorb_fits, initial_lanes_fit|].
  by rewrite length_absorb.
Qed.

(** Changing one byte of a payload, wherever it is and whatever follows,
    changes its checksum, which always has 32 bytes. *)
Theorem checksum_detects_byte_change (l1 l2 : list byte) (b c : byte) :
  length (checksum (l1 ++ b :: l2)) = 32%nat
  ∧ (checksum (l1 ++ b :: l2) = checksum (l1 ++ c :: l2) ↔ b = c).
Proof. split; [apply length_checksum|]. split; [apply checksum_byte_inj|by intros ->]. Qed.
