(* ===== verification/Codec.v ===== *)
(** * The state-file format ([sysboost-core/src/transaction.rs], codec)

    One encoder and one decoder per type of the record, in the order and
    with the tags of the source, and the framed record: magic, version,
    payload length, payload, checksum. *)
From Stdlib Require Import Strings.Byte.
From S2P Require Import Prelude Lists Text Ids Mut Capability Mutation Session Record.
From S2P Require Import Wire Checksum.
Local Open Scope N_scope.

Definition STATE_FORMAT_VERSION : u16 := 1.
Definition MAX_SESSION_RECORD_BYTES : usize := 1048576.
Definition MAGIC : list byte := bytes_of_string "SYSBST01".

(** [X::new(d?).map_err(|_| corrupt(message))?] *)
Definition parse_with {E A B} (d : Mut Decoder.t A) (new : A → result E B)
    (message : string) : Mut Decoder.t B :=
  v ← d; lift (map_err (λ _, corrupt message) (new v)).

(** [decode_x(decoder.u8()?)?] *)
Definition decode_tag {A} (d : Mut Decoder.t N) (f : N → Result A) : Mut Decoder.t A :=
  tag ← d; lift (f tag).

(** ** Tags *)

Definition encode_session_state (state : SessionState.t) : Mut Encoder.t unit :=
  Encoder.u8 match state with
  | SessionState.New => 0
  | SessionState.Detected => 1
  | SessionState.Planned => 2
  | SessionState.Snapshotted => 3
  | SessionState.IntentDurable => 4
  | SessionState.Applying => 5
  | SessionState.Active => 6
  | SessionState.Restoring => 7
  | SessionState.Restored => 8
  | SessionState.RollingBack => 9
  | SessionState.Degraded => 10
  | SessionState.RecoveryPending => 11
  end.

Definition decode_session_state (tag : u8) : Result SessionState.t :=
  match tag with
  | 0 => Ok SessionState.New
  | 1 => Ok SessionState.Detected
  | 2 => Ok SessionState.Planned
  | 3 => Ok SessionState.Snapshotted
  | 4 => Ok SessionState.IntentDurable
  | 5 => Ok SessionState.Applying
  | 6 => Ok SessionState.Active
  | 7 => Ok SessionState.Restoring
  | 8 => Ok SessionState.Restored
  | 9 => Ok SessionState.RollingBack
  | 10 => Ok SessionState.Degraded
  | 11 => Ok SessionState.RecoveryPending
  | _ => Err (corrupt "unknown session state tag")
  end.

Definition encode_operation_state (state : OperationState.t) : Mut Encoder.t unit :=
  Encoder.u8 match state with
  | OperationState.Planned => 0
  | OperationState.Snapshotted => 1
  | OperationState.IntentRecorded => 2
  | OperationState.Applying => 3
  | OperationState.Applied => 4
  | OperationState.Verified => 5
  | OperationState.Restoring => 6
  | OperationState.Restored => 7
  | OperationState.Failed => 8
  | OperationState.RestoreFailed => 9
  end.

Definition decode_operation_state (tag : u8) : Result OperationState.t :=
  match tag with
  | 0 => Ok OperationState.Planned
  | 1 => Ok OperationState.Snapshotted
  | 2 => Ok OperationState.IntentRecorded
  | 3 => Ok OperationState.Applying
  | 4 => Ok OperationState.Applied
  | 5 => Ok OperationState.Verified
  | 6 => Ok OperationState.Restoring
  | 7 => Ok OperationState.Restored
  | 8 => Ok OperationState.Failed
  | 9 => Ok OperationState.RestoreFailed
  | _ => Err (corrupt "unknown operation state tag")
  end.

Definition encode_equality (equality : EqualityKind.t) : Mut Encoder.t unit :=
  Encoder.u8 match equality with
  | EqualityKind.ByteExact => 0
  | EqualityKind.ScalarExact => 1
  | EqualityKind.SetExact => 2
  end.

Definition decode_equality (tag : u8) : Result EqualityKind.t :=
  match tag with
  | 0 => Ok EqualityKind.ByteExact
  | 1 => Ok EqualityKind.ScalarExact
  | 2 => Ok EqualityKind.SetExact
  | _ => Err (corrupt "unknown equality tag")
  end.

Definition encode_stage (stage : Stage.t) : Mut Encoder.t unit :=
  Encoder.u8 match stage with
  | Stage.Detect => 0
  | Stage.Plan => 1
  | Stage.Snapshot => 2
  | Stage.DurableIntent => 3
  | Stage.Apply => 4
  | Stage.Verify => 5
  | Stage.Restore => 6
  | Stage.Recovery => 7
  | Stage.Transport => 8
  | Stage.Config => 9
  end.

Definition decode_stage (tag : u8) : Result Stage.t :=
  match tag with
  | 0 => Ok Stage.Detect
  | 1 => Ok Stage.Plan
  | 2 => Ok Stage.Snapshot
  | 3 => Ok Stage.DurableIntent
  | 4 => Ok Stage.Apply
  | 5 => Ok Stage.Verify
  | 6 => Ok Stage.Restore
  | 7 => Ok Stage.Recovery
  | 8 => Ok Stage.Transport
  | 9 => Ok Stage.Config
  | _ => Err (corrupt "unknown stage tag")
  end.

Definition encode_error_code (code : ErrorCode.t) : Mut Encoder.t unit :=
  Encoder.u16 match code with
  | ErrorCode.ConfigError => 1
  | ErrorCode.CapabilityError => 2
  | ErrorCode.Unsupported => 3
  | ErrorCode.AuthorizationError => 4
  | ErrorCode.TargetError => 5
  | ErrorCode.PlanningError => 6
  | ErrorCode.SnapshotError => 7
  | ErrorCode.DurabilityError => 8
  | ErrorCode.TransportError => 9
  | ErrorCode.ApplyError => 10
  | ErrorCode.VerificationError => 11
  | ErrorCode.RestoreConflict => 12
  | ErrorCode.RestoreError => 13
  | ErrorCode.JournalCorrupt => 14
  | ErrorCode.InvariantViolation => 15
  | ErrorCode.InvalidInput => 16
  end.

Definition decode_error_code (tag : u16) : Result ErrorCode.t :=
  match tag with
  | 1 => Ok ErrorCode.ConfigError
  | 2 => Ok ErrorCode.CapabilityError
  | 3 => Ok ErrorCode.Unsupported
  | 4 => Ok ErrorCode.AuthorizationError
  | 5 => Ok ErrorCode.TargetError
  | 6 => Ok ErrorCode.PlanningError
  | 7 => Ok ErrorCode.SnapshotError
  | 8 => Ok ErrorCode.DurabilityError
  | 9 => Ok ErrorCode.TransportError
  | 10 => Ok ErrorCode.ApplyError
  | 11 => Ok ErrorCode.VerificationError
  | 12 => Ok ErrorCode.RestoreConflict
  | 13 => Ok ErrorCode.RestoreError
  | 14 => Ok ErrorCode.JournalCorrupt
  | 15 => Ok ErrorCode.InvariantViolation
  | 16 => Ok ErrorCode.InvalidInput
  | _ => Err (corrupt "unknown error-code tag")
  end.

Definition cgroup_kind_tag (kind : CgroupGroupKind.t) : u8 :=
  match kind with
  | CgroupGroupKind.Workload => 0
  | CgroupGroupKind.ConservativeBackground => 1
  end.

Definition decode_cgroup_kind (tag : u8) : Result CgroupGroupKind.t :=
  match tag with
  | 0 => Ok CgroupGroupKind.Workload
  | 1 => Ok CgroupGroupKind.ConservativeBackground
  | _ => Err (corrupt "unknown managed cgroup kind tag")
  end.

Definition ioprio_class_tag (class : IoPriorityClass.t) : u8 :=
  match class with
  | IoPriorityClass.None => 0
  | IoPriorityClass.BestEffort => 1
  | IoPriorityClass.Idle => 2
  end.

Definition decode_ioprio_class (tag : u8) : Result IoPriorityClass.t :=
  match tag with
  | 0 => Ok IoPriorityClass.None
  | 1 => Ok IoPriorityClass.BestEffort
  | 2 => Ok IoPriorityClass.Idle
  | _ => Err (corrupt "unknown I/O priority class tag")
  end.

Definition energy_tag (value : EnergyPreference.t) : u8 :=
  match value with
  | EnergyPreference.Performance => 0
  | EnergyPreference.BalancePerformance => 1
  | EnergyPreference.BalancePower => 2
  | EnergyPreference.Power => 3
  end.

Definition decode_energy (tag : u8) : Result EnergyPreference.t :=
  match tag with
  | 0 => Ok EnergyPreference.Performance
  | 1 => Ok EnergyPreference.BalancePerformance
  | 2 => Ok EnergyPreference.BalancePower
  | 3 => Ok EnergyPreference.Power
  | _ => Err (corrupt "unknown energy preference tag")
  end.

Definition cpu_boost_tag (value : CpuBoostState.t) : u8 :=
  match value with
  | CpuBoostState.Enabled => 0
  | CpuBoostState.Disabled => 1
  end.

Definition decode_cpu_boost (tag : u8) : Result CpuBoostState.t :=
  match tag with
  | 0 => Ok CpuBoostState.Enabled
  | 1 => Ok CpuBoostState.Disabled
  | _ => Err (corrupt "unknown CPU boost state tag")
  end.

Definition gpu_profile_tag (value : GpuProfile.t) : u8 :=
  match value with
  | GpuProfile.Performance => 0
  | GpuProfile.Balanced => 1
  | GpuProfile.PowerSave => 2
  end.

Definition decode_gpu_profile (tag : u8) : Result GpuProfile.t :=
  match tag with
  | 0 => Ok GpuProfile.Performance
  | 1 => Ok GpuProfile.Balanced
  | 2 => Ok GpuProfile.PowerSave
  | _ => Err (corrupt "unknown GPU profile tag")
  end.

Definition sysctl_key_tag (value : ApprovedSysctlKey.t) : u8 :=
  match value with ApprovedSysctlKey.SchedulerUtilClamping => 0 end.

Definition decode_sysctl_key (tag : u8) : Result ApprovedSysctlKey.t :=
  match tag with
  | 0 => Ok ApprovedSysctlKey.SchedulerUtilClamping
  | _ => Err (corrupt "unknown approved sysctl key tag")
  end.

(** ** Newtypes *)

Definition encode_frequency (frequency : option FrequencyKHz.t) : Mut Encoder.t unit :=
  _ ← encode_optional (is_some frequency);
  if_some (λ f, Encoder.u64 (FrequencyKHz.get f)) frequency.

Definition decode_frequency : Mut Decoder.t (option FrequencyKHz.t) :=
  decode_option (parse_with Decoder.u64 FrequencyKHz.new "state frequency is invalid").

Definition decode_target (message : string) : Mut Decoder.t TargetId.t :=
  parse_with (Decoder.string MAX_STRING_BYTES) TargetId.new message.

Definition encode_cgroup (cgroup : CgroupId.t) : Mut Encoder.t unit :=
  _ ← Encoder.u64 cgroup.(CgroupId.mount_id);
  _ ← Encoder.u64 cgroup.(CgroupId.inode);
  Encoder.string (TargetId.as_str cgroup.(CgroupId.handle)) MAX_STRING_BYTES.

Definition decode_cgroup : Mut Decoder.t CgroupId.t :=
  mount_id ← Decoder.u64;
  inode ← Decoder.u64;
  handle ← decode_target "state cgroup handle is invalid";
  mret (CgroupId.new mount_id inode handle).

Definition encode_process (process : ProcessId.t) : Mut Encoder.t unit :=
  _ ← Encoder.u32 process.(ProcessId.pid);
  Encoder.u64 process.(ProcessId.start_time_ticks).

Definition decode_process : Mut Decoder.t ProcessId.t :=
  pid ← Decoder.u32;
  start ← Decoder.u64;
  lift (map_err (λ _, corrupt "state process identity is invalid") (ProcessId.new pid start)).

Definition encode_uclamp (value : UclampValue.t) : Mut Encoder.t unit :=
  match value with
  | UclampValue.Value value => _ ← Encoder.u8 0; Encoder.u16 value
  | UclampValue.Max => Encoder.u8 1
  end.

Definition decode_uclamp : Mut Decoder.t UclampValue.t :=
  tag ← Decoder.u8;
  match tag with
  | 0 => parse_with Decoder.u16 UclampValue.new "state utilization clamp is invalid"
  | 1 => mret UclampValue.Max
  | _ => throw (corrupt "unknown utilization clamp tag")
  end.

Definition encode_ioprio (priority : IoPriority.t) : Mut Encoder.t unit :=
  _ ← Encoder.u8 (ioprio_class_tag priority.(IoPriority.class));
  Encoder.u8 priority.(IoPriority.level).

Definition decode_ioprio : Mut Decoder.t IoPriority.t :=
  class ← decode_tag Decoder.u8 decode_ioprio_class;
  level ← Decoder.u8;
  lift (map_err (λ _, corrupt "state I/O priority is invalid") (IoPriority.new class level)).

Definition encode_cpuset (cpus : CpuSet.t) : Mut Encoder.t unit :=
  _ ← put_count (N.of_nat (length (CpuSet.as_slice cpus))) MAX_DEPENDENCIES;
  mut_for_each Encoder.u32 (CpuSet.as_slice cpus).

Definition decode_cpuset : Mut Decoder.t CpuSet.t :=
  count ← Decoder.count MAX_DEPENDENCIES;
  cpus ← mut_repeat (N.to_nat count) Decoder.u32;
  lift (map_err (λ _, corrupt "state CPU set is invalid") (CpuSet.new cpus)).

Definition encode_quota (quota : CpuQuota.t) : Mut Encoder.t unit :=
  match quota with
  | CpuQuota.Max => Encoder.u8 0
  | CpuQuota.Micros value => _ ← Encoder.u8 1; Encoder.u64 value
  end.

Definition decode_quota : Mut Decoder.t CpuQuota.t :=
  tag ← Decoder.u8;
  match tag with
  | 0 => mret CpuQuota.Max
  | 1 => parse_with Decoder.u64 CpuQuota.micros "state CPU quota is invalid"
  | _ => throw (corrupt "unknown CPU quota tag")
  end.

(** [i64::try_into::<i8>()] *)
Definition i8_try_from (value : i64) : result unit i8 :=
  if bool_decide (-128 <= value <= 127)%Z then Ok value else Err tt.

Definition decode_nice (message : string) : Mut Decoder.t NiceValue.t :=
  value ← parse_with Decoder.i64 i8_try_from message;
  lift (map_err (λ _, corrupt message) (NiceValue.new value)).

Definition encode_name (name : string) : Mut Encoder.t unit :=
  Encoder.string name MAX_STRING_BYTES.

Definition decode_name {A} (new : string → Result A) (message : string) : Mut Decoder.t A :=
  parse_with (Decoder.string MAX_STRING_BYTES) new message.

(** ** The mutation vocabulary *)

Definition encode_mutation_kind (kind : MutationKind.t) : Mut Encoder.t unit :=
  match kind with
  | MutationKind.CpuFrequency policy min_khz max_khz =>
    _ ← Encoder.u8 0; _ ← Encoder.u32 (CpuPolicyId.get policy);
    _ ← encode_frequency min_khz; encode_frequency max_khz
  | MutationKind.CpuGovernor policy governor =>
    _ ← Encoder.u8 1; _ ← Encoder.u32 (CpuPolicyId.get policy);
    encode_name (GovernorId.as_str governor)
  | MutationKind.CpuEnergyPreference policy value =>
    _ ← Encoder.u8 2; _ ← Encoder.u32 (CpuPolicyId.get policy);
    Encoder.u8 (energy_tag value)
  | MutationKind.CpuBoost state =>
    _ ← Encoder.u8 10; Encoder.u8 (cpu_boost_tag state)
  | MutationKind.PlatformProfile profile =>
    _ ← Encoder.u8 11; encode_name (PlatformProfileId.as_str profile)
  | MutationKind.CgroupCpuWeight cgroup weight =>
    _ ← Encoder.u8 3; _ ← encode_cgroup cgroup; Encoder.u16 (CpuWeight.get weight)
  | MutationKind.CgroupCpuMax cgroup quota period =>
    _ ← Encoder.u8 4; _ ← encode_cgroup cgroup; _ ← encode_quota quota;
    Encoder.u64 (CpuPeriod.get period)
  | MutationKind.CgroupCpuset cgroup cpus =>
    _ ← Encoder.u8 5; _ ← encode_cgroup cgroup; encode_cpuset cpus
  | MutationKind.CgroupIoWeight cgroup weight =>
    _ ← Encoder.u8 12; _ ← encode_cgroup cgroup; Encoder.u16 (IoWeight.get weight)
  | MutationKind.CgroupUclampMin cgroup value =>
    _ ← Encoder.u8 13; _ ← encode_cgroup cgroup; encode_uclamp value
  | MutationKind.CgroupUclampMax cgroup value =>
    _ ← Encoder.u8 14; _ ← encode_cgroup cgroup; encode_uclamp value
  | MutationKind.CgroupWorkload parent name =>
    _ ← Encoder.u8 15; _ ← encode_cgroup parent; encode_name (CgroupName.as_str name)
  | MutationKind.CgroupBackground parent name =>
    _ ← Encoder.u8 16; _ ← encode_cgroup parent; encode_name (CgroupName.as_str name)
  | MutationKind.ProcessPlacement process cgroup =>
    _ ← Encoder.u8 17; _ ← encode_process process; encode_cgroup cgroup
  | MutationKind.ProcessNice process nice =>
    _ ← Encoder.u8 18; _ ← encode_process process; Encoder.i64 (NiceValue.get nice)
  | MutationKind.ProcessIoPriority process priority =>
    _ ← Encoder.u8 19; _ ← encode_process process; encode_ioprio priority
  | MutationKind.GpuPerformanceProfile device profile =>
    _ ← Encoder.u8 6; _ ← Encoder.u32 (GpuId.get device);
    Encoder.u8 (gpu_profile_tag profile)
  | MutationKind.GpuPowerLimit device milliwatts =>
    _ ← Encoder.u8 7; _ ← Encoder.u32 (GpuId.get device);
    Encoder.u32 (PowerMilliwatts.get milliwatts)
  | MutationKind.IrqAffinity irq cpus =>
    _ ← Encoder.u8 8; _ ← Encoder.u32 (IrqId.get irq); encode_cpuset cpus
  | MutationKind.RuntimeSysctl key value =>
    _ ← Encoder.u8 9; _ ← Encoder.u8 (sysctl_key_tag key);
    Encoder.i64 (ApprovedSysctlValue.get value)
  end.

Definition decode_mutation_kind : Mut Decoder.t MutationKind.t :=
  tag ← Decoder.u8;
  match tag with
  | 0 =>
    policy ← CpuPolicyId.new <$> Decoder.u32;
    min_khz ← decode_frequency; max_khz ← decode_frequency;
    mret (MutationKind.CpuFrequency policy min_khz max_khz)
  | 1 =>
    policy ← CpuPolicyId.new <$> Decoder.u32;
    governor ← decode_name GovernorId.new "state governor is invalid";
    mret (MutationKind.CpuGovernor policy governor)
  | 2 =>
    policy ← CpuPolicyId.new <$> Decoder.u32;
    value ← decode_tag Decoder.u8 decode_energy;
    mret (MutationKind.CpuEnergyPreference policy value)
  | 3 =>
    cgroup ← decode_cgroup;
    weight ← parse_with Decoder.u16 CpuWeight.new "state CPU weight is invalid";
    mret (MutationKind.CgroupCpuWeight cgroup weight)
  | 4 =>
    cgroup ← decode_cgroup; quota ← decode_quota;
    period ← parse_with Decoder.u64 CpuPeriod.new "state CPU period is invalid";
    mret (MutationKind.CgroupCpuMax cgroup quota period)
  | 5 =>
    cgroup ← decode_cgroup; cpus ← decode_cpuset;
    mret (MutationKind.CgroupCpuset cgroup cpus)
  | 12 =>
    cgroup ← decode_cgroup;
    weight ← parse_with Decoder.u16 IoWeight.new "state I/O weight is invalid";
    mret (MutationKind.CgroupIoWeight cgroup weight)
  | 13 =>
    cgroup ← decode_cgroup; value ← decode_uclamp;
    mret (MutationKind.CgroupUclampMin cgroup value)
  | 14 =>
    cgroup ← decode_cgroup; value ← decode_uclamp;
    mret (MutationKind.CgroupUclampMax cgroup value)
  | 15 =>
    parent ← decode_cgroup;
    name ← decode_name CgroupName.new "state workload cgroup name is invalid";
    mret (MutationKind.CgroupWorkload parent name)
  | 16 =>
    parent ← decode_cgroup;
    name ← decode_name CgroupName.new "state background cgroup name is invalid";
    mret (MutationKind.CgroupBackground parent name)
  | 17 =>
    process ← decode_process; cgroup ← decode_cgroup;
    mret (MutationKind.ProcessPlacement process cgroup)
  | 18 =>
    process ← decode_process; nice ← decode_nice "state nice value is invalid";
    mret (MutationKind.ProcessNice process nice)
  | 19 =>
    process ← decode_process; priority ← decode_ioprio;
    mret (MutationKind.ProcessIoPriority process priority)
  | 6 =>
    device ← GpuId.new <$> Decoder.u32;
    profile ← decode_tag Decoder.u8 decode_gpu_profile;
    mret (MutationKind.GpuPerformanceProfile device profile)
  | 7 =>
    device ← GpuId.new <$> Decoder.u32;
    milliwatts ← parse_with Decoder.u32 PowerMilliwatts.new "state GPU power limit is invalid";
    mret (MutationKind.GpuPowerLimit device milliwatts)
  | 8 =>
    irq ← IrqId.new <$> Decoder.u32; cpus ← decode_cpuset;
    mret (MutationKind.IrqAffinity irq cpus)
  | 9 =>
    key ← decode_tag Decoder.u8 decode_sysctl_key;
    value ← ApprovedSysctlValue.new <$> Decoder.i64;
    mret (MutationKind.RuntimeSysctl key value)
  | 10 =>
    state ← decode_tag Decoder.u8 decode_cpu_boost;
    mret (MutationKind.CpuBoost state)
  | 11 =>
    profile ← decode_name PlatformProfileId.new "state platform profile is invalid";
    mret (MutationKind.PlatformProfile profile)
  | _ => throw (corrupt "unknown mutation kind tag")
  end.

Definition encode_typed_value (value : TypedValue.t) : Mut Encoder.t unit :=
  match value with
  | TypedValue.CpuFrequency min_khz max_khz =>
    _ ← Encoder.u8 0; _ ← encode_frequency min_khz; encode_frequency max_khz
  | TypedValue.Governor governor =>
    _ ← Encoder.u8 1; encode_name (GovernorId.as_str governor)
  | TypedValue.EnergyPreference value =>
    _ ← Encoder.u8 2; Encoder.u8 (energy_tag value)
  | TypedValue.CpuBoost state =>
    _ ← Encoder.u8 10; Encoder.u8 (cpu_boost_tag state)
  | TypedValue.PlatformProfile profile =>
    _ ← Encoder.u8 11; encode_name (PlatformProfileId.as_str profile)
  | TypedValue.CgroupCpuWeight weight =>
    _ ← Encoder.u8 3; Encoder.u16 (CpuWeight.get weight)
  | TypedValue.CgroupCpuMax quota period =>
    _ ← Encoder.u8 4; _ ← encode_quota quota; Encoder.u64 (CpuPeriod.get period)
  | TypedValue.CgroupCpuset cpus =>
    _ ← Encoder.u8 5; encode_cpuset cpus
  | TypedValue.CgroupIoWeight weight =>
    _ ← Encoder.u8 12; Encoder.u16 (IoWeight.get weight)
  | TypedValue.CgroupUclamp value =>
    _ ← Encoder.u8 13; encode_uclamp value
  | TypedValue.CgroupLifecycle kind name present =>
    _ ← Encoder.u8 14; _ ← Encoder.u8 (cgroup_kind_tag kind);
    _ ← encode_name (CgroupName.as_str name); encode_optional present
  | TypedValue.ProcessPlacement cgroup =>
    _ ← Encoder.u8 15; encode_cgroup cgroup
  | TypedValue.Nice value =>
    _ ← Encoder.u8 16; Encoder.i64 (NiceValue.get value)
  | TypedValue.IoPriority value =>
    _ ← Encoder.u8 17; encode_ioprio value
  | TypedValue.GpuPerformanceProfile profile =>
    _ ← Encoder.u8 6; Encoder.u8 (gpu_profile_tag profile)
  | TypedValue.GpuPowerLimit limit =>
    _ ← Encoder.u8 7; Encoder.u32 (PowerMilliwatts.get limit)
  | TypedValue.IrqAffinity cpus =>
    _ ← Encoder.u8 8; encode_cpuset cpus
  | TypedValue.RuntimeSysctl key value =>
    _ ← Encoder.u8 9; _ ← Encoder.u8 (sysctl_key_tag key);
    Encoder.i64 (ApprovedSysctlValue.get value)
  end.

Definition decode_typed_value : Mut Decoder.t TypedValue.t :=
  tag ← Decoder.u8;
  match tag with
  | 0 =>
    min_khz ← decode_frequency; max_khz ← decode_frequency;
    mret (TypedValue.CpuFrequency min_khz max_khz)
  | 1 =>
    governor ← decode_name GovernorId.new "state typed governor is invalid";
    mret (TypedValue.Governor governor)
  | 2 =>
    value ← decode_tag Decoder.u8 decode_energy; mret (TypedValue.EnergyPreference value)
  | 3 =>
    weight ← parse_with Decoder.u16 CpuWeight.new "state typed CPU weight is invalid";
    mret (TypedValue.CgroupCpuWeight weight)
  | 4 =>
    quota ← decode_quota;
    period ← parse_with Decoder.u64 CpuPeriod.new "state typed CPU period is invalid";
    mret (TypedValue.CgroupCpuMax quota period)
  | 5 => cpus ← decode_cpuset; mret (TypedValue.CgroupCpuset cpus)
  | 12 =>
    weight ← parse_with Decoder.u16 IoWeight.new "state typed I/O weight is invalid";
    mret (TypedValue.CgroupIoWeight weight)
  | 13 => value ← decode_uclamp; mret (TypedValue.CgroupUclamp value)
  | 14 =>
    kind ← decode_tag Decoder.u8 decode_cgroup_kind;
    name ← decode_name CgroupName.new "state typed cgroup name is invalid";
    present ← Decoder.u8;
    mret (TypedValue.CgroupLifecycle kind name (negb (present =? 0)))
  | 15 => cgroup ← decode_cgroup; mret (TypedValue.ProcessPlacement cgroup)
  | 16 =>
    nice ← decode_nice "state typed nice value is invalid"; mret (TypedValue.Nice nice)
  | 17 => priority ← decode_ioprio; mret (TypedValue.IoPriority priority)
  | 6 =>
    profile ← decode_tag Decoder.u8 decode_gpu_profile;
    mret (TypedValue.GpuPerformanceProfile profile)
  | 7 =>
    limit ← parse_with Decoder.u32 PowerMilliwatts.new "state typed GPU power limit is invalid";
    mret (TypedValue.GpuPowerLimit limit)
  | 8 => cpus ← decode_cpuset; mret (TypedValue.IrqAffinity cpus)
  | 9 =>
    key ← decode_tag Decoder.u8 decode_sysctl_key;
    value ← ApprovedSysctlValue.new <$> Decoder.i64;
    mret (TypedValue.RuntimeSysctl key value)
  | 10 => state ← decode_tag Decoder.u8 decode_cpu_boost; mret (TypedValue.CpuBoost state)
  | 11 =>
    profile ← decode_name PlatformProfileId.new "state typed platform profile is invalid";
    mret (TypedValue.PlatformProfile profile)
  | _ => throw (corrupt "unknown typed-value tag")
  end.

(** ** Mutations, snapshots, receipts *)

Definition encode_fingerprint (f : StateFingerprint.t) : Mut Encoder.t unit :=
  Encoder.fixed f.(StateFingerprint.as_bytes).

Definition decode_fingerprint : Mut Decoder.t StateFingerprint.t :=
  StateFingerprint.from_bytes <$> Decoder.fixed 32.

Definition encode_mutation_id (id : MutationId.t) : Mut Encoder.t unit :=
  Encoder.u32 id.(MutationId.get).

Definition decode_mutation_id : Mut Decoder.t MutationId.t :=
  MutationId.new <$> Decoder.u32.

Definition encode_timestamp (at_ : Timestamp.t) : Mut Encoder.t unit :=
  Encoder.u128 at_.(Timestamp.as_unix_millis).

Definition decode_timestamp : Mut Decoder.t Timestamp.t :=
  Timestamp.from_unix_millis <$> Decoder.u128.

Definition encode_mutation (m : PlannedMutation.t) : Mut Encoder.t unit :=
  _ ← encode_mutation_id m.(PlannedMutation.mutation_id);
  _ ← encode_name (CapabilityId.as_str m.(PlannedMutation.capability));
  _ ← encode_name (TargetId.as_str m.(PlannedMutation.target));
  _ ← encode_mutation_kind m.(PlannedMutation.kind);
  _ ← encode_typed_value m.(PlannedMutation.desired);
  _ ← encode_fingerprint m.(PlannedMutation.precondition);
  _ ← encode_equality m.(PlannedMutation.equality);
  _ ← put_count (N.of_nat (length m.(PlannedMutation.dependencies))) MAX_DEPENDENCIES;
  mut_for_each encode_mutation_id m.(PlannedMutation.dependencies).

Definition decode_mutation : Mut Decoder.t PlannedMutation.t :=
  mutation_id ← decode_mutation_id;
  capability ← parse_with (Decoder.string MAX_STRING_BYTES) CapabilityId.new
                 "state capability identifier is invalid";
  target ← decode_target "state target identifier is invalid";
  kind ← decode_mutation_kind;
  desired ← decode_typed_value;
  precondition ← decode_fingerprint;
  equality ← decode_tag Decoder.u8 decode_equality;
  count ← Decoder.count MAX_DEPENDENCIES;
  dependencies ← mut_repeat (N.to_nat count) decode_mutation_id;
  lift (map_err (λ _, corrupt "state mutation is not a valid typed mutation")
    (PlannedMutation.new mutation_id capability target kind desired precondition
       equality dependencies)).

Definition encode_snapshot (s : Snapshot.t) : Mut Encoder.t unit :=
  _ ← encode_mutation_id s.(Snapshot.mutation_id);
  _ ← encode_name (TargetId.as_str s.(Snapshot.target));
  _ ← Encoder.bytes (BoundedBytes.as_slice s.(Snapshot.original_raw));
  _ ← encode_typed_value s.(Snapshot.original_typed);
  _ ← encode_fingerprint s.(Snapshot.original_fingerprint);
  _ ← encode_equality s.(Snapshot.equality);
  _ ← Encoder.fixed (TargetIdentity.as_bytes s.(Snapshot.target_identity));
  encode_timestamp s.(Snapshot.captured_at).

Definition decode_snapshot : Mut Decoder.t Snapshot.t :=
  mutation_id ← decode_mutation_id;
  target ← decode_target "state snapshot target is invalid";
  original_raw ← parse_with (Decoder.bytes MAX_PREIMAGE_BYTES) BoundedBytes.new
                   "state snapshot raw preimage is oversized";
  original_typed ← decode_typed_value;
  original_fingerprint ← decode_fingerprint;
  equality ← decode_tag Decoder.u8 decode_equality;
  target_identity ← TargetIdentity.from_bytes <$> Decoder.fixed 16;
  captured_at ← decode_timestamp;
  mret (Snapshot.mk mutation_id target original_raw original_typed
          original_fingerprint equality target_identity captured_at).

Definition encode_apply_receipt (r : ApplyReceipt.t) : Mut Encoder.t unit :=
  _ ← encode_mutation_id r.(ApplyReceipt.mutation_id);
  _ ← encode_fingerprint r.(ApplyReceipt.observed_precondition);
  _ ← encode_fingerprint r.(ApplyReceipt.observed_postcondition);
  encode_fingerprint r.(ApplyReceipt.ownership_fingerprint).

Definition decode_apply_receipt : Mut Decoder.t ApplyReceipt.t :=
  mutation_id ← decode_mutation_id;
  pre ← decode_fingerprint; post ← decode_fingerprint; own ← decode_fingerprint;
  mret (ApplyReceipt.mk mutation_id pre post own).

Definition encode_verification (v : VerificationResult.t) : Mut Encoder.t unit :=
  _ ← encode_mutation_id v.(VerificationResult.mutation_id);
  _ ← encode_fingerprint v.(VerificationResult.expected);
  _ ← encode_optional (is_some v.(VerificationResult.observed));
  _ ← if_some encode_fingerprint v.(VerificationResult.observed);
  encode_optional v.(VerificationResult.matched).

Definition decode_verification : Mut Decoder.t VerificationResult.t :=
  mutation_id ← decode_mutation_id;
  expected ← decode_fingerprint;
  observed ← decode_option decode_fingerprint;
  matched ← Decoder.u8;
  mret (VerificationResult.mk mutation_id expected observed (negb (matched =? 0))).

Definition encode_restore_receipt (r : RestoreReceipt.t) : Mut Encoder.t unit :=
  _ ← encode_mutation_id r.(RestoreReceipt.mutation_id);
  _ ← encode_fingerprint r.(RestoreReceipt.restored_fingerprint);
  encode_optional r.(RestoreReceipt.verified).

Definition decode_restore_receipt : Mut Decoder.t RestoreReceipt.t :=
  mutation_id ← decode_mutation_id;
  restored ← decode_fingerprint;
  verified ← Decoder.u8;
  mret (RestoreReceipt.mk mutation_id restored (negb (verified =? 0))).

Definition encode_failure (f : FailureRecord.t) : Mut Encoder.t unit :=
  _ ← encode_error_code f.(FailureRecord.code);
  _ ← encode_stage f.(FailureRecord.stage);
  _ ← encode_optional (is_some f.(FailureRecord.mutation_id));
  _ ← if_some encode_mutation_id f.(FailureRecord.mutation_id);
  Encoder.string f.(FailureRecord.message) MAX_REASON_BYTES.

Definition decode_failure : Mut Decoder.t FailureRecord.t :=
  code ← decode_tag Decoder.u16 decode_error_code;
  stage ← decode_tag Decoder.u8 decode_stage;
  mutation_id ← decode_option decode_mutation_id;
  message ← Decoder.string MAX_REASON_BYTES;
  mret (FailureRecord.mk code stage mutation_id message).

Definition encode_transition (tr : TransitionRecord.t) : Mut Encoder.t unit :=
  _ ← Encoder.u64 tr.(TransitionRecord.sequence);
  _ ← Encoder.fixed (SessionId.as_bytes tr.(TransitionRecord.session_id));
  _ ← encode_session_state tr.(TransitionRecord.from);
  _ ← encode_session_state tr.(TransitionRecord.to);
  _ ← encode_timestamp tr.(TransitionRecord.at_);
  Encoder.string tr.(TransitionRecord.reason) MAX_REASON_BYTES.

Definition decode_transition : Mut Decoder.t TransitionRecord.t :=
  sequence ← Decoder.u64;
  session_id ← SessionId.from_bytes <$> Decoder.fixed 16;
  from ← decode_tag Decoder.u8 decode_session_state;
  to ← decode_tag Decoder.u8 decode_session_state;
  at_ ← decode_timestamp;
  reason ← Decoder.string MAX_REASON_BYTES;
  mret (TransitionRecord.mk sequence session_id from to at_ reason).

(** ** Operations and the session *)

Definition encode_operation (o : OperationRecord.t) : Mut Encoder.t unit :=
  _ ← encode_mutation o.(OperationRecord.mutation);
  _ ← encode_operation_state o.(OperationRecord.state);
  _ ← encode_optional (is_some o.(OperationRecord.snapshot));
  _ ← if_some encode_snapshot o.(OperationRecord.snapshot);
  _ ← encode_optional (is_some o.(OperationRecord.apply_receipt));
  _ ← if_some encode_apply_receipt o.(OperationRecord.apply_receipt);
  _ ← encode_optional (is_some o.(OperationRecord.verification));
  _ ← if_some encode_verification o.(OperationRecord.verification);
  _ ← encode_optional (is_some o.(OperationRecord.restore_receipt));
  _ ← if_some encode_restore_receipt o.(OperationRecord.restore_receipt);
  _ ← encode_optional (is_some o.(OperationRecord.failure));
  if_some encode_failure o.(OperationRecord.failure).

Definition decode_operation : Mut Decoder.t OperationRecord.t :=
  mutation ← decode_mutation;
  state ← decode_tag Decoder.u8 decode_operation_state;
  snapshot ← decode_option decode_snapshot;
  apply_receipt ← decode_option decode_apply_receipt;
  verification ← decode_option decode_verification;
  restore_receipt ← decode_option decode_restore_receipt;
  failure ← decode_option decode_failure;
  mret (OperationRecord.mk mutation state snapshot apply_receipt verification
          restore_receipt failure).

Definition encode_session (s : Session.t) : Mut Encoder.t unit :=
  let h := s.(Session.header) in
  _ ← Encoder.fixed (SessionId.as_bytes h.(SessionHeader.session_id));
  _ ← Encoder.fixed (PlanId.as_bytes h.(SessionHeader.plan_id));
  _ ← Encoder.fixed h.(SessionHeader.plan_digest);
  _ ← encode_timestamp h.(SessionHeader.created_at);
  _ ← encode_session_state s.(Session.state);
  _ ← put_count (N.of_nat (length h.(SessionHeader.targets))) MAX_TARGETS;
  mut_for_each (λ target, encode_name (TargetId.as_str target)) h.(SessionHeader.targets).

Definition decode_session : Mut Decoder.t Session.t :=
  session_id ← SessionId.from_bytes <$> Decoder.fixed 16;
  plan_id ← PlanId.from_bytes <$> Decoder.fixed 16;
  plan_digest ← Decoder.fixed 32;
  created_at ← decode_timestamp;
  state ← decode_tag Decoder.u8 decode_session_state;
  count ← Decoder.count MAX_TARGETS;
  targets ← mut_repeat (N.to_nat count) (decode_target "state target identifier is invalid");
  mret (Session.mk (SessionHeader.mk session_id plan_id plan_digest created_at targets) state).

(** ** The framed record *)

(** The payload part of [SessionRecord::encode]. *)
Definition encode_payload (r : SessionRecord.t) : Mut Encoder.t unit :=
  _ ← encode_session r.(SessionRecord.session);
  _ ← put_count (N.of_nat (length r.(SessionRecord.operations))) MAX_OPERATIONS;
  _ ← mut_for_each encode_operation r.(SessionRecord.operations);
  _ ← put_count (N.of_nat (length r.(SessionRecord.transitions))) MAX_TRANSITIONS;
  _ ← mut_for_each encode_transition r.(SessionRecord.transitions);
  _ ← put_count (N.of_nat (length r.(SessionRecord.failures))) MAX_FAILURES;
  mut_for_each encode_failure r.(SessionRecord.failures).

(** The payload part of [SessionRecord::decode]. *)
Definition decode_payload : Mut Decoder.t SessionRecord.t :=
  session ← decode_session;
  operation_count ← Decoder.count MAX_OPERATIONS;
  operations ← mut_repeat (N.to_nat operation_count) decode_operation;
  transition_count ← Decoder.count MAX_TRANSITIONS;
  transitions ← mut_repeat (N.to_nat transition_count) decode_transition;
  failure_count ← Decoder.count MAX_FAILURES;
  failures ← mut_repeat (N.to_nat failure_count) decode_failure;
  mret (SessionRecord.mk session operations transitions failures).

Definition encode (r : SessionRecord.t) : Result (list byte) :=
  _ ← validate_for_serialization r;
  let '(res, encoder) := encode_payload r Encoder.default in
  _ ← res;
  let payload := Encoder.finish encoder in
  let total := 8 + 2 + 4 + N.of_nat (length payload) + 32 in
  if MAX_SESSION_RECORD_BYTES <? total
  then Err (SysboostError.new ErrorCode.DurabilityError
              "session record exceeds the durable state-file bound"
            |> SysboostError.with_stage Stage.DurableIntent
            |> SysboostError.with_session (SessionRecord.session_id r))
  else Ok (MAGIC ++ to_be 2 STATE_FORMAT_VERSION
           ++ to_be 4 (N.of_nat (length payload)) ++ payload ++ checksum payload).

(** [bytes[from .. from + count]] *)
Definition slice (from count : nat) (bytes : list byte) : list byte :=
  take count (drop from bytes).

Definition decode (bytes : list byte) : Result SessionRecord.t :=
  let size := N.of_nat (length bytes) in
  if (MAX_SESSION_RECORD_BYTES <? size) || (size <? 8 + 2 + 4 + 32)
  then Err (corrupt "state record length is invalid")
  else if bool_decide (take 8 bytes ≠ MAGIC)
  then Err (corrupt "state record magic is invalid")
  else if negb (from_be (slice 8 2 bytes) =? STATE_FORMAT_VERSION)
  then Err (corrupt "state record version is unsupported")
  else
    payload_end ← ok_or (checked_add64 14 (from_be (slice 10 4 bytes)))
                    (corrupt "state payload length overflows");
    if negb (payload_end + 32 =? size)
    then Err (corrupt "state payload length does not match the file")
    else
      let payload := slice 14 (N.to_nat payload_end - 14) bytes in
      if bool_decide (checksum payload ≠ drop (N.to_nat payload_end) bytes)
      then Err (corrupt "state record checksum does not match")
      else
        let '(res, decoder) := decode_payload (Decoder.new payload) in
        record ← res;
        _ ← Decoder.finish decoder;
        _ ← validate_for_serialization record;
        Ok record.
