(* ===== verification/CodecLaws.v ===== *)
(** * Round trip of the state-file codec, type by type

    [Codes encode_x decode_x x] for every type of the record, collected in
    the hint database [codec] that the tactic [codec] walks. *)
From Stdlib Require Import Strings.Byte.
From S2P Require Import Prelude Lists Text Ids Mut Capability Mutation MutationLaws Session.
From S2P Require Import Record Wire Checksum Codec.
Local Open Scope N_scope.

(** ** The bounds the field types impose on a record *)

Definition operation_wf (o : OperationRecord.t) : Prop :=
  PlannedMutation.wf o.(OperationRecord.mutation)
  ∧ option_wf Snapshot.wf o.(OperationRecord.snapshot)
  ∧ option_wf ApplyReceipt.wf o.(OperationRecord.apply_receipt)
  ∧ option_wf VerificationResult.wf o.(OperationRecord.verification)
  ∧ option_wf RestoreReceipt.wf o.(OperationRecord.restore_receipt)
  ∧ option_wf FailureRecord.wf o.(OperationRecord.failure).

Definition session_wf (s : Session.t) : Prop :=
  Timestamp.wf s.(Session.header).(SessionHeader.created_at)
  ∧ Forall TargetId.wf s.(Session.header).(SessionHeader.targets).

Definition transition_wf (tr : TransitionRecord.t) : Prop :=
  fits 64 tr.(TransitionRecord.sequence) ∧ Timestamp.wf tr.(TransitionRecord.at_)
  ∧ utf8 tr.(TransitionRecord.reason).

Definition record_wf (r : SessionRecord.t) : Prop :=
  session_wf r.(SessionRecord.session)
  ∧ Forall operation_wf r.(SessionRecord.operations)
  ∧ Forall transition_wf r.(SessionRecord.transitions)
  ∧ Forall FailureRecord.wf r.(SessionRecord.failures).

(** ** Automation *)

Create HintDb codec.

(** The goal of one optional field, from the invariant of that field. *)
Lemma option_wf_Some {A} (P : A → Prop) o a : option_wf P o → o = Some a → P a.
Proof. by intros H ->. Qed.

Ltac codec_field :=
  intros ? ?;
  match goal with
  | H : option_wf _ ?o, E : ?o = Some _ |- _ =>
      apply (option_wf_Some _ _ _ H) in E; solve [eauto with codec]
  | _ => solve [eauto with codec]
  | _ => idtac
  end.

Ltac codec_step :=
  first
  [ apply Codes_ret
  | eapply Codes_bind; [solve [eauto with codec]|cbv beta iota]
  | eapply Codes_last; [solve [eauto with codec]|by intros]
  | eapply Codes_option_then; [codec_field|]
  | eapply Codes_option_last; [codec_field|by intros]
  | eapply Codes_counted; [codec_field|]
  | eapply Codes_counted_last; [codec_field|by intros]
  | solve [eauto with codec] ].
Ltac codec := repeat codec_step.

#[export] Hint Resolve Codes_u8 Codes_u16 Codes_u32 Codes_u64 Codes_u128 Codes_i64
  Codes_fixed Codes_string Codes_bytes : codec.

Lemma Codes_parse {E A B} m (d : Mut Decoder.t A) (new : A → result E B) msg a b :
  new a = Ok b → Codes m d a → Codes m (parse_with d new msg) b.
Proof.
  intros Hn H. eapply Codes_last; [done|]. intros s. by rewrite Hn.
Qed.

Lemma Codes_tag {A} m d (f : N → Result A) n a :
  f n = Ok a → Codes m d n → Codes m (decode_tag d f) a.
Proof. intros Hf H. eapply Codes_last; [done|]. intros s. by rewrite Hf. Qed.

(** ** Tags *)

Ltac codec_tag :=
  intros; eapply Codes_tag; [|first [apply Codes_u8|apply Codes_u16]];
  match goal with x : _ |- _ => destruct x; done end.

Lemma Codes_session_state x :
  Codes (encode_session_state x) (decode_tag Decoder.u8 decode_session_state) x.
Proof. codec_tag. Qed.
Lemma Codes_operation_state x :
  Codes (encode_operation_state x) (decode_tag Decoder.u8 decode_operation_state) x.
Proof. codec_tag. Qed.
Lemma Codes_equality x : Codes (encode_equality x) (decode_tag Decoder.u8 decode_equality) x.
Proof. codec_tag. Qed.
Lemma Codes_stage x : Codes (encode_stage x) (decode_tag Decoder.u8 decode_stage) x.
Proof. codec_tag. Qed.
Lemma Codes_error_code x :
  Codes (encode_error_code x) (decode_tag Decoder.u16 decode_error_code) x.
Proof. codec_tag. Qed.
Lemma Codes_cgroup_kind x :
  Codes (Encoder.u8 (cgroup_kind_tag x)) (decode_tag Decoder.u8 decode_cgroup_kind) x.
Proof. codec_tag. Qed.
Lemma Codes_ioprio_class x :
  Codes (Encoder.u8 (ioprio_class_tag x)) (decode_tag Decoder.u8 decode_ioprio_class) x.
Proof. codec_tag. Qed.
Lemma Codes_energy x :
  Codes (Encoder.u8 (energy_tag x)) (decode_tag Decoder.u8 decode_energy) x.
Proof. codec_tag. Qed.
Lemma Codes_cpu_boost x :
  Codes (Encoder.u8 (cpu_boost_tag x)) (decode_tag Decoder.u8 decode_cpu_boost) x.
Proof. codec_tag. Qed.
Lemma Codes_gpu_profile x :
  Codes (Encoder.u8 (gpu_profile_tag x)) (decode_tag Decoder.u8 decode_gpu_profile) x.
Proof. codec_tag. Qed.
Lemma Codes_sysctl_key x :
  Codes (Encoder.u8 (sysctl_key_tag x)) (decode_tag Decoder.u8 decode_sysctl_key) x.
Proof. codec_tag. Qed.
#[export] Hint Resolve Codes_session_state Codes_operation_state Codes_equality
  Codes_stage Codes_error_code Codes_cgroup_kind Codes_ioprio_class Codes_energy
  Codes_cpu_boost Codes_gpu_profile Codes_sysctl_key : codec.

(** ** Newtypes *)

Lemma Codes_policy x :
  CpuPolicyId.wf x → Codes (Encoder.u32 (CpuPolicyId.get x)) (CpuPolicyId.new <$> Decoder.u32) x.
Proof. intros H. eapply Codes_fmap; [by apply Codes_u32|by destruct x]. Qed.
Lemma Codes_gpu x :
  GpuId.wf x → Codes (Encoder.u32 (GpuId.get x)) (GpuId.new <$> Decoder.u32) x.
Proof. intros H. eapply Codes_fmap; [by apply Codes_u32|by destruct x]. Qed.
Lemma Codes_irq x :
  IrqId.wf x → Codes (Encoder.u32 (IrqId.get x)) (IrqId.new <$> Decoder.u32) x.
Proof. intros H. eapply Codes_fmap; [by apply Codes_u32|by destruct x]. Qed.
Lemma Codes_mutation_id x : MutationId.wf x → Codes (encode_mutation_id x) decode_mutation_id x.
Proof. intros H. eapply Codes_fmap; [by apply Codes_u32|by destruct x]. Qed.
Lemma Codes_timestamp x : Timestamp.wf x → Codes (encode_timestamp x) decode_timestamp x.
Proof. intros H. eapply Codes_fmap; [by apply Codes_u128|by destruct x]. Qed.
Lemma Codes_fingerprint x : Codes (encode_fingerprint x) decode_fingerprint x.
Proof. eapply Codes_fmap; [by apply Codes_fixed|by destruct x]. Qed.
Lemma Codes_session_id x :
  Codes (Encoder.fixed (SessionId.as_bytes x)) (SessionId.from_bytes <$> Decoder.fixed 16) x.
Proof. eapply Codes_fmap; [by apply Codes_fixed|by destruct x]. Qed.
Lemma Codes_plan_id x :
  Codes (Encoder.fixed (PlanId.as_bytes x)) (PlanId.from_bytes <$> Decoder.fixed 16) x.
Proof. eapply Codes_fmap; [by apply Codes_fixed|by destruct x]. Qed.
Lemma Codes_identity x :
  Codes (Encoder.fixed (TargetIdentity.as_bytes x)) (TargetIdentity.from_bytes <$> Decoder.fixed 16) x.
Proof. eapply Codes_fmap; [by apply Codes_fixed|by destruct x]. Qed.
Lemma Codes_sysctl_value x : ApprovedSysctlValue.wf x →
  Codes (Encoder.i64 (ApprovedSysctlValue.get x)) (ApprovedSysctlValue.new <$> Decoder.i64) x.
Proof. intros H. eapply Codes_fmap; [by apply Codes_i64|by destruct x]. Qed.

Lemma Codes_cpu_weight x msg : CpuWeight.wf x →
  Codes (Encoder.u16 (CpuWeight.get x)) (parse_with Decoder.u16 CpuWeight.new msg) x.
Proof.
  intros H. eapply Codes_parse; [by apply CpuWeight_new_wf|]. apply Codes_u16.
  unfold CpuWeight.wf, CpuWeight.MAX in H. unfold fits. lia.
Qed.
Lemma Codes_io_weight x msg : IoWeight.wf x →
  Codes (Encoder.u16 (IoWeight.get x)) (parse_with Decoder.u16 IoWeight.new msg) x.
Proof.
  intros H. eapply Codes_parse; [by apply IoWeight_new_wf|]. apply Codes_u16.
  unfold IoWeight.wf, IoWeight.MAX in H. unfold fits. lia.
Qed.
Lemma Codes_period x msg : CpuPeriod.wf x →
  Codes (Encoder.u64 (CpuPeriod.get x)) (parse_with Decoder.u64 CpuPeriod.new msg) x.
Proof.
  intros H. eapply Codes_parse; [by apply CpuPeriod_new_wf|]. apply Codes_u64.
  unfold CpuPeriod.wf, CpuPeriod.MAX in H. unfold fits. lia.
Qed.
Lemma Codes_power x msg : PowerMilliwatts.wf x →
  Codes (Encoder.u32 (PowerMilliwatts.get x)) (parse_with Decoder.u32 PowerMilliwatts.new msg) x.
Proof.
  intros H. eapply Codes_parse; [by apply PowerMilliwatts_new_wf|]. by apply Codes_u32, H.
Qed.

Lemma Codes_frequency x :
  option_wf FrequencyKHz.wf x → Codes (encode_frequency x) decode_frequency x.
Proof.
  intros H. apply Codes_option. intros f ->.
  eapply Codes_parse; [by apply FrequencyKHz_new_wf|]. by apply Codes_u64, H.
Qed.

Lemma Codes_target x msg :
  TargetId.wf x → Codes (encode_name (TargetId.as_str x)) (decode_target msg) x.
Proof.
  intros H. eapply Codes_parse; [by apply TargetId_new_Ok; destruct x|].
  by apply Codes_string, valid_text_utf8.
Qed.
Lemma Codes_capability x msg : CapabilityId.wf x →
  Codes (encode_name (CapabilityId.as_str x))
        (parse_with (Decoder.string MAX_STRING_BYTES) CapabilityId.new msg) x.
Proof.
  intros H. eapply Codes_parse; [by apply CapabilityId_new_Ok; destruct x|].
  by apply Codes_string, valid_text_utf8.
Qed.

Lemma Codes_governor x msg : GovernorId.wf x →
  Codes (encode_name (GovernorId.as_str x)) (decode_name GovernorId.new msg) x.
Proof.
  intros H. eapply Codes_parse; [exact H|].
  apply GovernorId_new_Ok in H as [_ H]. by apply Codes_string, H.
Qed.
Lemma Codes_profile x msg : PlatformProfileId.wf x →
  Codes (encode_name (PlatformProfileId.as_str x)) (decode_name PlatformProfileId.new msg) x.
Proof.
  intros H. eapply Codes_parse; [exact H|].
  apply PlatformProfileId_new_Ok in H as [_ H]. by apply Codes_string, H.
Qed.
Lemma Codes_cgroup_name x msg : CgroupName.wf x →
  Codes (encode_name (CgroupName.as_str x)) (decode_name CgroupName.new msg) x.
Proof.
  intros H. eapply Codes_parse; [exact H|].
  apply CgroupName_new_Ok in H as [_ H]. by apply Codes_string, H.
Qed.
#[export] Hint Resolve Codes_policy Codes_gpu Codes_irq Codes_mutation_id Codes_timestamp
  Codes_fingerprint Codes_session_id Codes_plan_id Codes_identity Codes_sysctl_value
  Codes_cpu_weight Codes_io_weight Codes_period Codes_power Codes_frequency Codes_target
  Codes_capability Codes_governor Codes_profile Codes_cgroup_name : codec.

Lemma Codes_cgroup x : CgroupId.wf x → Codes (encode_cgroup x) decode_cgroup x.
Proof.
  intros (H1 & H2 & H3). unfold encode_cgroup, decode_cgroup.
  change (Encoder.string ?s MAX_STRING_BYTES) with (encode_name s).
  destruct x as [m i h]. codec.
Qed.

Lemma Codes_process x : ProcessId.wf x → Codes (encode_process x) decode_process x.
Proof.
  intros H. pose proof (ProcessId_new_wf x H) as Hn. destruct H as (H1 & H2 & _).
  unfold encode_process, decode_process.
  eapply Codes_bind; [by apply Codes_u32|]. eapply Codes_last; [by apply Codes_u64|].
  intros s. by rewrite Hn.
Qed.

Lemma Codes_uclamp x : UclampValue.wf x → Codes (encode_uclamp x) decode_uclamp x.
Proof.
  destruct x as [v|]; cbn; intros H; unfold decode_uclamp.
  - eapply Codes_bind; [by apply Codes_u8|]. cbv beta iota.
    eapply Codes_parse; [by apply UclampValue_new_wf|]. apply Codes_u16. unfold fits. lia.
  - eapply Codes_last; [by apply Codes_u8|done].
Qed.

Lemma Codes_ioprio x : IoPriority.wf x → Codes (encode_ioprio x) decode_ioprio x.
Proof.
  intros H. pose proof (IoPriority_new_wf x H) as Hn. unfold IoPriority.wf in H.
  unfold encode_ioprio, decode_ioprio. eapply Codes_bind; [apply Codes_ioprio_class|].
  eapply Codes_last; [apply Codes_u8; unfold fits; lia|]. intros s. by rewrite Hn.
Qed.

Lemma Codes_cpuset x : CpuSet.wf x → Codes (encode_cpuset x) decode_cpuset x.
Proof.
  intros H. pose proof (CpuSet_new_wf x H) as Hn. destruct H as (_ & _ & H).
  apply Codes_counted_last.
  - intros a Ha. rewrite Forall_forall in H. by apply Codes_u32, H.
  - intros s. by rewrite Hn.
Qed.

Lemma Codes_quota x : CpuQuota.wf x → Codes (encode_quota x) decode_quota x.
Proof.
  destruct x as [|v]; cbn; intros H; unfold decode_quota.
  - eapply Codes_last; [by apply Codes_u8|done].
  - eapply Codes_bind; [by apply Codes_u8|]. cbv beta iota.
    eapply Codes_parse; [by apply CpuQuota_micros_wf, H|]. by apply Codes_u64, H.
Qed.

Lemma Codes_nice x msg : NiceValue.wf x →
  Codes (Encoder.i64 (NiceValue.get x)) (decode_nice msg) x.
Proof.
  intros H. pose proof (NiceValue_new_wf x H) as Hn.
  unfold NiceValue.wf, NiceValue.MIN, NiceValue.MAX in H. unfold decode_nice.
  eapply (Codes_last _ _ _ (NiceValue.get x)).
  - eapply Codes_parse; [|apply Codes_i64; unfold fits_signed; lia].
    unfold i8_try_from. by rewrite bool_decide_true by lia.
  - intros s. by rewrite Hn.
Qed.

Lemma Codes_flag b : Codes (encode_optional b) (flag ← Decoder.u8; mret (negb (flag =? 0))) b.
Proof. eapply Codes_last; [apply Codes_bool|]. by destruct b. Qed.

#[export] Hint Resolve Codes_cgroup Codes_process Codes_uclamp Codes_ioprio Codes_cpuset
  Codes_quota Codes_nice Codes_bool : codec.

(** ** The mutation vocabulary *)

Ltac codec_variant :=
  match goal with
  | |- Codes (match ?k with _ => _ end) _ _ => destruct k; cbv beta iota
  end;
  cbn [kind_wf value_wf] in *; destruct_and?;
  (eapply Codes_bind; [by apply Codes_u8|]); cbv beta iota; codec.

Lemma Codes_mutation_kind k :
  kind_wf k → Codes (encode_mutation_kind k) decode_mutation_kind k.
Proof.
  intros H. unfold encode_mutation_kind, decode_mutation_kind. codec_variant.
Qed.

Lemma Codes_typed_value v :
  value_wf v → Codes (encode_typed_value v) decode_typed_value v.
Proof.
  intros H. unfold encode_typed_value, decode_typed_value. codec_variant.
  eapply Codes_last; [apply Codes_bool|]. intros s. by destruct present.
Qed.
#[export] Hint Resolve Codes_mutation_kind Codes_typed_value : codec.

(** ** Mutations, snapshots, receipts *)

Lemma Codes_mutation m :
  PlannedMutation.wf m → Codes (encode_mutation m) decode_mutation m.
Proof.
  intros H. pose proof (PlannedMutation_new_wf m (proj2 H)) as Hn.
  destruct H as ((H1 & H2 & H3 & H4 & H5 & H6) & _).
  unfold encode_mutation, decode_mutation. codec.
  eapply Codes_counted_last.
  - intros a Ha. rewrite Forall_forall in H6. by apply Codes_mutation_id, H6.
  - intros s. by rewrite Hn.
Qed.

Lemma Codes_raw x msg : BoundedBytes.wf x →
  Codes (Encoder.bytes (BoundedBytes.as_slice x))
        (parse_with (Decoder.bytes MAX_PREIMAGE_BYTES) BoundedBytes.new msg) x.
Proof.
  intros H. eapply Codes_parse; [by apply BoundedBytes_new_wf|]. by apply Codes_bytes.
Qed.
#[export] Hint Resolve Codes_mutation Codes_raw : codec.

Lemma Codes_snapshot s : Snapshot.wf s → Codes (encode_snapshot s) decode_snapshot s.
Proof.
  intros (H1 & H2 & H3 & H4 & H5). unfold encode_snapshot, decode_snapshot.
  destruct s; cbn in *. codec.
Qed.

Lemma Codes_apply_receipt r :
  ApplyReceipt.wf r → Codes (encode_apply_receipt r) decode_apply_receipt r.
Proof. intros H. unfold encode_apply_receipt, decode_apply_receipt. destruct r; cbn in *. codec. Qed.

Lemma Codes_verification v :
  VerificationResult.wf v → Codes (encode_verification v) decode_verification v.
Proof.
  intros H. unfold encode_verification, decode_verification. destruct v as [? ? ? b]; cbn in *.
  codec. eapply Codes_last; [apply Codes_bool|]. intros s. by destruct b.
Qed.

Lemma Codes_restore_receipt r :
  RestoreReceipt.wf r → Codes (encode_restore_receipt r) decode_restore_receipt r.
Proof.
  intros H. unfold encode_restore_receipt, decode_restore_receipt. destruct r as [? ? b]; cbn in *.
  codec. eapply Codes_last; [apply Codes_bool|]. intros s. by destruct b.
Qed.

Lemma Codes_failure f : FailureRecord.wf f → Codes (encode_failure f) decode_failure f.
Proof.
  intros (H1 & H2). unfold encode_failure, decode_failure. destruct f; cbn in *.
  codec.
Qed.

Lemma Codes_transition tr : transition_wf tr → Codes (encode_transition tr) decode_transition tr.
Proof.
  intros (H1 & H2 & H3). unfold encode_transition, decode_transition. destruct tr; cbn in *. codec.
Qed.
#[export] Hint Resolve Codes_snapshot Codes_apply_receipt Codes_verification
  Codes_restore_receipt Codes_failure Codes_transition : codec.

Lemma Codes_operation o : operation_wf o → Codes (encode_operation o) decode_operation o.
Proof.
  intros (H1 & H2 & H3 & H4 & H5 & H6). unfold encode_operation, decode_operation.
  destruct o; cbn in *. codec.
Qed.
#[export] Hint Resolve Codes_operation : codec.

Lemma Codes_session s : session_wf s → Codes (encode_session s) decode_session s.
Proof.
  intros (H1 & H2). unfold encode_session, decode_session. destruct s as [[] ?]; cbn in *.
  codec. rewrite Forall_forall in H2. eauto with codec.
Qed.
#[export] Hint Resolve Codes_session : codec.

Lemma Codes_record r : record_wf r → Codes (encode_payload r) decode_payload r.
Proof.
  intros (H1 & H2 & H3 & H4). unfold encode_payload, decode_payload.
  rewrite Forall_forall in H2. rewrite Forall_forall in H3. rewrite Forall_forall in H4.
  destruct r; cbn in *. codec.
Qed.

(** * What the state-file decoder can accept

    Every value the decoder returns satisfies the invariants of its type,
    whatever the bytes were. *)
Local Open Scope N_scope.

Create HintDb produces.

Ltac produces_step :=
  first
  [ apply Produces_throw
  | eapply Produces_bind; [solve [eauto with produces]|intros ? ?; cbv beta in *]
  | apply Produces_ret ].
Ltac produces := repeat produces_step.

Lemma Produces_parse {E A B} (d : Mut Decoder.t A) (new : A → result E B) msg P Q :
  Produces d P → (∀ a b, P a → new a = Ok b → Q b) → Produces (parse_with d new msg) Q.
Proof.
  intros H HQ. eapply Produces_bind; [done|]. intros a Ha. apply Produces_lift.
  intros b Hb. destruct (new a) as [b'|] eqn:En; [|done]. injection Hb as ->. by eapply HQ.
Qed.

Lemma Produces_tag {A} (d : Mut Decoder.t N) (f : N → Result A) :
  Produces (decode_tag d f) (λ _, True).
Proof. apply Produces_True. Qed.

Lemma Produces_checked {E A} (r : result E A) msg (Q : A → Prop) :
  (∀ a, r = Ok a → Q a) → Produces (lift (map_err (λ _, corrupt msg) r)) Q.
Proof.
  intros H. apply Produces_lift. intros a. destruct r; cbn; [|done]. intros [= ->]. by apply H.
Qed.

#[export] Hint Resolve Produces_tag Produces_u8 Produces_u16 Produces_u32 Produces_u64
  Produces_u128 Produces_i64 Produces_string Produces_bytes Produces_option
  Produces_repeat : produces.

(** Fixed arrays and counts carry no bound of their own. *)
Lemma Produces_fixed n : Produces (Decoder.fixed n) (λ _, True).
Proof. apply Produces_True. Qed.
Lemma Produces_count n : Produces (Decoder.count n) (λ _, True).
Proof. apply Produces_True. Qed.
#[export] Hint Resolve Produces_fixed Produces_count : produces.

(** ** Newtypes *)

Ltac produces_newtype := eapply Produces_fmap; [eauto with produces|by intros].

Lemma Produces_policy : Produces (CpuPolicyId.new <$> Decoder.u32) CpuPolicyId.wf.
Proof. produces_newtype. Qed.
Lemma Produces_gpu : Produces (GpuId.new <$> Decoder.u32) GpuId.wf.
Proof. produces_newtype. Qed.
Lemma Produces_irq : Produces (IrqId.new <$> Decoder.u32) IrqId.wf.
Proof. produces_newtype. Qed.
Lemma Produces_mutation_id : Produces decode_mutation_id MutationId.wf.
Proof. produces_newtype. Qed.
Lemma Produces_timestamp : Produces decode_timestamp Timestamp.wf.
Proof. produces_newtype. Qed.
Lemma Produces_sysctl_value :
  Produces (ApprovedSysctlValue.new <$> Decoder.i64) ApprovedSysctlValue.wf.
Proof. produces_newtype. Qed.
Lemma Produces_fixed_newtype {A} n (f : array n → A) :
  Produces (f <$> Decoder.fixed n) (λ _, True).
Proof. apply Produces_True. Qed.
Lemma Produces_fingerprint : Produces decode_fingerprint (λ _, True).
Proof. apply Produces_True. Qed.

Lemma Produces_cpu_weight msg : Produces (parse_with Decoder.u16 CpuWeight.new msg) CpuWeight.wf.
Proof. eapply Produces_parse; [apply Produces_u16|]. intros. by eapply CpuWeight_new_Ok. Qed.
Lemma Produces_io_weight msg : Produces (parse_with Decoder.u16 IoWeight.new msg) IoWeight.wf.
Proof. eapply Produces_parse; [apply Produces_u16|]. intros. by eapply IoWeight_new_Ok. Qed.
Lemma Produces_period msg : Produces (parse_with Decoder.u64 CpuPeriod.new msg) CpuPeriod.wf.
Proof. eapply Produces_parse; [apply Produces_u64|]. intros. by eapply CpuPeriod_new_Ok. Qed.
Lemma Produces_power msg :
  Produces (parse_with Decoder.u32 PowerMilliwatts.new msg) PowerMilliwatts.wf.
Proof. eapply Produces_parse; [apply Produces_u32|]. intros. by eapply PowerMilliwatts_new_Ok. Qed.
Lemma Produces_frequency : Produces decode_frequency (option_wf FrequencyKHz.wf).
Proof.
  apply Produces_option. eapply Produces_parse; [apply Produces_u64|].
  intros. by eapply FrequencyKHz_new_Ok.
Qed.
Lemma Produces_target msg : Produces (decode_target msg) TargetId.wf.
Proof. eapply Produces_parse; [apply Produces_True|]. by intros s b _ (H & ->)%TargetId_new_Ok. Qed.
Lemma Produces_capability msg :
  Produces (parse_with (Decoder.string MAX_STRING_BYTES) CapabilityId.new msg) CapabilityId.wf.
Proof.
  eapply Produces_parse; [apply Produces_True|]. by intros s b _ (H & ->)%CapabilityId_new_Ok.
Qed.
Lemma Produces_governor msg : Produces (decode_name GovernorId.new msg) GovernorId.wf.
Proof.
  eapply Produces_parse; [apply Produces_True|]. intros s b _ H.
  pose proof H as H'. apply GovernorId_new_Ok in H' as [-> _]. exact H.
Qed.
Lemma Produces_profile msg : Produces (decode_name PlatformProfileId.new msg) PlatformProfileId.wf.
Proof.
  eapply Produces_parse; [apply Produces_True|]. intros s b _ H.
  pose proof H as H'. apply PlatformProfileId_new_Ok in H' as [-> _]. exact H.
Qed.
Lemma Produces_cgroup_name msg : Produces (decode_name CgroupName.new msg) CgroupName.wf.
Proof.
  eapply Produces_parse; [apply Produces_True|]. intros s b _ H.
  pose proof H as H'. apply CgroupName_new_Ok in H' as [-> _]. exact H.
Qed.
Lemma Produces_raw msg :
  Produces (parse_with (Decoder.bytes MAX_PREIMAGE_BYTES) BoundedBytes.new msg) BoundedBytes.wf.
Proof. eapply Produces_parse; [apply Produces_True|]. intros. by eapply BoundedBytes_new_Ok. Qed.
Lemma Produces_nice msg : Produces (decode_nice msg) NiceValue.wf.
Proof.
  eapply Produces_bind; [apply Produces_True|]. intros v _.
  apply Produces_checked. intros. by eapply NiceValue_new_Ok.
Qed.
#[export] Hint Resolve Produces_policy Produces_gpu Produces_irq Produces_mutation_id
  Produces_timestamp Produces_sysctl_value Produces_fixed_newtype Produces_fingerprint
  Produces_cpu_weight Produces_io_weight Produces_period Produces_power Produces_frequency
  Produces_target Produces_capability Produces_governor Produces_profile
  Produces_cgroup_name Produces_raw Produces_nice : produces.

Lemma Produces_cgroup : Produces decode_cgroup CgroupId.wf.
Proof. unfold decode_cgroup. produces. by repeat split. Qed.

Lemma Produces_process : Produces decode_process ProcessId.wf.
Proof.
  unfold decode_process. produces. apply Produces_checked.
  intros x Hx. by eapply ProcessId_new_Ok.
Qed.

Lemma Produces_uclamp : Produces decode_uclamp UclampValue.wf.
Proof.
  unfold decode_uclamp. produces.
  destruct a as [|[]]; try apply Produces_throw; [|by apply Produces_ret].
  eapply Produces_parse; [apply Produces_u16|]. intros. by eapply UclampValue_new_Ok.
Qed.

Lemma Produces_ioprio : Produces decode_ioprio IoPriority.wf.
Proof.
  unfold decode_ioprio. produces. apply Produces_checked. intros. by eapply IoPriority_new_Ok.
Qed.

Lemma Produces_cpuset : Produces decode_cpuset CpuSet.wf.
Proof.
  unfold decode_cpuset. produces. apply Produces_checked. intros. by eapply CpuSet_new_Ok.
Qed.

Lemma Produces_quota : Produces decode_quota CpuQuota.wf.
Proof.
  unfold decode_quota. produces.
  destruct a as [|[]]; try apply Produces_throw; [by apply Produces_ret|].
  eapply Produces_parse; [apply Produces_u64|]. intros. by eapply CpuQuota_micros_Ok.
Qed.
#[export] Hint Resolve Produces_cgroup Produces_process Produces_uclamp Produces_ioprio
  Produces_cpuset Produces_quota : produces.

(** ** The record *)

Ltac produces_variants :=
  repeat match goal with
  | |- Produces (match ?n with _ => _ end) _ => destruct n
  end;
  produces; cbn [kind_wf value_wf]; auto.

Lemma Produces_mutation_kind : Produces decode_mutation_kind kind_wf.
Proof. unfold decode_mutation_kind. produces. produces_variants. Qed.

Lemma Produces_typed_value : Produces decode_typed_value value_wf.
Proof. unfold decode_typed_value. produces. produces_variants. Qed.
#[export] Hint Resolve Produces_mutation_kind Produces_typed_value : produces.

Lemma Produces_mutation : Produces decode_mutation PlannedMutation.wf.
Proof.
  unfold decode_mutation. produces. apply Produces_checked.
  intros m (Hv & Ht & Hd & ->)%PlannedMutation_new_Ok.
  by repeat split.
Qed.

Lemma Produces_snapshot : Produces decode_snapshot Snapshot.wf.
Proof. unfold decode_snapshot. produces. by split_and!. Qed.

Lemma Produces_apply_receipt : Produces decode_apply_receipt ApplyReceipt.wf.
Proof. unfold decode_apply_receipt. by produces. Qed.

Lemma Produces_verification : Produces decode_verification VerificationResult.wf.
Proof.
  unfold decode_verification. by produces.
Qed.

Lemma Produces_restore_receipt : Produces decode_restore_receipt RestoreReceipt.wf.
Proof. unfold decode_restore_receipt. by produces. Qed.

Lemma Produces_failure : Produces decode_failure FailureRecord.wf.
Proof. unfold decode_failure. produces. split; [done|]. by destruct_and?. Qed.

Lemma Produces_transition : Produces decode_transition transition_wf.
Proof. unfold decode_transition. produces. destruct_and?. by split_and!. Qed.
#[export] Hint Resolve Produces_mutation Produces_snapshot Produces_apply_receipt
  Produces_verification Produces_restore_receipt Produces_failure Produces_transition : produces.

Lemma Produces_operation : Produces decode_operation operation_wf.
Proof. unfold decode_operation. produces. by split_and!. Qed.
#[export] Hint Resolve Produces_operation : produces.

Lemma Produces_session : Produces decode_session session_wf.
Proof. unfold decode_session. produces. by split_and!. Qed.
#[export] Hint Resolve Produces_session : produces.

Lemma Produces_record : Produces decode_payload record_wf.
Proof. unfold decode_payload. produces. by split_and!. Qed.
