(* ===== verification/StateFile.v ===== *)
(** * The state file as a whole

    The frame around the payload, and what it buys: an encoded record reads
    back as itself, and a torn or single-byte-damaged file is rejected
    instead of being read as another record. *)
From Stdlib Require Import Strings.Byte.
From S2P Require Import Prelude Lists Text Ids Mut Capability Mutation Session Record.
From S2P Require Import Wire Checksum Codec CodecLaws.
Local Open Scope N_scope.

(** The bytes of a file with a given payload. *)
Definition frame (payload : list byte) : list byte :=
  MAGIC ++ to_be 2 STATE_FORMAT_VERSION
  ++ to_be 4 (N.of_nat (length payload)) ++ payload ++ checksum payload.

Lemma length_frame payload : length (frame payload) = (46 + length payload)%nat.
Proof.
  unfold frame. rewrite !length_app, !length_to_be, length_checksum.
  change (length MAGIC) with 8%nat. lia.
Qed.

Lemma encode_Ok r b :
  encode r = Ok b ↔
  validate_for_serialization r = Ok tt ∧
  ∃ e, encode_payload r Encoder.default = (Ok tt, e) ∧ b = frame (Encoder.finish e)
       ∧ N.of_nat (length b) ≤ MAX_SESSION_RECORD_BYTES.
Proof.
  unfold encode. rewrite bind_Ok.
  assert (∀ p, 8 + 2 + 4 + N.of_nat (length p) + 32 = N.of_nat (length (frame p))) as Hlen.
  { intros p. rewrite length_frame. lia. }
  split.
  - intros ([] & Hv & H). split; [done|].
    destruct (encode_payload r Encoder.default) as [[[]|] e]; [|done].
    exists e. split; [done|]. cbn in H. rewrite Hlen in H.
    destruct (N.ltb_spec MAX_SESSION_RECORD_BYTES
      (N.of_nat (length (frame (Encoder.finish e))))); [done|].
    by injection H as <-.
  - intros (Hv & e & He & -> & Hb). exists tt. split; [done|]. rewrite He. cbn.
    rewrite Hlen, (proj2 (N.ltb_ge _ _)) by done. done.
Qed.

(** ** Reading the frame back *)

Lemma slice_app l1 l2 l3 n m :
  n = length l1 → m = length l2 → slice n m (l1 ++ l2 ++ l3) = l2.
Proof. intros -> ->. unfold slice. by rewrite drop_app_length, take_app_length. Qed.

(** The checks of [decode] before the payload is parsed. *)
Definition framed (bytes : list byte) : Prop :=
  ∃ payload, bytes = frame payload ∧ N.of_nat (length bytes) ≤ MAX_SESSION_RECORD_BYTES.

(** [decode] parses exactly the payload of a framed file, and rejects any
    other file as corrupt. *)
Lemma decode_frame payload :
  N.of_nat (length (frame payload)) ≤ MAX_SESSION_RECORD_BYTES →
  decode (frame payload) =
    let '(res, decoder) := decode_payload (Decoder.new payload) in
    record ← res; _ ← Decoder.finish decoder;
    _ ← validate_for_serialization record; Ok record.
Proof.
  intros Hb. pose proof (length_frame payload) as Hl.
  assert (fits 32 (N.of_nat (length payload))) as Hfits.
  { unfold fits, MAX_SESSION_RECORD_BYTES in *. lia. }
  unfold decode.
  rewrite (proj2 (N.ltb_ge _ _)), (proj2 (N.ltb_ge _ _)) by lia. cbn [orb].
  rewrite bool_decide_false by (intros H; by apply H).
  assert (slice 8 2 (frame payload) = to_be 2 STATE_FORMAT_VERSION) as ->
    by (by apply slice_app; rewrite ?length_to_be).
  change (negb (from_be (to_be 2 STATE_FORMAT_VERSION) =? STATE_FORMAT_VERSION)) with false.
  cbv iota.
  assert (slice 10 4 (frame payload) = to_be 4 (N.of_nat (length payload))) as ->.
  { unfold frame. rewrite (app_assoc MAGIC). apply slice_app; [|by rewrite length_to_be].
    by rewrite length_app, length_to_be. }
  rewrite (from_to_be_small 4 32) by done.
  unfold checked_add64. rewrite (proj2 (N.ltb_lt _ _)) by (unfold fits in Hfits; lia).
  cbn [ok_or]. unfold mbind, result_bind.
  rewrite (proj2 (N.eqb_eq _ _)) by lia. cbn [negb].
  replace (N.to_nat (14 + N.of_nat (length payload)) - 14)%nat with (length payload) by lia.
  assert (slice 14 (length payload) (frame payload) = payload) as ->.
  { unfold frame. rewrite (app_assoc MAGIC), (app_assoc (MAGIC ++ _)). apply slice_app; [|done].
    by rewrite !length_app, !length_to_be. }
  replace (drop (N.to_nat (14 + N.of_nat (length payload))) (frame payload))
    with (checksum payload).
  { by rewrite bool_decide_false by (intros H; by apply H). }
  unfold frame. rewrite !(app_assoc _ _ (checksum payload)), !(app_assoc MAGIC).
  rewrite drop_app_length'; [done|]. rewrite !length_app, !length_to_be.
  change (length MAGIC) with 8%nat. lia.
Qed.

Lemma length_slice n m l : (n + m ≤ length l)%nat → length (slice n m l) = m.
Proof. intros H. unfold slice. rewrite length_take, length_drop. lia. Qed.

Lemma slice_be n k l w :
  (n + k ≤ length l)%nat → from_be (slice n k l) = w → slice n k l = to_be k w.
Proof. intros Hl <-. rewrite <-(length_slice n k l Hl) at 2. by rewrite to_from_be. Qed.

(** A slice followed by what comes after it. *)
Lemma slice_rest n m k l : k = (n + m)%nat → slice n m l ++ drop k l = drop n l.
Proof. intros ->. unfold slice. rewrite <-drop_drop. apply take_drop. Qed.

Lemma decode_framed bytes : framed bytes ∨ ∃ msg, decode bytes = Err (corrupt msg).
Proof.
  unfold decode.
  destruct (N.ltb_spec MAX_SESSION_RECORD_BYTES (N.of_nat (length bytes))); [right; eauto|].
  destruct (N.ltb_spec (N.of_nat (length bytes)) (8 + 2 + 4 + 32)); [right; eauto|]. cbn [orb].
  case_bool_decide as Hm; [right; eauto|].
  destruct (N.eqb_spec (from_be (slice 8 2 bytes)) STATE_FORMAT_VERSION) as [Hv|];
    [|right; eauto]. cbn [negb].
  set (n := from_be (slice 10 4 bytes)).
  destruct (checked_add64 14 n) as [stop|] eqn:Hc; [|right; eexists; done]. cbn [ok_or].
  unfold mbind at 1, result_bind at 1.
  destruct (N.eqb_spec (stop + 32) (N.of_nat (length bytes))) as [Hs|]; [|right; eauto].
  cbn [negb]. unfold checked_add64 in Hc.
  destruct (14 + n <? 2 ^ 64); [|done]. injection Hc as <-.
  case_bool_decide as Hk; [right; eauto|]. left.
  set (payload := slice 14 (N.to_nat (14 + n) - 14) bytes) in *.
  assert (length payload = N.to_nat n) as Hp by (unfold payload; rewrite length_slice; lia).
  exists payload. split; [|done]. unfold frame.
  rewrite <-Hm, Hk, Hp, N2Nat.id, <-Hv.
  rewrite <-(slice_be 8 2 bytes _ ltac:(lia) eq_refl), <-(slice_be 10 4 bytes n ltac:(lia) eq_refl).
  unfold payload.
  rewrite (slice_rest 14 _ (N.to_nat (14 + n))), (slice_rest 10 4 14), (slice_rest 8 2 10) by lia.
  symmetry. apply take_drop.
Qed.

(** ** The theorems *)

Lemma decode_encoded r b :
  record_wf r → encode r = Ok b → decode b = Ok r.
Proof.
  intros Hwf (Hv & e & He & -> & Hb)%encode_Ok.
  rewrite decode_frame by done.
  destruct (Codes_record r Hwf _ _ He) as (bs & Hbs & Hp). cbn in Hbs.
  specialize (Hp [] []). rewrite app_nil_r, !app_nil_l in Hp.
  unfold Encoder.finish, Decoder.new. rewrite Hbs. change (N.of_nat (length [])) with 0 in Hp. rewrite Hp.
  - cbn. unfold Decoder.finish. cbn [Decoder.offset Decoder.buffer].
    rewrite N.eqb_refl. cbn. by rewrite Hv.
  - rewrite length_frame in Hb. unfold Encoder.finish in Hb. rewrite Hbs in Hb.
    unfold MAX_SESSION_RECORD_BYTES in Hb. lia.
Qed.

Lemma encode_framed r b : encode r = Ok b → framed b.
Proof. intros (_ & e & _ & -> & Hb)%encode_Ok. by exists (Encoder.finish e). Qed.

Lemma frame_length_header p q l1 l2 :
  frame p ++ l1 = frame q ++ l2 → fits 32 (N.of_nat (length p)) →
  fits 32 (N.of_nat (length q)) → length p = length q.
Proof.
  unfold frame. rewrite <-!app_assoc. intros H Hp Hq.
  do 2 apply app_inv_head in H.
  apply app_inj_1 in H as [H _]; [|by rewrite !length_to_be].
  apply (to_be_inj 4 32) in H; [lia|done..].
Qed.

Lemma framed_fits p :
  N.of_nat (length (frame p)) ≤ MAX_SESSION_RECORD_BYTES → fits 32 (N.of_nat (length p)).
Proof. rewrite length_frame. unfold fits, MAX_SESSION_RECORD_BYTES. lia. Qed.

(** Frames of the same size share their 14 bytes of header. *)
Lemma frame_header p : ∀ q, length p = length q → ∃ h,
  frame p = h ++ p ++ checksum p ∧ frame q = h ++ q ++ checksum q.
Proof.
  intros q Hl. exists (MAGIC ++ to_be 2 STATE_FORMAT_VERSION ++ to_be 4 (N.of_nat (length p))).
  unfold frame. rewrite Hl, <-!app_assoc. done.
Qed.

(** One changed element lies on one side of an append. *)
Lemma app_change {A} (a b a' b' pre post : list A) x y :
  length a = length a' → a ++ b = pre ++ x :: post → a' ++ b' = pre ++ y :: post →
  (∃ post', a = pre ++ x :: post' ∧ a' = pre ++ y :: post' ∧ b = b')
  ∨ (a = a' ∧ ∃ pre', b = pre' ++ x :: post ∧ b' = pre' ++ y :: post).
Proof.
  revert a a'. induction pre as [|z pre IH]; intros [|u a] [|v a'] Hl H H'; try done; cbn in *.
  - right. split; [done|]. by exists [].
  - left. injection H as -> <-. injection H' as -> H'. injection Hl as Hl.
    apply app_inj_1 in H' as [-> ->]; [|done]. by exists a.
  - right. split; [done|]. by exists (z :: pre).
  - injection H as -> H. injection H' as -> H'. injection Hl as Hl.
    destruct (IH a a' Hl H H') as [(post' & -> & -> & ->)|(-> & pre' & -> & ->)].
    + left. by exists post'.
    + right. split; [done|]. by exists pre'.
Qed.

Lemma frame_byte_inj p q pre post x y :
  frame p = pre ++ x :: post → frame q = pre ++ y :: post → x = y.
Proof.
  intros Hp Hq.
  assert (length p = length q) as Hl.
  { apply (f_equal length) in Hp, Hq. rewrite length_frame in Hp, Hq.
    rewrite length_app in Hp, Hq. cbn in Hp, Hq. lia. }
  destruct (frame_header p q Hl) as (h & Ep & Eq). rewrite Ep in Hp. rewrite Eq in Hq.
  destruct (app_change _ _ _ _ _ _ _ _ eq_refl Hp Hq)
    as [(post' & -> & H & _)|(_ & pre' & Hp' & Hq')].
  { apply app_inv_head in H. by injection H. }
  destruct (app_change _ _ _ _ _ _ _ _ Hl Hp' Hq') as [(post' & -> & -> & H)|(-> & c & H1 & H2)].
  - by apply checksum_byte_inj in H.
  - rewrite H1 in H2. apply app_inv_head in H2. by injection H2.
Qed.

(** C28. A well-formed record that encodes decodes to itself, and its file is
    within the durable bound. *)
Theorem state_file_round_trip (r : SessionRecord.t) (b : list byte) :
  record_wf r → encode r = Ok b →
  decode b = Ok r ∧ N.of_nat (length b) ≤ MAX_SESSION_RECORD_BYTES.
Proof.
  intros Hwf H. split; [by apply decode_encoded|].
  by apply encode_framed in H as (p & _ & Hb).
Qed.

Lemma decode_valid (b : list byte) (r : SessionRecord.t) :
  decode b = Ok r → record_wf r ∧ validate_for_serialization r = Ok tt.
Proof.
  intros H. destruct (decode_framed b) as [(p & -> & Hb)|[msg Hm]]; [|by rewrite Hm in H].
  rewrite decode_frame in H by done.
  destruct (decode_payload (Decoder.new p)) as [[x|] d] eqn:E; [|done].
  inv_res. split; [by eapply Produces_record|done].
Qed.

(** C29. Whatever bytes the decoder accepts, the record it returns satisfies
    every field invariant and the validation of a serialized record. *)
Theorem decoded_record_valid (b : list byte) (r : SessionRecord.t) :
  decode b = Ok r → record_wf r ∧ validate_for_serialization r = Ok tt.
Proof. apply decode_valid. Qed.

(** C30. A file in which one byte differs from what was written is rejected as
    corrupt, wherever the byte is. *)
Theorem damaged_byte_rejected (r : SessionRecord.t) (pre post : list byte) (x y : byte) :
  encode r = Ok (pre ++ x :: post) → x ≠ y →
  ∃ msg, decode (pre ++ y :: post) = Err (corrupt msg).
Proof.
  intros (p & Hp & _)%encode_framed Hxy.
  destruct (decode_framed (pre ++ y :: post)) as [(q & Hq & _)|]; [|done].
  destruct Hxy. by eapply frame_byte_inj.
Qed.

(** A torn write, that is a proper prefix of what was to be written, is
    rejected as corrupt. *)
Theorem torn_write_rejected (r : SessionRecord.t) (written lost : list byte) :
  encode r = Ok (written ++ lost) → lost ≠ [] →
  ∃ msg, decode written = Err (corrupt msg).
Proof.
  intros (p & Hp & Hb)%encode_framed Hl.
  destruct (decode_framed written) as [(q & Hq & Hb')|]; [|done]. exfalso. subst written.
  assert (length p = length q) as H.
  { apply (frame_length_header p q [] lost); rewrite ?app_nil_r; try done; apply framed_fits.
    - by rewrite <-Hp.
    - done. }
  apply (f_equal length) in Hp. rewrite length_app, !length_frame in Hp.
  destruct lost; [done|]. cbn in Hp. lia.
Qed.
