(* ===== verification/Ports.v ===== *)
(** * Ports ([sysboost-platform/src/backend.rs, state.rs, clock.rs])

    The traits the transaction engine is generic over, as type classes on
    the state of their implementation, and the calls an execution makes on
    them.  A method that can observe or change the outside is a [Mut]
    computation on that state, also where the receiver is [&self]: the
    backends keep their effects behind interior mutability or the kernel. *)
From S2P Require Import Prelude Ids Mut Capability Mutation Session Record.

(** Compiled-in backend metadata. *)
Module BackendDescriptor.
Record t := mk {
  id : BackendId.t;
  version : string;
  capabilities : list CapabilityId.t;
  operations : list OperationId.t
}.
#[global] Instance t_eq_dec : EqDecision t. Proof. solve_decision. Defined.
End BackendDescriptor.

(** Typed mutation backend port.  The execution token of the source carries
    no data; only the engine makes these calls. *)
Module MutationBackend.
Class t (B : Type) := {
  descriptor : B → BackendDescriptor.t;
  owns_backend : B → BackendId.t → bool;
  snapshot : PlannedMutation.t → Timestamp.t → Mut B Snapshot.t;
  apply : PlannedMutation.t → Snapshot.t → Mut B ApplyReceipt.t;
  verify : PlannedMutation.t → StateFingerprint.t → TargetIdentity.t →
    Mut B StateFingerprint.t;
  restore : PlannedMutation.t → Snapshot.t → StateFingerprint.t → Mut B RestoreReceipt.t;
  validate_target : B → PlannedMutation.t → TargetIdentity.t → Result unit;
  validate_admission : B → PlannedMutation.t → TargetIdentity.t → Result unit
}.

(** The provided methods of the trait. *)
Definition default_owns_backend (d : BackendDescriptor.t) (backend : BackendId.t) : bool :=
  bool_decide (d.(BackendDescriptor.id) = backend).

Definition default_validate_target (m : PlannedMutation.t) (_ : TargetIdentity.t) : Result unit :=
  Err (SysboostError.new ErrorCode.Unsupported
         "backend has no target allowlist for this operation"
       |> SysboostError.with_mutation m.(PlannedMutation.mutation_id)).

Definition default_validate_admission (d : BackendDescriptor.t)
    (validate_target : PlannedMutation.t → TargetIdentity.t → Result unit)
    (m : PlannedMutation.t) (identity : TargetIdentity.t) : Result unit :=
  if negb (bool_decide (operation_id m.(PlannedMutation.kind) ∈ d.(BackendDescriptor.operations)))
  then Err (SysboostError.new ErrorCode.Unsupported
              "backend does not own the requested typed operation"
            |> SysboostError.with_backend d.(BackendDescriptor.id)
            |> SysboostError.with_mutation m.(PlannedMutation.mutation_id))
  else if negb (bool_decide (m.(PlannedMutation.capability) ∈ d.(BackendDescriptor.capabilities)))
  then Err (SysboostError.new ErrorCode.Unsupported
              "backend does not own the requested capability"
            |> SysboostError.with_backend d.(BackendDescriptor.id)
            |> SysboostError.with_capability m.(PlannedMutation.capability)
            |> SysboostError.with_mutation m.(PlannedMutation.mutation_id))
  else validate_target m identity.
End MutationBackend.

(** The contract of a backend that acts on a host, a value per control of
    which it reports fingerprints.  Controls are named by [K].  Snapshots and readbacks leave the host alone
    and report it; an apply and a restore write at most their own control; an
    apply of a mutation with a snapshot of its precondition that fails without
    saying that its effect is unknown leaves the host as it was; a restore that
    claims to be verified has written what it claims. *)
Module HostLaws.
Class t (B K : Type) `{!MutationBackend.t B} := {
  key : PlannedMutation.t → K;
  live : B → K → option StateFingerprint.t;
  snapshot_quiet m at_ b res b' k : MutationBackend.snapshot m at_ b = (res, b') → live b' k = live b k;
  snapshot_reads m at_ b s b' : MutationBackend.snapshot m at_ b = (Ok s, b') →
    live b (key m) = Some s.(Snapshot.original_fingerprint);
  verify_quiet m f i b res b' k : MutationBackend.verify m f i b = (res, b') → live b' k = live b k;
  verify_reads m f i b x b' : MutationBackend.verify m f i b = (Ok x, b') → live b (key m) = Some x;
  apply_local m s b res b' k : MutationBackend.apply m s b = (res, b') → k ≠ key m →
    live b' k = live b k;
  apply_failed m s b e b' k :
    s.(Snapshot.original_fingerprint) = m.(PlannedMutation.precondition) →
    MutationBackend.apply m s b = (Err e, b') →
    e.(SysboostError.retryability) ≠ Retryability.Unknown → live b' k = live b k;
  restore_local m s f b res b' k : MutationBackend.restore m s f b = (res, b') → k ≠ key m →
    live b' k = live b k;
  restore_writes m s f b r b' : MutationBackend.restore m s f b = (Ok r, b') →
    r.(RestoreReceipt.verified) = true →
    live b' (key m) = Some r.(RestoreReceipt.restored_fingerprint)
}.
End HostLaws.

(** Port for atomically replacing complete session records. *)
Module SessionStateStore.
Class t (S : Type) := {
  create : SessionRecord.t → Mut S unit;
  replace : SessionRecord.t → Mut S unit;
  load : SessionId.t → Mut S SessionRecord.t;
  load_unfinished : Mut S (list SessionRecord.t);
  remove : SessionId.t → Mut S unit
}.
End SessionStateStore.

(** The lease of the one mutating session; [release] is the [Drop] of the
    guard. *)
Module ExclusiveSessionLock.
Class t (L G : Type) := {
  acquire : Mut L G;
  release : G → L → L
}.
End ExclusiveSessionLock.

Module SessionIdSource.
Class t (I : Type) := { next_id : Mut I SessionId.t }.
End SessionIdSource.

Module Clock.
Class t (C : Type) := { now : Mut C Timestamp.t }.
End Clock.

(** ** Laws the implementations promise *)

(** A store writes only records that pass their own validation. *)
Module StoreLaws.
Class t (S : Type) `{!SessionStateStore.t S} := {
  create_validated r s s' :
    SessionStateStore.create r s = (Ok tt, s') → validate_for_serialization r = Ok tt;
  replace_validated r s s' :
    SessionStateStore.replace r s = (Ok tt, s') → validate_for_serialization r = Ok tt;
  load_validated id r s s' :
    SessionStateStore.load id s = (Ok r, s') → validate_for_serialization r = Ok tt
}.
End StoreLaws.

(** Dropping a guard gives the lease back; a failed attempt takes nothing. *)
Module LockLaws.
Class t (L G : Type) `{!ExclusiveSessionLock.t L G} := {
  release_acquired l g l' :
    ExclusiveSessionLock.acquire l = (Ok g, l') → ExclusiveSessionLock.release g l' = l;
  acquire_failed l e l' : ExclusiveSessionLock.acquire l = (Err e, l') → l' = l
}.
End LockLaws.

(** ** The calls of an execution *)

Inductive call :=
| CSnapshot (m : PlannedMutation.t) (res : Result Snapshot.t)
| CApply (m : PlannedMutation.t) (s : Snapshot.t) (res : Result ApplyReceipt.t)
| CVerify (m : PlannedMutation.t) (expected : StateFingerprint.t) (identity : TargetIdentity.t)
    (res : Result StateFingerprint.t)
| CRestore (m : PlannedMutation.t) (s : Snapshot.t) (ownership : StateFingerprint.t)
    (res : Result RestoreReceipt.t)
| CCreate (r : SessionRecord.t) (res : Result unit)
| CReplace (r : SessionRecord.t) (res : Result unit)
| CRemove (id : SessionId.t) (res : Result unit).
