(* ===== verification/Engine.v ===== *)
(** * The transaction engine ([sysboost-platform/src/transaction.rs])

    [TransactionEngine] drives one backend through snapshot, durable intent,
    apply, verification and restore.  Its methods are [Mut] computations on
    the engine; where the source passes a [&mut SessionRecord] along, the
    state is the pair of engine and record.

    The field [trace] is not in the source: it records the calls on the
    backend and the writes of the store in order, and no operation reads
    it. *)
From stdpp Require Import sorting.
From S2P Require Import Prelude Lists Text Ids Mut Capability Mutation Plan Session.
From S2P Require Import Record Ports.

Module TransactionStatus.
Record t := mk { session_id : SessionId.t; state : SessionState.t }.
#[global] Instance t_eq_dec : EqDecision t. Proof. solve_decision. Defined.
End TransactionStatus.

(** [{state:?}] *)
Definition debug_state (s : SessionState.t) : string :=
  match s with
  | SessionState.New => "New"
  | SessionState.Detected => "Detected"
  | SessionState.Planned => "Planned"
  | SessionState.Snapshotted => "Snapshotted"
  | SessionState.IntentDurable => "IntentDurable"
  | SessionState.Applying => "Applying"
  | SessionState.Active => "Active"
  | SessionState.Restoring => "Restoring"
  | SessionState.Restored => "Restored"
  | SessionState.RollingBack => "RollingBack"
  | SessionState.Degraded => "Degraded"
  | SessionState.RecoveryPending => "RecoveryPending"
  end.

Definition validate_snapshot (m : PlannedMutation.t) (s : Snapshot.t) : Result unit :=
  if bool_decide (s.(Snapshot.mutation_id) ≠ m.(PlannedMutation.mutation_id))
     || bool_decide (s.(Snapshot.target) ≠ m.(PlannedMutation.target))
     || bool_decide (s.(Snapshot.equality) ≠ m.(PlannedMutation.equality))
  then Err (SysboostError.new ErrorCode.SnapshotError
              "backend snapshot does not satisfy the typed mutation contract"
            |> SysboostError.with_stage Stage.Snapshot
            |> SysboostError.with_mutation m.(PlannedMutation.mutation_id)
            |> SysboostError.with_target m.(PlannedMutation.target))
  else Ok tt.

Definition contextual (stage : Stage.t) (session_id : option SessionId.t)
    (mutation_id : option MutationId.t) (e : SysboostError.t) : SysboostError.t :=
  let e := SysboostError.with_stage stage e in
  let e := match session_id with Some s => SysboostError.with_session s e | None => e end in
  match mutation_id with Some m => SysboostError.with_mutation m e | None => e end.

Definition combine_failure (trigger rollback : SysboostError.t) (session_id : SessionId.t) :
    SysboostError.t :=
  SysboostError.new
    match rollback.(SysboostError.code) with
    | ErrorCode.JournalCorrupt => ErrorCode.JournalCorrupt
    | ErrorCode.RestoreConflict => ErrorCode.RestoreConflict
    | _ => ErrorCode.RestoreError
    end
    ("transaction failed with " +:+ ErrorCode.fmt trigger.(SysboostError.code)
     +:+ "; rollback also failed with " +:+ ErrorCode.fmt rollback.(SysboostError.code))
  |> SysboostError.with_stage Stage.Recovery
  |> SysboostError.with_session session_id
  |> SysboostError.retryable Retryability.AfterRecovery.

(** An error that names a session and one of its operations. *)
Definition op_error (code : ErrorCode.t) (message : string) (stage : Stage.t)
    (session_id : SessionId.t) (id : MutationId.t) : SysboostError.t :=
  SysboostError.new code message
  |> SysboostError.with_stage stage
  |> SysboostError.with_session session_id
  |> SysboostError.with_mutation id.

(** [SessionId] is ordered as its bytes. *)
Definition session_le (r1 r2 : SessionRecord.t) : Prop :=
  (from_be (SessionId.as_bytes (SessionRecord.session_id r1))
   ≤ from_be (SessionId.as_bytes (SessionRecord.session_id r2)))%N.
#[export] Instance session_le_dec r1 r2 : Decision (session_le r1 r2).
Proof. unfold session_le. apply _. Defined.

Definition is_restored_status (s : TransactionStatus.t) : bool :=
  bool_decide (s.(TransactionStatus.state) = SessionState.Restored).

Module TransactionEngine.
Record t (B S L G I C : Type) := mk {
  backend : B;
  state_store : S;
  lock : L;
  id_source : I;
  clock : C;
  active : option (SessionId.t * G);
  trace : list call
}.
Arguments mk {B S L G I C} _ _ _ _ _ _ _.
Arguments backend {B S L G I C} _.
Arguments state_store {B S L G I C} _.
Arguments lock {B S L G I C} _.
Arguments id_source {B S L G I C} _.
Arguments clock {B S L G I C} _.
Arguments active {B S L G I C} _.
Arguments trace {B S L G I C} _.
End TransactionEngine.

Section Engine.
Context {B St L G I C : Type}.
Context `{!MutationBackend.t B, !SessionStateStore.t St, !ExclusiveSessionLock.t L G,
          !SessionIdSource.t I, !Clock.t C}.

Abbreviation engine := (TransactionEngine.t B St L G I C).
Import TransactionEngine.

Definition new (backend : B) (state_store : St) (lock : L) (id_source : I) (clock : C) : engine :=
  mk backend state_store lock id_source clock None [].

(** ** Calls on the ports *)

Definition on_backend {A} (record : Result A → call) (m : Mut B A) : Mut engine A := λ e,
  let '(res, b) := m e.(backend) in
  (res, mk b e.(state_store) e.(lock) e.(id_source) e.(clock) e.(active)
           (e.(trace) ++ [record res])).

(** A write of the store, which is traced. *)
Definition on_store (record : Result unit → call) (m : Mut St unit) : Mut engine unit := λ e,
  let '(res, s) := m e.(state_store) in
  (res, mk e.(backend) s e.(lock) e.(id_source) e.(clock) e.(active)
           (e.(trace) ++ [record res])).

Definition read_store {A} (m : Mut St A) : Mut engine A := λ e,
  let '(res, s) := m e.(state_store) in
  (res, mk e.(backend) s e.(lock) e.(id_source) e.(clock) e.(active) e.(trace)).

Definition on_id_source {A} (m : Mut I A) : Mut engine A := λ e,
  let '(res, i) := m e.(id_source) in
  (res, mk e.(backend) e.(state_store) e.(lock) i e.(clock) e.(active) e.(trace)).

Definition on_clock {A} (m : Mut C A) : Mut engine A := λ e,
  let '(res, c) := m e.(clock) in
  (res, mk e.(backend) e.(state_store) e.(lock) e.(id_source) c e.(active) e.(trace)).

Definition acquire : Mut engine G := λ e,
  let '(res, l) := ExclusiveSessionLock.acquire e.(lock) in
  (res, mk e.(backend) e.(state_store) l e.(id_source) e.(clock) e.(active) e.(trace)).

(** The guard goes out of scope. *)
Definition drop_guard (g : G) (e : engine) : engine :=
  mk e.(backend) e.(state_store) (ExclusiveSessionLock.release g e.(lock))
     e.(id_source) e.(clock) e.(active) e.(trace).

(** [self.active = lease]: the previous lease, if any, is dropped. *)
Definition set_active (lease : option (SessionId.t * G)) (e : engine) : engine :=
  let e := match e.(active) with Some (_, g) => drop_guard g e | None => e end in
  mk e.(backend) e.(state_store) e.(lock) e.(id_source) e.(clock) lease e.(trace).

(** The scope of a local [guard]: it is dropped unless the body moved it
    into the engine, which the flag of the body's result says. *)
Definition with_guard {A} (stage : Stage.t) (body : G → Mut engine (A * bool)) : Mut engine A :=
  guard ← mut_map_err (λ e, e |> SysboostError.with_stage stage
                              |> SysboostError.retryable Retryability.Retry) acquire;
  λ e, match body guard e with
       | (Ok (a, true), e') => (Ok a, e')
       | (Ok (a, false), e') => (Ok a, drop_guard guard e')
       | (Err x, e') => (Err x, drop_guard guard e')
       end.

Definition now (stage : Stage.t) : Mut engine Timestamp.t :=
  mut_map_err (SysboostError.with_stage stage) (on_clock Clock.now).

Definition persist (record : SessionRecord.t) (stage : Stage.t) : Mut engine unit :=
  mut_map_err (contextual stage (Some (SessionRecord.session_id record)) None)
    (on_store (CReplace record) (SessionStateStore.replace record)).

Definition load_active_record (session_id : SessionId.t) : Mut engine SessionRecord.t :=
  mut_map_err (contextual Stage.Recovery (Some session_id) None)
    (read_store (SessionStateStore.load session_id)).

Definition backend_snapshot (m : PlannedMutation.t) (at_ : Timestamp.t) : Mut engine Snapshot.t :=
  on_backend (CSnapshot m) (MutationBackend.snapshot m at_).
Definition backend_apply (m : PlannedMutation.t) (s : Snapshot.t) : Mut engine ApplyReceipt.t :=
  on_backend (CApply m s) (MutationBackend.apply m s).
Definition backend_verify (m : PlannedMutation.t) (expected : StateFingerprint.t)
    (identity : TargetIdentity.t) : Mut engine StateFingerprint.t :=
  on_backend (CVerify m expected identity) (MutationBackend.verify m expected identity).
Definition backend_restore (m : PlannedMutation.t) (s : Snapshot.t)
    (ownership : StateFingerprint.t) : Mut engine RestoreReceipt.t :=
  on_backend (CRestore m s ownership) (MutationBackend.restore m s ownership).

Definition require_active (session_id : SessionId.t) : Mut engine unit := λ e,
  match e.(active) with
  | Some (id, _) =>
    if bool_decide (id = session_id) then (Ok tt, e)
    else (Err (SysboostError.new ErrorCode.AuthorizationError
                 "requested session is not owned by this coordinator"
               |> SysboostError.with_stage Stage.Transport
               |> SysboostError.with_session id), e)
  | None => (Err (SysboostError.new ErrorCode.AuthorizationError
                    "no mutating-session lease is held by this coordinator"
                  |> SysboostError.with_stage Stage.Transport), e)
  end.

Definition release_if_restored (session_id : SessionId.t) : Mut engine unit := λ e,
  match e.(active) with
  | Some (id, _) =>
    if bool_decide (id = session_id) then (Ok tt, set_active None e) else (Ok tt, e)
  | None => (Ok tt, e)
  end.

(** ** Prepare *)

(** The loop that captures one preimage per mutation. *)
Fixpoint capture_all (at_ : Timestamp.t) (mutations : list PlannedMutation.t) :
    Mut engine (list Snapshot.t) :=
  match mutations with
  | [] => mret []
  | m :: rest =>
    snapshot ← mut_map_err (contextual Stage.Snapshot None (Some m.(PlannedMutation.mutation_id)))
                 (backend_snapshot m at_);
    _ ← lift (validate_snapshot m snapshot);
    _ ← lift (ensure (bool_decide (snapshot.(Snapshot.original_fingerprint)
                                   = m.(PlannedMutation.precondition)))
          (SysboostError.new ErrorCode.TargetError "target changed between planning and snapshot"
           |> SysboostError.with_stage Stage.Snapshot
           |> SysboostError.with_mutation m.(PlannedMutation.mutation_id)
           |> SysboostError.with_target m.(PlannedMutation.target)));
    snapshots ← capture_all at_ rest;
    mret (snapshot :: snapshots)
  end.

(** The body that takes a fresh record from [New] to [IntentDurable]. *)
Definition intent_steps (at_ : Timestamp.t) (snapshots : list Snapshot.t) :
    Mut SessionRecord.t unit :=
  _ ← SessionRecord.transition SessionState.Detected at_ "capability evidence accepted";
  _ ← SessionRecord.transition SessionState.Planned at_ "complete typed plan accepted";
  _ ← mut_for_each SessionRecord.capture_snapshot snapshots;
  _ ← SessionRecord.transition SessionState.Snapshotted at_ "all original states captured";
  _ ← SessionRecord.record_intent;
  SessionRecord.transition SessionState.IntentDurable at_
    "snapshots and mutation intent are durable".

Definition candidate_record (session_id : SessionId.t) (plan : Plan.t) (at_ : Timestamp.t)
    (snapshots : list Snapshot.t) : Result SessionRecord.t :=
  record ← SessionRecord.new (Session.new session_id plan at_) plan.(Plan.mutations);
  let '(res, record') := intent_steps at_ snapshots record in
  _ ← res; Ok record'.

(** [for _attempt in 0..attempts]: an ID collision is retried. *)
Fixpoint create_session (attempts : nat) (plan : Plan.t) (at_ : Timestamp.t)
    (snapshots : list Snapshot.t) (guard : G) : Mut engine (SessionId.t * bool) :=
  match attempts with
  | O => throw (SysboostError.new ErrorCode.InvariantViolation
                  "unable to allocate a unique boost session ID"
                |> SysboostError.with_stage Stage.DurableIntent)
  | S attempts' =>
    session_id ← mut_map_err (SysboostError.with_stage Stage.DurableIntent)
                   (on_id_source SessionIdSource.next_id);
    record ← lift (candidate_record session_id plan at_ snapshots);
    created ← catch (on_store (CCreate record) (SessionStateStore.create record));
    match created with
    | Ok _ => _ ← modify (set_active (Some (session_id, guard))); mret (session_id, true)
    | Err e =>
      if bool_decide (e.(SysboostError.code) = ErrorCode.InvariantViolation)
      then create_session attempts' plan at_ snapshots guard
      else throw (contextual Stage.DurableIntent (Some session_id) None e)
    end
  end.

Definition prepare (plan : Plan.t) : Mut engine SessionId.t :=
  e ← get;
  match e.(active) with
  | Some _ =>
    throw (SysboostError.new ErrorCode.AuthorizationError
             "this coordinator already owns a mutating session"
           |> SysboostError.retryable Retryability.Retry)
  | None =>
    _ ← lift (Plan.validate_complete plan);
    _ ← lift (ensure (negb (bool_decide (plan.(Plan.mutations) = [])))
          (SysboostError.new ErrorCode.AuthorizationError
             "a report-only or no-op plan cannot enter the mutation engine"
           |> SysboostError.with_stage Stage.Plan));
    with_guard Stage.DurableIntent (λ guard,
      unfinished ← mut_map_err (SysboostError.with_stage Stage.Recovery)
                     (read_store SessionStateStore.load_unfinished);
      _ ← lift (ensure (bool_decide (unfinished = []))
            (SysboostError.new ErrorCode.AuthorizationError
               "an unfinished session requires recovery before a new mutation"
             |> SysboostError.with_stage Stage.Recovery
             |> SysboostError.retryable Retryability.AfterRecovery));
      at_ ← now Stage.Detect;
      snapshots ← capture_all at_ plan.(Plan.mutations);
      create_session 32 plan at_ snapshots guard)
  end.

Definition abort_prepared (session_id : SessionId.t) : Mut engine unit :=
  _ ← require_active session_id;
  record ← load_active_record session_id;
  _ ← lift (ensure
        (bool_decide (record.(SessionRecord.session).(Session.state) = SessionState.IntentDurable)
         && forallb (λ o, bool_decide (o.(OperationRecord.state) = OperationState.IntentRecorded))
              record.(SessionRecord.operations))
        (SysboostError.new ErrorCode.InvariantViolation
           "only an unapplied durable intent can be aborted"
         |> SysboostError.with_stage Stage.DurableIntent
         |> SysboostError.with_session session_id));
  _ ← mut_map_err (contextual Stage.DurableIntent (Some session_id) None)
        (on_store (CRemove session_id) (SessionStateStore.remove session_id));
  modify (set_active None).

(** Read one durable status. *)
Definition status (session_id : SessionId.t) : Mut engine TransactionStatus.t :=
  record ← load_active_record session_id;
  mret (TransactionStatus.mk session_id record.(SessionRecord.session).(Session.state)).

(** ** Methods over the engine and a record *)

Abbreviation both := (engine * SessionRecord.t)%type.

Definition on_engine {A} (m : Mut engine A) : Mut both A := λ '(e, r),
  let '(res, e') := m e in (res, (e', r)).

Definition on_record {A} (m : Mut SessionRecord.t A) : Mut both A := λ '(e, r),
  let '(res, r') := m r in (res, (e, r')).

(** The scope of a local [mut record]. *)
Definition with_record {A} (record : SessionRecord.t) (m : Mut both A) : Mut engine A := λ e,
  let '(res, (e', _)) := m (e, record) in (res, e').

Definition get_record : Mut both SessionRecord.t := λ s, (Ok (snd s), s).

Definition session_state (r : SessionRecord.t) : SessionState.t :=
  r.(SessionRecord.session).(Session.state).

(** [self.persist(record, stage)] *)
Definition persist_record (stage : Stage.t) : Mut both unit :=
  record ← get_record; on_engine (persist record stage).

(** [self.now(stage).unwrap_or(Timestamp::from_unix_millis(0))] *)
Definition now_or_zero (stage : Stage.t) : Mut both Timestamp.t :=
  at_ ← catch (on_engine (now stage));
  mret match at_ with Ok at_ => at_ | Err _ => Timestamp.from_unix_millis 0 end.

(** ** Restore *)

(** What one iteration pushes to [failures], and whether it sets
    [uncertain]. *)
Abbreviation outcome := (list SysboostError.t * bool)%type.

(** [if let Err(error) = self.persist(..) { record.record_failure(&error);
    failures.push(error); uncertain = true; }] *)
Definition persist_or_note (stage : Stage.t) : Mut both outcome :=
  res ← catch (persist_record stage);
  match res with
  | Ok _ => mret ([], false)
  | Err e => _ ← on_record (SessionRecord.record_failure e); mret ([e], true)
  end.

(** [let _ = record.fail_restore(..); let _ = self.persist(..);
    failures.push(error);] *)
Definition note_failure (id : MutationId.t) (e : SysboostError.t) : Mut both outcome :=
  _ ← ignore (on_record (SessionRecord.fail_restore id e));
  _ ← ignore (persist_record Stage.Restore);
  mret ([e], false).

Definition conclude_restore (id : MutationId.t) (receipt : RestoreReceipt.t) : Mut both outcome :=
  res ← catch (on_record (SessionRecord.record_restore id receipt));
  match res with
  | Err e => mret ([e], true)
  | Ok _ => persist_or_note Stage.Restore
  end.

(** Compare and restore: the target is overwritten only when it still holds
    the value this session wrote. *)
Definition compare_and_restore (session_id : SessionId.t) (m : PlannedMutation.t)
    (snapshot : Snapshot.t) (ownership : StateFingerprint.t) : Mut both outcome :=
  let id := m.(PlannedMutation.mutation_id) in
  let original := snapshot.(Snapshot.original_fingerprint) in
  current ← catch (on_engine (backend_verify m original snapshot.(Snapshot.target_identity)));
  match current with
  | Err e => note_failure id (contextual Stage.Restore (Some session_id) (Some id) e)
  | Ok observed =>
    if bool_decide (observed = original)
    then conclude_restore id (RestoreReceipt.mk id observed true)
    else if bool_decide (observed ≠ ownership)
    then note_failure id (op_error ErrorCode.RestoreConflict
           "target changed outside the session; compare-and-restore refused to overwrite it"
           Stage.Restore session_id id)
    else
      restored ← catch (on_engine (backend_restore m snapshot ownership));
      match restored with
      | Ok receipt =>
        if bool_decide (receipt.(RestoreReceipt.mutation_id) = id)
           && receipt.(RestoreReceipt.verified)
           && bool_decide (receipt.(RestoreReceipt.restored_fingerprint) = original)
        then conclude_restore id receipt
        else note_failure id (op_error ErrorCode.RestoreError
               "backend restore did not prove the original fingerprint"
               Stage.Restore session_id id)
      | Err e => note_failure id (contextual Stage.Restore (Some session_id) (Some id) e)
      end
  end.

(** One iteration of the reverse loop of [restore_record].  The index is
    always in range: no step changes the number of operations. *)
Definition restore_step (session_id : SessionId.t) (index : nat) : Mut both outcome :=
  record ← get_record;
  match record.(SessionRecord.operations) !! index with
  | None => mret ([], false)
  | Some o =>
    let id := OperationRecord.id o in
    if bool_decide (o.(OperationRecord.state) = OperationState.Restored) then mret ([], false)
    else
    match o.(OperationRecord.apply_receipt), o.(OperationRecord.snapshot) with
    | None, _ =>
      if bool_decide (o.(OperationRecord.state) = OperationState.Applying)
      then
        let e := op_error ErrorCode.JournalCorrupt
                   "operation may have applied before its receipt became durable"
                   Stage.Recovery session_id id in
        _ ← on_record (SessionRecord.record_failure e); mret ([e], true)
      else mret ([], false)
    | Some _, None =>
      let e := op_error ErrorCode.InvariantViolation
                 "applied operation is missing its original snapshot"
                 Stage.Restore session_id id in
      _ ← on_record (SessionRecord.record_failure e); mret ([e], true)
    | Some receipt, Some snapshot =>
      started ← catch (on_record (SessionRecord.begin_restore_operation id));
      match started with
      | Err e => mret ([e], true)
      | Ok _ =>
        '(failures1, uncertain1) ← persist_or_note Stage.Restore;
        '(failures2, uncertain2) ← compare_and_restore session_id o.(OperationRecord.mutation)
          snapshot receipt.(ApplyReceipt.ownership_fingerprint);
        mret (failures1 ++ failures2, uncertain1 || uncertain2)
      end
    end
  end.

Fixpoint restore_loop (session_id : SessionId.t) (indices : list nat) : Mut both outcome :=
  match indices with
  | [] => mret ([], false)
  | index :: rest =>
    '(failures1, uncertain1) ← restore_step session_id index;
    '(failures2, uncertain2) ← restore_loop session_id rest;
    mret (failures1 ++ failures2, uncertain1 || uncertain2)
  end.

(** The end of [restore_record], after the loop. *)
Definition finish_restore (session_id : SessionId.t) (at_ : Timestamp.t)
    (failures : list SysboostError.t) (uncertain : bool) : Mut both SessionState.t :=
  record ← get_record;
  if bool_decide (failures = []) && SessionRecord.restoration_proven record && negb uncertain
  then
    _ ← (if bool_decide (session_state record ≠ SessionState.Restored)
         then on_record (SessionRecord.transition SessionState.Restored at_
                           "all captured originals verified")
         else mret tt);
    _ ← persist_record Stage.Restore;
    _ ← on_engine (release_if_restored session_id);
    mret SessionState.Restored
  else
    _ ← on_record (mut_for_each SessionRecord.record_failure failures);
    _ ← (if bool_decide (session_state record = SessionState.Restoring)
            || bool_decide (session_state record = SessionState.RollingBack)
         then on_record (SessionRecord.transition SessionState.Degraded at_
                           "one or more originals remain unproven")
         else mret tt);
    _ ← (if uncertain
         then on_record (SessionRecord.transition SessionState.RecoveryPending at_
                           "crash or durability boundary left recovery uncertain")
         else mret tt);
    res ← catch (persist_record Stage.Recovery);
    let failures := match res with Ok _ => failures | Err e => failures ++ [e] end in
    throw match failures with
          | e :: _ => e
          | [] => SysboostError.new ErrorCode.RestoreError
                    "original state could not be proven restored"
                  |> SysboostError.with_stage Stage.Restore
                  |> SysboostError.with_session session_id
          end.

Definition restore_record : Mut both SessionState.t :=
  record ← get_record;
  let session_id := SessionRecord.session_id record in
  at_ ← now_or_zero Stage.Restore;
  '(failures, uncertain) ←
    restore_loop session_id (rev (seq 0 (length record.(SessionRecord.operations))));
  finish_restore session_id at_ failures uncertain.

Definition prepare_restore_state : Mut both unit :=
  at_ ← on_engine (now Stage.Restore);
  record ← get_record;
  match session_state record with
  | SessionState.Active =>
    _ ← on_record (SessionRecord.transition SessionState.Restoring at_ "normal restore started");
    persist_record Stage.Restore
  | SessionState.Degraded =>
    _ ← on_record (SessionRecord.transition SessionState.RecoveryPending at_
                     "retrying degraded restore");
    _ ← on_record (SessionRecord.transition SessionState.Restoring at_
                     "recovery restore started");
    persist_record Stage.Restore
  | SessionState.RecoveryPending =>
    _ ← on_record (SessionRecord.transition SessionState.Restoring at_
                     "recovery restore resumed");
    persist_record Stage.Restore
  | SessionState.IntentDurable | SessionState.Applying =>
    _ ← on_record (SessionRecord.transition SessionState.RollingBack at_
                     "rollback/recovery started");
    persist_record Stage.Restore
  | SessionState.RollingBack | SessionState.Restoring => persist_record Stage.Restore
  | SessionState.Restored => mret tt
  | state =>
    throw (SysboostError.new ErrorCode.InvariantViolation
             ("restore is not legal from durable state " +:+ debug_state state)
           |> SysboostError.with_stage Stage.Restore
           |> SysboostError.with_session (SessionRecord.session_id record))
  end.

(** [from_apply] is [true] at every call. *)
Definition rollback_after_failure (record : SessionRecord.t) (trigger : SysboostError.t)
    (from_apply : bool) : Mut engine SessionState.t :=
  let session_id := SessionRecord.session_id record in
  with_record record (
    _ ← (if from_apply then
           at_ ← now_or_zero Stage.Recovery;
           let next := match session_state record with
                       | SessionState.Applying | SessionState.IntentDurable =>
                         Some (SessionState.RollingBack,
                               "apply failure triggered reverse rollback")
                       | SessionState.Active =>
                         Some (SessionState.Restoring,
                               "apply durability failure triggered normal restore")
                       | _ => None
                       end in
           match next with
           | Some (next, reason) =>
             res ← catch (on_record (SessionRecord.transition next at_ reason));
             match res with
             | Ok _ => mret tt
             | Err e => on_record (SessionRecord.record_failure e)
             end
           | None => mret tt
           end
         else mret tt);
    res ← catch (persist_record Stage.Recovery);
    _ ← match res with
        | Ok _ => mret tt
        | Err e => on_record (SessionRecord.record_failure e)
        end;
    restored ← catch restore_record;
    match restored with
    | Ok SessionState.Restored => throw trigger
    | Ok state =>
      throw (SysboostError.new ErrorCode.RestoreError
               ("transaction failed and ended in " +:+ debug_state state)
             |> SysboostError.with_stage Stage.Recovery
             |> SysboostError.with_session session_id)
    | Err e => throw (combine_failure trigger e session_id)
    end).

Definition restore (session_id : SessionId.t) : Mut engine SessionState.t :=
  e ← get;
  shortcut ← match e.(active) with
             | Some _ => mret false
             | None =>
               record ← load_active_record session_id;
               mret (bool_decide (session_state record = SessionState.Restored))
             end;
  if (shortcut : bool) then mret SessionState.Restored else
  _ ← require_active session_id;
  record ← load_active_record session_id;
  if bool_decide (session_state record = SessionState.Restored)
  then _ ← release_if_restored session_id; mret SessionState.Restored
  else with_record record (
         _ ← prepare_restore_state;
         state ← restore_record;
         if bool_decide (state = SessionState.Restored)
         then _ ← on_engine (release_if_restored session_id); mret state
         else mret state).

(** ** Apply *)

(** [record.operations[index].transition(next)?] *)
Definition transition_at (index : nat) (next : OperationState.t) : Mut SessionRecord.t unit :=
  λ r, match r.(SessionRecord.operations) !! index with
       | Some o =>
         let '(res, o') := OperationRecord.transition next o in
         (res, SessionRecord.set_operations (<[index := o']> r.(SessionRecord.operations)) r)
       | None => (Ok tt, r)
       end.

(** [record.record_failure(&error); return rollback(record, error)] *)
Definition fail_with (e : SysboostError.t) : Mut both (option SysboostError.t) :=
  _ ← on_record (SessionRecord.record_failure e); mret (Some e).

(** [let _ = record.fail_operation(..); let _ = self.persist(..);
    return rollback(record, error)] *)
Definition fail_operation_with (id : MutationId.t) (stage : Stage.t) (e : SysboostError.t) :
    Mut both (option SysboostError.t) :=
  _ ← ignore (on_record (SessionRecord.fail_operation id e));
  _ ← ignore (persist_record stage);
  mret (Some e).

(** The readback of one applied operation. *)
Definition verify_step (session_id : SessionId.t) (m : PlannedMutation.t)
    (snapshot : Snapshot.t) (receipt : ApplyReceipt.t) : Mut both (option SysboostError.t) :=
  let id := m.(PlannedMutation.mutation_id) in
  let expected := receipt.(ApplyReceipt.ownership_fingerprint) in
  observed ← catch (on_engine (backend_verify m expected snapshot.(Snapshot.target_identity)));
  match observed with
  | Err e =>
    _ ← on_record (SessionRecord.record_verification id
          (VerificationResult.mk id expected None false));
    fail_operation_with id Stage.Verify (contextual Stage.Verify (Some session_id) (Some id) e)
  | Ok observed =>
    let matched := bool_decide (observed = expected) in
    _ ← on_record (SessionRecord.record_verification id
          (VerificationResult.mk id expected (Some observed) matched));
    if negb matched
    then fail_operation_with id Stage.Verify
           (op_error ErrorCode.VerificationError
              "apply readback did not match the session-owned value" Stage.Verify session_id id)
    else
      res ← catch (persist_record Stage.Verify);
      match res with Ok _ => mret None | Err e => fail_with e end
  end.

(** One operation at durable intent: mark it [Applying] on disk, then call
    the backend. *)
Definition apply_operation (session_id : SessionId.t) (index : nat) (o : OperationRecord.t) :
    Mut both (option SysboostError.t) :=
  let id := OperationRecord.id o in
  let m := o.(OperationRecord.mutation) in
  _ ← on_record (transition_at index OperationState.Applying);
  marked ← catch (persist_record Stage.Apply);
  match marked with
  | Err e => fail_with e
  | Ok _ =>
    snapshot ← lift (ok_or o.(OperationRecord.snapshot)
                 (op_error ErrorCode.InvariantViolation
                    "durable intent operation is missing its snapshot"
                    Stage.Apply session_id id));
    applied ← catch (on_engine (backend_apply m snapshot));
    match applied with
    | Err e =>
      let e := contextual Stage.Apply (Some session_id) (Some id) e in
      _ ← (if bool_decide (e.(SysboostError.retryability) ≠ Retryability.Unknown)
           then ignore (on_record (SessionRecord.fail_operation id e))
           else on_record (SessionRecord.record_failure e));
      _ ← ignore (persist_record Stage.Apply);
      mret (Some e)
    | Ok receipt =>
      if bool_decide (receipt.(ApplyReceipt.mutation_id) ≠ id)
         || bool_decide (receipt.(ApplyReceipt.observed_precondition)
                         ≠ m.(PlannedMutation.precondition))
         || bool_decide (receipt.(ApplyReceipt.observed_postcondition)
                         ≠ receipt.(ApplyReceipt.ownership_fingerprint))
      then
        _ ← on_record (SessionRecord.record_apply id receipt);
        fail_operation_with id Stage.Apply
          (op_error ErrorCode.ApplyError
             "backend apply receipt failed its typed identity or precondition checks"
             Stage.Apply session_id id)
      else
        _ ← on_record (SessionRecord.record_apply id receipt);
        res ← catch (persist_record Stage.Apply);
        match res with
        | Err e => fail_with e
        | Ok _ => verify_step session_id m snapshot receipt
        end
    end
  end.

(** One iteration of the loop of [apply]: [Some e] returns through
    [rollback_after_failure]. *)
Definition apply_step (session_id : SessionId.t) (index : nat) : Mut both (option SysboostError.t) :=
  record ← get_record;
  match record.(SessionRecord.operations) !! index with
  | None => mret None
  | Some o =>
    match o.(OperationRecord.state) with
    | OperationState.Verified | OperationState.Restored => mret None
    | OperationState.Applying =>
      fail_with (op_error ErrorCode.JournalCorrupt
                   "crash-state shows an apply with no durable completion"
                   Stage.Recovery session_id (OperationRecord.id o))
    | OperationState.IntentRecorded => apply_operation session_id index o
    | _ =>
      fail_with (op_error ErrorCode.InvariantViolation
                   "operation is not at durable intent before apply"
                   Stage.Apply session_id (OperationRecord.id o))
    end
  end.

Fixpoint apply_loop (session_id : SessionId.t) (indices : list nat) :
    Mut both (option SysboostError.t) :=
  match indices with
  | [] => mret None
  | index :: rest =>
    failed ← apply_step session_id index;
    match failed with
    | Some e => mret (Some e)
    | None => apply_loop session_id rest
    end
  end.

(** The body of [apply] once the record is at durable intent: [None] when
    the session is active. *)
Definition apply_record (session_id : SessionId.t) : Mut both (option SysboostError.t) :=
  record ← get_record;
  at_ ← on_engine (now Stage.Apply);
  _ ← on_record (SessionRecord.transition SessionState.Applying at_
                   "ordered mutation application started");
  started ← catch (persist_record Stage.Apply);
  match started with
  | Err e => fail_with e
  | Ok _ =>
    failed ← apply_loop session_id (seq 0 (length record.(SessionRecord.operations)));
    match failed with
    | Some e => mret (Some e)
    | None =>
      at_ ← on_engine (now Stage.Verify);
      _ ← on_record (SessionRecord.transition SessionState.Active at_
                       "all ordered applies and readbacks verified");
      res ← catch (persist_record Stage.Verify);
      match res with Ok _ => mret None | Err e => fail_with e end
    end
  end.

Definition apply (session_id : SessionId.t) : Mut engine SessionState.t :=
  _ ← require_active session_id;
  record ← load_active_record session_id;
  match session_state record with
  | SessionState.IntentDurable =>
    '(failed, record') ← with_record record (
       failed ← apply_record session_id; record' ← get_record; mret (failed, record'));
    match failed with
    | None => mret SessionState.Active
    | Some e => rollback_after_failure record' e true
    end
  | SessionState.Active => mret SessionState.Active
  | SessionState.Restored => _ ← release_if_restored session_id; mret SessionState.Restored
  | state =>
    throw (SysboostError.new ErrorCode.InvariantViolation
             ("apply is not legal from durable state " +:+ debug_state state)
           |> SysboostError.with_stage Stage.Apply
           |> SysboostError.with_session session_id)
  end.

(** ** Recovery *)

(** One record of [recover_unfinished]: the status pushed for it and the
    error, if any. *)
Definition recover_one (record : SessionRecord.t) :
    Mut engine (TransactionStatus.t * option SysboostError.t) :=
  let session_id := SessionRecord.session_id record in
  with_record record (
    prepared ← catch prepare_restore_state;
    match prepared with
    | Err e =>
      record' ← get_record;
      mret (TransactionStatus.mk session_id (session_state record'), Some e)
    | Ok _ =>
      restored ← catch restore_record;
      match restored with
      | Ok state => mret (TransactionStatus.mk session_id state, None)
      | Err e =>
        record' ← get_record;
        mret (TransactionStatus.mk session_id (session_state record'), Some e)
      end
    end).

(** The statuses in order and the first error. *)
Fixpoint recover_loop (records : list SessionRecord.t) :
    Mut engine (list TransactionStatus.t * option SysboostError.t) :=
  match records with
  | [] => mret ([], None)
  | record :: rest =>
    '(status, error) ← recover_one record;
    '(statuses, error') ← recover_loop rest;
    mret (status :: statuses, match error with Some e => Some e | None => error' end)
  end.

(** The session the retained lease is bound to. *)
Definition unresolved (statuses : list TransactionStatus.t) : option SessionId.t :=
  match List.find (λ s, negb (is_restored_status s)) statuses with
  | Some s => Some s.(TransactionStatus.session_id)
  | None => TransactionStatus.session_id <$> head statuses
  end.

Definition recover_unfinished : Mut engine (list TransactionStatus.t) :=
  e ← get;
  match e.(active) with
  | Some _ =>
    throw (SysboostError.new ErrorCode.AuthorizationError
             "cannot recover while this coordinator owns an active session")
  | None =>
    res ← with_guard Stage.Recovery (λ guard,
      records ← read_store SessionStateStore.load_unfinished;
      let records := merge_sort session_le records in
      '(statuses, error) ← recover_loop records;
      if forallb is_restored_status statuses && is_none error
      then mret (Ok statuses, false)
      else
        match unresolved statuses with
        | Some session_id =>
          _ ← modify (set_active (Some (session_id, guard)));
          mret (Err match error with
                    | Some e => e
                    | None => SysboostError.new ErrorCode.RestoreError
                                "one or more unfinished sessions remain unresolved"
                              |> SysboostError.with_stage Stage.Recovery
                              |> SysboostError.with_session session_id
                    end, true)
        | None => mret (Ok statuses, false) (* no status: handled above *)
        end);
    lift res
  end.
End Engine.
