(* ===== verification/EngineTrace.v ===== *)
(** * The order of the engine's calls

    Write-ahead: the backend applies an operation only right after a record
    that marks it [Applying] and holds its snapshot was durably replaced.
    Compare and restore: the backend restores only right after the target
    was read back and still held the value this session wrote.  Both hold
    for every call the engine ever makes, whatever its ports answer. *)
From S2P Require Import Prelude Lists Text Ids Mut Capability Mutation Plan Session.
From S2P Require Import Record Ports Engine.
#[local] Set Default Proof Using "Type*".

(** ** Guarded traces *)

Definition apply_guard (before : list call) (m : PlannedMutation.t) (s : Snapshot.t) : Prop :=
  ∃ r o, last before = Some (CReplace r (Ok tt)) ∧ o ∈ r.(SessionRecord.operations)
    ∧ o.(OperationRecord.mutation) = m ∧ o.(OperationRecord.snapshot) = Some s
    ∧ o.(OperationRecord.state) = OperationState.Applying.

Definition restore_guard (before : list call) (m : PlannedMutation.t) (s : Snapshot.t)
    (ownership : StateFingerprint.t) : Prop :=
  ownership ≠ s.(Snapshot.original_fingerprint)
  ∧ last before = Some (CVerify m s.(Snapshot.original_fingerprint)
                          s.(Snapshot.target_identity) (Ok ownership)).

Definition call_guard (before : list call) (c : call) : Prop :=
  match c with
  | CApply m s _ => apply_guard before m s
  | CRestore m s ownership _ => restore_guard before m s ownership
  | _ => True
  end.

Definition guarded (tr : list call) : Prop :=
  ∀ i c, tr !! i = Some c → call_guard (take i tr) c.

Lemma guarded_nil : guarded [].
Proof. intros i c. by rewrite lookup_nil. Qed.

Lemma guarded_snoc tr c : guarded tr → call_guard tr c → guarded (tr ++ [c]).
Proof.
  intros Hg Hc i d [[Hi Hd]|[-> ->]]%lookup_snoc_Some.
  - rewrite take_app_le by (apply Nat.lt_le_incl; done). by apply Hg.
  - by rewrite take_app_length.
Qed.

(** Calls that need no guard. *)
Definition free (c : call) : bool :=
  match c with CApply _ _ _ | CRestore _ _ _ _ => false | _ => true end.

Lemma guarded_free tr c : guarded tr → free c = true → guarded (tr ++ [c]).
Proof. intros Hg Hf. apply guarded_snoc; [done|]. by destruct c. Qed.

(** ** Lifting to the engine and its record *)

Definition on_fst {A B} (R : A → A → Prop) (s s' : A * B) : Prop := R (fst s) (fst s').
Definition on_snd {A B} (R : B → B → Prop) (s s' : A * B) : Prop := R (snd s) (snd s').

#[export] Instance on_fst_preorder {A B} (R : A → A → Prop) `{!PreOrder R} :
  PreOrder (on_fst (B := B) R).
Proof. unfold on_fst. split; [by intros ?|intros ???; by etrans]. Qed.
#[export] Instance on_snd_preorder {A B} (R : B → B → Prop) `{!PreOrder R} :
  PreOrder (on_snd (A := A) R).
Proof. unfold on_snd. split; [by intros ?|intros ???; by etrans]. Qed.

Section Lifting.
Context {B St L G I C : Type}.
Context `{!MutationBackend.t B, !SessionStateStore.t St, !ExclusiveSessionLock.t L G,
          !SessionIdSource.t I, !Clock.t C}.
Abbreviation engine := (TransactionEngine.t B St L G I C).
Abbreviation both := (engine * SessionRecord.t)%type.
Context (R : engine → engine → Prop) `{!PreOrder R}.

Lemma Keeps_on_engine {A} (m : Mut engine A) : Keeps R m → Keeps (on_fst R) (on_engine m).
Proof using Type.
  intros Hm [e r] res s'. unfold on_engine. destruct (m e) as [x e'] eqn:E.
  intros [= _ <-]. by eapply Hm.
Qed.

Lemma Keeps_on_record {A} (m : Mut SessionRecord.t A) :
  Keeps (on_fst R) (on_record (B := B) (St := St) (L := L) (G := G) (I := I) (C := C) m).
Proof.
  intros [e r] res s'. unfold on_record. destruct (m r) as [x r'].
  intros [= _ <-]. unfold on_fst. cbn. reflexivity.
Qed.

Lemma Keeps_get_record :
  Keeps (on_fst R) (get_record (B := B) (St := St) (L := L) (G := G) (I := I) (C := C)).
Proof. intros s res s' [= _ <-]. by destruct s. Qed.

Lemma Keeps_with_record {A} r (m : Mut both A) :
  Keeps (on_fst R) m → Keeps R (with_record r m).
Proof using Type.
  intros Hm e res e'. unfold with_record. destruct (m (e, r)) as [x [e1 r1]] eqn:E.
  intros [= _ <-]. by apply Hm in E.
Qed.
End Lifting.
#[export] Hint Resolve Keeps_on_engine Keeps_on_record Keeps_get_record Keeps_with_record : keeps.

Section Trace.
Context {B St L G I C : Type}.
Context `{!MutationBackend.t B, !SessionStateStore.t St, !ExclusiveSessionLock.t L G,
          !SessionIdSource.t I, !Clock.t C}.
Abbreviation engine := (TransactionEngine.t B St L G I C).
Abbreviation both := (engine * SessionRecord.t)%type.

(** A call sequence that was guarded stays guarded. *)
Definition Safe : engine → engine → Prop := Invariant (λ e, guarded e.(TransactionEngine.trace)).

#[local] Instance Safe_preorder : PreOrder Safe.
Proof. apply Invariant_preorder. Qed.

(** ** Port calls *)

Lemma Safe_trace {A} (m : Mut engine A) :
  Keeps (Frame TransactionEngine.trace) m → Keeps Safe m.
Proof. intros Hm. eapply Keeps_weaken; [done|]. unfold Frame, Safe, Invariant. by intros s s' ->. Qed.

Lemma Safe_on_backend {A} (c : Result A → call) (m : Mut B A) :
  (∀ r, free (c r) = true) → Keeps Safe (on_backend c m : Mut engine A).
Proof.
  intros Hc e res e'. unfold on_backend. destruct (m (TransactionEngine.backend e)) as [r b].
  intros [= _ <-] Hg. by apply guarded_free.
Qed.

Lemma Safe_on_store (c : Result unit → call) (m : Mut St unit) :
  (∀ r, free (c r) = true) → Keeps Safe (on_store c m : Mut engine unit).
Proof.
  intros Hc e res e'. unfold on_store. destruct (m (TransactionEngine.state_store e)) as [r b].
  intros [= _ <-] Hg. by apply guarded_free.
Qed.

Lemma Frame_read_store {A} (m : Mut St A) :
  Keeps (Frame TransactionEngine.trace) (read_store m : Mut engine A).
Proof. intros e res e'. unfold read_store. destruct (m _). by intros [= _ <-]. Qed.
Lemma Frame_id_source {A} (m : Mut I A) :
  Keeps (Frame TransactionEngine.trace) (on_id_source m : Mut engine A).
Proof. intros e res e'. unfold on_id_source. destruct (m _). by intros [= _ <-]. Qed.
Lemma Frame_clock {A} (m : Mut C A) :
  Keeps (Frame TransactionEngine.trace) (on_clock m : Mut engine A).
Proof. intros e res e'. unfold on_clock. destruct (m _). by intros [= _ <-]. Qed.
Lemma Frame_acquire : Keeps (Frame TransactionEngine.trace) (acquire : Mut engine G).
Proof. intros e res e'. unfold acquire. destruct (ExclusiveSessionLock.acquire _). by intros [= _ <-]. Qed.

Lemma Safe_now stage : Keeps Safe (now stage : Mut engine Timestamp.t).
Proof. apply Keeps_map_err, Safe_trace, Frame_clock. Qed.

Lemma Safe_persist r stage : Keeps Safe (persist r stage : Mut engine unit).
Proof. apply Keeps_map_err, Safe_on_store. done. Qed.

Lemma Safe_load id : Keeps Safe (load_active_record id : Mut engine SessionRecord.t).
Proof. apply Keeps_map_err, Safe_trace, Frame_read_store. Qed.

Lemma Safe_snapshot m at_ : Keeps Safe (backend_snapshot m at_ : Mut engine _).
Proof. apply Safe_on_backend. done. Qed.

Lemma Safe_verify m f i : Keeps Safe (backend_verify m f i : Mut engine _).
Proof. apply Safe_on_backend. done. Qed.

Lemma set_active_trace lease (e : engine) :
  TransactionEngine.trace (set_active lease e) = TransactionEngine.trace e.
Proof. unfold set_active. by destruct (TransactionEngine.active e) as [[]|]. Qed.

Lemma Safe_set_active lease : Keeps Safe (modify (set_active lease) : Mut engine unit).
Proof.
  apply Safe_trace. intros e res e' [= _ <-]. unfold Frame. by rewrite set_active_trace.
Qed.

Lemma Frame_release id :
  Keeps (Frame TransactionEngine.trace) (release_if_restored id : Mut engine unit).
Proof.
  intros e res e'. unfold release_if_restored, Frame.
  destruct (TransactionEngine.active e) as [[id' g]|] eqn:Ea; [case_bool_decide|];
    intros [= _ <-]; by rewrite ?set_active_trace.
Qed.

Lemma Safe_release id : Keeps Safe (release_if_restored id : Mut engine unit).
Proof. apply Safe_trace, Frame_release. Qed.

Lemma Safe_require id : Keeps Safe (require_active id : Mut engine unit).
Proof.
  apply Safe_trace. intros e res e'. unfold require_active, Frame.
  destruct (TransactionEngine.active e) as [[id' g]|]; [case_bool_decide|]; by intros [= _ <-].
Qed.

Lemma Safe_with_guard {A} stage (body : G → Mut engine (A * bool)) :
  (∀ g, Keeps Safe (body g)) → Keeps Safe (with_guard stage body).
Proof.
  intros Hb. apply Keeps_bind; [apply _|apply Keeps_map_err, Safe_trace, Frame_acquire|].
  intros g e res e'. destruct (body g e) as [[[a []]|x] e1] eqn:E; apply Hb in E;
    intros [= _ <-]; done.
Qed.
#[local] Hint Resolve Safe_now Safe_persist Safe_load Safe_snapshot Safe_verify
  Safe_set_active Safe_release Safe_require Safe_with_guard : keeps.

Lemma Safe_persist_record stage : Keeps (on_fst Safe) (persist_record stage : Mut both unit).
Proof. unfold persist_record. keeps. Qed.

Lemma Safe_now_or_zero stage : Keeps (on_fst Safe) (now_or_zero stage : Mut both _).
Proof. unfold now_or_zero. keeps. Qed.
#[local] Hint Resolve Safe_persist_record Safe_now_or_zero : keeps.

(** ** Prepare and abort *)

Lemma Safe_capture_all at_ l : Keeps Safe (capture_all at_ l : Mut engine _).
Proof. induction l as [|m l IH]; cbn [capture_all]; keeps. Qed.
#[local] Hint Resolve Safe_capture_all : keeps.

Lemma Safe_create_session n plan at_ snaps g :
  Keeps Safe (create_session n plan at_ snaps g : Mut engine _).
Proof.
  induction n as [|n IH]; cbn [create_session]; keeps.
  - apply Safe_trace, Frame_id_source.
  - by apply Safe_on_store.
Qed.
#[local] Hint Resolve Safe_create_session : keeps.

Lemma Safe_prepare plan : Keeps Safe (prepare plan : Mut engine _).
Proof.
  unfold prepare. keeps. apply Safe_with_guard. intros g. keeps.
  apply Safe_trace, Frame_read_store.
Qed.

Lemma Safe_abort id : Keeps Safe (abort_prepared id : Mut engine _).
Proof. unfold abort_prepared. keeps. by apply Safe_on_store. Qed.

Lemma Safe_status id : Keeps Safe (status id : Mut engine _).
Proof. unfold status. keeps. Qed.

(** ** Restore *)

Lemma Safe_persist_or_note stage : Keeps (on_fst Safe) (persist_or_note stage : Mut both _).
Proof. unfold persist_or_note. keeps. Qed.

Lemma Safe_note_failure id e : Keeps (on_fst Safe) (note_failure id e : Mut both _).
Proof. unfold note_failure. keeps. Qed.
#[local] Hint Resolve Safe_persist_or_note Safe_note_failure : keeps.

Lemma Safe_conclude_restore id r : Keeps (on_fst Safe) (conclude_restore id r : Mut both _).
Proof. unfold conclude_restore. keeps. Qed.
#[local] Hint Resolve Safe_conclude_restore : keeps.

(** One backend call seen through [catch]. *)
Lemma backend_call_run {A} (c : Result A → call) (m : Mut B A) (s : both) x s' :
  catch (on_engine (on_backend c m)) s = (x, s') →
  ∃ res, x = Ok res ∧ snd s' = snd s
    ∧ TransactionEngine.trace (fst s') = TransactionEngine.trace (fst s) ++ [c res].
Proof.
  intros (res & Hrun & ->)%catch_run. exists res. split; [done|].
  destruct s as [e r]. unfold on_engine, on_backend in Hrun.
  destruct (m (TransactionEngine.backend e)) as [y b]. by injection Hrun as <- <-.
Qed.

Lemma Safe_compare_and_restore id m snap own :
  Keeps (on_fst Safe) (compare_and_restore id m snap own : Mut both _).
Proof.
  intros s res s' Hrun Hg. unfold compare_and_restore in Hrun.
  apply mut_bind_cases in Hrun as [(e & Hc & _)|(x & s1 & Hc & Hk)].
  { apply catch_run in Hc as (? & ? & [=]). }
  apply backend_call_run in Hc as (y & [= ->] & _ & Ht).
  assert (guarded (TransactionEngine.trace (fst s1))) as Hg1
    by (rewrite Ht; by apply guarded_free).
  destruct y as [observed|e]; [|by eapply Safe_note_failure].
  case_bool_decide as Ho; [by eapply Safe_conclude_restore|].
  case_bool_decide as Hn; [by eapply Safe_note_failure|]. subst observed.
  apply mut_bind_cases in Hk as [(e & H' & _)|(x & s2 & H' & Hk)].
  { apply catch_run in H' as (? & ? & [=]). }
  apply backend_call_run in H' as (y & [= ->] & _ & Ht').
  assert (guarded (TransactionEngine.trace (fst s2))) as Hg2.
  { rewrite Ht'. apply guarded_snoc; [done|]. split; [done|]. by rewrite Ht, last_snoc. }
  destruct y as [receipt|e]; [|by eapply Safe_note_failure].
  destruct (_ && _ && _); [by eapply Safe_conclude_restore|by eapply Safe_note_failure].
Qed.
#[local] Hint Resolve Safe_compare_and_restore : keeps.

Lemma Safe_restore_step id i : Keeps (on_fst Safe) (restore_step id i : Mut both _).
Proof. unfold restore_step. keeps. Qed.
#[local] Hint Resolve Safe_restore_step : keeps.

Lemma Safe_restore_loop id l : Keeps (on_fst Safe) (restore_loop id l : Mut both _).
Proof. induction l as [|i l IH]; cbn [restore_loop]; keeps. Qed.
#[local] Hint Resolve Safe_restore_loop : keeps.

Lemma Safe_finish_restore id at_ f u : Keeps (on_fst Safe) (finish_restore id at_ f u : Mut both _).
Proof. unfold finish_restore. keeps. Qed.
#[local] Hint Resolve Safe_finish_restore : keeps.

Lemma Safe_restore_record : Keeps (on_fst Safe) (restore_record : Mut both _).
Proof. unfold restore_record. keeps. Qed.

Lemma Safe_prepare_restore : Keeps (on_fst Safe) (prepare_restore_state : Mut both _).
Proof. unfold prepare_restore_state. keeps. Qed.
#[local] Hint Resolve Safe_restore_record Safe_prepare_restore : keeps.

Lemma Safe_rollback r e b : Keeps Safe (rollback_after_failure r e b : Mut engine _).
Proof. unfold rollback_after_failure. apply Keeps_with_record. keeps. Qed.

Lemma Safe_restore id : Keeps Safe (restore id : Mut engine _).
Proof. unfold restore. keeps. apply Keeps_with_record. keeps. Qed.
#[local] Hint Resolve Safe_rollback : keeps.

(** ** Apply *)

Lemma Safe_fail_with e : Keeps (on_fst Safe) (fail_with e : Mut both _).
Proof. unfold fail_with. keeps. Qed.

Lemma Safe_fail_operation_with id stage e :
  Keeps (on_fst Safe) (fail_operation_with id stage e : Mut both _).
Proof. unfold fail_operation_with. keeps. Qed.
#[local] Hint Resolve Safe_fail_with Safe_fail_operation_with : keeps.

Lemma Safe_verify_step id m snap r : Keeps (on_fst Safe) (verify_step id m snap r : Mut both _).
Proof. unfold verify_step. keeps. Qed.
#[local] Hint Resolve Safe_verify_step : keeps.

(** [persist_record] seen through [catch]. *)
Lemma persist_run stage (s : both) x s' :
  catch (persist_record stage) s = (x, s') →
  ∃ res e, x = Ok (map_err e res) ∧ snd s' = snd s
    ∧ TransactionEngine.trace (fst s')
      = TransactionEngine.trace (fst s) ++ [CReplace (snd s) res].
Proof.
  intros (res & Hrun & ->)%catch_run. destruct s as [e r].
  unfold persist_record, get_record, on_engine, persist, mut_map_err, on_store in Hrun.
  unfold mbind, mut_bind in Hrun. cbn in Hrun.
  destruct (SessionStateStore.replace r (TransactionEngine.state_store e)) as [y b].
  injection Hrun as <- <-. by eexists y, _.
Qed.

Lemma transition_at_run i next o r r' :
  r.(SessionRecord.operations) !! i = Some o →
  transition_at i next r = (Ok tt, r') →
  r' = SessionRecord.set_operations
         (<[i := OperationRecord.set_state next o]> r.(SessionRecord.operations)) r.
Proof.
  intros Hi. unfold transition_at. rewrite Hi.
  destruct (OperationRecord.transition next o) as [res o'] eqn:E. intros [= -> <-].
  unfold OperationRecord.transition in E.
  destruct (negb _); [done|]. by injection E as <-.
Qed.

Lemma on_record_run {A} (m : Mut SessionRecord.t A) (s : both) res s' :
  on_record m s = (res, s') → fst s' = fst s ∧ m (snd s) = (res, snd s').
Proof.
  destruct s as [e r]. unfold on_record. destruct (m r) as [x r'] eqn:E. intros [= <- <-].
  cbn. by rewrite E.
Qed.

Lemma Safe_apply_operation id i o (s : both) res s' :
  (snd s).(SessionRecord.operations) !! i = Some o →
  apply_operation id i o s = (res, s') → on_fst Safe s s'.
Proof.
  intros Hi Hrun Hg. unfold apply_operation in Hrun.
  apply mut_bind_cases in Hrun as [(e & Hm & _)|([] & s1 & Hm & Hrun)];
    apply on_record_run in Hm as [He Hm]; [by rewrite He|].
  apply (transition_at_run _ _ _ _ _ Hi) in Hm. rewrite <-He in Hg. clear He.
  apply mut_bind_cases in Hrun as [(e & Hp & _)|(x & s2 & Hp & Hrun)].
  { apply catch_run in Hp as (? & ? & [=]). }
  apply persist_run in Hp as (y & e & [= ->] & Hr2 & Ht).
  assert (guarded (TransactionEngine.trace (fst s2))) as Hg2
    by (rewrite Ht; by apply guarded_free).
  destruct y as [[]|e']; cbn [map_err] in Hrun; [|by eapply Safe_fail_with].
  apply mut_bind_cases in Hrun as [(e2 & [= _ <-] & _)|(snap & s3 & [= Hsn <-] & Hrun)]; [done|].
  destruct (OperationRecord.snapshot o) as [sn|] eqn:Hos; [|done]. injection Hsn as ->.
  apply mut_bind_cases in Hrun as [(e2 & Hb & _)|(x & s3 & Hb & Hrun)].
  { apply catch_run in Hb as (? & ? & [=]). }
  apply backend_call_run in Hb as (z & [= ->] & _ & Ht').
  assert (guarded (TransactionEngine.trace (fst s3))) as Hg3.
  { rewrite Ht'. apply guarded_snoc; [done|].
    exists (snd s1), (OperationRecord.set_state OperationState.Applying o).
    rewrite Ht, last_snoc, Hm. split_and!; try done.
    apply list_elem_of_insert. by eapply lookup_lt_Some. }
  match type of Hrun with ?k _ = _ => assert (Keeps (on_fst Safe) k) as Hk by keeps end.
  by eapply Hk.
Qed.

Lemma Safe_apply_step id i : Keeps (on_fst Safe) (apply_step id i : Mut both _).
Proof.
  intros s res s' Hrun. unfold apply_step in Hrun.
  apply mut_bind_cases in Hrun as [(e & [=] & _)|(r & s1 & [= <- <-] & Hrun)].
  destruct (SessionRecord.operations (snd s) !! i) as [o|] eqn:Hi.
  - destruct (OperationRecord.state o);
      first [by eapply Safe_apply_operation|by eapply Safe_fail_with|by eapply Keeps_ret; [apply _|]].
  - by eapply Keeps_ret; [apply _|].
Qed.
#[local] Hint Resolve Safe_apply_step : keeps.

Lemma Safe_apply_loop id l : Keeps (on_fst Safe) (apply_loop id l : Mut both _).
Proof. induction l as [|i l IH]; cbn [apply_loop]; keeps. Qed.
#[local] Hint Resolve Safe_apply_loop : keeps.

Lemma Safe_apply_record id : Keeps (on_fst Safe) (apply_record id : Mut both _).
Proof. unfold apply_record. keeps. Qed.
#[local] Hint Resolve Safe_apply_record : keeps.

Lemma Safe_apply id : Keeps Safe (apply id : Mut engine _).
Proof. unfold apply. keeps. apply Keeps_with_record. keeps. Qed.

(** ** Recovery *)

Lemma Safe_recover_one r : Keeps Safe (recover_one r : Mut engine _).
Proof. unfold recover_one. apply Keeps_with_record. keeps. Qed.
#[local] Hint Resolve Safe_recover_one : keeps.

Lemma Safe_recover_loop l : Keeps Safe (recover_loop l : Mut engine _).
Proof. induction l as [|r l IH]; cbn [recover_loop]; keeps. Qed.
#[local] Hint Resolve Safe_recover_loop : keeps.

Lemma Safe_recover : Keeps Safe (recover_unfinished : Mut engine _).
Proof.
  unfold recover_unfinished. keeps. apply Safe_with_guard. intros g. keeps.
  apply Safe_trace, Frame_read_store.
Qed.

(** ** Every execution *)

(** A call of a public method, whatever it returns, or a change of the
    outside world between calls: other writers may change the host, and the
    store, lock, IDs and clock may move on, but the engine's lease and trace
    are its own. *)
Inductive engine_step : engine → engine → Prop :=
| step_prepare e plan res e' : prepare plan e = (res, e') → engine_step e e'
| step_abort e id res e' : abort_prepared id e = (res, e') → engine_step e e'
| step_apply_session e id res e' : apply id e = (res, e') → engine_step e e'
| step_restore_session e id res e' : restore id e = (res, e') → engine_step e e'
| step_recover e res e' : recover_unfinished e = (res, e') → engine_step e e'
| step_status e id res e' : status id e = (res, e') → engine_step e e'
| step_world e e' :
    TransactionEngine.active e' = TransactionEngine.active e →
    TransactionEngine.trace e' = TransactionEngine.trace e → engine_step e e'.

Lemma engine_step_guarded e e' :
  engine_step e e' → guarded (TransactionEngine.trace e) → guarded (TransactionEngine.trace e').
Proof.
  intros []; [by eapply Safe_prepare|by eapply Safe_abort|by eapply Safe_apply
    |by eapply Safe_restore|by eapply Safe_recover|by eapply Safe_status|].
  match goal with Ht : TransactionEngine.trace _ = _ |- _ => by rewrite Ht end.
Qed.

Lemma reachable_guarded b st l i c e :
  rtc engine_step (new b st l i c) e → guarded (TransactionEngine.trace e).
Proof.
  intros Hr. assert (guarded (TransactionEngine.trace (new (G := G) b st l i c))) as Hg
    by apply guarded_nil.
  induction Hr; eauto using engine_step_guarded.
Qed.

(** C2. Write-ahead: in every execution of an engine, from its construction on,
    the call just before a backend [apply] is a successful durable
    replacement of a record in which that operation is marked [Applying] and
    carries the very snapshot handed to the backend. *)
Theorem write_ahead_apply b st l i c e n m s res :
  rtc engine_step (new b st l i c) e →
  TransactionEngine.trace e !! n = Some (CApply m s res) →
  ∃ r o, last (take n (TransactionEngine.trace e)) = Some (CReplace r (Ok tt))
    ∧ o ∈ r.(SessionRecord.operations) ∧ o.(OperationRecord.mutation) = m
    ∧ o.(OperationRecord.snapshot) = Some s
    ∧ o.(OperationRecord.state) = OperationState.Applying.
Proof. intros Hr Hn. exact (reachable_guarded _ _ _ _ _ _ Hr n _ Hn). Qed.

(** C6. Compare and restore: in every execution, the call just before a backend
    [restore] is a readback of the same target that returned the ownership
    fingerprint handed to the backend, which differs from the captured
    original: the engine never overwrites a value it did not just see as its
    own. *)
Theorem compare_before_restore b st l i c e n m s own res :
  rtc engine_step (new b st l i c) e →
  TransactionEngine.trace e !! n = Some (CRestore m s own res) →
  own ≠ s.(Snapshot.original_fingerprint)
  ∧ last (take n (TransactionEngine.trace e))
    = Some (CVerify m s.(Snapshot.original_fingerprint) s.(Snapshot.target_identity) (Ok own)).
Proof. intros Hr Hn. exact (reachable_guarded _ _ _ _ _ _ Hr n _ Hn). Qed.
End Trace.

(** * Properties every engine method inherits from its port calls

    A preorder on engines that each port call keeps is kept by every method;
    which calls a method needs is visible in the lemma's hypotheses once the
    section is closed. *)
Unset Default Proof Using.

Section Walk.
Context {B St L G I C : Type}.
Context `{!MutationBackend.t B, !SessionStateStore.t St, !ExclusiveSessionLock.t L G,
          !SessionIdSource.t I, !Clock.t C}.
Abbreviation engine := (TransactionEngine.t B St L G I C).
Abbreviation both := (engine * SessionRecord.t)%type.
Context (R : engine → engine → Prop) `{!PreOrder R}.
Hypothesis R_snapshot : ∀ m at_, Keeps R (backend_snapshot m at_ : Mut engine _).
Hypothesis R_apply : ∀ m s, Keeps R (backend_apply m s : Mut engine _).
Hypothesis R_verify : ∀ m f i, Keeps R (backend_verify m f i : Mut engine _).
Hypothesis R_restore : ∀ m s f, Keeps R (backend_restore m s f : Mut engine _).
Hypothesis R_create : ∀ r,
  Keeps R (on_store (CCreate r) (SessionStateStore.create r) : Mut engine _).
Hypothesis R_replace : ∀ r,
  Keeps R (on_store (CReplace r) (SessionStateStore.replace r) : Mut engine _).
Hypothesis R_read : ∀ A (m : Mut St A), Keeps R (read_store m : Mut engine _).
Hypothesis R_clock : ∀ A (m : Mut C A), Keeps R (on_clock m : Mut engine _).
Hypothesis R_ids : ∀ A (m : Mut I A), Keeps R (on_id_source m : Mut engine _).
Hypothesis R_set_active : ∀ lease, Keeps R (modify (set_active lease) : Mut engine _).
Hypothesis R_release : ∀ id, Keeps R (release_if_restored id : Mut engine _).

Lemma walk_now stage : Keeps R (now stage : Mut engine _).
Proof. apply Keeps_map_err, R_clock. Qed.
Lemma walk_persist r stage : Keeps R (persist r stage : Mut engine _).
Proof. apply Keeps_map_err, R_replace. Qed.
#[local] Hint Resolve R_snapshot R_apply R_verify R_restore R_create R_replace R_read R_clock
  R_ids R_set_active R_release walk_now walk_persist : keeps.

Lemma walk_persist_record stage : Keeps (on_fst R) (persist_record stage : Mut both _).
Proof. unfold persist_record. keeps. Qed.
Lemma walk_now_or_zero stage : Keeps (on_fst R) (now_or_zero stage : Mut both _).
Proof. unfold now_or_zero. keeps. Qed.
#[local] Hint Resolve walk_persist_record walk_now_or_zero : keeps.

Lemma walk_capture_all at_ l : Keeps R (capture_all at_ l : Mut engine _).
Proof. induction l as [|m l IH]; cbn [capture_all]; keeps. Qed.

Lemma walk_create_session n plan at_ snaps g :
  Keeps R (create_session n plan at_ snaps g : Mut engine _).
Proof. induction n as [|n IH]; cbn [create_session]; keeps. Qed.

Lemma walk_persist_or_note stage : Keeps (on_fst R) (persist_or_note stage : Mut both _).
Proof. unfold persist_or_note. keeps. Qed.
Lemma walk_note_failure id e : Keeps (on_fst R) (note_failure id e : Mut both _).
Proof. unfold note_failure. keeps. Qed.
#[local] Hint Resolve walk_persist_or_note walk_note_failure : keeps.
Lemma walk_conclude_restore id r : Keeps (on_fst R) (conclude_restore id r : Mut both _).
Proof. unfold conclude_restore. keeps. Qed.
#[local] Hint Resolve walk_conclude_restore : keeps.
Lemma walk_compare id m snap own :
  Keeps (on_fst R) (compare_and_restore id m snap own : Mut both _).
Proof. unfold compare_and_restore. keeps. Qed.
#[local] Hint Resolve walk_compare : keeps.
Lemma walk_restore_step id i : Keeps (on_fst R) (restore_step id i : Mut both _).
Proof. unfold restore_step. keeps. Qed.
#[local] Hint Resolve walk_restore_step : keeps.
Lemma walk_restore_loop id l : Keeps (on_fst R) (restore_loop id l : Mut both _).
Proof. induction l as [|i l IH]; cbn [restore_loop]; keeps. Qed.
Lemma walk_finish_restore id at_ f u :
  Keeps (on_fst R) (finish_restore id at_ f u : Mut both _).
Proof. unfold finish_restore. keeps. Qed.
#[local] Hint Resolve walk_restore_loop walk_finish_restore : keeps.
Lemma walk_restore_record : Keeps (on_fst R) (restore_record : Mut both _).
Proof. unfold restore_record. keeps. Qed.
Lemma walk_prepare_restore : Keeps (on_fst R) (prepare_restore_state : Mut both _).
Proof. unfold prepare_restore_state. keeps. Qed.
#[local] Hint Resolve walk_restore_record walk_prepare_restore : keeps.
Lemma walk_rollback r e b : Keeps R (rollback_after_failure r e b : Mut engine _).
Proof. unfold rollback_after_failure. apply Keeps_with_record. keeps. Qed.

Lemma walk_fail_with e : Keeps (on_fst R) (fail_with e : Mut both _).
Proof. unfold fail_with. keeps. Qed.
Lemma walk_fail_operation_with id stage e :
  Keeps (on_fst R) (fail_operation_with id stage e : Mut both _).
Proof. unfold fail_operation_with. keeps. Qed.
#[local] Hint Resolve walk_fail_with walk_fail_operation_with : keeps.
Lemma walk_verify_step id m snap r : Keeps (on_fst R) (verify_step id m snap r : Mut both _).
Proof. unfold verify_step. keeps. Qed.
#[local] Hint Resolve walk_verify_step : keeps.
Lemma walk_apply_operation id i o : Keeps (on_fst R) (apply_operation id i o : Mut both _).
Proof. unfold apply_operation. keeps. Qed.
#[local] Hint Resolve walk_apply_operation : keeps.
Lemma walk_apply_step id i : Keeps (on_fst R) (apply_step id i : Mut both _).
Proof. unfold apply_step. keeps. Qed.
#[local] Hint Resolve walk_apply_step : keeps.
Lemma walk_apply_loop id l : Keeps (on_fst R) (apply_loop id l : Mut both _).
Proof. induction l as [|i l IH]; cbn [apply_loop]; keeps. Qed.
#[local] Hint Resolve walk_apply_loop : keeps.
Lemma walk_apply_record id : Keeps (on_fst R) (apply_record id : Mut both _).
Proof. unfold apply_record. keeps. Qed.

Lemma walk_recover_one r : Keeps R (recover_one r : Mut engine _).
Proof. unfold recover_one. apply Keeps_with_record. keeps. Qed.
#[local] Hint Resolve walk_recover_one : keeps.
Lemma walk_recover_loop l : Keeps R (recover_loop l : Mut engine _).
Proof. induction l as [|r l IH]; cbn [recover_loop]; keeps. Qed.
End Walk.

(** ** Appended calls *)

Section Appends.
Context {B St L G I C : Type}.
Context `{!MutationBackend.t B, !SessionStateStore.t St, !ExclusiveSessionLock.t L G,
          !SessionIdSource.t I, !Clock.t C}.
Abbreviation engine := (TransactionEngine.t B St L G I C).

(** Only calls that satisfy [P] were appended to the trace. *)
Definition Appends (P : call → Prop) (e e' : engine) : Prop :=
  ∃ t, TransactionEngine.trace e' = TransactionEngine.trace e ++ t ∧ Forall P t.

#[export] Instance Appends_preorder P : PreOrder (Appends P).
Proof.
  split.
  - intros e. exists []. by rewrite app_nil_r.
  - intros e1 e2 e3 (t1 & E1 & F1) (t2 & E2 & F2). exists (t1 ++ t2).
    rewrite E2, E1, app_assoc. split; [done|by apply Forall_app].
Qed.

Lemma Appends_frame P {A} (m : Mut engine A) :
  Keeps (Frame TransactionEngine.trace) m → Keeps (Appends P) m.
Proof.
  intros Hm e res e' Hr. apply Hm in Hr. exists []. by rewrite app_nil_r.
Qed.

Lemma Appends_backend (P : call → Prop) {A} (c : Result A → call) (m : Mut B A) :
  (∀ r, P (c r)) → Keeps (Appends P) (on_backend c m : Mut engine A).
Proof.
  intros HP e res e'. unfold on_backend. destruct (m _) as [r b]. intros [= _ <-].
  exists [c r]. split; [done|]. by constructor.
Qed.

Lemma Appends_store (P : call → Prop) (c : Result unit → call) (m : Mut St unit) :
  (∀ r, P (c r)) → Keeps (Appends P) (on_store c m : Mut engine unit).
Proof.
  intros HP e res e'. unfold on_store. destruct (m _) as [r b]. intros [= _ <-].
  exists [c r]. split; [done|]. by constructor.
Qed.

Lemma Frame_set_active lease :
  Keeps (Frame TransactionEngine.trace) (modify (set_active lease) : Mut engine unit).
Proof. intros e res e' [= _ <-]. unfold Frame. by rewrite set_active_trace. Qed.

Lemma Appends_with_guard P {A} stage (body : G → Mut engine (A * bool)) :
  (∀ g, Keeps (Appends P) (body g)) → Keeps (Appends P) (with_guard stage body).
Proof.
  intros Hb. apply Keeps_bind; [apply _|apply Keeps_map_err, Appends_frame, Frame_acquire|].
  intros g e res e'. destruct (body g e) as [[[a []]|x] e1] eqn:E; apply Hb in E;
    intros [= _ <-]; done.
Qed.

(** The calls a preparation may make. *)
Definition preparing (c : call) : Prop :=
  match c with CSnapshot _ _ | CCreate _ _ => True | _ => False end.

(** Preparing a session, whatever it returns, only captures snapshots and
    creates records: the backend is never asked to apply or restore. *)
Lemma prepare_preparing plan : Keeps (Appends preparing) (prepare plan : Mut engine _).
Proof.
  assert (∀ A (m : Mut engine A), Keeps (Frame TransactionEngine.trace) m → Keeps (Appends preparing) m)
    as Hf by (intros; by apply Appends_frame).
  unfold prepare. keeps. apply Appends_with_guard. intros g. keeps.
  - apply Hf, Frame_read_store.
  - apply walk_now. intros. apply Hf, Frame_clock.
  - apply walk_capture_all; [apply _|]. intros. by apply Appends_backend.
  - apply walk_create_session; [apply _|..]; intros.
    + by apply Appends_store.
    + apply Hf, Frame_id_source.
    + apply Hf, Frame_set_active.
Qed.

Lemma recover_one_extends r : Keeps (Appends (λ _, True)) (recover_one r : Mut engine _).
Proof.
  assert (∀ A (m : Mut engine A), Keeps (Frame TransactionEngine.trace) m →
    Keeps (Appends (λ _, True)) m) as Hf by (intros; by apply Appends_frame).
  apply walk_recover_one; [apply _|..]; intros; first
    [ by apply Appends_backend | by apply Appends_store | apply Hf, Frame_clock
    | apply Hf, Frame_release ].
Qed.

Lemma recover_loop_extends l : Keeps (Appends (λ _, True)) (recover_loop l : Mut engine _).
Proof. induction l as [|r l IH]; cbn [recover_loop]; keeps. apply recover_one_extends. Qed.
End Appends.
