(* ===== verification/EngineOutcome.v ===== *)
(** * What the engine does with a record

    The plan of a record, that is its session header and the mutation and
    snapshot of every operation, is the same after every step of [apply] and
    [restore]; applies run in plan order and restores in reverse. *)
From S2P Require Import Prelude Lists Text Ids Mut Capability Mutation Plan Session.
From S2P Require Import Record RecordInvariant Mut Ports Engine EngineTrace.
#[local] Set Default Proof Using "Type*".

(** ** Records of one execution *)

Definition record_mutations (r : SessionRecord.t) : list PlannedMutation.t :=
  OperationRecord.mutation <$> r.(SessionRecord.operations).

(** What no step after [prepare] changes. *)
Definition op_plan (o : OperationRecord.t) : PlannedMutation.t * option Snapshot.t :=
  (o.(OperationRecord.mutation), o.(OperationRecord.snapshot)).
Definition record_plan (r : SessionRecord.t) :
    SessionHeader.t * list (PlannedMutation.t * option Snapshot.t) :=
  (r.(SessionRecord.session).(Session.header), op_plan <$> r.(SessionRecord.operations)).

Lemma record_plan_mutations r : record_mutations r = fst <$> snd (record_plan r).
Proof. unfold record_mutations, record_plan. cbn. by rewrite <-list_fmap_compose. Qed.

Lemma record_plan_session r r' :
  record_plan r = record_plan r' → SessionRecord.session_id r = SessionRecord.session_id r'.
Proof. unfold record_plan, SessionRecord.session_id. congruence. Qed.

Lemma update_operation_mutations {A} id (body : Mut OperationRecord.t A) l res l' :
  Keeps (Frame op_plan) body →
  SessionRecord.update_operation id body l = Some (res, l') →
  op_plan <$> l' = op_plan <$> l.
Proof.
  intros Hb (i & o & o' & Hi & _ & _ & Ho & ->)%update_operation_inv.
  rewrite list_fmap_insert, list_insert_id; [done|].
  rewrite list_lookup_fmap, Hi. cbn. f_equal. by apply Hb in Ho.
Qed.

Lemma mutations_operation_mut {A} id (body : Mut OperationRecord.t A) :
  Keeps (Frame op_plan) body →
  Keeps (Frame record_plan) (SessionRecord.operation_mut id body).
Proof.
  intros Hb r res r'. unfold SessionRecord.operation_mut.
  destruct (SessionRecord.update_operation _ _ _) as [[x ops]|] eqn:E.
  - intros [= _ <-]. unfold Frame, record_plan. cbn.
    f_equal. symmetry. by eapply update_operation_mutations.
  - by intros [= _ <-].
Qed.

Lemma mutation_transition next : Keeps (Frame op_plan) (OperationRecord.transition next).
Proof.
  intros o res o'. unfold OperationRecord.transition. destruct (negb _); by intros [= _ <-].
Qed.

(** The bodies of the methods are guards around a field update and a
    transition. *)
Ltac mutation_body :=
  intros o res o'; cbv zeta beta;
  repeat match goal with |- (if ?c then _ else _) = _ → _ => destruct c end;
  first [ by intros [= _ <-]
        | intros Ht; apply mutation_transition in Ht; unfold Frame in *; by rewrite <-Ht ].

Lemma mutations_fail_to state e : Keeps (Frame op_plan) (SessionRecord.fail_to state e).
Proof. unfold SessionRecord.fail_to. mutation_body. Qed.

Lemma mutations_record_failure e : Keeps (Frame record_plan) (SessionRecord.record_failure e).
Proof. by intros r res r' [= _ <-]. Qed.

Lemma mutations_record_failures l :
  Keeps (Frame record_plan) (mut_for_each SessionRecord.record_failure l).
Proof. apply Keeps_for_each; [apply _|]. apply mutations_record_failure. Qed.

Lemma mutations_fail_operation id e :
  Keeps (Frame record_plan) (SessionRecord.fail_operation id e).
Proof.
  unfold SessionRecord.fail_operation. keeps; [|apply mutations_record_failure].
  apply mutations_operation_mut, mutations_fail_to.
Qed.

Lemma mutations_fail_restore id e :
  Keeps (Frame record_plan) (SessionRecord.fail_restore id e).
Proof.
  unfold SessionRecord.fail_restore. keeps; [|apply mutations_record_failure].
  apply mutations_operation_mut, mutations_fail_to.
Qed.

Lemma mutations_begin_restore id :
  Keeps (Frame record_plan) (SessionRecord.begin_restore_operation id).
Proof. apply mutations_operation_mut. mutation_body. Qed.

Lemma mutations_record_restore id r :
  Keeps (Frame record_plan) (SessionRecord.record_restore id r).
Proof. apply mutations_operation_mut. mutation_body. Qed.

Lemma mutations_record_apply id r :
  Keeps (Frame record_plan) (SessionRecord.record_apply id r).
Proof. apply mutations_operation_mut. mutation_body. Qed.

Lemma mutations_record_verification id v :
  Keeps (Frame record_plan) (SessionRecord.record_verification id v).
Proof. apply mutations_operation_mut. mutation_body. Qed.

Lemma mutations_record_transition next at_ reason :
  Keeps (Frame record_plan) (SessionRecord.transition next at_ reason).
Proof.
  intros r res r'. unfold SessionRecord.transition.
  destruct (_ || _ || _); [by intros [= _ <-]|].
  destruct (Session.transition _ _) as [s|] eqn:E; [|by intros [= _ <-]].
  apply transition_Ok in E as [_ ->]. by intros [= _ <-].
Qed.

Lemma mutations_transition_at i next : Keeps (Frame record_plan) (transition_at i next).
Proof.
  intros r res r'. unfold transition_at.
  destruct (SessionRecord.operations r !! i) as [o|] eqn:Hi; [|by intros [= _ <-]].
  destruct (OperationRecord.transition next o) as [x o'] eqn:E. intros [= _ <-].
  apply mutation_transition in E. unfold Frame, record_plan in *. cbn. f_equal.
  rewrite list_fmap_insert, list_insert_id; [done|].
  rewrite list_lookup_fmap, Hi. cbn. by rewrite E.
Qed.
#[export] Hint Resolve mutations_record_failure mutations_record_failures mutations_fail_operation mutations_fail_restore
  mutations_begin_restore mutations_record_restore mutations_record_apply
  mutations_record_verification mutations_record_transition mutations_transition_at : keeps.

(** ** The order of applies and restores *)

Definition restored_call (c : call) : option PlannedMutation.t :=
  match c with CRestore m _ _ _ => Some m | _ => None end.
Definition applied_call (c : call) : option PlannedMutation.t :=
  match c with CApply m _ _ => Some m | _ => None end.

Section Order.
Context {B St L G I C : Type}.
Context `{!MutationBackend.t B, !SessionStateStore.t St, !ExclusiveSessionLock.t L G,
          !SessionIdSource.t I, !Clock.t C}.
Abbreviation engine := (TransactionEngine.t B St L G I C).
Abbreviation both := (engine * SessionRecord.t)%type.

(** The calls of interest: applies or restores. *)
Context (sel : call → option PlannedMutation.t).
Context (sel_replace : ∀ r x, sel (CReplace r x) = None)
        (sel_verify : ∀ m f i x, sel (CVerify m f i x) = None).

(** What most steps leave alone: the mutations of the record and the
    selected calls. *)
Definition view (s : both) : list PlannedMutation.t * list PlannedMutation.t :=
  (record_mutations (snd s), omap sel (TransactionEngine.trace (fst s))).

Lemma view_record {A} (m : Mut SessionRecord.t A) :
  Keeps (Frame record_plan) m → Keeps (Frame view) (on_record m : Mut both A).
Proof using Type* - (sel_replace sel_verify).
  intros Hm s res s' [He Hr]%on_record_run. apply Hm in Hr. unfold Frame, view in *.
  by rewrite He, !record_plan_mutations, Hr.
Qed.

Lemma view_get_record : Keeps (Frame view) (get_record : Mut both _).
Proof using Type* - (sel_replace sel_verify). by intros s res s' [= _ <-]. Qed.

Lemma view_trace {A} (m : Mut engine A) :
  Keeps (Frame TransactionEngine.trace) m → Keeps (Frame view) (on_engine m : Mut both A).
Proof using Type* - (sel_replace sel_verify).
  intros Hm [e r] res s'. unfold on_engine. destruct (m e) as [x e'] eqn:E. intros [= _ <-].
  apply Hm in E. unfold Frame, view in *. cbn. by rewrite E.
Qed.

Lemma view_now stage : Keeps (Frame view) (on_engine (now stage) : Mut both _).
Proof using Type* - (sel_replace sel_verify). apply view_trace, Keeps_map_err, Frame_clock. Qed.

#[local] Hint Resolve view_record view_get_record view_now : keeps.

Lemma view_persist stage : Keeps (Frame view) (persist_record stage : Mut both _).
Proof.
  intros s res s' Hp. destruct (persist_run stage s (Ok res) s') as (y & e & _ & Hr & Ht).
  { unfold catch. by rewrite Hp. }
  unfold Frame, view. rewrite Hr, Ht, omap_app. cbn. by rewrite sel_replace, app_nil_r.
Qed.

Lemma view_verify m f i : Keeps (Frame view) (on_engine (backend_verify m f i) : Mut both _).
Proof.
  intros s res s' Hv. edestruct (backend_call_run (CVerify m f i) (MutationBackend.verify m f i) s)
    as (y & _ & Hr & Ht).
  { unfold catch. unfold backend_verify in Hv. by rewrite Hv. }
  unfold Frame, view. rewrite Hr, Ht, omap_app. cbn. by rewrite sel_verify, app_nil_r.
Qed.
#[local] Hint Resolve view_persist view_verify : keeps.

Lemma view_now_or_zero stage : Keeps (Frame view) (now_or_zero stage : Mut both _).
Proof using Type* - (sel_replace sel_verify). unfold now_or_zero. keeps. Qed.

Lemma view_persist_or_note stage : Keeps (Frame view) (persist_or_note stage : Mut both _).
Proof. unfold persist_or_note. keeps. Qed.
#[local] Hint Resolve view_persist_or_note view_now_or_zero : keeps.

Lemma view_note_failure id e : Keeps (Frame view) (note_failure id e : Mut both _).
Proof. unfold note_failure. keeps. Qed.

Lemma view_conclude_restore id r : Keeps (Frame view) (conclude_restore id r : Mut both _).
Proof. unfold conclude_restore. keeps. Qed.

Lemma view_fail_with e : Keeps (Frame view) (fail_with e : Mut both _).
Proof. unfold fail_with. keeps. Qed.

Lemma view_fail_operation_with id stage e :
  Keeps (Frame view) (fail_operation_with id stage e : Mut both _).
Proof. unfold fail_operation_with. keeps. Qed.
#[local] Hint Resolve view_note_failure view_conclude_restore view_fail_with
  view_fail_operation_with : keeps.

Lemma view_verify_step id m snap r : Keeps (Frame view) (verify_step id m snap r : Mut both _).
Proof. unfold verify_step. keeps. Qed.
#[local] Hint Resolve view_verify_step : keeps.

(** At most the calls in [l] were added, in that order. *)
Definition adds (l : list PlannedMutation.t) (s s' : both) : Prop :=
  record_mutations (snd s') = record_mutations (snd s)
  ∧ ∃ k, omap sel (TransactionEngine.trace (fst s'))
         = omap sel (TransactionEngine.trace (fst s)) ++ k ∧ k `sublist_of` l.

Lemma adds_view l s s' : Frame view s s' → adds l s s'.
Proof using Type* - (sel_replace sel_verify).
  unfold Frame, view. intros [= Hm Ht]. split; [done|]. exists [].
  rewrite Ht, app_nil_r. split; [done|apply sublist_nil_l].
Qed.

Lemma adds_trans l1 l2 s1 s2 s3 : adds l1 s1 s2 → adds l2 s2 s3 → adds (l1 ++ l2) s1 s3.
Proof using Type* - (sel_replace sel_verify).
  intros (Hm1 & k1 & Ht1 & Hs1) (Hm2 & k2 & Ht2 & Hs2). split; [congruence|].
  exists (k1 ++ k2). rewrite Ht2, Ht1, app_assoc. split; [done|by apply sublist_app].
Qed.

Lemma adds_keeps {A} l (m : Mut both A) s res s' :
  Keeps (Frame view) m → m s = (res, s') → adds l s s'.
Proof using Type* - (sel_replace sel_verify). intros Hm Hs. by eapply adds_view, Hm. Qed.

Lemma adds_frame l s1 s2 s3 : Frame view s1 s2 → adds l s2 s3 → adds l s1 s3.
Proof using Type* - (sel_replace sel_verify). intros Ha Hb. apply (adds_trans [] l s1 s2); [by apply adds_view|done]. Qed.

Lemma adds_frame_r l s1 s2 s3 : adds l s1 s2 → Frame view s2 s3 → adds l s1 s3.
Proof using Type* - (sel_replace sel_verify).
  intros Ha Hb. rewrite <-(app_nil_r l). eapply adds_trans; [done|by apply adds_view].
Qed.

(** A backend call that is selected. *)
Lemma adds_call {A} (c : Result A → call) (m : Mut B A) (s : both) x s' n :
  catch (on_engine (on_backend c m)) s = (x, s') → (∀ y, sel (c y) = Some n) → adds [n] s s'.
Proof using Type* - (sel_replace sel_verify).
  intros (y & _ & Hr & Ht)%backend_call_run Hc. split; [by rewrite Hr|].
  exists [n]. rewrite Ht, omap_app. cbn. by rewrite Hc.
Qed.
End Order.

(** ** Restores run in reverse order *)

#[export] Hint Resolve view_record view_get_record view_now : keeps.

Section RestoreOrder.
Context {B St L G I C : Type}.
Context `{!MutationBackend.t B, !SessionStateStore.t St, !ExclusiveSessionLock.t L G,
          !SessionIdSource.t I, !Clock.t C}.
Abbreviation engine := (TransactionEngine.t B St L G I C).
Abbreviation both := (engine * SessionRecord.t)%type.

Lemma adds_compare_and_restore id m snap own (s : both) res s' :
  compare_and_restore id m snap own s = (res, s') → adds restored_call [m] s s'.
Proof.
  intros Hrun. unfold compare_and_restore in Hrun.
  apply mut_bind_cases in Hrun as [(e & Hc & _)|(x & s1 & Hc & Hk)].
  { apply catch_run in Hc as (? & ? & [=]). }
  apply (Keeps_catch _ _ (view_verify restored_call (λ _ _, eq_refl) (λ _ _ _ _, eq_refl) _ _ _)) in Hc.
  eapply adds_frame; [exact Hc|]. clear Hc.
  assert (∀ id e, Keeps (Frame (view restored_call)) (note_failure id e : Mut both _)) as Hnf
    by (intros; by apply view_note_failure).
  assert (∀ id e, Keeps (Frame (view restored_call)) (conclude_restore id e : Mut both _)) as Hcr
    by (intros; by apply view_conclude_restore).
  destruct x as [observed|e]; [|eapply adds_keeps, Hk; auto].
  case_bool_decide as Ho; [eapply adds_keeps, Hk; auto|].
  case_bool_decide as Hn; [eapply adds_keeps, Hk; auto|].
  apply mut_bind_cases in Hk as [(e & Hc & _)|(x & s2 & Hc & Hk)].
  { apply catch_run in Hc as (? & ? & [=]). }
  eapply adds_frame_r; [by eapply (adds_call restored_call)|].
  destruct x as [receipt|e]; [|by eapply Hnf].
  destruct (_ && _ && _); [by eapply Hcr|by eapply Hnf].
Qed.

Lemma adds_restore_step id i (s : both) res s' m :
  record_mutations (snd s) !! i = Some m →
  restore_step id i s = (res, s') → adds restored_call [m] s s'.
Proof.
  intros Hi Hrun. unfold restore_step in Hrun.
  apply mut_bind_cases in Hrun as [(e & [=] & _)|(r & s1 & [= <- <-] & Hrun)].
  apply list_lookup_fmap_Some in Hi as (o & -> & Hi). rewrite Hi in Hrun.
  assert (∀ m : Mut SessionRecord.t unit, Keeps (Frame record_plan) m →
    Keeps (Frame (view restored_call)) (on_record m : Mut both _)) as Hrec
    by (intros; by apply view_record).
  case_bool_decide as Hs.
  { injection Hrun as _ <-. by apply adds_view. }
  destruct (OperationRecord.apply_receipt o) as [receipt|].
  2: { eapply adds_keeps; [|exact Hrun]. keeps. }
  destruct (OperationRecord.snapshot o) as [snap|].
  2: { eapply adds_keeps; [|exact Hrun]. keeps. }
  apply mut_bind_cases in Hrun as [(e & Hc & _)|(x & s2 & Hc & Hk)].
  { apply catch_run in Hc as (? & ? & [=]). }
  apply (Keeps_catch _ _ (Hrec _ (mutations_begin_restore _))) in Hc.
  eapply adds_frame; [exact Hc|]. clear Hc.
  destruct x as [[]|e].
  2: { injection Hk as _ <-. by apply adds_view. }
  apply mut_bind_cases in Hk as [(e & Hc & _)|([f1 u1] & s3 & Hc & Hk)].
  { eapply adds_keeps; [|exact Hc]. by apply view_persist_or_note. }
  eapply adds_frame; [by eapply (view_persist_or_note restored_call), Hc|]. clear Hc.
  apply mut_bind_cases in Hk as [(e & Hc & _)|([f2 u2] & s4 & Hc & Hk)].
  { by eapply adds_compare_and_restore. }
  injection Hk as _ <-. by eapply adds_compare_and_restore.
Qed.

(** The mutations at a list of indices. *)
Definition at_indices (ms : list PlannedMutation.t) (indices : list nat)
    (l : list PlannedMutation.t) : Prop :=
  Forall2 (λ i m, ms !! i = Some m) indices l.

Lemma at_indices_seq ms : at_indices ms (seq 0 (length ms)) ms.
Proof.
  apply Forall2_same_length_lookup. split; [by rewrite length_seq|].
  intros i j m Hi Hm. apply lookup_seq in Hi as [-> _]. exact Hm.
Qed.

Lemma at_indices_rev ms : at_indices ms (rev (seq 0 (length ms))) (reverse ms).
Proof.
  rewrite rev_alt. change (rev_append (seq 0 (length ms)) []) with (reverse (seq 0 (length ms))).
  apply Forall2_reverse, at_indices_seq.
Qed.

Lemma adds_restore_loop id indices l (s : both) res s' :
  at_indices (record_mutations (snd s)) indices l →
  restore_loop id indices s = (res, s') → adds restored_call l s s'.
Proof.
  revert l s res s'. induction indices as [|i indices IH]; intros l s res s' Hl Hrun;
    cbn [restore_loop] in Hrun.
  { apply Forall2_nil_inv_l in Hl as ->. injection Hrun as _ <-. by apply adds_view. }
  apply Forall2_cons_inv_l in Hl as (m & l' & Hm & Hl & ->).
  apply mut_bind_cases in Hrun as [(e & Hc & _)|([f1 u1] & s1 & Hc & Hk)].
  { apply (adds_trans _ [m] l' s s' s'); [by eapply adds_restore_step|by apply adds_view]. }
  apply (adds_restore_step _ _ _ _ _ _ Hm) in Hc as Ha.
  eapply (adds_trans _ [m]); [exact Ha|].
  assert (at_indices (record_mutations (snd s1)) indices l') as Hl'
    by (destruct Ha as [-> _]; done).
  apply mut_bind_cases in Hk as [(e & Hk & _)|([f2 u2] & s2 & Hk & Hr)].
  - by eapply IH.
  - injection Hr as _ <-. by eapply IH.
Qed.

(** A run of [restore_record], whatever the backend and the store answer,
    calls the backend's [restore] at most once per operation and in reverse
    plan order: the operations it restores are, in order, a subsequence of
    the record's operations reversed. *)
Theorem restore_in_reverse_order (e e' : engine) r r' res :
  restore_record (e, r) = (res, (e', r')) →
  ∃ l, omap restored_call (TransactionEngine.trace e')
       = omap restored_call (TransactionEngine.trace e) ++ l
    ∧ l `sublist_of` reverse (OperationRecord.mutation <$> r.(SessionRecord.operations)).
Proof.
  intros Hrun. unfold restore_record in Hrun.
  assert (adds restored_call (reverse (record_mutations r)) (e, r) (e', r')) as [_ Hadds];
    [|exact Hadds].
  apply mut_bind_cases in Hrun as [(x & [=] & _)|(r0 & s1 & [= <- <-] & Hrun)]. cbv zeta in Hrun.
  apply mut_bind_cases in Hrun as [(x & Hc & _)|(at_ & s1 & Hc & Hrun)];
    apply (view_now_or_zero restored_call) in Hc.
  { by apply adds_view. }
  eapply adds_frame; [exact Hc|].
  assert (record_mutations (snd s1) = record_mutations r) as Hr.
  { by injection Hc. }
  clear Hc. rewrite <-Hr.
  assert (at_indices (record_mutations (snd s1))
            (rev (seq 0 (length (SessionRecord.operations r)))) (reverse (record_mutations (snd s1))))
    as Hl.
  { rewrite Hr. pose proof (at_indices_rev (record_mutations r)) as Hx.
    unfold record_mutations in Hx at 2. by rewrite length_fmap in Hx. }
  apply mut_bind_cases in Hrun as [(x & Hc & _)|([f u] & s2 & Hc & Hk)].
  { by eapply adds_restore_loop. }
  eapply adds_frame_r; [by eapply adds_restore_loop|].
  revert Hk. generalize (e', r'). intros s3 Hk.
  match type of Hk with ?m _ = _ => assert (Keeps (Frame (view restored_call)) m) as Hq end;
    [|by eapply Hq].
  unfold finish_restore.
  assert (∀ m : Mut SessionRecord.t unit, Keeps (Frame record_plan) m →
    Keeps (Frame (view restored_call)) (on_record m : Mut both _)) as Hrec
    by (intros; by apply view_record).
  assert (∀ stage, Keeps (Frame (view restored_call)) (persist_record stage : Mut both _)) as Hp
    by (intros; by apply view_persist).
  assert (∀ id, Keeps (Frame (view restored_call)) (on_engine (release_if_restored id) : Mut both _))
    as Hf by (intros; apply view_trace, Frame_release).
  keeps.
Qed.

(** ** Applies run in plan order *)

Lemma adds_apply_step id i (s : both) res s' m :
  record_mutations (snd s) !! i = Some m →
  apply_step id i s = (res, s') → adds applied_call [m] s s'.
Proof.
  intros Hi Hrun. unfold apply_step in Hrun.
  apply mut_bind_cases in Hrun as [(e & [=] & _)|(r & s1 & [= <- <-] & Hrun)].
  apply list_lookup_fmap_Some in Hi as (o & -> & Hi). rewrite Hi in Hrun.
  assert (∀ e, Keeps (Frame (view applied_call)) (fail_with e : Mut both _)) as Hf
    by (intros; by apply view_fail_with).
  assert (∀ stage, Keeps (Frame (view applied_call)) (persist_record stage : Mut both _)) as Hp
    by (intros; by apply view_persist).
  assert (∀ id m a b, Keeps (Frame (view applied_call)) (verify_step id m a b : Mut both _)) as Hv
    by (intros; by apply view_verify_step).
  assert (∀ id stage e, Keeps (Frame (view applied_call))
    (fail_operation_with id stage e : Mut both _)) as Hfo
    by (intros; by apply view_fail_operation_with).
  destruct (OperationRecord.state o);
    try (eapply adds_keeps, Hrun; first [apply Hf|apply Keeps_ret; apply _]).
  unfold apply_operation in Hrun.
  apply mut_bind_cases in Hrun as [(e & Hc & _)|([] & s1 & Hc & Hrun)];
    apply (view_record applied_call _ (mutations_transition_at _ _)) in Hc;
    [by apply adds_view|].
  eapply adds_frame; [exact Hc|]. clear Hc.
  apply mut_bind_cases in Hrun as [(e & Hc & _)|(x & s2 & Hc & Hrun)].
  { apply catch_run in Hc as (? & ? & [=]). }
  apply (Keeps_catch _ _ (Hp _)) in Hc. eapply adds_frame; [exact Hc|]. clear Hc.
  destruct x as [[]|e]; [|eapply adds_keeps, Hrun; auto].
  apply mut_bind_cases in Hrun as [(e & [= _ <-] & _)|(snap & s3 & [= _ <-] & Hrun)];
    [by apply adds_view|].
  apply mut_bind_cases in Hrun as [(e & Hc & _)|(x & s3 & Hc & Hrun)].
  { apply catch_run in Hc as (? & ? & [=]). }
  eapply adds_frame_r; [by eapply (adds_call applied_call)|].
  match type of Hrun with ?k _ = _ => assert (Keeps (Frame (view applied_call)) k) as Hq end;
    [|by eapply Hq]. keeps.
Qed.

Lemma adds_apply_loop id indices l (s : both) res s' :
  at_indices (record_mutations (snd s)) indices l →
  apply_loop id indices s = (res, s') → adds applied_call l s s'.
Proof.
  revert l s res s'. induction indices as [|i indices IH]; intros l s res s' Hl Hrun;
    cbn [apply_loop] in Hrun.
  { apply Forall2_nil_inv_l in Hl as ->. injection Hrun as _ <-. by apply adds_view. }
  apply Forall2_cons_inv_l in Hl as (m & l' & Hm & Hl & ->).
  apply mut_bind_cases in Hrun as [(e & Hc & _)|(failed & s1 & Hc & Hk)];
    apply (adds_apply_step _ _ _ _ _ _ Hm) in Hc as Ha.
  { by apply (adds_trans _ [m] l' s s' s'); [|apply adds_view]. }
  eapply (adds_trans _ [m]); [exact Ha|].
  destruct failed as [e|]; [injection Hk as _ <-; by apply adds_view|].
  eapply IH; [|done]. destruct Ha as [-> _]. done.
Qed.

(** A run of [apply], whatever the backend and the store answer, calls the
    backend's [apply] at most once per operation and in plan order, which is
    a dependency order: the operations it applies are, in order, a
    subsequence of the record's operations. *)
Theorem apply_in_plan_order id (e e' : engine) r r' res :
  apply_record id (e, r) = (res, (e', r')) →
  ∃ l, omap applied_call (TransactionEngine.trace e')
       = omap applied_call (TransactionEngine.trace e) ++ l
    ∧ l `sublist_of` (OperationRecord.mutation <$> r.(SessionRecord.operations)).
Proof.
  intros Hrun. unfold apply_record in Hrun.
  assert (adds applied_call (record_mutations r) (e, r) (e', r')) as [_ Hadds]; [|exact Hadds].
  assert (∀ e, Keeps (Frame (view applied_call)) (fail_with e : Mut both _)) as Hf
    by (intros; by apply view_fail_with).
  assert (∀ stage, Keeps (Frame (view applied_call)) (persist_record stage : Mut both _)) as Hp
    by (intros; by apply view_persist).
  apply mut_bind_cases in Hrun as [(x & [=] & _)|(r0 & s1 & [= <- <-] & Hrun)].
  revert Hrun. generalize (e', r'). intros s' Hrun.
  apply mut_bind_cases in Hrun as [(x & Hc & _)|(at_ & s1 & Hc & Hrun)];
    apply (view_now applied_call) in Hc; [by apply adds_view|].
  apply mut_bind_cases in Hrun as [(x & Hd & _)|([] & s2 & Hd & Hrun)];
    apply (view_record applied_call _ (mutations_record_transition _ _ _)) in Hd;
    pose proof (transitivity Hc Hd) as Hcd; clear Hc Hd; [by apply adds_view|].
  apply mut_bind_cases in Hrun as [(x & Hc & _)|(x & s3 & Hc & Hrun)].
  { apply catch_run in Hc as (? & ? & [=]). }
  apply (Keeps_catch _ _ (Hp _)) in Hc.
  pose proof (transitivity Hcd Hc) as Hcd'. clear Hc Hcd.
  eapply adds_frame; [exact Hcd'|].
  destruct x as [[]|x]; [|eapply adds_keeps, Hrun; auto].
  assert (record_mutations (snd s3) = record_mutations r) as Hr by (by injection Hcd').
  assert (at_indices (record_mutations (snd s3)) (seq 0 (length (SessionRecord.operations r)))
            (record_mutations r)) as Hl.
  { rewrite Hr. pose proof (at_indices_seq (record_mutations r)) as Hx.
    unfold record_mutations in Hx at 2. by rewrite length_fmap in Hx. }
  apply mut_bind_cases in Hrun as [(y & Hc & _)|(failed & s4 & Hc & Hk)].
  { by eapply adds_apply_loop. }
  eapply adds_frame_r; [by eapply adds_apply_loop|].
  match type of Hk with ?m _ = _ => assert (Keeps (Frame (view applied_call)) m) as Hq end;
    [|by eapply Hq]. keeps.
Qed.
End RestoreOrder.

(** ** The plan of a record is never changed *)

Section SamePlan.
Context {B St L G I C : Type}.
Context `{!MutationBackend.t B, !SessionStateStore.t St, !ExclusiveSessionLock.t L G,
          !SessionIdSource.t I, !Clock.t C}.
Abbreviation engine := (TransactionEngine.t B St L G I C).
Abbreviation both := (engine * SessionRecord.t)%type.
Abbreviation same_plan := (on_snd (B := SessionRecord.t) (A := engine) (Frame record_plan)).

Lemma same_plan_on_engine {A} (m : Mut engine A) : Keeps same_plan (on_engine m).
Proof.
  intros [e r] res s'. unfold on_engine. destruct (m e). intros [= _ <-]. done.
Qed.

Lemma same_plan_on_record {A} (m : Mut SessionRecord.t A) :
  Keeps (Frame record_plan) m → Keeps same_plan (on_record m).
Proof. intros Hm s res s' [_ Hr]%on_record_run. by apply Hm in Hr. Qed.

Lemma same_plan_get_record : Keeps same_plan get_record.
Proof. by intros s res s' [= _ <-]. Qed.
#[local] Hint Resolve same_plan_on_engine same_plan_on_record same_plan_get_record : keeps.

Lemma same_plan_persist stage : Keeps same_plan (persist_record stage).
Proof. unfold persist_record. keeps. Qed.
Lemma same_plan_now_or_zero stage : Keeps same_plan (now_or_zero stage).
Proof. unfold now_or_zero. keeps. Qed.
#[local] Hint Resolve same_plan_persist same_plan_now_or_zero : keeps.

Lemma same_plan_compare_and_restore id m snap own :
  Keeps same_plan (compare_and_restore id m snap own).
Proof.
  unfold compare_and_restore, note_failure, conclude_restore, persist_or_note. keeps.
Qed.
#[local] Hint Resolve same_plan_compare_and_restore : keeps.

Lemma same_plan_restore_step id i : Keeps same_plan (restore_step id i).
Proof. unfold restore_step, persist_or_note. keeps. Qed.
#[local] Hint Resolve same_plan_restore_step : keeps.

Lemma same_plan_restore_loop id l : Keeps same_plan (restore_loop id l).
Proof. induction l as [|i l IH]; cbn [restore_loop]; keeps. Qed.

Lemma same_plan_restore_record : Keeps same_plan restore_record.
Proof.
  pose proof same_plan_restore_loop. unfold restore_record, finish_restore. keeps.
Qed.

Lemma same_plan_prepare_restore : Keeps same_plan prepare_restore_state.
Proof. unfold prepare_restore_state. keeps. Qed.

Lemma same_plan_apply_step id i : Keeps same_plan (apply_step id i).
Proof.
  unfold apply_step, apply_operation, verify_step, fail_operation_with, fail_with. keeps.
Qed.
#[local] Hint Resolve same_plan_apply_step : keeps.

Lemma same_plan_apply_loop id l : Keeps same_plan (apply_loop id l).
Proof. induction l as [|i l IH]; cbn [apply_loop]; keeps. Qed.

Lemma same_plan_apply_record id : Keeps same_plan (apply_record id).
Proof. pose proof same_plan_apply_loop. unfold apply_record, fail_with. keeps. Qed.
End SamePlan.
