(* ===== verification/EngineResult.v ===== *)
(** * What the engine's results mean

    A session ID from [prepare] means a durable intent that holds every
    preimage; [Active] from [apply] means every operation was read back;
    [Restored] from [restore] means every applied operation has proof of its
    original.  All are statements about the record whose durable write was
    the last call the engine made. *)
From stdpp Require Import sorting.
From S2P Require Import Prelude Lists Text Ids Mut Capability Mutation Plan Session.
From S2P Require Import Record RecordInvariant Mut Ports Engine EngineTrace.
From S2P Require Import EngineTrace EngineOutcome.
Unset Default Proof Using.

(** The last call was a successful durable write of [r]. *)
Definition durable (tr : list call) (r : SessionRecord.t) : Prop :=
  last tr = Some (CReplace r (Ok tt)).

(** Every operation that was applied is restored, and proves it. *)
Definition originals_proven (r : SessionRecord.t) : Prop :=
  ∀ o, o ∈ r.(SessionRecord.operations) → is_Some o.(OperationRecord.apply_receipt) →
    o.(OperationRecord.state) = OperationState.Restored
    ∧ ∃ s rr, o.(OperationRecord.snapshot) = Some s
        ∧ o.(OperationRecord.restore_receipt) = Some rr
        ∧ rr.(RestoreReceipt.restored_fingerprint) = s.(Snapshot.original_fingerprint).

(** No operation may have been applied without a receipt. *)
Definition none_ambiguous (r : SessionRecord.t) : Prop :=
  Forall (λ o, o.(OperationRecord.state) ≠ OperationState.Applying) r.(SessionRecord.operations).

Definition fully_restored (r : SessionRecord.t) : Prop :=
  session_state r = SessionState.Restored ∧ originals_proven r ∧ none_ambiguous r.

(** The calls that extend [tr] to [tr'] end the session of [r]: the last of
    them durably wrote a fully restored record with the header, mutations
    and snapshots of [r]. *)
Definition ended (tr tr' : list call) (r : SessionRecord.t) : Prop :=
  ∃ t r', tr' = tr ++ t ++ [CReplace r' (Ok tt)]
          ∧ fully_restored r' ∧ record_plan r' = record_plan r.

(** A fully restored record of the session of [r] was durably written by the
    calls that extend [tr] to [tr']. *)
Definition ended_since (tr tr' : list call) (r : SessionRecord.t) : Prop :=
  ∃ t r', tr' = tr ++ t ∧ CReplace r' (Ok tt) ∈ t ∧ fully_restored r'
          ∧ record_plan r' = record_plan r.

Lemma ended_ended_since tr tr' t r : ended tr tr' r → ended_since tr (tr' ++ t) r.
Proof.
  intros (t1 & r' & -> & Hr). exists ((t1 ++ [CReplace r' (Ok tt)]) ++ t), r'.
  rewrite <-!app_assoc. split; [done|]. split; [set_solver|done].
Qed.

Lemma ended_since_extends tr t tr' r : ended_since (tr ++ t) tr' r → ended_since tr tr' r.
Proof.
  intros (t' & r' & -> & Hin & Hr). exists (t ++ t'), r'. rewrite app_assoc.
  split; [done|]. split; [set_solver|done].
Qed.

Lemma ended_since_app tr tr' t r : ended_since tr tr' r → ended_since tr (tr' ++ t) r.
Proof.
  intros (t' & r' & -> & Hin & Hr). exists (t' ++ t), r'. rewrite <-app_assoc.
  split; [done|]. split; [set_solver|done].
Qed.

Lemma restoration_proven_spec r :
  SessionRecord.restoration_proven r = true → validate_for_serialization r = Ok tt →
  originals_proven r ∧ none_ambiguous r.
Proof.
  unfold SessionRecord.restoration_proven. rewrite forallb_forall. intros Hp Hv.
  assert (∀ o, o ∈ SessionRecord.operations r →
    OperationRecord.needs_restore o = false ∧ OperationRecord.state o ≠ OperationState.Applying)
    as Hall.
  { intros o Ho. apply list_elem_of_In, Hp in Ho.
    rewrite !andb_true_iff, negb_true_iff, !bool_decide_eq_true in Ho. tauto. }
  split.
  - intros o Ho Ha. destruct (Hall o Ho) as [Hn _]. unfold OperationRecord.needs_restore in Hn.
    rewrite bool_decide_true in Hn by done. cbn in Hn.
    assert (OperationRecord.state o = OperationState.Restored) as Hst
      by (by destruct (OperationRecord.state o)).
    split; [done|]. by apply (operation_evidence r o Hv Ho).
  - apply Forall_forall. intros o Ho. by apply Hall.
Qed.

Section Results.
Context {B St L G I C : Type}.
Context `{!MutationBackend.t B, !SessionStateStore.t St, !ExclusiveSessionLock.t L G,
          !SessionIdSource.t I, !Clock.t C}.
Context `{!StoreLaws.t St}.
Abbreviation engine := (TransactionEngine.t B St L G I C).
Abbreviation both := (engine * SessionRecord.t)%type.

(** ** Durable writes *)

Lemma persist_Ok stage (s : both) u s' :
  persist_record stage s = (Ok u, s') →
  snd s' = snd s
  ∧ TransactionEngine.trace (fst s') = TransactionEngine.trace (fst s) ++ [CReplace (snd s) (Ok tt)]
  ∧ durable (TransactionEngine.trace (fst s')) (snd s)
  ∧ validate_for_serialization (snd s) = Ok tt.
Proof.
  destruct s as [e r]. unfold persist_record, get_record, on_engine, persist, mut_map_err, on_store.
  unfold mbind, mut_bind. cbn.
  destruct (SessionStateStore.replace r (TransactionEngine.state_store e)) as [[[]|x] st] eqn:E;
    [|done].
  intros [= _ <-]. cbn. split; [done|]. split; [done|].
  split; [|by eapply StoreLaws.replace_validated].
  unfold durable. by rewrite last_snoc.
Qed.

Lemma catch_persist_Ok stage (s : both) u s' :
  catch (persist_record stage) s = (Ok (Ok u), s') →
  snd s' = snd s ∧ durable (TransactionEngine.trace (fst s')) (snd s)
  ∧ validate_for_serialization (snd s) = Ok tt.
Proof. intros (r & Hp & [= <-])%catch_run. apply persist_Ok in Hp as (? & _ & ?). done. Qed.

Lemma transition_record_Ok next at_ reason r r' :
  SessionRecord.transition next at_ reason r = (Ok tt, r') →
  session_state r' = next ∧ r'.(SessionRecord.operations) = r.(SessionRecord.operations)
  ∧ SessionState.can_transition (session_state r) next = true.
Proof.
  unfold SessionRecord.transition. destruct (_ || _ || _); [done|].
  destruct (Session.transition _ next) as [s'|] eqn:E; [|done]. intros [= <-].
  by apply transition_Ok in E as [Hc ->].
Qed.

(** ** Restore *)

Lemma release_Ok id (s : both) s' u :
  on_engine (release_if_restored id) s = (Ok u, s') →
  snd s' = snd s ∧ TransactionEngine.trace (fst s') = TransactionEngine.trace (fst s).
Proof.
  destruct s as [e r]. unfold on_engine. destruct (release_if_restored id e) as [x e'] eqn:E.
  intros [= _ <-]. split; [done|]. symmetry. by apply Frame_release in E.
Qed.

Lemma finish_restore_Ok id at_ f u (s : both) st s' :
  finish_restore id at_ f u s = (Ok st, s') →
  st = SessionState.Restored ∧ ended (TransactionEngine.trace (fst s)) (TransactionEngine.trace (fst s')) (snd s).
Proof.
  intros Hrun. unfold finish_restore in Hrun.
  apply mut_bind_Ok in Hrun as (r & s1 & [= <- <-] & Hrun).
  destruct (_ && _ && _) eqn:Ec in Hrun.
  2: { repeat apply mut_bind_Ok in Hrun as (? & ? & _ & Hrun). done. }
  apply andb_true_iff in Ec as [[_ Hp]%andb_true_iff _].
  apply mut_bind_Ok in Hrun as ([] & s1 & Ht & Hrun).
  apply mut_bind_Ok in Hrun as ([] & s2 & Hs & Hrun).
  apply mut_bind_Ok in Hrun as ([] & s3 & Hl & [= <- <-]).
  apply persist_Ok in Hs as (Hr2 & Htr2 & Hd & Hv). apply release_Ok in Hl as [_ Htr].
  assert (session_state (snd s1) = SessionState.Restored
          ∧ SessionRecord.operations (snd s1) = SessionRecord.operations (snd s)
          ∧ record_plan (snd s1) = record_plan (snd s)) as (Hst & Hops & Hplan).
  { case_bool_decide as Hne.
    - apply on_record_run in Ht as [_ Ht].
      pose proof (mutations_record_transition _ _ _ _ _ _ Ht) as Hp'.
      apply transition_record_Ok in Ht. unfold Frame in Hp'. split_and!; [tauto|tauto|done].
    - by injection Ht as <-. }
  assert (TransactionEngine.trace (fst s1) = TransactionEngine.trace (fst s)) as Htr1.
  { case_bool_decide; [by apply on_record_run in Ht as [-> _]|by injection Ht as <-]. }
  split; [done|]. exists [], (snd s1). rewrite Htr, Htr2, Htr1. split; [done|]. split; [|done].
  assert (SessionRecord.restoration_proven (snd s1) = true) as Hp'
    by (unfold SessionRecord.restoration_proven in *; by rewrite Hops).
  by destruct (restoration_proven_spec _ Hp' Hv).
Qed.

(** What comes before the end of a session. *)
Definition Follows : both → both → Prop := λ s s',
  on_fst (Appends (λ _, True)) s s' ∧ on_snd (Frame record_plan) s s'.

#[local] Instance Follows_preorder : PreOrder Follows.
Proof.
  split; [by split|]. intros s1 s2 s3 [Ha Hb] [Hc Hd]. split; [by etrans|].
  unfold on_snd, Frame in *. congruence.
Qed.

Lemma ended_follows (s s1 : both) tr :
  Follows s s1 → ended (TransactionEngine.trace (fst s1)) tr (snd s1) →
  ended (TransactionEngine.trace (fst s)) tr (snd s).
Proof.
  intros [(t1 & Ht1 & _) Hp] (t & r & -> & Hf & Hr). exists (t1 ++ t), r.
  rewrite Ht1, <-!app_assoc. split_and!; [done|done|]. unfold on_snd, Frame in Hp. congruence.
Qed.

Lemma Follows_record {A} (m : Mut SessionRecord.t A) :
  Keeps (Frame record_plan) m → Keeps Follows (on_record m).
Proof.
  intros Hm. apply Keeps_and; [apply Keeps_on_record; apply _|by apply same_plan_on_record].
Qed.
Lemma Follows_walk {A} (m : Mut both A) :
  Keeps (on_fst (Appends (λ _, True))) m → Keeps (on_snd (Frame record_plan)) m → Keeps Follows m.
Proof. apply Keeps_and. Qed.

Lemma Appends_clock P {A} (m : Mut C A) : Keeps (Appends P) (on_clock m : Mut engine A).
Proof. apply Appends_frame, Frame_clock. Qed.

Ltac walk_ports :=
  intros; first [by apply Appends_backend|by apply Appends_store|apply Appends_clock].

Lemma Follows_persist stage : Keeps Follows (persist_record stage).
Proof.
  apply Follows_walk, same_plan_persist. apply walk_persist_record; [apply _|walk_ports..].
Qed.
Lemma Follows_now_or_zero stage : Keeps Follows (now_or_zero stage).
Proof.
  apply Follows_walk, same_plan_now_or_zero. apply walk_now_or_zero; [apply _|walk_ports..].
Qed.
Lemma Follows_restore_loop id l : Keeps Follows (restore_loop id l).
Proof.
  apply Follows_walk, same_plan_restore_loop. apply walk_restore_loop; [apply _|walk_ports..].
Qed.
Lemma Follows_prepare_restore : Keeps Follows prepare_restore_state.
Proof.
  apply Follows_walk, same_plan_prepare_restore. apply walk_prepare_restore; [apply _|walk_ports..].
Qed.
Lemma Follows_apply_record id : Keeps Follows (apply_record id).
Proof.
  apply Follows_walk, same_plan_apply_record. apply walk_apply_record; [apply _|walk_ports..].
Qed.

Lemma restore_record_Ok (s : both) st s' :
  restore_record s = (Ok st, s') →
  st = SessionState.Restored
  ∧ ended (TransactionEngine.trace (fst s)) (TransactionEngine.trace (fst s')) (snd s).
Proof.
  unfold restore_record. intros (r & s1 & [= <- <-] & Hrun)%mut_bind_Ok.
  apply mut_bind_Ok in Hrun as (at_ & s2 & Hn%Follows_now_or_zero & Hrun).
  apply mut_bind_Ok in Hrun as ([f u] & s3 & Hl%Follows_restore_loop & Hrun).
  apply finish_restore_Ok in Hrun as [-> He]. split; [done|].
  eapply ended_follows; [|exact He]. by etrans.
Qed.

Lemma load_run id (e : engine) r e' :
  load_active_record id e = (Ok r, e') →
  TransactionEngine.trace e' = TransactionEngine.trace e
  ∧ validate_for_serialization r = Ok tt
  ∧ ∃ st, SessionStateStore.load id e.(TransactionEngine.state_store) = (Ok r, st).
Proof.
  unfold load_active_record, mut_map_err, read_store.
  destruct (SessionStateStore.load id _) as [[r'|x] st] eqn:E; [|done].
  intros [= -> <-]. split; [done|]. split; [by eapply StoreLaws.load_validated|eauto].
Qed.

Lemma Quiet_load_active id (e : engine) res e' :
  load_active_record id e = (res, e') →
  TransactionEngine.active e' = TransactionEngine.active e.
Proof.
  unfold load_active_record, mut_map_err, read_store.
  destruct (SessionStateStore.load id _). by intros [= _ <-].
Qed.

Lemma require_run id (e : engine) u e' :
  require_active id e = (Ok u, e') → e' = e ∧ ∃ g, e.(TransactionEngine.active) = Some (id, g).
Proof.
  unfold require_active. destruct (TransactionEngine.active e) as [[id' g]|]; [|done].
  case_bool_decide; [|done]. intros [= _ <-]. subst. eauto.
Qed.

Lemma with_record_Ok {A} r (m : Mut both A) e a e' :
  with_record r m e = (Ok a, e') → ∃ r', m (e, r) = (Ok a, (e', r')).
Proof. unfold with_record. destruct (m (e, r)) as [x [e1 r1]]. intros [= -> <-]. by exists r1. Qed.

Lemma restore_cases id (e e' : engine) st :
  restore id e = (Ok st, e') →
  st = SessionState.Restored
  ∧ ∃ r s', SessionStateStore.load id e.(TransactionEngine.state_store) = (Ok r, s')
      ∧ (TransactionEngine.trace e' = TransactionEngine.trace e
         ∧ session_state r = SessionState.Restored
         ∨ ended (TransactionEngine.trace e) (TransactionEngine.trace e') r).
Proof.
  unfold restore. intros Hrun.
  apply mut_bind_Ok in Hrun as (e0 & e1 & [= <- <-] & Hrun).
  apply mut_bind_Ok in Hrun as (short & e1 & Hs & Hrun).
  assert (TransactionEngine.trace e1 = TransactionEngine.trace e
    ∧ if short : bool
      then ∃ r s', SessionStateStore.load id e.(TransactionEngine.state_store) = (Ok r, s')
                   ∧ session_state r = SessionState.Restored
      else e1 = e ∨ TransactionEngine.active e1 = None) as [Ht1 Hshort].
  { destruct (TransactionEngine.active e) eqn:Ea; [injection Hs as <- <-; auto|].
    apply mut_bind_Ok in Hs as (r & e2 & Hl & [= <- <-]).
    pose proof (Quiet_load_active _ _ _ _ Hl) as Hact.
    apply load_run in Hl as (Ht & _ & s & Hl). split; [done|].
    case_bool_decide; [eauto|right; congruence]. }
  destruct short.
  { injection Hrun as <- <-. split; [done|]. destruct Hshort as (r & s' & Hl & Hst). eauto 10. }
  apply mut_bind_Ok in Hrun as (u & e2 & (-> & g & Ha)%require_run & Hrun).
  destruct Hshort as [->|]; [|congruence].
  apply mut_bind_Ok in Hrun as (r & e2 & (Ht2 & _ & s & Hl)%load_run & Hrun).
  case_bool_decide as Hst.
  - apply mut_bind_Ok in Hrun as (u' & e3 & Hr%Frame_release & [= <- <-]).
    split; [done|]. exists r, s. split; [done|]. left. unfold Frame in Hr. split; congruence.
  - apply with_record_Ok in Hrun as (r' & Hrun).
    apply mut_bind_Ok in Hrun as (u' & s1 & Hp%Follows_prepare_restore & Hrun).
    apply mut_bind_Ok in Hrun as (st' & s2 & Hr & Hrun).
    apply restore_record_Ok in Hr as (-> & He). eapply ended_follows in He; [|exact Hp].
    rewrite bool_decide_true in Hrun by done.
    apply mut_bind_Ok in Hrun as (u2 & s3 & [_ Hl']%release_Ok & [= <- ->]).
    split; [done|]. exists r, s. split; [done|]. right. cbn in Hl', He. by rewrite Hl', <-Ht2.
Qed.

(** C8. [restore] succeeds only with [Restored], on the record the store holds
    for the session: either that record was restored already and nothing was
    called or written, or the last call was the durable write of a fully
    restored record with the same header, mutations and snapshots, in which
    every applied operation proves its captured original and none is
    ambiguous. *)
Theorem restore_means_restored id (e e' : engine) st :
  restore id e = (Ok st, e') →
  st = SessionState.Restored
  ∧ ∃ r s', SessionStateStore.load id e.(TransactionEngine.state_store) = (Ok r, s')
      ∧ (TransactionEngine.trace e' = TransactionEngine.trace e
         ∧ session_state r = SessionState.Restored
         ∨ ended (TransactionEngine.trace e) (TransactionEngine.trace e') r).
Proof. apply restore_cases. Qed.

(** ** Rollback and recovery *)

Lemma rollback_cases r trigger from_apply (e e' : engine) res :
  rollback_after_failure r trigger from_apply e = (res, e') →
  (res = Err trigger ∧ ended (TransactionEngine.trace e) (TransactionEngine.trace e') r)
  ∨ ∃ x, res = Err (combine_failure trigger x (SessionRecord.session_id r))
         ∧ SysboostError.retryability (combine_failure trigger x (SessionRecord.session_id r))
           = Retryability.AfterRecovery.
Proof.
  unfold rollback_after_failure, with_record. intros Hrun.
  match type of Hrun with context [mbind ?k ?m (e, r)] =>
    destruct (mbind k m (e, r)) as [x [e1 r1]] eqn:Hm end.
  injection Hrun as <- <-.
  apply mut_bind_cases in Hm as [(y & Hm & _)|([] & s1 & Hs1 & Hm)].
  { exfalso. destruct from_apply; [|done].
    apply mut_bind_cases in Hm as [(z & Hz & _)|(at_ & s2 & _ & Hm)].
    { unfold now_or_zero in Hz.
      apply mut_bind_cases in Hz as [(w & (? & ? & [=])%catch_run & _)|(? & ? & _ & [=])]. }
    destruct (session_state r); try done;
      (apply mut_bind_cases in Hm as [(z & (? & ? & [=])%catch_run & _)|([[]|w] & s3 & _ & Hm)];
       [done|]; apply on_record_run in Hm as [_ [=]]). }
  assert (Follows (e, r) s1) as Hf1.
  { clear Hm. revert Hs1. generalize (e, r). intros s0 Hs1.
    match type of Hs1 with ?m _ = _ => assert (Keeps Follows m) as Hk end;
      [|by apply Hk in Hs1]. pose proof Follows_now_or_zero. pose proof @Follows_record. keeps. }
  apply mut_bind_cases in Hm as [(y & (? & ? & [=])%catch_run & _)|(p & s2 & Hs2 & Hm)].
  apply (Keeps_catch _ _ (Follows_persist _)) in Hs2.
  apply mut_bind_cases in Hm as [(y & Hm & _)|([] & s3 & Hs3 & Hm)].
  { exfalso. destruct p; [done|]. apply on_record_run in Hm as [_ [=]]. }
  apply mut_bind_cases in Hm as [(y & (? & ? & [=])%catch_run & _)|(z & s4 & Hz & Hm)].
  apply catch_run in Hz as (res & Hz & [= ->]). destruct res as [st|w].
  - apply restore_record_Ok in Hz as (-> & He). injection Hm as <- Hs.
    left. split; [done|]. rewrite Hs in He. apply (ended_follows (e, r) s3); [|done].
    etrans; [exact Hf1|]. etrans; [exact Hs2|]. destruct p as [u|x].
    + by injection Hs3 as <-.
    + by apply (Follows_record _ (mutations_record_failure _)) in Hs3.
  - injection Hm as <- _. right. exists w. split; [done|]. by destruct w.
Qed.

(** A failed application always ends in an error.  It is the failure that
    triggered the rollback exactly when the rollback ended with the durable
    write of a fully restored record; otherwise the error tells the caller
    to run recovery first. *)
Theorem rollback_restores_or_escalates r trigger from_apply (e e' : engine) res :
  rollback_after_failure r trigger from_apply e = (res, e') →
  (res = Err trigger ∧ ended (TransactionEngine.trace e) (TransactionEngine.trace e') r)
  ∨ ∃ x, res = Err (combine_failure trigger x (SessionRecord.session_id r))
         ∧ SysboostError.retryability (combine_failure trigger x (SessionRecord.session_id r))
           = Retryability.AfterRecovery.
Proof. apply rollback_cases. Qed.

Lemma recover_one_Restored r (e e' : engine) status err :
  recover_one r e = (Ok (status, err), e') →
  err = None → status = TransactionStatus.mk (SessionRecord.session_id r) SessionState.Restored
  ∧ ended (TransactionEngine.trace e) (TransactionEngine.trace e') r.
Proof.
  unfold recover_one. intros (r' & Hrun)%with_record_Ok Hn. subst err.
  apply mut_bind_Ok in Hrun as (p & s1 & Hp & Hrun).
  apply (Keeps_catch _ _ Follows_prepare_restore) in Hp. destruct p as [u|x].
  2: { by apply mut_bind_Ok in Hrun as (? & ? & _ & [=]). }
  apply mut_bind_Ok in Hrun as (q & s2 & Hq & Hrun).
  apply catch_run in Hq as (res & Hq & [= ->]). destruct res as [st|x].
  - apply restore_record_Ok in Hq as (-> & He). injection Hrun as <- ->.
    split; [done|]. by apply (ended_follows (e, r) s1).
  - by apply mut_bind_Ok in Hrun as (? & ? & _ & [=]).
Qed.

Lemma recover_loop_Restored l (e e' : engine) statuses err :
  recover_loop l e = (Ok (statuses, err), e') → err = None →
  statuses = (λ r, TransactionStatus.mk (SessionRecord.session_id r) SessionState.Restored) <$> l
  ∧ Forall (ended_since (TransactionEngine.trace e) (TransactionEngine.trace e')) l.
Proof.
  revert e statuses err. induction l as [|r l IH]; intros e statuses err Hrun Hn;
    cbn [recover_loop] in Hrun.
  { injection Hrun as <- _ _. done. }
  apply mut_bind_Ok in Hrun as ([status err1] & e1 & Hone & Hrun).
  apply mut_bind_Ok in Hrun as ([sts err2] & e2 & Hl & [= <- Herr <-]).
  subst err. destruct err1; [done|]. subst err2.
  pose proof (recover_one_extends r e _ e1 Hone) as (t1 & Ht1 & _).
  destruct (recover_one_Restored _ _ _ _ _ Hone eq_refl) as (-> & Hd).
  destruct (IH _ _ _ Hl eq_refl) as (-> & Hall). split; [done|].
  apply recover_loop_extends in Hl as (t & Ht & _). constructor.
  - rewrite Ht. by apply ended_ended_since.
  - eapply Forall_impl; [exact Hall|]. intros x. rewrite Ht1. apply ended_since_extends.
Qed.

Lemma acquire_run f (e e' : engine) res :
  mut_map_err f acquire e = (res, e') →
  TransactionEngine.state_store e' = TransactionEngine.state_store e
  ∧ TransactionEngine.trace e' = TransactionEngine.trace e.
Proof.
  unfold mut_map_err, acquire. destruct (ExclusiveSessionLock.acquire _). by intros [= _ <-].
Qed.

(** A successful [recover_unfinished] reports exactly the unfinished
    sessions the store held when it was called, in the order of their IDs
    and all [Restored], and for each of them it durably wrote a fully
    restored record with the same header, mutations and snapshots. *)
Theorem recovery_restores_all (e e' : engine) statuses :
  recover_unfinished e = (Ok statuses, e') →
  ∃ records s',
    SessionStateStore.load_unfinished e.(TransactionEngine.state_store) = (Ok records, s')
    ∧ statuses = (λ r, TransactionStatus.mk (SessionRecord.session_id r) SessionState.Restored)
                   <$> merge_sort session_le records
    ∧ ∀ r, r ∈ records →
        ended_since (TransactionEngine.trace e) (TransactionEngine.trace e') r.
Proof.
  unfold recover_unfinished. intros Hrun.
  apply mut_bind_Ok in Hrun as (e0 & e1 & [= <- <-] & Hrun).
  destruct (TransactionEngine.active e); [done|].
  apply mut_bind_Ok in Hrun as (res & e1 & Hg & [= -> ->]).
  unfold with_guard in Hg. apply mut_bind_Ok in Hg as (g & e2 & Hacq & Hg).
  apply acquire_run in Hacq as [Hst2 Htr2].
  match type of Hg with context [match ?m with _ => _ end = _] =>
    destruct m as [[[a moved]|x] e3] eqn:Hbody end; [|done].
  apply mut_bind_Ok in Hbody as (records & e4 & Hload & Hbody). cbv zeta in Hbody.
  apply mut_bind_Ok in Hbody as ([sts err] & e5 & Hloop & Hbody).
  unfold read_store in Hload.
  destruct (SessionStateStore.load_unfinished (TransactionEngine.state_store e2)) as [y st] eqn:Hl.
  injection Hload as -> <-.
  destruct (_ && is_none err) eqn:Ec in Hbody.
  - apply andb_true_iff in Ec as [_ Hn]. destruct err; [done|]. injection Hbody as <- <- <-.
    injection Hg as <- <-. apply recover_loop_Restored in Hloop as [-> Hall]; [|done].
    rewrite Hst2 in Hl. exists records, st. split; [done|]. split; [done|]. intros r Hr.
    cbn [drop_guard TransactionEngine.trace]. rewrite <-Htr2. rewrite Forall_forall in Hall.
    apply Hall. by rewrite merge_sort_Permutation.
  - exfalso. destruct (unresolved sts) as [sid|] eqn:Hu.
    + apply mut_bind_Ok in Hbody as (u & e6 & _ & [= <- <- <-]). by injection Hg.
    + unfold unresolved in Hu. destruct (List.find _ sts) eqn:Hf; [done|].
      destruct sts as [|s0 sts]; [|done].
      assert (merge_sort session_le records = []) as Hnil.
      { destruct (merge_sort session_le records) as [|r0 rs]; [done|]. cbn [recover_loop] in Hloop.
        apply mut_bind_Ok in Hloop as ([? ?] & ? & _ & Hloop).
        by apply mut_bind_Ok in Hloop as ([? ?] & ? & _ & [=]). }
      rewrite Hnil in Hloop. injection Hloop as <- _. done.
Qed.

(** ** Apply *)

Definition settled (o : OperationRecord.t) : Prop :=
  o.(OperationRecord.state) = OperationState.Verified
  ∨ o.(OperationRecord.state) = OperationState.Restored.

Definition op_ids (r : SessionRecord.t) : list MutationId.t :=
  OperationRecord.id <$> r.(SessionRecord.operations).

(** Operation [i] of [r'] is the updated operation of [r], and the others
    are the same. *)
Definition updates_at (i : nat) (o' : OperationRecord.t) (r r' : SessionRecord.t) : Prop :=
  r'.(SessionRecord.operations) = <[i := o']> r.(SessionRecord.operations).

Lemma operation_mut_at {A} id (body : Mut OperationRecord.t A) r a r' i o :
  NoDup (op_ids r) → r.(SessionRecord.operations) !! i = Some o → OperationRecord.id o = id →
  SessionRecord.operation_mut id body r = (Ok a, r') →
  ∃ o', body o = (Ok a, o') ∧ updates_at i o' r r'.
Proof.
  intros Hn Hi Hid (j & oj & o' & Hj & Hidj & _ & Hb & ->)%operation_mut_inv.
  assert (j = i) as ->.
  { eapply NoDup_lookup; [exact Hn| |]; unfold op_ids; rewrite list_lookup_fmap.
    - by rewrite Hj.
    - rewrite Hi. cbn. congruence. }
  rewrite Hi in Hj. injection Hj as ->. by exists o'.
Qed.

Lemma updates_ids i o o' r r' :
  r.(SessionRecord.operations) !! i = Some o → OperationRecord.id o' = OperationRecord.id o →
  updates_at i o' r r' → op_ids r' = op_ids r.
Proof.
  intros Hi Hid Hu. unfold op_ids. rewrite Hu, list_fmap_insert, Hid, list_insert_id; [done|].
  by rewrite list_lookup_fmap, Hi.
Qed.

Lemma updates_trans i o1 o2 r r1 r2 :
  updates_at i o1 r r1 → updates_at i o2 r1 r2 → updates_at i o2 r r2.
Proof. unfold updates_at. intros -> ->. by rewrite list_insert_insert_eq. Qed.

Lemma updates_lookup i o o' r r' :
  r.(SessionRecord.operations) !! i = Some o → updates_at i o' r r' →
  r'.(SessionRecord.operations) !! i = Some o'.
Proof.
  unfold updates_at. intros Hi ->. apply list_lookup_insert_eq. by eapply lookup_lt_Some.
Qed.

Lemma engine_call_snd {A} (m : Mut engine A) (s : both) x s' :
  catch (on_engine m) s = (x, s') → snd s' = snd s.
Proof.
  intros (r & Hr & _)%catch_run. destruct s as [e rec]. unfold on_engine in Hr.
  destruct (m e). by injection Hr as _ <-.
Qed.

Lemma verify_step_None id m snap receipt (s s' : both) i o :
  NoDup (op_ids (snd s)) → (snd s).(SessionRecord.operations) !! i = Some o →
  OperationRecord.id o = m.(PlannedMutation.mutation_id) →
  verify_step id m snap receipt s = (Ok None, s') →
  ∃ o', updates_at i o' (snd s) (snd s') ∧ OperationRecord.id o' = OperationRecord.id o
        ∧ o'.(OperationRecord.state) = OperationState.Verified.
Proof.
  intros Hn Hi Hid Hrun. unfold verify_step in Hrun.
  apply mut_bind_Ok in Hrun as (x & s1 & Hc%engine_call_snd & Hrun).
  destruct x as [observed|e].
  2: { apply mut_bind_Ok in Hrun as (u & s2 & _ & Hrun). unfold fail_operation_with in Hrun.
       apply mut_bind_Ok in Hrun as (? & ? & _ & Hrun).
       by apply mut_bind_Ok in Hrun as (? & ? & _ & [=]). }
  apply mut_bind_Ok in Hrun as ([] & s2 & Hv & Hrun).
  apply on_record_run in Hv as [_ Hv]. rewrite Hc in Hv.
  case_bool_decide as Hm; cbn [negb] in Hrun.
  2: { unfold fail_operation_with in Hrun. apply mut_bind_Ok in Hrun as (? & ? & _ & Hrun).
       by apply mut_bind_Ok in Hrun as (? & ? & _ & [=]). }
  destruct (operation_mut_at _ _ _ _ _ _ _ Hn Hi Hid Hv) as (o' & Hb & Hu).
  apply mut_bind_Ok in Hrun as (y & s3 & Hp & Hrun).
  destruct y as [u|e]; [|by apply mut_bind_Ok in Hrun as (? & ? & _ & [=])].
  apply catch_persist_Ok in Hp as (Hs3 & _). injection Hrun as <-.
  exists o'. rewrite Hs3. split; [done|]. case_bool_decide as Hneq; [done|].
  by apply transition_inv in Hb as (_ & ->).
Qed.

Lemma apply_operation_None id i o (s s' : both) :
  NoDup (op_ids (snd s)) → (snd s).(SessionRecord.operations) !! i = Some o →
  apply_operation id i o s = (Ok None, s') →
  ∃ o', updates_at i o' (snd s) (snd s') ∧ OperationRecord.id o' = OperationRecord.id o
        ∧ o'.(OperationRecord.state) = OperationState.Verified.
Proof.
  intros Hn Hi Hrun. unfold apply_operation in Hrun.
  apply mut_bind_Ok in Hrun as ([] & s1 & Ht & Hrun).
  apply on_record_run in Ht as [_ Ht].
  apply (transition_at_run _ _ _ _ _ Hi) in Ht.
  set (o1 := OperationRecord.set_state OperationState.Applying o) in *.
  assert (updates_at i o1 (snd s) (snd s1)) as Hu1 by (by rewrite Ht). clear Ht.
  apply mut_bind_Ok in Hrun as (y & s2 & Hp & Hrun).
  destruct y as [u|e]; [|by apply mut_bind_Ok in Hrun as (? & ? & _ & [=])].
  apply catch_persist_Ok in Hp as (Hs2 & _).
  apply mut_bind_Ok in Hrun as (snap & s3 & [= _ <-] & Hrun).
  apply mut_bind_Ok in Hrun as (x & s3 & Hc%engine_call_snd & Hrun).
  destruct x as [receipt|e].
  2: { apply mut_bind_Ok in Hrun as (? & ? & _ & Hrun).
       by apply mut_bind_Ok in Hrun as (? & ? & _ & [=]). }
  destruct (_ || _ || _).
  { apply mut_bind_Ok in Hrun as (? & ? & _ & Hrun). unfold fail_operation_with in Hrun.
    apply mut_bind_Ok in Hrun as (? & ? & _ & Hrun).
    by apply mut_bind_Ok in Hrun as (? & ? & _ & [=]). }
  apply mut_bind_Ok in Hrun as ([] & s4 & Ha & Hrun).
  apply on_record_run in Ha as [_ Ha]. rewrite Hc, Hs2 in Ha.
  assert (op_ids (snd s1) = op_ids (snd s)) as Hids1
    by exact (updates_ids i o o1 _ _ Hi eq_refl Hu1).
  assert (SessionRecord.operations (snd s1) !! i = Some o1) as Hi1 by (by eapply updates_lookup).
  rewrite <-Hids1 in Hn.
  destruct (operation_mut_at _ _ _ _ _ _ _ Hn Hi1 eq_refl Ha) as (o2 & Hb & Hu2).
  assert (OperationRecord.id o2 = OperationRecord.id o1) as Hid2.
  { revert Hb. case_bool_decide; [done|]. by intros (_ & ->)%transition_inv. }
  apply mut_bind_Ok in Hrun as (y & s5 & Hp & Hrun).
  destruct y as [u'|e]; [|by apply mut_bind_Ok in Hrun as (? & ? & _ & [=])].
  apply catch_persist_Ok in Hp as (Hs5 & _).
  assert (SessionRecord.operations (snd s4) !! i = Some o2) as Hi2 by (by eapply updates_lookup).
  rewrite <-(updates_ids _ _ _ _ _ Hi1 Hid2 Hu2) in Hn. rewrite <-Hs5 in Hn, Hi2.
  destruct (verify_step_None _ _ _ _ _ _ _ _ Hn Hi2 Hid2 Hrun) as (o3 & Hu3 & Hid3 & Hst).
  exists o3. split_and!; [|by rewrite Hid3, Hid2|done].
  rewrite Hs5 in Hu3. eauto using updates_trans.
Qed.

(** One step that lets the loop go on: its operation is settled, the others
    are untouched. *)
Lemma apply_step_None id i (s s' : both) :
  NoDup (op_ids (snd s)) → apply_step id i s = (Ok None, s') →
  op_ids (snd s') = op_ids (snd s)
  ∧ (∀ o', (snd s').(SessionRecord.operations) !! i = Some o' → settled o')
  ∧ ∀ j, j ≠ i → (snd s').(SessionRecord.operations) !! j = (snd s).(SessionRecord.operations) !! j.
Proof.
  intros Hn Hrun. unfold apply_step in Hrun.
  apply mut_bind_Ok in Hrun as (r & s1 & [= <- <-] & Hrun).
  destruct (SessionRecord.operations (snd s) !! i) as [o|] eqn:Hi.
  2: { injection Hrun as <-. split_and!; [done|by rewrite Hi|done]. }
  assert (settled o → s' = s → op_ids (snd s') = op_ids (snd s)
    ∧ (∀ o', (snd s').(SessionRecord.operations) !! i = Some o' → settled o')
    ∧ ∀ j, j ≠ i → (snd s').(SessionRecord.operations) !! j
                    = (snd s).(SessionRecord.operations) !! j) as Hskip.
  { intros Ho ->. split_and!; [done| |done]. rewrite Hi. by intros o' [= <-]. }
  unfold settled in Hskip.
  destruct (OperationRecord.state o) eqn:Est;
    try (unfold fail_with in Hrun; by apply mut_bind_Ok in Hrun as (? & ? & _ & [=]));
    try (injection Hrun as <-; by apply Hskip; auto).
  destruct (apply_operation_None _ _ _ _ _ Hn Hi Hrun) as (o' & Hu & Hid & Hst).
  split_and!.
  - by eapply updates_ids.
  - intros o2. rewrite (updates_lookup _ _ _ _ _ Hi Hu). intros [= <-]. by left.
  - intros j Hj. rewrite Hu. by apply list_lookup_insert_ne.
Qed.

Lemma apply_loop_None id l (s s' : both) :
  NoDup (op_ids (snd s)) → NoDup l → apply_loop id l s = (Ok None, s') →
  op_ids (snd s') = op_ids (snd s)
  ∧ (∀ i o', i ∈ l → (snd s').(SessionRecord.operations) !! i = Some o' → settled o')
  ∧ ∀ j, j ∉ l → (snd s').(SessionRecord.operations) !! j = (snd s).(SessionRecord.operations) !! j.
Proof.
  revert s. induction l as [|i l IH]; intros s Hn Hl Hrun; cbn [apply_loop] in Hrun.
  { injection Hrun as <-. split_and!; [done|set_solver|done]. }
  apply NoDup_cons in Hl as [Hil Hl].
  apply mut_bind_Ok in Hrun as ([e|] & s1 & Hs & Hrun); [done|].
  destruct (apply_step_None _ _ _ _ Hn Hs) as (Hids & Hset & Hrest).
  rewrite <-Hids in Hn. destruct (IH s1 Hn Hl Hrun) as (Hids' & Hset' & Hrest').
  split_and!; [congruence| |].
  - intros j o' [->|Hj]%elem_of_cons Ho'; [|by eapply Hset'].
    rewrite Hrest' in Ho' by done. by eapply Hset.
  - intros j [Hji Hj]%not_elem_of_cons. by rewrite Hrest', Hrest.
Qed.

(** All operations were settled, and the last write says [Active]. *)
Definition fully_applied (r : SessionRecord.t) : Prop :=
  session_state r = SessionState.Active
  ∧ ∀ o, o ∈ r.(SessionRecord.operations) →
      o.(OperationRecord.state) = OperationState.Restored
      ∨ o.(OperationRecord.state) = OperationState.Verified
        ∧ ∃ s a v, o.(OperationRecord.snapshot) = Some s
            ∧ o.(OperationRecord.apply_receipt) = Some a
            ∧ o.(OperationRecord.verification) = Some v
            ∧ v.(VerificationResult.observed) = Some a.(ApplyReceipt.ownership_fingerprint).

Lemma apply_record_None id (s s' : both) :
  NoDup (op_ids (snd s)) → apply_record id s = (Ok None, s') →
  ∃ r, durable (TransactionEngine.trace (fst s')) r ∧ fully_applied r
       ∧ record_plan r = record_plan (snd s).
Proof.
  intros Hn Hrun. pose proof (Follows_apply_record _ _ _ _ Hrun) as [_ Hplan].
  unfold on_snd, Frame in Hplan. unfold apply_record in Hrun.
  apply mut_bind_Ok in Hrun as (r & s1 & [= <- <-] & Hrun).
  apply mut_bind_Ok in Hrun as (at_ & s1 & Hnow & Hrun).
  assert (catch (on_engine (now Stage.Apply)) s = (Ok (Ok at_), s1)) as Hnow'
    by (unfold catch; by rewrite Hnow).
  apply engine_call_snd in Hnow'. clear Hnow.
  apply mut_bind_Ok in Hrun as ([] & s2 & Ht & Hrun).
  apply on_record_run in Ht as [_ (_ & Hops & _)%transition_record_Ok]. rewrite Hnow' in Hops.
  apply mut_bind_Ok in Hrun as (y & s3 & Hp & Hrun).
  destruct y as [u|e]; [|by apply mut_bind_Ok in Hrun as (? & ? & _ & [=])].
  apply catch_persist_Ok in Hp as (Hs3 & _).
  apply mut_bind_Ok in Hrun as ([e|] & s4 & Hl & Hrun); [done|].
  assert (NoDup (op_ids (snd s3))) as Hn3 by (unfold op_ids; by rewrite Hs3, Hops).
  destruct (apply_loop_None _ _ _ _ Hn3 (NoDup_seq _ _) Hl) as (Hids & Hset & _).
  apply mut_bind_Ok in Hrun as (at2 & s5 & Hnow & Hrun).
  assert (catch (on_engine (now Stage.Verify)) s4 = (Ok (Ok at2), s5)) as Hnow2
    by (unfold catch; by rewrite Hnow).
  apply engine_call_snd in Hnow2. clear Hnow.
  apply mut_bind_Ok in Hrun as ([] & s6 & Ht & Hrun).
  apply on_record_run in Ht as [_ (Hst & Hops6 & _)%transition_record_Ok]. rewrite Hnow2 in Hops6.
  apply mut_bind_Ok in Hrun as (y & s7 & Hp & Hrun).
  destruct y as [u'|e]; [|by apply mut_bind_Ok in Hrun as (? & ? & _ & [=])].
  apply catch_persist_Ok in Hp as (Hs7 & Hd & Hv). injection Hrun as <-.
  exists (snd s6). split; [done|]. split; [|congruence]. split; [done|]. intros o Ho.
  assert (settled o) as [Hver|Hres]; [|right|by left].
  { rewrite Hops6 in Ho. apply list_elem_of_lookup in Ho as [i Hi].
    apply (Hset i o); [|done]. apply elem_of_seq.
    apply (f_equal length) in Hids. unfold op_ids in Hids. rewrite !length_fmap, Hs3, Hops in Hids.
    apply lookup_lt_Some in Hi. lia. }
  split; [done|]. destruct (operation_evidence _ _ Hv Ho) as (Hsnap & Hread & _).
  destruct (Hread Hver) as (a & v & Ha & Hvv & Hobs).
  destruct (Hsnap a Ha) as (sn & Hsn & _). by exists sn, a, v.
Qed.

End Results.
