(* ===== verification/EngineSession.v ===== *)
(** * The session an engine owns

    What [prepare] has made durable when it returns a session ID, and the
    life of the lease: taken by a successful [prepare], given back by a
    failed one, and kept through apply and restore until a restored record
    is durable. *)
From S2P Require Import Prelude Lists Text Ids Mut Capability Mutation Plan Session.
From S2P Require Import Record RecordInvariant Mut Ports Engine EngineTrace.
From S2P Require Import EngineTrace EngineOutcome EngineResult.
Unset Default Proof Using.

(** ** The candidate record *)

Definition captured (m : PlannedMutation.t) (s : Snapshot.t) : OperationRecord.t :=
  OperationRecord.mk m OperationState.Snapshotted (Some s) None None None None.
Definition intended (m : PlannedMutation.t) (s : Snapshot.t) : OperationRecord.t :=
  OperationRecord.mk m OperationState.IntentRecorded (Some s) None None None None.

(** What [capture_all] accepted for one mutation. *)
Definition preimage_of (m : PlannedMutation.t) (s : Snapshot.t) : Prop :=
  s.(Snapshot.mutation_id) = m.(PlannedMutation.mutation_id)
  ∧ s.(Snapshot.target) = m.(PlannedMutation.target)
  ∧ s.(Snapshot.equality) = m.(PlannedMutation.equality)
  ∧ s.(Snapshot.original_fingerprint) = m.(PlannedMutation.precondition).

Lemma captures_run ms1 ss1 ms2 ss2 r r' :
  length ms1 = length ss1 → Forall2 preimage_of ms2 ss2 →
  r.(SessionRecord.operations) = zip_with captured ms1 ss1 ++ (OperationRecord.planned <$> ms2) →
  NoDup (op_ids r) →
  mut_for_each SessionRecord.capture_snapshot ss2 r = (Ok tt, r') →
  r' = SessionRecord.set_operations (zip_with captured (ms1 ++ ms2) (ss1 ++ ss2)) r.
Proof.
  intros Hlen H2. revert ms1 ss1 Hlen r. induction H2 as [|m s ms2 ss2 Hms H2 IH];
    intros ms1 ss1 Hlen r Hops Hn Hrun; cbn [mut_for_each] in Hrun.
  { injection Hrun as <-. rewrite !app_nil_r. cbn in Hops. rewrite app_nil_r in Hops.
    rewrite <-Hops. by destruct r. }
  apply mut_bind_Ok in Hrun as ([] & r1 & Hc & Hrun).
  assert (SessionRecord.operations r !! length ms1 = Some (OperationRecord.planned m)) as Hi.
  { rewrite Hops, lookup_app_r; rewrite length_zip_with_l_eq by done; [|done].
    by rewrite Nat.sub_diag. }
  unfold SessionRecord.capture_snapshot in Hc.
  pose proof Hc as Hr1. apply operation_mut_inv in Hr1 as (j & oj & oj' & _ & _ & _ & _ & Hr1).
  destruct (operation_mut_at _ _ _ _ _ _ _ Hn Hi (eq_sym (proj1 Hms)) Hc) as (o' & Hb & Hu).
  assert (o' = captured m s) as ->.
  { revert Hb. cbn. destruct (_ || _ || _ || _); [done|]. by intros [= <-]. }
  assert (SessionRecord.operations r1
          = zip_with captured (ms1 ++ [m]) (ss1 ++ [s]) ++ (OperationRecord.planned <$> ms2)) as Hops1.
  { rewrite Hu, Hops, insert_app_r_alt; rewrite length_zip_with_l_eq by done; [|done].
    rewrite Nat.sub_diag, zip_with_app by done. cbn. by rewrite <-app_assoc. }
  assert (r1 = SessionRecord.set_operations (SessionRecord.operations r1) r) as Hr1'
    by (by rewrite Hr1).
  assert (op_ids r1 = op_ids r) as Hids by exact (updates_ids _ _ (captured m s) _ _ Hi eq_refl Hu).
  rewrite <-Hids in Hn.
  rewrite (IH (ms1 ++ [m]) (ss1 ++ [s]) ltac:(rewrite !length_app; cbn; lia) r1 Hops1 Hn Hrun).
  rewrite <-!app_assoc. cbn [app]. by rewrite Hr1'.
Qed.

Lemma record_intent_run ms ss r r' :
  length ms = length ss → r.(SessionRecord.operations) = zip_with captured ms ss →
  SessionRecord.record_intent r = (Ok tt, r') →
  r' = SessionRecord.set_operations (zip_with intended ms ss) r.
Proof.
  intros Hlen Hops. unfold SessionRecord.record_intent.
  destruct (existsb _ _); [done|].
  assert (SessionRecord.transition_all OperationState.IntentRecorded (zip_with captured ms ss)
          = (Ok tt, zip_with intended ms ss)) as Hall.
  { clear Hops. revert ss Hlen. induction ms as [|m ms IH]; intros [|s ss] Hlen; try done.
    cbn [zip_with SessionRecord.transition_all]. cbn in Hlen. injection Hlen as Hlen.
    by rewrite (IH ss Hlen). }
  rewrite Hops, Hall. by intros [= <-].
Qed.

(** The record of a durable intent for a plan: the header of the plan, and for
    each of its mutations, in order, a recorded intent with a preimage. *)
Definition intent_record (plan : Plan.t) (sid : SessionId.t) (record : SessionRecord.t) : Prop :=
  ∃ at_ snaps,
    Forall2 preimage_of plan.(Plan.mutations) snaps
    ∧ record.(SessionRecord.session) = Session.mk (Session.new sid plan at_).(Session.header) SessionState.IntentDurable
    ∧ record.(SessionRecord.operations) = zip_with intended plan.(Plan.mutations) snaps.

Lemma candidate_record_intent sid plan at_ snaps record :
  Forall2 preimage_of plan.(Plan.mutations) snaps →
  candidate_record sid plan at_ snaps = Ok record →
  record.(SessionRecord.session).(Session.header) = (Session.new sid plan at_).(Session.header)
  ∧ session_state record = SessionState.IntentDurable
  ∧ record.(SessionRecord.operations) = zip_with intended plan.(Plan.mutations) snaps.
Proof.
  intros H2 Hc. unfold candidate_record in Hc. apply bind_Ok in Hc as (r0 & Hnew & Hc).
  assert (SessionRecord.operations r0 = OperationRecord.planned <$> Plan.mutations plan
    ∧ NoDup (mutation_ids (Plan.mutations plan))
    ∧ SessionRecord.session r0 = Session.new sid plan at_) as (Hops0 & Hn0 & Hs0).
  { revert Hnew. unfold SessionRecord.new, planning_error.
    destruct (bool_decide _); [done|]. destruct (_ <? _)%N; [done|]. intros (ops & Hops & [= <-])%bind_Ok.
    by apply new_operations_Ok in Hops as (-> & Hn & _). }
  destruct (intent_steps at_ snaps r0) as [res r] eqn:Hrun.
  apply bind_Ok in Hc as ([] & -> & [= <-]).
  unfold intent_steps in Hrun.
  apply mut_bind_Ok in Hrun as ([] & r1 & Ht1 & Hrun).
  apply mut_bind_Ok in Hrun as ([] & r2 & Ht2 & Hrun).
  apply mut_bind_Ok in Hrun as ([] & r3 & Hcap & Hrun).
  apply mut_bind_Ok in Hrun as ([] & r4 & Ht4 & Hrun).
  apply mut_bind_Ok in Hrun as ([] & r5 & Hint & Ht6).
  assert (∀ next reason a b, SessionRecord.transition next at_ reason a = (Ok tt, b) →
    b.(SessionRecord.session).(Session.header) = a.(SessionRecord.session).(Session.header)) as Hsid.
  { intros next reason a b. unfold SessionRecord.transition. destruct (_ || _ || _); [done|].
    destruct (Session.transition _ next) as [s'|] eqn:E; [|done]. intros [= <-].
    by apply transition_Ok in E as [_ ->]. }
  apply Hsid in Ht1 as Hi1. apply Hsid in Ht2 as Hi2. apply Hsid in Ht4 as Hi4.
  apply Hsid in Ht6 as Hi6.
  apply transition_record_Ok in Ht1 as (_ & Ho1 & _). apply transition_record_Ok in Ht2 as (_ & Ho2 & _).
  apply transition_record_Ok in Ht4 as (_ & Ho4 & _).
  apply transition_record_Ok in Ht6 as (Hst & Ho6 & _).
  assert (SessionRecord.operations r2 = OperationRecord.planned <$> Plan.mutations plan) as Hops2
    by congruence.
  assert (NoDup (op_ids r2)) as Hn2.
  { unfold op_ids. rewrite Hops2, <-list_fmap_compose. exact Hn0. }
  apply (captures_run [] [] _ _ _ _ eq_refl H2 Hops2 Hn2) in Hcap. cbn [app] in Hcap.
  assert (SessionRecord.operations r4 = zip_with captured (Plan.mutations plan) snaps) as Hops4
    by (rewrite Ho4, Hcap; done).
  apply (record_intent_run _ _ _ _ (Forall2_length _ _ _ H2) Hops4) in Hint.
  split_and!; [|done|].
  - rewrite Hi6, Hint. cbn. rewrite Hi4, Hcap. cbn. by rewrite Hi2, Hi1, Hs0.
  - by rewrite Ho6, Hint.
Qed.

Lemma candidate_record_Ok sid plan at_ snaps record :
  Forall2 preimage_of plan.(Plan.mutations) snaps →
  candidate_record sid plan at_ snaps = Ok record →
  SessionRecord.session_id record = sid
  ∧ session_state record = SessionState.IntentDurable
  ∧ record.(SessionRecord.operations) = zip_with intended plan.(Plan.mutations) snaps.
Proof.
  intros H2 (Hh & Hst & Hops)%candidate_record_intent; [|done]. split; [|done].
  unfold SessionRecord.session_id. by rewrite Hh.
Qed.

Lemma candidate_record_for sid plan at_ snaps record :
  Forall2 preimage_of plan.(Plan.mutations) snaps →
  candidate_record sid plan at_ snaps = Ok record → intent_record plan sid record.
Proof.
  intros H2 (Hh & Hst & Hops)%candidate_record_intent; [|done]. exists at_, snaps. split_and!; [done| |done].
  unfold session_state in Hst. destruct record.(SessionRecord.session). cbn in *. by subst.
Qed.

Section Sessions.
Context {B St L G I C : Type}.
Context `{!MutationBackend.t B, !SessionStateStore.t St, !ExclusiveSessionLock.t L G,
          !SessionIdSource.t I, !Clock.t C}.
Abbreviation engine := (TransactionEngine.t B St L G I C).
Abbreviation both := (engine * SessionRecord.t)%type.

(** ** What a prepared session is *)

Lemma validate_snapshot_Ok m s :
  validate_snapshot m s = Ok tt ↔
  s.(Snapshot.mutation_id) = m.(PlannedMutation.mutation_id)
  ∧ s.(Snapshot.target) = m.(PlannedMutation.target)
  ∧ s.(Snapshot.equality) = m.(PlannedMutation.equality).
Proof.
  unfold validate_snapshot. split.
  - destruct (_ || _ || _) eqn:E; [done|]. norm_guards. tauto.
  - intros (H1' & H2' & H3'). by rewrite !bool_decide_false by (intros Hne; by apply Hne).
Qed.

Lemma on_backend_run {A} (c : Result A → call) (m : Mut B A) (e : engine) res e' :
  on_backend c m e = (res, e') →
  TransactionEngine.trace e' = TransactionEngine.trace e ++ [c res].
Proof. unfold on_backend. destruct (m _). by intros [= -> <-]. Qed.

Lemma capture_all_extends at_ l : Keeps (Appends (λ _, True)) (capture_all at_ l : Mut engine _).
Proof. apply walk_capture_all; [apply _|]. intros. by apply Appends_backend. Qed.

Lemma capture_all_Ok at_ l (e e' : engine) snaps :
  capture_all at_ l e = (Ok snaps, e') →
  Forall2 (λ m s, preimage_of m s ∧ CSnapshot m (Ok s) ∈ TransactionEngine.trace e') l snaps.
Proof.
  revert e snaps. induction l as [|m l IH]; intros e snaps Hrun; cbn [capture_all] in Hrun.
  { injection Hrun as <- _. constructor. }
  apply mut_bind_Ok in Hrun as (s & e1 & Hs & Hrun).
  apply mut_bind_Ok in Hrun as ([] & e2 & [= Hv <-] & Hrun).
  apply mut_bind_Ok in Hrun as ([] & e3 & [= Hf <-] & Hrun).
  apply mut_bind_Ok in Hrun as (rest & e4 & Hl & [= <- <-]).
  apply validate_snapshot_Ok in Hv as (H1' & H2' & H3').
  apply ensure_Ok, bool_decide_eq_true in Hf.
  constructor; [|by eapply IH]. split; [done|].
  apply capture_all_extends in Hl as (t & -> & _). apply elem_of_app. left.
  unfold mut_map_err in Hs. destruct (backend_snapshot m at_ e) as [x e2] eqn:Hb.
  destruct x as [s'|]; [|done]. injection Hs as -> <-.
  apply on_backend_run in Hb as ->. set_solver.
Qed.

Lemma create_session_Ok n plan at_ snaps g (e e' : engine) sid moved :
  create_session n plan at_ snaps g e = (Ok (sid, moved), e') →
  moved = true ∧ TransactionEngine.active e' = Some (sid, g)
  ∧ Appends (λ _, True) e e'
  ∧ ∃ record, candidate_record sid plan at_ snaps = Ok record
      ∧ last (TransactionEngine.trace e') = Some (CCreate record (Ok tt)).
Proof.
  revert e. induction n as [|n IH]; intros e Hrun; cbn [create_session] in Hrun; [done|].
  apply mut_bind_Ok in Hrun as (id & e1 & Hid & Hrun).
  apply mut_bind_Ok in Hrun as (record & e2 & [= Hrec <-] & Hrun).
  apply mut_bind_Ok in Hrun as (created & e2 & Hc & Hrun).
  apply catch_run in Hc as (res & Hc & [= ->]).
  assert (Appends (λ _, True) e e1) as Ha1.
  { eapply (Appends_frame _ _ (Keeps_map_err _ _ _ (Frame_id_source _))). exact Hid. }
  assert (Appends (λ _, True) e1 e2) as Ha2 by (by eapply Appends_store; [|exact Hc]).
  destruct res as [u|x].
  - apply mut_bind_Ok in Hrun as (u' & e3 & [= _ <-] & [= <- <- <-]).
    split; [done|]. split; [unfold set_active; by destruct (TransactionEngine.active e2) as [[]|]|].
    split.
    + etrans; [exact Ha1|]. etrans; [exact Ha2|].
      eapply (Appends_frame _ _ (Frame_set_active _)). done.
    + exists record. split; [done|]. rewrite set_active_trace.
      unfold on_store in Hc. destruct (SessionStateStore.create record _) as [y st].
      injection Hc as -> <-. cbn. rewrite last_snoc. by destruct u.
  - case_bool_decide; [|done]. destruct (IH e2 Hrun) as (Hm & Ha & Happ & Hr).
    split_and!; try done. etrans; [exact Ha1|]. by etrans.
Qed.

Lemma candidate_record_ids sid plan at_ snaps record :
  candidate_record sid plan at_ snaps = Ok record → NoDup (mutation_ids plan.(Plan.mutations)).
Proof.
  unfold candidate_record. intros (r0 & Hnew & _)%bind_Ok. revert Hnew.
  unfold SessionRecord.new, planning_error.
  destruct (bool_decide _); [done|]. destruct (_ <? _)%N; [done|]. intros (ops & Hops & _)%bind_Ok.
  by apply new_operations_Ok in Hops as (_ & Hn & _).
Qed.

(** ** What a preparation of a plan does, whatever its result *)

Definition intent_of (plan : Plan.t) (c : call) : Prop :=
  match c with
  | CSnapshot m _ => m ∈ plan.(Plan.mutations)
  | CCreate r _ => ∃ sid, intent_record plan sid r
  | _ => False
  end.

Lemma capture_all_intent plan at_ l :
  l ⊆ plan.(Plan.mutations) → Keeps (Appends (intent_of plan)) (capture_all at_ l : Mut engine _).
Proof.
  induction l as [|m l IH]; intros Hl; cbn [capture_all]; keeps.
  - apply Appends_backend. intros r. apply Hl. by left.
  - apply IH. set_solver.
Qed.

Lemma create_session_intent n plan at_ snaps g :
  Forall2 preimage_of plan.(Plan.mutations) snaps →
  Keeps (Appends (intent_of plan)) (create_session n plan at_ snaps g : Mut engine _).
Proof.
  intros Hpre. induction n as [|n IH]; cbn [create_session]; [keeps|].
  apply Keeps_bind; [apply _|apply Keeps_map_err, Appends_frame, Frame_id_source|intros id].
  intros e res e' Hrun.
  apply mut_bind_cases in Hrun as [(x & [= _ <-] & _)|(record & e1 & [= Hrec <-] & Hrun)]; [done|].
  apply candidate_record_for in Hrec; [|done].
  match type of Hrun with ?m e = _ => enough (Keeps (Appends (intent_of plan)) m) as Hm by (by eapply Hm) end.
  clear Hrun. keeps; [apply Appends_store; by eexists|apply Appends_frame, Frame_set_active].
Qed.

Lemma prepare_intent plan : Keeps (Appends (intent_of plan)) (prepare plan : Mut engine _).
Proof.
  unfold prepare. apply Keeps_bind; [apply _|keeps|intros e0]. destruct (TransactionEngine.active e0); [keeps|].
  keeps. apply Appends_with_guard. intros g.
  apply Keeps_bind; [apply _|apply Keeps_map_err, Appends_frame, Frame_read_store|intros unfinished].
  apply Keeps_bind; [apply _|keeps|intros []].
  apply Keeps_bind; [apply _|apply walk_now; intros; apply Appends_frame, Frame_clock|intros at_].
  intros e res e' Hrun.
  apply mut_bind_cases in Hrun as [(x & Hcap & _)|(snaps & e1 & Hcap & Hrun)];
    pose proof (capture_all_intent plan _ _ (reflexivity _) _ _ _ Hcap) as Ha; [done|].
  apply capture_all_Ok in Hcap. etrans; [exact Ha|]. eapply create_session_intent; [|exact Hrun].
  eapply Forall2_impl; [exact Hcap|]. by intros ?? [? _].
Qed.

(** The steps of a successful [prepare]. *)
Lemma prepare_inv plan (e e' : engine) sid :
  prepare plan e = (Ok sid, e') →
  TransactionEngine.active e = None
  ∧ Plan.validate_complete plan = Ok tt ∧ plan.(Plan.mutations) ≠ []
  ∧ ∃ f f' g at_ snaps e1 e2 e3 e4,
      mut_map_err f acquire e = (Ok g, e1)
      ∧ mut_map_err f' (read_store SessionStateStore.load_unfinished) e1 = (Ok [], e2)
      ∧ now Stage.Detect e2 = (Ok at_, e3)
      ∧ capture_all at_ plan.(Plan.mutations) e3 = (Ok snaps, e4)
      ∧ create_session 32 plan at_ snaps g e4 = (Ok (sid, true), e').
Proof.
  unfold prepare. intros Hrun.
  apply mut_bind_Ok in Hrun as (e0 & e1 & [= <- <-] & Hrun).
  destruct (TransactionEngine.active e) eqn:Ea; [done|]. split; [done|].
  apply mut_bind_Ok in Hrun as ([] & e1 & [= Hv <-] & Hrun). split; [done|].
  apply mut_bind_Ok in Hrun as ([] & e1 & [= Hne <-] & Hrun).
  apply ensure_Ok, negb_true_iff, bool_decide_eq_false in Hne. split; [done|].
  unfold with_guard in Hrun. apply mut_bind_Ok in Hrun as (g & e1 & Hacq & Hg).
  match type of Hg with context [match ?m with _ => _ end = _] =>
    destruct m as [[[a moved]|x] e2] eqn:Hbody end; [|done].
  apply mut_bind_Ok in Hbody as (unfinished & e3 & Hun & Hbody).
  apply mut_bind_Ok in Hbody as ([] & e4 & [= He <-] & Hbody).
  apply ensure_Ok, bool_decide_eq_true in He as ->.
  apply mut_bind_Ok in Hbody as (at_ & e5 & Hat & Hbody).
  apply mut_bind_Ok in Hbody as (snaps & e6 & Hcap & Hcreate).
  destruct (create_session_Ok _ _ _ _ _ _ _ _ _ Hcreate) as (-> & _).
  injection Hg as -> <-. eauto 20.
Qed.


(** ** The lease *)

Definition lease_kept (e e' : engine) : Prop :=
  TransactionEngine.active e' = TransactionEngine.active e
  ∧ TransactionEngine.lock e' = TransactionEngine.lock e.

(** The engine dropped its guard. *)
Definition lease_given_back (e e' : engine) : Prop :=
  TransactionEngine.active e' = None
  ∧ ∃ id g, TransactionEngine.active e = Some (id, g)
      ∧ TransactionEngine.lock e' = ExclusiveSessionLock.release g (TransactionEngine.lock e).

(** Any number of calls, and the lease is kept. *)
Definition Quiet (e e' : engine) : Prop := Appends (λ _, True) e e' ∧ lease_kept e e'.

(** The lease is kept, or given back with a durable end of the session of
    [r]. *)
Definition Lease (r : SessionRecord.t) (e e' : engine) : Prop :=
  Appends (λ _, True) e e'
  ∧ (lease_kept e e'
     ∨ lease_given_back e e'
       ∧ ended_since (TransactionEngine.trace e) (TransactionEngine.trace e') r).

#[local] Instance Quiet_preorder : PreOrder Quiet.
Proof.
  split; [split; [reflexivity|done]|]. intros a b c [Hab [??]] [Hbc [??]].
  split; [by etrans|]. split; congruence.
Qed.

#[local] Instance Lease_preorder r : PreOrder (Lease r).
Proof.
  split; [split; [reflexivity|left; done]|].
  intros a b c [Hab Lab] [Hbc Lbc]. split; [by etrans|].
  destruct Hab as (t1 & Et1 & _), Hbc as (t2 & Et2 & _).
  unfold lease_kept, lease_given_back in *.
  destruct Lab as [[Ha1 Ha2]|[(Ha1 & id & g & Ha2 & Ha3) He]],
    Lbc as [[Hb1 Hb2]|[(Hb1 & id' & g' & Hb2 & Hb3) Hd]].
  - left. split; congruence.
  - right. split; [split; [done|]; exists id', g'; split; congruence|].
    rewrite Et1 in Hd. exact (ended_since_extends _ _ _ _ Hd).
  - right. split; [split; [congruence|exists id, g; split; congruence]|].
    rewrite Et2. by apply ended_since_app.
  - congruence.
Qed.

Lemma Quiet_is_Lease r (e e' : engine) : Quiet e e' → Lease r e e'.
Proof. intros [Ha Hk]. split; [done|by left]. Qed.

Lemma Lease_plan r r' (e e' : engine) :
  record_plan r = record_plan r' → Lease r e e' → Lease r' e e'.
Proof.
  intros Hp [Ha [Hk|[Hg (t & r1 & Ht & Hin & Hf & Hr)]]]; split; [done|by left|done|].
  right. split; [done|]. exists t, r1. rewrite <-Hp. done.
Qed.

Lemma Quiet_backend {A} (c : Result A → call) (m : Mut B A) :
  Keeps Quiet (on_backend c m : Mut engine A).
Proof.
  intros e res e' Hr. split; [by eapply Appends_backend in Hr|].
  unfold on_backend in Hr. destruct (m _). by injection Hr as _ <-.
Qed.
Lemma Quiet_store (c : Result unit → call) (m : Mut St unit) :
  Keeps Quiet (on_store c m : Mut engine unit).
Proof.
  intros e res e' Hr. split; [by eapply Appends_store in Hr|].
  unfold on_store in Hr. destruct (m _). by injection Hr as _ <-.
Qed.
Lemma Quiet_read {A} (m : Mut St A) : Keeps Quiet (read_store m : Mut engine A).
Proof.
  intros e res e' Hr. split; [by eapply Appends_frame, Hr; apply Frame_read_store|].
  unfold read_store in Hr. destruct (m _). by injection Hr as _ <-.
Qed.
Lemma Quiet_clock {A} (m : Mut C A) : Keeps Quiet (on_clock m : Mut engine A).
Proof.
  intros e res e' Hr. split; [by eapply Appends_frame, Hr; apply Frame_clock|].
  unfold on_clock in Hr. destruct (m _). by injection Hr as _ <-.
Qed.
Lemma Quiet_ids {A} (m : Mut I A) : Keeps Quiet (on_id_source m : Mut engine A).
Proof.
  intros e res e' Hr. split; [by eapply Appends_frame, Hr; apply Frame_id_source|].
  unfold on_id_source in Hr. destruct (m _). by injection Hr as _ <-.
Qed.
Lemma Quiet_load id : Keeps Quiet (load_active_record id : Mut engine _).
Proof. apply Keeps_map_err, Quiet_read. Qed.
Lemma Quiet_require id : Keeps Quiet (require_active id : Mut engine _).
Proof.
  intros e res e'. unfold require_active.
  destruct (TransactionEngine.active e) as [[id' g]|]; [case_bool_decide|]; by intros [= _ <-].
Qed.

Lemma release_run id (e e' : engine) res :
  release_if_restored id e = (res, e') → lease_kept e e' ∨ lease_given_back e e'.
Proof.
  unfold release_if_restored. destruct (TransactionEngine.active e) as [[id' g]|] eqn:Ea.
  - case_bool_decide; intros [= _ <-]; [right|by left].
    unfold lease_given_back, set_active. rewrite Ea. split; [done|]. by exists id', g.
  - intros [= _ <-]. by left.
Qed.

Context `{!StoreLaws.t St}.

(** The lease of the session of the record at hand. *)
Definition Held (s s' : both) : Prop :=
  Lease (snd s) (fst s) (fst s') ∧ on_snd (Frame record_plan) s s'.

#[local] Instance Held_preorder : PreOrder Held.
Proof.
  split; [intros s; split; reflexivity|]. intros s1 s2 s3 [Ha Hb] [Hc Hd].
  unfold on_snd, Frame in *. split; [|unfold on_snd, Frame; congruence].
  etrans; [exact Ha|]. by eapply Lease_plan.
Qed.

Lemma Held_walk {A} (m : Mut both A) :
  Keeps (on_fst Quiet) m → Keeps (on_snd (Frame record_plan)) m → Keeps Held m.
Proof.
  intros Hq Hp s res s' Hr. split; [apply Quiet_is_Lease; by eapply Hq|by eapply Hp].
Qed.
Lemma Held_record {A} (m : Mut SessionRecord.t A) :
  Keeps (Frame record_plan) m → Keeps Held (on_record m).
Proof.
  intros Hm. apply Held_walk; [apply Keeps_on_record; apply _|by apply same_plan_on_record].
Qed.
Lemma Held_with_record {A} r (m : Mut both A) : Keeps Held m → Keeps (Lease r) (with_record r m).
Proof.
  intros Hm e res e'. unfold with_record. destruct (m (e, r)) as [x [e1 r1]] eqn:E.
  intros [= _ <-]. by apply Hm in E as [HL _].
Qed.

Ltac quiet_ports :=
  intros; first [apply Quiet_backend|apply Quiet_store|apply Quiet_clock].

Lemma Quiet_persist_record stage : Keeps (on_fst Quiet) (persist_record stage : Mut both _).
Proof. apply walk_persist_record; [apply _|quiet_ports..]. Qed.
Lemma Held_persist_record stage : Keeps Held (persist_record stage : Mut both _).
Proof. apply Held_walk, same_plan_persist. apply Quiet_persist_record. Qed.
Lemma Held_now_or_zero stage : Keeps Held (now_or_zero stage : Mut both _).
Proof.
  apply Held_walk, same_plan_now_or_zero. apply walk_now_or_zero; [apply _|quiet_ports..].
Qed.
Lemma Held_restore_loop id l : Keeps Held (restore_loop id l : Mut both _).
Proof.
  apply Held_walk, same_plan_restore_loop. apply walk_restore_loop; [apply _|quiet_ports..].
Qed.
Lemma Held_prepare_restore : Keeps Held (prepare_restore_state : Mut both _).
Proof.
  apply Held_walk, same_plan_prepare_restore. apply walk_prepare_restore; [apply _|quiet_ports..].
Qed.
#[local] Hint Resolve Quiet_persist_record Held_record Held_persist_record Held_now_or_zero
  Held_restore_loop Held_prepare_restore : keeps.

Lemma same_plan_finish_restore id at_ f u :
  Keeps (on_snd (Frame record_plan)) (finish_restore id at_ f u : Mut both _).
Proof.
  pose proof @same_plan_on_record. pose proof @same_plan_on_engine. pose proof same_plan_persist.
  unfold finish_restore. keeps. apply same_plan_get_record.
Qed.

(** A release after the durable end of a session. *)
Lemma release_ended r id (e e' : engine) (e0 : engine) res :
  lease_kept e0 e ∨ lease_given_back e0 e →
  ended_since (TransactionEngine.trace e0) (TransactionEngine.trace e) r →
  release_if_restored id e = (res, e') → Lease r e0 e'.
Proof.
  intros Hk Hend Hrel. pose proof (Frame_release id e res e' Hrel) as Htr.
  unfold Frame in Htr. rewrite Htr in Hend. split.
  { destruct Hend as (t & _ & Ht & _). exists t. split; [done|]. by apply Forall_true. }
  unfold lease_kept, lease_given_back in *.
  apply release_run in Hrel as [[??]|(? & id' & g & ? & ?)];
    destruct Hk as [[??]|(? & id1 & g1 & ? & ?)].
  - left. split; congruence.
  - right. split; [|done]. split; [congruence|]. exists id1, g1. split; congruence.
  - right. split; [|done]. split; [done|]. exists id', g. split; congruence.
  - congruence.
Qed.

Lemma Held_finish_restore id at_ f u : Keeps Held (finish_restore id at_ f u : Mut both _).
Proof.
  intros s res s' Hrun. split; [|by eapply same_plan_finish_restore].
  destruct res as [st|x].
  - pose proof Hrun as Hok. apply finish_restore_Ok in Hok as (_ & He).
    unfold finish_restore in Hrun.
    apply mut_bind_Ok in Hrun as (r0 & s1 & [= <- <-] & Hrun).
    destruct (_ && _ && _) in Hrun.
    2: { repeat apply mut_bind_Ok in Hrun as (? & ? & _ & Hrun). done. }
    apply mut_bind_Ok in Hrun as ([] & s1 & Ht & Hrun).
    apply mut_bind_Ok in Hrun as ([] & s2 & Hs & Hrun).
    apply mut_bind_Ok in Hrun as ([] & s3 & Hl & [= <- <-]).
    assert (fst s1 = fst s) as H1'.
    { case_bool_decide; [by apply on_record_run in Ht as [-> _]|by injection Ht as <-]. }
    apply Quiet_persist_record in Hs. unfold on_fst in Hs. rewrite H1' in Hs.
    destruct Hs as [_ Hk]. destruct s2 as [e2 r2]. unfold on_engine in Hl.
    destruct (release_if_restored id e2) as [y e3] eqn:Hrel. injection Hl as _ <-.
    cbn [fst] in *. eapply release_ended; [by left| |exact Hrel].
    rewrite (Frame_release _ _ _ _ Hrel), <-(app_nil_r (TransactionEngine.trace e3)).
    by apply ended_ended_since.
  - apply Quiet_is_Lease. change (on_fst Quiet s s').
    unfold finish_restore in Hrun.
    apply mut_bind_cases in Hrun as [(? & [=] & _)|(r0 & s1 & [= <- <-] & Hrun)].
    destruct (_ && _ && _) in Hrun.
    + apply mut_bind_cases in Hrun as [(y & Ht & _)|([] & s1 & Ht & Hrun)].
      { case_bool_decide; [|done]. eapply Keeps_on_record; [|exact Ht]. apply _. }
      assert (on_fst Quiet s s1) as Hq.
      { case_bool_decide; [|by injection Ht as <-].
        eapply Keeps_on_record; [|exact Ht]. apply _. }
      etrans; [exact Hq|].
      apply mut_bind_cases in Hrun as [(y & Hs & _)|([] & s2 & Hs & Hrun)];
        [by apply Quiet_persist_record in Hs|].
      apply mut_bind_cases in Hrun as [(y & Hl & _)|([] & s3 & Hl & [=])].
      destruct s2 as [e2 r2]. unfold on_engine, release_if_restored in Hl.
      destruct (TransactionEngine.active e2) as [[]|]; [case_bool_decide|]; done.
    + match type of Hrun with ?k _ = _ => assert (Keeps (on_fst Quiet) k) as Hq end;
        [|by eapply Hq]. keeps.
Qed.
#[local] Hint Resolve Held_finish_restore : keeps.

Lemma Held_get_record : Keeps Held (get_record : Mut both _).
Proof. by intros s res s' [= _ <-]. Qed.
#[local] Hint Resolve Held_get_record : keeps.

Lemma Held_restore_record : Keeps Held (restore_record : Mut both _).
Proof. unfold restore_record. keeps. Qed.
#[local] Hint Resolve Held_restore_record : keeps.

Lemma Lease_rollback r x b : Keeps (Lease r) (rollback_after_failure r x b : Mut engine _).
Proof. unfold rollback_after_failure. apply Held_with_record. keeps. Qed.

Lemma Quiet_apply_record id : Keeps (on_fst Quiet) (apply_record id : Mut both _).
Proof.
  apply walk_apply_record; [apply _|..]; intros;
    first [apply Quiet_backend|apply Quiet_store|apply Quiet_clock].
Qed.

(** What an application or a restore may do to the lease. *)
Definition Leased (id : SessionId.t) (e e' : engine) : Prop :=
  lease_kept e e'
  ∨ lease_given_back e e'
    ∧ ∃ r s', SessionStateStore.load id e.(TransactionEngine.state_store) = (Ok r, s')
        ∧ (ended_since (TransactionEngine.trace e) (TransactionEngine.trace e') r
           ∨ session_state r = SessionState.Restored).

Lemma Leased_quiet id (e e' : engine) : Quiet e e' → Leased id e e'.
Proof. intros [_ Hk]. by left. Qed.

Lemma Leased_lease id r s' (e e1 e' : engine) :
  SessionStateStore.load id e.(TransactionEngine.state_store) = (Ok r, s') →
  Quiet e e1 → Lease r e1 e' → Leased id e e'.
Proof.
  intros Hl Hq%(Quiet_is_Lease r) HL. assert (Lease r e e') as [_ [Hk|[Hg He]]] by (by etrans).
  - by left.
  - right. eauto 10.
Qed.

(** The shortcut on a session that is restored already. *)
Lemma Leased_release id r s' (e e1 e' : engine) res :
  SessionStateStore.load id e.(TransactionEngine.state_store) = (Ok r, s') →
  session_state r = SessionState.Restored →
  Quiet e e1 → release_if_restored id e1 = (res, e') → Leased id e e'.
Proof.
  intros Hl Hst [_ [Hk1 Hk2]] [[??]|(? & id' & g & ? & ?)]%release_run.
  - left. split; congruence.
  - right. split; [|eauto 10]. split; [done|]. exists id', g. split; congruence.
Qed.

Lemma apply_lease id (e e' : engine) res : apply id e = (res, e') → Leased id e e'.
Proof.
  unfold apply. intros Hrun.
  apply mut_bind_cases in Hrun as [(x & Hq & _)|(u & e1 & Hq & Hrun)].
  { apply Quiet_require in Hq. by apply Leased_quiet. }
  apply require_run in Hq as (-> & _).
  apply mut_bind_cases in Hrun as [(x & Hq & _)|(r & e2 & Hq & Hrun)].
  { apply Quiet_load in Hq. by apply Leased_quiet. }
  pose proof Hq as (_ & _ & s & Hs)%load_run. apply Quiet_load in Hq.
  destruct (session_state r) eqn:Est; try (injection Hrun as _ <-; by apply Leased_quiet).
  - assert (∀ res1 e3, with_record r (failed ← apply_record id; record' ← get_record;
        mret (failed, record')) e2 = (res1, e3) →
      Quiet e2 e3 ∧ ∀ f r', res1 = Ok (f, r') → record_plan r = record_plan r') as Hw'.
    { intros res1 e3 Hw. split.
      - eapply Keeps_with_record, Hw. pose proof (Quiet_apply_record id). keeps.
      - intros f r' ->. apply with_record_Ok in Hw as (r2 & Hw).
        apply mut_bind_Ok in Hw as (f1 & s1 & Ha & Hw).
        apply mut_bind_Ok in Hw as (r3 & s2 & [= <- <-] & [= <- <- ->]).
        by apply same_plan_apply_record in Ha. }
    apply mut_bind_cases in Hrun as [(x & Hw & _)|([failed r'] & e3 & Hw & Hrun)];
      apply Hw' in Hw as [Hq3 Hp].
    + apply Leased_quiet. by etrans.
    + specialize (Hp _ _ eq_refl). eapply Leased_lease; [exact Hs|etrans; [exact Hq|exact Hq3]|].
      destruct failed as [x|].
      * apply (Lease_plan r' r); [done|]. by eapply Lease_rollback.
      * by injection Hrun as _ <-.
  - apply mut_bind_cases in Hrun as [(x & Hw & _)|(u' & e3 & Hw & [= _ <-])];
      by eapply Leased_release.
Qed.

Lemma restore_lease id (e e' : engine) res : restore id e = (res, e') → Leased id e e'.
Proof.
  unfold restore. intros Hrun.
  apply mut_bind_cases in Hrun as [(x & [=] & _)|(e0 & e1 & [= <- <-] & Hrun)].
  destruct (TransactionEngine.active e) as [[id' g]|] eqn:Ea.
  2: { apply Leased_quiet.
    apply mut_bind_cases in Hrun as [(x & Hq & _)|(short & e1 & Hq & Hrun)].
    { apply mut_bind_cases in Hq as [(y & Hq & _)|(r & e2 & Hq & [=])]. by apply Quiet_load in Hq. }
    apply mut_bind_Ok in Hq as (r & e2 & Hq & [= _ <-]). apply Quiet_load in Hq.
    destruct short; [by injection Hrun as _ <-|].
    apply mut_bind_cases in Hrun as [(x & Hr & _)|(u & e3 & Hr & Hrun)].
    - apply Quiet_require in Hr. by etrans.
    - apply require_run in Hr as (_ & g & Ha). destruct Hq as [_ [Hk _]]. congruence. }
  apply mut_bind_cases in Hrun as [(x & [=] & _)|(short & e1 & [= <- <-] & Hrun)].
  apply mut_bind_cases in Hrun as [(x & Hq & _)|(u & e1 & Hq & Hrun)].
  { apply Quiet_require in Hq. by apply Leased_quiet. }
  apply require_run in Hq as (-> & _).
  apply mut_bind_cases in Hrun as [(x & Hq & _)|(r & e2 & Hq & Hrun)].
  { apply Quiet_load in Hq. by apply Leased_quiet. }
  pose proof Hq as (_ & _ & s & Hs)%load_run. apply Quiet_load in Hq.
  case_bool_decide as Hst.
  - apply mut_bind_cases in Hrun as [(x & Hw & _)|(u' & e4 & Hw & [= _ <-])];
      by eapply Leased_release.
  - eapply Leased_lease; [exact Hs|exact Hq|].
    apply Held_with_record in Hrun; [done|]. apply Keeps_bind; [apply _|keeps|]. intros _.
    intros s0 res0 s0' Hrun0.
    apply mut_bind_cases in Hrun0 as [(x & Hr & _)|(st & s2 & Hr & Hrun0)];
      apply Held_restore_record in Hr as Hh; [done|].
    apply restore_record_Ok in Hr as (-> & Hend). rewrite bool_decide_true in Hrun0 by done.
    assert (Held s0 s0' ∨ ∃ u2 s3, on_engine (release_if_restored id) s2 = (u2, s3) ∧ s3 = s0')
      as [?|(y & s3 & Hl & <-)]; [|done|].
    { apply mut_bind_cases in Hrun0 as [(x & Hl & _)|(u2 & s3 & Hl & [= _ <-])]; eauto. }
    destruct s2 as [e4 r4]. unfold on_engine in Hl.
    destruct (release_if_restored id e4) as [z e5] eqn:Hrel. injection Hl as _ <-.
    split; [|by destruct Hh]. cbn. eapply release_ended; [| |exact Hrel].
    + destruct Hh as [[_ [Hk|[Hg _]]] _]; auto.
    + rewrite <-(app_nil_r (TransactionEngine.trace e4)). by apply ended_ended_since.
Qed.

(** C27. While a session is applied or restored, whatever happens, the engine
    keeps its lease, or drops it after a fully restored record of the
    session, with the header, mutations and snapshots the store held, was
    durably written during the call, or because the store said the session
    was restored already: no failure path loses the lease of a session that
    still owns host state. *)
Theorem lease_until_restored id (e e' : engine) res :
  apply id e = (res, e') ∨ restore id e = (res, e') →
  lease_kept e e'
  ∨ lease_given_back e e'
    ∧ ∃ r s', SessionStateStore.load id e.(TransactionEngine.state_store) = (Ok r, s')
        ∧ (ended_since (TransactionEngine.trace e) (TransactionEngine.trace e') r
           ∨ session_state r = SessionState.Restored).
Proof. intros [Hr|Hr]; [by eapply apply_lease|by eapply restore_lease]. Qed.

Context `{!LockLaws.t L G}.

Lemma create_session_Err n plan at_ snaps g (e e' : engine) x :
  create_session n plan at_ snaps g e = (Err x, e') → Quiet e e'.
Proof.
  revert e. induction n as [|n IH]; intros e Hrun; cbn [create_session] in Hrun.
  { by injection Hrun as _ <-. }
  apply mut_bind_cases in Hrun as [(y & Hq & _)|(id & e1 & Hq & Hrun)];
    apply (Keeps_map_err _ _ _ (Quiet_ids _)) in Hq; [done|]. etrans; [exact Hq|].
  apply mut_bind_cases in Hrun as [(y & [= _ <-] & _)|(record & e2 & [= _ <-] & Hrun)]; [done|].
  apply mut_bind_cases in Hrun as [(y & (? & ? & [=])%catch_run & _)|(created & e2 & Hc & Hrun)].
  apply (Keeps_catch _ _ (Quiet_store _ _)) in Hc. etrans; [exact Hc|].
  destruct created as [u|y]; [by apply mut_bind_cases in Hrun as [(? & [=] & _)|(? & ? & _ & [=])]|].
  case_bool_decide; [by apply IH|by injection Hrun as _ <-].
Qed.

(** A successful [prepare] takes the lease for its session, on a lock that
    was free; a failed one leaves the engine without a lease it did not have
    and the lock exactly as it found it, on every failure path. *)
Theorem prepare_lease plan (e e' : engine) res :
  prepare plan e = (res, e') →
  match res with
  | Ok sid => ∃ g l, TransactionEngine.active e' = Some (sid, g)
      ∧ ExclusiveSessionLock.acquire (TransactionEngine.lock e) = (Ok g, l)
  | Err _ => lease_kept e e'
  end.
Proof.
  unfold prepare. intros Hrun.
  apply mut_bind_cases in Hrun as [(x & [=] & _)|(e0 & e1 & [= <- <-] & Hrun)].
  destruct (TransactionEngine.active e) eqn:Ea; [by injection Hrun as <- <-|].
  apply mut_bind_cases in Hrun as [(x & [= _ <-] & ->)|([] & e1 & [= _ <-] & Hrun)]; [done|].
  apply mut_bind_cases in Hrun as [(x & [= _ <-] & ->)|([] & e1 & [= _ <-] & Hrun)]; [done|].
  unfold with_guard in Hrun.
  apply mut_bind_cases in Hrun as [(x & Hq & ->)|(g & e1 & Hq & Hg)];
    unfold mut_map_err, acquire in Hq;
    destruct (ExclusiveSessionLock.acquire (TransactionEngine.lock e)) as [[g'|y] l] eqn:Hacq;
    try done.
  { injection Hq as _ <-. split; [done|]. cbn. by eapply LockLaws.acquire_failed. }
  injection Hq as -> <-.
  match type of Hg with context [match ?m with _ => _ end = _] =>
    destruct m as [r e2] eqn:Hbody end.
  set (e1 := TransactionEngine.mk _ _ l _ _ _ _) in *.
  destruct r as [[sid moved]|x].
  - apply mut_bind_Ok in Hbody as (unfinished & e3 & _ & Hbody).
    apply mut_bind_Ok in Hbody as ([] & e4 & _ & Hbody).
    apply mut_bind_Ok in Hbody as (at_ & e5 & _ & Hbody).
    apply mut_bind_Ok in Hbody as (snaps & e6 & _ & Hcreate).
    apply create_session_Ok in Hcreate as (-> & Hact & _). injection Hg as <- <-.
    by exists g, l.
  - injection Hg as <- <-.
    assert (Quiet e1 e2) as [_ [Hka Hkl]].
    { apply mut_bind_cases in Hbody as [(y & Hq & _)|(u & e3 & Hq & Hbody)];
        apply (Keeps_map_err _ _ _ (Quiet_read _)) in Hq; [done|]. etrans; [exact Hq|].
      apply mut_bind_cases in Hbody as [(y & [= _ <-] & _)|([] & e4 & [= _ <-] & Hbody)]; [done|].
      apply mut_bind_cases in Hbody as [(y & Hn & _)|(at_ & e4 & Hn & Hbody)];
        apply (walk_now Quiet (λ A m, Quiet_clock m)) in Hn; [done|]. etrans; [exact Hn|].
      apply mut_bind_cases in Hbody as [(y & Hc & _)|(snaps & e5 & Hc & Hbody)];
        apply (walk_capture_all Quiet (λ m a, Quiet_backend _ _)) in Hc; [done|].
      etrans; [exact Hc|]. by eapply create_session_Err. }
    split; cbn in *; [by rewrite Hka|]. rewrite Hkl. cbn. by eapply LockLaws.release_acquired.
Qed.
End Sessions.
