(* ===== verification/EngineHost.v ===== *)
(** * What the engine leaves on the host

    A backend whose effects are those of the port's contract is a host: a
    value per control, of which the backend reports fingerprints.  A record
    accounts for a host when every operation it does not show as possibly
    written still has its original there.  Whatever the ports answer, and
    wherever they stop answering, every version of the record that may have
    reached the disk accounts for the host. *)
From S2P Require Import Prelude Lists Text Ids Mut Capability Mutation Plan Session.
From S2P Require Import Record RecordInvariant Mut Ports Engine EngineTrace.
From S2P Require Import EngineTrace EngineOutcome EngineResult.
Unset Default Proof Using.

(** ** Records and the disk *)

(** The record shows that the operation has not written its control, or that
    it was restored. *)
Definition tight (o : OperationRecord.t) : Prop :=
  o.(OperationRecord.state) = OperationState.Restored
  ∨ o.(OperationRecord.apply_receipt) = None ∧ o.(OperationRecord.state) ≠ OperationState.Applying.

(** The restore loop may write it. *)
Definition touchable (o : OperationRecord.t) : Prop :=
  is_Some o.(OperationRecord.apply_receipt) ∧ o.(OperationRecord.state) ≠ OperationState.Restored.

Lemma touchable_not_tight o : touchable o → ¬ tight o.
Proof. intros [[x Hx] Hr] [?|[? _]]; congruence. Qed.

(** The records that may be on the disk after the calls [t]: the one last
    written and every later one whose write reported a failure. *)
Fixpoint versions (start : list SessionRecord.t) (t : list call) : list SessionRecord.t :=
  match t with
  | [] => start
  | CCreate r (Ok _) :: t' | CReplace r (Ok _) :: t' => versions [r] t'
  | CCreate r (Err _) :: t' | CReplace r (Err _) :: t' => versions (r :: start) t'
  | _ :: t' => versions start t'
  end.

Lemma versions_app start t1 t2 : versions start (t1 ++ t2) = versions (versions start t1) t2.
Proof.
  revert start. induction t1 as [|c t1 IH]; intros start; [done|].
  destruct c as [| | | |r []|r []|]; cbn; apply IH.
Qed.

Section Host.
Context {B St L G I C K : Type}.
Context `{!MutationBackend.t B, !SessionStateStore.t St, !ExclusiveSessionLock.t L G,
          !SessionIdSource.t I, !Clock.t C}.
Context `{!HostLaws.t B K}.
Abbreviation engine := (TransactionEngine.t B St L G I C).
Abbreviation both := (engine * SessionRecord.t)%type.
Abbreviation values := (K → option StateFingerprint.t).

Definition host (e : engine) : values := HostLaws.live e.(TransactionEngine.backend).
Definition op_key (o : OperationRecord.t) : K := HostLaws.key o.(OperationRecord.mutation).
Definition keys (r : SessionRecord.t) : list K := HostLaws.key <$> record_mutations r.

Definition agrees (v : values) (o : OperationRecord.t) : Prop :=
  ∀ s, o.(OperationRecord.snapshot) = Some s → tight o →
    v (op_key o) = Some s.(Snapshot.original_fingerprint).

Definition accounts (v : values) (r : SessionRecord.t) : Prop :=
  Forall (agrees v) r.(SessionRecord.operations).

(** Every operation has its original on the host. *)
Definition originals (v : values) (r : SessionRecord.t) : Prop :=
  ∀ o s, o ∈ r.(SessionRecord.operations) → o.(OperationRecord.snapshot) = Some s →
    v (op_key o) = Some s.(Snapshot.original_fingerprint).

(** A version on the disk shows what the record in memory may still write. *)
Definition covers (rd r : SessionRecord.t) : Prop :=
  ∀ i od o, rd.(SessionRecord.operations) !! i = Some od →
    r.(SessionRecord.operations) !! i = Some o → touchable o → ¬ tight od.

Lemma covers_refl r : covers r r.
Proof. intros i od o Hd Ho. assert (od = o) as -> by congruence. apply touchable_not_tight. Qed.

Lemma agrees_ext v v' o : (∀ k, v' k = v k) → agrees v o → agrees v' o.
Proof. intros He Ha s Hs Ht. rewrite He. by apply Ha. Qed.

Lemma accounts_ext v v' r : (∀ k, v' k = v k) → accounts v r → accounts v' r.
Proof. intros He Ha. eapply Forall_impl; [exact Ha|]. intros o. by apply agrees_ext. Qed.

Lemma plan_ids r r' : record_plan r = record_plan r' → op_ids r = op_ids r'.
Proof.
  intros Hp. unfold op_ids.
  assert (∀ r, OperationRecord.id <$> SessionRecord.operations r
               = PlannedMutation.mutation_id <$> record_mutations r) as Hm
    by (intros x; unfold record_mutations; by rewrite <-list_fmap_compose).
  by rewrite !Hm, !record_plan_mutations, Hp.
Qed.
Lemma plan_keys r r' : record_plan r = record_plan r' → keys r = keys r'.
Proof. intros Hp. unfold keys. by rewrite !record_plan_mutations, Hp. Qed.

Lemma keys_lookup r i o :
  r.(SessionRecord.operations) !! i = Some o → keys r !! i = Some (op_key o).
Proof. intros Hi. unfold keys, record_mutations. by rewrite !list_lookup_fmap, Hi. Qed.

(** The snapshots of the record are of the planned preconditions. *)
Definition planned (r : SessionRecord.t) : Prop :=
  ∀ o s, o ∈ r.(SessionRecord.operations) → o.(OperationRecord.snapshot) = Some s →
    s.(Snapshot.original_fingerprint) = o.(OperationRecord.mutation).(PlannedMutation.precondition).

Lemma planned_plan r r' : record_plan r = record_plan r' → planned r → planned r'.
Proof.
  intros Hp Hr o s [i Hi]%list_elem_of_lookup Hs.
  assert ((op_plan <$> SessionRecord.operations r) !! i = Some (op_plan o)) as Ho.
  { unfold record_plan in Hp. injection Hp as _ ->. by rewrite list_lookup_fmap, Hi. }
  apply list_lookup_fmap_Some in Ho as (o' & Hop & Hi').
  unfold op_plan in Hop. injection Hop as Hm Hsn. rewrite Hm.
  apply (Hr o' s); [by eapply list_elem_of_lookup_2|congruence].
Qed.

(** A write to the control of an operation that the record does not show as
    untouched. *)
Lemma accounts_write v v' r i o :
  NoDup (keys r) → r.(SessionRecord.operations) !! i = Some o → ¬ tight o →
  (∀ k, k ≠ op_key o → v' k = v k) → accounts v r → accounts v' r.
Proof.
  intros Hn Hi Ht Hv Ha. apply Forall_lookup. intros j oj Hj s Hs Htj.
  destruct (decide (j = i)) as [->|Hne]; [congruence|].
  rewrite Hv; [by eapply (Forall_lookup_1 _ _ _ _ Ha Hj)|].
  intros He. apply Hne. apply keys_lookup in Hi, Hj. rewrite He in Hj.
  by eapply NoDup_lookup.
Qed.

(** ** The invariant of a session in memory and on disk *)

(** The session starts with record [r0] on the disk, the calls [tr0] made and
    the host [v0]. *)
Context (r0 : SessionRecord.t) (tr0 : list call) (v0 : values).
Context (ids_unique : NoDup (op_ids r0)) (keys_unique : NoDup (keys r0)).
Context (originals_planned : planned r0).

Definition on_disk (e : engine) (rd : SessionRecord.t) : Prop :=
  ∃ t, TransactionEngine.trace e = tr0 ++ t ∧ rd ∈ versions [r0] t.

Record HostOk (e : engine) : Prop := {
  ok_trace : ∃ t, TransactionEngine.trace e = tr0 ++ t;
  ok_others : ∀ k, k ∉ keys r0 → host e k = v0 k;
  ok_disk : ∀ rd, on_disk e rd → accounts (host e) rd ∧ record_plan rd = record_plan r0
}.

Record Inv (s : both) : Prop := {
  inv_host : HostOk (fst s);
  inv_plan : record_plan (snd s) = record_plan r0;
  inv_accounts : accounts (host (fst s)) (snd s);
  inv_covers : ∀ rd, on_disk (fst s) rd → covers rd (snd s)
}.

Lemma Inv_planned (s : both) i o sn :
  Inv s → (snd s).(SessionRecord.operations) !! i = Some o → o.(OperationRecord.snapshot) = Some sn →
  sn.(Snapshot.original_fingerprint) = o.(OperationRecord.mutation).(PlannedMutation.precondition).
Proof.
  intros HI Hi. apply (planned_plan r0 (snd s)); [by rewrite inv_plan|done|].
  by eapply list_elem_of_lookup_2.
Qed.

Lemma HostOk_quiet (e e' : engine) :
  (∀ k, host e' k = host e k) → (∀ rd, on_disk e' rd → on_disk e rd) →
  (∃ t, TransactionEngine.trace e' = tr0 ++ t) → HostOk e → HostOk e'.
Proof.
  intros Hv Hd Ht [_ Ho Hdisk]. split; [done| |].
  - intros k Hk. by rewrite Hv, Ho.
  - intros rd [Ha Hp]%Hd%Hdisk. split; [|done]. by eapply accounts_ext.
Qed.

(** Calls that touch neither the host nor the disk. *)
Definition quiet (e e' : engine) : Prop :=
  (∀ k, host e' k = host e k)
  ∧ ∃ t, TransactionEngine.trace e' = TransactionEngine.trace e ++ t
         ∧ ∀ start, versions start t = start.

Lemma quiet_disk e e' rd : quiet e e' → HostOk e → on_disk e' rd → on_disk e rd.
Proof.
  intros (_ & t & Ht & Hv) [[t0 Ht0] _ _] (t1 & Ht1 & Hrd). exists t0. split; [done|].
  rewrite Ht, Ht0, <-app_assoc in Ht1. apply app_inv_head in Ht1 as <-.
  by rewrite versions_app, Hv in Hrd.
Qed.

Lemma quiet_HostOk e e' : quiet e e' → HostOk e → HostOk e'.
Proof.
  intros Hq Hok. apply (HostOk_quiet e); [by apply Hq| |  |done].
  - intros rd. by apply quiet_disk.
  - destruct Hq as (_ & t & -> & _). destruct Hok as [[t0 ->] _ _].
    exists (t0 ++ t). by rewrite app_assoc.
Qed.

#[global] Instance quiet_preorder : PreOrder quiet.
Proof.
  split.
  - intros e. split; [done|]. exists []. by rewrite app_nil_r.
  - intros e1 e2 e3 (Hv1 & t1 & Ht1 & Hs1) (Hv2 & t2 & Ht2 & Hs2). split; [intros k; congruence|].
    exists (t1 ++ t2). rewrite Ht2, Ht1, app_assoc. split; [done|].
    intros start. by rewrite versions_app, Hs1, Hs2.
Qed.

Lemma Inv_quiet (s s' : both) :
  quiet (fst s) (fst s') → snd s' = snd s → Inv s → Inv s'.
Proof.
  intros Hq Hr [Hok Hp Ha Hc]. split; rewrite ?Hr; [by eapply quiet_HostOk|done| |].
  - eapply accounts_ext; [apply Hq|done].
  - intros rd Hd. by eapply Hc, quiet_disk.
Qed.

(** An update of operation [i] in memory. *)
Lemma Inv_update (e : engine) r i o o' :
  Inv (e, r) → r.(SessionRecord.operations) !! i = Some o → op_plan o' = op_plan o →
  agrees (host e) o' →
  (touchable o' → ∀ rd od, on_disk e rd → rd.(SessionRecord.operations) !! i = Some od → ¬ tight od) →
  Inv (e, SessionRecord.set_operations (<[i := o']> r.(SessionRecord.operations)) r).
Proof.
  intros [Hok Hp Ha Hc] Hi Hplan Hag Ht. split; cbn; [done| | |].
  - rewrite <-Hp. unfold record_plan. cbn. f_equal.
    rewrite list_fmap_insert, list_insert_id; [done|]. by rewrite list_lookup_fmap, Hi, Hplan.
  - by apply Forall_insert.
  - intros rd Hd j od oj Hod. cbn.
    intros [(-> & <- & _)|(Hne & Hj)]%list_lookup_insert_Some; [eauto|].
    by eapply (Hc rd Hd j).
Qed.

(** ** Port calls *)

Lemma quiet_trace {A} (m : Mut engine A) :
  Keeps (Frame TransactionEngine.trace) m → Keeps (Frame TransactionEngine.backend) m →
  Keeps quiet m.
Proof.
  intros Ht Hb e res e' Hr. pose proof (Ht _ _ _ Hr) as Ht'. pose proof (Hb _ _ _ Hr) as Hb'.
  unfold Frame in *. split; [intros k; unfold host; by rewrite Hb'|].
  exists []. by rewrite app_nil_r, Ht'.
Qed.

Lemma quiet_clock {A} (m : Mut C A) : Keeps quiet (on_clock m : Mut engine A).
Proof.
  apply quiet_trace; [apply Frame_clock|]. intros e res e'. unfold on_clock.
  destruct (m _). by intros [= _ <-].
Qed.

Lemma quiet_release id : Keeps quiet (release_if_restored id : Mut engine unit).
Proof.
  apply quiet_trace; [apply Frame_release|]. intros e res e'. unfold release_if_restored, Frame.
  destruct (TransactionEngine.active e) as [[id' g]|] eqn:Ea; [case_bool_decide|];
    intros [= _ <-]; unfold set_active; by rewrite ?Ea.
Qed.

Lemma quiet_backend {A} (c : Result A → call) (m : Mut B A) :
  (∀ x start, versions start [c x] = start) →
  (∀ b res b' k, m b = (res, b') → HostLaws.live b' k = HostLaws.live b k) →
  Keeps quiet (on_backend c m : Mut engine A).
Proof.
  intros Hc Hm e res e'. unfold on_backend.
  destruct (m (TransactionEngine.backend e)) as [x b] eqn:E. intros [= _ <-].
  split; [intros k; by eapply Hm|]. by exists [c x].
Qed.

Lemma quiet_verify m f i : Keeps quiet (backend_verify m f i : Mut engine _).
Proof. apply quiet_backend; [done|]. intros. by eapply HostLaws.verify_quiet. Qed.

(** Steps that keep the invariant and change no operation. *)
Definition Still : both → both → Prop := λ s s',
  (Inv s → Inv s')
  ∧ (snd s').(SessionRecord.operations) = (snd s).(SessionRecord.operations).

#[local] Instance Still_preorder : PreOrder Still.
Proof. split; [by intros s|]. intros s1 s2 s3 [Ha E1] [Hb E2]. split; [auto|congruence]. Qed.

Lemma Still_engine {A} (m : Mut engine A) : Keeps quiet m → Keeps Still (on_engine m).
Proof.
  intros Hm [e r] res s'. unfold on_engine. destruct (m e) as [x e'] eqn:E. intros [= _ <-].
  apply Hm in E. split; [|done]. intros HI. by apply (Inv_quiet (e, r)).
Qed.

Lemma Still_record {A} (m : Mut SessionRecord.t A) :
  Keeps (Frame SessionRecord.operations) m → Keeps (Frame record_plan) m →
  Keeps Still (on_record m).
Proof.
  intros Hm Hp s res s' [He Hr]%on_record_run. apply Hp in Hr as Hp'. apply Hm in Hr.
  unfold Frame in *. split; [|done]. intros [Hok Hpl Ha Hc].
  split; rewrite ?He; [done|congruence| |].
  - unfold accounts. by rewrite <-Hr.
  - intros rd Hd i od o. rewrite <-Hr. by eapply Hc.
Qed.

Lemma Still_get_record : Keeps Still get_record.
Proof. by intros s res s' [= _ <-]. Qed.

Lemma Still_failure e : Keeps Still (on_record (SessionRecord.record_failure e)).
Proof. apply Still_record; [|apply mutations_record_failure]. by intros r res r' [= _ <-]. Qed.

Lemma Still_failures l : Keeps Still (on_record (mut_for_each SessionRecord.record_failure l)).
Proof.
  apply Still_record; [|apply mutations_record_failures]. apply Keeps_for_each; [apply _|].
  by intros e r res r' [= _ <-].
Qed.

Lemma Still_transition next at_ reason :
  Keeps Still (on_record (SessionRecord.transition next at_ reason)).
Proof.
  apply Still_record; [|apply mutations_record_transition].
  intros r res r'. unfold SessionRecord.transition, Frame.
  destruct (_ || _ || _); [by intros [= _ <-]|].
  destruct (Session.transition _ _); by intros [= _ <-].
Qed.

Lemma Still_now stage : Keeps Still (on_engine (now stage)).
Proof. apply Still_engine, Keeps_map_err, quiet_clock. Qed.
Lemma Still_verify m f i : Keeps Still (on_engine (backend_verify m f i)).
Proof. apply Still_engine, quiet_verify. Qed.
Lemma Still_release id : Keeps Still (on_engine (release_if_restored id)).
Proof. apply Still_engine, quiet_release. Qed.
#[local] Hint Resolve Still_get_record Still_failure Still_failures Still_transition Still_now
  Still_verify Still_release : keeps.

(** A write to the disk: what may be there is the record in memory, or what
    was there. *)
Lemma persist_disk stage (s : both) res s' :
  persist_record stage s = (res, s') → Inv s →
  snd s' = snd s ∧ (∀ k, host (fst s') k = host (fst s) k) ∧ Inv s'
  ∧ ∀ rd, on_disk (fst s') rd → rd = snd s ∨ (∀ u, res ≠ Ok u) ∧ on_disk (fst s) rd.
Proof.
  destruct s as [e r]. unfold persist_record, get_record, on_engine, persist, mut_map_err, on_store.
  unfold mbind, mut_bind. cbn.
  destruct (SessionStateStore.replace r (TransactionEngine.state_store e)) as [x st] eqn:E.
  intros [= <- <-] HInv. pose proof HInv as [Hok Hp Ha Hc]. cbn in *.
  assert (∀ rd, on_disk (TransactionEngine.mk (TransactionEngine.backend e) st
      (TransactionEngine.lock e) (TransactionEngine.id_source e) (TransactionEngine.clock e)
      (TransactionEngine.active e) (TransactionEngine.trace e ++ [CReplace r x])) rd →
    rd = r ∨ (∀ u, map_err (contextual stage (Some (SessionRecord.session_id r)) None) x ≠ Ok u)
             ∧ on_disk e rd) as Hd.
  { intros rd (t & Ht & Hin). cbn in Ht. destruct Hok as [[t0 Ht0] _ _].
    rewrite Ht0, <-app_assoc in Ht. apply app_inv_head in Ht as <-.
    rewrite versions_app in Hin. destruct x as [u|x]; cbn in Hin.
    - left. by apply list_elem_of_singleton in Hin.
    - apply elem_of_cons in Hin as [->|Hin]; [by left|right]. split; [done|]. by exists t0. }
  split; [done|]. split; [done|]. split; [|exact Hd].
  split; cbn; [|done|done|].
  - split; [|apply Hok|].
    + destruct Hok as [[t0 Ht0] _ _]. cbn. exists (t0 ++ [CReplace r x]). by rewrite Ht0, app_assoc.
    + intros rd [->|[_ Hrd]]%Hd; [done|]. by apply Hok.
  - intros rd [->|[_ Hrd]]%Hd; [apply covers_refl|by apply Hc].
Qed.

Lemma Still_persist stage : Keeps Still (persist_record stage).
Proof.
  intros s res s' Hr. split; [intros HI; by apply (persist_disk _ _ _ _ Hr HI)|].
  destruct (persist_run stage s (Ok res) s') as (? & ? & _ & -> & _); [|done].
  unfold catch. by rewrite Hr.
Qed.
#[local] Hint Resolve Still_persist : keeps.

Lemma Still_now_or_zero stage : Keeps Still (now_or_zero stage).
Proof. unfold now_or_zero. keeps. Qed.
Lemma Still_persist_or_note stage : Keeps Still (persist_or_note stage).
Proof. unfold persist_or_note. keeps. Qed.
Lemma Still_fail_with e : Keeps Still (fail_with e).
Proof. unfold fail_with. keeps. Qed.
#[local] Hint Resolve Still_now_or_zero Still_persist_or_note Still_fail_with : keeps.

(** What the steps on one operation keep besides: the operation at an index
    satisfies a property. *)
Definition Held (i : nat) (P : OperationRecord.t → Prop) (s : both) : Prop :=
  Inv s ∧ ∃ o, (snd s).(SessionRecord.operations) !! i = Some o ∧ P o.

Lemma Still_Inv {A} (m : Mut both A) : Keeps Still m → Keeps (Invariant Inv) m.
Proof. intros Hm s res s' Hr. by apply Hm in Hr as [Hr _]. Qed.
Lemma Still_Held {A} i P (m : Mut both A) : Keeps Still m → Keeps (Invariant (Held i P)) m.
Proof.
  intros Hm s res s' Hr. apply Hm in Hr as [Hr Ho]. intros [HI Hh]. split; [auto|]. by rewrite Ho.
Qed.
#[local] Hint Extern 2 (Keeps (Invariant Inv) _) => simple apply Still_Inv : keeps.
#[local] Hint Extern 2 (Keeps (Invariant (Held _ _)) _) => simple apply Still_Held : keeps.

(** ** Methods on one operation *)

Lemma operation_mut_exact {A} id (body : Mut OperationRecord.t A) r i o :
  NoDup (op_ids r) → r.(SessionRecord.operations) !! i = Some o → OperationRecord.id o = id →
  SessionRecord.operation_mut id body r
  = (fst (body o), SessionRecord.set_operations
                     (<[i := snd (body o)]> r.(SessionRecord.operations)) r).
Proof.
  intros Hn Hi Hid. unfold SessionRecord.operation_mut.
  assert (SessionRecord.update_operation id body r.(SessionRecord.operations)
    = Some (fst (body o), <[i := snd (body o)]> r.(SessionRecord.operations))) as ->; [|done].
  unfold op_ids in Hn. clear -Hn Hi Hid. revert i Hi.
  induction r.(SessionRecord.operations) as [|o1 l IH]; intros i Hi; [done|].
  apply NoDup_cons in Hn as [Hnot Hn]. cbn [SessionRecord.update_operation].
  destruct i as [|i]; cbn in Hi.
  - injection Hi as ->. rewrite bool_decide_true by done. by destruct (body o).
  - rewrite bool_decide_false.
    + by rewrite (IH Hn i Hi).
    + intros He. apply Hnot. change (OperationRecord.id o1 ∈ OperationRecord.id <$> l).
      rewrite list_elem_of_fmap. exists o.
      split; [congruence|]. by eapply list_elem_of_lookup_2.
Qed.

(** Bodies that keep the evidence of an operation: its receipt, and whether
    it is restored. *)
Definition calm {A} (body : Mut OperationRecord.t A) : Prop := ∀ o,
  op_plan (snd (body o)) = op_plan o
  ∧ (snd (body o)).(OperationRecord.apply_receipt) = o.(OperationRecord.apply_receipt)
  ∧ ((snd (body o)).(OperationRecord.state) = OperationState.Restored
     ↔ o.(OperationRecord.state) = OperationState.Restored).

Lemma transition_calm next : next ≠ OperationState.Restored → calm (OperationRecord.transition next).
Proof.
  intros Hn o. unfold OperationRecord.transition.
  destruct (OperationState.can_transition _ next) eqn:E; cbn; [|done].
  split; [done|]. split; [done|]. split; [done|]. intros Hr. by rewrite Hr in E.
Qed.

Lemma fail_to_calm state e : state ≠ OperationState.Restored → calm (SessionRecord.fail_to state e).
Proof.
  intros Hn o. unfold SessionRecord.fail_to. case_bool_decide; [|done].
  apply (transition_calm state Hn (OperationRecord.set_failure (FailureRecord.from_error e) o)).
Qed.

(** The operation of a mutation and its snapshot was written. *)
Definition written (m : PlannedMutation.t) (snap : option Snapshot.t) (o : OperationRecord.t) :
    Prop :=
  op_plan o = (m, snap) ∧ touchable o.

Lemma Inv_ids (s : both) : Inv s → NoDup (op_ids (snd s)).
Proof. intros [_ Hp _ _]. by rewrite (plan_ids _ _ Hp). Qed.
Lemma Inv_keys (s : both) : Inv s → NoDup (keys (snd s)).
Proof. intros [_ Hp _ _]. by rewrite (plan_keys _ _ Hp). Qed.

Lemma Inv_lookup (s : both) i o :
  Inv s → (snd s).(SessionRecord.operations) !! i = Some o → agrees (host (fst s)) o.
Proof. intros [_ _ Ha _] Hi. by eapply (Forall_lookup_1 _ _ _ _ Ha). Qed.

(** The same steps at the level of the engine. *)
Lemma run_operation {A} id (body : Mut OperationRecord.t A) (s : both) res s' i o :
  Inv s → (snd s).(SessionRecord.operations) !! i = Some o → OperationRecord.id o = id →
  on_record (SessionRecord.operation_mut id body) s = (res, s') →
  fst s' = fst s ∧ res = fst (body o)
  ∧ snd s' = SessionRecord.set_operations
               (<[i := snd (body o)]> (snd s).(SessionRecord.operations)) (snd s)
  ∧ (snd s').(SessionRecord.operations) !! i = Some (snd (body o)).
Proof.
  intros HI Hi Hid [He Hr]%on_record_run.
  rewrite (operation_mut_exact _ _ _ _ _ (Inv_ids _ HI) Hi Hid) in Hr.
  injection Hr as <- <-. split; [done|]. split; [done|]. split; [done|].
  cbn. apply list_lookup_insert_eq. by eapply lookup_lt_Some.
Qed.

Lemma calm_Held {A} id (body : Mut OperationRecord.t A) m snap i :
  calm body → id = m.(PlannedMutation.mutation_id) →
  Keeps (Invariant (Held i (written m snap))) (on_record (SessionRecord.operation_mut id body)).
Proof.
  intros Hcalm -> s res s' Hrun (HI & o & Hi & Hp & Ht).
  assert (OperationRecord.id o = PlannedMutation.mutation_id m) as Hid
    by (unfold OperationRecord.id; by injection Hp as ->).
  destruct (run_operation _ _ _ _ _ _ _ HI Hi Hid Hrun) as (He & _ & Hs & Hi').
  destruct (Hcalm o) as (Hpl & Hre & Hst).
  assert (touchable (snd (body o))) as Ht' by (unfold touchable; by rewrite Hre, Hst).
  split; [|exists (snd (body o)); split; [done|]; split; [congruence|done]].
  destruct s as [e r], s' as [e' r']; cbn in *. subst.
  eapply Inv_update; [done..| |].
  - intros sn _ Htight. by apply touchable_not_tight in Ht'.
  - intros _ rd od Hd Hod. by eapply (inv_covers _ HI rd Hd i od o).
Qed.

Lemma on_record_bind {A D} (m : Mut SessionRecord.t A) (k : A → Mut SessionRecord.t D) (s : both) :
  on_record (m ≫= k) s = (on_record m ≫= λ a, on_record (k a)) s.
Proof.
  destruct s as [e r]. unfold on_record, mbind, mut_bind. by destruct (m r) as [[a|x] r'].
Qed.

Lemma Keeps_record_bind {A D} R `{!PreOrder R} (m : Mut SessionRecord.t A)
    (k : A → Mut SessionRecord.t D) :
  Keeps R (on_record m : Mut both A) → (∀ a, Keeps R (on_record (k a) : Mut both D)) →
  Keeps R (on_record (m ≫= k) : Mut both D).
Proof.
  intros Hm Hk s res s'. rewrite on_record_bind. by apply Keeps_bind.
Qed.

Lemma fail_operation_Held id m snap i e :
  id = m.(PlannedMutation.mutation_id) →
  Keeps (Invariant (Held i (written m snap))) (on_record (SessionRecord.fail_operation id e)).
Proof.
  intros Hid. apply Keeps_record_bind; [apply _| |intros _; auto with keeps].
  apply calm_Held; [|done]. by apply fail_to_calm.
Qed.
Lemma fail_restore_Held id m snap i e :
  id = m.(PlannedMutation.mutation_id) →
  Keeps (Invariant (Held i (written m snap))) (on_record (SessionRecord.fail_restore id e)).
Proof.
  intros Hid. apply Keeps_record_bind; [apply _| |intros _; auto with keeps].
  apply calm_Held; [|done]. by apply fail_to_calm.
Qed.
Lemma begin_restore_Held id m snap i :
  id = m.(PlannedMutation.mutation_id) →
  Keeps (Invariant (Held i (written m snap))) (on_record (SessionRecord.begin_restore_operation id)).
Proof.
  intros Hid. apply calm_Held; [|done]. intros o. case_bool_decide; [done|].
  by apply transition_calm.
Qed.
Lemma record_verification_Held id m snap i v :
  id = m.(PlannedMutation.mutation_id) →
  Keeps (Invariant (Held i (written m snap))) (on_record (SessionRecord.record_verification id v)).
Proof.
  intros Hid. apply calm_Held; [|done]. intros o. case_bool_decide; [done|].
  eapply (λ H, transition_calm _ H (OperationRecord.set_verification v o)).
  by destruct (VerificationResult.matched v).
Qed.
#[local] Hint Resolve fail_operation_Held fail_restore_Held begin_restore_Held
  record_verification_Held : keeps.

(** ** Restore *)

Lemma note_failure_Held id m snap i e :
  id = m.(PlannedMutation.mutation_id) →
  Keeps (Invariant (Held i (written m snap))) (note_failure id e : Mut both _).
Proof. intros Hid. unfold note_failure. keeps. Qed.

(** The host holds the original of the operation. *)
Lemma conclude_restore_Inv m snap i receipt (s : both) res s' :
  Held i (written m (Some snap)) s →
  host (fst s) (HostLaws.key m) = Some snap.(Snapshot.original_fingerprint) →
  conclude_restore m.(PlannedMutation.mutation_id) receipt s = (res, s') → Inv s'.
Proof.
  intros (HI & o & Hi & Hp & Ht) Hl Hrun. unfold conclude_restore in Hrun.
  assert (OperationRecord.id o = PlannedMutation.mutation_id m) as Hid
    by (unfold OperationRecord.id; by injection Hp as ->).
  apply mut_bind_cases in Hrun as [(e & (? & ? & [=])%catch_run & _)|(x & s1 & Hc & Hk)].
  apply catch_run in Hc as (y & Hc & [= ->]).
  destruct (run_operation _ _ _ _ _ _ _ HI Hi Hid Hc) as (He & _ & Hs & Hi').
  match type of Hi' with _ = Some ?t => set (o' := t) in * end.
  assert (op_plan o' = op_plan o ∧ (touchable o' → touchable o)) as [Hpl Htt].
  { unfold o', OperationRecord.transition. destruct (_ || _); [done|].
    destruct (OperationState.can_transition _ _); cbn; [|done].
    split; [done|]. by intros [_ ?]. }
  assert (Inv s1) as HI1.
  { destruct s as [e r], s1 as [e1 r1]; cbn in *. subst.
    eapply Inv_update; [done..| |].
    - intros sn Hsn _. unfold op_key. rewrite Hp in Hpl. injection Hpl as Hm Hsn'.
      rewrite Hsn in Hsn'. injection Hsn' as ->. by rewrite Hm.
    - intros Hto rd od Hd Hod. eapply (inv_covers _ HI rd Hd i od o); auto. }
  destruct y as [u|e]; [|by injection Hk as _ <-].
  by apply (Still_persist_or_note Stage.Restore _ _ _ Hk).
Qed.

(** A write of the backend to the control of an operation that neither the
    record in memory nor one on disk shows as untouched. *)
Lemma Inv_backend {A} (c : Result A → call) (call : Mut B A) (s : both) i o x s' :
  (∀ x start, versions start [c x] = start) →
  (∀ b res b' k, call b = (res, b') → k ≠ op_key o →
    HostLaws.live b' k = HostLaws.live b k) →
  Inv s → (snd s).(SessionRecord.operations) !! i = Some o → ¬ tight o →
  (∀ rd od, on_disk (fst s) rd → rd.(SessionRecord.operations) !! i = Some od → ¬ tight od) →
  catch (on_engine (on_backend c call)) s = (x, s') →
  Inv s' ∧ snd s' = snd s ∧ (∀ rd, on_disk (fst s') rd → on_disk (fst s) rd)
  ∧ ∃ y, x = Ok y
         ∧ call (TransactionEngine.backend (fst s)) = (y, TransactionEngine.backend (fst s')).
Proof.
  intros Hc Hloc HI Hi Ht Hdt (y & Hrun & ->)%catch_run. destruct s as [e r].
  unfold on_engine, on_backend in Hrun.
  destruct (call (TransactionEngine.backend e)) as [z b] eqn:E. injection Hrun as <- <-.
  cbn [fst snd] in *.
  assert (∀ k, k ≠ op_key o → HostLaws.live b k = host e k) as Hk by (intros k; by eapply Hloc).
  pose proof HI as [[[t0 Ht0] Ho Hd] Hp Ha Hcov]. cbn [fst snd] in *.
  match goal with |- context [Inv (?e', r)] => set (e1 := e') end.
  assert (∀ rd, on_disk e1 rd → on_disk e rd) as Hdisk.
  { intros rd (t & Htr & Hin). exists t0. split; [done|]. unfold e1 in Htr. cbn [TransactionEngine.trace] in Htr.
    rewrite Ht0, <-app_assoc in Htr. apply app_inv_head in Htr as <-.
    by rewrite versions_app, Hc in Hin. }
  split; [|split; [done|]; split; [done|]; by exists z].
  split; cbn; [split|done| |].
  - exists (t0 ++ [c z]). cbn. by rewrite Ht0, app_assoc.
  - intros k Hk'. unfold e1, host. cbn. rewrite Hk; [by apply Ho|]. intros ->. apply Hk'.
    rewrite <-(plan_keys _ _ Hp). by eapply list_elem_of_lookup_2, keys_lookup.
  - intros rd Hrd%Hdisk. destruct (Hd rd Hrd) as [Hrda Hrdp]. split; [|done].
    destruct (rd.(SessionRecord.operations) !! i) as [od|] eqn:Hod.
    + assert (op_key od = op_key o) as Hkey.
      { apply keys_lookup in Hod, Hi. rewrite (plan_keys _ _ Hrdp) in Hod.
        rewrite (plan_keys _ _ Hp) in Hi. congruence. }
      eapply accounts_write; [|exact Hod|by eapply Hdt| |exact Hrda].
      * by rewrite (plan_keys _ _ Hrdp).
      * intros k. rewrite Hkey. apply Hk.
    + exfalso. apply lookup_lt_Some in Hi. apply lookup_ge_None in Hod.
      assert (length (op_plan <$> SessionRecord.operations rd)
              = length (op_plan <$> SessionRecord.operations r)) as Hlen.
      { unfold record_plan in Hrdp, Hp. rewrite <-Hrdp in Hp. by injection Hp as _ ->. }
      rewrite !length_fmap in Hlen. lia.
  - eapply accounts_write; [by apply (Inv_keys (e, r))|exact Hi|done| |exact Ha]. exact Hk.
  - intros rd Hrd%Hdisk. by apply Hcov.
Qed.

Lemma compare_and_restore_Inv id m snap own i (s : both) res s' :
  Held i (written m (Some snap)) s →
  compare_and_restore id m snap own s = (res, s') → Inv s'.
Proof.
  intros Hh Hrun. unfold compare_and_restore in Hrun. cbv zeta in Hrun.
  set (mid := PlannedMutation.mutation_id m) in *.
  assert (∀ e s res, Held i (written m (Some snap)) s → note_failure mid e s = (res, s') → Inv s')
    as Hnote by (intros e s2 res2 Hs Hr; by eapply (note_failure_Held mid m (Some snap) i e), Hs).
  apply mut_bind_cases in Hrun as [(e & (? & ? & [=])%catch_run & _)|(x & s1 & Hc & Hk)].
  pose proof Hc as Hc'.
  apply (Keeps_catch _ _ (Still_verify _ _ _)) in Hc' as Hst.
  assert (Held i (written m (Some snap)) s1) as Hh1
    by (eapply (Still_Held i (written m (Some snap)) (catch (on_engine (backend_verify _ _ _))));
        [apply Keeps_catch, Still_verify|exact Hc|done]).
  destruct x as [observed|e]; [|by eapply Hnote].
  assert (host (fst s1) (HostLaws.key m) = Some observed) as Hobs.
  { apply catch_run in Hc as (y & Hc & [= <-]). destruct s as [e r].
    unfold on_engine, backend_verify, on_backend in Hc.
    destruct (MutationBackend.verify _ _ _ _) as [z b] eqn:E. injection Hc as -> <-.
    cbn. unfold host. cbn. rewrite (HostLaws.verify_quiet _ _ _ _ _ _ _ E).
    by eapply HostLaws.verify_reads. }
  case_bool_decide as Ho; [subst observed; by eapply conclude_restore_Inv|].
  case_bool_decide as Hn; [by eapply Hnote|].
  destruct Hh1 as (HI1 & o & Hi & Hp & Ht).
  assert (op_key o = HostLaws.key m) as Hkey by (unfold op_key; by injection Hp as ->).
  apply mut_bind_cases in Hk as [(e & (? & ? & [=])%catch_run & _)|(x & s2 & Hr & Hk)].
  apply (Inv_backend _ _ _ i o) in Hr as (HI2 & Hs2 & _ & y & [= ->] & Hcall);
    [|done| |done|done|by apply touchable_not_tight|].
  2: { intros b r b' k Hb. rewrite Hkey. by eapply HostLaws.restore_local. }
  2: { intros rd od Hd Hod. by eapply (inv_covers _ HI1 rd Hd i od o). }
  assert (Held i (written m (Some snap)) s2) as Hh2
    by (split; [done|]; exists o; by rewrite Hs2).
  destruct y as [receipt|e]; [|by eapply Hnote].
  destruct (_ && _ && _) eqn:Ec in Hk; [|by eapply Hnote].
  rewrite !andb_true_iff, !bool_decide_eq_true in Ec. destruct Ec as [[_ Hv] Hf].
  eapply conclude_restore_Inv; [exact Hh2| |exact Hk].
  rewrite <-Hf. by eapply HostLaws.restore_writes.
Qed.

Lemma restore_step_Inv id i : Keeps (Invariant Inv) (restore_step id i : Mut both _).
Proof.
  intros s res s' Hrun HI. unfold restore_step in Hrun.
  apply mut_bind_cases in Hrun as [(e & [=] & _)|(r & s1 & [= <- <-] & Hrun)].
  destruct ((snd s).(SessionRecord.operations) !! i) as [o|] eqn:Hi; [|by injection Hrun as _ <-].
  case_bool_decide as Hst; [by injection Hrun as _ <-|].
  assert (∀ e, Keeps (Invariant Inv) (on_record (SessionRecord.record_failure e) : Mut both _))
    as Hf by auto with keeps.
  destruct (OperationRecord.apply_receipt o) as [receipt|] eqn:Hrec.
  2: { revert HI. match type of Hrun with ?m _ = _ => assert (Keeps (Invariant Inv) m) as Hk end;
       [keeps|by eapply Hk]. }
  destruct (OperationRecord.snapshot o) as [snap|] eqn:Hsnap.
  2: { revert HI. match type of Hrun with ?m _ = _ => assert (Keeps (Invariant Inv) m) as Hk end;
       [keeps|by eapply Hk]. }
  assert (Held i (written (OperationRecord.mutation o) (Some snap)) s) as Hh.
  { split; [done|]. exists o. split; [done|]. split; [unfold op_plan; by rewrite Hsnap|].
    split; [by rewrite Hrec|done]. }
  apply mut_bind_cases in Hrun as [(e & (? & ? & [=])%catch_run & _)|(x & s2 & Hc & Hk)].
  apply (Keeps_catch _ _ (begin_restore_Held _ (OperationRecord.mutation o) (Some snap) i eq_refl))
    in Hc. specialize (Hc Hh). destruct x as [u|e]; [|injection Hk as _ <-; apply Hc].
  apply mut_bind_cases in Hk as [(e & Hp & _)|([f1 u1] & s3 & Hp & Hk)];
    apply (Still_Held i (written (OperationRecord.mutation o) (Some snap)) _
             (Still_persist_or_note _)) in Hp; specialize (Hp Hc); [apply Hp|].
  apply mut_bind_cases in Hk as [(e & Hr & _)|([f2 u2] & s4 & Hr & [= _ <-])];
    exact (compare_and_restore_Inv _ _ _ _ _ _ _ _ Hp Hr).
Qed.
#[local] Hint Resolve restore_step_Inv : keeps.

Lemma restore_loop_Inv id l : Keeps (Invariant Inv) (restore_loop id l : Mut both _).
Proof. induction l as [|i l IH]; cbn [restore_loop]; keeps. Qed.

Lemma finish_restore_Inv id at_ f u : Keeps (Invariant Inv) (finish_restore id at_ f u : Mut both _).
Proof. unfold finish_restore. keeps. Qed.
#[local] Hint Resolve restore_loop_Inv finish_restore_Inv : keeps.

Lemma restore_record_Inv : Keeps (Invariant Inv) (restore_record : Mut both _).
Proof. unfold restore_record. keeps. Qed.

Lemma prepare_restore_Inv : Keeps (Invariant Inv) (prepare_restore_state : Mut both _).
Proof. unfold prepare_restore_state. keeps. Qed.
#[local] Hint Resolve restore_record_Inv prepare_restore_Inv : keeps.

(** ** Apply *)

Lemma fail_operation_with_Held id m snap i stage e :
  id = m.(PlannedMutation.mutation_id) →
  Keeps (Invariant (Held i (written m snap))) (fail_operation_with id stage e : Mut both _).
Proof. intros Hid. unfold fail_operation_with. keeps. Qed.
#[local] Hint Resolve fail_operation_with_Held : keeps.

Lemma verify_step_Held id m m' snap snap' receipt i :
  m.(PlannedMutation.mutation_id) = m'.(PlannedMutation.mutation_id) →
  Keeps (Invariant (Held i (written m' snap))) (verify_step id m snap' receipt : Mut both _).
Proof. intros Hid. unfold verify_step. keeps. Qed.

(** The operation at [i] is marked [Applying] in memory and on the disk. *)
Definition Open (i : nat) (o : OperationRecord.t) (s : both) : Prop :=
  Inv s ∧ (snd s).(SessionRecord.operations) !! i = Some o
  ∧ o.(OperationRecord.state) = OperationState.Applying
  ∧ ∀ rd od, on_disk (fst s) rd → rd.(SessionRecord.operations) !! i = Some od → ¬ tight od.

Lemma applying_not_tight o : o.(OperationRecord.state) = OperationState.Applying → ¬ tight o.
Proof. intros Hs [Ht|[_ Ht]]; congruence. Qed.

Lemma mark_applying i o (s : both) res s' :
  Inv s → (snd s).(SessionRecord.operations) !! i = Some o →
  on_record (transition_at i OperationState.Applying) s = (res, s') →
  Inv s' ∧ fst s' = fst s
  ∧ (∀ u, res = Ok u →
      tight o ∨ is_Some o.(OperationRecord.apply_receipt)) 
  ∧ (∀ u, res = Ok u → (snd s').(SessionRecord.operations) !! i
                        = Some (OperationRecord.set_state OperationState.Applying o)).
Proof.
  intros HI Hi [He Hrun]%on_record_run. destruct s as [e r], s' as [e' r']. cbn [fst snd] in *. subst e'.
  unfold transition_at in Hrun. rewrite Hi in Hrun.
  destruct (OperationRecord.transition _ o) as [y o'] eqn:E. injection Hrun as <- <-.
  unfold OperationRecord.transition in E.
  destruct (OperationState.can_transition (OperationRecord.state o) OperationState.Applying) eqn:Ec;
    cbn [negb] in E; injection E as <- <-.
  - assert (OperationRecord.state o = OperationState.IntentRecorded) as Hst
      by (by destruct (OperationRecord.state o)).
    split; [|split; [done|split]].
    + eapply Inv_update; [done..| |].
      * intros sn _ Ht. by apply applying_not_tight in Ht.
      * intros [Hrec _] rd od Hd Hod. eapply (inv_covers _ HI rd Hd i od o); [done..|].
        split; [done|]. by rewrite Hst.
    + intros u _. unfold tight. rewrite Hst. destruct (OperationRecord.apply_receipt o) eqn:Er.
      * right. by eexists.
      * left. by right.
    + intros u _. cbn. apply list_lookup_insert_eq. by eapply lookup_lt_Some.
  - split; [|done]. rewrite list_insert_id by done. by destruct r.
Qed.

(** The update of the open operation by a body: what has to be shown of the
    result is that it agrees with the host. *)
Lemma Open_update {A} id (body : Mut OperationRecord.t A) i o (s : both) res s' :
  Open i o s → OperationRecord.id o = id → op_plan (snd (body o)) = op_plan o →
  agrees (host (fst s)) (snd (body o)) →
  on_record (SessionRecord.operation_mut id body) s = (res, s') →
  Inv s' ∧ res = fst (body o) ∧ fst s' = fst s
  ∧ (snd s').(SessionRecord.operations) !! i = Some (snd (body o)).
Proof.
  intros (HI & Hi & Hst & Hd) Hid Hp Ha Hrun.
  destruct (run_operation _ _ _ _ _ _ _ HI Hi Hid Hrun) as (He & Hres & Hs & Hi').
  split; [|done]. destruct s as [e r], s' as [e' r']; cbn [fst snd] in *. subst.
  eapply Inv_update; [done..|]. intros _ rd od Hrd. by apply Hd.
Qed.

Lemma Open_still {A} (m : Mut both A) i o (s : both) res s' :
  Keeps Still m → (∀ rd, on_disk (fst s') rd → rd = snd s ∨ on_disk (fst s) rd) →
  Open i o s → m s = (res, s') → Open i o s'.
Proof.
  intros Hm Hd (HI & Hi & Hst & Hdt) [HI' Ho]%Hm. split; [auto|]. split; [by rewrite Ho|].
  split; [done|]. intros rd od [->|Hrd]%Hd Hod; [|by eapply Hdt].
  rewrite Hi in Hod. injection Hod as <-. by apply applying_not_tight.
Qed.

(** The receipt of the open operation. *)
Lemma record_apply_Held i o receipt (s : both) res s' :
  Open i o s →
  on_record (SessionRecord.record_apply (OperationRecord.id o) receipt) s = (res, s') →
  Inv s' ∧ (∀ u, res = Ok u →
             Held i (written (OperationRecord.mutation o) (OperationRecord.snapshot o)) s').
Proof.
  intros Hopen Hrun. pose proof Hopen as (HI & Hi & Hst & Hd).
  unfold SessionRecord.record_apply in Hrun.
  eapply Open_update in Hrun as (HI' & Hres & He & Hi'); [|done|done| |].
  - split; [done|]. intros u Hu. split; [done|]. eexists. split; [exact Hi'|].
    rewrite Hu in Hres. revert Hres. cbv zeta beta. case_bool_decide; [done|].
    unfold OperationRecord.transition. cbn [OperationRecord.state OperationRecord.set_apply_receipt].
    rewrite Hst. cbn. intros _. split; [done|]. split; [by eexists|done].
  - cbv zeta beta. case_bool_decide; [done|]. unfold OperationRecord.transition. cbn. by rewrite Hst.
  - cbv zeta beta. case_bool_decide.
    + intros sn _ Ht. by apply applying_not_tight in Ht.
    + unfold OperationRecord.transition. cbn. rewrite Hst. cbn.
      intros sn _ [Ht|[Ht _]]; discriminate Ht.
Qed.

(** An application that failed without writing. *)
Lemma fail_open i o e (s : both) res s' :
  Open i o s → (OperationRecord.apply_receipt o = None → ∀ sn,
    OperationRecord.snapshot o = Some sn →
    host (fst s) (op_key o) = Some sn.(Snapshot.original_fingerprint)) →
  on_record (SessionRecord.fail_operation (OperationRecord.id o) e) s = (res, s') → Inv s'.
Proof.
  intros Hopen Horig Hrun. pose proof Hopen as (HI & Hi & Hst & Hd).
  unfold SessionRecord.fail_operation in Hrun. rewrite on_record_bind in Hrun.
  assert (∀ y s1, on_record (SessionRecord.operation_mut (OperationRecord.id o)
    (SessionRecord.fail_to OperationState.Failed e)) s = (y, s1) → Inv s1) as Hm.
  { intros y s1 Hr. pose proof (fail_to_calm OperationState.Failed e ltac:(done) o) as (Hp & Hre & Hrs).
    eapply Open_update in Hr as (HI' & _); [done|done|done|done|].
    intros sn Hsn Ht. assert (op_key (snd (SessionRecord.fail_to OperationState.Failed e o)) = op_key o
      ∧ OperationRecord.snapshot o = Some sn) as [-> Hsn'].
    { unfold op_key. unfold op_plan in Hp. injection Hp as -> <-. done. }
    apply Horig; [|done]. destruct Ht as [Ht|[Ht _]]; [|congruence].
    apply Hrs in Ht. congruence. }
  apply mut_bind_cases in Hrun as [(x & Hr & _)|(u & s1 & Hr & Hk)]; [by eapply Hm|].
  apply Hm in Hr. by apply (Still_failure _ _ _ _ Hk).
Qed.

Lemma apply_operation_Inv id i o (s : both) res s' :
  Inv s → (snd s).(SessionRecord.operations) !! i = Some o →
  apply_operation id i o s = (res, s') → Inv s'.
Proof.
  intros HI Hi Hrun. unfold apply_operation in Hrun. cbv zeta in Hrun.
  pose proof (Inv_lookup _ _ _ HI Hi) as Hag.
  apply mut_bind_cases in Hrun as [(e & Hm & _)|([] & s1 & Hm & Hrun)];
    apply (mark_applying _ _ _ _ _ HI Hi) in Hm as (HI1 & He1 & Ht & Hi1); [done|].
  specialize (Hi1 _ eq_refl). specialize (Ht _ eq_refl).
  set (o1 := OperationRecord.set_state OperationState.Applying o) in *.
  apply mut_bind_cases in Hrun as [(e & (? & ? & [=])%catch_run & _)|(x & s2 & Hp & Hrun)].
  apply catch_run in Hp as (y & Hp & [= ->]).
  destruct (persist_disk _ _ _ _ Hp HI1) as (Hs2 & Hv2 & HI2 & Hd2).
  destruct y as [u|e]; [|by apply (Still_fail_with _ _ _ _ Hrun)].
  assert (Open i o1 s2) as Hopen.
  { split; [done|]. rewrite Hs2. split; [done|]. split; [done|]. intros rd od Hrd Hod.
    destruct (Hd2 rd Hrd) as [->|[Hne _]]; [|by destruct (Hne u)].
    rewrite Hi1 in Hod. injection Hod as <-. by apply applying_not_tight. }
  assert (OperationRecord.apply_receipt o1 = None → ∀ sn, OperationRecord.snapshot o1 = Some sn →
    host (fst s2) (op_key o1) = Some sn.(Snapshot.original_fingerprint)) as Horig.
  { intros Hrec sn Hsn. rewrite Hv2, He1. apply Hag; [done|].
    destruct Ht as [Ht|[z Hz]]; [done|]. cbn in Hrec. congruence. }
  assert (SessionRecord.operations (snd s2) !! i = Some o1) as Hi1' by (by rewrite Hs2).
  clear Hag Ht HI HI1 Hi Hi1 Hs2 Hv2 Hd2 Hp He1.
  apply mut_bind_cases in Hrun as [(e & [= _ <-] & _)|(snap & s3 & Hsnap & Hrun)]; [done|].
  assert (OperationRecord.snapshot o1 = Some snap ∧ s3 = s2) as [Hsnap' ->]
    by (unfold lift in Hsnap; cbn in *; destruct (OperationRecord.snapshot o); simplify_eq/=; done).
  pose proof (Inv_planned _ _ _ _ HI2 Hi1' Hsnap') as Hplanned. clear Hsnap Hi1'.
  apply mut_bind_cases in Hrun as [(e & (? & ? & [=])%catch_run & _)|(x & s3 & Hc & Hrun)].
  destruct Hopen as (_ & Hi & Hst & Hd).
  pose proof Hc as Hc'. apply (Inv_backend _ _ _ i o1) in Hc as (HI3 & Hs3 & Hd3 & y & [= ->] & Hcall);
    [|done| |done|done|by apply applying_not_tight|done].
  2: { intros b r b' k Hb. by eapply HostLaws.apply_local. }
  assert (Open i o1 s3) as Hopen.
  { split; [done|]. rewrite Hs3. split; [done|]. split; [done|]. intros rd od Hrd. by apply Hd, Hd3. }
  clear HI2 Hi Hst Hd Hd3 Hs3 Hc'. destruct y as [receipt|e].
  - destruct (_ || _ || _).
    + apply mut_bind_cases in Hrun as [(e & Ha & _)|(u2 & s4 & Ha & Hrun)];
        apply (record_apply_Held _ _ _ _ _ _ Hopen) in Ha as [HI4 Hh4]; [done|].
      specialize (Hh4 _ eq_refl).
      by apply (fail_operation_with_Held (OperationRecord.id o) (OperationRecord.mutation o1)
                  (OperationRecord.snapshot o1) i _ _ eq_refl _ _ _ Hrun) in Hh4 as [? _].
    + apply mut_bind_cases in Hrun as [(e & Ha & _)|(u2 & s4 & Ha & Hrun)];
        apply (record_apply_Held _ _ _ _ _ _ Hopen) in Ha as [HI4 Hh4]; [done|].
      specialize (Hh4 _ eq_refl).
      match type of Hrun with ?m _ = _ =>
        assert (Keeps (Invariant (Held i (written (OperationRecord.mutation o1)
                  (OperationRecord.snapshot o1)))) m) as Hk end.
      { keeps. apply (verify_step_Held _ _ (OperationRecord.mutation o1)). done. }
      by apply Hk in Hrun as [? _].
  - apply mut_bind_cases in Hrun as [(e' & Hf & _)|(u2 & s4 & Hf & Hrun)].
    { exfalso. case_bool_decide; [|by destruct s3; injection Hf].
      unfold ignore in Hf. destruct (on_record _ s3). by injection Hf. }
    assert (Inv s4) as HI4.
    { case_bool_decide as Hne.
      - unfold ignore in Hf. destruct (on_record _ s3) as [z s5] eqn:E. injection Hf as _ <-.
        eapply (fail_open i o1); [exact Hopen| |exact E]. intros Hrec sn Hsn.
        unfold host. rewrite (HostLaws.apply_failed _ _ _ _ _ _ Hplanned Hcall); [by apply Horig|].
        destruct e as [? ? [] ?]. exact Hne.
      - by apply (Still_failure _ _ _ _ Hf). }
    match type of Hrun with ?m _ = _ => assert (Keeps Still m) as Hk by keeps end.
    by apply (Hk _ _ _ Hrun).
Qed.

Lemma apply_step_Inv id i : Keeps (Invariant Inv) (apply_step id i : Mut both _).
Proof.
  intros s res s' Hrun HI. unfold apply_step in Hrun.
  apply mut_bind_cases in Hrun as [(e & [=] & _)|(r & s1 & [= <- <-] & Hrun)].
  destruct ((snd s).(SessionRecord.operations) !! i) as [o|] eqn:Hi; [|by injection Hrun as _ <-].
  destruct (OperationRecord.state o);
    first [ by eapply apply_operation_Inv | by injection Hrun as _ <-
          | by apply (Still_fail_with _ _ _ _ Hrun) ].
Qed.
#[local] Hint Resolve apply_step_Inv : keeps.

Lemma apply_loop_Inv id l : Keeps (Invariant Inv) (apply_loop id l : Mut both _).
Proof. induction l as [|i l IH]; cbn [apply_loop]; keeps. Qed.
#[local] Hint Resolve apply_loop_Inv : keeps.

Lemma apply_record_Inv id : Keeps (Invariant Inv) (apply_record id : Mut both _).
Proof. unfold apply_record. keeps. Qed.

(** ** Whole methods *)

Lemma Inv_with_record {A} r (m : Mut both A) (e : engine) res e' :
  Keeps (Invariant Inv) m → Inv (e, r) → with_record r m e = (res, e') → HostOk e'.
Proof.
  intros Hm HI. unfold with_record. destruct (m (e, r)) as [x [e1 r1]] eqn:E. intros [= _ <-].
  apply Hm in E. by destruct (E HI).
Qed.

Lemma rollback_HostOk r trigger from_apply (e e' : engine) res :
  Inv (e, r) → rollback_after_failure r trigger from_apply e = (res, e') → HostOk e'.
Proof.
  unfold rollback_after_failure. intros HI. eapply Inv_with_record; [|exact HI]. keeps.
Qed.

Lemma recover_one_HostOk r (e e' : engine) res :
  Inv (e, r) → recover_one r e = (res, e') → HostOk e'.
Proof. unfold recover_one. intros HI. eapply Inv_with_record; [|exact HI]. keeps. Qed.

Lemma Inv_start (e : engine) :
  TransactionEngine.trace e = tr0 → (∀ k, k ∉ keys r0 → host e k = v0 k) → accounts (host e) r0 →
  Inv (e, r0).
Proof.
  intros Ht Hv Ha.
  assert (∀ rd, on_disk e rd → rd = r0) as Hd.
  { intros rd (t & Ht' & Hin). rewrite Ht in Ht'. 
    assert (t = []) as -> by (apply (app_inv_head tr0); by rewrite app_nil_r).
    by apply list_elem_of_singleton in Hin. }
  split; cbn; [split|done|done|].
  - exists []. by rewrite app_nil_r.
  - done.
  - by intros rd ->%Hd.
  - intros rd ->%Hd. apply covers_refl.
Qed.

(** Quiet steps around the computations on a record. *)
Lemma HostOk_engine {A} (m : Mut engine A) : Keeps quiet m → Keeps (Invariant HostOk) m.
Proof. intros Hm e res e' Hr. apply Hm in Hr. unfold Invariant. by apply quiet_HostOk. Qed.

Lemma quiet_require id : Keeps quiet (require_active id : Mut engine _).
Proof.
  intros e res e'. unfold require_active.
  destruct (TransactionEngine.active e) as [[id' g]|]; [case_bool_decide|]; intros [= _ <-]; done.
Qed.
Lemma quiet_load id : Keeps quiet (load_active_record id : Mut engine _).
Proof.
  apply Keeps_map_err, quiet_trace; [apply Frame_read_store|].
  intros e res e'. unfold read_store. destruct (SessionStateStore.load _ _). by intros [= _ <-].
Qed.
End Host.
