(* ===== verification/EngineExact.v ===== *)
(** * Exact restoration

    What [EngineHost]'s invariant gives to a caller: apply, restore and
    recovery leave on the disk only records that account for the host, and a
    session that ends restored leaves every control of the host with the
    value it had before [prepare], through any number of failures and
    crashes.

    Everything here is about an engine whose backend keeps the contract
    [HostLaws]: snapshots and readbacks change nothing and report what is
    there, a call changes no control but its own, a failed apply that does not
    report an unknown effect changed nothing, a restore reported as verified
    wrote what it claims.  The CPU backend keeps it over every lawful port
    ([CpuLaws.cpu_host_laws]); the workload backend does not
    ([WorkloadWitnesses.workload_backend_is_no_host]). *)
From stdpp Require Import sorting.
From S2P Require Import Prelude Lists Text Ids Mut Capability Mutation Plan Session.
From S2P Require Import Record RecordInvariant Mut Ports Engine EngineTrace.
From S2P Require Import EngineTrace EngineOutcome EngineResult EngineSession EngineHost.
Unset Default Proof Using.

Section Promises.
Context {B St L G I C K : Type}.
Context `{!MutationBackend.t B, !SessionStateStore.t St, !ExclusiveSessionLock.t L G,
          !SessionIdSource.t I, !Clock.t C}.
Context `{!HostLaws.t B K, !EqDecision K, !StoreLaws.t St}.
Abbreviation engine := (TransactionEngine.t B St L G I C).
Abbreviation both := (engine * SessionRecord.t)%type.
Abbreviation values := (K → option StateFingerprint.t).

(** The record accounts for the host, and no two of its operations write the
    same control. *)
Definition accounted (e : engine) (r : SessionRecord.t) : Prop :=
  NoDup (keys (K := K) r) ∧ accounts (host e) r.

(** After the calls that extend the trace of [e] to that of [e'], every
    version of the record of [r] that may be on the disk accounts for the
    host, and the controls of other sessions are as they were. *)
Definition crash_safe (e e' : engine) (r : SessionRecord.t) : Prop :=
  ∃ t, TransactionEngine.trace e' = TransactionEngine.trace e ++ t
    ∧ (∀ rd, rd ∈ versions [r] t → accounts (host (K := K) e') rd ∧ record_plan rd = record_plan r)
    ∧ ∀ k, k ∉ keys r → host e' k = host (K := K) e k.

Lemma HostOk_crash_safe e0 e e' r :
  quiet (K := K) e0 e → TransactionEngine.trace e = TransactionEngine.trace e0 →
  HostOk r (TransactionEngine.trace e0) (host e) e' → crash_safe e0 e' r.
Proof.
  intros [Hv _] Ht [[t Ht'] Ho Hd]. exists t. split; [done|]. split.
  - intros rd Hin. apply Hd. by exists t.
  - intros k Hk. by rewrite Ho, Hv.
Qed.

Lemma quiet_crash_safe e e' r : quiet (K := K) e e' → accounted e r → crash_safe e e' r.
Proof.
  intros (Hv & t & Ht & Hs) [_ Ha]. exists t. split; [done|]. rewrite Hs. split; [|by intros k _].
  intros rd ->%list_elem_of_singleton. split; [|done]. by eapply accounts_ext.
Qed.

Lemma accounted_start e0 e r :
  quiet (K := K) e0 e → TransactionEngine.trace e = TransactionEngine.trace e0 →
  accounted e0 r → Inv r (TransactionEngine.trace e0) (host e) (e, r).
Proof.
  intros [Hv _] Ht [_ Ha]. apply Inv_start; [done|by intros k _|]. by eapply accounts_ext.
Qed.

Lemma quiet_same_trace {A} (m : Mut engine A) e res e' :
  Keeps (quiet (K := K)) m → Keeps (Frame TransactionEngine.trace) m → m e = (res, e') →
  quiet (K := K) e e' ∧ TransactionEngine.trace e' = TransactionEngine.trace e.
Proof. intros Hq Ht Hr. split; [by eapply Hq|]. by apply Ht in Hr. Qed.

Lemma load_quiet id (e : engine) res e' :
  load_active_record id e = (res, e') →
  quiet (K := K) e e' ∧ TransactionEngine.trace e' = TransactionEngine.trace e.
Proof.
  apply quiet_same_trace; [apply quiet_load|apply Keeps_map_err, Frame_read_store].
Qed.

Lemma load_result id (e : engine) r st res e' :
  SessionStateStore.load id e.(TransactionEngine.state_store) = (Ok r, st) →
  load_active_record id e = (res, e') → res = Ok r.
Proof.
  unfold load_active_record, mut_map_err, read_store. intros ->. by intros [= <- _].
Qed.

Lemma load_op_ids id (s : St) r s' :
  SessionStateStore.load id s = (Ok r, s') → NoDup (op_ids r).
Proof. intros Hl%StoreLaws.load_validated. by apply validate_iff in Hl as [_ [Hn _]]. Qed.

Lemma load_planned id (s : St) r s' :
  SessionStateStore.load id s = (Ok r, s') → planned r.
Proof.
  intros Hl%StoreLaws.load_validated o sn Ho Hsn. apply validate_iff in Hl as (_ & _ & Hops & _).
  rewrite Forall_forall in Hops. by apply (Hops o Ho).
Qed.

(** Computations on the loaded record. *)
Lemma record_crash_safe {A} (m : Mut both A) r e0 e res e' :
  quiet (K := K) e0 e → TransactionEngine.trace e = TransactionEngine.trace e0 →
  NoDup (op_ids r) → accounted e0 r →
  (NoDup (op_ids r) → NoDup (keys (K := K) r) →
    Keeps (Invariant (Inv r (TransactionEngine.trace e0) (host e))) m) →
  with_record r m e = (res, e') → crash_safe e0 e' r.
Proof.
  intros Hq Ht Hn Ha Hm Hr. eapply HostOk_crash_safe; [done..|].
  eapply Inv_with_record; [apply Hm; [done|apply Ha]| |exact Hr]. by apply accounted_start.
Qed.

Lemma release_after r tr v (e e' : engine) id u :
  HostOk (K := K) r tr v e → release_if_restored id e = (u, e') → HostOk (K := K) r tr v e'.
Proof. intros Hok Hr. eapply quiet_HostOk; [by eapply quiet_release|done]. Qed.

Lemma restore_crash_safe id (e e' : engine) r st res :
  SessionStateStore.load id e.(TransactionEngine.state_store) = (Ok r, st) →
  accounted e r → restore id e = (res, e') → crash_safe e e' r.
Proof.
  intros Hl Ha Hrun. pose proof (load_op_ids _ _ _ _ Hl) as Hn. unfold restore in Hrun.
  apply mut_bind_cases in Hrun as [(x & [=] & _)|(e0 & e1 & [= <- <-] & Hrun)].
  destruct (TransactionEngine.active e) eqn:Eact.
  - apply mut_bind_cases in Hrun as [(x & [=] & _)|(b & e1 & [= <- <-] & Hrun)].
    apply mut_bind_cases in Hrun as [(x & Hr & _)|(u & e1 & [-> _]%require_run & Hrun)].
    { apply quiet_crash_safe; [by eapply quiet_require|done]. }
    apply mut_bind_cases in Hrun as [(x & Hr & _)|(r' & e1 & Hr & Hrun)].
    { apply quiet_crash_safe; [by eapply load_quiet|done]. }
    pose proof (load_result _ _ _ _ _ _ Hl Hr) as [= ->]. apply load_quiet in Hr as [Hq Ht].
    case_bool_decide as Hst.
    + apply mut_bind_cases in Hrun as [(x & Hr & _)|(u' & e2 & Hr & [= _ <-])];
        (apply quiet_crash_safe; [etrans; [exact Hq|by eapply quiet_release]|done]).
    + eapply record_crash_safe; [done..| |exact Hrun]. intros Hn' Hk.
      apply Keeps_bind; [apply _|by apply prepare_restore_Inv|intros _].
      apply Keeps_bind; [apply _|by apply restore_record_Inv|intros state].
      case_bool_decide; [|apply Keeps_ret; apply _].
      apply Keeps_bind; [apply _| |intros _; apply Keeps_ret; apply _].
      apply Still_Inv, Still_release.
  - apply mut_bind_cases in Hrun as [(x & Hr & _)|(b & e1 & Hr & Hrun)].
    { apply mut_bind_cases in Hr as [(x' & Hr & _)|(r' & e2 & Hr & [=])].
      apply quiet_crash_safe; [by eapply load_quiet|done]. }
    apply mut_bind_Ok in Hr as (r' & e2 & Hr & [= <- <-]).
    pose proof Hr as Hact%Quiet_load_active. apply load_quiet in Hr as [Hq _].
    case_bool_decide; [injection Hrun as _ <-; by apply quiet_crash_safe|].
    apply mut_bind_cases in Hrun as [(x & Hr & _)|(u & e3 & (-> & g & Hg)%require_run & _)].
    + apply quiet_crash_safe; [etrans; [exact Hq|by eapply quiet_require]|done].
    + congruence.
Qed.

Lemma apply_crash_safe id (e e' : engine) r st res :
  SessionStateStore.load id e.(TransactionEngine.state_store) = (Ok r, st) →
  accounted e r → apply id e = (res, e') → crash_safe e e' r.
Proof.
  intros Hl Ha Hrun. pose proof (load_op_ids _ _ _ _ Hl) as Hn. unfold apply in Hrun.
  apply mut_bind_cases in Hrun as [(x & Hr & _)|(u & e1 & [-> _]%require_run & Hrun)].
  { apply quiet_crash_safe; [by eapply quiet_require|done]. }
  apply mut_bind_cases in Hrun as [(x & Hr & _)|(r' & e1 & Hr & Hrun)].
  { apply quiet_crash_safe; [by eapply load_quiet|done]. }
  pose proof (load_result _ _ _ _ _ _ Hl Hr) as [= ->]. apply load_quiet in Hr as [Hq Ht].
  assert (∀ x : Result SessionState.t, (x, e1) = (res, e') → crash_safe e e' r) as Hdone
    by (intros x [= _ <-]; by apply quiet_crash_safe).
  destruct (session_state r); try (by eapply Hdone, Hrun).
  - assert (Keeps (Invariant (Inv r (TransactionEngine.trace e) (host e1)))
      (failed ← apply_record id; record' ← get_record; mret (failed, record') : Mut both _)) as Hk.
    { apply Keeps_bind; [apply _|apply apply_record_Inv; [done|apply Ha|by eapply load_planned]|intros f].
      apply Keeps_bind; [apply _|apply Still_Inv, Still_get_record|intros ?].
      apply Keeps_ret; apply _. }
    apply mut_bind_cases in Hrun as [(x & Hr & _)|([failed r'] & e2 & Hr & Hrun)].
    { eapply record_crash_safe; [done..| |exact Hr]. done. }
    apply with_record_Ok in Hr as (r2 & Hr). 
    pose proof (Hk _ _ _ Hr (accounted_start _ _ _ Hq Ht Ha)) as HI.
    apply mut_bind_Ok in Hr as (f & s1 & _ & Hr).
    apply mut_bind_Ok in Hr as (r3 & s2 & [= <- <-] & [= <- <- ->]).
    eapply HostOk_crash_safe; [done..|]. destruct f as [x|].
    + eapply rollback_HostOk; [done|apply Ha|exact HI|exact Hrun].
    + injection Hrun as _ <-. apply HI.
  - apply mut_bind_cases in Hrun as [(x & Hr & _)|(u' & e2 & Hr & [= _ <-])];
      (apply quiet_crash_safe; [etrans; [exact Hq|by eapply quiet_release]|done]).
Qed.

(** ** Recovery of one session *)

Lemma recover_one_status r (e e' : engine) res :
  recover_one r e = (res, e') → ∃ status err, res = Ok (status, err).
Proof.
  unfold recover_one, with_record. intros Hrun.
  match type of Hrun with context [mbind ?k ?m (e, r)] =>
    destruct (mbind k m (e, r)) as [x [e1 r1]] eqn:Hm end. injection Hrun as <- _.
  apply mut_bind_cases in Hm as [(y & (? & ? & [=])%catch_run & _)|(p & s1 & _ & Hm)].
  destruct p as [u|x'].
  - apply mut_bind_cases in Hm as [(y & (? & ? & [=])%catch_run & _)|(q & s2 & _ & Hm)].
    destruct q as [st|y].
    + injection Hm as <- _. eauto.
    + apply mut_bind_cases in Hm as [(z & [=] & _)|(r' & s3 & _ & [= <- _])]. eauto.
  - apply mut_bind_cases in Hm as [(z & [=] & _)|(r' & s3 & _ & [= <- _])]. eauto.
Qed.

(** Same host and same trace. *)
Definition same (e e' : engine) : Prop :=
  (∀ k, host (K := K) e' k = host e k) ∧ TransactionEngine.trace e' = TransactionEngine.trace e.

Lemma same_quiet e e' : same e e' → quiet (K := K) e e'.
Proof. intros [Hv Ht]. split; [done|]. exists []. by rewrite app_nil_r. Qed.

#[local] Instance same_preorder : PreOrder same.
Proof.
  split; [done|]. intros e1 e2 e3 [Ha Hb] [Hc Hd]. split; [intros k|]; congruence.
Qed.

Lemma same_acquire : Keeps same acquire.
Proof.
  intros e res e'. unfold acquire. destruct (ExclusiveSessionLock.acquire _). by intros [= _ <-].
Qed.
Lemma same_drop g e : same e (drop_guard g e).
Proof. done. Qed.
Lemma same_set_active lease e : same e (set_active lease e).
Proof. unfold set_active. by destruct (TransactionEngine.active e) as [[]|]. Qed.

Lemma with_guard_cases {A} stage (body : G → Mut engine (A * bool)) e res e' :
  with_guard stage body e = (res, e') →
  same e e' ∧ (∀ a, res ≠ Ok a)
  ∨ ∃ g e1 e2 y, same e e1
      ∧ TransactionEngine.state_store e1 = TransactionEngine.state_store e
      ∧ body g e1 = (y, e2) ∧ same e2 e'
      ∧ match y with Ok (a, _) => res = Ok a | Err x => res = Err x end.
Proof.
  intros Hrun. unfold with_guard in Hrun.
  apply mut_bind_cases in Hrun as [(x & Hacq & ->)|(g & e1 & Hacq & Hrun)];
    pose proof (Keeps_map_err same _ _ same_acquire _ _ _ Hacq) as Hs; [by left|right].
  apply acquire_run in Hacq as [Hst _]. exists g, e1.
  destruct (body g e1) as [[[a []]|x] e2]; injection Hrun as <- <-; by eexists e2, _.
Qed.

(** What [recover_unfinished] does when the store holds one unfinished
    record: nothing, or one recovery, and on success that recovery had no
    error. *)
Lemma recover_single (e e' : engine) r st res :
  SessionStateStore.load_unfinished e.(TransactionEngine.state_store) = (Ok [r], st) →
  recover_unfinished e = (res, e') →
  same e e' ∧ (∀ sts, res ≠ Ok sts)
  ∨ ∃ e1 e2 status err, same e e1 ∧ recover_one r e1 = (Ok (status, err), e2) ∧ same e2 e'
      ∧ ∀ sts, res = Ok sts → err = None.
Proof.
  intros Hl Hrun. unfold recover_unfinished in Hrun.
  apply mut_bind_cases in Hrun as [(x & [=] & _)|(e0 & e1 & [= <- <-] & Hrun)].
  destruct (TransactionEngine.active e) eqn:Eact; [injection Hrun as <- <-; by left|].
  match type of Hrun with mbind _ ?m e = _ =>
    assert (∃ y, m e = (y, e') ∧ ∀ sts, res = Ok sts → y = Ok (Ok sts)) as (y & Hg & Hres) end.
  { apply mut_bind_cases in Hrun as [(x & Hx & ->)|(y & e3 & Hx & [= -> ->])];
      eexists; (split; [exact Hx|]); [done|by intros sts ->]. }
  clear Hrun. apply with_guard_cases in Hg as [[Hs Hne]|(g & e1 & e2 & z & Hs & Hst & Hb & Hs2 & Hz)].
  { left. split; [done|]. by intros sts Hsts%Hres; apply Hne in Hsts. }
  right. apply mut_bind_cases in Hb as [(x & Hx & _)|(l & e3 & Hload & Hb)]; unfold read_store in *.
  { rewrite Hst, Hl in Hx. done. }
  rewrite Hst, Hl in Hload. injection Hload as <- <-.
  change (merge_sort session_le [r]) with [r] in Hb. cbv zeta in Hb. cbn [recover_loop] in Hb.
  match type of Hb with _ ?e3 = _ => assert (same e1 e3) as Hs3 by done; set (e3' := e3) in * end.
  destruct (recover_one r e3') as [w e4] eqn:Hone.
  destruct (recover_one_status _ _ _ _ Hone) as (status & err & ->).
  exists e3', e4, status, err. split; [by etrans|]. split; [done|].
  apply mut_bind_cases in Hb as [(x & Hx & _)|([sts error] & e5 & Hx & Hb)].
  { unfold mbind, mut_bind in Hx. rewrite Hone in Hx. done. }
  unfold mbind, mut_bind in Hx. rewrite Hone in Hx. injection Hx as <- <- <-.
  destruct (_ && _) eqn:Ec in Hb.
  - injection Hb as <- <-. split; [done|]. intros _ _.
    apply andb_true_iff in Ec as [_ Ec]. by destruct err.
  - cbn [unresolved List.find] in Hb. unfold unresolved in Hb. cbn [List.find] in Hb.
    destruct (negb (is_restored_status status)); cbn in Hb; injection Hb as <- <-.
    all: split; [by etrans; [apply same_set_active|]|].
    all: intros sts Hsts%Hres; congruence.
Qed.

Lemma recover_crash_safe (e e' : engine) r st res :
  SessionStateStore.load_unfinished e.(TransactionEngine.state_store) = (Ok [r], st) →
  NoDup (op_ids r) → accounted e r → recover_unfinished e = (res, e') → crash_safe e e' r.
Proof.
  intros Hl Hn Ha Hrun.
  destruct (recover_single _ _ _ _ _ Hl Hrun)
    as [[Hs _]|(e1 & e2 & status & err & Hs1 & Hone & Hs2 & _)].
  { by apply quiet_crash_safe; [apply same_quiet|]. }
  eapply HostOk_crash_safe; [apply same_quiet, Hs1|apply Hs1|].
  eapply quiet_HostOk; [apply same_quiet, Hs2|].
  eapply recover_one_HostOk; [done|apply Ha| |exact Hone].
  apply accounted_start; [by apply same_quiet|apply Hs1|done].
Qed.

(** ** The end of a session *)

(** The fully restored record that ends a session is on the disk, and
    accounts for the host. *)
Lemma ended_originals (e e' : engine) r :
  crash_safe e e' r → ended (TransactionEngine.trace e) (TransactionEngine.trace e') r →
  originals (host (K := K) e') r ∧ ∀ k, k ∉ keys r → host e' k = host (K := K) e k.
Proof.
  intros (t & Ht & Hd & Ho) (t1 & r' & Ht1 & (_ & Hp & Hna) & Hpl). split; [|done].
  assert (r' ∈ versions [r] t) as Hr'.
  { rewrite Ht in Ht1. apply app_inv_head in Ht1 as ->. rewrite versions_app. left. }
  destruct (Hd _ Hr') as [Ha _]. intros o s Ho' Hs.
  apply list_elem_of_lookup in Ho' as [i Hi].
  assert ((op_plan <$> SessionRecord.operations r') !! i = Some (op_plan o)) as Hi'.
  { unfold record_plan in Hpl. injection Hpl as _ ->. by rewrite list_lookup_fmap, Hi. }
  apply list_lookup_fmap_Some in Hi' as (o' & Hop & Hi').
  unfold op_plan in Hop. injection Hop as Hm Hsn.
  unfold op_key. rewrite Hm. apply (Forall_lookup_1 _ _ _ _ Ha Hi'); [by rewrite <-Hsn|].
  apply list_elem_of_lookup_2 in Hi' as Hin. unfold tight.
  destruct (OperationRecord.apply_receipt o') as [a|] eqn:Hrec.
  - left. apply (Hp _ Hin). by exists a.
  - right. split; [done|]. unfold none_ambiguous in Hna. rewrite Forall_forall in Hna. by apply Hna.
Qed.
(** ** The life of one session *)

(** A session as seen from outside: the engine, and a record that may be on
    the disk.  The engine applies and restores what it loads, recovers the
    one unfinished record, or is replaced by a new one on the same host. *)
Inductive life : engine * SessionRecord.t → engine * SessionRecord.t → Prop :=
| life_apply id e r st res e' t r' :
    SessionStateStore.load id e.(TransactionEngine.state_store) = (Ok r, st) →
    apply id e = (res, e') → TransactionEngine.trace e' = TransactionEngine.trace e ++ t →
    r' ∈ versions [r] t → life (e, r) (e', r')
| life_restore id e r st res e' t r' :
    SessionStateStore.load id e.(TransactionEngine.state_store) = (Ok r, st) →
    restore id e = (res, e') → TransactionEngine.trace e' = TransactionEngine.trace e ++ t →
    r' ∈ versions [r] t → life (e, r) (e', r')
| life_recover e r st res e' t r' :
    SessionStateStore.load_unfinished e.(TransactionEngine.state_store) = (Ok [r], st) →
    recover_unfinished e = (res, e') → TransactionEngine.trace e' = TransactionEngine.trace e ++ t →
    r' ∈ versions [r] t → life (e, r) (e', r')
| life_crash e r e' :
    (∀ k, host (K := K) e' k = host e k) → life (e, r) (e', r).

(** What holds throughout: the record accounts for the host, and the host
    outside the session is the one it started on. *)
Definition alive (v0 : values) (r0 : SessionRecord.t) (s : engine * SessionRecord.t) : Prop :=
  record_plan (snd s) = record_plan r0 ∧ accounts (host (fst s)) (snd s)
  ∧ ∀ k, k ∉ keys r0 → host (fst s) k = v0 k.

Lemma alive_accounted v0 r0 e r :
  NoDup (keys (K := K) r0) → alive v0 r0 (e, r) → accounted e r.
Proof. intros Hk (Hp & Ha & _). split; [|done]. by rewrite (plan_keys _ _ Hp). Qed.

Lemma alive_crash_safe v0 r0 (e e' : engine) r t r' :
  alive v0 r0 (e, r) → crash_safe e e' r →
  TransactionEngine.trace e' = TransactionEngine.trace e ++ t → r' ∈ versions [r] t →
  alive v0 r0 (e', r').
Proof.
  intros (Hp & Ha & Ho) (t' & Ht' & Hd & Hk) Ht Hin. rewrite Ht in Ht'.
  apply app_inv_head in Ht' as <-. destruct (Hd _ Hin) as [Ha' Hp'].
  split; [cbn in *; congruence|]. split; [done|]. intros k Hnk. cbn. rewrite Hk, Ho; [done..|].
  cbn in Hp. by rewrite (plan_keys _ _ Hp).
Qed.

Lemma life_alive v0 r0 s s' :
  NoDup (op_ids r0) → NoDup (keys (K := K) r0) → life s s' → alive v0 r0 s → alive v0 r0 s'.
Proof.
  intros Hn Hkeys Hl Hal. destruct Hl as [id e r st res e' t r' Hl Hr Ht Hin
    |id e r st res e' t r' Hl Hr Ht Hin|e r st res e' t r' Hl Hr Ht Hin|e r e' Hv].
  - eapply alive_crash_safe; [done| |done..].
    eapply apply_crash_safe; [done| |done]. by eapply alive_accounted.
  - eapply alive_crash_safe; [done| |done..].
    eapply restore_crash_safe; [done| |done]. by eapply alive_accounted.
  - eapply alive_crash_safe; [done| |done..].
    eapply recover_crash_safe; [done| | |done]; [|by eapply alive_accounted].
    destruct Hal as (Hp & _). cbn in Hp. by rewrite (plan_ids _ _ Hp).
  - destruct Hal as (Hp & Ha & Ho). split; [done|]. split; cbn in *.
    + by eapply accounts_ext.
    + intros k Hk. by rewrite Hv, Ho.
Qed.

(** The whole host is as it was when the session's originals hold. *)
Lemma originals_exact (v0 v : values) r0 r :
  record_plan r = record_plan r0 →
  (∀ o, o ∈ r0.(SessionRecord.operations) → is_Some o.(OperationRecord.snapshot)) →
  originals v0 r0 → originals v r → (∀ k, k ∉ keys r0 → v k = v0 k) → ∀ k, v k = v0 k.
Proof.
  intros Hp Hs Ho0 Ho Hk k. destruct (decide (k ∈ keys r0)) as [Hin|]; [|by apply Hk].
  unfold keys, record_mutations in Hin. rewrite <-list_fmap_compose in Hin.
  apply list_elem_of_fmap in Hin as (o & -> & Hin).
  destruct (Hs o Hin) as [s Hsn]. pose proof (Ho0 o s Hin Hsn) as Hv0.
  apply list_elem_of_lookup in Hin as [i Hi].
  assert ((op_plan <$> SessionRecord.operations r) !! i = Some (op_plan o)) as Hi'.
  { unfold record_plan in Hp. injection Hp as _ ->. by rewrite list_lookup_fmap, Hi. }
  apply list_lookup_fmap_Some in Hi' as (o' & Hop & Hi').
  unfold op_plan in Hop. injection Hop as Hm Hsn'.
  pose proof (Ho o' s (list_elem_of_lookup_2 _ _ _ Hi') ltac:(congruence)) as Hv.
  unfold op_key in *. cbn. rewrite Hv0. by rewrite <-Hm in Hv.
Qed.
(** ** Preparation *)

(** The host is not touched. *)
Lemma same_frame {A} (m : Mut engine A) :
  Keeps (Frame TransactionEngine.backend) m → ∀ e res e', m e = (res, e') →
  ∀ k, host (K := K) e' k = host e k.
Proof. intros Hm e res e' Hr k. apply Hm in Hr. unfold host. by rewrite Hr. Qed.

Definition same_host (e e' : engine) : Prop := ∀ k, host (K := K) e' k = host e k.
#[local] Instance same_host_preorder : PreOrder same_host.
Proof. split; [done|]. intros e1 e2 e3 Ha Hb k. by rewrite Hb, Ha. Qed.

Lemma capture_all_host at_ l (e e' : engine) snaps :
  capture_all at_ l e = (Ok snaps, e') →
  same_host e e'
  ∧ Forall2 (λ m s, host e (HostLaws.key m) = Some s.(Snapshot.original_fingerprint)) l snaps.
Proof.
  revert e snaps. induction l as [|m l IH]; intros e snaps Hrun; cbn [capture_all] in Hrun.
  { injection Hrun as <- <-. split; [done|constructor]. }
  apply mut_bind_Ok in Hrun as (s & e1 & Hs & Hrun).
  apply mut_bind_Ok in Hrun as ([] & e2 & [= Hv <-] & Hrun).
  apply mut_bind_Ok in Hrun as ([] & e3 & [= Hf <-] & Hrun).
  apply mut_bind_Ok in Hrun as (rest & e4 & Hl & [= <- <-]).
  unfold mut_map_err, backend_snapshot, on_backend in Hs.
  destruct (MutationBackend.snapshot m at_ (TransactionEngine.backend e)) as [[s'|] b] eqn:Hb;
    [|done]. injection Hs as -> <-.
  destruct (IH _ _ Hl) as [Hsame Hall].
  assert (∀ k, HostLaws.live b k = host e k) as Hq
    by (intros k; by eapply HostLaws.snapshot_quiet).
  split; [intros k; rewrite Hsame; apply Hq|]. constructor.
  - by eapply HostLaws.snapshot_reads.
  - eapply Forall2_impl; [exact Hall|]. intros m' s'' Hm. rewrite <-Hm. symmetry. apply Hq.
Qed.

Lemma create_session_host n plan at_ snaps g :
  Keeps same_host (create_session n plan at_ snaps g : Mut engine _).
Proof.
  apply walk_create_session; [apply _|..].
  - intros r e res e'. unfold on_store. destruct (SessionStateStore.create _ _). by intros [= _ <-].
  - intros A m e res e'. unfold on_id_source. destruct (m _). by intros [= _ <-].
  - intros lease e res e' [= _ <-]. exact (proj1 (same_set_active lease e)).
Qed.

(** A prepared session accounts for the host it was prepared on, and holds
    all its originals. *)
Lemma prepare_accounted plan (e e' : engine) sid r :
  NoDup (HostLaws.key <$> plan.(Plan.mutations)) →
  prepare plan e = (Ok sid, e') → last (TransactionEngine.trace e') = Some (CCreate r (Ok tt)) →
  same_host e e' ∧ NoDup (op_ids r) ∧ NoDup (keys (K := K) r)
  ∧ accounts (host e') r ∧ originals (host e') r
  ∧ ∀ o, o ∈ r.(SessionRecord.operations) → is_Some o.(OperationRecord.snapshot).
Proof.
  intros Hk (_ & _ & _ & f & f' & g & at_ & snaps & e1 & e2 & e3 & e4 & H1' & H2' & H3' & Hcap
    & Hcreate)%prepare_inv Hlast.
  assert (same_host e e3) as Hs3.
  { etrans; [intros k; by apply (Keeps_map_err same _ _ same_acquire _ _ _ H1')|].
    transitivity e2.
    - intros k. revert H2'. unfold mut_map_err, read_store.
      destruct (SessionStateStore.load_unfinished _). by intros [= _ <-].
    - intros k. by apply (Keeps_map_err _ _ _ (quiet_clock _) _ _ _ H3'). }
  pose proof (capture_all_Ok _ _ _ _ _ Hcap) as Hpre.
  apply capture_all_host in Hcap as [Hs4 Hall].
  pose proof (create_session_host _ _ _ _ _ _ _ _ Hcreate) as Hs5.
  apply create_session_Ok in Hcreate as (_ & _ & _ & record & Hrec & Hlast').
  rewrite Hlast in Hlast'. injection Hlast' as <-.
  pose proof (candidate_record_ids _ _ _ _ _ Hrec) as Hids.
  apply candidate_record_Ok in Hrec as (_ & _ & Hops);
    [|eapply Forall2_impl; [exact Hpre|]; by intros ?? [? _]].
  assert (length (Plan.mutations plan) = length snaps) as Hlen by (by eapply Forall2_length).
  assert (record_mutations r = Plan.mutations plan) as Hmuts.
  { unfold record_mutations. rewrite Hops. clear -Hlen. revert snaps Hlen.
    induction (Plan.mutations plan) as [|m l IH]; intros [|s snaps] Hlen; try done.
    cbn. f_equal. apply IH. by injection Hlen. }
  assert (∀ o, o ∈ SessionRecord.operations r → ∃ s, OperationRecord.snapshot o = Some s
    ∧ host e' (op_key o) = Some (Snapshot.original_fingerprint s)) as Hevery.
  { intros o Ho. rewrite Hops in Ho. apply list_elem_of_lookup in Ho as [i Hi].
    apply lookup_zip_with_Some in Hi as (m & s & -> & Hm & Hs). exists s. split; [done|].
    unfold op_key. cbn. rewrite Hs5, Hs4. by apply (Forall2_lookup_lr _ _ _ _ _ _ Hall Hm Hs). }
  split; [intros k; rewrite Hs5, Hs4; apply Hs3|]. split_and!.
  - unfold op_ids.
    assert (OperationRecord.id <$> SessionRecord.operations r
            = PlannedMutation.mutation_id <$> record_mutations r) as ->
      by (unfold record_mutations; by rewrite <-list_fmap_compose).
    by rewrite Hmuts.
  - unfold keys. by rewrite Hmuts.
  - apply Forall_forall. intros o Ho s Hs _. destruct (Hevery o Ho) as (s' & Hs' & Hv). congruence.
  - intros o s Ho Hs. destruct (Hevery o Ho) as (s' & Hs' & Hv). congruence.
  - intros o Ho. destruct (Hevery o Ho) as (s' & Hs' & _). by eexists.
Qed.
(** ** The promises *)

Lemma session_alive plan (e0 e1 e : engine) sid r0 r :
  NoDup (HostLaws.key <$> plan.(Plan.mutations)) →
  prepare plan e0 = (Ok sid, e1) → last (TransactionEngine.trace e1) = Some (CCreate r0 (Ok tt)) →
  rtc life (e1, r0) (e, r) → alive (host e1) r0 (e, r).
Proof.
  intros Hk Hp Hlast Hlife.
  destruct (prepare_accounted _ _ _ _ _ Hk Hp Hlast) as (_ & Hids & Hkeys & Ha & _).
  assert (∀ s s', rtc life s s' → alive (host e1) r0 s → alive (host e1) r0 s') as Hrtc.
  { induction 1 as [|s1 s2 s3 Hst _ IH]; [done|]. intros Hal. apply IH. by eapply life_alive. }
  eapply Hrtc; [done|]. by split.
Qed.

Lemma session_accounted plan (e0 e1 e : engine) sid r0 r :
  NoDup (HostLaws.key <$> plan.(Plan.mutations)) →
  prepare plan e0 = (Ok sid, e1) → last (TransactionEngine.trace e1) = Some (CCreate r0 (Ok tt)) →
  rtc life (e1, r0) (e, r) → NoDup (op_ids r) ∧ accounted e r.
Proof.
  intros Hk Hp Hlast Hlife.
  pose proof (session_alive _ _ _ _ _ _ _ Hk Hp Hlast Hlife) as Hal.
  destruct (prepare_accounted _ _ _ _ _ Hk Hp Hlast) as (_ & Hids & Hkeys & _).
  split; [|by eapply alive_accounted].
  destruct Hal as [Hpl _]. cbn in Hpl. by rewrite (plan_ids _ _ Hpl).
Qed.

(** A session whose last step ended with a durable fully restored record has
    left the host as [prepare] found it. *)
Lemma ended_exact plan (e0 e1 e e' : engine) sid r0 r :
  NoDup (HostLaws.key <$> plan.(Plan.mutations)) →
  prepare plan e0 = (Ok sid, e1) → last (TransactionEngine.trace e1) = Some (CCreate r0 (Ok tt)) →
  rtc life (e1, r0) (e, r) → crash_safe e e' r →
  ended (TransactionEngine.trace e) (TransactionEngine.trace e') r →
  same_host e0 e'.
Proof.
  intros Hk Hp Hlast Hlife Hcs Hend.
  destruct (prepare_accounted _ _ _ _ _ Hk Hp Hlast) as (Hs & Hids & Hkeys & Ha & Ho & Hsome).
  destruct (session_alive _ _ _ _ _ _ _ Hk Hp Hlast Hlife) as (Hpl & _ & Hout).
  destruct (ended_originals _ _ _ Hcs Hend) as [Ho' Hout'].
  intros k. rewrite <-Hs. eapply originals_exact; [exact Hpl|done|exact Ho|exact Ho'|].
  intros k' Hk'. rewrite Hout'; [by apply Hout|]. cbn in Hpl. by rewrite (plan_keys _ _ Hpl).
Qed.

(** What a session may have gone through since [prepare]: any applications,
    restores and recoveries, each of which may have failed anywhere, and
    crashes. *)
Definition session_of (plan : Plan.t) (e0 e : engine) (r : SessionRecord.t) : Prop :=
  ∃ sid e1 r0, prepare plan e0 = (Ok sid, e1)
    ∧ last (TransactionEngine.trace e1) = Some (CCreate r0 (Ok tt)) ∧ rtc life (e1, r0) (e, r).

(** C11. Exact restoration: on a backend that keeps the contract [HostLaws],
    and whatever a session of distinct controls went through since it was
    prepared, a [restore] that succeeds on the record the store returns
    leaves every control of the host with the value it had before
    [prepare]. *)
Theorem restore_is_exact plan id (e0 e e' : engine) r s st :
  NoDup (HostLaws.key <$> plan.(Plan.mutations)) → session_of plan e0 e r →
  SessionStateStore.load id e.(TransactionEngine.state_store) = (Ok r, s) →
  session_state r ≠ SessionState.Restored →
  restore id e = (Ok st, e') →
  ∀ k, host e' k = host (K := K) e0 k.
Proof.
  intros Hk (sid & e1 & r0 & Hp & Hlast & Hlife) Hl Hne Hrun.
  assert (crash_safe e e' r) as Hcs.
  { eapply restore_crash_safe; [done| |done]. by eapply session_accounted. }
  destruct (restore_cases _ _ _ _ Hrun) as (_ & r' & s' & Hl' & [(_ & Hst)|Hend]).
  { congruence. }
  assert (r' = r) as -> by congruence. by eapply ended_exact.
Qed.

(** C1. The same for crash recovery: when the store of a new process holds
    the session as its one unfinished record and [recover_unfinished]
    succeeds, every control of the host has the value it had before
    [prepare]. *)
Theorem recovery_is_exact plan (e0 e e' : engine) r s statuses :
  NoDup (HostLaws.key <$> plan.(Plan.mutations)) → session_of plan e0 e r →
  SessionStateStore.load_unfinished e.(TransactionEngine.state_store) = (Ok [r], s) →
  recover_unfinished e = (Ok statuses, e') →
  ∀ k, host e' k = host (K := K) e0 k.
Proof.
  intros Hk (sid & e1 & r0 & Hp & Hlast & Hlife) Hl Hrun.
  destruct (session_accounted _ _ _ _ _ _ _ Hk Hp Hlast Hlife) as [Hids Ha].
  assert (crash_safe e e' r) as Hcs by (by eapply recover_crash_safe).
  destruct (recover_single _ _ _ _ _ Hl Hrun)
    as [[_ Hne]|(e2 & e3 & status & err & Hs1 & Hone & Hs2 & Herr)]; [by destruct (Hne statuses)|].
  specialize (Herr _ eq_refl). apply recover_one_Restored in Hone as [_ Hend]; [|done].
  eapply ended_exact; [done..|]. destruct Hs1 as [_ <-], Hs2 as [_ ->]. exact Hend.
Qed.

(** C16. A failed application is undone: on a backend that keeps the contract
    [HostLaws], and in a session of distinct controls, when the rollback
    durably ended the session ([ended]), every control has the value it had
    before [prepare]. *)
Theorem failed_apply_is_undone plan id (e0 e e' : engine) r s trigger :
  NoDup (HostLaws.key <$> plan.(Plan.mutations)) → session_of plan e0 e r →
  SessionStateStore.load id e.(TransactionEngine.state_store) = (Ok r, s) →
  apply id e = (Err trigger, e') →
  ended (TransactionEngine.trace e) (TransactionEngine.trace e') r →
  ∀ k, host e' k = host (K := K) e0 k.
Proof.
  intros Hk (sid & e1 & r0 & Hp & Hlast & Hlife) Hl Hrun Hend.
  eapply ended_exact; [done..| |exact Hend].
  eapply apply_crash_safe; [done| |done]. by eapply session_accounted.
Qed.
End Promises.
