(* ===== verification/Privilege.v ===== *)
(** * The privilege boundary ([sysboost-platform/src/privilege.rs])

    The helper that owns the transaction engine.  A frame from a local peer
    is decoded, the peer authenticated, the request ID checked against
    replay, and only then dispatched; sessions are bound to the peer and the
    approved plan they were prepared for. *)
From Stdlib Require Import Strings.Byte.
From S2P Require Import Prelude Lists Ids Process Mut Capability Mutation Decision Plan.
From S2P Require Import Session Record Protocol Ports Engine.
Local Open Scope N_scope.

Module SessionHandle.
Record t := mk {
  session_id : SessionId.t;
  plan_id : PlanId.t;
  plan_digest : array 32;
  owner : ProcessIdentity.t
}.
#[global] Instance t_eq_dec : EqDecision t. Proof. solve_decision. Defined.
End SessionHandle.

Definition boundary_error (code : ErrorCode.t) (message : string) : SysboostError.t :=
  SysboostError.new code message |> SysboostError.with_stage Stage.Transport.

(** The plans a request may name. *)
Module ApprovedPlanCatalog.
Record t := mk { plans : gmap PlanId.t Plan.t }.
Definition new : t := mk ∅.

Definition register (plan : Plan.t) (c : t) : Result t :=
  _ ← Plan.validate_complete plan;
  match c.(plans) !! plan.(Plan.id) with
  | Some existing =>
    if bool_decide (existing = plan) then Ok c
    else Err (boundary_error ErrorCode.AuthorizationError
                "plan identity is already bound to different content")
  | None => Ok (mk (<[plan.(Plan.id) := plan]> c.(plans)))
  end.

Definition get (plan_id : PlanId.t) (plan_digest : array 32) (c : t) : option Plan.t :=
  plan ← c.(plans) !! plan_id;
  if bool_decide (plan.(Plan.plan_digest) = plan_digest) then Some plan else None.
End ApprovedPlanCatalog.

(** The item of a plan that carries an executable mutation. *)
Definition executable_item (plan : Plan.t) (id : MutationId.t) : option PlanItem.t :=
  List.find (λ item,
    bool_decide (item.(PlanItem.action) = PlanAction.Mutation)
    && match item.(PlanItem.mutation) with
       | Some candidate => bool_decide (candidate.(PlannedMutation.mutation_id) = id)
       | None => false
       end) plan.(Plan.items).

Module SessionBinding.
Record t := mk { handle : SessionHandle.t }.
End SessionBinding.

Module PrivilegeService.
Record t (E : Type) := mk {
  engine : E;
  expected_peer : ProcessIdentity.t;
  catalog : ApprovedPlanCatalog.t;
  sessions : gmap SessionId.t SessionBinding.t;
  last_request : gmap ProcessIdentity.t u64
}.
Arguments mk {E} _ _ _ _ _.
Arguments engine {E} _.
Arguments expected_peer {E} _.
Arguments catalog {E} _.
Arguments sessions {E} _.
Arguments last_request {E} _.
End PrivilegeService.

Section Privilege.
Context {B St L G I C : Type}.
Context `{!MutationBackend.t B, !SessionStateStore.t St, !ExclusiveSessionLock.t L G,
          !SessionIdSource.t I, !Clock.t C}.

Abbreviation coordinator := (TransactionEngine.t B St L G I C).
Abbreviation service := (PrivilegeService.t coordinator).
Import PrivilegeService.

(** A method of the owned engine. *)
Definition with_engine {A} (m : Mut coordinator A) : Mut service A := λ s,
  let '(res, e) := m s.(PrivilegeService.engine) in
  (res, mk e s.(expected_peer) s.(catalog) s.(sessions) s.(last_request)).

(** Construct a helper, recovering the unfinished sessions first.  On an
    error the engine is dropped, which releases the lease it may hold. *)
Definition new_service (expected_peer : ProcessIdentity.t) (e : coordinator) : Result service * coordinator :=
  if (expected_peer.(ProcessIdentity.generation) =? 0)
     || bool_decide (expected_peer.(ProcessIdentity.boot_id) = ProcessIdentity.zero_boot)
  then (Err (boundary_error ErrorCode.AuthorizationError
               "helper peer policy requires a strong process identity"), set_active None e)
  else
    match mut_map_err (λ x, x |> SysboostError.with_stage Stage.Recovery
                              |> SysboostError.retryable Retryability.AfterRecovery)
            recover_unfinished e with
    | (Ok _, e') => (Ok (mk e' expected_peer ApprovedPlanCatalog.new ∅ ∅), e')
    | (Err x, e') => (Err x, set_active None e')
    end.

Definition register_plan (plan : Plan.t) : Mut service unit := λ s,
  match ApprovedPlanCatalog.register plan s.(catalog) with
  | Ok c => (Ok tt, mk s.(PrivilegeService.engine) s.(expected_peer) c s.(sessions) s.(last_request))
  | Err x => (Err x, s)
  end.

Definition authenticate_peer (peer : ProcessIdentity.t) : Mut service unit := λ s,
  (ensure (ProcessIdentity.same_generation peer s.(expected_peer))
     (boundary_error ErrorCode.AuthorizationError
        "local peer identity is not authorized for this helper session"), s).

Definition accept_request_id (peer : ProcessIdentity.t) (request_id : RequestId.t) :
    Mut service unit := λ s,
  if match s.(last_request) !! peer with
     | Some last => RequestId.get request_id <=? last
     | None => false
     end
  then (Err (boundary_error ErrorCode.TransportError "duplicate or replayed request ID"), s)
  else (Ok tt, mk s.(PrivilegeService.engine) s.(expected_peer) s.(catalog) s.(sessions)
                 (<[peer := RequestId.get request_id]> s.(last_request))).

Definition authorize_session_ref (peer : ProcessIdentity.t) (handle : SessionHandle.t) :
    Mut service unit := λ s,
  (match s.(sessions) !! handle.(SessionHandle.session_id) with
   | None => Err (boundary_error ErrorCode.AuthorizationError
                    "session handle is not known to this helper lifecycle")
   | Some known =>
     if negb (bool_decide (known.(SessionBinding.handle) = handle))
        || negb (ProcessIdentity.same_generation peer handle.(SessionHandle.owner))
        || negb (bool_decide (handle.(SessionHandle.owner)
                              = known.(SessionBinding.handle).(SessionHandle.owner)))
     then Err (boundary_error ErrorCode.AuthorizationError
                 "session handle identity, owner, or plan binding is invalid")
     else Ok tt
   end, s).

Definition authorize_session := authorize_session_ref.

Definition lookup_session (peer : ProcessIdentity.t) (session_id : SessionId.t) :
    Mut service SessionHandle.t :=
  s ← get;
  match s.(sessions) !! session_id with
  | None => throw (boundary_error ErrorCode.AuthorizationError
                     "session is not known to this helper lifecycle")
  | Some binding =>
    _ ← authorize_session_ref peer binding.(SessionBinding.handle);
    mret binding.(SessionBinding.handle)
  end.

(** The admission of one mutation: its item, the owning backend and the
    backend's own check of the target. *)
Definition admit_mutation (b : B) (plan : Plan.t) (m : PlannedMutation.t) : Result unit :=
  item ← ok_or (executable_item plan m.(PlannedMutation.mutation_id))
           (boundary_error ErrorCode.PlanningError
              "executable mutation is absent from the approved plan items");
  _ ← ensure (match item.(PlanItem.backend) with
              | Some id => MutationBackend.owns_backend b id
              | None => false
              end)
        (boundary_error ErrorCode.AuthorizationError
           "operation/backend ownership does not match the approved plan");
  identity ← ok_or item.(PlanItem.target_identity)
               (boundary_error ErrorCode.TargetError
                  "approved mutation has no stable target identity");
  MutationBackend.validate_admission b m identity.

Definition validate_plan_admission (plan : Plan.t) : Mut service unit := λ s,
  (_ ← Plan.validate_complete plan;
   _ ← ensure (negb (bool_decide (plan.(Plan.mutations) = [])))
         (boundary_error ErrorCode.AuthorizationError
            "report-only or empty plans cannot enter the privileged executor");
   for_each (admit_mutation s.(PrivilegeService.engine).(TransactionEngine.backend) plan)
     plan.(Plan.mutations), s).

Definition check_snapshot (plan : Plan.t) (o : OperationRecord.t) : Result unit :=
  let expected := item ← executable_item plan
                    o.(OperationRecord.mutation).(PlannedMutation.mutation_id);
                  item.(PlanItem.target_identity) in
  snapshot ← ok_or o.(OperationRecord.snapshot)
               (boundary_error ErrorCode.SnapshotError
                  "durable intent operation has no complete snapshot");
  ensure (bool_decide (expected = Some snapshot.(Snapshot.target_identity)))
    (boundary_error ErrorCode.TargetError
       "snapshot target identity does not match the approved target").

Definition validate_snapshot_identities (session_id : SessionId.t) (plan : Plan.t) :
    Mut service unit :=
  record ← with_engine (read_store (SessionStateStore.load session_id));
  lift (for_each (check_snapshot plan) record.(SessionRecord.operations)).

Definition bind_session (handle : SessionHandle.t) : Mut service unit :=
  modify (λ s, mk s.(PrivilegeService.engine) s.(expected_peer) s.(catalog)
    (<[handle.(SessionHandle.session_id) := SessionBinding.mk handle]> s.(sessions))
    s.(last_request)).

Definition prepare_by_identity (peer : ProcessIdentity.t) (plan_id : PlanId.t)
    (plan_digest : array 32) : Mut service SessionHandle.t :=
  s ← get;
  plan ← lift (ok_or (ApprovedPlanCatalog.get plan_id plan_digest s.(catalog))
                 (boundary_error ErrorCode.AuthorizationError
                    "requested plan identity or digest is not approved"));
  _ ← validate_plan_admission plan;
  session_id ← with_engine (prepare plan);
  checked ← catch (validate_snapshot_identities session_id plan);
  match checked with
  | Err x => _ ← with_engine (abort_prepared session_id); throw x
  | Ok _ =>
    let handle := SessionHandle.mk session_id plan_id plan_digest peer in
    _ ← bind_session handle;
    mret handle
  end.

Definition dispatch (peer : ProcessIdentity.t) (request : Request.t) : Mut service Response.t :=
  match request with
  | Request.Prepare request_id plan_id plan_digest =>
    handle ← prepare_by_identity peer plan_id plan_digest;
    mret (Response.Accepted request_id handle.(SessionHandle.session_id))
  | Request.Apply request_id session_id =>
    handle ← lookup_session peer session_id;
    state ← with_engine (apply handle.(SessionHandle.session_id));
    mret (Response.Status request_id session_id state)
  | Request.Restore request_id session_id =>
    handle ← lookup_session peer session_id;
    state ← with_engine (restore handle.(SessionHandle.session_id));
    mret (Response.Status request_id session_id state)
  | Request.Status request_id session_id =>
    handle ← lookup_session peer session_id;
    state ← TransactionStatus.state <$> with_engine (status handle.(SessionHandle.session_id));
    mret (Response.Status request_id session_id state)
  end.

(** One complete frame from a local peer; [None] is a transport that could
    not obtain credentials. *)
Definition handle_frame (peer : option ProcessIdentity.t) (bytes : list byte) :
    Mut service (list byte) :=
  request ← lift (decode_request bytes);
  let request_id := Request.request_id request in
  peer ← lift (ok_or peer (boundary_error ErrorCode.AuthorizationError
                             "authenticated local peer credentials are required"));
  _ ← authenticate_peer peer;
  _ ← accept_request_id peer request_id;
  res ← catch (dispatch peer request);
  lift (encode_response
          match res with
          | Ok response => response
          | Err x => Response.Rejected request_id x.(SysboostError.code)
          end).

(** ** The in-process entry points *)

Definition prepare_for_peer (peer : ProcessIdentity.t) (plan : Plan.t) :
    Mut service SessionHandle.t :=
  _ ← authenticate_peer peer;
  _ ← register_plan plan;
  prepare_by_identity peer plan.(Plan.id) plan.(Plan.plan_digest).

Definition apply_for_peer (peer : ProcessIdentity.t) (handle : SessionHandle.t) :
    Mut service SessionState.t :=
  _ ← authenticate_peer peer;
  _ ← authorize_session peer handle;
  with_engine (apply handle.(SessionHandle.session_id)).

Definition restore_for_peer (peer : ProcessIdentity.t) (handle : SessionHandle.t) :
    Mut service SessionState.t :=
  _ ← authenticate_peer peer;
  _ ← authorize_session peer handle;
  with_engine (restore handle.(SessionHandle.session_id)).

Definition status_for_peer (peer : ProcessIdentity.t) (handle : SessionHandle.t) :
    Mut service SessionState.t :=
  _ ← authenticate_peer peer;
  _ ← authorize_session_ref peer handle;
  TransactionStatus.state <$> with_engine (status handle.(SessionHandle.session_id)).

(** [PrivilegeBroker]: the expected peer acting for itself. *)
Definition broker_prepare (plan : Plan.t) : Mut service SessionHandle.t :=
  s ← get; prepare_for_peer s.(expected_peer) plan.
Definition broker_apply (handle : SessionHandle.t) : Mut service SessionState.t :=
  s ← get; apply_for_peer s.(expected_peer) handle.
Definition broker_restore (handle : SessionHandle.t) : Mut service SessionState.t :=
  s ← get; restore_for_peer s.(expected_peer) handle.
Definition broker_status (handle : SessionHandle.t) : Mut service SessionState.t :=
  s ← get; status_for_peer s.(expected_peer) handle.
End Privilege.
