(* ===== verification/PrivilegeLaws.v ===== *)
(** * What crosses the privilege boundary

    A frame reaches the engine only when its peer is the expected process,
    its request ID is new and what it names is bound: a session to its owner,
    a prepare to an approved and admitted plan. *)
From Stdlib Require Import Strings.Byte.
From stdpp Require Import sorting.
From S2P Require Import Prelude Lists Ids Process Mut Capability Mutation Decision Plan.
From S2P Require Import Session Record Protocol Mut Ports Engine EngineTrace EngineSession Privilege.
Local Open Scope N_scope.
Unset Default Proof Using.

Section Laws.
Context {B St L G I C : Type}.
Context `{!MutationBackend.t B, !SessionStateStore.t St, !ExclusiveSessionLock.t L G,
          !SessionIdSource.t I, !Clock.t C}.

Abbreviation coordinator := (TransactionEngine.t B St L G I C).
Abbreviation service := (PrivilegeService.t coordinator).
Import PrivilegeService.

(** What the identity and digest of a prepare request must name. *)
Definition approved (s : service) (plan_id : PlanId.t) (plan_digest : array 32) (plan : Plan.t) : Prop :=
  s.(catalog).(ApprovedPlanCatalog.plans) !! plan_id = Some plan
  ∧ plan.(Plan.plan_digest) = plan_digest
  ∧ Plan.validate_complete plan = Ok tt
  ∧ plan.(Plan.mutations) ≠ []
  ∧ Forall (λ m, admit_mutation s.(engine).(TransactionEngine.backend) plan m = Ok tt)
      plan.(Plan.mutations).

(** The session was prepared by this helper for the expected peer. *)
Definition bound (s : service) (session_id : SessionId.t) : Prop :=
  ∃ b, s.(sessions) !! session_id = Some b
    ∧ b.(SessionBinding.handle).(SessionHandle.session_id) = session_id
    ∧ b.(SessionBinding.handle).(SessionHandle.owner) = s.(expected_peer).

(** The call removes the record of this session. *)
Definition removes (sid : SessionId.t) (c : call) : Prop := ∃ res, c = CRemove sid res.

(** What preparing [plan] for [peer] does: the engine's own preparation, whose
    calls capture mutations of the plan and create its intent; then, if the
    record read back names the approved targets, the session is bound to the
    peer, and otherwise that very session is aborted, which can only remove its
    record. *)
Definition prepare_effect (peer : ProcessIdentity.t) (plan_id : PlanId.t) (plan_digest : array 32) (plan : Plan.t)
    (s s' : service) : Prop :=
  let '(res, e1) := prepare plan s.(engine) in
  Appends (intent_of plan) s.(engine) e1
  ∧ match res with
    | Err _ => s'.(engine) = e1 ∧ s'.(sessions) = s.(sessions)
    | Ok sid =>
      let '(loaded, e2) := read_store (SessionStateStore.load sid) e1 in
      TransactionEngine.trace e2 = TransactionEngine.trace e1
      ∧ match (record ← loaded; for_each (check_snapshot plan) record.(SessionRecord.operations)) with
        | Ok _ =>
          s'.(engine) = e2
          ∧ s'.(sessions)
            = <[sid := SessionBinding.mk (SessionHandle.mk sid plan_id plan_digest peer)]> s.(sessions)
        | Err _ =>
          s'.(engine) = snd (abort_prepared sid e2) ∧ Appends (removes sid) e2 s'.(engine)
          ∧ s'.(sessions) = s.(sessions)
        end
    end.

(** ** The parts of a frame's handling *)

Lemma with_engine_run {A} (m : Mut coordinator A) (s s' : service) res :
  with_engine m s = (res, s') →
  m s.(engine) = (res, s'.(engine)) ∧ s'.(catalog) = s.(catalog)
  ∧ s'.(sessions) = s.(sessions) ∧ s'.(last_request) = s.(last_request)
  ∧ s'.(expected_peer) = s.(expected_peer).
Proof. unfold with_engine. destruct (m _) as [r e] eqn:E. by intros [= <- <-]. Qed.

Lemma authenticate_run peer (s s' : service) u :
  authenticate_peer peer s = (Ok u, s') →
  s' = s ∧ peer = s.(expected_peer) ∧ ProcessIdentity.strong peer.
Proof.
  intros [= Hr <-]. apply ensure_Ok, same_generation_true in Hr as [??]. done.
Qed.

Lemma authorize_run peer handle (s s' : service) u :
  authorize_session_ref peer handle s = (Ok u, s') →
  s' = s ∧ s.(sessions) !! handle.(SessionHandle.session_id) = Some (SessionBinding.mk handle)
  ∧ peer = handle.(SessionHandle.owner) ∧ ProcessIdentity.strong peer.
Proof.
  unfold authorize_session_ref. intros [= Hr <-].
  destruct (_ !! _) as [[known]|] eqn:E; [|done]. cbn in Hr.
  case_bool_decide as Hk; [|done]. subst known. cbn in Hr.
  destruct (ProcessIdentity.same_generation _ _) eqn:Hs; [|done].
  by apply same_generation_true in Hs as [??].
Qed.

Lemma lookup_run peer session_id (s s' : service) handle :
  lookup_session peer session_id s = (Ok handle, s') →
  s' = s ∧ s.(sessions) !! session_id = Some (SessionBinding.mk handle)
  ∧ s.(sessions) !! handle.(SessionHandle.session_id) = Some (SessionBinding.mk handle)
  ∧ peer = handle.(SessionHandle.owner).
Proof.
  unfold lookup_session. intros Hr. apply mut_bind_Ok in Hr as (s0 & s1 & [= <- <-] & Hr).
  destruct (_ !! session_id) as [[h]|] eqn:E; [|done]. cbn in Hr.
  apply mut_bind_Ok in Hr as ([] & s2 & Ha & [= <- <-]).
  by apply authorize_run in Ha as (-> & ? & -> & _).
Qed.

Lemma lookup_quiet peer session_id (s s' : service) res :
  lookup_session peer session_id s = (res, s') → s' = s.
Proof.
  unfold lookup_session, authorize_session_ref, mbind, mut_bind, get.
  destruct (_ !! session_id) as [b|]; [|by intros [= _ <-]].
  destruct (match _ with Some _ => _ | None => _ end); by intros [= _ <-].
Qed.

(** A decoded frame of an authenticated peer with a new request ID is
    dispatched; any other frame is refused and changes nothing. *)
Lemma handle_frame_cases peer bytes (s s' : service) res :
  handle_frame peer bytes s = (res, s') →
  (s' = s ∧ ∃ x, res = Err x)
  ∨ ∃ request p r response,
      decode_request bytes = Ok request ∧ peer = Some p
      ∧ p = s.(expected_peer) ∧ ProcessIdentity.strong p
      ∧ (∀ last, s.(last_request) !! p = Some last
                 → last < RequestId.get (Request.request_id request))
      ∧ dispatch p request
          (mk s.(engine) s.(expected_peer) s.(catalog) s.(sessions)
             (<[p := RequestId.get (Request.request_id request)]> s.(last_request))) = (r, s')
      ∧ res = Ok response
      ∧ encode_response match r with
                        | Ok x => x
                        | Err x => Response.Rejected (Request.request_id request) x.(SysboostError.code)
                        end = Ok response.
Proof.
  unfold handle_frame. intros Hr.
  apply mut_bind_cases in Hr as [(x & Hx & ->)|(request & s1 & Hd & Hr)].
  { unfold lift in Hx. injection Hx as _ ->. left. eauto. }
  unfold lift in Hd. injection Hd as Hd <-.
  apply mut_bind_cases in Hr as [(x & Hx & ->)|(p & s1 & Hp & Hr)].
  { unfold lift in Hx. injection Hx as _ ->. left. eauto. }
  unfold lift in Hp. injection Hp as Hp <-. apply ok_or_Ok in Hp.
  apply mut_bind_cases in Hr as [(x & Hx & ->)|([] & s1 & Ha & Hr)].
  { unfold authenticate_peer in Hx. injection Hx as _ ->. left. eauto. }
  apply authenticate_run in Ha as (-> & Hpeer & Hstrong).
  apply mut_bind_cases in Hr as [(x & Hx & ->)|([] & s1 & Ha & Hr)].
  { unfold accept_request_id in Hx. destruct (match _ with Some _ => _ | None => _ end);
      [|done]. injection Hx as _ ->. left. eauto. }
  right. unfold accept_request_id in Ha.
  destruct (match _ with Some _ => _ | None => _ end) eqn:Hlast; [done|]. injection Ha as <-.
  unfold mbind, mut_bind, catch in Hr.
  destruct (dispatch p request _) as [r s2] eqn:Hdisp.
  match type of Hr with lift (encode_response ?x) _ = _ =>
    destruct (encode_response_total x) as [response Hresp] end.
  unfold lift in Hr. injection Hr as <- <-.
  exists request, p, r, response. split_and!; try done.
  intros last Hl. rewrite Hl in Hlast. by apply N.leb_gt in Hlast.
Qed.

Lemma catalog_get_Some id digest c plan :
  ApprovedPlanCatalog.get id digest c = Some plan ↔
  c.(ApprovedPlanCatalog.plans) !! id = Some plan ∧ plan.(Plan.plan_digest) = digest.
Proof.
  unfold ApprovedPlanCatalog.get. destruct (_ !! id) as [p|]; cbn; [|naive_solver].
  case_bool_decide; naive_solver.
Qed.

Lemma admission_run plan (s s' : service) res :
  validate_plan_admission plan s = (res, s') →
  s' = s ∧ (res = Ok tt →
    Plan.validate_complete plan = Ok tt ∧ plan.(Plan.mutations) ≠ []
    ∧ Forall (λ m, admit_mutation s.(engine).(TransactionEngine.backend) plan m = Ok tt)
        plan.(Plan.mutations)).
Proof.
  intros [= <- <-]. split; [done|]. intros Hr.
  apply bind_Ok in Hr as ([] & Hv & Hr). apply bind_Ok in Hr as ([] & Hne & Hr).
  apply ensure_Ok, negb_true_iff, bool_decide_eq_false in Hne.
  split; [done|]. split; [done|]. by apply for_each_Ok.
Qed.

Lemma abort_removes id : Keeps (Appends (removes id)) (abort_prepared id : Mut coordinator _).
Proof.
  assert (∀ A (m : Mut coordinator A), Keeps (Frame TransactionEngine.trace) m →
    Keeps (Appends (removes id)) m) as Hf by (intros; by apply Appends_frame).
  unfold abort_prepared, load_active_record. keeps.
  - apply Hf. intros e res e'. unfold require_active, Frame.
    destruct (TransactionEngine.active e) as [[? ?]|]; [case_bool_decide|]; by intros [= _ <-].
  - apply Hf, Frame_read_store.
  - apply Appends_store. intros r. by exists r.
  - apply Hf, Frame_set_active.
Qed.

(** A preparation that got as far as the engine. *)
Definition prepared (plan : Plan.t) (s s' : service) (handle : SessionHandle.t) : Prop :=
  ∃ e1 record, prepare plan s.(engine) = (Ok handle.(SessionHandle.session_id), e1)
    ∧ read_store (SessionStateStore.load handle.(SessionHandle.session_id)) e1
      = (Ok record, s'.(engine))
    ∧ for_each (check_snapshot plan) record.(SessionRecord.operations) = Ok tt.

(** The check of the record read back. *)
Lemma validate_run sid plan (s s' : service) chk :
  validate_snapshot_identities sid plan s = (chk, s') →
  ∃ loaded, read_store (SessionStateStore.load sid) s.(engine) = (loaded, s'.(engine))
    ∧ chk = (record ← loaded; for_each (check_snapshot plan) record.(SessionRecord.operations))
    ∧ s'.(catalog) = s.(catalog) ∧ s'.(sessions) = s.(sessions)
    ∧ s'.(last_request) = s.(last_request) ∧ s'.(expected_peer) = s.(expected_peer).
Proof.
  unfold validate_snapshot_identities. intros Hr.
  apply mut_bind_cases in Hr as [(x & Hx & ->)|(record & s1 & Hx & [= <- <-])];
    apply with_engine_run in Hx as (Hx & ?); eauto.
Qed.

Lemma prepare_by_identity_cases peer plan_id plan_digest (s s' : service) res :
  prepare_by_identity peer plan_id plan_digest s = (res, s') →
  (s' = s ∧ ∃ x, res = Err x)
  ∨ ∃ plan, approved s plan_id plan_digest plan
      ∧ prepare_effect peer plan_id plan_digest plan s s'
      ∧ s'.(catalog) = s.(catalog) ∧ s'.(expected_peer) = s.(expected_peer)
      ∧ s'.(last_request) = s.(last_request)
      ∧ (s'.(sessions) = s.(sessions) ∧ (∃ x, res = Err x)
         ∨ ∃ sid, let handle := SessionHandle.mk sid plan_id plan_digest peer in
             res = Ok handle ∧ s'.(sessions) = <[sid := SessionBinding.mk handle]> s.(sessions)
             ∧ prepared plan s s' handle).
Proof.
  unfold prepare_by_identity. intros Hr.
  apply mut_bind_cases in Hr as [(x & Hx & ->)|(s0 & s1 & [= <- <-] & Hr)]; [done|].
  apply mut_bind_cases in Hr as [(x & [= _ ->] & ->)|(plan & s1 & [= Hp <-] & Hr)]; [left; eauto|].
  apply ok_or_Ok, catalog_get_Some in Hp as [Hp Hd].
  apply mut_bind_cases in Hr as [(x & Hx & ->)|([] & s1 & Ha & Hr)].
  { apply admission_run in Hx as [-> _]. left. eauto. }
  apply admission_run in Ha as [-> Ha]. destruct (Ha eq_refl) as (Hv & Hne & Hadm).
  right. exists plan. split; [done|]. unfold prepare_effect.
  apply mut_bind_cases in Hr as [(x & He & ->)|(sid & s1 & He & Hr)];
    apply with_engine_run in He as (He & Hc & Hs & Hl & Hpeer);
    pose proof (prepare_intent _ _ _ _ He) as Hint; rewrite He; [by eauto 10|].
  destruct (validate_snapshot_identities sid plan s1) as [chk s2] eqn:Hchk.
  apply validate_run in Hchk as Hv2. destruct Hv2 as (loaded & Hread & Heq & Hc2 & Hses2 & Hl2 & Hp2).
  rewrite Hread. pose proof (Frame_read_store _ _ _ _ Hread) as Htr. unfold Frame in Htr.
  unfold mbind at 1, mut_bind at 1, catch in Hr. rewrite Hchk in Hr.
  rewrite <-Heq. destruct chk as [[]|x].
  - symmetry in Heq. apply bind_Ok in Heq as (record & -> & Hall).
    unfold mbind, mut_bind, bind_session, modify in Hr. injection Hr as <- <-. cbn.
    split_and!; [done|done|done|by rewrite Hses2, Hs|congruence|congruence|congruence|]. right. exists sid.
    split_and!; [done|congruence|]. exists (engine s1), record. done.
  - assert (∃ r, with_engine (abort_prepared sid) s2 = (r, s') ∧ ∃ y, res = Err y) as (r & Hab & Hres).
    { apply mut_bind_cases in Hr as [(y & Hy & ->)|([] & s3 & Hy & [= <- <-])]; eauto. }
    apply with_engine_run in Hab as (Hab & ? & ? & ? & ?). pose proof (abort_removes _ _ _ _ Hab).
    rewrite Hab. split_and!; [done|done|done|done|congruence|congruence|congruence|congruence|].
    left. split; [congruence|done].
Qed.

(** ** The life of a helper *)

Inductive serves : service → service → Prop :=
| serve_frame peer bytes s res s' : handle_frame peer bytes s = (res, s') → serves s s'
| serve_register plan s res s' : register_plan plan s = (res, s') → serves s s'
| serve_prepare peer plan s res s' : prepare_for_peer peer plan s = (res, s') → serves s s'
| serve_apply peer handle s res s' : apply_for_peer peer handle s = (res, s') → serves s s'
| serve_restore peer handle s res s' : restore_for_peer peer handle s = (res, s') → serves s s'
| serve_status peer handle s res s' : status_for_peer peer handle s = (res, s') → serves s s'.

Inductive lifetime : service → Prop :=
| life_start peer e s e' : new_service peer e = (Ok s, e') → lifetime s
| life_step s s' : lifetime s → serves s s' → lifetime s'.

(** What the helper keeps about its catalog and its sessions. *)
Definition catalog_ok (c : ApprovedPlanCatalog.t) : Prop :=
  ∀ id plan, c.(ApprovedPlanCatalog.plans) !! id = Some plan →
    plan.(Plan.id) = id ∧ Plan.validate_complete plan = Ok tt.

Definition session_ok (s : service) (id : SessionId.t) (h : SessionHandle.t) : Prop :=
  h.(SessionHandle.session_id) = id ∧ h.(SessionHandle.owner) = s.(expected_peer)
  ∧ ∃ plan, s.(catalog).(ApprovedPlanCatalog.plans) !! h.(SessionHandle.plan_id) = Some plan
      ∧ plan.(Plan.plan_digest) = h.(SessionHandle.plan_digest) ∧ plan.(Plan.mutations) ≠ [].

Definition service_ok (s : service) : Prop :=
  ProcessIdentity.strong s.(expected_peer)
  ∧ catalog_ok s.(catalog)
  ∧ ∀ id b, s.(sessions) !! id = Some b → session_ok s id b.(SessionBinding.handle).

(** Only the engine or the request numbers differ. *)
Lemma service_ok_engine (s s' : service) :
  service_ok s → s'.(catalog) = s.(catalog) → s'.(sessions) = s.(sessions) →
  s'.(expected_peer) = s.(expected_peer) → service_ok s'.
Proof.
  unfold service_ok, session_ok. intros (Hp & Hc & Hs) -> -> ->. done.
Qed.

Lemma register_ok plan (s s' : service) res :
  service_ok s → register_plan plan s = (res, s') →
  service_ok s' ∧ s'.(expected_peer) = s.(expected_peer) ∧ s'.(engine) = s.(engine)
  ∧ s'.(last_request) = s.(last_request) ∧ s'.(sessions) = s.(sessions).
Proof.
  intros Hok. unfold register_plan, ApprovedPlanCatalog.register.
  destruct (Plan.validate_complete plan) as [[]|x] eqn:Hv; [|by intros [= _ <-]].
  cbn. destruct (_ !! Plan.id plan) as [existing|] eqn:Hx.
  { case_bool_decide; intros [= _ <-]; [by destruct s|done]. }
  intros [= _ <-]. split; [|done]. destruct Hok as (Hp & Hc & Hs).
  split; [done|]. split.
  - intros id p. cbn. intros [[<- <-]|[? ?]]%lookup_insert_Some; [done|by apply Hc].
  - intros id b Hb. destruct (Hs _ _ Hb) as (Hid & Ho & q & Hq & Hd & Hne).
    split; [done|]. split; [done|]. exists q. split; [|done]. cbn.
    rewrite lookup_insert_ne; [done|]. congruence.
Qed.

Lemma prepare_by_identity_ok plan_id plan_digest (s s' : service) res :
  service_ok s → prepare_by_identity s.(expected_peer) plan_id plan_digest s = (res, s') →
  service_ok s' ∧ s'.(expected_peer) = s.(expected_peer).
Proof.
  intros Hok [[-> _]|(plan & (Hin & Hd & Hv & Hne & _) & _ & Hc & Hp & _
    & [[Hs _]|(sid & _ & Hs & _)])]%prepare_by_identity_cases; [done|..].
  - split; [by eapply service_ok_engine|done].
  - split; [|done]. destruct Hok as (Hstrong & Hcat & Hses).
    unfold service_ok, session_ok. rewrite Hc, Hp, Hs. split; [done|]. split; [done|].
    intros id b [[<- <-]|[? Hb]]%lookup_insert_Some; [|by apply Hses]. cbn. eauto 10.
Qed.

(** Only the engine moved. *)
Definition same_books (s s' : service) : Prop :=
  s'.(catalog) = s.(catalog) ∧ s'.(sessions) = s.(sessions)
  ∧ s'.(last_request) = s.(last_request) ∧ s'.(expected_peer) = s.(expected_peer).

#[local] Instance same_books_preorder : PreOrder same_books.
Proof. unfold same_books. split; [by intros ?|intros ???; naive_solver congruence]. Qed.

Lemma same_books_engine {A} (m : Mut coordinator A) : Keeps same_books (with_engine m).
Proof. intros s res s' (_ & ? & ? & ? & ?)%with_engine_run. done. Qed.
Lemma same_books_lookup peer id : Keeps same_books (lookup_session peer id : Mut service _).
Proof. by intros s res s' ->%lookup_quiet. Qed.
Lemma same_books_authorize peer h : Keeps same_books (authorize_session_ref peer h : Mut service _).
Proof. by intros s res s' [= _ <-]. Qed.
Lemma same_books_authenticate peer : Keeps same_books (authenticate_peer peer : Mut service _).
Proof. by intros s res s' [= _ <-]. Qed.
Lemma books_run {A} (m : Mut service A) s res s' :
  m s = (res, s') → Keeps same_books m → same_books s s'.
Proof. eauto. Qed.
#[local] Hint Resolve same_books_engine same_books_lookup same_books_authorize
  same_books_authenticate : keeps.

Lemma service_ok_books (s s' : service) : service_ok s → same_books s s' → service_ok s'.
Proof. intros Hok (? & ? & _ & ?). by eapply service_ok_engine. Qed.

Lemma dispatch_ok request (s s' : service) res :
  service_ok s → dispatch s.(expected_peer) request s = (res, s') →
  service_ok s' ∧ s'.(expected_peer) = s.(expected_peer) ∧ s'.(last_request) = s.(last_request).
Proof.
  intros Hok Hr. assert (Hrest : same_books s s' →
    service_ok s' ∧ s'.(expected_peer) = s.(expected_peer) ∧ s'.(last_request) = s.(last_request)).
  { intros Hs. split; [by eapply service_ok_books|]. by destruct Hs as (_ & _ & ? & ?). }
  destruct request as [rid pid dg|rid sid|rid sid|rid sid]; cbn [dispatch] in Hr.
  { assert (∃ r, prepare_by_identity (expected_peer s) pid dg s = (r, s')) as [r Hp].
    { apply mut_bind_cases in Hr as [(x & Hx & _)|(h & s1 & Hx & [= _ <-])]; eauto. }
    destruct (prepare_by_identity_ok _ _ _ _ _ Hok Hp). split; [done|]. split; [done|].
    by destruct (prepare_by_identity_cases _ _ _ _ _ _ Hp) as [[-> _]|(? & _ & _ & _ & _ & ? & _)]. }
  all: apply Hrest; apply (books_run _ _ _ _ Hr); keeps.
Qed.

Lemma handle_frame_ok peer bytes (s s' : service) res :
  service_ok s → handle_frame peer bytes s = (res, s') →
  service_ok s' ∧ s'.(expected_peer) = s.(expected_peer).
Proof.
  intros Hok [[-> _]|(request & p & r & response & _ & _ & -> & _ & _ & Hd & _)]
    %handle_frame_cases; [done|].
  match type of Hd with dispatch _ _ ?t = _ => assert (service_ok t) as Ht
    by (by eapply service_ok_engine) end.
  by destruct (dispatch_ok _ _ _ _ Ht Hd) as (? & ? & _).
Qed.

Lemma serves_ok (s s' : service) :
  service_ok s → serves s s' → service_ok s' ∧ s'.(expected_peer) = s.(expected_peer).
Proof.
  intros Hok Hsv. revert Hok.
  destruct Hsv as [peer bytes t r t' Hr|plan t r t' Hr|peer plan t r t' Hr|peer h t r t' Hr|peer h t r t' Hr
    |peer h t r t' Hr]; intros Hok.
  - by apply (handle_frame_ok _ _ _ _ _ Hok Hr).
  - by destruct (register_ok _ _ _ _ Hok Hr) as (? & ? & _).
  - unfold prepare_for_peer in Hr.
    apply mut_bind_cases in Hr as [(x & [= _ <-] & _)|([] & s1 & Ha & Hr)]; [done|].
    apply authenticate_run in Ha as (-> & -> & _).
    apply mut_bind_cases in Hr as [(x & Hx & _)|([] & s1 & Hx & Hr)];
      destruct (register_ok _ _ _ _ Hok Hx) as (Hok1 & Hp1 & _); [done|].
    rewrite <-Hp1 in *. by apply prepare_by_identity_ok in Hr.
  - assert (same_books t t') as Hs; [|by split; [eapply service_ok_books|apply Hs]].
    apply (books_run _ _ _ _ Hr). unfold apply_for_peer, authorize_session. keeps.
  - assert (same_books t t') as Hs; [|by split; [eapply service_ok_books|apply Hs]].
    apply (books_run _ _ _ _ Hr). unfold restore_for_peer, authorize_session. keeps.
  - assert (same_books t t') as Hs; [|by split; [eapply service_ok_books|apply Hs]].
    apply (books_run _ _ _ _ Hr). unfold status_for_peer. keeps.
Qed.

Lemma helper_books_ok (s : service) : lifetime s → service_ok s.
Proof.
  induction 1 as [peer e s e' Hnew|s s' _ IH Hserves].
  - unfold new_service in Hnew.
    destruct (N.eqb_spec (ProcessIdentity.generation peer) 0); [done|].
    case_bool_decide; [done|]. cbn in Hnew.
    destruct (mut_map_err _ _ e) as [[?|?] e1]; [|done]. injection Hnew as <- <-.
    split; [done|]. split.
    + intros id plan. cbn. by rewrite lookup_empty.
    + intros id b. cbn. by rewrite lookup_empty.
  - by destruct (serves_ok _ _ IH Hserves).
Qed.

(** C34. The books of a helper at any point of its life: every catalogued plan
    is complete and stored under its own identity, and every session is bound
    under its own ID to the expected peer and to a catalogued, non-empty plan
    of the digest it was prepared for. *)
Theorem helper_books_sound (s : service) : lifetime s → service_ok s.
Proof. apply helper_books_ok. Qed.

(** What a request may do to the engine. *)
Definition granted (s s' : service) (request : Request.t) : Prop :=
  match request with
  | Request.Prepare _ plan_id plan_digest =>
    ∃ plan, approved s plan_id plan_digest plan ∧ prepare_effect s.(expected_peer) plan_id plan_digest plan s s'
  | Request.Apply _ sid => bound s sid ∧ s'.(engine) = snd (apply sid s.(engine))
  | Request.Restore _ sid => bound s sid ∧ s'.(engine) = snd (restore sid s.(engine))
  | Request.Status _ sid => bound s sid ∧ s'.(engine) = snd (status sid s.(engine))
  end.

(** A request on a session is refused, or is the engine's method on it. *)
Lemma session_request {A D} peer sid (m : SessionId.t → Mut coordinator D)
    (c : SessionId.t → Mut service A) (k : A → Response.t) (s s' : service) res :
  (∀ i t r t', c i t = (r, t') → t'.(engine) = snd (m i t.(engine))) →
  service_ok s → peer = s.(expected_peer) →
  (handle ← lookup_session peer sid;
   a ← c handle.(SessionHandle.session_id); mret (k a)) s = (res, s') →
  s' = s ∨ bound s sid ∧ s'.(engine) = snd (m sid s.(engine)).
Proof.
  intros Hc (_ & _ & Hses) -> Hr.
  apply mut_bind_cases in Hr as [(x & Hx & _)|(h & s1 & Hx & Hr)];
    [left; by apply lookup_quiet in Hx|]. right.
  apply lookup_run in Hx as (-> & Hin & _ & Ho).
  destruct (Hses _ _ Hin) as (Hid & Ho' & _). cbn in Hid, Ho'. rewrite Hid in Hr.
  split; [by exists (SessionBinding.mk h)|].
  apply mut_bind_cases in Hr as [(x & Hx & _)|(a & s1 & Hx & [= _ <-])]; by apply Hc in Hx.
Qed.

Lemma with_engine_snd {A} (m : Mut coordinator A) (s s' : service) res :
  with_engine m s = (res, s') → s'.(engine) = snd (m s.(engine)).
Proof. intros (Hr & _)%with_engine_run. by rewrite Hr. Qed.

(** C7. The authority of a frame.  Handling a frame leaves the engine alone
    unless the frame decodes to a request with a new ID from the expected
    peer, and then the request did no more than it may.  A prepare names a
    plan that is catalogued under that identity and digest, complete and
    admitted, and is the engine's preparation of that plan: it captures only
    mutations of the plan and creates only records of its intent, and then
    either binds the session it made to the peer or aborts that session, and
    removes no other.  Apply, restore and status are the engine's own method on
    a session bound to that peer. *)
Theorem frame_authority peer bytes (s s' : service) res :
  lifetime s → handle_frame peer bytes s = (res, s') →
  s'.(engine) = s.(engine)
  ∨ ∃ request, decode_request bytes = Ok request
      ∧ peer = Some s.(expected_peer)
      ∧ (∀ last, s.(last_request) !! s.(expected_peer) = Some last →
           last < RequestId.get (Request.request_id request))
      ∧ granted s s' request.
Proof.
  intros Hok%helper_books_ok [[-> _]|(request & p & r & response & Hdec & -> & -> & Hstrong
    & Hlast & Hd & _)]%handle_frame_cases; [by left|].
  match type of Hd with dispatch _ _ ?t = _ => set (s1 := t) in Hd; assert (service_ok s1) as Hok1
    by (by eapply service_ok_engine) end.
  assert (Hgrant : s'.(engine) = s1.(engine) ∨ granted s1 s' request).
  { destruct request as [rid pid dg|rid sid|rid sid|rid sid]; cbn [dispatch] in Hd.
    - assert (∃ r, prepare_by_identity (expected_peer s) pid dg s1 = (r, s')) as [r' Hp].
      { apply mut_bind_cases in Hd as [(x & Hx & _)|(h & s2 & Hx & [= _ <-])]; eauto. }
      apply prepare_by_identity_cases in Hp as [[-> _]|(plan & Happ & Hint & _)]; [by left|].
      right. by exists plan.
    - apply (session_request _ _ apply (λ i, with_engine (apply i)) (Response.Status rid sid))
        in Hd as [->|?]; eauto using with_engine_snd.
    - apply (session_request _ _ restore (λ i, with_engine (restore i)) (Response.Status rid sid))
        in Hd as [->|?]; eauto using with_engine_snd.
    - apply (session_request _ _ status (λ i, TransactionStatus.state <$> with_engine (status i))
               (Response.Status rid sid)) in Hd as [->|?]; eauto.
      intros i t r' t'. unfold fmap, mut_fmap. intros Hs.
      apply mut_bind_cases in Hs as [(x & Hx & _)|(a & t1 & Hx & [= _ <-])];
        by apply with_engine_snd in Hx. }
  destruct Hgrant as [?|Hg]; [by left|]. right. exists request. split_and!; try done.
Qed.

(** The preimage of an operation was taken from the approved target. *)
Definition target_approved (plan : Plan.t) (o : OperationRecord.t) : Prop :=
  ∃ item snapshot,
    executable_item plan o.(OperationRecord.mutation).(PlannedMutation.mutation_id) = Some item
    ∧ o.(OperationRecord.snapshot) = Some snapshot
    ∧ item.(PlanItem.target_identity) = Some snapshot.(Snapshot.target_identity).

Lemma check_snapshot_Ok plan o : check_snapshot plan o = Ok tt → target_approved plan o.
Proof.
  unfold check_snapshot. intros Hc. apply bind_Ok in Hc as (snap & Hs & Hc).
  apply ok_or_Ok in Hs. apply ensure_Ok, bool_decide_eq_true in Hc.
  destruct (executable_item _ _) as [item|] eqn:Hi; [|done]. by exists item, snap.
Qed.

(** A session handed out by a prepare is for the plan that was asked
    for: the plan is approved and admitted, the durable record read back for
    the session has, for each operation, a preimage of exactly the target
    identity the plan approved, and the session is bound to the peer. *)
Theorem prepared_targets_approved peer plan_id plan_digest (s s' : service) handle :
  prepare_by_identity peer plan_id plan_digest s = (Ok handle, s') →
  ∃ plan e1 record,
    approved s plan_id plan_digest plan
    ∧ prepare plan s.(engine) = (Ok handle.(SessionHandle.session_id), e1)
    ∧ SessionStateStore.load handle.(SessionHandle.session_id) e1.(TransactionEngine.state_store)
      = (Ok record, s'.(engine).(TransactionEngine.state_store))
    ∧ Forall (target_approved plan) record.(SessionRecord.operations)
    ∧ handle.(SessionHandle.owner) = peer
    ∧ s'.(sessions) !! handle.(SessionHandle.session_id) = Some (SessionBinding.mk handle).
Proof.
  intros [[_ [x ?]]|(plan & Happ & _ & _ & _ & _ & [[_ [x ?]]|(sid & [= ->] & Hs
    & e1 & record & Hprep & Hread & Hall)])]%prepare_by_identity_cases; [done|done|].
  exists plan, e1, record. split_and!; try done.
  - unfold read_store in Hread. cbn in *. destruct (SessionStateStore.load _ _) as [r st] eqn:E.
    injection Hread as -> Heng. by rewrite <-Heng.
  - apply for_each_Ok in Hall. eapply Forall_impl; [exact Hall|]. intros o. apply check_snapshot_Ok.
  - cbn. by rewrite Hs, lookup_insert_eq.
Qed.

(** ** Replay *)

(** The IDs of the requests a sequence of frames was answered for. *)
Fixpoint serve (frames : list (option ProcessIdentity.t * list byte)) (s : service) : list u64 :=
  match frames with
  | [] => []
  | (peer, bytes) :: rest =>
    let '(res, s') := handle_frame peer bytes s in
    match res, decode_request bytes with
    | Ok _, Ok request => RequestId.get (Request.request_id request) :: serve rest s'
    | _, _ => serve rest s'
    end
  end.

(** The last ID of the expected peer; no ID is zero. *)
Definition last_id (s : service) : u64 := default 0 (s.(last_request) !! s.(expected_peer)).

Lemma handle_frame_last peer bytes (s s' : service) res :
  service_ok s → handle_frame peer bytes s = (res, s') →
  (s' = s ∧ ∃ x, res = Err x)
  ∨ ∃ request, decode_request bytes = Ok request
      ∧ last_id s < RequestId.get (Request.request_id request)
      ∧ last_id s' = RequestId.get (Request.request_id request).
Proof.
  intros Hok [?|(request & p & r & response & Hdec & _ & -> & _ & Hlast & Hd & _)]%handle_frame_cases;
    [by left|]. right. exists request. split; [done|].
  match type of Hd with dispatch _ _ ?t = _ => set (s1 := t) in Hd; assert (service_ok s1) as Hok1
    by (by eapply service_ok_engine) end.
  destruct (dispatch_ok _ _ _ _ Hok1 Hd) as (_ & Hp & Hl). unfold last_id. rewrite Hl, Hp. cbn.
  rewrite lookup_insert_eq. split; [|done].
  destruct (last_request s !! expected_peer s) as [last|] eqn:E; [by apply Hlast|]. cbn.
  apply request_codec_sound in Hdec as [[Hne _] _]. lia.
Qed.

(** No request is served twice.  Over any sequence of frames, from any
    peers, the request IDs that were answered are strictly increasing and
    exceed every ID answered before. *)
Theorem answered_ids_increase frames (s : service) :
  lifetime s → StronglySorted N.lt (serve frames s) ∧ Forall (N.lt (last_id s)) (serve frames s).
Proof.
  intros Hok%helper_books_ok. revert s Hok.
  induction frames as [|[peer bytes] frames IH]; intros s Hok; cbn [serve]; [by split; constructor|].
  destruct (handle_frame peer bytes s) as [res s'] eqn:Hr.
  destruct (handle_frame_ok _ _ _ _ _ Hok Hr) as [Hok' _].
  destruct (IH s' Hok') as [Hsorted Hall].
  apply (handle_frame_last _ _ _ _ _ Hok) in Hr as [[-> [x ->]]|(request & -> & Hlt & Heq)]; [done|].
  rewrite Heq in Hall.
  assert (Forall (N.lt (last_id s)) (serve frames s')) as Hall'.
  { eapply Forall_impl; [exact Hall|]. intros x Hx. cbn in Hx. lia. }
  destruct res; [|done]. by split; constructor.
Qed.
End Laws.
