(* ===== verification/Registry.v ===== *)
(** * The backend registry ([sysboost-platform/src/backend.rs])

    Reviewed backends behind one [MutationBackend]: registration refuses
    shared ownership, dispatch finds the owner of a typed operation, and a
    call reaches that backend only. *)
From Stdlib Require Import Strings.String.
From stdpp Require Import sorting.
From S2P Require Import Prelude Lists Text Ids Mut Capability Mutation Session Record.
From S2P Require Import Ports.
#[local] Open Scope string_scope.
Unset Default Proof Using.

(** A backend's metadata is compiled in: no call changes it. *)
Module DescriptorLaws.
Class t (B : Type) `{!MutationBackend.t B} := {
  snapshot_descriptor m at_ b :
    MutationBackend.descriptor (snd (MutationBackend.snapshot m at_ b)) = MutationBackend.descriptor b;
  apply_descriptor m s b :
    MutationBackend.descriptor (snd (MutationBackend.apply m s b)) = MutationBackend.descriptor b;
  verify_descriptor m f i b :
    MutationBackend.descriptor (snd (MutationBackend.verify m f i b)) = MutationBackend.descriptor b;
  restore_descriptor m s f b :
    MutationBackend.descriptor (snd (MutationBackend.restore m s f b)) = MutationBackend.descriptor b
}.
End DescriptorLaws.

(** [Box<dyn MutationBackend>]: a backend with its method table. *)
Module DynBackend.
Record t := box {
  carrier : Type;
  methods : MutationBackend.t carrier;
  laws : DescriptorLaws.t carrier;
  self : carrier
}.
#[global] Existing Instance methods.
#[global] Existing Instance laws.

Definition descriptor (b : t) : BackendDescriptor.t := MutationBackend.descriptor b.(self).
Definition owns_backend (b : t) (id : BackendId.t) : bool := MutationBackend.owns_backend b.(self) id.
Definition validate_target (b : t) (m : PlannedMutation.t) (i : TargetIdentity.t) : Result unit :=
  MutationBackend.validate_target b.(self) m i.
Definition validate_admission (b : t) (m : PlannedMutation.t) (i : TargetIdentity.t) : Result unit :=
  MutationBackend.validate_admission b.(self) m i.

(** A method call through the table. *)
Definition call {A} (f : ∀ B, MutationBackend.t B → Mut B A) : Mut t A := λ b,
  let '(res, s) := f b.(carrier) b.(methods) b.(self) in
  (res, box b.(carrier) b.(methods) b.(laws) s).

Definition snapshot (m : PlannedMutation.t) (at_ : Timestamp.t) : Mut t Snapshot.t :=
  call (λ B _, MutationBackend.snapshot m at_).
Definition apply (m : PlannedMutation.t) (s : Snapshot.t) : Mut t ApplyReceipt.t :=
  call (λ B _, MutationBackend.apply m s).
Definition verify (m : PlannedMutation.t) (f : StateFingerprint.t) (i : TargetIdentity.t) :
    Mut t StateFingerprint.t :=
  call (λ B _, MutationBackend.verify m f i).
Definition restore (m : PlannedMutation.t) (s : Snapshot.t) (f : StateFingerprint.t) :
    Mut t RestoreReceipt.t :=
  call (λ B _, MutationBackend.restore m s f).
End DynBackend.

(** The order of the registry's sorted identifier lists: by bytes. *)
Definition capability_le (a b : CapabilityId.t) : Prop :=
  String.leb (CapabilityId.as_str a) (CapabilityId.as_str b) = true.
Definition operation_le (a b : OperationId.t) : Prop :=
  String.leb (OperationId.as_str a) (OperationId.as_str b) = true.
#[export] Instance capability_le_dec a b : Decision (capability_le a b).
Proof. unfold capability_le. apply _. Defined.
#[export] Instance operation_le_dec a b : Decision (operation_le a b).
Proof. unfold operation_le. apply _. Defined.

Module BackendRegistry.
Record t := mk { backends : list DynBackend.t; descriptor : BackendDescriptor.t }.

Definition default : t :=
  mk [] (BackendDescriptor.mk (BackendId.mk "sysboost.registry") "1" [] []).

Definition new : t := default.

Definition owns_capability (c : CapabilityId.t) (b : DynBackend.t) : bool :=
  bool_decide (c ∈ (DynBackend.descriptor b).(BackendDescriptor.capabilities)).
Definition owns_operation (o : OperationId.t) (b : DynBackend.t) : bool :=
  bool_decide (o ∈ (DynBackend.descriptor b).(BackendDescriptor.operations)).
Definition same_id (d : BackendDescriptor.t) (b : DynBackend.t) : bool :=
  bool_decide ((DynBackend.descriptor b).(BackendDescriptor.id) = d.(BackendDescriptor.id)).

Definition refusal (message : string) : SysboostError.t :=
  SysboostError.new ErrorCode.InvariantViolation message.

Definition register (backend : DynBackend.t) (r : t) : Result t :=
  let d := DynBackend.descriptor backend in
  _ ← ensure (negb (existsb (same_id d) r.(backends))) (refusal "duplicate backend registration");
  _ ← for_each (λ c, ensure (negb (existsb (owns_capability c) r.(backends)))
                       (refusal "duplicate capability ownership" |> SysboostError.with_capability c))
        d.(BackendDescriptor.capabilities);
  _ ← for_each (λ o, ensure (negb (existsb (owns_operation o) r.(backends)))
                       (refusal "duplicate operation ownership"))
        d.(BackendDescriptor.operations);
  let own := r.(descriptor) in
  Ok (mk (r.(backends) ++ [backend])
        (BackendDescriptor.mk own.(BackendDescriptor.id) own.(BackendDescriptor.version)
           (merge_sort capability_le
              (own.(BackendDescriptor.capabilities) ++ d.(BackendDescriptor.capabilities)))
           (merge_sort operation_le
              (own.(BackendDescriptor.operations) ++ d.(BackendDescriptor.operations))))).

Definition len (r : t) : nat := length r.(backends).
Definition is_empty (r : t) : bool := bool_decide (r.(backends) = []).

Definition owns_backend (r : t) (id : BackendId.t) : bool :=
  existsb (λ b, DynBackend.owns_backend b id) r.(backends).

Definition iter (r : t) : list DynBackend.t := r.(backends).

(** The inventories of the backends, read one after another: [detectors] are
    their detect methods in the order of registration. *)
Section Detect.
Context {C : Type} `{!Clock.t C}.
Definition later (observed_at : option Timestamp.t) (now : Timestamp.t) : Timestamp.t :=
  match observed_at with
  | Some current => Timestamp.mk (N.max current.(Timestamp.as_unix_millis) now.(Timestamp.as_unix_millis))
  | None => now
  end.
Fixpoint detect_loop (detectors : list (Mut C CapabilityInventory.t)) (observed_at : option Timestamp.t)
    (capabilities : list CapabilityDescriptor.t) : Mut C (option Timestamp.t * list CapabilityDescriptor.t) :=
  match detectors with
  | [] => mret (observed_at, capabilities)
  | detector :: detectors' =>
    inventory ← detector;
    detect_loop detectors' (Some (later observed_at inventory.(CapabilityInventory.observed_at)))
      (capabilities ++ inventory.(CapabilityInventory.capabilities))
  end.
Definition detect (detectors : list (Mut C CapabilityInventory.t)) : Mut C CapabilityInventory.t :=
  '(observed_at, capabilities) ← detect_loop detectors None [];
  now ← match observed_at with
        | Some now => mret now
        | None => now ← catch Clock.now;
                  mret (match now with Ok now => now | Err _ => Timestamp.from_unix_millis 0 end)
        end;
  mret (CapabilityInventory.mk now capabilities).
End Detect.

Definition unowned (m : PlannedMutation.t) : SysboostError.t :=
  SysboostError.new ErrorCode.Unsupported "no registered backend owns the typed operation"
  |> SysboostError.with_capability m.(PlannedMutation.capability)
  |> SysboostError.with_mutation m.(PlannedMutation.mutation_id).

Definition dispatches (m : PlannedMutation.t) (b : DynBackend.t) : bool :=
  owns_operation (operation_id m.(PlannedMutation.kind)) b
  && owns_capability m.(PlannedMutation.capability) b.

(** The place of the owner in [backends]. *)
Definition backend_for (m : PlannedMutation.t) (r : t) : Result (nat * DynBackend.t) :=
  ok_or (list_find (λ b, Is_true (dispatches m b)) r.(backends)) (unowned m).

(** [self.backend_for(mutation)?.method(..)]: the owner's state changes in
    place. *)
Definition dispatch {A} (m : PlannedMutation.t) (method : Mut DynBackend.t A) : Mut t A := λ r,
  match backend_for m r with
  | Ok (i, b) =>
    let '(res, b') := method b in (res, mk (<[i := b']> r.(backends)) r.(descriptor))
  | Err e => (Err e, r)
  end.

Definition snapshot m at_ : Mut t Snapshot.t := dispatch m (DynBackend.snapshot m at_).
Definition apply m s : Mut t ApplyReceipt.t := dispatch m (DynBackend.apply m s).
Definition verify m f i : Mut t StateFingerprint.t := dispatch m (DynBackend.verify m f i).
Definition restore m s f : Mut t RestoreReceipt.t := dispatch m (DynBackend.restore m s f).
Definition validate_admission (r : t) (m : PlannedMutation.t) (i : TargetIdentity.t) : Result unit :=
  '(_, b) ← backend_for m r; DynBackend.validate_admission b m i.
Definition validate_target (r : t) (m : PlannedMutation.t) (i : TargetIdentity.t) : Result unit :=
  '(_, b) ← backend_for m r; DynBackend.validate_target b m i.
End BackendRegistry.

#[export] Instance backend_registry : MutationBackend.t BackendRegistry.t := {|
  MutationBackend.descriptor := BackendRegistry.descriptor;
  MutationBackend.owns_backend := BackendRegistry.owns_backend;
  MutationBackend.snapshot := BackendRegistry.snapshot;
  MutationBackend.apply := BackendRegistry.apply;
  MutationBackend.verify := BackendRegistry.verify;
  MutationBackend.restore := BackendRegistry.restore;
  MutationBackend.validate_target := BackendRegistry.validate_target;
  MutationBackend.validate_admission := BackendRegistry.validate_admission
|}.

(** ** Exclusive ownership *)

Abbreviation ids b := (DynBackend.descriptor b).(BackendDescriptor.id).
Abbreviation capabilities b := (DynBackend.descriptor b).(BackendDescriptor.capabilities).
Abbreviation operations b := (DynBackend.descriptor b).(BackendDescriptor.operations).

(** Two backends that may be registered together. *)
Definition separate (a b : DynBackend.t) : Prop :=
  ids a ≠ ids b ∧ capabilities a ## capabilities b ∧ operations a ## operations b.

Definition exclusive (l : list DynBackend.t) : Prop :=
  ∀ i j a b, i < j → l !! i = Some a → l !! j = Some b → separate a b.

Lemma exclusive_nil : exclusive [].
Proof. intros i j a b _ Hi. by rewrite lookup_nil in Hi. Qed.

Lemma exclusive_snoc l b : exclusive (l ++ [b]) ↔ exclusive l ∧ ∀ a, a ∈ l → separate a b.
Proof.
  split.
  - intros He. split.
    + intros i j x y Hij Hi Hj. apply (He i j); [done|by apply lookup_app_l_Some..].
    + intros a [i Hi]%list_elem_of_lookup. apply (He i (length l)).
      * by eapply lookup_lt_Some.
      * by apply lookup_app_l_Some.
      * by rewrite lookup_app_r, Nat.sub_diag by done.
  - intros [He Hb] i j x y Hij Hi Hj.
    apply lookup_app_Some in Hj as [Hj|[Hl Hj]].
    + rewrite lookup_app_l in Hi by (apply lookup_lt_Some in Hj; lia). by eapply He.
    + apply list_lookup_singleton_Some in Hj as [Hz <-].
      rewrite lookup_app_l in Hi by lia. apply Hb. by eapply list_elem_of_lookup_2.
Qed.

Lemma not_existsb {A} (f : A → bool) l : negb (existsb f l) = true ↔ ∀ x, x ∈ l → f x = false.
Proof.
  rewrite negb_true_iff, <-not_true_iff_false, existsb_exists. split.
  - intros Hn x Hx. apply not_true_iff_false. intros Hf. apply Hn. exists x.
    by rewrite <-list_elem_of_In.
  - intros Hf (x & Hx%list_elem_of_In & Hfx). by rewrite Hf in Hfx.
Qed.

Lemma for_each_unowned {A} `{!EqDecision A} (owned : DynBackend.t → list A) l (own : list A)
    (e : A → SysboostError.t) (f : A → DynBackend.t → bool) :
  (∀ x b, f x b = bool_decide (x ∈ owned b)) →
  for_each (λ x, ensure (negb (existsb (f x) l)) (e x)) own = Ok tt
  ↔ ∀ b, b ∈ l → owned b ## own.
Proof.
  intros Hf. rewrite for_each_elem. setoid_rewrite ensure_Ok. setoid_rewrite not_existsb.
  setoid_rewrite Hf. setoid_rewrite bool_decide_eq_false. unfold disjoint, set_disjoint_instance.
  naive_solver.
Qed.

Lemma register_run backend r r' :
  BackendRegistry.register backend r = Ok r' ↔
  (∀ a, a ∈ r.(BackendRegistry.backends) → separate a backend)
  ∧ r' = BackendRegistry.mk (r.(BackendRegistry.backends) ++ [backend])
           (let own := r.(BackendRegistry.descriptor) in
            BackendDescriptor.mk own.(BackendDescriptor.id) own.(BackendDescriptor.version)
              (merge_sort capability_le (own.(BackendDescriptor.capabilities) ++ capabilities backend))
              (merge_sort operation_le (own.(BackendDescriptor.operations) ++ operations backend))).
Proof.
  unfold BackendRegistry.register. cbv zeta.
  assert (∀ (m : Result unit) (k : Result BackendRegistry.t),
    (m ≫= λ _, k) = Ok r' ↔ m = Ok tt ∧ k = Ok r') as Hb.
  { intros [[]|x] k; cbn; naive_solver. }
  rewrite !Hb, ensure_Ok, not_existsb.
  rewrite (for_each_unowned (λ b, capabilities b)) by done.
  rewrite (for_each_unowned (λ b, operations b)) by done.
  unfold BackendRegistry.same_id, separate. setoid_rewrite bool_decide_eq_false.
  assert (∀ x y : BackendRegistry.t, (Ok x : Result _) = Ok y ↔ y = x) as Ho
    by (intros; split; [by intros [= <-]|by intros ->]).
  rewrite Ho. split.
  - intros (H1 & H2 & H3 & ->). split; [|done]. intros a Ha. split_and!; [by apply H1|by apply H2|by apply H3].
  - intros [Hs ->]. split_and!; [..|done]; intros a Ha; by apply Hs in Ha as (? & ? & ?).
Qed.

(** Registration is refused exactly when it would let two backends share an
    identity, a capability or an operation. *)
Theorem register_iff_exclusive backend (r : BackendRegistry.t) :
  exclusive r.(BackendRegistry.backends) →
  (∃ r', BackendRegistry.register backend r = Ok r')
  ↔ exclusive (r.(BackendRegistry.backends) ++ [backend]).
Proof.
  intros He. rewrite exclusive_snoc. split.
  - intros [r' [Hs _]%register_run]. done.
  - intros [_ Hs]. eexists. apply register_run. done.
Qed.

(** ** Reachable registries *)

(** The metadata of the registered backends. *)
Definition descriptors (r : BackendRegistry.t) : list BackendDescriptor.t :=
  DynBackend.descriptor <$> r.(BackendRegistry.backends).

(** What a registry keeps: exclusive ownership, and a descriptor that lists
    what its backends own. *)
Record registry_wf (r : BackendRegistry.t) : Prop := {
  wf_exclusive : exclusive r.(BackendRegistry.backends);
  wf_capabilities :
    r.(BackendRegistry.descriptor).(BackendDescriptor.capabilities)
    ≡ₚ mjoin (BackendDescriptor.capabilities <$> descriptors r);
  wf_operations :
    r.(BackendRegistry.descriptor).(BackendDescriptor.operations)
    ≡ₚ mjoin (BackendDescriptor.operations <$> descriptors r)
}.

(** All a registry decides by. *)
Definition metadata (r : BackendRegistry.t) : list BackendDescriptor.t * BackendDescriptor.t :=
  (descriptors r, r.(BackendRegistry.descriptor)).

Lemma exclusive_metadata l l' :
  DynBackend.descriptor <$> l = DynBackend.descriptor <$> l' → exclusive l → exclusive l'.
Proof.
  intros Hl He i j a b Hij Hi Hj.
  assert (∀ k c, l' !! k = Some c →
    ∃ c', l !! k = Some c' ∧ DynBackend.descriptor c' = DynBackend.descriptor c) as Hk.
  { intros k c Hc. apply (f_equal (λ x, x !! k)) in Hl. rewrite !list_lookup_fmap, Hc in Hl.
    destruct (l !! k) as [c'|]; [|done]. injection Hl as Hl. eauto. }
  destruct (Hk _ _ Hi) as (a' & Ha & Ea), (Hk _ _ Hj) as (b' & Hb & Eb).
  specialize (He i j a' b' Hij Ha Hb). unfold separate in *. by rewrite Ea, Eb in He.
Qed.

Lemma registry_wf_metadata r r' : metadata r = metadata r' → registry_wf r → registry_wf r'.
Proof.
  unfold metadata. intros [= Hl Hd] [He Hc Ho].
  split; [by eapply exclusive_metadata|by rewrite <-Hd, <-Hl|by rewrite <-Hd, <-Hl].
Qed.

Lemma registry_wf_new : registry_wf BackendRegistry.new.
Proof. split; [apply exclusive_nil|done|done]. Qed.

Lemma registry_wf_register backend r r' :
  BackendRegistry.register backend r = Ok r' → registry_wf r → registry_wf r'.
Proof.
  intros [Hs ->]%register_run [He Hc Ho]. split; cbn.
  - by apply exclusive_snoc.
  - rewrite merge_sort_Permutation, Hc. unfold descriptors. cbn [BackendRegistry.backends].
    rewrite !fmap_app, join_app. cbn. by rewrite app_nil_r.
  - rewrite merge_sort_Permutation, Ho. unfold descriptors. cbn [BackendRegistry.backends].
    rewrite !fmap_app, join_app. cbn. by rewrite app_nil_r.
Qed.

(** ** Dispatch *)

Lemma backend_for_run m r i b :
  BackendRegistry.backend_for m r = Ok (i, b) →
  r.(BackendRegistry.backends) !! i = Some b ∧ BackendRegistry.dispatches m b = true.
Proof.
  unfold BackendRegistry.backend_for.
  destruct (list_find _ _) as [[j c]|] eqn:Hf; [|done]. intros [= -> ->].
  apply list_find_Some in Hf as (Hi & Hd & _). split; [done|by apply Is_true_eq_true].
Qed.

Lemma dispatches_owned m b :
  BackendRegistry.dispatches m b = true ↔
  operation_id m.(PlannedMutation.kind) ∈ operations b
  ∧ m.(PlannedMutation.capability) ∈ capabilities b.
Proof.
  unfold BackendRegistry.dispatches, BackendRegistry.owns_operation, BackendRegistry.owns_capability.
  by rewrite andb_true_iff, !bool_decide_eq_true.
Qed.

Lemma exclusive_owner l i j a b m :
  exclusive l → l !! i = Some a → l !! j = Some b →
  BackendRegistry.dispatches m a = true → BackendRegistry.dispatches m b = true → i = j.
Proof.
  intros He Hi Hj [Ha _]%dispatches_owned [Hb _]%dispatches_owned.
  destruct (lt_eq_lt_dec i j) as [[Hl|Hl]|Hl]; [|done|]; exfalso;
    [destruct (He _ _ _ _ Hl Hi Hj) as (_ & _ & Hd)|destruct (He _ _ _ _ Hl Hj Hi) as (_ & _ & Hd)];
    set_solver.
Qed.

Lemma backend_for_owner m r i b :
  exclusive r.(BackendRegistry.backends) →
  r.(BackendRegistry.backends) !! i = Some b → BackendRegistry.dispatches m b = true →
  BackendRegistry.backend_for m r = Ok (i, b).
Proof.
  intros He Hi Hd. unfold BackendRegistry.backend_for.
  destruct (list_find _ _) as [[j c]|] eqn:Hf.
  - apply list_find_Some in Hf as (Hj & Hc & _). apply Is_true_eq_true in Hc.
    pose proof (exclusive_owner _ _ _ _ _ _ He Hi Hj Hd Hc) as <-. cbn. congruence.
  - eapply list_find_None in Hf. rewrite Forall_forall in Hf.
    destruct (Hf b); [by eapply list_elem_of_lookup_2|by apply Is_true_eq_left].
Qed.

(** A method of the table that keeps the metadata. *)
Definition metadata_kept {A} (method : Mut DynBackend.t A) : Prop :=
  ∀ b, DynBackend.descriptor (snd (method b)) = DynBackend.descriptor b.

Lemma call_metadata_kept {A} (f : ∀ B, MutationBackend.t B → Mut B A) :
  (∀ B (M : MutationBackend.t B), DescriptorLaws.t B →
     ∀ s, MutationBackend.descriptor (snd (f B M s)) = MutationBackend.descriptor s) →
  metadata_kept (DynBackend.call f).
Proof.
  intros Hf [B M Laws s]. unfold DynBackend.call, DynBackend.descriptor. cbn.
  specialize (Hf B M Laws s). by destruct (f B M s).
Qed.

Lemma dispatch_metadata {A} m (method : Mut DynBackend.t A) (r : BackendRegistry.t) :
  metadata_kept method → metadata (snd (BackendRegistry.dispatch m method r)) = metadata r.
Proof.
  intros Hk. unfold BackendRegistry.dispatch.
  destruct (BackendRegistry.backend_for m r) as [[i b]|e] eqn:Hb; [|done].
  apply backend_for_run in Hb as [Hi _]. specialize (Hk b). destruct (method b) as [res b'].
  unfold metadata, descriptors. cbn in *. f_equal.
  rewrite list_fmap_insert, list_insert_id; [done|]. by rewrite list_lookup_fmap, Hi, Hk.
Qed.

(** Registrations and calls of the port, whatever they return. *)
Inductive registry_step : BackendRegistry.t → BackendRegistry.t → Prop :=
| registry_register backend r r' :
    BackendRegistry.register backend r = Ok r' → registry_step r r'
| registry_snapshot m at_ r : registry_step r (snd (MutationBackend.snapshot m at_ r))
| registry_apply m s r : registry_step r (snd (MutationBackend.apply m s r))
| registry_verify m f i r : registry_step r (snd (MutationBackend.verify m f i r))
| registry_restore m s f r : registry_step r (snd (MutationBackend.restore m s f r)).

Lemma registry_step_wf r r' : registry_step r r' → registry_wf r → registry_wf r'.
Proof.
  intros []; [by eapply registry_wf_register|..]; apply registry_wf_metadata; symmetry;
    apply dispatch_metadata, call_metadata_kept; intros B M Laws s'.
  - apply DescriptorLaws.snapshot_descriptor.
  - apply DescriptorLaws.apply_descriptor.
  - apply DescriptorLaws.verify_descriptor.
  - apply DescriptorLaws.restore_descriptor.
Qed.

Lemma registry_reachable_wf r : rtc registry_step BackendRegistry.new r → registry_wf r.
Proof.
  intros Hr. assert (registry_wf BackendRegistry.new) as Hn by apply registry_wf_new.
  induction Hr; eauto using registry_step_wf.
Qed.

(** In every registry built by registrations and used by any calls, an
    operation and capability are owned by at most one backend, dispatch
    finds exactly that backend, and the registry advertises exactly what its
    backends own. *)
Theorem registry_dispatches_to_owner r m i b :
  rtc registry_step BackendRegistry.new r →
  (BackendRegistry.backend_for m r = Ok (i, b) ↔
     r.(BackendRegistry.backends) !! i = Some b
     ∧ operation_id m.(PlannedMutation.kind) ∈ operations b
     ∧ m.(PlannedMutation.capability) ∈ capabilities b)
  ∧ r.(BackendRegistry.descriptor).(BackendDescriptor.capabilities)
    ≡ₚ mjoin (BackendDescriptor.capabilities <$> descriptors r)
  ∧ r.(BackendRegistry.descriptor).(BackendDescriptor.operations)
    ≡ₚ mjoin (BackendDescriptor.operations <$> descriptors r).
Proof.
  intros [He Hc Ho]%registry_reachable_wf. split; [|done]. rewrite <-dispatches_owned. split.
  - apply backend_for_run.
  - intros [Hi Hd]. by apply backend_for_owner.
Qed.

(** ** Detection *)

(** The backends asked one after another, as far as the first that fails. *)
Fixpoint inventories {C} (detectors : list (Mut C CapabilityInventory.t)) : Mut C (list CapabilityInventory.t) :=
  match detectors with
  | [] => mret []
  | detector :: detectors' =>
    inventory ← detector; rest ← inventories detectors'; mret (inventory :: rest)
  end.
Definition times (l : list CapabilityInventory.t) : list N :=
  (λ i, i.(CapabilityInventory.observed_at).(Timestamp.as_unix_millis)) <$> l.

Lemma detect_loop_inventories {C} (detectors : list (Mut C CapabilityInventory.t)) : ∀ o l c,
  BackendRegistry.detect_loop detectors o l c
  = match inventories detectors c with
    | (Ok found, c') =>
      (Ok (foldl (λ o i, Some (BackendRegistry.later o i.(CapabilityInventory.observed_at))) o found,
           (l ++ mjoin (CapabilityInventory.capabilities <$> found))%list), c')
    | (Err e, c') => (Err e, c')
    end.
Proof.
  induction detectors as [|d detectors IH]; intros o l c; [cbn; by rewrite List.app_nil_r|].
  cbn [BackendRegistry.detect_loop inventories]. unfold mbind, mut_bind.
  destruct (d c) as [[i|e] c1]; [|done]. rewrite IH. destruct (inventories detectors c1) as [[found|e] c2]; [|done].
  cbn. by rewrite <-List.app_assoc.
Qed.

Lemma latest_inventory found : ∀ t,
  foldl (λ o i, Some (BackendRegistry.later o i.(CapabilityInventory.observed_at))) (Some t) found
  = Some (Timestamp.mk (foldl N.max t.(Timestamp.as_unix_millis) (times found))).
Proof. induction found as [|i found IH]; intros [t]; [done|]. cbn. by rewrite IH. Qed.

(** The registry's inventory is the inventories of its backends in the order
    of registration, at the latest of their times, and it stops at the first
    backend that fails; without backends the time is the clock's, or zero
    when the clock fails, so the detection of an empty registry succeeds. *)
Theorem registry_detects_all {C} `{!Clock.t C} (detectors : list (Mut C CapabilityInventory.t)) (c : C) :
  fst (BackendRegistry.detect detectors c)
  = match inventories detectors c with
    | (Ok (first :: found), _) =>
      Ok (CapabilityInventory.mk
            (Timestamp.mk (foldl N.max first.(CapabilityInventory.observed_at).(Timestamp.as_unix_millis) (times found)))
            (mjoin (CapabilityInventory.capabilities <$> first :: found)))
    | (Ok [], c) =>
      Ok (CapabilityInventory.mk (match fst (Clock.now c) with Ok now => now | Err _ => Timestamp.mk 0 end) [])
    | (Err e, _) => Err e
    end.
Proof.
  unfold BackendRegistry.detect, mbind at 1, mut_bind at 1. rewrite detect_loop_inventories.
  destruct (inventories detectors c) as [[[|i found]|e] c1]; [| |done].
  - unfold mbind, mut_bind, catch. cbn. by destruct (Clock.now c1) as [[now|e] c2].
  - cbn [foldl]. rewrite latest_inventory. by destruct (CapabilityInventory.observed_at i).
Qed.
