(* ===== verification/FileSystem.v ===== *)
(** * The file system the platform writes to

    The system calls of [sysboost-platform] as operations of a disk: a map
    from paths to inodes, the inodes, and what a power loss may still undo.
    A program is a tree of calls; what the kernel decides at a call (that it
    fails, how much of a write went through, the order of a directory, the
    clock) is a [Choice], so a program runs deterministically under a
    schedule of choices and its properties are proved for every schedule.

    Symbolic links are never followed by the calls here: the source opens
    with [O_NOFOLLOW] or after a check that the path is not one, and an open
    that would follow one fails.  Permissions are not evaluated: a refusal is
    one of the failures a choice may inject.  Inode numbers are not reused. *)
From Stdlib Require Import Strings.Byte.
From S2P Require Import Prelude Lists Text.
Local Open Scope N_scope.

(** [io::ErrorKind], as far as the source distinguishes kinds. *)
Module ErrorKind.
Inductive t := NotFound | PermissionDenied | AlreadyExists | Other.
#[global] Instance t_eq_dec : EqDecision t. Proof. solve_decision. Defined.
End ErrorKind.
Notation io := (result ErrorKind.t).

(** Paths: the components, the last one first. *)
Definition Path : Type := list string.
Definition join (p : Path) (name : string) : Path := name :: p.
Definition parent (p : Path) : option Path :=
  match p with [] => None | _ :: q => Some q end.

Module FileType.
Inductive t := File | Directory | Symlink | Special.
#[global] Instance t_eq_dec : EqDecision t. Proof. solve_decision. Defined.
Definition is_file (x : t) : bool := bool_decide (x = File).
Definition is_dir (x : t) : bool := bool_decide (x = Directory).
Definition is_symlink (x : t) : bool := bool_decide (x = Symlink).
End FileType.

(** [fs::Metadata] *)
Module Metadata.
Record t := mk {
  file_type : FileType.t;
  uid : u32;
  gid : u32;
  mode : u32;
  nlink : u64;
  dev : u64;
  ino : u64
}.
#[global] Instance t_eq_dec : EqDecision t. Proof. solve_decision. Defined.
End Metadata.

(** An inode; [synced] says that its contents are on stable storage. *)
Module Inode.
Record t := mk {
  file_type : FileType.t;
  uid : u32;
  gid : u32;
  mode : u32;
  nlink : u64;
  data : list byte;
  synced : bool
}.
#[global] Instance t_eq_dec : EqDecision t. Proof. solve_decision. Defined.
Definition set_data (l : list byte) (x : t) : t :=
  mk x.(file_type) x.(uid) x.(gid) x.(mode) x.(nlink) l false.
Definition set_synced (x : t) : t :=
  mk x.(file_type) x.(uid) x.(gid) x.(mode) x.(nlink) x.(data) true.
Definition unlinked (x : t) : t :=
  mk x.(file_type) x.(uid) x.(gid) x.(mode) (x.(nlink) - 1) x.(data) x.(synced).
Definition metadata (dev ino : u64) (x : t) : Metadata.t :=
  Metadata.mk x.(file_type) x.(uid) x.(gid) x.(mode) x.(nlink) dev ino.
End Inode.

(** The disk.  [past p] are the earlier bindings of [p] that a power loss may
    still bring back, because the directory was not synchronised since. *)
Module Disk.
Record t := mk {
  names : gmap Path N;
  past : gmap Path (list (option N));
  inodes : gmap N Inode.t;
  next : N;
  device : u64
}.
#[global] Instance t_eq_dec : EqDecision t. Proof. solve_decision. Defined.

Definition set_names (p : Path) (i : option N) (d : t) : t :=
  mk (match i with Some i => <[p := i]> d.(names) | None => delete p d.(names) end)
     (<[p := d.(names) !! p :: default [] (d.(past) !! p)]> d.(past))
     d.(inodes) d.(next) d.(device).
Definition set_inode (i : N) (x : Inode.t) (d : t) : t :=
  mk d.(names) d.(past) (<[i := x]> d.(inodes)) d.(next) d.(device).
(** A fresh inode. *)
Definition alloc (x : Inode.t) (d : t) : t :=
  mk d.(names) d.(past) (<[d.(next) := x]> d.(inodes)) (d.(next) + 1) d.(device).

(** The inode a path names. *)
Definition lookup (p : Path) (d : t) : option (N * Inode.t) :=
  i ← d.(names) !! p; x ← d.(inodes) !! i; Some (i, x).

(** The entries of a directory. *)
Definition entries (p : Path) (d : t) : list string :=
  omap (λ '(q, _), match q with
                   | name :: q' => if bool_decide (q' = p) then Some name else None
                   | [] => None
                   end) (map_to_list d.(names)).

(** The bindings in the directory at inode [i] became durable. *)
Definition sync_entries (i : N) (d : t) : t :=
  mk d.(names)
     (filter (λ '(p, _), (q ← parent p; d.(names) !! q) ≠ Some i) d.(past))
     d.(inodes) d.(next) d.(device).
End Disk.

Module Caller.
Record t := mk { pid : u32; euid : u32; egid : u32; umask : u32 }.
End Caller.

(** What the kernel decides at one call. *)
Module Choice.
Record t := mk {
  fail : option ErrorKind.t;
  written : nat;
  order : nat;
  nanos : option u128
}.
Definition calm : t := mk None 0 0 (Some 0).
(** The failure the kernel may report at will: that a name is missing or
    taken is for the disk to say. *)
Definition injected (ch : t) : option ErrorKind.t :=
  match ch.(fail) with
  | Some ErrorKind.NotFound | Some ErrorKind.AlreadyExists => None
  | e => e
  end.
End Choice.

(** An open file. *)
Module File.
Record t := mk { ino : N }.
#[global] Instance t_eq_dec : EqDecision t. Proof. solve_decision. Defined.
End File.

(** ** System calls *)

Module Sys.
Inductive t : Type → Type :=
| GetPid : t u32
| Clock : t (option u128)
| Lstat (p : Path) : t Metadata.t
| Mkdir (p : Path) (mode : u32) : t unit
| OpenNew (p : Path) (mode : u32) : t File.t
| OpenRead (p : Path) (directory : bool) : t File.t
| Fstat (f : File.t) : t Metadata.t
| WriteAll (f : File.t) (bytes : list byte) : t unit
| ReadUpTo (f : File.t) (count : N) : t (list byte)
| SyncAll (f : File.t) : t unit
| Rename (source target : Path) : t unit
| Unlink (p : Path) : t unit
| ReadDir (p : Path) : t (list string)
| EntryType (p : Path) : t FileType.t
| ReadFile (p : Path) : t (list byte).
End Sys.

(** [mode & !umask] on the permission bits. *)
Definition masked (mode umask : N) : N := N.land mode (N.lxor (N.land umask 4095) 4095).

Definition not_found {R} (d : Disk.t) : io R * Disk.t := (Err ErrorKind.NotFound, d).

(** The parent of a new entry must be a directory. *)
Definition parent_is_dir (p : Path) (d : Disk.t) : bool :=
  match parent p with
  | Some q => match Disk.lookup q d with
              | Some (_, x) => FileType.is_dir x.(Inode.file_type)
              | None => false
              end
  | None => false
  end.

(** A new name for a fresh inode. *)
Definition create (p : Path) (x : Inode.t) (d : Disk.t) : Disk.t :=
  Disk.set_names p (Some d.(Disk.next)) (Disk.alloc x d).

Definition write_inode (i : N) (bytes : list byte) (d : Disk.t) : Disk.t :=
  match d.(Disk.inodes) !! i with
  | Some x => Disk.set_inode i (Inode.set_data (x.(Inode.data) ++ bytes) x) d
  | None => d
  end.

Definition sync_inode (i : N) (d : Disk.t) : Disk.t :=
  match d.(Disk.inodes) !! i with
  | Some x => let d := Disk.set_inode i (Inode.set_synced x) d in
              if FileType.is_dir x.(Inode.file_type) then Disk.sync_entries i d else d
  | None => d
  end.

(** One link to the inode is gone. *)
Definition drop_link (i : N) (d : Disk.t) : Disk.t :=
  match d.(Disk.inodes) !! i with
  | Some x => Disk.set_inode i (Inode.unlinked x) d
  | None => d
  end.

(** The call goes through. *)
Definition perform (who : Caller.t) (ch : Choice.t) {R} (c : Sys.t R) (d : Disk.t) :
    io R * Disk.t :=
  match c in Sys.t R return io R * Disk.t with
  | Sys.GetPid => (Ok who.(Caller.pid), d)
  | Sys.Clock => (Ok ch.(Choice.nanos), d)
  | Sys.Lstat p =>
    match Disk.lookup p d with
    | Some (i, x) => (Ok (Inode.metadata d.(Disk.device) i x), d)
    | None => not_found d
    end
  | Sys.Mkdir p mode =>
    if bool_decide (is_Some (d.(Disk.names) !! p)) then (Err ErrorKind.AlreadyExists, d)
    else if negb (parent_is_dir p d) then not_found d
    else (Ok tt, create p (Inode.mk FileType.Directory who.(Caller.euid) who.(Caller.egid)
                             (masked mode who.(Caller.umask)) 2 [] true) d)
  | Sys.OpenNew p mode =>
    if bool_decide (is_Some (d.(Disk.names) !! p)) then (Err ErrorKind.AlreadyExists, d)
    else if negb (parent_is_dir p d) then not_found d
    else (Ok (File.mk d.(Disk.next)),
          create p (Inode.mk FileType.File who.(Caller.euid) who.(Caller.egid)
                      (masked mode who.(Caller.umask)) 1 [] false) d)
  | Sys.OpenRead p directory =>
    match Disk.lookup p d with
    | Some (i, x) =>
      if FileType.is_symlink x.(Inode.file_type)
         || (directory && negb (FileType.is_dir x.(Inode.file_type)))
      then (Err ErrorKind.Other, d)
      else (Ok (File.mk i), d)
    | None => not_found d
    end
  | Sys.Fstat f =>
    match d.(Disk.inodes) !! f.(File.ino) with
    | Some x => (Ok (Inode.metadata d.(Disk.device) f.(File.ino) x), d)
    | None => (Err ErrorKind.Other, d)
    end
  | Sys.WriteAll f bytes => (Ok tt, write_inode f.(File.ino) bytes d)
  | Sys.ReadUpTo f count =>
    match d.(Disk.inodes) !! f.(File.ino) with
    | Some x => if FileType.is_dir x.(Inode.file_type) then (Err ErrorKind.Other, d)
                else (Ok (take (N.to_nat count) x.(Inode.data)), d)
    | None => (Err ErrorKind.Other, d)
    end
  | Sys.SyncAll f => (Ok tt, sync_inode f.(File.ino) d)
  | Sys.Rename source target =>
    match Disk.lookup source d with
    | Some (i, x) =>
      match Disk.lookup target d with
      | Some (j, y) =>
        if bool_decide (i = j) then (Ok tt, d)
        else if negb (bool_decide (FileType.is_dir x.(Inode.file_type)
                                   = FileType.is_dir y.(Inode.file_type)))
        then (Err ErrorKind.Other, d)
        else (Ok tt, Disk.set_names source None (Disk.set_names target (Some i) (drop_link j d)))
      | None =>
        if parent_is_dir target d
        then (Ok tt, Disk.set_names source None (Disk.set_names target (Some i) d))
        else not_found d
      end
    | None => not_found d
    end
  | Sys.Unlink p =>
    match Disk.lookup p d with
    | Some (i, x) =>
      if FileType.is_dir x.(Inode.file_type) then (Err ErrorKind.Other, d)
      else (Ok tt, Disk.set_names p None (drop_link i d))
    | None => not_found d
    end
  | Sys.ReadDir p =>
    match Disk.lookup p d with
    | Some (_, x) =>
      if FileType.is_dir x.(Inode.file_type)
      then (Ok (default (Disk.entries p d)
                  (permutations (Disk.entries p d) !! ch.(Choice.order))), d)
      else (Err ErrorKind.Other, d)
    | None => not_found d
    end
  | Sys.EntryType p =>
    match Disk.lookup p d with
    | Some (_, x) => (Ok x.(Inode.file_type), d)
    | None => not_found d
    end
  | Sys.ReadFile p =>
    match Disk.lookup p d with
    | Some (_, x) =>
      if FileType.is_file x.(Inode.file_type) then (Ok x.(Inode.data), d)
      else (Err ErrorKind.Other, d)
    | None => not_found d
    end
  end.

(** What a failing call leaves behind: part of a write. *)
Definition interrupted (ch : Choice.t) {R} (c : Sys.t R) (d : Disk.t) : Disk.t :=
  match c with
  | Sys.WriteAll f bytes => write_inode f.(File.ino) (take ch.(Choice.written) bytes) d
  | _ => d
  end.

(** The process ID and the clock cannot fail. *)
Definition infallible {R} (c : Sys.t R) : bool :=
  match c with Sys.GetPid | Sys.Clock => true | _ => false end.

Definition exec (who : Caller.t) (ch : Choice.t) {R} (c : Sys.t R) (d : Disk.t) : io R * Disk.t :=
  match Choice.injected ch with
  | Some e => if infallible c then perform who ch c d else (Err e, interrupted ch c d)
  | None => perform who ch c d
  end.

(** ** Programs *)

Inductive Prog (A : Type) : Type :=
| Ret (a : A)
| Call {R : Type} (c : Sys.t R) (k : io R → Prog A).
Arguments Ret {A} _.
Arguments Call {A R} _ _.

Fixpoint prog_bind {A B} (p : Prog A) (f : A → Prog B) : Prog B :=
  match p with
  | Ret a => f a
  | Call c k => Call c (λ r, prog_bind (k r) f)
  end.

(** Programs that may fail, with error type [E]. *)
Definition Act (E A : Type) : Type := Prog (result E A).
#[export] Instance act_ret E : MRet (Act E) := λ A a, Ret (Ok a).
#[export] Instance act_bind E : MBind (Act E) := λ A B f m,
  prog_bind m (λ r, match r with Ok a => f a | Err e => Ret (Err e) end).
#[export] Instance act_fmap E : FMap (Act E) := λ A B f m, m ≫= λ a, mret (f a).

Definition sys {R} (c : Sys.t R) : Act ErrorKind.t R := Call c Ret.
Definition fails {E A} (e : E) : Act E A := Ret (Err e).
Definition of_result {E A} (r : result E A) : Act E A := Ret r.
(** [m.map_err(f)] *)
Definition act_map_err {E F A} (f : E → F) (m : Act E A) : Act F A :=
  prog_bind m (λ r, Ret (map_err f r)).
(** [match m { Ok(..) => .., Err(..) => .. }] and [let _ = m] *)
Definition attempt {E F A} (m : Act E A) : Act F (result E A) :=
  prog_bind m (λ r, Ret (Ok r)).

(** Run under a schedule of choices; when it ends, the calls go through. *)
Fixpoint run (who : Caller.t) {A} (p : Prog A) (schedule : list Choice.t) (d : Disk.t) :
    A * Disk.t * list Choice.t :=
  match p with
  | Ret a => (a, d, schedule)
  | Call c k =>
    let '(r, d') := exec who (default Choice.calm (head schedule)) c d in
    run who (k r) (tail schedule) d'
  end.

(** One call of a program. *)
Inductive step (who : Caller.t) {A} : Prog A * Disk.t → Prog A * Disk.t → Prop :=
| step_call R (c : Sys.t R) k ch d r d' :
    exec who ch c d = (r, d') → step who (Call c k, d) (k r, d').
