(* ===== verification/FsLogic.v ===== *)
(** * A crash logic for programs on the disk

    [wp I p Q d]: started on [d], whatever the kernel decides at each call,
    the disk satisfies [I] before and after every call of [p], and [Q] holds
    of the value and the disk if [p] ends.  [I] is what a crash at any moment
    finds.  The rules follow the structure of programs; [wp_run] and
    [wp_steps] take a proof to the executions. *)
From Stdlib Require Import Strings.Byte.
From stdpp Require Import relations.
From S2P Require Import Prelude Lists FileSystem.
Local Open Scope N_scope.
Unset Default Proof Using.

Fixpoint wp (who : Caller.t) (I : Disk.t → Prop) {A} (p : Prog A) (Q : A → Disk.t → Prop)
    (d : Disk.t) : Prop :=
  I d ∧ match p with
        | Ret a => Q a d
        | Call c k => ∀ ch r d', exec who ch c d = (r, d') → wp who I (k r) Q d'
        end.

Section Rules.
Context (who : Caller.t) (I : Disk.t → Prop).
Implicit Types d : Disk.t.

Lemma wp_ret {A} (a : A) (Q : A → Disk.t → Prop) d : I d → Q a d → wp who I (Ret a) Q d.
Proof. done. Qed.

Lemma wp_inv {A} (p : Prog A) Q d : wp who I p Q d → I d.
Proof. by destruct p; intros [? _]. Qed.

Lemma wp_mono {A} (p : Prog A) (Q Q' : A → Disk.t → Prop) d :
  wp who I p Q d → (∀ a d', I d' → Q a d' → Q' a d') → wp who I p Q' d.
Proof.
  intros Hp HQ. revert d Hp. induction p as [a|R c k IH]; intros d [HI Hp]; split; eauto.
Qed.

Lemma wp_bind {A B} (p : Prog A) (f : A → Prog B) Q d :
  wp who I p (λ a, wp who I (f a) Q) d → wp who I (prog_bind p f) Q d.
Proof.
  revert d. induction p as [a|R c k IH]; intros d [HI Hp]; [done|]. split; [done|].
  intros ch r d' Hr. eauto.
Qed.

Lemma wp_call {A R} (c : Sys.t R) (k : io R → Prog A) Q d :
  I d → (∀ ch r d', exec who ch c d = (r, d') → wp who I (k r) Q d') → wp who I (Call c k) Q d.
Proof. done. Qed.

(** ** Programs that may fail *)

Lemma wp_act_bind {E A B} (m : Act E A) (f : A → Act E B) (Q : result E B → Disk.t → Prop) d :
  wp who I m (λ r d', match r with Ok a => wp who I (f a) Q d' | Err e => Q (Err e) d' end) d →
  wp who I (m ≫= f) Q d.
Proof.
  intros Hm. apply wp_bind. eapply wp_mono; [exact Hm|].
  intros [a|e] d' HI HQ; [done|]. by apply wp_ret.
Qed.

Lemma wp_sys {R} (c : Sys.t R) (Q : io R → Disk.t → Prop) d :
  I d → (∀ ch r d', exec who ch c d = (r, d') → I d' ∧ Q r d') → wp who I (sys c) Q d.
Proof. intros HI Hc. split; [done|]. intros ch r d' Hr. apply (Hc _ _ _ Hr). Qed.

Lemma wp_map_err {E F A} (f : E → F) (m : Act E A) (Q : result F A → Disk.t → Prop) d :
  wp who I m (λ r, Q (map_err f r)) d → wp who I (act_map_err f m) Q d.
Proof. intros Hm. apply wp_bind. eapply wp_mono; [exact Hm|]. intros r d' HI HQ. by apply wp_ret. Qed.

Lemma wp_attempt {E F A} (m : Act E A) (Q : result F (result E A) → Disk.t → Prop) d :
  wp who I m (λ r, Q (Ok r)) d → wp who I (attempt m) Q d.
Proof. intros Hm. apply wp_bind. eapply wp_mono; [exact Hm|]. intros r d' HI HQ. by apply wp_ret. Qed.

(** ** What a proof says of executions *)

Lemma wp_run {A} (p : Prog A) Q d schedule a d' rest :
  wp who I p Q d → run who p schedule d = (a, d', rest) → I d' ∧ Q a d'.
Proof.
  revert d schedule. induction p as [b|R c k IH]; intros d schedule [HI Hp] Hr; cbn in Hr.
  - by injection Hr as <- <- <-.
  - destruct (exec who _ c d) as [r d1] eqn:Hc. eauto.
Qed.

Lemma wp_steps {A} (p p' : Prog A) Q d d' :
  wp who I p Q d → rtc (step who) (p, d) (p', d') → I d' ∧ wp who I p' Q d'.
Proof.
  intros Hp Hs. remember (p, d) as s eqn:Es. remember (p', d') as s' eqn:Es'.
  revert p d Hp Es Es'. induction Hs as [s|s1 s2 s3 H12 _ IH]; intros p d Hp Es Es'.
  - rewrite Es in Es'. injection Es' as <- <-. split; [by eapply wp_inv|done].
  - destruct H12 as [R c k ch d0 r d1 Hr]. injection Es as <- <-. destruct Hp as [HI Hp]. eapply IH; eauto.
Qed.
End Rules.

(** The invariant may be weakened. *)
Lemma wp_weaken who (I J : Disk.t → Prop) {A} (p : Prog A) Q d :
  wp who I p Q d → (∀ d, I d → J d) → wp who J p Q d.
Proof.
  intros Hp HIJ. revert d Hp. induction p as [a|R c k IH]; intros d [HI Hp]; split; eauto.
Qed.

(** * Calls that leave the files alone

    What a program changes on the disk, in three degrees: a calm call may
    create the state directory and make things durable, but binds no other
    name and writes no file; a fresh file and a write to it; a rename and a
    removal.  [wp_calm] runs a calm program under any invariant that calm
    changes preserve. *)
Local Open Scope N_scope.
Unset Default Proof Using.

(** ** A well-formed disk *)

Definition bindings (d : Disk.t) (p : Path) : list (option N) :=
  d.(Disk.names) !! p :: default [] (d.(Disk.past) !! p).

Definition disk_wf (d : Disk.t) : Prop :=
  (∀ i, is_Some (d.(Disk.inodes) !! i) → i < d.(Disk.next))
  ∧ ∀ p i, Some i ∈ bindings d p → is_Some (d.(Disk.inodes) !! i).

(** The inode is still there with the same contents; it may have become
    durable and lost links. *)
Definition inode_kept (d d' : Disk.t) (i : N) : Prop :=
  ∀ x, d.(Disk.inodes) !! i = Some x →
    ∃ x', d'.(Disk.inodes) !! i = Some x' ∧ x'.(Inode.data) = x.(Inode.data)
      ∧ x'.(Inode.file_type) = x.(Inode.file_type)
      ∧ (x.(Inode.synced) = true → x'.(Inode.synced) = true).

(** The name is bound as before and no more can come back to it. *)
Definition name_kept (d d' : Disk.t) (p : Path) : Prop :=
  d'.(Disk.names) !! p = d.(Disk.names) !! p
  ∧ ∀ b, b ∈ default [] (d'.(Disk.past) !! p) → b ∈ default [] (d.(Disk.past) !! p).

(** Everything but the names in [T] and the inodes in [W] is kept. *)
Definition Changes (T : Path → Prop) (W : N → Prop) (d d' : Disk.t) : Prop :=
  d.(Disk.next) ≤ d'.(Disk.next)
  ∧ (disk_wf d → disk_wf d')
  ∧ (∀ i, ¬ W i → inode_kept d d' i)
  ∧ ∀ p, ¬ T p → name_kept d d' p.

Lemma inode_kept_refl d i : inode_kept d d i.
Proof. intros x Hx. eauto. Qed.

Lemma inode_kept_trans d1 d2 d3 i : inode_kept d1 d2 i → inode_kept d2 d3 i → inode_kept d1 d3 i.
Proof.
  intros H12 H23 x Hx. destruct (H12 x Hx) as (x2 & Hx2 & ? & ? & ?).
  destruct (H23 x2 Hx2) as (x3 & Hx3 & ? & ? & ?). exists x3. split_and!; try congruence. auto.
Qed.

Lemma name_kept_refl d p : name_kept d d p.
Proof. split; auto. Qed.

Lemma name_kept_trans d1 d2 d3 p : name_kept d1 d2 p → name_kept d2 d3 p → name_kept d1 d3 p.
Proof. intros [H1 H2] [H3 H4]. split; [congruence|auto]. Qed.

#[export] Instance Changes_preorder T W : PreOrder (Changes T W).
Proof.
  split.
  - intros d. split_and!; [done|done|intros; apply inode_kept_refl|intros; apply name_kept_refl].
  - intros d1 d2 d3 (Hn & Hw & Hi & Hp) (Hn' & Hw' & Hi' & Hp'). split_and!; [lia|auto|..].
    + intros i HW. eapply inode_kept_trans; eauto.
    + intros p HT. eapply name_kept_trans; eauto.
Qed.

Lemma Changes_weaken (T T' : Path → Prop) (W W' : N → Prop) d d' :
  Changes T W d d' → (∀ p, T p → T' p) → (∀ i, W i → W' i) → Changes T' W' d d'.
Proof. intros (? & ? & ? & ?) HT HW. split_and!; eauto. Qed.

(** ** Effects of the primitives *)

Lemma bindings_set_names d p i q :
  bindings (Disk.set_names p i d) q
  = if decide (q = p) then i :: bindings d p else bindings d q.
Proof.
  unfold bindings, Disk.set_names. cbn. case_decide as Hq.
  - subst q. rewrite lookup_insert_eq. cbn. f_equal.
    destruct i; [by rewrite lookup_insert_eq|by rewrite lookup_delete_eq].
  - rewrite lookup_insert_ne by done. f_equal.
    destruct i; [by rewrite lookup_insert_ne|by rewrite lookup_delete_ne].
Qed.

Lemma Changes_set_names T W d p i :
  T p → (∀ j, i = Some j → is_Some (d.(Disk.inodes) !! j)) → Changes T W d (Disk.set_names p i d).
Proof.
  intros HT Hi. split; [done|]. split; [|split].
  - intros [Hn Hb]. split; [done|]. intros q j. rewrite bindings_set_names.
    case_decide as Hq; [|apply Hb]. rewrite elem_of_cons. intros [Hj|Hj]; [by apply Hi|by eapply Hb].
  - intros j _ x Hx. cbn. eauto.
  - intros q Hq. assert (q ≠ p) by (by intros ->).
    pose proof (bindings_set_names d p i q) as Hb. rewrite decide_False in Hb by done.
    unfold bindings in Hb. injection Hb as H1 H2. split; [exact H1|].
    intros b Hin. rewrite <-H2. exact Hin.
Qed.

Lemma Changes_set_inode T (W : N → Prop) d i x x' :
  d.(Disk.inodes) !! i = Some x →
  W i ∨ x'.(Inode.data) = x.(Inode.data) ∧ x'.(Inode.file_type) = x.(Inode.file_type)
        ∧ (x.(Inode.synced) = true → x'.(Inode.synced) = true) →
  Changes T W d (Disk.set_inode i x' d).
Proof.
  intros Hx HW. split; [done|]. split; [|split; [|by intros q _; split]].
  - intros [Hn Hb]. split; cbn.
    + intros j. rewrite lookup_insert_is_Some. intros [<-|[_ ?]]; auto.
    + intros p j Hj. rewrite lookup_insert_is_Some'. right. by eapply Hb.
  - intros j Hj y Hy. cbn. destruct (decide (j = i)) as [->|Hne].
    + rewrite lookup_insert_eq. destruct HW as [?|(? & ? & ?)]; [done|].
      assert (y = x) as -> by congruence. eauto.
    + rewrite lookup_insert_ne by done. eauto.
Qed.

Lemma Changes_alloc T W d x : disk_wf d → Changes T W d (Disk.alloc x d).
Proof.
  intros [Hn Hb]. split; [cbn; lia|]. split; [|split; [|by intros q _; split]].
  - intros _. split; cbn.
    + intros j. rewrite lookup_insert_is_Some. intros [<-|[_ Hj]]; [lia|].
      apply Hn in Hj. lia.
    + intros p j Hj. rewrite lookup_insert_is_Some'. right. by eapply Hb.
  - intros j _ y Hy. cbn. rewrite lookup_insert_ne; [eauto|].
    intros <-. assert (d.(Disk.next) < d.(Disk.next)) by (apply Hn; eauto). lia.
Qed.

Lemma Changes_sync_entries T W d i : Changes T W d (Disk.sync_entries i d).
Proof.
  assert (∀ p b, b ∈ default [] ((Disk.sync_entries i d).(Disk.past) !! p) →
    b ∈ default [] (d.(Disk.past) !! p)) as Hpast.
  { intros p b. cbn. rewrite map_lookup_filter. destruct (d.(Disk.past) !! p) as [l|]; cbn; [|done].
    case_guard; cbn; [done|]. by intros ?%elem_of_nil. }
  split; [done|]. split; [|split; [intros j _ x Hx; cbn; eauto|intros p _; split; [done|apply Hpast]]].
  intros [Hn Hb]. split; [done|]. intros p j. unfold bindings. rewrite elem_of_cons.
  intros [Hj|Hj]; eapply (Hb p); unfold bindings; rewrite elem_of_cons; [by left|right; by apply Hpast].
Qed.

Lemma Changes_sync_inode T W d i : Changes T W d (sync_inode i d).
Proof.
  unfold sync_inode. destruct (d.(Disk.inodes) !! i) as [x|] eqn:Hx; [|reflexivity].
  assert (Changes T W d (Disk.set_inode i (Inode.set_synced x) d)) as Hs
    by (eapply Changes_set_inode; [done|right; done]).
  destruct (FileType.is_dir _); [|done]. etrans; [exact Hs|apply Changes_sync_entries].
Qed.

Lemma Changes_drop_link T W d i : Changes T W d (drop_link i d).
Proof.
  unfold drop_link. destruct (d.(Disk.inodes) !! i) as [x|] eqn:Hx; [|reflexivity].
  eapply Changes_set_inode; [done|right; done].
Qed.

Lemma Changes_write_inode T (W : N → Prop) d i bytes : W i → Changes T W d (write_inode i bytes d).
Proof.
  intros HW. unfold write_inode. destruct (d.(Disk.inodes) !! i) as [x|] eqn:Hx; [|reflexivity].
  eapply Changes_set_inode; [done|by left].
Qed.

Lemma Changes_create (T : Path → Prop) W d p x : disk_wf d → T p → Changes T W d (create p x d).
Proof.
  intros Hwf HT. unfold create. etrans; [by apply (Changes_alloc T W d x)|].
  apply Changes_set_names; [done|]. intros j [= <-]. cbn. rewrite lookup_insert_eq. eauto.
Qed.

Lemma drop_link_alive d j i : is_Some (d.(Disk.inodes) !! i) → is_Some ((drop_link j d).(Disk.inodes) !! i).
Proof.
  intros Hi. unfold drop_link. destruct (d.(Disk.inodes) !! j) eqn:E; [|done]. cbn.
  rewrite lookup_insert_is_Some'. by right.
Qed.

Lemma Changes_rename_new (T : Path → Prop) W d a b i :
  T a → T b → is_Some (d.(Disk.inodes) !! i) →
  Changes T W d (Disk.set_names a None (Disk.set_names b (Some i) d)).
Proof.
  intros Ha Hb Hi. etrans; [apply (Changes_set_names T W _ b (Some i) Hb)|by apply Changes_set_names].
  by intros j [= <-].
Qed.

Lemma Changes_rename (T : Path → Prop) W d a b i j :
  T a → T b → is_Some (d.(Disk.inodes) !! i) →
  Changes T W d (Disk.set_names a None (Disk.set_names b (Some i) (drop_link j d))).
Proof.
  intros Ha Hb Hi. etrans; [apply (Changes_drop_link T W d j)|].
  apply Changes_rename_new; [done..|]. by apply drop_link_alive.
Qed.

Lemma lookup_Some p d i x :
  Disk.lookup p d = Some (i, x) ↔ d.(Disk.names) !! p = Some i ∧ d.(Disk.inodes) !! i = Some x.
Proof.
  unfold Disk.lookup. destruct (_ !! p) as [j|]; cbn; [|naive_solver].
  destruct (d.(Disk.inodes) !! j) eqn:E; cbn; naive_solver.
Qed.

(** ** What one call changes *)

(** The names a call may bind and the inode it may write. *)
Definition touches (T : Path → Prop) (W : N → Prop) {R} (c : Sys.t R) : Prop :=
  match c with
  | Sys.Mkdir p _ | Sys.OpenNew p _ | Sys.Unlink p => T p
  | Sys.Rename a b => T a ∧ T b
  | Sys.WriteAll f _ => W f.(File.ino)
  | _ => True
  end.

Lemma exec_changes T W who ch {R} (c : Sys.t R) d r d' :
  disk_wf d → touches T W c → exec who ch c d = (r, d') → Changes T W d d'.
Proof.
  intros Hwf Ht Hr. unfold exec in Hr.
  assert (Hint : Changes T W d (interrupted ch c d)).
  { destruct c; try reflexivity. by apply Changes_write_inode. }
  assert (Hperf : ∀ r d', perform who ch c d = (r, d') → Changes T W d d').
  { clear r d' Hr Hint. intros r d' Hr.
    destruct c; cbn in Hr, Ht; unfold not_found in Hr;
      repeat case_match; simplify_eq; try reflexivity;
      try (by apply Changes_create); try (by apply Changes_write_inode);
      try apply Changes_sync_inode.
    all: repeat match goal with H : Disk.lookup _ _ = Some _ |- _ => apply lookup_Some in H as [? ?] end.
    - destruct Ht. by apply Changes_rename.
    - destruct Ht. by apply Changes_rename_new.
    - etrans; [apply (Changes_drop_link T W)|]. by apply Changes_set_names. }
  destruct (Choice.injected ch); [|by eapply Hperf].
  destruct (infallible c); [by eapply Hperf|]. by injection Hr as _ <-.
Qed.

(** ** Calm programs *)

(** The calls that bind no name but the directory's and write no file. *)
Definition calm_call (root : Path) {R} (c : Sys.t R) : Prop :=
  match c with
  | Sys.Mkdir p _ => p = root
  | Sys.OpenNew _ _ | Sys.Unlink _ | Sys.Rename _ _ | Sys.WriteAll _ _ => False
  | _ => True
  end.

Fixpoint calm (root : Path) {A} (p : Prog A) : Prop :=
  match p with
  | Ret _ => True
  | Call c k => calm_call root c ∧ ∀ r, calm root (k r)
  end.

Definition Calm (root : Path) : Disk.t → Disk.t → Prop := Changes (λ p, p = root) (λ _, False).

Lemma calm_touches root {R} (c : Sys.t R) :
  calm_call root c → touches (λ p, p = root) (λ _, False) c.
Proof. by destruct c. Qed.

(** A calm program under an invariant that calm changes keep. *)
Lemma wp_calm who root (I : Disk.t → Prop) {A} (p : Prog A) (Q : A → Disk.t → Prop) d :
  calm root p → disk_wf d →
  (∀ d', disk_wf d' → Calm root d d' → I d' ∧ ∀ a, Q a d') →
  wp who I p Q d.
Proof.
  intros Hc. revert d. induction p as [a|R c k IH]; intros d Hwf HQ; split.
  - by apply HQ.
  - by apply HQ.
  - by apply HQ.
  - intros ch r d' Hr. destruct Hc as [Hc Hk].
    assert (Calm root d d') as Hd by (eapply exec_changes; [done|by apply calm_touches|done]).
    assert (disk_wf d') as Hwf' by (by apply Hd).
    apply IH; [done|done|]. intros d'' Hwf'' Hd'. apply HQ; [done|]. by etrans.
Qed.

Lemma calm_bind root {A B} (p : Prog A) (f : A → Prog B) :
  calm root p → (∀ a, calm root (f a)) → calm root (prog_bind p f).
Proof. intros Hp Hf. induction p as [a|R c k IH]; cbn; [done|]. destruct Hp as [? ?]. auto. Qed.

Lemma calm_act_bind root {E A B} (m : Act E A) (f : A → Act E B) :
  calm root m → (∀ a, calm root (f a)) → calm root (m ≫= f).
Proof. intros Hm Hf. apply calm_bind; [done|]. intros [a|e]; [apply Hf|done]. Qed.

Lemma calm_sys root {R} (c : Sys.t R) : calm_call root c → calm root (sys c).
Proof. done. Qed.

Lemma calm_map_err root {E F A} (f : E → F) (m : Act E A) : calm root m → calm root (act_map_err f m).
Proof. intros Hm. by apply calm_bind. Qed.

Lemma calm_attempt root {E F A} (m : Act E A) : calm root m → calm root (attempt (F := F) m).
Proof. intros Hm. by apply calm_bind. Qed.

Create HintDb calm.
Ltac calm_step :=
  match goal with
  | |- calm _ (mbind _ _) => apply calm_act_bind; [|intros ?]
  | |- calm _ (sys _) => apply calm_sys; done
  | |- calm _ (act_map_err _ _) => apply calm_map_err
  | |- calm _ (attempt _) => apply calm_attempt
  | |- calm _ (mret _) => exact I
  | |- calm _ (fails _) => exact I
  | |- calm _ (of_result _) => exact I
  | |- calm _ (match ?x with _ => _ end) => destruct x
  | |- calm _ _ => solve [eauto with calm]
  end.
Ltac calm := repeat calm_step.
