(* ===== verification/StateStore.v ===== *)
(** * The durable state store ([sysboost-platform/src/state.rs])

    [FileStateStore] as programs over the system calls of [FileSystem]: the
    owner and mode checks, the atomic replacement of a session file, loading
    and the scan for unfinished sessions.  [HostStore] runs them as the store
    port of the transaction engine. *)
From Stdlib Require Import Strings.Byte Strings.Ascii.
From stdpp Require Import sorting pretty.
From S2P Require Import Prelude Lists Text Str Ids Mut Session Record Codec StateFile.
From S2P Require Import Ports Engine FileSystem.
Local Open Scope N_scope.

Module RuntimeStatePolicy.
Record t := mk { owner_uid : u32; owner_gid : u32; directory_mode : u32; file_mode : u32 }.
#[global] Instance t_eq_dec : EqDecision t. Proof. solve_decision. Defined.
(** [0o700] and [0o600] *)
Definition root_owned : t := mk 0 0 448 384.
End RuntimeStatePolicy.

(** The number after the label of a line of [/proc/self/status]. *)
Definition status_field (label status : string) : option u32 :=
  word ← head (omap (λ line, rest ← strip_prefix label line; head (split_whitespace rest))
                 (lines status));
  parse_uint 32 word.

Definition SELF_STATUS : Path := ["status"; "self"; "proc"]%string.

Definition current_process_credentials : Act ErrorKind.t (option (u32 * u32)) :=
  status ← attempt (sys (Sys.ReadFile SELF_STATUS));
  mret (bytes ← match status with Ok bytes => Some bytes | Err _ => None end;
        text ← from_utf8 bytes;
        uid ← status_field "Uid:" text;
        gid ← status_field "Gid:" text;
        Some (uid, gid)).

(** The policy of explicitly supplied roots. *)
Definition current_process_policy : Act ErrorKind.t RuntimeStatePolicy.t :=
  credentials ← current_process_credentials;
  let '(uid, gid) := default (0, 0) credentials in
  mret (RuntimeStatePolicy.mk uid gid 448 384).

Definition io_error (code : ErrorCode.t) (kind : ErrorKind.t) : SysboostError.t :=
  SysboostError.new code
    match kind with
    | ErrorKind.PermissionDenied => "state I/O permission was denied"
    | ErrorKind.NotFound => "state I/O target was not found"
    | ErrorKind.AlreadyExists => "state I/O target already exists"
    | _ => "state I/O operation failed"
    end.

(** [op.map_err(|error| io_error(ErrorCode::DurabilityError, error))?] *)
Definition durable {A} (m : Act ErrorKind.t A) : Act SysboostError.t A :=
  act_map_err (io_error ErrorCode.DurabilityError) m.

(** [check.map_err(|_| io::Error::from(io::ErrorKind::PermissionDenied))] *)
Definition denied {A} (m : Act SysboostError.t A) : Act ErrorKind.t A :=
  act_map_err (λ _, ErrorKind.PermissionDenied) m.

Definition corrupt_state (message : string) : SysboostError.t :=
  SysboostError.new ErrorCode.JournalCorrupt message.

Module FileIdentity.
Record t := mk { device : u64; inode : u64 }.
#[global] Instance t_eq_dec : EqDecision t. Proof. solve_decision. Defined.
Definition from_metadata (m : Metadata.t) : t := mk m.(Metadata.dev) m.(Metadata.ino).
End FileIdentity.

(** ** Checks of owner, mode and type *)

Definition owner_ok (m : Metadata.t) (policy : RuntimeStatePolicy.t) : bool :=
  (m.(Metadata.uid) =? policy.(RuntimeStatePolicy.owner_uid))
  && (m.(Metadata.gid) =? policy.(RuntimeStatePolicy.owner_gid)).

Definition validate_directory_metadata (m : Metadata.t) (policy : RuntimeStatePolicy.t)
    (description : string) : Result unit :=
  if FileType.is_symlink m.(Metadata.file_type) || negb (FileType.is_dir m.(Metadata.file_type))
  then Err (corrupt_state (description +:+ " is not a regular directory"))
  else if negb (owner_ok m policy)
  then Err (SysboostError.new ErrorCode.AuthorizationError
              (description +:+ " owner is not authorized"))
  else if negb (N.land m.(Metadata.mode) 4095 =? policy.(RuntimeStatePolicy.directory_mode))
  then Err (corrupt_state (description +:+ " permissions are not private"))
  else Ok tt.

Definition validate_regular_metadata (m : Metadata.t) (policy : RuntimeStatePolicy.t)
    (description : string) : Result unit :=
  if negb (owner_ok m policy)
  then Err (SysboostError.new ErrorCode.AuthorizationError
              (description +:+ " owner is not authorized"))
  else if negb (N.land m.(Metadata.mode) 4095 =? policy.(RuntimeStatePolicy.file_mode))
  then Err (corrupt_state (description +:+ " permissions are not private"))
  else if negb (m.(Metadata.nlink) =? 1)
  then Err (corrupt_state (description +:+ " has unexpected hard links"))
  else Ok tt.

Definition validate_regular_path (path : Path) (policy : RuntimeStatePolicy.t)
    (description : string) : Act SysboostError.t FileIdentity.t :=
  m ← durable (sys (Sys.Lstat path));
  if FileType.is_symlink m.(Metadata.file_type) || negb (FileType.is_file m.(Metadata.file_type))
  then fails (corrupt_state (description +:+ " is not a regular file"))
  else
    _ ← of_result (validate_regular_metadata m policy description);
    mret (FileIdentity.from_metadata m).

Definition validate_open_file (file : File.t) (policy : RuntimeStatePolicy.t)
    (description : string) : Act SysboostError.t FileIdentity.t :=
  m ← durable (sys (Sys.Fstat file));
  if negb (FileType.is_file m.(Metadata.file_type))
  then fails (corrupt_state (description +:+ " is not a regular file"))
  else
    _ ← of_result (validate_regular_metadata m policy description);
    mret (FileIdentity.from_metadata m).

Definition validate_entry_metadata (path : Path) (file_type : FileType.t)
    (policy : RuntimeStatePolicy.t) (description : string) : Act SysboostError.t unit :=
  if FileType.is_symlink file_type || negb (FileType.is_file file_type)
  then fails (corrupt_state (description +:+ " is not a regular file"))
  else _ ← validate_regular_path path policy description; mret tt.

(** The root directory, created privately when it does not exist. *)
Definition ensure_runtime_root (path : Path) (policy : RuntimeStatePolicy.t) :
    Act SysboostError.t unit :=
  found ← attempt (sys (Sys.Lstat path));
  match found with
  | Ok m => of_result (validate_directory_metadata m policy "runtime state root")
  | Err ErrorKind.NotFound =>
    up ← of_result (ok_or (parent path)
           (SysboostError.new ErrorCode.DurabilityError
              "runtime state root has no trusted parent"));
    pm ← durable (sys (Sys.Lstat up));
    if negb (FileType.is_dir pm.(Metadata.file_type))
    then fails (corrupt_state "runtime state root parent is not a directory")
    else
      made ← attempt (sys (Sys.Mkdir path policy.(RuntimeStatePolicy.directory_mode)));
      _ ← match made with
          | Ok _ => mret tt
          | Err ErrorKind.AlreadyExists => mret tt
          | Err e => fails (io_error ErrorCode.DurabilityError e)
          end;
      _ ← durable (file ← sys (Sys.OpenRead up false); sys (Sys.SyncAll file));
      m ← durable (sys (Sys.Lstat path));
      of_result (validate_directory_metadata m policy "runtime state root")
  | Err e => fails (io_error ErrorCode.DurabilityError e)
  end.

Definition sync_directory (path : Path) (policy : RuntimeStatePolicy.t) : Act ErrorKind.t unit :=
  file ← sys (Sys.OpenRead path true);
  m ← act_map_err (λ _, ErrorKind.Other) (sys (Sys.Fstat file));
  _ ← denied (of_result (validate_directory_metadata m policy "runtime state root"));
  sys (Sys.SyncAll file).

Definition validate_target_for_write (target : Path) (policy : RuntimeStatePolicy.t)
    (replace : bool) (session_id : SessionId.t) : Act SysboostError.t unit :=
  found ← attempt (sys (Sys.Lstat target));
  match found with
  | Ok _ =>
    if negb replace
    then fails (SysboostError.new ErrorCode.InvariantViolation
                  "session ID is already present in the durable state root"
                |> SysboostError.with_session session_id)
    else act_map_err (SysboostError.with_session session_id)
           (_ ← validate_regular_path target policy "session state replacement target"; mret tt)
  | Err ErrorKind.NotFound =>
    if replace
    then fails (SysboostError.new ErrorCode.DurabilityError
                  "session state replacement target is missing"
                |> SysboostError.with_session session_id)
    else mret tt
  | Err e => fails (io_error ErrorCode.DurabilityError e |> SysboostError.with_session session_id)
  end.

Definition read_verified_file (path : Path) (policy : RuntimeStatePolicy.t) (maximum : usize) :
    Act SysboostError.t (list byte) :=
  file ← durable (sys (Sys.OpenRead path false));
  _ ← validate_open_file file policy "runtime state file";
  bytes ← durable (sys (Sys.ReadUpTo file (saturating_add64 maximum 1)));
  if maximum <? N.of_nat (length bytes)
  then fails (corrupt_state "runtime state file exceeds its decoder bound")
  else mret bytes.

(** Remove the file only while it is the one that was validated. *)
Definition remove_file_if_identity (path : Path) (expected : FileIdentity.t) :
    Act ErrorKind.t bool :=
  found ← attempt (sys (Sys.Lstat path));
  match found with
  | Err ErrorKind.NotFound => mret false
  | Err e => fails e
  | Ok m =>
    if negb (FileType.is_file m.(Metadata.file_type))
       || negb (bool_decide (FileIdentity.from_metadata m = expected))
    then mret false
    else _ ← sys (Sys.Unlink path); mret true
  end.

(** ** File names *)

Definition STATE_SUFFIX : string := ".state".
Definition TEMPORARY_INFIX : string := ".state.tmp.".
Definition LOCK_NAME : string := ".mutating.lock".

Definition state_name (session_id : SessionId.t) : string :=
  SessionId.to_hex session_id +:+ STATE_SUFFIX.

Definition temporary_name (session_id : SessionId.t) (pid : u32) (tick : u128) : string :=
  "." +:+ SessionId.to_hex session_id +:+ TEMPORARY_INFIX +:+ pretty pid +:+ "." +:+ pretty tick.

Definition is_valid_temporary_name (name : string) : bool :=
  match strip_prefix "." name with
  | None => false
  | Some name =>
    match split_once TEMPORARY_INFIX name with
    | None => false
    | Some (session_hex, suffix) =>
      match split_once "." suffix with
      | None => false
      | Some (pid, tick) =>
        is_ok (SessionId.from_str session_hex)
        && match parse_uint 32 pid with Some value => negb (value =? 0) | None => false end
        && is_some (parse_uint 128 tick)
      end
    end
  end.

(** ** Closures that assign a captured variable *)

Definition Closure (S A : Type) : Type := S → Prog (io A * S).
#[export] Instance closure_ret S : MRet (Closure S) := λ A a s, Ret (Ok a, s).
#[export] Instance closure_bind S : MBind (Closure S) := λ A B f m s,
  prog_bind (m s) (λ '(r, s'), match r with Ok a => f a s' | Err e => Ret (Err e, s') end).
Definition inner {S A} (m : Act ErrorKind.t A) : Closure S A :=
  λ s, prog_bind m (λ r, Ret (r, s)).
Definition assign {S} (s : S) : Closure S unit := λ _, Ret (Ok tt, s).

(** ** The store *)

Module FileStateStore.
Record t := mk { root : Path; policy : RuntimeStatePolicy.t }.
Definition with_policy := mk.
(** [/run/sysboost] *)
Definition production : t := mk ["sysboost"; "run"]%string RuntimeStatePolicy.root_owned.

Definition ensure_root (s : t) : Act SysboostError.t unit :=
  ensure_runtime_root s.(root) s.(policy).

Definition state_path (s : t) (session_id : SessionId.t) : Path :=
  join s.(root) (state_name session_id).

Definition load_path (s : t) (path : Path) (expected : option SessionId.t) :
    Act SysboostError.t SessionRecord.t :=
  bytes ← read_verified_file path s.(policy) MAX_SESSION_RECORD_BYTES;
  record ← of_result (decode bytes);
  match expected with
  | Some id =>
    if negb (bool_decide (SessionRecord.session_id record = id))
    then fails (corrupt_state "session state identity does not match its requested ID")
    else mret record
  | None => mret record
  end.

Definition temporary_path (s : t) (session_id : SessionId.t) : Act SysboostError.t Path :=
  pid ← durable (sys Sys.GetPid);
  tick ← durable (sys Sys.Clock);
  mret (join s.(root) (temporary_name session_id pid (default 0 tick))).

(** The closure of [write_atomic]; its captured variable says whether a
    temporary file of ours exists. *)
Definition write_body (s : t) (session_id : SessionId.t) (replace : bool)
    (target temporary : Path) (bytes : list byte) : Closure bool unit :=
  file ← inner (sys (Sys.OpenNew temporary s.(policy).(RuntimeStatePolicy.file_mode)));
  _ ← assign true;
  _ ← inner (denied (validate_open_file file s.(policy) "temporary state file"));
  _ ← inner (sys (Sys.WriteAll file bytes));
  _ ← inner (sys (Sys.SyncAll file));
  _ ← inner (denied (ensure_root s));
  _ ← inner (denied (validate_target_for_write target s.(policy) replace session_id));
  _ ← inner (sys (Sys.Rename temporary target));
  _ ← assign false;
  _ ← inner (denied (validate_regular_path target s.(policy) "session state file"));
  inner (sync_directory s.(root) s.(policy)).

Definition write_atomic (s : t) (record : SessionRecord.t) (replace : bool) :
    Act SysboostError.t unit :=
  _ ← ensure_root s;
  let session_id := SessionRecord.session_id record in
  let target := state_path s session_id in
  _ ← validate_target_for_write target s.(policy) replace session_id;
  bytes ← of_result (encode record);
  temporary ← temporary_path s session_id;
  prog_bind (write_body s session_id replace target temporary bytes false)
    (λ '(write_result, temporary_created),
      match write_result with
      | Ok _ => Ret (Ok tt)
      | Err e =>
        let error := io_error ErrorCode.DurabilityError e |> SysboostError.with_session session_id in
        if (temporary_created : bool)
        then Call (Sys.Unlink temporary) (λ _, Ret (Err error))
        else Ret (Err error)
      end).

Definition create (s : t) (record : SessionRecord.t) := write_atomic s record false.
Definition replace (s : t) (record : SessionRecord.t) := write_atomic s record true.

Definition load (s : t) (session_id : SessionId.t) : Act SysboostError.t SessionRecord.t :=
  _ ← ensure_root s; load_path s (state_path s session_id) (Some session_id).

(** One directory entry of [load_unfinished]: the unfinished record it holds,
    if any. *)
Definition load_entry (s : t) (name : string) : Act SysboostError.t (option SessionRecord.t) :=
  let path := join s.(root) name in
  file_type ← durable (sys (Sys.EntryType path));
  if negb (bool_decide (utf8 name))
  then fails (corrupt_state "runtime state contains a non-text object name")
  else if bool_decide (name = LOCK_NAME)
  then _ ← validate_entry_metadata path file_type s.(policy) "lock file"; mret None
  else if starts_with "." name && contains TEMPORARY_INFIX name
  then
    if negb (is_valid_temporary_name name)
    then fails (corrupt_state "temporary runtime state filename is malformed")
    else _ ← validate_entry_metadata path file_type s.(policy) "temporary state file"; mret None
  else if negb (ends_with STATE_SUFFIX name)
  then fails (corrupt_state "runtime state contains an unexpected filesystem object")
  else if negb (FileType.is_file file_type)
  then fails (corrupt_state "session state entry is not a regular file")
  else
    session_id ← of_result (map_err (λ _, corrupt_state "session state filename is not a valid session ID")
                   (SessionId.from_str (trim_end_matches STATE_SUFFIX name)));
    record ← load_path s path (Some session_id);
    mret (if bool_decide (session_state record = SessionState.Restored) then None else Some record).

Fixpoint load_entries (s : t) (names : list string) : Act SysboostError.t (list SessionRecord.t) :=
  match names with
  | [] => mret []
  | name :: rest =>
    record ← load_entry s name;
    records ← load_entries s rest;
    mret (match record with Some r => r :: records | None => records end)
  end.

Definition load_unfinished (s : t) : Act SysboostError.t (list SessionRecord.t) :=
  _ ← ensure_root s;
  names ← durable (sys (Sys.ReadDir s.(root)));
  records ← load_entries s names;
  mret (merge_sort session_le records).

Definition remove (s : t) (session_id : SessionId.t) : Act SysboostError.t unit :=
  _ ← ensure_root s;
  let path := state_path s session_id in
  found ← attempt (sys (Sys.Lstat path));
  _ ← match found with
      | Ok _ => _ ← validate_regular_path path s.(policy) "session state file"; mret tt
      | Err _ => mret tt
      end;
  removed ← attempt (sys (Sys.Unlink path));
  match removed with
  | Ok _ => durable (sync_directory s.(root) s.(policy))
  | Err ErrorKind.NotFound => mret tt
  | Err e => fails (io_error ErrorCode.DurabilityError e |> SysboostError.with_session session_id)
  end.
End FileStateStore.

(** ** The store as a port *)

(** A store on a disk, with the calling process and the kernel's choices. *)
Module HostStore.
Record t := mk {
  store : FileStateStore.t;
  who : Caller.t;
  disk : Disk.t;
  schedule : list Choice.t
}.

Definition on_disk {A} (m : FileStateStore.t → Act SysboostError.t A) : Mut t A := λ h,
  let '(r, d, rest) := run h.(who) (m h.(store)) h.(schedule) h.(disk) in
  (r, mk h.(store) h.(who) d rest).
End HostStore.

#[export] Instance host_store : SessionStateStore.t HostStore.t := {|
  SessionStateStore.create r := HostStore.on_disk (λ s, FileStateStore.create s r);
  SessionStateStore.replace r := HostStore.on_disk (λ s, FileStateStore.replace s r);
  SessionStateStore.load id := HostStore.on_disk (λ s, FileStateStore.load s id);
  SessionStateStore.load_unfinished := HostStore.on_disk FileStateStore.load_unfinished;
  SessionStateStore.remove id := HostStore.on_disk (λ s, FileStateStore.remove s id)
|}.
