(* ===== verification/Lock.v ===== *)
(** * Process probes and the process lock (process.rs, state.rs)

    First the probes of [sysboost-platform/src/process.rs], then the lock.

    Reading the identity of a process from [/proc] and of the boot from
    [/proc/sys/kernel/random/boot_id]; the files are files of the disk. *)
From Stdlib Require Import Strings.Byte Strings.Ascii.
From stdpp Require Import pretty.
From S2P Require Import Prelude Lists Text Str Ids Process FileSystem StateStore.
Local Open Scope N_scope.

(** [fs::read_to_string] *)
Definition read_to_string (p : Path) : Act ErrorKind.t string :=
  bytes ← sys (Sys.ReadFile p);
  of_result (ok_or (from_utf8 bytes) ErrorKind.Other).

Definition BOOT_ID : Path := ["boot_id"; "random"; "kernel"; "sys"; "proc"]%string.
Definition stat_path (pid : u32) : Path := ["stat"; pretty pid; "proc"]%string.

Definition parse_start_time (stat : string) : option u64 :=
  rest ← after_last ")" stat;
  word ← split_whitespace rest !! 19%nat;
  value ← parse_uint 64 word;
  if value =? 0 then None else Some value.

(** The loop over the 16 bytes of a hexadecimal array. *)
Definition decode_hex_16 (value : string) : option (array 16) :=
  if negb (str_len value =? 32) then None
  else bytes ← decode_hex_pairs (bytes_of_string value); Some (array_copy 16 bytes).

(** The text of the boot identity: white space trimmed, dashes removed. *)
Definition parse_boot_id (text : string) : Result (array 16) :=
  let value := remove_char "-" (trim text) in
  if negb (str_len value =? 32)
  then Err (SysboostError.new ErrorCode.JournalCorrupt "boot identity metadata has an invalid length")
  else
    output ← ok_or (decode_hex_16 value)
               (SysboostError.new ErrorCode.JournalCorrupt "boot identity metadata is not hexadecimal");
    if bool_decide (output = ProcessIdentity.zero_boot)
    then Err (SysboostError.new ErrorCode.JournalCorrupt "boot identity metadata is zero")
    else Ok output.

Definition read_boot_id : Act SysboostError.t (array 16) :=
  text ← act_map_err (λ _, SysboostError.new ErrorCode.DurabilityError
                             "boot identity could not be inspected")
           (read_to_string BOOT_ID);
  of_result (parse_boot_id text).

Definition probe_process (pid : u32) : Act SysboostError.t (option ProcessIdentity.t) :=
  found ← attempt (read_to_string (stat_path pid));
  match found with
  | Err ErrorKind.NotFound => mret None
  | Err _ => fails (SysboostError.new ErrorCode.DurabilityError
                      "process identity could not be inspected")
  | Ok stat =>
    generation ← of_result (ok_or (parse_start_time stat)
                   (SysboostError.new ErrorCode.JournalCorrupt
                      "process identity metadata is malformed"));
    boot_id ← read_boot_id;
    identity ← of_result (ProcessIdentity.with_boot_id pid generation boot_id);
    mret (Some identity)
  end.

(** [CurrentProcess::current] *)
Definition current_process_identity : Act SysboostError.t ProcessIdentity.t :=
  pid ← act_map_err (λ _, SysboostError.new ErrorCode.DurabilityError "") (sys Sys.GetPid);
  found ← probe_process pid;
  match found with
  | Some identity => mret identity
  | None => fails (SysboostError.new ErrorCode.DurabilityError
                     "current process identity disappeared")
  end.

(** * The process lock ([sysboost-platform/src/state.rs])

    [FileSessionLock]: a file created exclusively under the state root that
    names its owner, reclaimed when the owner is gone; its guard; and the
    entropy-backed source of session IDs. *)
Local Open Scope N_scope.

(** ** The owner in the lock file *)

Definition encode_lock_owner (x : ProcessIdentity.t) : list byte :=
  bytes_of_string
    (unlines ["version=1";
              "pid=" +:+ pretty x.(ProcessIdentity.pid);
              "start=" +:+ pretty x.(ProcessIdentity.generation);
              "boot=" +:+ string_of_bytes (encode_hex x.(ProcessIdentity.boot_id))]%string).

Definition parse_lock_field (line name : string) : Result string :=
  match strip_prefix (name +:+ "=") line with
  | Some value => if bool_decide (value = ""%string)
                  then Err (corrupt_state "lock metadata field is invalid") else Ok value
  | None => Err (corrupt_state "lock metadata field is invalid")
  end.

Definition parse_lock_owner (bytes : list byte) : Result ProcessIdentity.t :=
  value ← ok_or (from_utf8 bytes) (corrupt_state "lock metadata is not valid text");
  match lines value with
  | [version; pid; start; boot] =>
    if negb (bool_decide (version = "version=1"%string))
    then Err (corrupt_state "lock metadata format is unsupported")
    else
      pid ← parse_lock_field pid "pid";
      pid ← ok_or (parse_uint 32 pid) (corrupt_state "lock PID metadata is invalid");
      start ← parse_lock_field start "start";
      generation ← ok_or (parse_uint 64 start) (corrupt_state "lock start metadata is invalid");
      boot ← parse_lock_field boot "boot";
      boot_id ← ok_or (decode_hex_16 boot) (corrupt_state "lock boot metadata is invalid");
      map_err (λ _, corrupt_state "lock metadata contains a weak process identity")
        (ProcessIdentity.with_boot_id pid generation boot_id)
  | _ => Err (corrupt_state "lock metadata format is unsupported")
  end.

(** ** Reclaiming *)

Definition reclaim_stale_lock (path : Path) (policy : RuntimeStatePolicy.t) :
    Act SysboostError.t bool :=
  identity ← validate_regular_path path policy "lock file";
  contents ← read_verified_file path policy 256;
  owner ← of_result (parse_lock_owner contents);
  current ← probe_process owner.(ProcessIdentity.pid);
  let is_stale := match current with
                  | Some current => negb (ProcessIdentity.same_generation current owner)
                  | None => true
                  end in
  if negb is_stale then mret false
  else
    removed ← durable (remove_file_if_identity path identity);
    if negb removed then mret false
    else
      _ ← match parent path with
          | Some up =>
            _ ← attempt (file ← sys (Sys.OpenRead up false); sys (Sys.SyncAll file)); mret tt
          | None => mret tt
          end;
      mret true.

(** ** Acquiring and releasing *)

Module FileSessionLockGuard.
Record t := mk { path : Path; file : File.t; identity : FileIdentity.t }.

(** [drop] *)
Definition drop (g : t) : Prog unit :=
  Call (Sys.Lstat g.(path)) (λ r,
    match r with
    | Ok m => if FileType.is_file m.(Metadata.file_type)
                 && bool_decide (FileIdentity.from_metadata m = g.(identity))
              then Call (Sys.Unlink g.(path)) (λ _, Ret tt) else Ret tt
    | Err _ => Ret tt
    end).
End FileSessionLockGuard.

Module FileSessionLock.
Record t := mk { root : Path; policy : RuntimeStatePolicy.t }.
Definition with_policy := mk.
(** [/run/sysboost] *)
Definition production : t := mk ["sysboost"; "run"]%string RuntimeStatePolicy.root_owned.

Definition ensure_root (l : t) : Act SysboostError.t unit :=
  ensure_runtime_root l.(root) l.(policy).

Definition lock_path (l : t) : Path := join l.(root) LOCK_NAME.

Definition contended : SysboostError.t :=
  SysboostError.new ErrorCode.AuthorizationError "another mutating session owns the exclusive lock"
  |> SysboostError.retryable Retryability.Retry.

(** The closure of one attempt; its captured variable is the identity of the
    lock file it created. *)
Definition attempt_body (l : t) (owner : ProcessIdentity.t) :
    Closure (option FileIdentity.t) (File.t * FileIdentity.t) :=
  file ← inner (sys (Sys.OpenNew (lock_path l) l.(policy).(RuntimeStatePolicy.file_mode)));
  identity ← inner (denied (validate_open_file file l.(policy) "lock file"));
  _ ← assign (Some identity);
  _ ← inner (sys (Sys.WriteAll file (encode_lock_owner owner)));
  _ ← inner (sys (Sys.SyncAll file));
  _ ← inner (sync_directory l.(root) l.(policy));
  mret (file, identity).

Fixpoint acquire_loop (attempts : nat) (l : t) (owner : ProcessIdentity.t) :
    Act SysboostError.t FileSessionLockGuard.t :=
  match attempts with
  | O => fails contended
  | S attempts' =>
    prog_bind (attempt_body l owner None) (λ '(result, created_identity),
      match result with
      | Ok (file, identity) => Ret (Ok (FileSessionLockGuard.mk (lock_path l) file identity))
      | Err ErrorKind.AlreadyExists =>
        reclaimed ← reclaim_stale_lock (lock_path l) l.(policy);
        if (reclaimed : bool) then acquire_loop attempts' l owner else fails contended
      | Err error =>
        _ ← match created_identity with
            | Some identity =>
              _ ← attempt (remove_file_if_identity (lock_path l) identity); mret tt
            | None => mret tt
            end;
        fails (io_error ErrorCode.DurabilityError error)
      end)
  end.

Definition acquire (l : t) : Act SysboostError.t FileSessionLockGuard.t :=
  _ ← ensure_root l;
  owner ← current_process_identity;
  acquire_loop 2 l owner.
End FileSessionLock.

(** ** Session IDs *)

(** [SystemSessionIdSource]: the device is opened once; the draws are what
    [read_exact] yields from it, one after the other. *)
Module SystemSessionIdSource.
Record t := mk { random : bool }.
Definition new : t := mk false.

Fixpoint draw (draws : list (io (array 16))) : option (Result SessionId.t * list (io (array 16))) :=
  match draws with
  | [] => None
  | Err e :: rest => Some (Err (io_error ErrorCode.DurabilityError e), rest)
  | Ok bytes :: rest =>
    if bool_decide (bytes = array_repeat 16 x00) then draw rest
    else Some (Ok (SessionId.from_bytes bytes), rest)
  end.

(** [open] is what opening the device yields, were it opened now. *)
Definition next_id (open : io unit) (draws : list (io (array 16))) (x : t) :
    option (Result SessionId.t * list (io (array 16)) * t) :=
  match x.(random), open with
  | false, Err e => Some (Err (io_error ErrorCode.DurabilityError e), draws, x)
  | _, _ => '(r, rest) ← draw draws; Some (r, rest, mk true)
  end.
End SystemSessionIdSource.
