(* ===== verification/StoreAtomic.v ===== *)
(** * Atomic replacement of a session file

    Whatever fails and whenever the power goes, the file of a session holds
    either what it held before a write or the whole new record; a write that
    reports success has made the new record durable. *)
From Stdlib Require Import Strings.Byte Strings.Ascii.
From stdpp Require Import relations sorting pretty.
From S2P Require Import Prelude Lists Text Str Ids Mut Session Record Codec StateFile.
From S2P Require Import Ports Engine FileSystem FsLogic StateStore.
Local Open Scope N_scope.
Unset Default Proof Using.

(** ** File names *)

Definition is_hex (c : ascii) : bool :=
  bool_decide (byte_of_ascii c ∈ HEX).

Lemma all_chars_bytes (P : ascii → bool) l :
  Forall (λ b, P (ascii_of_byte b) = true) l → all_chars P (string_of_bytes l) = true.
Proof.
  induction 1 as [|b l Hb _ IH]; [done|].
  change (string_of_bytes (b :: l)) with (String (ascii_of_byte b) (string_of_bytes l)).
  cbn [all_chars]. by rewrite Hb, IH.
Qed.

Lemma encode_hex_chars l : all_chars is_hex (string_of_bytes (encode_hex l)) = true.
Proof.
  apply all_chars_bytes. induction l as [|b l IH]; cbn; [done|].
  assert (∀ k, (k < 16)%nat → is_hex (ascii_of_byte (nth k HEX x00)) = true) as Hk.
  { intros k Hk. unfold is_hex. rewrite byte_of_ascii_of_byte. apply bool_decide_eq_true.
    apply list_elem_of_In, nth_In. exact Hk. }
  pose proof (b2n_lt b) as Hb. constructor; [|constructor]; [apply Hk..|exact IH].
  - rewrite N.shiftr_div_pow2. change (2 ^ 4) with 16.
    assert (b2n b `div` 16 < 16) by (apply N.Div0.div_lt_upper_bound; lia). lia.
  - change 15 with (N.ones 4). rewrite N.land_ones. change (2 ^ 4) with 16.
    assert (b2n b `mod` 16 < 16) by (by apply N.mod_lt). lia.
Qed.

Lemma to_hex_chars (x : SessionId.t) : all_chars is_hex (SessionId.to_hex x) = true.
Proof. apply encode_hex_chars. Qed.

Lemma to_hex_cons (x : SessionId.t) : ∃ c s, SessionId.to_hex x = String c s.
Proof.
  destruct x as [v]. unfold SessionId.to_hex. cbn. inv_vec v. intros b v. eexists _, _. reflexivity.
Qed.

Lemma state_name_first id : ∃ c s, state_name id = String c s ∧ c ≠ "."%char.
Proof.
  destruct (to_hex_cons id) as (c & s & Hc). exists c, (s +:+ STATE_SUFFIX).
  unfold state_name. rewrite Hc. split; [done|]. intros ->.
  pose proof (to_hex_chars id) as Hx. by rewrite Hc in Hx.
Qed.

Lemma temporary_name_ne id id' pid tick : temporary_name id' pid tick ≠ state_name id.
Proof.
  destruct (state_name_first id) as (c & s & -> & Hc). unfold temporary_name.
  rewrite str_cons_app. intros [= <- _]. done.
Qed.

(** ** What a path holds *)

Definition live (d : Disk.t) (p : Path) : option (list byte) :=
  '(_, x) ← Disk.lookup p d; Some x.(Inode.data).

(** What the path may hold after a power loss: one of the bindings that were
    not yet durable or the last durable one, and if the contents of its inode
    were never synchronised, anything. *)
Definition may_hold (d : Disk.t) (p : Path) (v : option (list byte)) : Prop :=
  ∃ b, b ∈ bindings d p ∧
    match b with
    | None => v = None
    | Some i => ∃ x l, d.(Disk.inodes) !! i = Some x ∧ v = Some l
                  ∧ (x.(Inode.synced) = true → l = x.(Inode.data))
    end.

Lemma name_kept_holds d d' p v :
  disk_wf d → (∀ i, i < d.(Disk.next) → inode_kept d d' i) →
  (∀ b, b ∈ bindings d' p → b ∈ bindings d p) → may_hold d' p v → may_hold d p v.
Proof.
  intros Hwf Hi Hb (b & Hin & Hv). exists b. split; [by apply Hb|].
  destruct b as [i|]; [|done]. destruct Hv as (x' & l & Hx' & -> & Hs).
  destruct (proj2 Hwf p i (Hb _ Hin)) as [x Hx].
  destruct (Hi i (proj1 Hwf i (mk_is_Some _ _ Hx)) x Hx) as (y & Hy & Hd & _ & Hsync).
  assert (y = x') as -> by congruence. exists x, l. split_and!; [done..|].
  intros Hxs. rewrite Hs, Hd; auto.
Qed.

Lemma name_kept_bindings d d' p b :
  name_kept d d' p → b ∈ bindings d' p → b ∈ bindings d p.
Proof. intros [Hn Hp]. unfold bindings. rewrite Hn, !elem_of_cons. naive_solver. Qed.

(** ** Rules for closures and for calm parts *)

Section Rules.
Context (who : Caller.t) (I : Disk.t → Prop).

Lemma wp_closure_bind {S A B} (m : Closure S A) (f : A → Closure S B) s
    (Q : io B * S → Disk.t → Prop) d :
  wp who I (m s) (λ '(r, s') d', match r with
                                 | Ok a => wp who I (f a s') Q d'
                                 | Err e => Q (Err e, s') d'
                                 end) d →
  wp who I ((m ≫= f) s) Q d.
Proof.
  intros Hm. apply wp_bind. eapply wp_mono; [exact Hm|].
  intros [[a|e] s'] d' HI HQ; [done|]. by apply wp_ret.
Qed.

Lemma wp_inner {S A} (m : Act ErrorKind.t A) (s : S) (Q : io A * S → Disk.t → Prop) d :
  wp who I m (λ r, Q (r, s)) d → wp who I (inner m s) Q d.
Proof. intros Hm. apply wp_bind. eapply wp_mono; [exact Hm|]. intros r d' HI HQ. by apply wp_ret. Qed.

(** A calm part keeps a phase [P] that calm changes keep. *)
Lemma wp_phase root (P : Disk.t → Prop) {A} (m : Prog A) (Q : A → Disk.t → Prop) d :
  calm root m → P d →
  (∀ d, P d → I d ∧ disk_wf d) →
  (∀ d d', P d → disk_wf d' → Calm root d d' → P d') →
  (∀ a d', P d' → Q a d') → wp who I m Q d.
Proof.
  intros Hm HP HI Hstable HQ. destruct (HI d HP) as [_ Hwf].
  eapply wp_calm; [done|done|]. intros d' Hwf' Hd'.
  assert (P d') as HP' by (by eapply Hstable). split; [by apply HI|]. intros a. by apply HQ.
Qed.
End Rules.

(** ** The checks are calm *)

Lemma calm_ensure_root path policy : calm path (ensure_runtime_root path policy).
Proof. unfold ensure_runtime_root, durable. calm. Qed.
Lemma calm_regular_path root path policy desc : calm root (validate_regular_path path policy desc).
Proof. unfold validate_regular_path, durable. calm. Qed.
#[export] Hint Resolve calm_ensure_root calm_regular_path : calm.
Lemma calm_open_file root file policy desc : calm root (validate_open_file file policy desc).
Proof. unfold validate_open_file, durable. calm. Qed.
Lemma calm_target root target policy replace id :
  calm root (validate_target_for_write target policy replace id).
Proof. unfold validate_target_for_write. calm. Qed.
Lemma calm_sync_directory root policy : calm root (sync_directory root policy).
Proof. unfold sync_directory, denied. calm. Qed.
Lemma calm_read_verified root path policy n : calm root (read_verified_file path policy n).
Proof. unfold read_verified_file, durable. calm. apply calm_open_file. Qed.
Lemma calm_temporary_path root s id : calm root (FileStateStore.temporary_path s id).
Proof. unfold FileStateStore.temporary_path, durable. calm. Qed.
#[export] Hint Resolve calm_open_file calm_target calm_sync_directory calm_read_verified
  calm_temporary_path : calm.
Lemma calm_load s id : calm (FileStateStore.root s) (FileStateStore.load s id).
Proof. unfold FileStateStore.load, FileStateStore.ensure_root, FileStateStore.load_path. calm. Qed.

(** ** The last step: the directory is made durable *)

Lemma wp_sync_directory who (I : Disk.t → Prop) root policy (P : Disk.t → Prop)
    (Q : io unit → Disk.t → Prop) d :
  P d → (∀ d, P d → I d ∧ disk_wf d) →
  (∀ d d', P d → disk_wf d' → Calm root d d' → P d') →
  (∀ e d', P d' → Q (Err e) d') →
  (∀ d', P d' → (∀ name, default [] (d'.(Disk.past) !! join root name) = []) → Q (Ok tt) d') →
  wp who I (sync_directory root policy) Q d.
Proof.
  intros HP HI Hstable Herr Hok.
  assert (Hstep : ∀ ch R (c : Sys.t R) r d d', P d → calm_call root c →
    exec who ch c d = (r, d') → P d').
  { intros ch R c r d1 d2 HP1 Hc Hr. destruct (HI d1 HP1) as [_ Hwf].
    assert (Calm root d1 d2) as Hd by (eapply exec_changes; [done|by apply calm_touches|done]).
    eapply Hstable; [done|by apply Hd|done]. }
  unfold sync_directory. apply wp_act_bind, wp_sys; [by apply HI|].
  intros ch r d1 Hr. assert (P d1) as HP1 by (eapply Hstep; [exact HP| |exact Hr]; done). split; [by apply HI|].
  destruct r as [file|e]; [|cbv beta iota; by eapply Herr].
  assert (d1 = d ∧ ∃ x, Disk.lookup root d = Some (File.ino file, x)
            ∧ FileType.is_dir x.(Inode.file_type) = true) as (-> & x & Hlook & Hdir).
  { unfold exec in Hr. destruct (Choice.injected ch); [done|]. cbn in Hr.
    destruct (Disk.lookup root d) as [[i x]|]; [|done].
    destruct (FileType.is_symlink _); [done|]. cbn in Hr.
    destruct (FileType.is_dir _) eqn:E; [|done]. injection Hr as <- <-. eauto. }
  apply wp_act_bind, wp_map_err, wp_sys; [by apply HI|].
  intros ch' r' d1 Hr'. assert (P d1) as HP' by (eapply Hstep; [exact HP| |exact Hr']; done). split; [by apply HI|].
  destruct r' as [m|e]; cbn [map_err]; [|cbv beta iota; by eapply Herr].
  assert (d1 = d) as ->.
  { unfold exec in Hr'. destruct (Choice.injected ch'); [done|]. cbn in Hr'.
    destruct (Disk.inodes d !! _); by injection Hr' as _ <-. }
  apply wp_act_bind, wp_map_err, wp_ret; [by apply HI|].
  destruct (validate_directory_metadata _ _ _) as [[]|e]; cbn [map_err]; [|cbv beta iota; by eapply Herr].
  apply wp_sys; [by apply HI|]. intros ch2 r2 d2 Hr2.
  assert (P d2) as HP2 by (eapply Hstep; [exact HP| |exact Hr2]; done). split; [by apply HI|].
  destruct r2 as [[]|e]; [|cbv beta iota; by eapply Herr]. apply Hok; [done|]. intros name.
  unfold exec in Hr2. destruct (Choice.injected ch2); [done|]. cbn in Hr2. injection Hr2 as <-.
  apply lookup_Some in Hlook as [Hname Hino]. unfold sync_inode. rewrite Hino, Hdir. cbn.
  rewrite map_lookup_filter. destruct (_ !! join root name) as [l|]; cbn; [|done].
  case_guard as Hg; cbn; [|done]. by rewrite Hname in Hg.
Qed.

Section Write.
Context (who : Caller.t) (s : FileStateStore.t) (record : SessionRecord.t) (replace : bool)
  (d0 : Disk.t).
Hypothesis Hwf0 : disk_wf d0.

Let root := s.(FileStateStore.root).
Let id := SessionRecord.session_id record.
Let target := FileStateStore.state_path s id.

(** The names a write may bind and the inodes it may write: the directory,
    the file of the session, temporary names, and files of its own. *)
Definition written_name (p : Path) : Prop :=
  p = root ∨ p = target ∨ ∃ pid tick, p = join root (temporary_name id pid tick).
Definition fresh_inode (i : N) : Prop := d0.(Disk.next) ≤ i.

(** Before the rename: the target is as it was. *)
Definition Before (d : Disk.t) : Prop :=
  disk_wf d ∧ Changes written_name fresh_inode d0 d ∧ name_kept d0 d target.

(** Our temporary file [i] exists, with contents [l]. *)
Definition Pending (temporary : Path) (i : N) (l : list byte) (b : bool) (d : Disk.t) : Prop :=
  Before d ∧ fresh_inode i ∧ d.(Disk.names) !! temporary = Some i
  ∧ ∃ x, d.(Disk.inodes) !! i = Some x ∧ x.(Inode.data) = l ∧ x.(Inode.file_type) = FileType.File
      ∧ (b = true → x.(Inode.synced) = true).

(** After it: the target is the new record, durable contents and all. *)
Definition After (bytes : list byte) (d : Disk.t) : Prop :=
  disk_wf d ∧ Changes written_name fresh_inode d0 d
  ∧ ∃ i x, d.(Disk.names) !! target = Some i ∧ d.(Disk.inodes) !! i = Some x
      ∧ x.(Inode.data) = bytes ∧ x.(Inode.synced) = true
      ∧ ∀ b, b ∈ default [] (d.(Disk.past) !! target) → b ∈ bindings d0 target.

Lemma target_ne_root : target ≠ root.
Proof. unfold target, FileStateStore.state_path, join, root. intros Hr.
  apply (f_equal length) in Hr. cbn in Hr. lia. Qed.

Lemma temporary_ne pid tick : join root (temporary_name id pid tick) ≠ root
  ∧ join root (temporary_name id pid tick) ≠ target.
Proof.
  unfold join. split.
  - intros Hr. apply (f_equal length) in Hr. cbn in Hr. lia.
  - unfold target, FileStateStore.state_path, join. intros [= Hr].
    by apply temporary_name_ne in Hr.
Qed.

Lemma calm_changes d d' : Calm root d d' → Changes written_name fresh_inode d d'.
Proof. intros Hd. eapply Changes_weaken; [exact Hd|by left|done]. Qed.

Lemma Before_calm d d' : Before d → disk_wf d' → Calm root d d' → Before d'.
Proof.
  intros (Hwf & Hc & Hk) Hwf' Hd. split; [done|]. split.
  - etrans; [exact Hc|by apply calm_changes].
  - eapply name_kept_trans; [exact Hk|]. apply Hd. exact target_ne_root.
Qed.

Lemma Pending_calm temporary i l b d d' :
  temporary ≠ root → Pending temporary i l b d → disk_wf d' → Calm root d d' →
  Pending temporary i l b d'.
Proof.
  intros Ht (HB & Hi & Hn & x & Hx & Hd & Hf & Hs) Hwf' Hd'.
  split; [by eapply Before_calm|]. split; [done|].
  destruct Hd' as (_ & _ & Hino & Hnames). split; [by rewrite (proj1 (Hnames temporary Ht))|].
  destruct (Hino i (λ H, H) x Hx) as (x' & Hx' & ? & ? & ?). exists x'.
  split_and!; [done|congruence|congruence|auto].
Qed.

Lemma After_calm bytes d d' : After bytes d → disk_wf d' → Calm root d d' → After bytes d'.
Proof.
  intros (Hwf & Hc & i & x & Hn & Hx & Hd & Hs & Hp) Hwf' Hd'. split; [done|]. split.
  { etrans; [exact Hc|by apply calm_changes]. }
  destruct Hd' as (_ & _ & Hino & Hnames).
  destruct (Hino i (λ H, H) x Hx) as (x' & Hx' & ? & _ & ?).
  destruct (Hnames target target_ne_root) as [Hn' Hp'].
  exists i, x'. split_and!; [congruence|done|congruence|auto|auto].
Qed.

(** What a crash may find, at any moment. *)
Definition Crash (d : Disk.t) : Prop :=
  Before d ∨ ∃ bytes, encode record = Ok bytes ∧ After bytes d.

Lemma Crash_Before d : Before d → Crash d ∧ disk_wf d.
Proof. intros HB. split; [by left|by apply HB]. Qed.
Lemma Crash_Pending t i l b d : Pending t i l b d → Crash d ∧ disk_wf d.
Proof. intros (HB & _). by apply Crash_Before. Qed.
Lemma Crash_After bytes d : encode record = Ok bytes → After bytes d → Crash d ∧ disk_wf d.
Proof. intros He HA. split; [right; eauto|by apply HA]. Qed.

(** ** The effectful steps *)

Section Steps.
Variables (pid : u32) (tick : u128).
Let temporary := join root (temporary_name id pid tick).

Lemma temporary_written : written_name temporary.
Proof. right. right. by exists pid, tick. Qed.

(** A call on the temporary name or on a file of ours. *)
Lemma Before_touch d d' :
  Before d → Changes (λ p, p = temporary) fresh_inode d d' → disk_wf d' → Before d'.
Proof.
  intros (Hwf & Hc & Hk) Hd Hwf'. split; [done|]. split.
  - etrans; [exact Hc|]. eapply Changes_weaken; [exact Hd|intros p ->; apply temporary_written|done].
  - eapply name_kept_trans; [exact Hk|]. apply Hd. intros Ht.
    by destruct (proj2 (temporary_ne pid tick)).
Qed.

Lemma Before_exec ch {R} (c : Sys.t R) r d d' :
  Before d → touches (λ p, p = temporary) fresh_inode c → exec who ch c d = (r, d') → Before d'.
Proof.
  intros HB Ht Hr. assert (Changes (λ p, p = temporary) fresh_inode d d') as Hd
    by (exact (exec_changes _ _ _ _ _ _ _ _ (proj1 HB) Ht Hr)).
  exact (Before_touch d d' HB Hd (proj1 (proj2 Hd) (proj1 HB))).
Qed.

Lemma open_step ch mode r d d' :
  Before d → exec who ch (Sys.OpenNew temporary mode) d = (r, d') →
  Before d' ∧ ∀ f, r = Ok f → Pending temporary f.(File.ino) [] false d'.
Proof.
  intros HB Hr. assert (Before d') as HB' by (eapply (Before_exec ch _ _ d d' HB); [|exact Hr]; done). split; [done|].
  intros f ->. split; [done|]. unfold exec in Hr. destruct (Choice.injected ch); [done|]. cbn in Hr.
  destruct (bool_decide (is_Some _)); [done|]. destruct (negb _); [done|].
  injection Hr as <- <-. split; [by apply HB|]. cbn. split; [by rewrite lookup_insert_eq|].
  eexists. rewrite lookup_insert_eq. done.
Qed.

Lemma write_step ch f bytes r d d' :
  Pending temporary f.(File.ino) [] false d → exec who ch (Sys.WriteAll f bytes) d = (r, d') →
  Before d' ∧ (r = Ok tt → Pending temporary f.(File.ino) bytes false d').
Proof.
  intros (HB & Hi & Hn & x & Hx & Hd & Hf & Hs) Hr.
  assert (Before d') as HB' by (eapply (Before_exec ch _ _ d d' HB); [|exact Hr]; done). split; [done|]. intros ->.
  unfold exec in Hr. destruct (Choice.injected ch); [done|]. cbn in Hr. injection Hr as <-.
  split; [done|]. split; [done|]. unfold write_inode. rewrite Hx. split; [done|].
  cbn. eexists. rewrite lookup_insert_eq. split; [done|]. cbn. by rewrite Hd.
Qed.

Lemma sync_step ch f bytes r d d' :
  Pending temporary f.(File.ino) bytes false d → exec who ch (Sys.SyncAll f) d = (r, d') →
  Before d' ∧ (r = Ok tt → Pending temporary f.(File.ino) bytes true d').
Proof.
  intros (HB & Hi & Hn & x & Hx & Hd & Hf & Hs) Hr.
  assert (Before d') as HB' by (eapply (Before_exec ch _ _ d d' HB); [|exact Hr]; done). split; [done|]. intros ->.
  unfold exec in Hr. destruct (Choice.injected ch); [done|]. cbn in Hr. injection Hr as <-.
  split; [done|]. split; [done|]. unfold sync_inode. rewrite Hx, Hf.
  change (FileType.is_dir FileType.File) with false. cbn. split; [done|].
  eexists. rewrite lookup_insert_eq. done.
Qed.

Lemma rename_step ch i bytes r d d' :
  Pending temporary i bytes true d → exec who ch (Sys.Rename temporary target) d = (r, d') →
  match r with Ok _ => After bytes d' | Err _ => Before d' end.
Proof.
  intros (HB & Hi & Hn & x & Hx & Hd & Hf & Hs) Hr.
  destruct (temporary_ne pid tick) as [Hroot Htarget]. fold temporary in Hroot, Htarget.
  assert (Changes written_name fresh_inode d d') as Hch.
  { eapply (exec_changes _ _ who ch _ d r d' (proj1 HB)); [|exact Hr]. split; [apply temporary_written|right; by left]. }
  destruct HB as (Hwf & Hc & Hk). assert (disk_wf d') as Hwf' by (by apply Hch).
  unfold exec in Hr. destruct (Choice.injected ch); [by injection Hr as <- <-|]. cbn [perform] in Hr.
  assert (Disk.lookup temporary d = Some (i, x)) as Hl by (by apply lookup_Some).
  rewrite Hl in Hr.
  assert (Hafter : ∀ d1, d1.(Disk.names) !! target = d.(Disk.names) !! target →
    d1.(Disk.past) = d.(Disk.past) →
    (∃ x', d1.(Disk.inodes) !! i = Some x' ∧ x'.(Inode.data) = bytes ∧ x'.(Inode.synced) = true) →
    d' = Disk.set_names temporary None (Disk.set_names target (Some i) d1) → After bytes d').
  { intros d1 Hn1 Hp1 (x' & Hx' & Hd' & Hs') ->. split; [done|]. split; [by etrans|].
    exists i, x'. cbn. rewrite lookup_delete_ne by done. rewrite lookup_insert_eq.
    split_and!; try done. rewrite lookup_insert_ne, lookup_insert_eq by done. cbn.
    rewrite Hn1, Hp1. intros b Hb. by eapply name_kept_bindings. }
  destruct (Disk.lookup target d) as [[j y]|] eqn:Htl.
  - apply lookup_Some in Htl as [Hj Hy].
    case_bool_decide as Hij.
    { exfalso. subst j. rewrite (proj1 Hk) in Hj.
      assert (i < d0.(Disk.next)); [|unfold fresh_inode in Hi; lia].
      apply Hwf0, (proj2 Hwf0 target). unfold bindings. rewrite Hj. by left. }
    destruct (negb _); [by injection Hr as <- <-|]. injection Hr as <- Hr.
    apply (Hafter (drop_link j d)); [..|done]; unfold drop_link; rewrite Hy; cbn; [done|done|].
    rewrite lookup_insert_ne by done. rewrite Hx. eauto.
  - destruct (parent_is_dir target d); [|by injection Hr as <- <-]. injection Hr as <- Hr.
    apply (Hafter d); [done|done|rewrite Hx; eauto|done].
Qed.
End Steps.

(** ** The closure and the method *)

(** After the closure: a crash is safe, a temporary file is only left to
    remove before the rename, and success means the record is durable. *)
Definition body_post (bytes : list byte) (res : io unit * bool) (d : Disk.t) : Prop :=
  disk_wf d ∧ (snd res = true → Before d)
  ∧ (fst res = Ok tt →
      After bytes d ∧ ∀ name, default [] (d.(Disk.past) !! join root name) = []).

Lemma Crash_post_err bytes d e : After bytes d → body_post bytes (Err e, false) d.
Proof. intros HA. split; [exact (proj1 HA)|]. cbn. by split. Qed.
Lemma Before_post_err bytes d e b : Before d → body_post bytes (Err e, b) d.
Proof. intros HB. split; [exact (proj1 HB)|]. cbn. by split. Qed.

(** A calm check of the closure, while our temporary file is pending. *)
Lemma wp_check {A B} (m : Act ErrorKind.t A) (k : A → Closure bool B) pid tick i l b
    (Q : io B * bool → Disk.t → Prop) d :
  let temporary := join root (temporary_name id pid tick) in
  calm root m → Pending temporary i l b d →
  (∀ e d', Before d' → Q (Err e, true) d') →
  (∀ a d', Pending temporary i l b d' → wp who Crash (k a true) Q d') →
  wp who Crash ((inner m ≫= k) true) Q d.
Proof.
  intros temporary Hm HP Herr Hk. apply wp_closure_bind, wp_inner.
  eapply (wp_phase who Crash root (Pending temporary i l b)); [done|exact HP|..].
  - intros d1. apply Crash_Pending.
  - intros d1 d2 HP1 Hwf Hc. eapply Pending_calm; [apply temporary_ne|done..].
  - intros [a|e] d' HP'; [by apply Hk|apply Herr, HP'].
Qed.

(** An effectful step of the closure. *)
Lemma wp_effect {R B} (c : Sys.t R) (k : R → Closure bool B) (b : bool)
    (Q : io B * bool → Disk.t → Prop) d :
  Crash d →
  (∀ ch r d', exec who ch c d = (r, d') → Crash d' ∧
     match r with Ok a => wp who Crash (k a b) Q d' | Err e => Q (Err e, b) d' end) →
  wp who Crash ((inner (sys c) ≫= k) b) Q d.
Proof. intros HC Hc. by apply wp_closure_bind, wp_inner, wp_sys. Qed.

Lemma wp_finish bytes d :
  encode record = Ok bytes → After bytes d →
  wp who Crash ((_ ← assign false;
    _ ← inner (denied (validate_regular_path target s.(FileStateStore.policy) "session state file"));
    inner (sync_directory root s.(FileStateStore.policy))) true) (body_post bytes) d.
Proof.
  intros He HA. apply wp_closure_bind, wp_ret; [right; eauto|].
  apply wp_closure_bind, wp_inner.
  eapply (wp_phase who Crash root (After bytes)); [apply calm_map_err, calm_regular_path|exact HA|..].
  - intros d1. by apply Crash_After.
  - intros d1 d2. apply After_calm.
  - intros [a|e] d' HA'; [|by apply Crash_post_err]. apply wp_inner.
    eapply (wp_sync_directory who Crash root _ (After bytes)); [done|..].
    + intros d1. by apply Crash_After.
    + intros d1 d2. apply After_calm.
    + intros e d1 HA1. by apply Crash_post_err.
    + intros d1 HA1 Hp. split; [exact (proj1 HA1)|]. cbn. by split.
Qed.

Lemma wp_write_body pid tick bytes d :
  encode record = Ok bytes → Before d →
  wp who Crash (FileStateStore.write_body s id replace target
                  (join root (temporary_name id pid tick)) bytes false) (body_post bytes) d.
Proof.
  intros He HB. unfold FileStateStore.write_body. apply wp_effect; [by left|].
  intros ch r d1 Hr. destruct (open_step _ _ _ _ _ _ _ HB Hr) as [HB1 Hf].
  split; [by left|]. destruct r as [f|e]; [|by apply Before_post_err].
  specialize (Hf f eq_refl). apply wp_closure_bind, wp_ret; [by left|].
  eapply wp_check; [apply calm_map_err, calm_open_file|exact Hf|intros; by apply Before_post_err|].
  clear d1 Hr HB1 Hf. intros a d1 HP. apply wp_effect; [by apply Crash_Pending in HP as [? _]|].
  intros ch' r d2 Hr. destruct (write_step _ _ _ _ _ _ _ _ HP Hr) as [HB2 HP2].
  split; [by left|]. destruct r as [[]|e]; [|by apply Before_post_err].
  specialize (HP2 eq_refl). apply wp_effect; [by left|].
  clear d1 HP Hr HB2. intros ch2 r d3 Hr. destruct (sync_step _ _ _ _ _ _ _ _ HP2 Hr) as [HB3 HP3].
  split; [by left|]. destruct r as [[]|e]; [|by apply Before_post_err]. specialize (HP3 eq_refl).
  eapply wp_check; [apply calm_map_err, calm_ensure_root|exact HP3|intros; by apply Before_post_err|].
  clear d2 d3 HP2 Hr HB3 HP3. intros a' d2 HP.
  eapply wp_check; [apply calm_map_err, calm_target|exact HP|intros; by apply Before_post_err|].
  clear d2 HP. intros a2 d2 HP. apply wp_effect; [by apply Crash_Pending in HP as [? _]|].
  intros ch3 r d3 Hr. apply (rename_step _ _ _ _ _ _ _ _ HP) in Hr.
  destruct r as [[]|e]; [|split; [by left|by apply Before_post_err]].
  split; [right; eauto|]. by apply wp_finish.
Qed.

(** The whole method. *)
Definition write_post (r : Result unit) (d : Disk.t) : Prop :=
  r = Ok tt → ∃ bytes, encode record = Ok bytes ∧ After bytes d
    ∧ ∀ name, default [] (d.(Disk.past) !! join root name) = [].

(** A calm step of the method before its closure. *)
Lemma wp_prepare {A} (m : Act SysboostError.t A) (k : A → Act SysboostError.t unit) d :
  calm root m → Before d → (∀ a d', Before d' → wp who Crash (k a) write_post d') →
  wp who Crash (m ≫= k) write_post d.
Proof.
  intros Hm HB Hk. apply wp_act_bind.
  eapply (wp_phase who Crash root Before); [done|exact HB|..].
  - apply Crash_Before.
  - apply Before_calm.
  - intros [a|e] d' HB'; [by apply Hk|done].
Qed.

Lemma wp_write_atomic :
  wp who Crash (FileStateStore.write_atomic s record replace) write_post d0.
Proof.
  assert (Before d0) as HB0 by (split; [done|split; [reflexivity|apply name_kept_refl]]).
  unfold FileStateStore.write_atomic, FileStateStore.ensure_root.
  apply wp_prepare; [apply calm_ensure_root|done|]. intros _ d1 HB1.
  apply wp_prepare; [apply calm_target|done|]. intros _ d2 HB2.
  apply wp_act_bind, wp_ret; [by left|]. destruct (encode record) as [bytes|e] eqn:He; [|done].
  cbv beta iota. apply wp_act_bind. unfold FileStateStore.temporary_path.
  apply wp_act_bind, wp_map_err.
  eapply (wp_phase who Crash root Before); [apply calm_sys; done|exact HB2|apply Crash_Before
    |apply Before_calm|]. intros [pid|e] d3 HB3; [|done]. cbv beta iota.
  apply wp_act_bind, wp_map_err.
  eapply (wp_phase who Crash root Before); [apply calm_sys; done|exact HB3|apply Crash_Before
    |apply Before_calm|]. intros [tick|e] d4 HB4; [|done]. cbv beta iota.
  apply wp_ret; [by left|]. cbv beta iota. apply wp_bind.
  eapply wp_mono; [by apply wp_write_body|]. intros [[[]|e] created] d5 HC (Hwf & Hbefore & Hdone).
  - apply wp_ret; [done|]. intros _. exists bytes. by destruct (Hdone eq_refl).
  - destruct created; [|by apply wp_ret]. apply wp_call; [done|].
    intros ch r d6 Hr. apply wp_ret; [|done]. left.
    eapply (Before_exec pid (default 0 tick) ch _ _ d5 d6 (Hbefore eq_refl)); [|exact Hr]; done.
Qed.

(** Every disk a crash may find is safe for the session's file. *)
Lemma Crash_safe d v :
  Crash d → may_hold d target v →
  may_hold d0 target v ∨ ∃ bytes, encode record = Ok bytes ∧ v = Some bytes.
Proof.
  intros [(Hwf & Hc & Hk)|(bytes & He & Hwf & Hc & i & x & Hn & Hx & Hd & Hs & Hp)] Hv.
  - left. eapply name_kept_holds; [done| |by intros b; apply name_kept_bindings|exact Hv].
    intros i Hi. apply Hc. unfold fresh_inode. lia.
  - destruct Hv as (b & Hin & Hb). unfold bindings in Hin. rewrite Hn in Hin.
    apply elem_of_cons in Hin as [->|Hin].
    + right. exists bytes. split; [done|]. destruct Hb as (y & l & Hy & -> & Hsync).
      assert (y = x) as -> by congruence. by rewrite Hsync, Hd.
    + left. apply Hp in Hin. exists b. split; [done|]. destruct b as [j|]; [|done].
      destruct Hb as (y & l & Hy & -> & Hsync).
      destruct (proj2 Hwf0 target j Hin) as [z Hz].
      assert (¬ fresh_inode j) as Hj.
      { unfold fresh_inode. pose proof (proj1 Hwf0 j (mk_is_Some _ _ Hz)). lia. }
      destruct Hc as (_ & _ & Hkept & _). destruct (Hkept j Hj z Hz) as (y' & Hy' & Hd' & _ & Hs').
      assert (y' = y) as -> by congruence. exists z, l. split_and!; [done..|].
      intros Hzs. rewrite Hsync by auto. done.
Qed.

Lemma Crash_changes d : Crash d → Changes written_name fresh_inode d0 d.
Proof. by intros [(_ & ? & _)|(? & _ & _ & ? & _)]. Qed.
End Write.

(** C4. Replacing a session file is atomic.  Take any disk, any failures
    injected at any system call, and stop after any number of calls, also in
    the middle of a power loss: what the session's file may hold is what it
    could hold before the write, or the complete new record. *)
Theorem write_is_atomic who s record replace d p d' v :
  disk_wf d →
  rtc (step who) (FileStateStore.write_atomic s record replace, d) (p, d') →
  may_hold d' (FileStateStore.state_path s (SessionRecord.session_id record)) v →
  may_hold d (FileStateStore.state_path s (SessionRecord.session_id record)) v
  ∨ ∃ bytes, encode record = Ok bytes ∧ v = Some bytes.
Proof.
  intros Hwf Hsteps Hv.
  destruct (wp_steps _ _ _ _ _ _ _ (wp_write_atomic who s record replace d Hwf) Hsteps) as [HC _].
  by eapply Crash_safe.
Qed.

(** A write that reports success is durable: under any schedule of
    failures that lets [create] or [replace] return [Ok], the file holds the
    encoded record now, and a power loss at once cannot take it back. *)
Theorem written_is_durable who s record replace schedule d d' rest :
  disk_wf d →
  run who (FileStateStore.write_atomic s record replace) schedule d = (Ok tt, d', rest) →
  ∃ bytes, encode record = Ok bytes
    ∧ live d' (FileStateStore.state_path s (SessionRecord.session_id record)) = Some bytes
    ∧ ∀ v, may_hold d' (FileStateStore.state_path s (SessionRecord.session_id record)) v →
           v = Some bytes.
Proof.
  intros Hwf Hrun.
  destruct (wp_run _ _ _ _ _ _ _ _ _ (wp_write_atomic who s record replace d Hwf) Hrun) as [_ Hpost].
  destruct (Hpost eq_refl) as (bytes & He & (_ & _ & i & x & Hn & Hx & Hd & Hs & _) & Hpast).
  exists bytes. split; [done|]. split.
  - unfold live. assert (Disk.lookup (FileStateStore.state_path s (SessionRecord.session_id record)) d'
      = Some (i, x)) as -> by (by apply lookup_Some). cbn. by rewrite Hd.
  - intros v (b & Hin & Hb). unfold bindings in Hin. rewrite Hn in Hin.
    unfold FileStateStore.state_path in Hin. rewrite Hpast in Hin.
    apply list_elem_of_singleton in Hin as ->. destruct Hb as (y & l & Hy & -> & Hsync).
    assert (y = x) as -> by congruence. by rewrite Hsync, Hd.
Qed.
