(* ===== verification/StoreRefine.v ===== *)
(** * Reading the state directory, and the map the store refines

    What [load] and [load_unfinished] return is what the files hold: the scan
    at the start of a process returns the unfinished records of the map, each
    once, and beside them only those of stray files. *)
From Stdlib Require Import Strings.Byte Strings.Ascii.
From stdpp Require Import relations sorting pretty.
From S2P Require Import Prelude Lists Text Str Ids Mut Session Record Codec.
From S2P Require Import StateFile Ports Engine FileSystem FsLogic StateStore StoreAtomic RecordInvariant CodecLaws.
Local Open Scope N_scope.
Unset Default Proof Using.

(** The session whose state an entry of the directory is taken for.  Every
    trailing [.state] is removed, so the file of a session has more names than
    [state_name]. *)
Definition session_entry (name : string) : option SessionId.t :=
  if bool_decide (name = LOCK_NAME) then None
  else if starts_with "." name && contains TEMPORARY_INFIX name then None
  else match SessionId.from_str (trim_end_matches STATE_SUFFIX name) with Ok id => Some id | Err _ => None end.
Definition proper_entry (name : string) : bool :=
  match session_entry name with Some id => bool_decide (name = state_name id) | None => false end.
Definition stray_entry (name : string) : bool :=
  match session_entry name with Some id => negb (bool_decide (name = state_name id)) | None => false end.

(** The unfinished record in an entry. *)
Definition entry_record (s : FileStateStore.t) (d : Disk.t) (name : string) : option SessionRecord.t :=
  _ ← session_entry name;
  bytes ← live d (join s.(FileStateStore.root) name);
  match decode bytes with
  | Ok r => if bool_decide (session_state r = SessionState.Restored) then None else Some r
  | Err _ => None
  end.
(** The unfinished records in files that are not of the name of a session. *)
Definition strays (s : FileStateStore.t) (d : Disk.t) : list SessionRecord.t :=
  omap (entry_record s d) (filter (λ name, stray_entry name = true) (Disk.entries s.(FileStateStore.root) d)).

Section Read.
Context (who : Caller.t) (s : FileStateStore.t) (d0 : Disk.t).
Hypothesis Hwf0 : disk_wf d0.
Let root := s.(FileStateStore.root).

(** The disk of a calm program that started on [d0]. *)
Definition Same (d : Disk.t) : Prop := disk_wf d ∧ Calm root d0 d.

Lemma Same_start : Same d0.
Proof. split; [done|]. reflexivity. Qed.

Lemma Same_calm d d' : Same d → disk_wf d' → Calm root d d' → Same d'.
Proof. intros [_ Hc] Hwf Hd. split; [done|]. by etrans. Qed.

Lemma Same_wf d : Same d → Same d ∧ disk_wf d.
Proof. intros HS. split; [done|exact (proj1 HS)]. Qed.

Lemma Same_exec ch {R} (c : Sys.t R) r d d' :
  Same d → calm_call root c → exec who ch c d = (r, d') → Same d'.
Proof.
  intros HS Hc Hr.
  assert (Calm root d d') as Hd
    by (exact (exec_changes _ _ _ _ _ _ _ _ (proj1 HS) (calm_touches _ _ Hc) Hr)).
  exact (Same_calm d d' HS (proj1 (proj2 Hd) (proj1 HS)) Hd).
Qed.

(** Entries of the directory keep their contents. *)
Lemma Same_live d name : Same d → live d (join root name) = live d0 (join root name).
Proof.
  intros [Hwf (_ & _ & Hino & Hnames)].
  assert (join root name ≠ root) as Hne.
  { intros Hr. apply (f_equal length) in Hr. cbn in Hr. lia. }
  destruct (Hnames _ Hne) as [Hn _]. unfold live, Disk.lookup. rewrite Hn.
  destruct (d0.(Disk.names) !! join root name) as [i|] eqn:E; cbn; [|done].
  destruct (proj2 Hwf0 (join root name) i) as [x Hx]; [unfold bindings; rewrite E; by left|].
  destruct (Hino i (λ H, H) x Hx) as (x' & Hx' & Hd & _). rewrite Hx, Hx'. cbn. by rewrite Hd.
Qed.

(** A calm part, after which the disk is still the same. *)
Lemma wp_same {A} (m : Prog A) (Q : A → Disk.t → Prop) d :
  calm root m → Same d → (∀ a d', Same d' → Q a d') → wp who Same m Q d.
Proof.
  intros Hm HS HQ. eapply (wp_phase who Same root Same); [done|done|apply Same_wf|apply Same_calm|done].
Qed.

Lemma wp_same_bind {E A B} (m : Act E A) (k : A → Act E B) (Q : result E B → Disk.t → Prop) d :
  calm root m → Same d → (∀ e d', Same d' → Q (Err e) d') →
  (∀ a d', Same d' → wp who Same (k a) Q d') → wp who Same (m ≫= k) Q d.
Proof.
  intros Hm HS Herr Hk. apply wp_act_bind, wp_same; [done|done|].
  intros [a|e] d' HS'; [by apply Hk|by apply Herr].
Qed.

Lemma wp_read_verified name policy n (Q : Result (list byte) → Disk.t → Prop) d :
  n < 2 ^ 64 - 1 → Same d → (∀ e d', Same d' → Q (Err e) d') →
  (∀ bytes d', Same d' → live d0 (join root name) = Some bytes → Q (Ok bytes) d') →
  wp who Same (read_verified_file (join root name) policy n) Q d.
Proof.
  intros Hn HS Herr Hok. unfold read_verified_file.
  apply wp_act_bind, wp_map_err, wp_sys; [done|]. intros ch r d1 Hr.
  assert (Same d1) as HS1 by (eapply Same_exec; [exact HS| |exact Hr]; done). split; [done|].
  destruct r as [file|e]; cbn [map_err]; [|by apply Herr].
  assert (d1 = d ∧ ∃ x, Disk.lookup (join root name) d = Some (File.ino file, x)) as (-> & x & Hlook).
  { unfold exec in Hr. destruct (Choice.injected ch); [done|]. cbn [perform] in Hr.
    destruct (Disk.lookup (join root name) d) as [[i x]|]; [|done].
    destruct (_ || _); [done|]. injection Hr as <- <-. eauto. }
  apply lookup_Some in Hlook as [Hname Hino].
  apply wp_act_bind, (wp_phase who Same root
    (λ d', Same d' ∧ ∃ x', d'.(Disk.inodes) !! File.ino file = Some x'
                           ∧ x'.(Inode.data) = x.(Inode.data))).
  - apply calm_open_file.
  - eauto.
  - intros d1 [HS' _]. by apply Same_wf.
  - intros d1 d2 [HS' (x' & Hx' & Hd')] Hwf Hc. split; [by eapply Same_calm|].
    destruct Hc as (_ & _ & Hc & _). destruct (Hc _ (λ H, H) x' Hx') as (x2 & ? & ? & _).
    exists x2. split; [done|congruence].
  - intros [id|e] d1 [HS' (x' & Hx' & Hd')]; [|by apply Herr]. clear Hr HS1.
    apply wp_act_bind, wp_map_err, wp_sys; [done|]. intros ch2 r d2 Hr.
    assert (Same d2) as HS2 by (eapply Same_exec; [exact HS'| |exact Hr]; done). split; [done|].
    destruct r as [bytes|e]; cbn [map_err]; [|by apply Herr].
    assert (bytes = take (N.to_nat (saturating_add64 n 1)) x.(Inode.data)) as Hb.
    { unfold exec in Hr. destruct (Choice.injected ch2); [done|]. cbn [perform] in Hr.
      rewrite Hx' in Hr. destruct (FileType.is_dir _); [done|]. injection Hr as <- _. by rewrite Hd'. }
    destruct (N.ltb_spec n (N.of_nat (length bytes))) as [Hlt|Hle].
    { apply wp_ret; [done|]. by apply Herr. }
    apply wp_ret; [done|]. apply Hok; [done|]. rewrite <-(Same_live d name HS).
    unfold live. assert (Disk.lookup (join root name) d = Some (File.ino file, x)) as ->
      by (by apply lookup_Some). cbn. f_equal. rewrite Hb.
    unfold saturating_add64 in *. replace (n + 1 `min` (2 ^ 64 - 1)) with (n + 1) in * by lia.
    rewrite take_ge; [done|]. rewrite Hb, length_take in Hle. lia.
Qed.

(** The record a path holds. *)
Definition holds_record (name : string) (r : SessionRecord.t) : Prop :=
  ∃ bytes, live d0 (join root name) = Some bytes ∧ decode bytes = Ok r.

Lemma wp_load_path name id (Q : Result SessionRecord.t → Disk.t → Prop) d :
  Same d → (∀ e d', Same d' → Q (Err e) d') →
  (∀ r d', Same d' → holds_record name r → SessionRecord.session_id r = id → Q (Ok r) d') →
  wp who Same (FileStateStore.load_path s (join root name) (Some id)) Q d.
Proof.
  intros HS Herr Hok. unfold FileStateStore.load_path. apply wp_act_bind, wp_read_verified; [done|done|done|].
  intros bytes d1 HS1 Hlive. apply wp_act_bind, wp_ret; [done|].
  destruct (decode bytes) as [r|e] eqn:Hd; cbv beta iota; [|by apply Herr].
  case_bool_decide as Hid; cbn [negb]; apply wp_ret; try done; [|by apply Herr].
  apply Hok; [done| |done]. by exists bytes.
Qed.

(** ** The entries of the directory *)

Lemma state_name_not_lock id : state_name id ≠ LOCK_NAME.
Proof. destruct (state_name_first id) as (c & t & -> & Hc). by intros [= ->]. Qed.

Lemma state_name_not_dotted id : starts_with "." (state_name id) = false.
Proof.
  destruct (state_name_first id) as (c & t & -> & Hc). unfold starts_with. cbn.
  by rewrite bool_decide_eq_false_2.
Qed.

Lemma state_name_suffix id : ends_with STATE_SUFFIX (state_name id) = true.
Proof. unfold ends_with, state_name. by rewrite strip_suffix_app. Qed.

Lemma state_name_trim id : trim_end_matches STATE_SUFFIX (state_name id) = SessionId.to_hex id.
Proof. by apply (trim_end_matches_app _ _ is_hex); [apply to_hex_chars|]. Qed.

Lemma state_name_parses id :
  SessionId.from_str (trim_end_matches STATE_SUFFIX (state_name id)) = Ok id.
Proof. rewrite state_name_trim. apply session_id_hex_round_trip. Qed.

Lemma state_name_entry id : session_entry (state_name id) = Some id.
Proof.
  unfold session_entry. rewrite bool_decide_eq_false_2 by apply state_name_not_lock.
  rewrite state_name_not_dotted. cbn [andb]. by rewrite state_name_parses.
Qed.

(** What an entry yields: its unfinished record, and a file taken for the state
    of a session holds a record of that session. *)
Definition entry_sound (name : string) (o : option SessionRecord.t) : Prop :=
  o = entry_record s d0 name
  ∧ ∀ id, session_entry name = Some id → ∃ r, holds_record name r ∧ SessionRecord.session_id r = id.

Lemma entry_skipped name : session_entry name = None → entry_sound name None.
Proof. intros Hn. unfold entry_sound, entry_record. by rewrite Hn. Qed.

Lemma wp_load_entry name (Q : Result (option SessionRecord.t) → Disk.t → Prop) d :
  Same d → (∀ e d', Same d' → Q (Err e) d') →
  (∀ o d', Same d' → entry_sound name o → Q (Ok o) d') →
  wp who Same (FileStateStore.load_entry s name) Q d.
Proof.
  intros HS Herr Hok. unfold FileStateStore.load_entry.
  assert (Hskip : ∀ d1 A (m : Act SysboostError.t A), calm root m → Same d1 →
    session_entry name = None → wp who Same (m ≫= λ _, mret None) Q d1).
  { intros d1 A m Hm HS1 Hn. apply wp_same_bind; [done|done|done|]. intros _ d2 HS2.
    apply wp_ret; [done|]. by apply Hok, entry_skipped. }
  assert (Hfail : ∀ d1 e, Same d1 → wp who Same (fails e) Q d1).
  { intros d1 e HS1. apply wp_ret; [done|]. by apply Herr. }
  apply wp_same_bind; [unfold durable; calm|done|done|]. intros ft d1 HS1.
  destruct (negb _); [by apply Hfail|].
  case_bool_decide as Hlock.
  { apply Hskip; [unfold validate_entry_metadata; calm|done|].
    unfold session_entry. by rewrite bool_decide_eq_true_2. }
  destruct (starts_with "." name && _) eqn:Htmp.
  { destruct (negb _); [by apply Hfail|].
    apply Hskip; [unfold validate_entry_metadata; calm|done|].
    unfold session_entry. rewrite bool_decide_eq_false_2 by done. by rewrite Htmp. }
  destruct (negb (ends_with _ _)); [by apply Hfail|]. destruct (negb _); [by apply Hfail|].
  apply wp_act_bind, wp_ret; [done|].
  destruct (SessionId.from_str _) as [id|e] eqn:Hid; cbn [map_err]; [|by apply Herr].
  apply wp_act_bind, wp_load_path; [done|done|]. intros r d2 HS2 Hr Hsid.
  assert (session_entry name = Some id) as Hentry.
  { unfold session_entry. by rewrite bool_decide_eq_false_2, Htmp, Hid by done. }
  apply wp_ret; [done|]. apply Hok; [done|]. split.
  - unfold entry_record. rewrite Hentry. destruct Hr as (bytes & Hl & Hd). fold root. cbn. rewrite Hl. cbn.
    by rewrite Hd.
  - intros id'. rewrite Hentry. intros [= <-]. by exists r.
Qed.

Lemma wp_load_entries names (Q : Result (list SessionRecord.t) → Disk.t → Prop) d :
  Same d → (∀ e d', Same d' → Q (Err e) d') →
  (∀ os d', Same d' → Forall2 entry_sound names os → Q (Ok (omap id os)) d') →
  wp who Same (FileStateStore.load_entries s names) Q d.
Proof.
  revert Q d. induction names as [|name names IH]; intros Q d HS Herr Hok; cbn [FileStateStore.load_entries].
  { apply wp_ret; [done|]. by apply (Hok []). }
  apply wp_act_bind, wp_load_entry; [done|done|]. intros o d1 HS1 Ho.
  apply wp_act_bind, IH; [done|done|]. intros os d2 HS2 Hos.
  apply wp_ret; [done|]. specialize (Hok (o :: os) d2 HS2 ltac:(by constructor)).
  by destruct o.
Qed.

(** ** The scan and the load *)

(** The scan read every file taken for a session and returned exactly the
    unfinished records, in the order of their IDs. *)
Definition scan_complete (records : list SessionRecord.t) : Prop :=
  (∀ name id, name ∈ Disk.entries root d0 → session_entry name = Some id →
     ∃ r, holds_record name r ∧ SessionRecord.session_id r = id)
  ∧ records ≡ₚ omap (entry_record s d0) (Disk.entries root d0)
  ∧ Sorted session_le records.

Lemma elem_of_entries p name d : name ∈ Disk.entries p d ↔ is_Some (d.(Disk.names) !! join p name).
Proof.
  unfold Disk.entries. rewrite list_elem_of_omap. split.
  - intros ([q i] & Hq%elem_of_map_to_list & Hn). destruct q as [|n q]; [done|].
    case_bool_decide; [|done]. injection Hn as ->. subst. by exists i.
  - intros [i Hi]. exists (join p name, i). split; [by apply elem_of_map_to_list|].
    unfold join. by rewrite bool_decide_eq_true_2.
Qed.

Lemma NoDup_omap {A B} (f : A → option B) l :
  (∀ x y b, f x = Some b → f y = Some b → x = y) → NoDup l → NoDup (omap f l).
Proof.
  intros Hf. induction 1 as [|x l Hx Hl IH]; cbn; [constructor|]. destruct (f x) as [b|] eqn:E; [|done].
  constructor; [|done]. intros (y & Hy & Hyb)%list_elem_of_omap. by rewrite (Hf _ _ _ E Hyb) in Hx.
Qed.

End Read.

(** The listing of a directory depends on its names only. *)
Lemma entries_NoDup p d : NoDup (Disk.entries p d).
Proof.
  unfold Disk.entries.
  assert (∀ l : list (Path * N), NoDup (fst <$> l) → NoDup (omap (λ '(q, _), match q with
    | name :: q' => if bool_decide (q' = p) then Some name else None | [] => None end) l)) as Hl.
  { intros l. induction l as [|[q i] l IH]; cbn; [constructor|]. intros [Hq Hn]%NoDup_cons.
    destruct q as [|n q]; [by apply IH|]. case_bool_decide; [|by apply IH]. subst q.
    constructor; [|by apply IH]. intros ([[|n' q'] i'] & Hin & Hm)%list_elem_of_omap; [done|].
    case_bool_decide; [|done]. injection Hm as ->. subst q'. apply Hq.
    by apply (list_elem_of_fmap_2 fst) in Hin. }
  apply Hl, NoDup_fst_map_to_list.
Qed.
Lemma entries_kept p d d' :
  (∀ name, d'.(Disk.names) !! join p name = d.(Disk.names) !! join p name) → Disk.entries p d' ≡ₚ Disk.entries p d.
Proof.
  intros Hn. apply NoDup_Permutation; [apply entries_NoDup..|]. intros name.
  by rewrite !elem_of_entries, Hn.
Qed.

Section Scan.
Context (who : Caller.t) (s : FileStateStore.t) (d0 : Disk.t).
Hypothesis Hwf0 : disk_wf d0.
Let root := s.(FileStateStore.root).

#[local] Instance session_le_total : Total session_le.
Proof. intros r1 r2. unfold session_le. lia. Qed.

Lemma wp_load_unfinished d (Q : Result (list SessionRecord.t) → Disk.t → Prop) :
  Same s d0 d → (∀ e d', Same s d0 d' → Q (Err e) d') →
  (∀ records d', Same s d0 d' → scan_complete s d0 records → Q (Ok records) d') →
  wp who (Same s d0) (FileStateStore.load_unfinished s) Q d.
Proof.
  intros HS Herr Hok. unfold FileStateStore.load_unfinished.
  apply wp_same_bind; [apply calm_ensure_root|done|done|]. intros _ d1 HS1.
  apply wp_act_bind, wp_map_err, wp_sys; [done|]. intros ch r d2 Hr.
  assert (Same s d0 d2) as HS2 by (eapply Same_exec; [exact HS1| |exact Hr]; done). split; [done|].
  destruct r as [names|e]; cbn [map_err]; [|by apply Herr].
  assert (names ≡ₚ Disk.entries root d0) as Hnames.
  { rewrite <-(entries_kept root d0 d1).
    - unfold exec in Hr. destruct (Choice.injected ch); [done|]. cbn [perform] in Hr.
      destruct (Disk.lookup _ d1) as [[i x]|]; [|done]. destruct (FileType.is_dir _); [|done].
      injection Hr as <- _. destruct (_ !! Choice.order ch) as [l|] eqn:El; cbn; [|done].
      by apply list_elem_of_lookup_2, permutations_Permutation in El.
    - intros name. destruct HS1 as [_ (_ & _ & _ & Hkept)]. destruct (Hkept (join root name)) as [Hn _]; [|done].
      intros He. unfold root in He. apply (f_equal length) in He. cbn in He. lia. }
  unfold root in Hnames. apply wp_act_bind, wp_load_entries; [done..|]. intros os d3 HS3 Hos.
  apply wp_ret; [done|]. apply Hok; [done|].
  assert (os = entry_record s d0 <$> names) as ->.
  { clear -Hos. induction Hos as [|name o names os [-> _] _ IH]; [done|]. cbn. by rewrite IH. }
  split_and!.
  - intros name id Hin. rewrite <-Hnames in Hin. apply list_elem_of_lookup in Hin as [k Hk].
    destruct (Forall2_lookup_l _ _ _ _ _ Hos Hk) as (o & _ & _ & Hval). apply Hval.
  - rewrite merge_sort_Permutation, <-Hnames. clear. induction names as [|name names IH]; [done|].
    cbn. destruct (entry_record s d0 name); cbn; by rewrite IH.
  - apply Sorted_merge_sort. apply _.
Qed.

End Scan.

(** * The store refines a map from session IDs to records

    What the detailed programs of [StateStore] do to the disk, seen as
    operations of a map: [view] reads the session files, and
    [file_store_refines_map] says what each operation of the store may do to
    it and what its result says about it, whatever failures the kernel
    injects. *)
Local Open Scope N_scope.
Unset Default Proof Using.

(** ** Runs of composed programs *)

Lemma run_bind who {A B} (p : Prog A) (f : A → Prog B) schedule d :
  run who (prog_bind p f) schedule d
  = let '(a, d1, rest) := run who p schedule d in run who (f a) rest d1.
Proof.
  revert schedule d. induction p as [a|R c k IH]; intros schedule d; cbn; [done|].
  destruct (exec who _ c d) as [r d1]. apply IH.
Qed.

Lemma run_act_bind who {E A B} (m : Act E A) (f : A → Act E B) schedule d :
  run who (m ≫= f) schedule d
  = let '(r, d1, rest) := run who m schedule d in
    match r with Ok a => run who (f a) rest d1 | Err e => (Err e, d1, rest) end.
Proof.
  unfold mbind, act_bind. rewrite run_bind.
  destruct (run who m schedule d) as [[[a|e] d1] rest]; done.
Qed.

(** A step of a successful run. *)
Lemma run_Ok_inv who {E A B} (m : Act E A) (f : A → Act E B) schedule d b d' rest :
  run who (m ≫= f) schedule d = (Ok b, d', rest) →
  ∃ a d1 mid, run who m schedule d = (Ok a, d1, mid) ∧ run who (f a) mid d1 = (Ok b, d', rest).
Proof.
  rewrite run_act_bind. destruct (run who m schedule d) as [[[a|e] d1] mid]; [eauto 8|done].
Qed.

Lemma run_attempt who {E F A} (m : Act E A) schedule d :
  run who (attempt (F := F) m) schedule d
  = let '(r, d1, rest) := run who m schedule d in (Ok r, d1, rest).
Proof. unfold attempt. rewrite run_bind. by destruct (run who m schedule d) as [[r d1] rest]. Qed.

Lemma run_result_Ok who {E A} (r : result E A) schedule d a d' rest :
  run who (of_result r) schedule d = (Ok a, d', rest) → r = Ok a.
Proof. cbn. by intros [= -> _ _]. Qed.

Lemma run_sys who {R} (c : Sys.t R) schedule d :
  run who (sys c) schedule d
  = let '(r, d') := exec who (default Choice.calm (head schedule)) c d in (r, d', tail schedule).
Proof. done. Qed.

(** A run that was given no choices ends without any. *)
Lemma run_rest who {A} (p : Prog A) d : (run who p [] d).2 = [].
Proof.
  revert d. induction p as [a|R c k IH]; intros d; cbn [run]; [done|].
  destruct (exec who _ c d) as [r d1]. apply IH.
Qed.

Lemma run_steps who {A} (p : Prog A) schedule d a d' rest :
  run who p schedule d = (a, d', rest) → rtc (step who) (p, d) (Ret a, d').
Proof.
  revert schedule d. induction p as [b|R c k IH]; intros schedule d; cbn [run]; [by intros [= <- <- _]|].
  destruct (exec who _ c d) as [r d1] eqn:Hc. intros Hr. eapply rtc_l; [by eapply step_call|]. by eapply IH.
Qed.

Lemma live_may_hold d p bytes : live d p = Some bytes → may_hold d p (Some bytes).
Proof.
  unfold live. destruct (Disk.lookup p d) as [[i x]|] eqn:E; [|done]. intros [= <-].
  apply lookup_Some in E as [Hn Hx]. exists (Some i). unfold bindings. rewrite Hn. split; [by left|].
  eauto.
Qed.

(** A calm program keeps the files. *)
Lemma run_calm who root {A} (p : Prog A) schedule d a d' rest :
  calm root p → disk_wf d → run who p schedule d = (a, d', rest) → disk_wf d' ∧ Calm root d d'.
Proof.
  intros Hc Hwf Hr.
  refine (proj2 (wp_run who (λ _, True) p (λ _ d', disk_wf d' ∧ Calm root d d') d schedule a d' rest _ Hr)).
  by apply (wp_calm who root).
Qed.

(** ** The files of the sessions *)

(** What the store holds of a session: nothing, a record, or a file that is
    not one. *)
Definition View : Type := SessionId.t → option (Result SessionRecord.t).

Definition view (s : FileStateStore.t) (d : Disk.t) : View :=
  λ id, decode <$> live d (FileStateStore.state_path s id).

Definition view_update (id : SessionId.t) (o : option (Result SessionRecord.t)) (v : View) : View :=
  λ id', if bool_decide (id' = id) then o else v id'.

#[export] Instance to_hex_inj : Inj (=) (=) SessionId.to_hex.
Proof. intros x y Hxy. pose proof (session_id_hex_round_trip x) as Hx.
  rewrite Hxy, session_id_hex_round_trip in Hx. by apply Ok_inj in Hx. Qed.

#[export] Instance state_name_inj : Inj (=) (=) state_name.
Proof.
  intros x y Hxy. apply (inj SessionId.to_hex).
  pose proof (state_name_trim x) as Hx. by rewrite Hxy, state_name_trim in Hx.
Qed.

Section View.
Context (s : FileStateStore.t).
Let root := s.(FileStateStore.root).

Lemma live_Calm d d' name :
  disk_wf d → disk_wf d' → Calm root d d' → live d' (join root name) = live d (join root name).
Proof. intros Hwf Hwf' Hc. by apply (Same_live s d Hwf). Qed.

Lemma view_Calm d d' id : disk_wf d → disk_wf d' → Calm root d d' → view s d' id = view s d id.
Proof. intros Hwf Hwf' Hc. unfold view, FileStateStore.state_path. by rewrite (live_Calm d d'). Qed.

(** A name that is bound as before keeps its contents when no inode that
    existed is written. *)
Lemma name_kept_live (T : Path → Prop) (W : N → Prop) d d' p :
  disk_wf d → Changes T W d d' → name_kept d d' p → (∀ i, W i → d.(Disk.next) ≤ i) →
  live d' p = live d p.
Proof.
  intros Hwf (_ & _ & Hino & _) [Hn _] HW. unfold live, Disk.lookup. rewrite Hn.
  destruct (d.(Disk.names) !! p) as [i|] eqn:E; cbn; [|done].
  destruct (proj2 Hwf p i) as [x Hx]; [unfold bindings; rewrite E; by left|].
  destruct (Hino i) with (x := x) as (x' & Hx' & Hd & _); [|done|].
  - intros Hi. pose proof (HW i Hi). pose proof (proj1 Hwf i (mk_is_Some _ _ Hx)). lia.
  - rewrite Hx, Hx'. cbn. by rewrite Hd.
Qed.

Lemma live_Changes (T : Path → Prop) (W : N → Prop) d d' p :
  disk_wf d → Changes T W d d' → ¬ T p → (∀ i, W i → d.(Disk.next) ≤ i) → live d' p = live d p.
Proof.
  intros Hwf Hc HT HW. apply (name_kept_live T W); [done..| |done].
  destruct Hc as (_ & _ & _ & Hk). by apply Hk.
Qed.

Lemma live_unbound d p : d.(Disk.names) !! p = None → live d p = None.
Proof. intros Hp. unfold live, Disk.lookup. by rewrite Hp. Qed.

Lemma lookup_live d p : Disk.lookup p d = None ↔ live d p = None.
Proof. unfold live. destruct (Disk.lookup p d) as [[i x]|]; done. Qed.

(** A change that leaves the strays' names alone keeps them. *)
Lemma strays_Changes (T : Path → Prop) (W : N → Prop) d d' :
  disk_wf d → Changes T W d d' → (∀ name, stray_entry name = true → ¬ T (join root name)) →
  (∀ i, W i → d.(Disk.next) ≤ i) → strays s d' ≡ₚ strays s d.
Proof.
  intros Hwf Hc HT HW. unfold strays. fold root.
  assert (filter (λ name, stray_entry name = true) (Disk.entries root d')
          ≡ₚ filter (λ name, stray_entry name = true) (Disk.entries root d)) as ->.
  { apply NoDup_Permutation; [by apply NoDup_filter, entries_NoDup..|]. intros name.
    rewrite !list_elem_of_filter, !elem_of_entries. destruct Hc as (_ & _ & _ & Hk).
    split; intros [Hs Hn]; (split; [done|]); destruct (Hk (join root name) (HT _ Hs)) as [Heq _];
      [by rewrite <-Heq|by rewrite Heq]. }
  assert (∀ l, Forall (λ name, stray_entry name = true) l →
    omap (entry_record s d') l = omap (entry_record s d) l) as ->; [|done|].
  { induction 1 as [|name l Hs _ IH]; [done|]. cbn. rewrite IH. unfold entry_record. fold root.
    by rewrite (live_Changes T W d d' _ Hwf Hc (HT _ Hs) HW). }
  apply Forall_forall. by intros name [? _]%list_elem_of_filter.
Qed.

Lemma stray_not_root name : join root name ≠ root.
Proof. intros He. apply (f_equal length) in He. cbn in He. lia. Qed.

Lemma strays_Calm d d' : disk_wf d → Calm root d d' → strays s d' ≡ₚ strays s d.
Proof. intros Hwf Hc. eapply strays_Changes; [done|exact Hc|intros name _; apply stray_not_root|done]. Qed.

Lemma stray_not_state name id : stray_entry name = true → name ≠ state_name id.
Proof.
  intros Hs ->. unfold stray_entry in Hs. rewrite state_name_entry in Hs. by rewrite bool_decide_eq_true_2 in Hs.
Qed.

Lemma contains_app p l r : contains p (l +:+ p +:+ r) = true.
Proof.
  unfold contains. induction l as [|c l IH].
  - assert (strip_prefix p (p +:+ r) = Some r) as Hp by by apply strip_prefix_Some.
    change (EmptyString +:+ p +:+ r) with (p +:+ r). destruct (p +:+ r); cbn [split_once]; by rewrite Hp.
  - change (String c l +:+ p +:+ r) with (String c (l +:+ p +:+ r)). cbn [split_once].
    destruct (strip_prefix p _); [done|]. destruct (split_once p (l +:+ p +:+ r)) as [[? ?]|]; done.
Qed.
Lemma stray_not_temporary name id pid tick : stray_entry name = true → name ≠ temporary_name id pid tick.
Proof.
  intros Hs ->. unfold stray_entry, session_entry in Hs. case_bool_decide; [done|].
  assert (contains TEMPORARY_INFIX (temporary_name id pid tick) = true) as Hc.
  { unfold temporary_name. rewrite <-(str_app_assoc "." (SessionId.to_hex id)). apply contains_app. }
  by rewrite Hc in Hs.
Qed.

End View.

(** ** The abstract store *)

Module StoreOp.
Inductive t : Type → Type :=
| Create (r : SessionRecord.t) : t unit
| Replace (r : SessionRecord.t) : t unit
| Load (id : SessionId.t) : t SessionRecord.t
| LoadUnfinished : t (list SessionRecord.t)
| Remove (id : SessionId.t) : t unit.

(** The records given to the store are values of their Rust types. *)
Definition wf {R} (op : t R) : Prop :=
  match op with Create r | Replace r => record_wf r | _ => True end.

Definition program (s : FileStateStore.t) {R} (op : t R) : Act SysboostError.t R :=
  match op with
  | Create r => FileStateStore.create s r
  | Replace r => FileStateStore.replace s r
  | Load id => FileStateStore.load s id
  | LoadUnfinished => FileStateStore.load_unfinished s
  | Remove id => FileStateStore.remove s id
  end.

(** The map holds [r] for its session now. *)
Definition stored (r : SessionRecord.t) (v v' : View) : Prop :=
  ∀ id, v' id = view_update (SessionRecord.session_id r) (Some (Ok r)) v id.
Definition removed (i : SessionId.t) (v v' : View) : Prop :=
  ∀ id, v' id = view_update i None v id.
Definition unchanged (v v' : View) : Prop := ∀ id, v' id = v id.

(** The records of the sessions that are not restored, each session once. *)
Definition unfinished (v : View) (records : list SessionRecord.t) : Prop :=
  NoDup (SessionRecord.session_id <$> records)
  ∧ ∀ r, r ∈ records ↔ v (SessionRecord.session_id r) = Some (Ok r) ∧ session_state r ≠ SessionState.Restored.

(** What an operation may do to the map [v] and what its result says; [extra]
    are the records of the files that no operation would make. *)
Definition spec {R} (op : t R) (extra : list SessionRecord.t) (v : View) : Result R → View → Prop :=
  match op in t R return Result R → View → Prop with
  | Create r => λ res v',
    match res with
    | Ok _ => v (SessionRecord.session_id r) = None ∧ stored r v v'
    | Err _ => unchanged v v' ∨ stored r v v'
    end
  | Replace r => λ res v',
    match res with
    | Ok _ => is_Some (v (SessionRecord.session_id r)) ∧ stored r v v'
    | Err _ => unchanged v v' ∨ stored r v v'
    end
  | Load id => λ res v', unchanged v v' ∧
    match res with
    | Ok r => v id = Some (Ok r) ∧ SessionRecord.session_id r = id
    | Err _ => True
    end
  | LoadUnfinished => λ res v', unchanged v v' ∧
    match res with
    | Ok records =>
      (∀ id o, v id = Some o → ∃ r, o = Ok r ∧ SessionRecord.session_id r = id)
      ∧ (∃ own, unfinished v own ∧ records ≡ₚ own ++ extra)
      ∧ Sorted session_le records
    | Err _ => True
    end
  | Remove id => λ res v',
    match res with
    | Ok _ => removed id v v'
    | Err _ => unchanged v v' ∨ removed id v v'
    end
  end.
End StoreOp.

Section Write.
Context (who : Caller.t) (s : FileStateStore.t) (r : SessionRecord.t).
Let sid := SessionRecord.session_id r.
Let target := FileStateStore.state_path s sid.

(** The target was there, or was not, when the write began. *)
Lemma write_Ok_before replace schedule d d' rest :
  disk_wf d → run who (FileStateStore.write_atomic s r replace) schedule d = (Ok tt, d', rest) →
  (live d target = None ↔ replace = false).
Proof.
  intros Hwf (? & d1 & mid & Hroot & Hr)%run_Ok_inv.
  apply (run_calm who (FileStateStore.root s)) in Hroot as [Hwf1 Hc1]; [|apply calm_ensure_root|done].
  apply run_Ok_inv in Hr as (? & d2 & mid2 & Hv & _). clear d' rest.
  fold sid target in Hv.
  assert (live d1 target = live d target) as <- by (by apply (live_Calm s)).
  rewrite <-lookup_live.
  unfold validate_target_for_write in Hv. rewrite run_act_bind, run_attempt, run_sys in Hv.
  unfold exec in Hv. destruct (Choice.injected _) as [e|] eqn:Hi; cbn [infallible] in Hv.
  - unfold Choice.injected in Hi. destruct (Choice.fail _) as [[]|]; simplify_eq; done.
  - cbn [perform] in Hv. destruct (Disk.lookup target d1) as [[i y]|]; destruct replace; try done.
Qed.

(** Whatever its result, a write leaves the other sessions alone and this
    one's file as it was or replaced. *)
Lemma write_view replace schedule d res d' rest :
  record_wf r → disk_wf d →
  run who (FileStateStore.write_atomic s r replace) schedule d = (res, d', rest) →
  disk_wf d' ∧ strays s d' ≡ₚ strays s d ∧
  ((res ≠ Ok tt ∧ StoreOp.unchanged (view s d) (view s d')) ∨ StoreOp.stored r (view s d) (view s d')).
Proof.
  intros Hr Hwf Hrun.
  destruct (wp_run _ _ _ _ _ _ _ _ _ (wp_write_atomic who s r replace d Hwf) Hrun) as [HC Hpost].
  assert (disk_wf d') as Hwf' by (destruct HC as [HB|(bytes & _ & HA)]; [exact (proj1 HB)|exact (proj1 HA)]).
  split; [done|]. split.
  { eapply (strays_Changes s _ _ _ _ Hwf (Crash_changes s r d d' HC)); [|done].
    intros name Hs [He|[He|(pid & tick & He)]]; [by eapply stray_not_root| |]; injection He as He.
    - by eapply stray_not_state.
    - by eapply stray_not_temporary. }
  assert (∀ id, id ≠ sid → view s d' id = view s d id) as Hother.
  { intros id Hid. unfold view. f_equal.
    apply (live_Changes _ _ _ _ _ Hwf (Crash_changes s r d d' HC)); [|done].
    unfold FileStateStore.state_path, join. intros [He|[He|(pid & tick & He)]].
    - apply (f_equal length) in He. cbn in He. lia.
    - injection He as He. by apply (inj state_name) in He.
    - injection He as He. by apply eq_sym, temporary_name_ne in He. }
  assert (∀ bytes, encode r = Ok bytes → After s r d bytes d' → StoreOp.stored r (view s d) (view s d'))
    as Hafter.
  { intros bytes He (_ & _ & i & x & Hn & Hx & Hd & _) id. unfold view_update.
    case_bool_decide as Hid; [|by apply Hother]. subst id. unfold view, live.
    rewrite (proj2 (lookup_Some _ d' i x) (conj Hn Hx)). cbn. rewrite Hd. f_equal. by apply decode_encoded. }
  destruct res as [[]|e].
  - right. destruct (Hpost eq_refl) as (bytes & He & HA & _). by eapply Hafter.
  - destruct HC as [HB|(bytes & He & HA)]; [left|right; by eapply Hafter].
    split; [done|]. intros id. destruct (decide (id = sid)) as [->|]; [|by apply Hother].
    unfold view. f_equal. destruct HB as (_ & Hc & Hk). by eapply name_kept_live.
Qed.
End Write.

(** ** Reading *)

Section Read.
Context (who : Caller.t) (s : FileStateStore.t).

Lemma store_load_run id schedule d res d' rest :
  disk_wf d → run who (FileStateStore.load s id) schedule d = (res, d', rest) →
  disk_wf d' ∧ StoreOp.spec (StoreOp.Load id) (strays s d) (view s d) res (view s d')
  ∧ strays s d' ≡ₚ strays s d.
Proof.
  intros Hwf Hrun.
  assert (wp who (Same s d) (FileStateStore.load s id) (λ res _,
    match res with
    | Ok r => holds_record s d (state_name id) r ∧ SessionRecord.session_id r = id
    | Err _ => True
    end) d) as Hwp.
  { unfold FileStateStore.load. apply wp_same_bind; [apply calm_ensure_root|by apply Same_start|done|].
    intros _ d1 HS1. by apply wp_load_path. }
  destruct (wp_run _ _ _ _ _ _ _ _ _ Hwp Hrun) as [[Hwf' Hc] Hres].
  split; [done|]. split; [|by apply strays_Calm]. split.
  - intros id'. by apply view_Calm.
  - destruct res as [r|e]; [|done]. destruct Hres as [(bytes & Hl & Hd) Hid]. split; [|done].
    unfold view, FileStateStore.state_path. rewrite Hl. cbn. by rewrite Hd.
Qed.

(** The unfinished records are those of the map and the strays. *)
Lemma entries_split d l :
  omap (entry_record s d) l
  ≡ₚ omap (entry_record s d) (filter (λ name, proper_entry name = true) l)
     ++ omap (entry_record s d) (filter (λ name, stray_entry name = true) l).
Proof.
  assert (∀ name, entry_record s d name = None ∨ proper_entry name = negb (stray_entry name)) as Hcase.
  { intros name. unfold entry_record, proper_entry, stray_entry.
    destruct (session_entry name); [right; by rewrite negb_involutive|by left]. }
  induction l as [|name l IH]; [done|]. rewrite !filter_cons. cbn.
  destruct (proper_entry name) eqn:Hp, (stray_entry name) eqn:Hs;
    destruct (entry_record s d name) eqn:E; destruct (Hcase name) as [Hn|Hn];
    rewrite ?Hp, ?Hs in Hn; try congruence; repeat case_decide; try done; cbn;
    rewrite ?E, IH; try done; apply Permutation_middle.
Qed.

Lemma entry_record_Some d name r :
  entry_record s d name = Some r ↔
  is_Some (session_entry name) ∧ holds_record s d name r ∧ session_state r ≠ SessionState.Restored.
Proof.
  unfold entry_record, holds_record. destruct (session_entry name) as [id|]; cbn; [|split; [done|by intros [[? ?] _]]].
  split.
  - destruct (live d _) as [bytes|]; [|done]. cbn. destruct (decode bytes) as [r'|e] eqn:Hd; [|done].
    case_bool_decide; [done|]. intros [= <-]. split_and!; [by eexists|by exists bytes|done].
  - intros (_ & (bytes & -> & Hd) & Hst). cbn. rewrite Hd. by rewrite bool_decide_eq_false_2.
Qed.

Lemma own_unfinished d :
  (∀ name id, name ∈ Disk.entries s.(FileStateStore.root) d → session_entry name = Some id →
     ∃ r, holds_record s d name r ∧ SessionRecord.session_id r = id) →
  StoreOp.unfinished (view s d)
    (omap (entry_record s d) (filter (λ name, proper_entry name = true) (Disk.entries s.(FileStateStore.root) d))).
Proof.
  intros Hall.
  assert (∀ name r, name ∈ Disk.entries s.(FileStateStore.root) d → proper_entry name = true →
    entry_record s d name = Some r → name = state_name (SessionRecord.session_id r)) as Hname.
  { intros name r Hin Hp (_ & (bytes & Hl & Hd) & _)%entry_record_Some. unfold proper_entry in Hp.
    destruct (session_entry name) as [id|] eqn:E; [|done]. apply bool_decide_eq_true in Hp.
    destruct (Hall _ _ Hin E) as (r' & (bytes' & Hl' & Hd') & <-). congruence. }
  split.
  - assert (NoDup (filter (λ name, proper_entry name = true) (Disk.entries (FileStateStore.root s) d))) as Hn
      by (by apply NoDup_filter, entries_NoDup).
    assert (∀ name r, name ∈ filter (λ name, proper_entry name = true) (Disk.entries (FileStateStore.root s) d) →
      entry_record s d name = Some r → name = state_name (SessionRecord.session_id r)) as Hf
      by (intros name r [? ?]%list_elem_of_filter; by apply Hname).
    clear -Hn Hf. induction Hn as [|name l Hx Hn IH]; cbn; [constructor|].
    destruct (entry_record s d name) as [r|] eqn:E; [|apply IH; set_solver]. cbn.
    constructor; [|apply IH; set_solver]. intros (r' & Hid & (name' & Hin & E')%list_elem_of_omap)%list_elem_of_fmap.
    apply Hf in E; [|by left]. apply Hf in E'; [|by right]. congruence.
  - intros r. rewrite list_elem_of_omap. setoid_rewrite list_elem_of_filter. split.
    + intros (name & [Hp Hin] & E). pose proof (Hname _ _ Hin Hp E) as ->.
      apply entry_record_Some in E as (_ & (bytes & Hl & Hd) & Hst). split; [|done].
      unfold view, FileStateStore.state_path. rewrite Hl. cbn. by rewrite Hd.
    + intros [Hv Hst]. unfold view in Hv. destruct (live d _) as [bytes|] eqn:Hl; [|done]. injection Hv as Hd.
      exists (state_name (SessionRecord.session_id r)). split; [split|].
      * unfold proper_entry. rewrite state_name_entry. by apply bool_decide_eq_true.
      * apply elem_of_entries. unfold live, Disk.lookup, FileStateStore.state_path in Hl.
        destruct (Disk.names d !! _); [by eexists|done].
      * apply entry_record_Some. rewrite state_name_entry. split_and!; [done|by exists bytes|done].
Qed.

Lemma load_unfinished_run schedule d res d' rest :
  disk_wf d → run who (FileStateStore.load_unfinished s) schedule d = (res, d', rest) →
  disk_wf d' ∧ StoreOp.spec StoreOp.LoadUnfinished (strays s d) (view s d) res (view s d')
  ∧ strays s d' ≡ₚ strays s d.
Proof.
  intros Hwf Hrun.
  assert (wp who (Same s d) (FileStateStore.load_unfinished s)
    (λ res _, match res with Ok records => scan_complete s d records | Err _ => True end) d) as Hwp
    by (apply wp_load_unfinished; [done|by apply Same_start|done|done]).
  destruct (wp_run _ _ _ _ _ _ _ _ _ Hwp Hrun) as [[Hwf' Hc] Hres].
  split; [done|]. split; [|by apply strays_Calm]. split.
  { intros id'. by apply view_Calm. }
  destruct res as [records|e]; [|done]. destruct Hres as (Hall & Hin & Hsorted). split_and!; [..|done].
  - intros id o Ho. unfold view in Ho. destruct (live d _) as [bytes|] eqn:Hl; [|done]. injection Ho as <-.
    destruct (Hall (state_name id) id) as (r & (bytes' & Hl' & Hd) & Hid).
    + apply elem_of_entries. unfold live, Disk.lookup, FileStateStore.state_path in Hl.
      destruct (Disk.names d !! _); [by eexists|done].
    + apply state_name_entry.
    + exists r. unfold FileStateStore.state_path in Hl. split; [congruence|done].
  - eexists. split; [by apply own_unfinished|]. rewrite Hin. apply entries_split.
Qed.
End Read.

(** ** Removal *)

Section Remove.
Context (who : Caller.t) (s : FileStateStore.t) (id : SessionId.t).
Let path := FileStateStore.state_path s id.

Lemma path_not_root : path ≠ FileStateStore.root s.
Proof. intros He. apply (f_equal length) in He. cbn in He. lia. Qed.

Lemma unlink_step ch r d d' :
  disk_wf d → exec who ch (Sys.Unlink path) d = (r, d') →
  disk_wf d' ∧
  match r with
  | Ok _ => StoreOp.removed id (view s d) (view s d')
  | Err ErrorKind.NotFound => StoreOp.removed id (view s d) (view s d')
  | Err _ => d' = d
  end ∧ strays s d' ≡ₚ strays s d.
Proof.
  intros Hwf Hr.
  assert (Changes (λ p, p = path) (λ _, False) d d') as Hc
    by (eapply exec_changes; [exact Hwf| |exact Hr]; done).
  assert (disk_wf d') as Hwf' by (by apply (proj1 (proj2 Hc))). split; [done|].
  split; [|eapply (strays_Changes s _ _ _ _ Hwf Hc); [|done]; intros name Hs He; injection He as He;
           by eapply stray_not_state].
  assert (live d' path = None → StoreOp.removed id (view s d) (view s d')) as Hremoved.
  { intros Hl id'. unfold view_update, view. case_bool_decide as Hid.
    - subst id'. fold path. by rewrite Hl.
    - f_equal. eapply live_Changes; [done|exact Hc| |done].
      unfold path, FileStateStore.state_path, join. intros He. injection He as He.
      by apply (inj state_name) in He. }
  unfold exec in Hr. destruct (Choice.injected ch) as [e|] eqn:Hi; cbn [infallible interrupted] in Hr.
  - injection Hr as <- <-. unfold Choice.injected in Hi.
    destruct (Choice.fail ch) as [[]|]; simplify_eq; done.
  - cbn [perform] in Hr. destruct (Disk.lookup path d) as [[i x]|] eqn:E.
    + destruct (FileType.is_dir _); injection Hr as <- <-; [done|].
      apply Hremoved, live_unbound. cbn. apply lookup_delete_eq.
    + injection Hr as <- <-. by apply Hremoved, lookup_live.
Qed.

Definition Gone (d0 d : Disk.t) : Prop :=
  disk_wf d ∧ StoreOp.removed id (view s d0) (view s d) ∧ strays s d ≡ₚ strays s d0.

Lemma Gone_calm d0 d d' :
  Gone d0 d → disk_wf d' → Calm (FileStateStore.root s) d d' → Gone d0 d'.
Proof.
  intros (Hwf & Hr & Hs) Hwf' Hc. split_and!; [done| |by rewrite <-Hs; apply strays_Calm].
  intros id'. rewrite <-Hr. by apply view_Calm.
Qed.

Definition remove_post (d0 : Disk.t) (res : Result unit) (d : Disk.t) : Prop :=
  StoreOp.spec (StoreOp.Remove id) (strays s d0) (view s d0) res (view s d) ∧ strays s d ≡ₚ strays s d0.

Lemma Same_unchanged d0 d :
  disk_wf d0 → Same s d0 d → StoreOp.unchanged (view s d0) (view s d) ∧ strays s d ≡ₚ strays s d0.
Proof. intros Hwf [Hwf' Hc]. split; [|by apply strays_Calm]. intros id'. by apply view_Calm. Qed.

Lemma Same_failed d0 d e : disk_wf d0 → Same s d0 d → remove_post d0 (Err e) d.
Proof. intros Hwf [Hv Hs]%Same_unchanged; [|done]. split; [by left|done]. Qed.

Lemma wp_before_unlink {A} d0 (m : Act SysboostError.t A) (k : A → Act SysboostError.t unit) d :
  disk_wf d0 → calm (FileStateStore.root s) m → Same s d0 d →
  (∀ a d', Same s d0 d' → wp who disk_wf (k a) (remove_post d0) d') →
  wp who disk_wf (m ≫= k) (remove_post d0) d.
Proof.
  intros Hwf Hm HS Hk. apply wp_act_bind.
  eapply (wp_phase who disk_wf (FileStateStore.root s) (Same s d0)); [done..| | |].
  - by intros d1 [? ?].
  - by apply Same_calm.
  - intros [a|e] d1 HS1; [by apply Hk|]. by apply Same_failed.
Qed.

Lemma wp_remove d0 :
  disk_wf d0 → wp who disk_wf (FileStateStore.remove s id) (remove_post d0) d0.
Proof.
  intros Hwf. unfold FileStateStore.remove. fold path.
  apply wp_before_unlink; [done|apply calm_ensure_root|by apply Same_start|]. intros _ d1 HS1.
  apply wp_before_unlink; [done|by calm|done|]. intros found d2 HS2.
  apply wp_before_unlink; [done|by destruct found; calm|done|]. intros _ d3 HS3.
  apply wp_act_bind, wp_attempt, wp_sys; [by destruct HS3|]. intros ch r d4 Hr.
  destruct (unlink_step ch r d3 d4 (proj1 HS3) Hr) as (Hwf4 & Hcase & Hstrays). split; [done|].
  assert (StoreOp.removed id (view s d3) (view s d4) → Gone d0 d4) as Hgone.
  { destruct (Same_unchanged d0 d3 Hwf HS3) as [Hv3 Hs3]. intros Hrm.
    split_and!; [done| |by rewrite Hstrays]. intros id'. rewrite Hrm. unfold view_update.
    case_bool_decide; [done|]. apply Hv3. }
  destruct r as [[]|e].
  - unfold durable. apply wp_map_err.
    eapply (wp_phase who disk_wf (FileStateStore.root s) (Gone d0));
      [apply calm_sync_directory|by apply Hgone|by intros d5 [? ?]|by apply Gone_calm|].
    intros [[]|e] d5 (_ & Hv & Hs); (split; [|done]); [done|by right].
  - destruct e; cbv beta iota; apply wp_ret; try done; try (subst d4; by apply Same_failed).
    destruct (Hgone Hcase) as (_ & Hv & Hs). by split.
Qed.
End Remove.

(** C5. The state store is a map from session IDs to records, [view].
    Whatever failures the kernel injects, an operation that succeeds did to the
    map, and reports of it, what its name says: [create] adds the record of a
    session that had none, [replace] overwrites one that had, [load] returns
    the record the map has for its session, and [remove] deletes.  The scan
    returns, in the order of the session IDs, the unfinished records of the
    map, all of them and each once, and beside them only the unfinished
    [strays]: the records in files named like [<id>.state.state], which the
    scan takes for a session although no operation reads or makes them; it
    fails if the map has a file that is not the record of its session.  An
    operation that fails left the map as it was or did the whole of its
    change; none touches another session, or makes or removes a stray. *)
Theorem file_store_refines_map who s {R} (op : StoreOp.t R) schedule d res d' rest :
  disk_wf d → StoreOp.wf op →
  run who (StoreOp.program s op) schedule d = (res, d', rest) →
  disk_wf d' ∧ StoreOp.spec op (strays s d) (view s d) res (view s d') ∧ strays s d' ≡ₚ strays s d.
Proof.
  intros Hwf Hop Hrun.
  destruct op as [r|r|id| |id]; cbn [StoreOp.program StoreOp.wf] in Hop, Hrun.
  - destruct (write_view _ _ _ _ _ _ _ _ _ Hop Hwf Hrun) as (Hwf' & Hs & Hv). split_and!; [done| |done].
    destruct res as [[]|e]; [|destruct Hv as [[_ ?]|?]; [by left|by right]].
    destruct Hv as [[? _]|Hv]; [done|]. split; [|done]. unfold view.
    by rewrite (proj2 (write_Ok_before _ _ _ _ _ _ _ _ Hwf Hrun) eq_refl).
  - destruct (write_view _ _ _ _ _ _ _ _ _ Hop Hwf Hrun) as (Hwf' & Hs & Hv). split_and!; [done| |done].
    destruct res as [[]|e]; [|destruct Hv as [[_ ?]|?]; [by left|by right]].
    destruct Hv as [[? _]|Hv]; [done|]. split; [|done]. unfold view.
    destruct (live d _) as [bytes|] eqn:El; [by eexists|].
    by apply (write_Ok_before _ _ _ _ _ _ _ _ Hwf Hrun) in El.
  - by eapply store_load_run.
  - by eapply load_unfinished_run.
  - exact (wp_run _ _ _ _ _ _ _ _ _ (wp_remove who s id d Hwf) Hrun).
Qed.

(** ** What the engine relies on *)

Lemma write_encodes who s r replace schedule d d' rest :
  run who (FileStateStore.write_atomic s r replace) schedule d = (Ok tt, d', rest) →
  validate_for_serialization r = Ok tt.
Proof.
  intros (? & d1 & s1 & _ & Hr)%run_Ok_inv. apply run_Ok_inv in Hr as (? & d2 & s2 & _ & Hr).
  apply run_Ok_inv in Hr as (bytes & d3 & s3 & He & _).
  by apply run_result_Ok, encode_Ok in He as [? _].
Qed.

Lemma load_decodes who s id schedule d r d' rest :
  run who (FileStateStore.load s id) schedule d = (Ok r, d', rest) →
  validate_for_serialization r = Ok tt.
Proof.
  intros (? & d1 & s1 & _ & Hr)%run_Ok_inv. apply run_Ok_inv in Hr as (bytes & d2 & s2 & _ & Hr).
  apply run_Ok_inv in Hr as (r' & d3 & s3 & Hd & Hr).
  apply run_result_Ok, decode_valid in Hd as [_ Hv].
  destruct (negb _); [done|]. by injection Hr as <- _ _.
Qed.

Lemma on_disk_Ok {A} (m : FileStateStore.t → Act SysboostError.t A) (h h' : HostStore.t) a :
  HostStore.on_disk m h = (Ok a, h') →
  run h.(HostStore.who) (m h.(HostStore.store)) h.(HostStore.schedule) h.(HostStore.disk)
  = (Ok a, h'.(HostStore.disk), h'.(HostStore.schedule)).
Proof.
  unfold HostStore.on_disk. destruct (run _ _ _ _) as [[r d] rest]. by intros [= -> <-].
Qed.

(** The file store keeps the promises the transaction engine is proved
    against. *)
#[export] Instance host_store_laws : StoreLaws.t HostStore.t.
Proof.
  split.
  - intros r h h' Hr. apply (on_disk_Ok (λ s, FileStateStore.create s r)) in Hr.
    exact (write_encodes _ _ _ _ _ _ _ _ Hr).
  - intros r h h' Hr. apply (on_disk_Ok (λ s, FileStateStore.replace s r)) in Hr.
    exact (write_encodes _ _ _ _ _ _ _ _ Hr).
  - intros id r h h' Hr. apply (on_disk_Ok (λ s, FileStateStore.load s id)) in Hr.
    exact (load_decodes _ _ _ _ _ _ _ _ Hr).
Qed.
