(* ===== verification/LockSafety.v ===== *)
(** * Processes that share the disk, and what the process lock promises

    A pool of processes, each running a program; at any moment any of them
    makes its next call.  [swp I p Q] verifies one process against an
    invariant [I] of the disk that all keep: between two calls of the
    process the disk may change in any way that keeps [I].  [Holding m] is
    such an invariant: some files keep their inodes and contents. *)
From Stdlib Require Import Strings.Byte.
From stdpp Require Import relations.
From Stdlib Require Import Strings.Byte Strings.Ascii.
From stdpp Require Import relations pretty.
From S2P Require Import Prelude Lists FileSystem FsLogic Text Str Ids Process Lock.
From S2P Require Import StateStore StoreAtomic.
Local Open Scope N_scope.
Unset Default Proof Using.

(** ** Pools *)

Notation Pool R := (list (Caller.t * Prog R)).

Inductive pool_step {R} : Pool R * Disk.t → Pool R * Disk.t → Prop :=
| pool_call k who X (c : Sys.t X) kont ch r d d' (ts : Pool R) :
    ts !! k = Some (who, Call c kont) → exec who ch c d = (r, d') →
    pool_step (ts, d) (<[k := (who, kont r)]> ts, d').

Fixpoint swp (who : Caller.t) (I : Disk.t → Prop) {A} (p : Prog A) (Q : A → Prop) : Prop :=
  match p with
  | Ret a => Q a
  | Call c k => ∀ ch d r d', I d → exec who ch c d = (r, d') → I d' ∧ swp who I (k r) Q
  end.

Section Rules.
Context (who : Caller.t) (I : Disk.t → Prop).

Lemma swp_mono {A} (p : Prog A) (Q Q' : A → Prop) :
  swp who I p Q → (∀ a, Q a → Q' a) → swp who I p Q'.
Proof.
  intros Hp HQ. induction p as [a|R c k IH]; cbn in *; [auto|].
  intros ch d r d' HI Hr. destruct (Hp ch d r d' HI Hr). auto.
Qed.

Lemma swp_bind {A B} (p : Prog A) (f : A → Prog B) Q :
  swp who I p (λ a, swp who I (f a) Q) → swp who I (prog_bind p f) Q.
Proof.
  intros Hp. induction p as [a|R c k IH]; cbn in *; [done|].
  intros ch d r d' HI Hr. destruct (Hp ch d r d' HI Hr). auto.
Qed.

Lemma swp_act_bind {E A B} (m : Act E A) (f : A → Act E B) (Q : result E B → Prop) :
  swp who I m (λ r, match r with Ok a => swp who I (f a) Q | Err e => Q (Err e) end) →
  swp who I (m ≫= f) Q.
Proof. intros Hm. apply swp_bind. eapply swp_mono; [exact Hm|]. by intros [a|e]. Qed.

Lemma swp_sys {R} (c : Sys.t R) (Q : io R → Prop) :
  (∀ ch d r d', I d → exec who ch c d = (r, d') → I d' ∧ Q r) → swp who I (sys c) Q.
Proof. done. Qed.

Lemma swp_result_bind {E A B} (r : result E A) (f : A → Act E B) (Q : result E B → Prop) :
  match r with Ok a => swp who I (f a) Q | Err e => Q (Err e) end →
  swp who I (of_result r ≫= f) Q.
Proof. by destruct r. Qed.

Lemma swp_map_err {E F A} (g : E → F) (m : Act E A) (Q : result F A → Prop) :
  swp who I m (λ r, Q (map_err g r)) → swp who I (act_map_err g m) Q.
Proof. intros Hm. by apply swp_bind. Qed.

Lemma swp_attempt {E F A} (m : Act E A) (Q : result F (result E A) → Prop) :
  swp who I m (λ r, Q (Ok r)) → swp who I (attempt m) Q.
Proof. intros Hm. by apply swp_bind. Qed.
End Rules.

(** Verified processes keep the invariant and end as they promise, whatever
    the interleaving. *)
Lemma pool_safe {R} (I : Disk.t → Prop) (Q : R → Prop) (ts ts' : Pool R) d d' :
  I d → (∀ who p, (who, p) ∈ ts → swp who I p Q) → rtc pool_step (ts, d) (ts', d') →
  I d' ∧ ∀ who p, (who, p) ∈ ts' → swp who I p Q.
Proof.
  intros HI Hts Hs. remember (ts, d) as s eqn:Es. remember (ts', d') as s' eqn:Es'.
  revert ts d HI Hts Es Es'. induction Hs as [s|s1 s2 s3 H12 _ IH]; intros ts d HI Hts Es Es'.
  { rewrite Es in Es'. by injection Es' as <- <-. }
  destruct H12 as [k who X c kont ch r d0 d1 ts0 Hk Hr]. injection Es as -> ->.
  assert (swp who I (Call c kont) Q) as Hp by (eapply Hts, list_elem_of_lookup_2, Hk).
  destruct (Hp _ _ _ _ HI Hr) as [HI1 Hp1]. eapply IH; [exact HI1| |done|exact Es'].
  intros who' p' [j Hj]%list_elem_of_lookup.
  destruct (decide (j = k)) as [Hjk|Hne]; [subst j|].
  - rewrite list_lookup_insert_eq in Hj by (by eapply lookup_lt_Some). by injection Hj as <- <-.
  - rewrite list_lookup_insert_ne in Hj by done. by eapply Hts, list_elem_of_lookup_2.
Qed.

(** ** Files that stay *)

Definition pinned (p : Path) (i : N) (l : list byte) (d : Disk.t) : Prop :=
  d.(Disk.names) !! p = Some i
  ∧ ∃ x, d.(Disk.inodes) !! i = Some x ∧ x.(Inode.data) = l ∧ x.(Inode.file_type) = FileType.File.

Definition Holding (m : gmap Path (N * list byte)) (d : Disk.t) : Prop :=
  disk_wf d ∧ ∀ p i l, m !! p = Some (i, l) → pinned p i l d.

Lemma Changes_Holding (T : Path → Prop) (W : N → Prop) m d d' :
  Changes T W d d' → Holding m d →
  (∀ p i l, m !! p = Some (i, l) → ¬ T p ∧ ¬ W i) → Holding m d'.
Proof.
  intros (_ & Hwf' & Hino & Hnames) [Hwf Hm] Hspare. split; [by apply Hwf'|].
  intros p i l Hp. destruct (Hspare p i l Hp) as [HT HW].
  destruct (Hm p i l Hp) as (Hn & x & Hx & Hd & Hf).
  split; [by rewrite (proj1 (Hnames p HT))|].
  destruct (Hino i HW x Hx) as (x' & Hx' & ? & ? & _). exists x'. split_and!; [done|congruence..].
Qed.

(** A name that is bound cannot be created. *)
Lemma exec_create_bound who ch {R} (c : Sys.t R) p r d d' :
  match c with Sys.Mkdir q _ | Sys.OpenNew q _ => q = p | _ => False end →
  is_Some (d.(Disk.names) !! p) → exec who ch c d = (r, d') → d' = d ∧ is_ok r = false.
Proof.
  intros Hc Hp Hr. unfold exec in Hr.
  destruct (Choice.injected ch) as [e|]; destruct c; try done; subst; cbn [infallible interrupted perform] in Hr;
    [by injection Hr as <- <-|by injection Hr as <- <-|..];
    rewrite bool_decide_eq_true_2 in Hr by done; by injection Hr as <- <-.
Qed.

(** A calm call cannot disturb them, even one that would create. *)
Lemma exec_Holding m who ch root {R} (c : Sys.t R) r d d' :
  Holding m d → calm_call root c → exec who ch c d = (r, d') → Holding m d'.
Proof.
  intros HH Hc Hr. destruct (decide (is_Some (d.(Disk.names) !! root))) as [Hroot|Hroot].
  - destruct (decide (d' = d)) as [->|Hne]; [done|].
    assert (touches (λ _, False) (λ _, False) c) as Ht.
    { destruct c; try done; cbn in Hc; subst. destruct Hne.
      by destruct (exec_create_bound who ch (Sys.Mkdir root mode) root r d d' eq_refl Hroot Hr). }
    eapply Changes_Holding; [eapply exec_changes; [apply HH|exact Ht|exact Hr]|done|]. tauto.
  - eapply Changes_Holding; [eapply exec_changes; [apply HH|apply calm_touches, Hc|exact Hr]|done|].
    cbn. intros p i l Hp. split; [|tauto]. intros ->.
    destruct (proj2 HH root i l Hp) as [Hn _]. rewrite Hn in Hroot. by destruct Hroot.
Qed.

Lemma swp_calm who m root {A} (p : Prog A) (Q : A → Prop) :
  calm root p → (∀ a, Q a) → swp who (Holding m) p Q.
Proof.
  intros Hc HQ. induction p as [a|R c k IH]; cbn; [done|].
  intros ch d r d' HH Hr. destruct Hc as [Hc Hk]. split; [by eapply exec_Holding|]. by apply IH.
Qed.

Lemma swp_calm_bind who m root {E A B} (p : Act E A) (f : A → Act E B) (Q : result E B → Prop) :
  calm root p → (∀ e, Q (Err e)) → (∀ a, swp who (Holding m) (f a) Q) →
  swp who (Holding m) (p ≫= f) Q.
Proof. intros Hp He Hf. eapply swp_act_bind, swp_calm; [exact Hp|]. by intros [a|e]. Qed.

(** ** Running a pool *)

(** The calls go through; a turn of a process that has ended is skipped. *)
Definition pool_turn {R} (s : Pool R * Disk.t) (k : nat) : Pool R * Disk.t :=
  let '(ts, d) := s in
  match ts !! k with
  | Some (who, Call c kont) =>
    let '(r, d') := exec who Choice.calm c d in (<[k := (who, kont r)]> ts, d')
  | _ => s
  end.
Definition pool_run {R} (turns : list nat) (s : Pool R * Disk.t) : Pool R * Disk.t :=
  foldl pool_turn s turns.

Lemma pool_run_steps {R} turns (s : Pool R * Disk.t) : rtc pool_step s (pool_run turns s).
Proof.
  revert s. induction turns as [|k turns IH]; intros s; [done|].
  etrans; [|apply IH]. destruct s as [ts d]. cbn [pool_turn].
  destruct (ts !! k) as [[who [a|X c kont]]|] eqn:Hk; [done| |done].
  destruct (exec who Choice.calm c d) as [r d'] eqn:Hr.
  apply rtc_once. by eapply pool_call.
Qed.

(** * What the process lock promises

    The owner written to the lock file reads back; a lock file whose owner is
    alive, or that does not name an owner, excludes every contender whatever
    the interleaving.  [LockAcquire] proves what a successful acquisition
    leaves behind.  Two contenders that reclaim the same stale lock can both
    get it ([stale_lock_race] in [StoreWitnesses]): the check of the file's
    identity and its removal are two calls. *)
Local Open Scope N_scope.
Unset Default Proof Using.

(** ** The owner record *)

(** Digits and hexadecimal digits are characters of a line. *)
Definition plain (c : ascii) : bool := is_ascii c && line_char c.

Lemma digit_plain c : is_digit c = true → plain c = true.
Proof. by destruct c as [[] [] [] [] [] [] [] []]. Qed.
Lemma hex_plain c : is_hex c = true → plain c = true.
Proof. by destruct c as [[] [] [] [] [] [] [] []]. Qed.

Lemma pretty_plain (x : N) : all_chars plain (pretty x) = true.
Proof. eapply all_chars_impl; [apply digit_plain|apply pretty_N_digits]. Qed.

Lemma hex_chars_plain l : all_chars plain (string_of_bytes (encode_hex l)) = true.
Proof. eapply all_chars_impl; [apply hex_plain|apply encode_hex_chars]. Qed.

Definition owner_lines (x : ProcessIdentity.t) : list string :=
  ["version=1";
   "pid=" +:+ pretty x.(ProcessIdentity.pid);
   "start=" +:+ pretty x.(ProcessIdentity.generation);
   "boot=" +:+ string_of_bytes (encode_hex x.(ProcessIdentity.boot_id))]%string.

Lemma owner_lines_plain x : Forall (λ s, all_chars plain s = true) (owner_lines x).
Proof.
  repeat constructor; rewrite all_chars_app; cbn [all_chars];
    [apply pretty_plain|apply pretty_plain|apply hex_chars_plain].
Qed.

Lemma owner_text x : from_utf8 (encode_lock_owner x) = Some (unlines (owner_lines x)).
Proof.
  apply from_utf8_of_string, ascii_utf8, all_chars_unlines; [done|].
  eapply Forall_impl; [apply owner_lines_plain|]. intros s. apply all_chars_impl.
  intros c. unfold plain. by destruct (is_ascii c).
Qed.

Lemma owner_split x : lines (unlines (owner_lines x)) = owner_lines x.
Proof.
  apply lines_unlines. eapply Forall_impl; [apply owner_lines_plain|]. intros s.
  apply all_chars_impl. intros c. unfold plain. by destruct (is_ascii c).
Qed.

Lemma decode_hex_16_encode (v : array 16) : decode_hex_16 (string_of_bytes (encode_hex v)) = Some v.
Proof.
  unfold decode_hex_16, str_len. rewrite bytes_of_string_of, length_encode_hex, length_vec_to_list.
  cbn [negb N.eqb]. change (negb _) with false. cbv iota. rewrite decode_encode_hex. cbn.
  by rewrite array_copy_vec.
Qed.

Lemma lock_field name value :
  value ≠ ""%string → parse_lock_field (name +:+ "=" +:+ value) name = Ok value.
Proof.
  intros Hv. unfold parse_lock_field. rewrite <-str_app_assoc.
  rewrite (proj2 (strip_prefix_Some _ _ value) eq_refl). by rewrite bool_decide_eq_false_2.
Qed.

Lemma hex_ne (v : array 16) : string_of_bytes (encode_hex v) ≠ ""%string.
Proof. inv_vec v. intros b v. done. Qed.

Lemma lock_owner_round_trip_aux (x : ProcessIdentity.t) :
  ProcessIdentity.wf x → x.(ProcessIdentity.pid) ≠ 0 → ProcessIdentity.strong x →
  parse_lock_owner (encode_lock_owner x) = Ok x ∧ N.of_nat (length (encode_lock_owner x)) ≤ 256.
Proof.
  intros [Hp Hg] Hne Hs. split.
  - unfold parse_lock_owner. rewrite owner_text. cbn [ok_or]. unfold mbind at 1, result_bind at 1.
    rewrite owner_split. unfold owner_lines. rewrite bool_decide_eq_true_2 by done. cbn [negb].
    destruct (pretty_N_digits x.(ProcessIdentity.pid)) as [_ Hpne].
    destruct (pretty_N_digits x.(ProcessIdentity.generation)) as [_ Hgne].
    rewrite (lock_field "pid" _ Hpne : parse_lock_field ("pid=" +:+ _) "pid" = _). cbn.
    rewrite (parse_uint_pretty 32) by done. cbn.
    rewrite (lock_field "start" _ Hgne : parse_lock_field ("start=" +:+ _) "start" = _). cbn.
    rewrite (parse_uint_pretty 64) by done. cbn.
    rewrite (lock_field "boot" _ (hex_ne _) : parse_lock_field ("boot=" +:+ _) "boot" = _). cbn.
    rewrite decode_hex_16_encode. cbn.
    assert (ProcessIdentity.with_boot_id x.(ProcessIdentity.pid) x.(ProcessIdentity.generation)
              x.(ProcessIdentity.boot_id) = Ok x) as ->; [|done].
    apply with_boot_id_Ok. by destruct x.
  - unfold encode_lock_owner. rewrite length_bytes_of_string. unfold unlines. cbn [foldr].
    repeat (rewrite !str_length_app; cbn [String.length]).
    pose proof (length_pretty 10 x.(ProcessIdentity.pid) ltac:(lia)) as Hlp.
    pose proof (length_pretty 20 x.(ProcessIdentity.generation) ltac:(lia)) as Hlg.
    pose proof (length_bytes_of_string (string_of_bytes (encode_hex x.(ProcessIdentity.boot_id)))) as Hlb.
    rewrite bytes_of_string_of, length_encode_hex, length_vec_to_list in Hlb.
    unfold fits in Hp, Hg. change (2 ^ 32) with 4294967296 in Hp.
    change (2 ^ 64) with 18446744073709551616 in Hg.
    change (10 ^ N.of_nat 10) with 10000000000 in Hlp.
    change (10 ^ N.of_nat 20) with 100000000000000000000 in Hlg. lia.
Qed.

(** The owner a process writes into its lock file is read back, in a
    file small enough for the reader's bound. *)
Theorem lock_owner_round_trip (x : ProcessIdentity.t) :
  ProcessIdentity.wf x → x.(ProcessIdentity.pid) ≠ 0 → ProcessIdentity.strong x →
  parse_lock_owner (encode_lock_owner x) = Ok x ∧ N.of_nat (length (encode_lock_owner x)) ≤ 256.
Proof. apply lock_owner_round_trip_aux. Qed.

(** ** A lock that is held *)

(** The files of [/proc] say that the process of [x] is alive. *)
Definition alive (m : gmap Path (N * list byte)) (x : ProcessIdentity.t) : Prop :=
  (∃ i l t, m !! stat_path x.(ProcessIdentity.pid) = Some (i, l) ∧ from_utf8 l = Some t
     ∧ parse_start_time t = Some x.(ProcessIdentity.generation))
  ∧ ∃ i l t, m !! BOOT_ID = Some (i, l) ∧ from_utf8 l = Some t
     ∧ parse_boot_id t = Ok x.(ProcessIdentity.boot_id).

(** Contents of a lock file that may not be reclaimed: the owner is alive, or
    they do not name one. *)
Definition blocking (m : gmap Path (N * list byte)) (l : list byte) : Prop :=
  match parse_lock_owner l with Ok x => alive m x | Err _ => True end.

Section Contender.
Context (who : Caller.t) (m : gmap Path (N * list byte)).

Lemma swp_read_to_string p i l (Q : io string → Prop) :
  m !! p = Some (i, l) → (∀ e, e ≠ ErrorKind.NotFound → Q (Err e)) →
  (∀ t, from_utf8 l = Some t → Q (Ok t)) →
  swp who (Holding m) (read_to_string p) Q.
Proof.
  intros Hp Herr Hok. unfold read_to_string. apply swp_act_bind, swp_sys. intros ch d r d' HH Hr.
  split; [by eapply (exec_Holding m who ch [] (Sys.ReadFile p))|].
  destruct (proj2 HH p i l Hp) as (Hn & x & Hx & Hd & Hf).
  unfold exec in Hr. destruct (Choice.injected ch) as [e|] eqn:Hi; cbn [infallible] in Hr.
  - injection Hr as <- <-. apply Herr. intros ->. unfold Choice.injected in Hi.
    by destruct (Choice.fail ch) as [[]|].
  - cbn [perform] in Hr. rewrite (proj2 (lookup_Some p d i x) (conj Hn Hx)) in Hr.
    rewrite Hf in Hr. cbn in Hr. injection Hr as <- <-. cbn. rewrite Hd.
    destruct (from_utf8 l) as [t|]; cbn; [by apply Hok|by apply Herr].
Qed.

(** Probing a process that is alive finds it or fails. *)
Lemma swp_probe x (Q : Result (option ProcessIdentity.t) → Prop) :
  alive m x → ProcessIdentity.strong x → (∀ e, Q (Err e)) → Q (Ok (Some x)) →
  swp who (Holding m) (probe_process x.(ProcessIdentity.pid)) Q.
Proof.
  intros [(i & l & t & Hm & Ht & Hg) (j & l' & t' & Hm' & Ht' & Hb)] Hs Herr Hok.
  unfold probe_process. apply swp_act_bind, swp_attempt. eapply swp_read_to_string; [exact Hm|..].
  { intros [] He; try done; apply Herr. }
  intros t0 Ht0. assert (t0 = t) as -> by congruence. cbv beta iota. apply swp_result_bind. rewrite Hg. cbn [ok_or].
  apply swp_act_bind. unfold read_boot_id. apply swp_act_bind, swp_map_err.
  eapply swp_read_to_string; [exact Hm'|intros e _; apply Herr|].
  intros t1 Ht1. assert (t1 = t') as -> by congruence. cbn. rewrite Hb.
  destruct (ProcessIdentity.with_boot_id _ _ _) as [y|e] eqn:Hy; cbn; [|apply Herr].
  apply with_boot_id_Ok in Hy as [-> _]. by destruct x.
Qed.

Lemma swp_read_pinned p i l policy n (Q : Result (list byte) → Prop) :
  n < 2 ^ 64 - 1 → m !! p = Some (i, l) → (∀ e, Q (Err e)) → Q (Ok l) →
  swp who (Holding m) (read_verified_file p policy n) Q.
Proof.
  intros Hn Hp Herr Hok. unfold read_verified_file. apply swp_act_bind, swp_map_err, swp_sys.
  intros ch d r d' HH Hr.
  split; [by eapply (exec_Holding m who ch [] (Sys.OpenRead p false))|].
  destruct (proj2 HH p i l Hp) as (Hnm & x & Hx & Hd & Hf).
  destruct r as [f|e]; cbn [map_err]; [|apply Herr].
  assert (File.ino f = i) as Hfi.
  { unfold exec in Hr. destruct (Choice.injected ch); [done|]. cbn [perform] in Hr.
    rewrite (proj2 (lookup_Some p d i x) (conj Hnm Hx)) in Hr. rewrite Hf in Hr. cbn in Hr.
    by injection Hr as <- <-. }
  clear d d' HH Hr Hnm x Hx Hd Hf.
  apply swp_act_bind. eapply (swp_calm who m []); [apply calm_open_file|].
  intros [id|e]; [|apply Herr]. apply swp_act_bind, swp_map_err, swp_sys. intros ch' d r d' HH Hr.
  split; [by eapply (exec_Holding m who ch' [] (Sys.ReadUpTo f _))|].
  destruct r as [bytes|e]; cbn [map_err]; [|apply Herr].
  destruct (proj2 HH p i l Hp) as (Hnm & x & Hx & Hd & Hf).
  assert (bytes = take (N.to_nat (saturating_add64 n 1)) l) as Hb.
  { unfold exec in Hr. destruct (Choice.injected ch'); [done|]. cbn [perform] in Hr.
    rewrite Hfi, Hx, Hf in Hr. cbn in Hr. injection Hr as <- _. by rewrite Hd. }
  destruct (N.ltb_spec n (N.of_nat (length bytes))) as [Hlt|Hle]; [apply Herr|].
  assert (bytes = l) as ->; [|exact Hok]. rewrite Hb. apply take_ge.
  rewrite Hb, length_take in Hle. unfold saturating_add64 in *.
  replace (n + 1 `min` (2 ^ 64 - 1)) with (n + 1) in * by lia. lia.
Qed.

Context (root : Path) (i : N) (l : list byte).
Hypothesis Hlock : m !! join root LOCK_NAME = Some (i, l).
Hypothesis Hblocking : blocking m l.

(** A lock that blocks is not reclaimed. *)
Lemma swp_reclaim policy (Q : Result bool → Prop) :
  (∀ e, Q (Err e)) → Q (Ok false) →
  swp who (Holding m) (reclaim_stale_lock (join root LOCK_NAME) policy) Q.
Proof.
  intros Herr Hok. unfold reclaim_stale_lock.
  eapply (swp_calm_bind who m []); [apply calm_regular_path|done|]. intros id.
  apply swp_act_bind. eapply swp_read_pinned; [done|exact Hlock|done|].
  apply swp_result_bind. unfold blocking in Hblocking.
  destruct (parse_lock_owner l) as [x|e] eqn:Hx; [|apply Herr].
  assert (ProcessIdentity.strong x) as Hs.
  { clear -Hx. unfold parse_lock_owner in Hx. destruct (from_utf8 l); [|done]. cbn in Hx.
    destruct (lines _) as [|v [|p [|st [|b [|]]]]]; try done.
    destruct (negb _); [done|].
    apply bind_Ok in Hx as (? & _ & Hx). apply bind_Ok in Hx as (? & _ & Hx).
    apply bind_Ok in Hx as (? & _ & Hx). apply bind_Ok in Hx as (? & _ & Hx).
    apply bind_Ok in Hx as (? & _ & Hx). apply bind_Ok in Hx as (? & _ & Hx).
    destruct (ProcessIdentity.with_boot_id _ _ _) eqn:E; [|done].
    apply with_boot_id_Ok in E as (-> & _ & ?). by injection Hx as <-. }
  apply swp_act_bind. apply (swp_probe x); [done|done|apply Herr|].
  assert (ProcessIdentity.same_generation x x = true) as -> by (by apply same_generation_true).
  exact Hok.
Qed.

(** No attempt creates the file while it is there. *)
Lemma swp_attempt_body policy owner :
  swp who (Holding m) (FileSessionLock.attempt_body (FileSessionLock.mk root policy) owner None)
    (λ '(r, c), is_ok r = false ∧ c = None).
Proof.
  unfold FileSessionLock.attempt_body. cbn. intros ch d r d' HH Hr.
  assert (is_Some (d.(Disk.names) !! join root LOCK_NAME)) as Hbound
    by (destruct (proj2 HH _ _ _ Hlock) as [-> _]; eauto).
  destruct (exec_create_bound who ch (Sys.OpenNew _ _) (join root LOCK_NAME) r d d' eq_refl Hbound Hr)
    as [-> Herr].
  split; [done|]. by destruct r.
Qed.

Lemma swp_acquire policy :
  swp who (Holding m) (FileSessionLock.acquire (FileSessionLock.mk root policy))
    (λ r, is_ok r = false).
Proof.
  unfold FileSessionLock.acquire.
  eapply (swp_calm_bind who m root); [apply calm_ensure_root|done|]. intros _.
  eapply (swp_calm_bind who m root); [|done|].
  { unfold current_process_identity, probe_process, read_boot_id, read_to_string. calm. }
  intros owner. cbn [FileSessionLock.acquire_loop]. apply swp_bind.
  eapply swp_mono; [apply swp_attempt_body|]. intros [[x|e] c] [Hr Hc]; [done|]. subst c.
  destruct e; try done. apply swp_act_bind, swp_reclaim; done.
Qed.
End Contender.

Lemma blocking_excludes (root : Path) (m : gmap Path (N * list byte)) (i : N) (l : list byte)
    (ts ts' : Pool (Result FileSessionLockGuard.t)) (d d' : Disk.t) :
  Holding m d → m !! join root LOCK_NAME = Some (i, l) → blocking m l →
  (∀ who p, (who, p) ∈ ts → ∃ policy, p = FileSessionLock.acquire (FileSessionLock.mk root policy)) →
  rtc pool_step (ts, d) (ts', d') →
  pinned (join root LOCK_NAME) i l d' ∧ ∀ who r, (who, Ret r) ∈ ts' → is_ok r = false.
Proof.
  intros HH Hlock Hb Hts Hs.
  destruct (pool_safe (Holding m) (λ r, is_ok r = false) ts ts' d d') as [HH' Hts']; [done| |done|].
  { intros who p Hp. destruct (Hts who p Hp) as [policy ->]. by eapply swp_acquire. }
  split; [by apply HH'|]. intros who r Hr. exact (Hts' who (Ret r) Hr).
Qed.

(** C12. A lock that is held is exclusive.  Let a lock file name a process
    that [/proc] shows alive, with the same start and boot, or not name an
    owner at all.  Then in every interleaving of any number of contending
    processes, with any failures, no contender acquires the lock and the lock
    file stays as it is. *)
Theorem held_lock_excludes (root : Path) (m : gmap Path (N * list byte)) (i : N) (l : list byte)
    (ts ts' : Pool (Result FileSessionLockGuard.t)) (d d' : Disk.t) :
  Holding m d → m !! join root LOCK_NAME = Some (i, l) → blocking m l →
  (∀ who p, (who, p) ∈ ts → ∃ policy, p = FileSessionLock.acquire (FileSessionLock.mk root policy)) →
  rtc pool_step (ts, d) (ts', d') →
  pinned (join root LOCK_NAME) i l d' ∧ ∀ who r, (who, Ret r) ∈ ts' → is_ok r = false.
Proof. apply blocking_excludes. Qed.
