(* ===== verification/LockAcquire.v ===== *)
(** * A lock that was acquired

    After a successful [acquire] the lock file is the caller's own: it names
    the live caller, a power loss cannot take it back, and from then on no
    contender gets the lock. *)
From Stdlib Require Import Strings.Byte Strings.Ascii.
From stdpp Require Import relations pretty.
From S2P Require Import Prelude Lists Text Str Ids Process FileSystem FsLogic.
From S2P Require Import LockSafety Lock StateStore StoreAtomic StoreRefine.
Local Open Scope N_scope.
Unset Default Proof Using.

(** ** What the caller learnt of itself *)

Definition holds_text (d : Disk.t) (p : Path) (t : string) : Prop :=
  ∃ i l, pinned p i l d ∧ from_utf8 l = Some t.

Lemma read_to_string_run who p schedule d t d' rest :
  run who (read_to_string p) schedule d = (Ok t, d', rest) → d' = d ∧ holds_text d p t.
Proof.
  intros (bytes & d1 & mid & Hr & Ht)%run_Ok_inv. cbn in Ht. injection Ht as Ht <- _.
  rewrite run_sys in Hr. unfold exec in Hr. destruct (Choice.injected _); [done|].
  cbn [perform] in Hr. destruct (Disk.lookup p d) as [[i x]|] eqn:Hl; [|done].
  unfold FileType.is_file in Hr. case_bool_decide as Hf; [|done].
  injection Hr as <- <- _. split; [done|]. apply lookup_Some in Hl as [Hn Hx].
  exists i, (Inode.data x). split; [split; [done|eauto]|]. by apply ok_or_Ok in Ht.
Qed.

(** The files say who the process is. *)
Definition identified (d : Disk.t) (x : ProcessIdentity.t) : Prop :=
  (∃ t, holds_text d (stat_path x.(ProcessIdentity.pid)) t
        ∧ parse_start_time t = Some x.(ProcessIdentity.generation))
  ∧ (∃ t, holds_text d BOOT_ID t ∧ parse_boot_id t = Ok x.(ProcessIdentity.boot_id))
  ∧ x.(ProcessIdentity.pid) ≠ 0 ∧ ProcessIdentity.strong x.

Lemma probe_run who pid schedule d x d' rest :
  run who (probe_process pid) schedule d = (Ok (Some x), d', rest) →
  d' = d ∧ x.(ProcessIdentity.pid) = pid ∧ identified d x.
Proof.
  intros (found & d1 & mid & Hr & Hk)%run_Ok_inv. rewrite run_attempt in Hr.
  destruct (run who (read_to_string (stat_path pid)) schedule d) as [[r d2] mid2] eqn:E.
  injection Hr as <- -> ->. destruct r as [t|e]; [|by destruct e].
  apply read_to_string_run in E as [-> Ht].
  apply run_Ok_inv in Hk as (g & d1 & m1 & Hg & Hk).
  cbn in Hg. injection Hg as Hg <- _.
  apply run_Ok_inv in Hk as (b & d1 & m2 & Hb & Hk).
  apply run_Ok_inv in Hb as (t' & d2 & m3 & Hr & Hb).
  unfold act_map_err in Hr. rewrite run_bind in Hr.
  destruct (run who (read_to_string BOOT_ID) m1 d) as [[[t2|e] d3] m4] eqn:E; [|done].
  cbn in Hr. injection Hr as -> -> _. apply read_to_string_run in E as [-> Ht'].
  cbn in Hb. injection Hb as Hb <- _.
  apply run_Ok_inv in Hk as (y & d1 & m5 & Hy & Hk).
  cbn in Hy. injection Hy as Hy <- _. cbn in Hk. injection Hk as -> <- _.
  apply with_boot_id_Ok in Hy as (-> & Hne & Hs). split; [done|]. split; [done|]. cbn.
  split; [|split; [|done]]; [exists t|exists t']; cbn.
  - split; [done|]. by apply ok_or_Ok in Hg.
  - done.
Qed.

Lemma current_run who schedule d x d' rest :
  run who current_process_identity schedule d = (Ok x, d', rest) →
  d' = d ∧ x.(ProcessIdentity.pid) = who.(Caller.pid) ∧ identified d x.
Proof.
  intros (pid & d1 & mid & Hp & Hk)%run_Ok_inv.
  assert (d1 = d ∧ pid = who.(Caller.pid)) as [-> ->].
  { unfold act_map_err in Hp. rewrite run_bind, run_sys in Hp. unfold exec in Hp.
    destruct (Choice.injected _); cbn in Hp; injection Hp as <- <- _; done. }
  apply run_Ok_inv in Hk as (found & d1 & m1 & Hf & Hk).
  destruct found as [y|]; [|done]. apply probe_run in Hf as (-> & Hpid & Hid).
  cbn in Hk. injection Hk as -> <- _. done.
Qed.

(** ** The phases of an attempt *)

Section Acquire.
Context (who : Caller.t) (root : Path) (policy : RuntimeStatePolicy.t) (owner : ProcessIdentity.t)
  (d0 : Disk.t).
Let lock := join root LOCK_NAME.
Let l := FileSessionLock.mk root policy.

Definition lock_name (p : Path) : Prop := p = root ∨ p = lock.
Definition new_inode (i : N) : Prop := d0.(Disk.next) ≤ i.

Definition Working (d : Disk.t) : Prop := disk_wf d ∧ Changes lock_name new_inode d0 d.

(** The lock file is the inode [i], created here. *)
Definition Mine (i : N) (bytes : list byte) (b : bool) (d : Disk.t) : Prop :=
  Working d ∧ new_inode i ∧ d.(Disk.names) !! lock = Some i
  ∧ ∃ x, d.(Disk.inodes) !! i = Some x ∧ x.(Inode.data) = bytes ∧ x.(Inode.file_type) = FileType.File
      ∧ (b = true → x.(Inode.synced) = true).

Lemma lock_ne_root : lock ≠ root.
Proof. unfold lock, join. intros Hr. apply (f_equal length) in Hr. cbn in Hr. lia. Qed.

Lemma Working_wf d : Working d → Working d ∧ disk_wf d.
Proof. intros HW. split; [done|exact (proj1 HW)]. Qed.

Lemma Working_calm d d' : Working d → disk_wf d' → Calm root d d' → Working d'.
Proof.
  intros [_ Hc] Hwf Hd. split; [done|]. etrans; [exact Hc|].
  eapply Changes_weaken; [exact Hd|by left|done].
Qed.

Lemma Mine_wf i bytes b d : Mine i bytes b d → Working d ∧ disk_wf d.
Proof. intros (HW & _). by apply Working_wf. Qed.

Lemma Mine_calm i bytes b d d' : Mine i bytes b d → disk_wf d' → Calm root d d' → Mine i bytes b d'.
Proof.
  intros (HW & Hi & Hn & x & Hx & Hd & Hf & Hs) Hwf' Hd'.
  split; [by eapply Working_calm|]. split; [done|].
  destruct Hd' as (_ & _ & Hino & Hnames). split; [by rewrite (proj1 (Hnames lock lock_ne_root))|].
  destruct (Hino i (λ H, H) x Hx) as (x' & Hx' & ? & ? & ?). exists x'.
  split_and!; [done|congruence|congruence|auto].
Qed.

Lemma Working_exec ch {R} (c : Sys.t R) r d d' :
  Working d → touches lock_name new_inode c → exec who ch c d = (r, d') → Working d'.
Proof.
  intros [Hwf Hc] Ht Hr.
  assert (Changes lock_name new_inode d d') as Hd by (by eapply exec_changes).
  split; [by apply (proj1 (proj2 Hd))|]. by etrans.
Qed.

Lemma lock_open_step ch mode r d d' :
  Working d → exec who ch (Sys.OpenNew lock mode) d = (r, d') →
  Working d' ∧ ∀ f, r = Ok f → Mine f.(File.ino) [] false d'.
Proof.
  intros HW Hr. assert (Working d') as HW' by (eapply (Working_exec ch _ _ d d' HW); [|exact Hr]; by right).
  split; [done|]. intros f ->. split; [done|]. unfold exec in Hr.
  destruct (Choice.injected ch); [done|]. cbn in Hr.
  destruct (bool_decide (is_Some _)); [done|]. destruct (negb _); [done|].
  injection Hr as <- <-. split; [apply HW|]. cbn. split; [by rewrite lookup_insert_eq|].
  eexists. rewrite lookup_insert_eq. done.
Qed.

Lemma lock_write_step ch f bytes r d d' :
  Mine f.(File.ino) [] false d → exec who ch (Sys.WriteAll f bytes) d = (r, d') →
  Working d' ∧ (r = Ok tt → Mine f.(File.ino) bytes false d').
Proof.
  intros (HW & Hi & Hn & x & Hx & Hd & Hf & Hs) Hr.
  assert (Working d') as HW' by (eapply (Working_exec ch _ _ d d' HW); [|exact Hr]; done).
  split; [done|]. intros ->. unfold exec in Hr. destruct (Choice.injected ch); [done|]. cbn in Hr.
  injection Hr as <-. split; [done|]. split; [done|]. unfold write_inode. rewrite Hx. split; [done|].
  cbn. eexists. rewrite lookup_insert_eq. split; [done|]. cbn. by rewrite Hd.
Qed.

Lemma lock_sync_step ch f bytes r d d' :
  Mine f.(File.ino) bytes false d → exec who ch (Sys.SyncAll f) d = (r, d') →
  Working d' ∧ (r = Ok tt → Mine f.(File.ino) bytes true d').
Proof.
  intros (HW & Hi & Hn & x & Hx & Hd & Hf & Hs) Hr.
  assert (Working d') as HW' by (eapply (Working_exec ch _ _ d d' HW); [|exact Hr]; done).
  split; [done|]. intros ->. unfold exec in Hr. destruct (Choice.injected ch); [done|]. cbn in Hr.
  injection Hr as <-. split; [done|]. split; [done|]. unfold sync_inode. rewrite Hx, Hf.
  change (FileType.is_dir FileType.File) with false. cbn. split; [done|].
  eexists. rewrite lookup_insert_eq. done.
Qed.

(** ** The attempt *)

(** The lock is ours, in the directory for good. *)
Definition Acquired (i : N) (d : Disk.t) : Prop :=
  Mine i (encode_lock_owner owner) true d ∧ default [] (d.(Disk.past) !! lock) = [].

Definition attempt_post (res : io (File.t * FileIdentity.t) * option FileIdentity.t) (d : Disk.t) : Prop :=
  Working d ∧ ∀ f id, res.1 = Ok (f, id) → Acquired f.(File.ino) d.

Lemma attempt_failed e c d : Working d → attempt_post (Err e, c) d.
Proof. by split. Qed.

Lemma wp_lock_effect {S R B} (c : Sys.t R) (k : R → Closure S B) (s : S)
    (Q : io B * S → Disk.t → Prop) d :
  Working d →
  (∀ ch r d', exec who ch c d = (r, d') → Working d' ∧
     match r with Ok a => wp who Working (k a s) Q d' | Err e => Q (Err e, s) d' end) →
  wp who Working ((inner (sys c) ≫= k) s) Q d.
Proof. intros HW Hc. by apply wp_closure_bind, wp_inner, wp_sys. Qed.

Lemma wp_attempt_body d :
  Working d → wp who Working (FileSessionLock.attempt_body l owner None) attempt_post d.
Proof.
  intros HW. unfold FileSessionLock.attempt_body. apply wp_lock_effect; [done|].
  intros ch r d1 Hr. destruct (lock_open_step _ _ _ _ _ HW Hr) as [HW1 Hf]. split; [done|].
  destruct r as [f|e]; [|by apply attempt_failed]. specialize (Hf f eq_refl).
  apply wp_closure_bind, wp_inner.
  eapply (wp_phase who Working root (Mine (File.ino f) [] false));
    [apply calm_map_err, calm_open_file|exact Hf|apply Mine_wf|apply Mine_calm|].
  intros [id|e] d2 HM; [|apply attempt_failed, HM].
  apply wp_closure_bind, wp_ret; [apply HM|]. apply wp_lock_effect; [apply HM|].
  intros ch2 r2 d3 Hr2. destruct (lock_write_step _ _ _ _ _ _ HM Hr2) as [HW3 HM3]. split; [done|].
  destruct r2 as [[]|e]; [|by apply attempt_failed]. specialize (HM3 eq_refl).
  apply wp_lock_effect; [done|]. intros ch3 r3 d4 Hr3.
  destruct (lock_sync_step _ _ _ _ _ _ HM3 Hr3) as [HW4 HM4]. split; [done|].
  destruct r3 as [[]|e]; [|by apply attempt_failed]. specialize (HM4 eq_refl).
  apply wp_closure_bind, wp_inner.
  eapply (wp_sync_directory who Working root policy (Mine (File.ino f) (encode_lock_owner owner) true));
    [exact HM4|apply Mine_wf|apply Mine_calm| |].
  - intros e d5 HM5. apply attempt_failed, HM5.
  - intros d5 HM5 Hpast. apply wp_ret; [apply HM5|]. split; [apply HM5|].
    intros f' id' [= <- <-]. split; [done|apply Hpast].
Qed.

(** ** Between attempts *)

Lemma wp_remove_identity path id (Q : io bool → Disk.t → Prop) d :
  path = lock → Working d → (∀ r d', Working d' → Q r d') →
  wp who Working (remove_file_if_identity path id) Q d.
Proof.
  intros -> HW HQ. unfold remove_file_if_identity. apply wp_act_bind, wp_attempt, wp_sys; [done|].
  intros ch r d1 Hr. assert (Working d1) as HW1 by (eapply (Working_exec ch _ _ d d1 HW); [|exact Hr]; done).
  split; [done|]. destruct r as [m|e]; [|destruct e; apply wp_ret; auto].
  destruct (_ || _); [apply wp_ret; auto|].
  apply wp_act_bind, wp_sys; [done|]. intros ch2 r2 d2 Hr2.
  assert (Working d2) as HW2 by (eapply (Working_exec ch2 _ _ d1 d2 HW1); [|exact Hr2]; by right).
  split; [done|]. destruct r2; [apply wp_ret; auto|auto].
Qed.

Lemma wp_lock_calm {A} (m : Prog A) (Q : A → Disk.t → Prop) d :
  calm root m → Working d → (∀ a d', Working d' → Q a d') → wp who Working m Q d.
Proof. intros Hm HW HQ. exact (wp_phase who Working root Working m Q d Hm HW Working_wf Working_calm HQ). Qed.

Lemma calm_probe pid : calm root (probe_process pid).
Proof. unfold probe_process, read_boot_id, read_to_string. calm. Qed.

Lemma wp_reclaim (Q : Result bool → Disk.t → Prop) d :
  Working d → (∀ r d', Working d' → Q r d') →
  wp who Working (reclaim_stale_lock lock policy) Q d.
Proof.
  intros HW HQ. unfold reclaim_stale_lock.
  apply wp_act_bind, wp_lock_calm; [apply calm_regular_path|done|]. intros [id|e] d1 HW1; [|by apply HQ].
  apply wp_act_bind, wp_lock_calm; [apply calm_read_verified|done|]. intros [bytes|e] d2 HW2; [|by apply HQ].
  apply wp_act_bind, wp_ret; [done|]. destruct (parse_lock_owner bytes) as [x|e]; [|by apply HQ].
  apply wp_act_bind, wp_lock_calm; [apply calm_probe|done|]. intros [c|e] d3 HW3; [|by apply HQ].
  destruct (negb _); [apply wp_ret; auto|].
  apply wp_act_bind, wp_map_err, wp_remove_identity; [done|done|]. intros [b|e] d4 HW4; [|by apply HQ].
  cbn [map_err]. destruct (negb b); [apply wp_ret; auto|].
  apply wp_lock_calm; [calm|done|auto].
Qed.

Lemma wp_acquire_loop n d :
  Working d →
  wp who Working (FileSessionLock.acquire_loop n l owner)
    (λ r d', ∀ g, r = Ok g → Acquired (File.ino g.(FileSessionLockGuard.file)) d') d.
Proof.
  revert d. induction n as [|n IH]; intros d HW; cbn [FileSessionLock.acquire_loop]; [by apply wp_ret|].
  apply wp_bind. eapply wp_mono; [by apply wp_attempt_body|]. clear d HW.
  intros [[[f id]|e] c] d _ [HW Hpost].
  { apply wp_ret; [done|]. intros g [= <-]. by eapply Hpost. }
  assert (∀ (e : ErrorKind.t), wp who Working
    (_ ← match c with
         | Some identity => _ ← attempt (remove_file_if_identity (FileSessionLock.lock_path l) identity); mret tt
         | None => mret tt
         end;
     fails (io_error ErrorCode.DurabilityError e) : Act SysboostError.t FileSessionLockGuard.t)
    (λ r d', ∀ g, r = Ok g → Acquired (File.ino g.(FileSessionLockGuard.file)) d') d) as Hfail.
  { intros e'. apply wp_act_bind. destruct c as [id|]; [|by apply wp_ret].
    apply wp_act_bind, wp_attempt, wp_remove_identity; [done|done|]. intros r d1 HW1.
    apply wp_ret; [done|]. by apply wp_ret. }
  destruct e; try apply Hfail.
  apply wp_act_bind, wp_reclaim; [done|]. intros [b|e] d1 HW1; [|done].
  destruct b; [by apply IH|by apply wp_ret].
Qed.
End Acquire.

Lemma start_time_fits t g : parse_start_time t = Some g → fits 64 g.
Proof.
  unfold parse_start_time. destruct (after_last ")" t) as [rest|]; [|done]. cbn.
  destruct (split_whitespace rest !! 19%nat) as [w|]; [|done]. cbn.
  destruct (parse_uint 64 w) as [v|] eqn:E; [|done]. cbn.
  destruct (v =? 0); [done|]. intros [= <-]. by eapply parse_uint_fits.
Qed.

(** The three files of a held lock. *)
Definition lock_files (root : Path) (i : N) (bytes : list byte) (pid : u32) (j k : N)
    (stat boot : list byte) : gmap Path (N * list byte) :=
  <[join root LOCK_NAME := (i, bytes)]> (<[stat_path pid := (j, stat)]> {[BOOT_ID := (k, boot)]}).

Lemma lock_paths root pid :
  join root LOCK_NAME ≠ stat_path pid ∧ join root LOCK_NAME ≠ BOOT_ID ∧ stat_path pid ≠ BOOT_ID.
Proof. by split_and!; intros He; injection He. Qed.

Lemma pinned_kept (T : Path → Prop) (W : N → Prop) p i l d d' :
  disk_wf d → Changes T W d d' → (∀ i, W i → d.(Disk.next) ≤ i) → ¬ T p →
  pinned p i l d → pinned p i l d'.
Proof.
  intros Hwf (_ & _ & Hino & Hnames) HW HT (Hn & x & Hx & Hd & Hf).
  split; [by rewrite (proj1 (Hnames p HT))|].
  destruct (Hino i) with (x := x) as (x' & Hx' & ? & ? & _); [|done|].
  - intros Hi. pose proof (HW i Hi). pose proof (proj1 Hwf i (mk_is_Some _ _ Hx)). lia.
  - exists x'. split_and!; [done|congruence..].
Qed.

Lemma acquired_Holding who root owner d i d' :
  disk_wf d → fits 32 who.(Caller.pid) → owner.(ProcessIdentity.pid) = who.(Caller.pid) →
  root ≠ BOOT_ID → root ≠ stat_path who.(Caller.pid) →
  identified d owner → Acquired root owner d i d' →
  ∃ m, Holding m d' ∧ m !! join root LOCK_NAME = Some (i, encode_lock_owner owner)
    ∧ blocking m (encode_lock_owner owner).
Proof.
  intros Hwf Hfit Hpid Hboot Hstat Hid [((Hwf' & Hc) & Hi & Hn & x & Hx & Hd & Hf & _) _].
  destruct Hid as ((t & (j & lt & Hpt & Ht) & Hg) & (t' & (k & lb & Hpb & Ht') & Hb) & Hne & Hs).
  destruct (lock_paths root owner.(ProcessIdentity.pid)) as (H1 & H2 & H3).
  exists (lock_files root i (encode_lock_owner owner) owner.(ProcessIdentity.pid) j k lt lb).
  assert (lock_files root i (encode_lock_owner owner) owner.(ProcessIdentity.pid) j k lt lb
    !! join root LOCK_NAME = Some (i, encode_lock_owner owner)) as Hlock by apply lookup_insert_eq.
  assert (lock_files root i (encode_lock_owner owner) owner.(ProcessIdentity.pid) j k lt lb
    !! stat_path owner.(ProcessIdentity.pid) = Some (j, lt)) as Hst.
  { unfold lock_files. rewrite lookup_insert_ne by done. apply lookup_insert_eq. }
  assert (lock_files root i (encode_lock_owner owner) owner.(ProcessIdentity.pid) j k lt lb
    !! BOOT_ID = Some (k, lb)) as Hbt.
  { unfold lock_files. rewrite !lookup_insert_ne by done. apply lookup_singleton_eq. }
  split; [|split; [done|]].
  - split; [done|]. intros p i' bytes Hp. unfold lock_files in Hp.
    rewrite !lookup_insert_Some, lookup_singleton_Some in Hp.
    destruct Hp as [[<- [= <- <-]]|[_ [[<- [= <- <-]]|[_ [<- [= <- <-]]]]]].
    + split; [done|eauto].
    + apply (pinned_kept (lock_name root) (new_inode d) _ _ _ d); try done. intros [He|He]; congruence.
    + apply (pinned_kept (lock_name root) (new_inode d) _ _ _ d); try done. intros [He|He]; congruence.
  - unfold blocking. destruct (lock_owner_round_trip_aux owner) as [-> _]; [|done..|].
    + split; [by rewrite Hpid|by eapply start_time_fits].
    + split; eauto 10.
Qed.

(** An acquired lock is the caller's.  When [acquire] succeeds, under
    whatever failures, the lock file holds the identity that [/proc] gives
    the caller, no power loss can take it back, and in every interleaving of
    contenders from then on none of them acquires the lock and the file
    stays the caller's. *)
Theorem acquired_lock_is_exclusive who root policy schedule d g d' rest
    (ts ts' : Pool (Result FileSessionLockGuard.t)) d'' :
  disk_wf d → fits 32 who.(Caller.pid) → root ≠ BOOT_ID → root ≠ stat_path who.(Caller.pid) →
  run who (FileSessionLock.acquire (FileSessionLock.mk root policy)) schedule d = (Ok g, d', rest) →
  (∀ w p, (w, p) ∈ ts → ∃ policy, p = FileSessionLock.acquire (FileSessionLock.mk root policy)) →
  rtc pool_step (ts, d') (ts', d'') →
  ∃ owner, owner.(ProcessIdentity.pid) = who.(Caller.pid)
    ∧ (∀ v, may_hold d' (join root LOCK_NAME) v → v = Some (encode_lock_owner owner))
    ∧ pinned (join root LOCK_NAME) (File.ino g.(FileSessionLockGuard.file)) (encode_lock_owner owner) d''
    ∧ ∀ w r, (w, Ret r) ∈ ts' → is_ok r = false.
Proof.
  intros Hwf Hfit Hboot Hstat Hrun Hts Hsteps.
  apply run_Ok_inv in Hrun as (? & d1 & m1 & Hroot & Hrun).
  apply (run_calm who root) in Hroot as [Hwf1 _]; [|apply calm_ensure_root|done].
  apply run_Ok_inv in Hrun as (owner & d2 & m2 & Hcur & Hrun).
  apply current_run in Hcur as (-> & Hpid & Hid). clear d Hwf.
  assert (Working root d1 d1) as HW by (by split).
  destruct (wp_run _ _ _ _ _ _ _ _ _ (wp_acquire_loop who root policy owner d1 2 d1 HW) Hrun) as [_ Hpost].
  specialize (Hpost g eq_refl). exists owner. split; [done|].
  destruct (acquired_Holding who root owner d1 _ d' Hwf1 Hfit Hpid Hboot Hstat Hid Hpost)
    as (m & HH & Hlock & Hb).
  split; [|by eapply blocking_excludes].
  destruct Hpost as [(_ & _ & Hn & y & Hy & Hd & _ & Hs) Hpast].
  intros v (b & Hin & Hv). unfold bindings in Hin. rewrite Hn, Hpast in Hin.
  apply list_elem_of_singleton in Hin as ->. destruct Hv as (z & bytes & Hz & -> & Hz').
  assert (z = y) as -> by congruence. rewrite Hz', Hd by auto. done.
Qed.
