(* ===== verification/Testkit.v ===== *)
(** * In-memory ports ([sysboost-testkit/src/lib.rs])

    The store, lock, ID source, clock and backend of the test kit as
    instances of the port classes, with the laws they satisfy.  They are the
    concrete ports on which the engine's theorems are applied. *)
From Stdlib Require Import Strings.Byte.
From stdpp Require Import sorting pretty.
From S2P Require Import Prelude Lists Text Ids Process Mut Capability Mutation Decision Plan.
From S2P Require Import Session Record Codec CodecLaws Checksum StateFile Ports Registry Engine.
Local Open Scope N_scope.

(** ** The state store *)

Module MemoryStateStore.
Record t := mk {
  files : gmap SessionId.t (list byte);
  write_count : usize;
  fail_create : bool;
  fail_replace : bool;
  fail_on_write : option usize;
  fail_load : bool
}.
Definition default : t := mk ∅ 0 false false None false.

Definition set_files (x : gmap SessionId.t (list byte)) (s : t) : t :=
  mk x s.(write_count) s.(fail_create) s.(fail_replace) s.(fail_on_write) s.(fail_load).

Definition seed_raw (id : SessionId.t) (bytes : list byte) (s : t) : t :=
  set_files (<[id := bytes]> s.(files)) s.

Definition missing : SysboostError.t :=
  SysboostError.new ErrorCode.TargetError "memory state is missing".

(** Decode one retained record. *)
Definition record (id : SessionId.t) (s : t) : Result SessionRecord.t :=
  bytes ← ok_or (s.(files) !! id) missing; decode bytes.

Definition should_fail_write (creating : bool) : Mut t bool := λ s,
  let count := saturating_add64 s.(write_count) 1 in
  (Ok (bool_decide (s.(fail_on_write) = Some count)
       || (creating && s.(fail_create)) || (negb creating && s.(fail_replace))),
   mk s.(files) count s.(fail_create) s.(fail_replace) s.(fail_on_write) s.(fail_load)).

Definition create (r : SessionRecord.t) : Mut t unit :=
  failing ← should_fail_write true;
  if (failing : bool)
  then throw (SysboostError.new ErrorCode.DurabilityError
                "memory state store injected create failure")
  else
    let id := SessionRecord.session_id r in
    s ← get;
    if bool_decide (is_Some (s.(files) !! id))
    then throw (SysboostError.new ErrorCode.InvariantViolation
                  "memory state store session ID collision")
    else bytes ← lift (encode r); modify (set_files (<[id := bytes]> s.(files))).

Definition replace (r : SessionRecord.t) : Mut t unit :=
  failing ← should_fail_write false;
  if (failing : bool)
  then throw (SysboostError.new ErrorCode.DurabilityError
                "memory state store injected replacement failure")
  else
    let id := SessionRecord.session_id r in
    s ← get;
    if bool_decide (s.(files) !! id = None)
    then throw (SysboostError.new ErrorCode.DurabilityError
                  "memory state store replacement target is missing")
    else bytes ← lift (encode r); modify (set_files (<[id := bytes]> s.(files))).

Definition load_failure : SysboostError.t :=
  SysboostError.new ErrorCode.DurabilityError "memory state store injected load failure".

Definition load (id : SessionId.t) : Mut t SessionRecord.t :=
  s ← get; if s.(fail_load) then throw load_failure else lift (record id s).

(** [BTreeMap::values]: in the order of the keys. *)
Definition key_le (x y : SessionId.t * list byte) : Prop :=
  from_be (SessionId.as_bytes (fst x)) ≤ from_be (SessionId.as_bytes (fst y)).
#[global] Instance key_le_dec x y : Decision (key_le x y).
Proof. unfold key_le. apply _. Defined.
Definition values (s : t) : list (list byte) :=
  snd <$> merge_sort key_le (map_to_list s.(files)).

(** [collect::<Result<Vec<_>, _>>()] *)
Fixpoint decode_all (l : list (list byte)) : Result (list SessionRecord.t) :=
  match l with
  | [] => Ok []
  | bytes :: l' => r ← decode bytes; rs ← decode_all l'; Ok (r :: rs)
  end.

Definition load_unfinished : Mut t (list SessionRecord.t) :=
  s ← get;
  if s.(fail_load) then throw load_failure
  else
    records ← lift (decode_all (values s));
    mret (merge_sort session_le
            (filter (λ r, session_state r ≠ SessionState.Restored) records)).

Definition remove (id : SessionId.t) : Mut t unit :=
  modify (λ s, set_files (delete id s.(files)) s).
End MemoryStateStore.

#[export] Instance memory_state_store : SessionStateStore.t MemoryStateStore.t := {|
  SessionStateStore.create := MemoryStateStore.create;
  SessionStateStore.replace := MemoryStateStore.replace;
  SessionStateStore.load := MemoryStateStore.load;
  SessionStateStore.load_unfinished := MemoryStateStore.load_unfinished;
  SessionStateStore.remove := MemoryStateStore.remove
|}.

#[export] Instance memory_store_laws : StoreLaws.t MemoryStateStore.t.
Proof.
  split.
  - intros r s s' Hr. cbn in Hr. unfold MemoryStateStore.create in Hr. inv_mut.
    destruct a; [done|]. inv_mut. case_bool_decide; [done|]. inv_mut.
    match goal with He : encode _ = Ok _ |- _ => by apply encode_Ok in He as [Hv _] end.
  - intros r s s' Hr. cbn in Hr. unfold MemoryStateStore.replace in Hr. inv_mut.
    destruct a; [done|]. inv_mut. case_bool_decide; [done|]. inv_mut.
    match goal with He : encode _ = Ok _ |- _ => by apply encode_Ok in He as [Hv _] end.
  - intros id r s s' Hr. cbn in Hr. unfold MemoryStateStore.load in Hr. inv_mut.
    destruct (MemoryStateStore.fail_load _); [done|]. inv_mut.
    unfold MemoryStateStore.record in Hr. apply bind_Ok in Hr as (b & _ & Hd).
    by apply decode_valid in Hd as [_ Hv].
Qed.

Lemma memory_write_run b (s s' : MemoryStateStore.t) r :
  (if b : bool then MemoryStateStore.create r else MemoryStateStore.replace r) s = (Ok tt, s') →
  ∃ bytes, encode r = Ok bytes
    ∧ s'.(MemoryStateStore.files)
      = <[SessionRecord.session_id r := bytes]> s.(MemoryStateStore.files)
    ∧ s'.(MemoryStateStore.fail_load) = s.(MemoryStateStore.fail_load).
Proof.
  destruct b; unfold MemoryStateStore.create, MemoryStateStore.replace; intros Hr;
    unfold MemoryStateStore.should_fail_write in Hr; inv_mut; destruct (_ || _ : bool) in Hr;
    try done; inv_mut; case_bool_decide; try done; inv_mut;
    match goal with He : encode _ = Ok ?b |- _ => exists b; by rewrite He end.
Qed.

(** What the store accepted for writing it reads back: after a successful
    [create] or [replace] of a well-formed record, [load] of its session
    returns exactly that record and other sessions keep their files. *)
Theorem memory_store_reads_back b r (s s' : MemoryStateStore.t) :
  record_wf r → s.(MemoryStateStore.fail_load) = false →
  (if b : bool then SessionStateStore.create r else SessionStateStore.replace r) s = (Ok tt, s') →
  fst (SessionStateStore.load (SessionRecord.session_id r) s') = Ok r
  ∧ ∀ id, id ≠ SessionRecord.session_id r →
      s'.(MemoryStateStore.files) !! id = s.(MemoryStateStore.files) !! id.
Proof.
  intros Hwf Hf Hr. assert ((if b then MemoryStateStore.create r else MemoryStateStore.replace r) s
    = (Ok tt, s')) as (bytes & He & Hfiles & Hload)%memory_write_run by (by destruct b).
  split.
  - cbn. unfold MemoryStateStore.load, mbind, mut_bind, get. rewrite Hload, Hf.
    unfold lift, MemoryStateStore.record. rewrite Hfiles, lookup_insert_eq. cbn.
    by apply decode_encoded.
  - intros id Hid. rewrite Hfiles. by apply lookup_insert_ne.
Qed.

Lemma memory_create_fresh r bytes :
  encode r = Ok bytes →
  ∃ s', SessionStateStore.create r MemoryStateStore.default = (Ok tt, s').
Proof.
  intros He. eexists. cbn. unfold MemoryStateStore.create, MemoryStateStore.should_fail_write.
  unfold mbind, mut_bind, get. rewrite bool_decide_false by done. cbn.
  rewrite bool_decide_false; [unfold lift; by rewrite He|].
  assert (MemoryStateStore.files MemoryStateStore.default !! SessionRecord.session_id r = None)
    as Hn by apply lookup_empty.
  intros [b Hb]. cbn in Hn. by rewrite Hn in Hb.
Qed.

(** ** The lock *)

(** The shared flag of the lock and its guards. *)
Module MemorySessionLock.
Record t := mk { held : bool }.
Definition shared : t := mk false.
Definition acquire : Mut t unit := λ l,
  if l.(held)
  then (Err (SysboostError.new ErrorCode.AuthorizationError
               "memory mutation lock is already held"), l)
  else (Ok tt, mk true).
(** [Drop for MemorySessionLockGuard] *)
Definition release (_ : unit) (_ : t) : t := mk false.
End MemorySessionLock.

#[export] Instance memory_session_lock : ExclusiveSessionLock.t MemorySessionLock.t unit := {|
  ExclusiveSessionLock.acquire := MemorySessionLock.acquire;
  ExclusiveSessionLock.release := MemorySessionLock.release
|}.

#[export] Instance memory_lock_laws : LockLaws.t MemorySessionLock.t unit.
Proof.
  split.
  - intros [[]] g l'; cbn; [done|]. by intros [= _ <-].
  - intros [[]] e l'; cbn; [by intros [= _ <-]|done].
Qed.

(** ** IDs and time *)

Module FixedSessionIdSource.
Record t := mk { ids : list SessionId.t }.
Definition next_id : Mut t SessionId.t := λ s,
  match s.(ids) with
  | id :: ids' => (Ok id, mk ids')
  | [] => (Err (SysboostError.new ErrorCode.DurabilityError
                  "fixed session-ID fixture is exhausted"), s)
  end.
End FixedSessionIdSource.

#[export] Instance fixed_session_id_source : SessionIdSource.t FixedSessionIdSource.t := {|
  SessionIdSource.next_id := FixedSessionIdSource.next_id
|}.

Module FakeClock.
Record t := mk { timestamp : Timestamp.t }.
Definition now : Mut t Timestamp.t := λ c, (Ok c.(timestamp), c).
End FakeClock.

#[export] Instance fake_clock : Clock.t FakeClock.t := {| Clock.now := FakeClock.now |}.

Module FakeProcess.
Record t := mk { identity : ProcessIdentity.t }.
Definition new : ProcessIdentity.t → t := mk.
Definition current (x : t) : Result ProcessIdentity.t := Ok x.(identity).
End FakeProcess.

(** ** The backend *)

Module FakeMutationBackend.
Record t := mk {
  values : gmap TargetId.t TypedValue.t;
  apply_order : list MutationId.t;
  restore_order : list MutationId.t;
  verify_order : list MutationId.t;
  fail_snapshot : option MutationId.t;
  fail_apply : option MutationId.t;
  fail_apply_after_write : option MutationId.t;
  fail_verify : option MutationId.t;
  fail_restore : option MutationId.t
}.
Definition default : t := mk ∅ [] [] [] None None None None None.

Definition descriptor : BackendDescriptor.t :=
  BackendDescriptor.mk (BackendId.mk "fixture.fake") "fixture-v1"
    [CapabilityId.mk "cpu.policy.governor"] [OperationId.mk "cpu.governor"].

Definition set_values (x : gmap TargetId.t TypedValue.t) (s : t) : t :=
  mk x s.(apply_order) s.(restore_order) s.(verify_order) s.(fail_snapshot) s.(fail_apply)
     s.(fail_apply_after_write) s.(fail_verify) s.(fail_restore).

(** Seed the original value of a target. *)
Definition seed (target : TargetId.t) (value : TypedValue.t) (s : t) : t :=
  set_values (<[target := value]> s.(values)) s.

(** Replace a present value as an external writer would. *)
Definition external_replace (target : TargetId.t) (value : TypedValue.t) (s : t) : t :=
  if bool_decide (is_Some (s.(values) !! target)) then seed target value s else s.

Definition value (target : TargetId.t) (s : t) : option TypedValue.t := s.(values) !! target.

(** The failures a test injects. *)
Definition fail_snapshot_on (id : MutationId.t) (s : t) : t :=
  mk s.(values) s.(apply_order) s.(restore_order) s.(verify_order) (Some id) s.(fail_apply)
     s.(fail_apply_after_write) s.(fail_verify) s.(fail_restore).
Definition fail_apply_on (id : MutationId.t) (s : t) : t :=
  mk s.(values) s.(apply_order) s.(restore_order) s.(verify_order) s.(fail_snapshot) (Some id)
     s.(fail_apply_after_write) s.(fail_verify) s.(fail_restore).
Definition fail_apply_after_write_on (id : MutationId.t) (s : t) : t :=
  mk s.(values) s.(apply_order) s.(restore_order) s.(verify_order) s.(fail_snapshot) s.(fail_apply)
     (Some id) s.(fail_verify) s.(fail_restore).
Definition fail_verify_on (id : MutationId.t) (s : t) : t :=
  mk s.(values) s.(apply_order) s.(restore_order) s.(verify_order) s.(fail_snapshot) s.(fail_apply)
     s.(fail_apply_after_write) (Some id) s.(fail_restore).
Definition fail_restore_on (id : MutationId.t) (s : t) : t :=
  mk s.(values) s.(apply_order) s.(restore_order) s.(verify_order) s.(fail_snapshot) s.(fail_apply)
     s.(fail_apply_after_write) s.(fail_verify) (Some id).

Definition failure (code : ErrorCode.t) (stage : Stage.t) (message : string) : SysboostError.t :=
  SysboostError.new code message |> SysboostError.with_stage stage.

Definition detect {C} : Mut C CapabilityInventory.t :=
  throw (failure ErrorCode.Unsupported Stage.Detect "fake mutation backend has no discovery implementation").

Definition current (target : TargetId.t) (s : t) : Result TypedValue.t :=
  ok_or (s.(values) !! target)
    (SysboostError.new ErrorCode.SnapshotError "fake target has no seeded value").

Section Debug.
(** [{value:?}] of the derived [Debug] of [TypedValue]. *)
Context (debug : TypedValue.t → string).

Definition fingerprint (value : TypedValue.t) : StateFingerprint.t :=
  StateFingerprint.mk (array_copy 32 (checksum (bytes_of_string (debug value)))).

Definition snapshot (m : PlannedMutation.t) (now : Timestamp.t) : Mut t Snapshot.t :=
  s ← get;
  let id := m.(PlannedMutation.mutation_id) in
  if bool_decide (s.(fail_snapshot) = Some id)
  then throw (failure ErrorCode.SnapshotError Stage.Snapshot "fake snapshot failure")
  else
    value ← lift (current m.(PlannedMutation.target) s);
    raw ← lift (BoundedBytes.new (bytes_of_string (debug value)));
    mret (Snapshot.mk id m.(PlannedMutation.target) raw value (fingerprint value)
            EqualityKind.ScalarExact
            (TargetIdentity.mk (array_repeat 16 (n2b (MutationId.get id)))) now).

Definition apply (m : PlannedMutation.t) (_ : Snapshot.t) : Mut t ApplyReceipt.t :=
  s ← get;
  let id := m.(PlannedMutation.mutation_id) in
  value ← lift (current m.(PlannedMutation.target) s);
  if bool_decide (s.(fail_apply) = Some id)
  then throw (failure ErrorCode.ApplyError Stage.Apply "fake apply failure before write")
  else
    _ ← modify (λ s,
          mk (<[m.(PlannedMutation.target) := m.(PlannedMutation.desired)]> s.(values))
             (s.(apply_order) ++ [id]) s.(restore_order) s.(verify_order) s.(fail_snapshot)
             s.(fail_apply) s.(fail_apply_after_write) s.(fail_verify) s.(fail_restore));
    let ownership := fingerprint m.(PlannedMutation.desired) in
    if bool_decide (s.(fail_apply_after_write) = Some id)
    then throw (failure ErrorCode.ApplyError Stage.Apply "fake apply failure after write"
                |> SysboostError.retryable Retryability.Unknown)
    else mret (ApplyReceipt.mk id (fingerprint value) ownership ownership).

Definition verify (m : PlannedMutation.t) (_ : StateFingerprint.t) (_ : TargetIdentity.t) :
    Mut t StateFingerprint.t :=
  let id := m.(PlannedMutation.mutation_id) in
  _ ← modify (λ s, mk s.(values) s.(apply_order) s.(restore_order) (s.(verify_order) ++ [id])
               s.(fail_snapshot) s.(fail_apply) s.(fail_apply_after_write) s.(fail_verify)
               s.(fail_restore));
  s ← get;
  if bool_decide (s.(fail_verify) = Some id)
  then
    _ ← modify (λ s, mk s.(values) s.(apply_order) s.(restore_order) s.(verify_order)
                 s.(fail_snapshot) s.(fail_apply) s.(fail_apply_after_write) None s.(fail_restore));
    throw (failure ErrorCode.VerificationError Stage.Verify "fake verification failure")
  else value ← lift (current m.(PlannedMutation.target) s); mret (fingerprint value).

Definition restore (m : PlannedMutation.t) (snap : Snapshot.t) (ownership : StateFingerprint.t) :
    Mut t RestoreReceipt.t :=
  let id := m.(PlannedMutation.mutation_id) in
  _ ← modify (λ s, mk s.(values) s.(apply_order) (s.(restore_order) ++ [id]) s.(verify_order)
               s.(fail_snapshot) s.(fail_apply) s.(fail_apply_after_write) s.(fail_verify)
               s.(fail_restore));
  s ← get;
  if bool_decide (s.(fail_restore) = Some id)
  then throw (failure ErrorCode.RestoreError Stage.Restore "fake restore failure")
  else
    value ← lift (current m.(PlannedMutation.target) s);
    if bool_decide (fingerprint value ≠ ownership)
    then throw (failure ErrorCode.RestoreConflict Stage.Restore
                  "fake restore ownership precondition changed")
    else
      _ ← modify (λ s, seed m.(PlannedMutation.target) snap.(Snapshot.original_typed) s);
      mret (RestoreReceipt.mk id (fingerprint snap.(Snapshot.original_typed)) true).
End Debug.

Definition validate_target (m : PlannedMutation.t) (identity : TargetIdentity.t) : Result unit :=
  match m.(PlannedMutation.kind) with
  | MutationKind.CpuGovernor policy _ =>
    if bool_decide (TargetId.as_str m.(PlannedMutation.target)
                    ≠ "fixture.cpu.policy." +:+ pretty (CpuPolicyId.get policy))
       || bool_decide (identity
                       ≠ TargetIdentity.mk (array_repeat 16 (n2b (CpuPolicyId.get policy))))
    then Err (SysboostError.new ErrorCode.TargetError
                "fake backend rejected a target outside its compiled-in allowlist"
              |> SysboostError.with_target m.(PlannedMutation.target))
    else Ok tt
  | _ => Err (SysboostError.new ErrorCode.Unsupported
                "fake backend target allowlist covers only CPU governor fixtures")
  end.
End FakeMutationBackend.

Definition fake_backend (debug : TypedValue.t → string) :
    MutationBackend.t FakeMutationBackend.t := {|
  MutationBackend.descriptor _ := FakeMutationBackend.descriptor;
  MutationBackend.owns_backend _ :=
    MutationBackend.default_owns_backend FakeMutationBackend.descriptor;
  MutationBackend.snapshot := FakeMutationBackend.snapshot debug;
  MutationBackend.apply := FakeMutationBackend.apply debug;
  MutationBackend.verify := FakeMutationBackend.verify debug;
  MutationBackend.restore := FakeMutationBackend.restore debug;
  MutationBackend.validate_target _ := FakeMutationBackend.validate_target;
  MutationBackend.validate_admission _ :=
    MutationBackend.default_validate_admission FakeMutationBackend.descriptor
      FakeMutationBackend.validate_target
|}.

Lemma fake_backend_descriptor (debug : TypedValue.t → string) :
  @DescriptorLaws.t _ (fake_backend debug).
Proof. split; reflexivity. Qed.

(** The fake backend is a host of typed values per target, and keeps the
    contract. *)
Section FakeHost.
Context (debug : TypedValue.t → string).
#[local] Existing Instance fake_backend.

Definition fake_live (b : FakeMutationBackend.t) (target : TargetId.t) : option StateFingerprint.t :=
  FakeMutationBackend.fingerprint debug <$> b.(FakeMutationBackend.values) !! target.

Lemma fake_current target b value :
  FakeMutationBackend.current target b = Ok value →
  fake_live b target = Some (FakeMutationBackend.fingerprint debug value).
Proof.
  unfold FakeMutationBackend.current, fake_live. destruct (_ !! target); [|done]. by intros [= ->].
Qed.

(** Opens a run of the fake backend. *)
Ltac fake_run Hr :=
  cbn in Hr;
  unfold FakeMutationBackend.snapshot, FakeMutationBackend.apply, FakeMutationBackend.verify,
    FakeMutationBackend.restore, mbind, mut_bind, get, modify, lift, throw in Hr;
  cbn -[FakeMutationBackend.current BoundedBytes.new] in Hr;
  repeat match type of Hr with
  | context [if ?c then _ else _] => destruct c
  | context [match FakeMutationBackend.current ?t ?b with _ => _ end] =>
      destruct (FakeMutationBackend.current t b) eqn:?
  | context [match BoundedBytes.new ?x with _ => _ end] => destruct (BoundedBytes.new x)
  end;
  try discriminate Hr; injection Hr as <- <-.

Lemma fake_host_laws :
  @HostLaws.t FakeMutationBackend.t TargetId.t (fake_backend debug).
Proof.
  refine {| HostLaws.key := PlannedMutation.target; HostLaws.live := fake_live |}.
  - intros m at_ b res b' k Hr. fake_run Hr; done.
  - intros m at_ b s b' Hr. fake_run Hr. by apply fake_current.
  - intros m f i b res b' k Hr. fake_run Hr; done.
  - intros m f i b x b' Hr. fake_run Hr. by apply fake_current.
  - intros m s b res b' k Hr Hk. fake_run Hr; try done;
      unfold fake_live; cbn; by rewrite lookup_insert_ne.
  - intros m s b e b' k _ Hr He. fake_run Hr; try done.
  - intros m s f b res b' k Hr Hk. fake_run Hr; try done;
      unfold fake_live; cbn; by rewrite lookup_insert_ne.
  - intros m s f b r b' Hr _. fake_run Hr. unfold fake_live. cbn. by rewrite lookup_insert_eq.
Defined.
End FakeHost.

(** ** Fixture plans *)

Definition fixture_item (m : PlannedMutation.t) : PlanItem.t :=
  let equality := m.(PlannedMutation.equality) in
  PlanItem.mk m.(PlannedMutation.capability) (operation_id m.(PlannedMutation.kind))
    (Some (BackendId.mk "fixture.fake")) (Some m.(PlannedMutation.target))
    ControlId.CpuGovernor
    (Some (PlanValue.Typed m.(PlannedMutation.desired)))
    (Some (PlanValue.Typed m.(PlannedMutation.desired)))
    PlanAction.Mutation Feature.CpuGovernor FeatureClass.RuntimeMutable RiskClass.Low
    false ExperimentalStatus.NotExperimental
    [CapabilityEvidence.mk EvidenceSource.Synthetic "deterministic fake executor fixture"]
    "fixture mutation has a complete typed contract" None
    (Some (TargetIdentity.mk
             (array_repeat 16 (n2b (MutationId.get m.(PlannedMutation.mutation_id))))))
    (SnapshotContract.mk true true true equality)
    (RestoreContract.mk true (Some RestoreMode.CompareAndRestore) equality)
    (VerificationContract.mk true true equality)
    m.(PlannedMutation.dependencies) (Some m).

Definition complete_fixture_plan (mutations : list PlannedMutation.t) : Result Plan.t :=
  Plan.from_items (PlanId.mk (array_repeat 16 (n2b 0xab)))
    (array_repeat 32 (n2b 0x11)) (array_repeat 32 (n2b 0x22)) (array_repeat 32 (n2b 0x33))
    Profile.Performance (fixture_item <$> mutations).
