(* ===== verification/Cpu.v ===== *)
(** * CPU power-policy backend ([sysboost-linux/src/cpu.rs])

    The closed CPU nodes, the narrow I/O port behind the backend, and the
    backend itself: every stage reads the live node, compares identity and
    fingerprint, and proves its effect by a readback.  A read is a function of
    the state of the port: nothing else changes the host in the middle of one
    backend call. *)
From Stdlib Require Import Strings.Byte.
From stdpp Require Import pretty.
From S2P Require Import Prelude Lists Text Str Ids Mut Capability Mutation Decision Plan Policy Session Digest Record Ports.
Local Open Scope N_scope.

Definition CPU_BACKEND_ID : string := "linux.cpu".
Definition CPU_BOOST_TARGET : string := "system.cpu.boost".
Definition PLATFORM_PROFILE_TARGET : string := "system.platform.profile".
Definition MAX_CPU_READ_BYTES : usize := 4096.
Definition MAX_CPU_POLICIES : usize := 4096.

Module CpuBoostInterface.
Inductive t := Boost | NoTurbo.
#[global] Instance t_eq_dec : EqDecision t. Proof. solve_decision. Defined.
End CpuBoostInterface.

Module CpuNode.
Inductive t :=
| Governor (policy : CpuPolicyId.t)
| EnergyPreference (policy : CpuPolicyId.t)
| Frequency (policy : CpuPolicyId.t)
| Boost (interface : option CpuBoostInterface.t)
| PlatformProfile.
#[global] Instance t_eq_dec : EqDecision t. Proof. solve_decision. Defined.
End CpuNode.

Module CpuNodeState.
Record t := mk {
  raw : BoundedBytes.t;
  typed : TypedValue.t;
  fingerprint : StateFingerprint.t;
  target_identity : TargetIdentity.t;
  boost_interface : option CpuBoostInterface.t
}.
#[global] Instance t_eq_dec : EqDecision t. Proof. solve_decision. Defined.
End CpuNodeState.

(** The port of the backend to a kernel interface or a fixture. *)
Module CpuControlIo.
Class t (S : Type) := {
  list_policies : S → Result (list CpuPolicyId.t);
  read : S → CpuNode.t → Result CpuNodeState.t;
  choices : S → CpuNode.t → Result (list TypedValue.t);
  validate_desired : S → CpuNode.t → TypedValue.t → Result unit;
  write : CpuNode.t → TypedValue.t → Mut S unit
}.
End CpuControlIo.

Definition target_error (message : string) : SysboostError.t :=
  SysboostError.new ErrorCode.TargetError message |> SysboostError.with_stage Stage.Detect.
Definition unsupported (message : string) : SysboostError.t :=
  SysboostError.new ErrorCode.Unsupported message |> SysboostError.with_stage Stage.Detect.

(** ** Kernel text *)

Definition text (raw : list byte) : Result string :=
  value ← ok_or (from_utf8 raw) (target_error "CPU kernel value is not valid UTF-8");
  Ok (trim value).

Definition parse_governor (raw : list byte) : Result GovernorId.t :=
  value ← text raw;
  map_err (λ _, target_error "CPU governor value is malformed") (GovernorId.new value).

Definition parse_energy (raw : list byte) : Result EnergyPreference.t :=
  value ← text raw;
  if bool_decide (value = "performance"%string) then Ok EnergyPreference.Performance
  else if bool_decide (value = "balance_performance"%string) then Ok EnergyPreference.BalancePerformance
  else if bool_decide (value = "balance_power"%string) then Ok EnergyPreference.BalancePower
  else if bool_decide (value = "power"%string) then Ok EnergyPreference.Power
  else Err (target_error "CPU EPP value is not in the closed vocabulary").

Definition parse_frequency (raw : list byte) : Result FrequencyKHz.t :=
  value ← text raw;
  value ← ok_or (parse_uint 64 value) (target_error "CPU frequency value is malformed");
  map_err (λ _, target_error "CPU frequency value is invalid") (FrequencyKHz.new value).

Definition parse_boost (interface : CpuBoostInterface.t) (raw : list byte) : Result CpuBoostState.t :=
  value ← text raw;
  let one := bool_decide (value = "1"%string) in
  let zero := bool_decide (value = "0"%string) in
  match interface with
  | CpuBoostInterface.Boost =>
    if one then Ok CpuBoostState.Enabled else if zero then Ok CpuBoostState.Disabled
    else Err (target_error "CPU boost value is malformed")
  | CpuBoostInterface.NoTurbo =>
    if zero then Ok CpuBoostState.Enabled else if one then Ok CpuBoostState.Disabled
    else Err (target_error "CPU boost value is malformed")
  end.

Definition parse_profile (raw : list byte) : Result PlatformProfileId.t :=
  value ← text raw;
  map_err (λ _, target_error "platform profile is malformed") (PlatformProfileId.new value).

Definition render_energy (value : EnergyPreference.t) : string :=
  match value with
  | EnergyPreference.Performance => "performance"
  | EnergyPreference.BalancePerformance => "balance_performance"
  | EnergyPreference.BalancePower => "balance_power"
  | EnergyPreference.Power => "power"
  end.

Definition boost_text (interface : CpuBoostInterface.t) (state : CpuBoostState.t) : string :=
  match interface, state with
  | CpuBoostInterface.Boost, CpuBoostState.Enabled | CpuBoostInterface.NoTurbo, CpuBoostState.Disabled => "1"
  | CpuBoostInterface.Boost, CpuBoostState.Disabled | CpuBoostInterface.NoTurbo, CpuBoostState.Enabled => "0"
  end.

Definition khz_lt (a b : FrequencyKHz.t) : bool := a.(FrequencyKHz.get) <? b.(FrequencyKHz.get).

(** [if let (Some(min), Some(max)) = .. { if min > max .. }] *)
Definition range_reversed (min max : option FrequencyKHz.t) : bool :=
  match min, max with Some min, Some max => khz_lt max min | _, _ => false end.

Definition cmp_policy (a b : CpuPolicyId.t) : comparison := cmp a.(CpuPolicyId.get) b.(CpuPolicyId.get).

(** ** Ownership *)

Definition node_for_mutation (m : PlannedMutation.t) : Result CpuNode.t :=
  match m.(PlannedMutation.kind) with
  | MutationKind.CpuFrequency policy _ _ => Ok (CpuNode.Frequency policy)
  | MutationKind.CpuGovernor policy _ => Ok (CpuNode.Governor policy)
  | MutationKind.CpuEnergyPreference policy _ => Ok (CpuNode.EnergyPreference policy)
  | MutationKind.CpuBoost _ => Ok (CpuNode.Boost None)
  | MutationKind.PlatformProfile _ => Ok CpuNode.PlatformProfile
  | _ => Err (unsupported "CPU backend does not own this typed operation")
  end.

Definition expected_target (m : PlannedMutation.t) : Result TargetId.t :=
  match m.(PlannedMutation.kind) with
  | MutationKind.CpuFrequency policy _ _ | MutationKind.CpuGovernor policy _
  | MutationKind.CpuEnergyPreference policy _ =>
    map_err (λ _, target_error "CPU policy target is invalid")
      (TargetId.new ("cpu.policy." +:+ pretty policy.(CpuPolicyId.get)))
  | MutationKind.CpuBoost _ =>
    map_err (λ _, target_error "CPU boost target is invalid") (TargetId.new CPU_BOOST_TARGET)
  | MutationKind.PlatformProfile _ =>
    map_err (λ _, target_error "platform profile target is invalid") (TargetId.new PLATFORM_PROFILE_TARGET)
  | _ => Err (unsupported "CPU backend does not own this typed operation")
  end.

(** The [matches!] on kind and state. *)
Definition matching_shape (kind : MutationKind.t) (typed : TypedValue.t) : bool :=
  match kind, typed with
  | MutationKind.CpuFrequency _ _ _, TypedValue.CpuFrequency _ _
  | MutationKind.CpuGovernor _ _, TypedValue.Governor _
  | MutationKind.CpuEnergyPreference _ _, TypedValue.EnergyPreference _
  | MutationKind.CpuBoost _, TypedValue.CpuBoost _
  | MutationKind.PlatformProfile _, TypedValue.PlatformProfile _ => true
  | _, _ => false
  end.

Definition or_else {A} (o : option A) (d : option A) : option A :=
  match o with Some _ => o | None => d end.

Definition effective_desired (m : PlannedMutation.t) (current : TypedValue.t) : Result TypedValue.t :=
  match m.(PlannedMutation.kind), m.(PlannedMutation.desired), current with
  | MutationKind.CpuFrequency _ _ _, TypedValue.CpuFrequency desired_min desired_max,
    TypedValue.CpuFrequency current_min current_max =>
    let min_khz := or_else desired_min current_min in
    let max_khz := or_else desired_max current_max in
    if is_none min_khz || is_none max_khz
    then Err (target_error "CPU frequency state is incomplete for a reversible mutation")
    else Ok (TypedValue.CpuFrequency min_khz max_khz)
  | _, desired, _ => Ok desired
  end.

(** A frequency state with both ends, in order. *)
Definition valid_range (typed : TypedValue.t) : bool :=
  match typed with
  | TypedValue.CpuFrequency (Some min) (Some max) => min.(FrequencyKHz.get) <=? max.(FrequencyKHz.get)
  | _ => false
  end.

Definition is_frequency (kind : MutationKind.t) : bool :=
  match kind with MutationKind.CpuFrequency _ _ _ => true | _ => false end.

Definition validate_state (m : PlannedMutation.t) (state : CpuNodeState.t) : Result unit :=
  if bool_decide (state.(CpuNodeState.target_identity).(TargetIdentity.as_bytes) = array_repeat 16 x00)
     || negb (bool_decide (state.(CpuNodeState.fingerprint)
                           = fingerprint_for_value (PlanValue.Typed state.(CpuNodeState.typed))))
  then Err (SysboostError.new ErrorCode.TargetError
              "CPU adapter returned invalid target identity or value fingerprint"
            |> SysboostError.with_stage Stage.Snapshot
            |> SysboostError.with_mutation m.(PlannedMutation.mutation_id))
  else if negb (matching_shape m.(PlannedMutation.kind) state.(CpuNodeState.typed))
          || negb (bool_decide (state.(CpuNodeState.fingerprint) = m.(PlannedMutation.precondition)))
  then Err (SysboostError.new ErrorCode.TargetError
              "CPU target changed or its typed state does not match the plan precondition"
            |> SysboostError.with_stage Stage.Snapshot
            |> SysboostError.with_mutation m.(PlannedMutation.mutation_id))
  else if is_frequency m.(PlannedMutation.kind) && negb (valid_range state.(CpuNodeState.typed))
  then Err (target_error "CPU frequency snapshot does not contain a complete valid range"
            |> SysboostError.with_stage Stage.Snapshot
            |> SysboostError.with_mutation m.(PlannedMutation.mutation_id))
  else
    desired ← effective_desired m state.(CpuNodeState.typed);
    if bool_decide (desired = state.(CpuNodeState.typed))
    then Err (SysboostError.new ErrorCode.InvariantViolation
                "CPU mutation is already equal to its current typed state"
              |> SysboostError.with_stage Stage.Plan
              |> SysboostError.with_mutation m.(PlannedMutation.mutation_id))
    else Ok tt.

(** [Boost(None)] is pinned to the interface of the read. *)
Definition resolved_node (node : CpuNode.t) (state : CpuNodeState.t) : CpuNode.t :=
  match node with
  | CpuNode.Boost None => CpuNode.Boost state.(CpuNodeState.boost_interface)
  | other => other
  end.

Definition backend_descriptor : BackendDescriptor.t :=
  BackendDescriptor.mk (BackendId.mk CPU_BACKEND_ID) "0.1.0-cpu"
    (CapabilityId.mk <$> ["cpu.policy.frequency.min"; "cpu.policy.frequency.max"; "cpu.policy.governor";
       "cpu.policy.energy_preference"; "cpu.policy.boost"; "platform.profile"])
    (OperationId.mk <$> ["cpu.frequency"; "cpu.governor"; "cpu.energy_preference"; "cpu.boost";
       "platform.profile"]).

(** The capability of the mutation is one the operation may use. *)
Definition capability_owned (m : PlannedMutation.t) : option bool :=
  let is_capability name := bool_decide (m.(PlannedMutation.capability) = CapabilityId.mk name) in
  match m.(PlannedMutation.kind) with
  | MutationKind.CpuFrequency _ _ _ =>
    Some (is_capability "cpu.policy.frequency.min" || is_capability "cpu.policy.frequency.max")
  | MutationKind.CpuGovernor _ _ => Some (is_capability "cpu.policy.governor")
  | MutationKind.CpuEnergyPreference _ _ => Some (is_capability "cpu.policy.energy_preference")
  | MutationKind.CpuBoost _ => Some (is_capability "cpu.policy.boost")
  | MutationKind.PlatformProfile _ => Some (is_capability "platform.profile")
  | _ => None
  end.

(** ** The backend over its port *)

Module CpuBackend.
Record t (S : Type) := mk { io : S; descriptor : BackendDescriptor.t }.
Arguments mk {_} _ _.
Arguments io {_} _.
Arguments descriptor {_} _.
Definition new {S} (io : S) : t S := mk io backend_descriptor.
End CpuBackend.

Section Backend.
Context {S : Type} `{!CpuControlIo.t S}.

(** A read through the port. *)
Definition read_node (node : CpuNode.t) : Mut S CpuNodeState.t :=
  s ← get; lift (CpuControlIo.read s node).

Definition validate_target_state (s : S) (m : PlannedMutation.t) (expected : TargetIdentity.t) :
    Result (CpuNode.t * CpuNodeState.t) :=
  expected_target ← expected_target m;
  if negb (bool_decide (m.(PlannedMutation.target) = expected_target))
  then Err (target_error "CPU mutation target is not the canonical backend target"
            |> SysboostError.with_mutation m.(PlannedMutation.mutation_id))
  else
    node ← node_for_mutation m;
    state ← CpuControlIo.read s node;
    if negb (bool_decide (state.(CpuNodeState.target_identity) = expected))
    then Err (target_error "CPU target identity changed since planning"
              |> SysboostError.with_mutation m.(PlannedMutation.mutation_id)
              |> SysboostError.with_target m.(PlannedMutation.target))
    else
      _ ← map_err (SysboostError.with_mutation m.(PlannedMutation.mutation_id))
            (CpuControlIo.validate_desired s node m.(PlannedMutation.desired));
      Ok (node, state).

Definition restore_after_failed_apply (node : CpuNode.t) (snap : Snapshot.t) : Mut S unit :=
  current ← read_node node;
  if negb (bool_decide (current.(CpuNodeState.target_identity) = snap.(Snapshot.target_identity)))
  then throw (target_error "CPU target identity changed during failed apply")
  else
    let resolved := resolved_node node current in
    _ ← CpuControlIo.write resolved snap.(Snapshot.original_typed);
    restored ← read_node resolved;
    if negb (bool_decide (restored.(CpuNodeState.target_identity) = snap.(Snapshot.target_identity)))
       || negb (bool_decide (restored.(CpuNodeState.fingerprint) = snap.(Snapshot.original_fingerprint)))
    then throw (SysboostError.new ErrorCode.RestoreError
                  "CPU backend could not prove its internal failed-apply restore")
    else mret tt.

Definition snapshot_internal (m : PlannedMutation.t) (now : Timestamp.t) : Mut S Snapshot.t :=
  node ← lift (node_for_mutation m);
  state ← read_node node;
  _ ← lift (validate_state m state);
  mret (Snapshot.mk m.(PlannedMutation.mutation_id) m.(PlannedMutation.target)
          state.(CpuNodeState.raw) state.(CpuNodeState.typed) state.(CpuNodeState.fingerprint)
          EqualityKind.ScalarExact state.(CpuNodeState.target_identity) now).

(** The three failures after the write all restore first and report how that
    went. *)
Definition failed_apply {A} (node : CpuNode.t) (snap : Snapshot.t) (error : SysboostError.t) : Mut S A :=
  recovery ← catch (restore_after_failed_apply node snap);
  throw (SysboostError.retryable
           match recovery with Ok _ => Retryability.Retry | Err _ => Retryability.Unknown end error).

Definition apply_internal (m : PlannedMutation.t) (snap : Snapshot.t) : Mut S ApplyReceipt.t :=
  node ← lift (node_for_mutation m);
  current ← read_node node;
  if negb (bool_decide (current.(CpuNodeState.target_identity) = snap.(Snapshot.target_identity)))
     || negb (bool_decide (current.(CpuNodeState.fingerprint) = m.(PlannedMutation.precondition)))
  then throw (target_error "CPU target changed before apply")
  else
    s ← get;
    _ ← lift (CpuControlIo.validate_desired s node m.(PlannedMutation.desired));
    desired ← lift (effective_desired m current.(CpuNodeState.typed));
    let resolved := resolved_node node current in
    written ← catch (CpuControlIo.write resolved m.(PlannedMutation.desired));
    match written with
    | Err error => failed_apply node snap error
    | Ok _ =>
      after ← catch (read_node resolved);
      match after with
      | Err error => failed_apply node snap error
      | Ok after =>
        if negb (bool_decide (after.(CpuNodeState.target_identity) = snap.(Snapshot.target_identity)))
           || negb (bool_decide (after.(CpuNodeState.fingerprint)
                                 = fingerprint_for_value (PlanValue.Typed desired)))
        then failed_apply node snap
               (SysboostError.new ErrorCode.VerificationError
                  "CPU apply readback did not prove the desired typed value")
        else mret (ApplyReceipt.mk m.(PlannedMutation.mutation_id) current.(CpuNodeState.fingerprint)
                     after.(CpuNodeState.fingerprint) after.(CpuNodeState.fingerprint))
      end
    end.

Definition verify_internal (m : PlannedMutation.t) (expected : TargetIdentity.t) : Mut S StateFingerprint.t :=
  node ← lift (node_for_mutation m);
  state ← read_node node;
  if negb (bool_decide (state.(CpuNodeState.target_identity) = expected))
  then throw (target_error "CPU target identity changed during verification")
  else mret state.(CpuNodeState.fingerprint).

Definition restore_internal (m : PlannedMutation.t) (snap : Snapshot.t)
    (expected_ownership : StateFingerprint.t) : Mut S RestoreReceipt.t :=
  node ← lift (node_for_mutation m);
  current ← read_node node;
  if negb (bool_decide (current.(CpuNodeState.target_identity) = snap.(Snapshot.target_identity)))
  then throw (target_error "CPU target identity changed before restore")
  else if negb (bool_decide (current.(CpuNodeState.fingerprint) = expected_ownership))
  then throw (SysboostError.new ErrorCode.RestoreConflict
                "CPU target changed outside this session; restore refused")
  else
    let resolved := resolved_node node current in
    _ ← CpuControlIo.write resolved snap.(Snapshot.original_typed);
    restored ← read_node resolved;
    if negb (bool_decide (restored.(CpuNodeState.target_identity) = snap.(Snapshot.target_identity)))
       || negb (bool_decide (restored.(CpuNodeState.fingerprint) = snap.(Snapshot.original_fingerprint)))
    then throw (SysboostError.new ErrorCode.RestoreError
                  "CPU restore readback did not prove the captured original")
    else mret (RestoreReceipt.mk m.(PlannedMutation.mutation_id) restored.(CpuNodeState.fingerprint) true).

Definition validate_target (s : S) (m : PlannedMutation.t) (expected : TargetIdentity.t) : Result unit :=
  '(_, state) ← validate_target_state s m expected;
  if bool_decide (state.(CpuNodeState.fingerprint) = m.(PlannedMutation.precondition)) then Ok tt
  else Err (target_error "CPU target value changed since planning").

Definition validate_admission (b : CpuBackend.t S) (m : PlannedMutation.t) (expected : TargetIdentity.t) :
    Result unit :=
  match capability_owned m with
  | None => Err (unsupported "CPU backend does not own this typed operation"
                 |> SysboostError.with_mutation m.(PlannedMutation.mutation_id))
  | Some owned =>
    if negb (bool_decide (operation_id m.(PlannedMutation.kind)
                          ∈ b.(CpuBackend.descriptor).(BackendDescriptor.operations)))
       || negb owned
    then Err (unsupported "CPU operation and capability ownership do not match"
              |> SysboostError.with_capability m.(PlannedMutation.capability)
              |> SysboostError.with_mutation m.(PlannedMutation.mutation_id))
    else validate_target b.(CpuBackend.io) m expected
  end.

(** ** Detection *)

Definition cpu_capability_descriptor (capability operation : string) (target_kind : TargetKind.t)
    (available : bool) (classification : FeatureClass.t) : CapabilityDescriptor.t :=
  CapabilityDescriptor.mk (CapabilityId.mk capability) (BackendId.mk CPU_BACKEND_ID) target_kind
    (if available then CapabilityState.Available else CapabilityState.Unsupported)
    [OperationDescriptor.mk (OperationId.mk operation) PrivilegeRequirement.PrivilegedMutation
       EqualityKind.ScalarExact classification]
    PrivilegeRequirement.PrivilegedMutation EqualityKind.ScalarExact
    (if bool_decide (classification = FeatureClass.Conditional) then RiskClass.Medium else RiskClass.Low)
    classification [CapabilityEvidence.mk EvidenceSource.Sysfs "reviewed typed CPU backend"].

(** The node reads, and the interface advertises a value for it. *)
Definition readable (s : S) (node : CpuNode.t) : bool := is_ok (CpuControlIo.read s node).
Definition advertised (s : S) (node : CpuNode.t) : bool :=
  match CpuControlIo.choices s node with Ok l => negb (bool_decide (l = [])) | Err _ => false end.

Definition detect (s : S) (observed_at : Result Timestamp.t) : Result CapabilityInventory.t :=
  policies ← match CpuControlIo.list_policies s with
             | Ok policies => Ok policies
             | Err error => if bool_decide (error.(SysboostError.code) = ErrorCode.Unsupported)
                            then Ok [] else Err error
             end;
  let available node := existsb (λ p, readable s (node p) && advertised s (node p)) policies in
  let governor := available CpuNode.Governor in
  let epp := available CpuNode.EnergyPreference in
  let frequency := existsb (λ p, readable s (CpuNode.Frequency p)) policies in
  let boost := readable s (CpuNode.Boost None) in
  let profile := readable s CpuNode.PlatformProfile && advertised s CpuNode.PlatformProfile in
  observed_at ← observed_at;
  Ok (CapabilityInventory.mk observed_at
    [cpu_capability_descriptor "cpu.policy.frequency.min" "cpu.frequency" TargetKind.CpuPolicy
       frequency FeatureClass.RuntimeMutable;
     cpu_capability_descriptor "cpu.policy.frequency.max" "cpu.frequency" TargetKind.CpuPolicy
       frequency FeatureClass.RuntimeMutable;
     cpu_capability_descriptor "cpu.policy.governor" "cpu.governor" TargetKind.CpuPolicy
       governor FeatureClass.RuntimeMutable;
     cpu_capability_descriptor "cpu.policy.energy_preference" "cpu.energy_preference" TargetKind.CpuPolicy
       epp FeatureClass.RuntimeMutable;
     cpu_capability_descriptor "cpu.policy.boost" "cpu.boost" TargetKind.CpuSystem
       boost FeatureClass.RuntimeMutable;
     cpu_capability_descriptor "platform.profile" "platform.profile" TargetKind.CpuSystem
       profile FeatureClass.Conditional]).

(** ** The backend as a [MutationBackend] *)

Definition on_io {A} (m : Mut S A) : Mut (CpuBackend.t S) A := λ b,
  let '(res, s) := m b.(CpuBackend.io) in (res, CpuBackend.mk s b.(CpuBackend.descriptor)).

#[export] Instance cpu_backend : MutationBackend.t (CpuBackend.t S) := {|
  MutationBackend.descriptor := CpuBackend.descriptor;
  MutationBackend.owns_backend b := MutationBackend.default_owns_backend b.(CpuBackend.descriptor);
  MutationBackend.snapshot m now := on_io (snapshot_internal m now);
  MutationBackend.apply m snap := on_io (apply_internal m snap);
  MutationBackend.verify m _ identity := on_io (verify_internal m identity);
  MutationBackend.restore m snap ownership := on_io (restore_internal m snap ownership);
  MutationBackend.validate_target b := validate_target b.(CpuBackend.io);
  MutationBackend.validate_admission := validate_admission
|}.
End Backend.

(** ** The operation catalog *)

Definition with_raw_preimage (c : SnapshotContract.t) : SnapshotContract.t :=
  SnapshotContract.mk c.(SnapshotContract.defined) c.(SnapshotContract.typed_preimage) true
    c.(SnapshotContract.equality).

Definition complete_cpu_contract (operation capability : string) (target_kind : TargetKind.t)
    (control : ControlId.t) (equality : EqualityKind.t) (risk : RiskClass.t)
    (classification : FeatureClass.t) (explicit_opt_in : bool) (dependencies : list OperationId.t) :
    OperationContract.t :=
  let c := OperationContract.complete (OperationId.mk operation) (CapabilityId.mk capability)
             (BackendId.mk CPU_BACKEND_ID) target_kind control equality risk classification explicit_opt_in in
  OperationContract.mk c.(OperationContract.operation) c.(OperationContract.capability)
    c.(OperationContract.backend) c.(OperationContract.target_kind) c.(OperationContract.control)
    c.(OperationContract.equality) c.(OperationContract.risk) c.(OperationContract.classification)
    c.(OperationContract.explicit_opt_in) c.(OperationContract.target_identity_required)
    c.(OperationContract.current_state_required) dependencies
    (with_raw_preimage c.(OperationContract.snapshot))
    c.(OperationContract.restore) c.(OperationContract.verification).

(** The dependencies of the energy preference are set after its contract is
    built. *)
Definition cpu_operation_catalog : OperationCatalog.t :=
  OperationCatalog.new
    [complete_cpu_contract "cpu.frequency" "cpu.policy.frequency.max" TargetKind.CpuPolicy
       ControlId.CpuFrequency EqualityKind.ScalarExact RiskClass.Medium FeatureClass.RuntimeMutable false [];
     complete_cpu_contract "cpu.governor" "cpu.policy.governor" TargetKind.CpuPolicy
       ControlId.CpuGovernor EqualityKind.ScalarExact RiskClass.Low FeatureClass.RuntimeMutable false [];
     complete_cpu_contract "cpu.energy_preference" "cpu.policy.energy_preference" TargetKind.CpuPolicy
       ControlId.CpuEnergyPreference EqualityKind.ScalarExact RiskClass.Low FeatureClass.RuntimeMutable
       false [OperationId.mk "cpu.governor"];
     complete_cpu_contract "cpu.boost" "cpu.policy.boost" TargetKind.CpuSystem
       ControlId.CpuBoost EqualityKind.ScalarExact RiskClass.Medium FeatureClass.RuntimeMutable false [];
     complete_cpu_contract "platform.profile" "platform.profile" TargetKind.CpuSystem
       ControlId.PlatformProfile EqualityKind.ScalarExact RiskClass.Medium FeatureClass.Conditional false []].
