(* ===== verification/CpuLaws.v ===== *)
(** * The CPU backend keeps the contract of the engine

    What a port promises ([CpuIoLaws]): reads report the fingerprint of their
    value, a write reaches one control only, and a write through the interface
    a read has resolved is seen by the next read.  Over every such port the
    backend is a host in the sense of [HostLaws], so the theorems of the
    transaction engine hold of it. *)
From S2P Require Import Prelude Lists Text Ids Mut Capability Mutation Decision Plan Session Digest Record Ports Registry Cpu.
Unset Default Proof Using.

(** The controls of the host; the interface behind the boost control does not
    matter. *)
Module CpuControl.
Inductive t :=
| Governor (policy : CpuPolicyId.t)
| EnergyPreference (policy : CpuPolicyId.t)
| Frequency (policy : CpuPolicyId.t)
| Boost
| PlatformProfile.
#[global] Instance t_eq_dec : EqDecision t. Proof. solve_decision. Defined.

Definition of_node (n : CpuNode.t) : t :=
  match n with
  | CpuNode.Governor p => Governor p
  | CpuNode.EnergyPreference p => EnergyPreference p
  | CpuNode.Frequency p => Frequency p
  | CpuNode.Boost _ => Boost
  | CpuNode.PlatformProfile => PlatformProfile
  end.
Definition node (c : t) : CpuNode.t :=
  match c with
  | Governor p => CpuNode.Governor p
  | EnergyPreference p => CpuNode.EnergyPreference p
  | Frequency p => CpuNode.Frequency p
  | Boost => CpuNode.Boost None
  | PlatformProfile => CpuNode.PlatformProfile
  end.
Lemma of_node_node c : of_node (node c) = c.
Proof. by destruct c. Qed.
End CpuControl.

Module CpuIoLaws.
Class t (S : Type) `{!CpuControlIo.t S} := {
  read_fingerprint s n st : CpuControlIo.read s n = Ok st →
    st.(CpuNodeState.fingerprint) = fingerprint_for_value (PlanValue.Typed st.(CpuNodeState.typed));
  write_local n v s res s' n' : CpuControlIo.write n v s = (res, s') →
    CpuControl.of_node n' ≠ CpuControl.of_node n → CpuControlIo.read s' n' = CpuControlIo.read s n';
  write_resolved n st v s res s' : CpuControlIo.read s n = Ok st →
    CpuControlIo.write (resolved_node n st) v s = (res, s') →
    CpuControlIo.read s' (resolved_node n st) = CpuControlIo.read s' n
}.
End CpuIoLaws.

Lemma resolved_control n st : CpuControl.of_node (resolved_node n st) = CpuControl.of_node n.
Proof. by destruct n as [| | |[]|]. Qed.

Section Laws.
Context {S : Type} `{!CpuControlIo.t S, !CpuIoLaws.t S}.

(** Nothing but the control of [node] is written. *)
Definition others_kept (node : CpuNode.t) (s s' : S) : Prop :=
  ∀ n, CpuControl.of_node n ≠ CpuControl.of_node node → CpuControlIo.read s' n = CpuControlIo.read s n.

#[local] Instance others_kept_preorder node : PreOrder (others_kept node).
Proof. split; [done|]. intros s1 s2 s3 H1 H2 n Hn. by rewrite H2, H1. Qed.

Lemma Keeps_read_node node n : Keeps (others_kept node) (read_node n).
Proof. intros s res s' [= _ <-]. reflexivity. Qed.

Lemma Keeps_write node n v :
  CpuControl.of_node n = CpuControl.of_node node → Keeps (others_kept node) (CpuControlIo.write n v).
Proof.
  intros E s res s' Hw n' Hn. eapply CpuIoLaws.write_local; [exact Hw|]. by rewrite E.
Qed.
#[local] Hint Resolve Keeps_read_node : keeps.

(** The control named in the snapshot is read back with its original. *)
Definition original_back (node : CpuNode.t) (snap : Snapshot.t) (s : S) : Prop :=
  ∃ st, CpuControlIo.read s node = Ok st
    ∧ st.(CpuNodeState.fingerprint) = snap.(Snapshot.original_fingerprint).

Lemma restore_after_local node snap : Keeps (others_kept node) (restore_after_failed_apply node snap).
Proof.
  unfold restore_after_failed_apply. apply Keeps_bind; [apply _|apply Keeps_read_node|intros current].
  destruct (negb _); [apply Keeps_throw; apply _|]. cbv zeta.
  apply Keeps_bind; [apply _|apply Keeps_write, resolved_control|intros _].
  apply Keeps_bind; [apply _|apply Keeps_read_node|intros restored].
  destruct (_ || _); [apply Keeps_throw|apply Keeps_ret]; apply _.
Qed.

Lemma restore_after_proves node snap (s s' : S) u :
  restore_after_failed_apply node snap s = (Ok u, s') → original_back node snap s'.
Proof.
  unfold restore_after_failed_apply. intros Hr.
  apply mut_bind_Ok in Hr as (current & s1 & [= Hc <-] & Hr). destruct (negb _); [done|]. cbv zeta in Hr.
  apply mut_bind_Ok in Hr as (w & s2 & Hw & Hr).
  apply mut_bind_Ok in Hr as (restored & s3 & [= Hres <-] & Hr).
  destruct (_ || _) eqn:Hg in Hr; [done|]. injection Hr as _ <-.
  apply orb_false_iff in Hg as [_ Hg%negb_false_iff%bool_decide_eq_true].
  exists restored. split; [|done]. rewrite <-Hres. symmetry. by eapply CpuIoLaws.write_resolved.
Qed.

(** After a failed application: restored, or reported as unknown. *)
Lemma failed_apply_spec {A} node snap error (s s' : S) (res : Result A) :
  failed_apply node snap error s = (res, s') →
  others_kept node s s' ∧ ∃ e, res = Err e
    ∧ (e.(SysboostError.retryability) ≠ Retryability.Unknown → original_back node snap s').
Proof.
  unfold failed_apply. intros Hr.
  apply mut_bind_cases in Hr as [(x & (? & ? & [=])%catch_run & _)|(x & s1 & Hc & Hr)].
  apply catch_run in Hc as (y & Hy & [= ->]). injection Hr as <- <-.
  split; [by eapply restore_after_local|]. eexists. split; [reflexivity|]. cbn.
  destruct y as [u|e]; [|done]. intros _. by eapply restore_after_proves.
Qed.

(** The live value was the planned one, the value written is the one asked
    for, and the receipt names both. *)
Definition applied (node : CpuNode.t) (m : PlannedMutation.t) (snap : Snapshot.t) (s s' : S)
    (r : ApplyReceipt.t) (st : CpuNodeState.t) (desired : TypedValue.t) : Prop :=
  CpuControlIo.read s node = Ok st
  ∧ st.(CpuNodeState.target_identity) = snap.(Snapshot.target_identity)
  ∧ st.(CpuNodeState.fingerprint) = m.(PlannedMutation.precondition)
  ∧ effective_desired m st.(CpuNodeState.typed) = Ok desired
  ∧ r.(ApplyReceipt.observed_precondition) = st.(CpuNodeState.fingerprint)
  ∧ r.(ApplyReceipt.ownership_fingerprint) = fingerprint_for_value (PlanValue.Typed desired)
  ∧ ∃ after, CpuControlIo.read s' node = Ok after
      ∧ after.(CpuNodeState.target_identity) = snap.(Snapshot.target_identity)
      ∧ after.(CpuNodeState.fingerprint) = r.(ApplyReceipt.ownership_fingerprint).

Lemma apply_internal_spec m snap (s s' : S) res :
  apply_internal m snap s = (res, s') →
  match node_for_mutation m with
  | Err _ => s' = s ∧ ∃ e, res = Err e
  | Ok node =>
    others_kept node s s'
    ∧ (∀ e, res = Err e → e.(SysboostError.retryability) ≠ Retryability.Unknown →
         s' = s ∨ original_back node snap s'
                  ∧ ∃ st, CpuControlIo.read s node = Ok st
                      ∧ st.(CpuNodeState.fingerprint) = m.(PlannedMutation.precondition))
    ∧ (∀ r, res = Ok r → ∃ st desired, applied node m snap s s' r st desired)
  end.
Proof.
  unfold apply_internal. intros Hr. unfold lift in Hr at 1. unfold mbind at 1, mut_bind in Hr.
  destruct (node_for_mutation m) as [node|e]; [|injection Hr as <- <-; eauto].
  apply mut_bind_cases in Hr as [(x & [= Hc <-] & ->)|(current & s1 & [= Hc <-] & Hr)]; [by split_and!; auto|].
  destruct (_ || _) eqn:Hg in Hr; [injection Hr as <- <-; by split_and!; auto|].
  apply orb_false_iff in Hg as [Hid%negb_false_iff%bool_decide_eq_true Hpre%negb_false_iff%bool_decide_eq_true].
  apply mut_bind_cases in Hr as [(x & [=] & _)|(s0 & s1 & [= <- <-] & Hr)].
  apply mut_bind_cases in Hr as [(x & [= Hv <-] & ->)|(v & s1 & [= Hv <-] & Hr)]; [by split_and!; auto|].
  apply mut_bind_cases in Hr as [(x & [= Hd <-] & ->)|(desired & s1 & [= Hd <-] & Hr)]; [by split_and!; auto|].
  cbv zeta in Hr.
  apply mut_bind_cases in Hr as [(x & (? & ? & [=])%catch_run & _)|(written & s1 & Hw & Hr)].
  apply catch_run in Hw as (y & Hw & [= ->]).
  pose proof (Keeps_write node _ _ (resolved_control node current) _ _ _ Hw) as Hk.
  assert (∀ error s2, failed_apply (A := ApplyReceipt.t) node snap error s1 = (res, s2) →
    others_kept node s s2
    ∧ (∀ e, res = Err e → e.(SysboostError.retryability) ≠ Retryability.Unknown →
         s2 = s ∨ original_back node snap s2 ∧ ∃ st, CpuControlIo.read s node = Ok st
                    ∧ st.(CpuNodeState.fingerprint) = m.(PlannedMutation.precondition))
    ∧ (∀ r, res = Ok r → ∃ st desired, applied node m snap s s2 r st desired)) as Hfail.
  { intros error s2 (Hk' & e & -> & Hb)%failed_apply_spec. split_and!; [by etrans| |done].
    intros e' [= <-] Hne. right. split; [by apply Hb|]. by exists current. }
  destruct y as [u|error]; [|by eapply Hfail].
  apply mut_bind_cases in Hr as [(x & (? & ? & [=])%catch_run & _)|(after & s2 & Ha & Hr)].
  apply catch_run in Ha as (y & [= Ha <-] & [= ->]).
  destruct y as [after|error]; [|by eapply Hfail].
  destruct (_ || _) eqn:Hg in Hr; [by eapply Hfail|]. injection Hr as <- <-.
  apply orb_false_iff in Hg as [Hid'%negb_false_iff%bool_decide_eq_true Hf'%negb_false_iff%bool_decide_eq_true].
  split_and!; [done|done|]. intros r [= <-]. exists current, desired. unfold applied.
  split_and!; try done. exists after. split_and!; [|done|done].
  rewrite <-Ha. symmetry. by eapply CpuIoLaws.write_resolved.
Qed.

(** The control is as this session left it. *)
Definition owned_live (node : CpuNode.t) (snap : Snapshot.t) (own : StateFingerprint.t) (s : S) : Prop :=
  ∃ st, CpuControlIo.read s node = Ok st
    ∧ st.(CpuNodeState.target_identity) = snap.(Snapshot.target_identity)
    ∧ st.(CpuNodeState.fingerprint) = own.

Lemma restore_internal_spec m snap own (s s' : S) res :
  restore_internal m snap own s = (res, s') →
  match node_for_mutation m with
  | Err _ => s' = s ∧ ∃ e, res = Err e
  | Ok node =>
    others_kept node s s'
    ∧ (owned_live node snap own s ∨ s' = s ∧ ∃ e, res = Err e)
    ∧ ∀ r, res = Ok r → ∃ st, CpuControlIo.read s' node = Ok st
        ∧ st.(CpuNodeState.fingerprint) = r.(RestoreReceipt.restored_fingerprint)
        ∧ r.(RestoreReceipt.restored_fingerprint) = snap.(Snapshot.original_fingerprint)
  end.
Proof.
  unfold restore_internal. intros Hr. unfold lift in Hr at 1. unfold mbind at 1, mut_bind in Hr.
  destruct (node_for_mutation m) as [node|e]; [|injection Hr as <- <-; eauto].
  apply mut_bind_cases in Hr as [(x & [= Hc <-] & ->)|(current & s1 & [= Hc <-] & Hr)];
    [by split_and!; eauto|].
  destruct (negb _) eqn:Hid in Hr; [injection Hr as <- <-; by split_and!; eauto|].
  destruct (negb _) eqn:Hown in Hr; [injection Hr as <- <-; by split_and!; eauto|]. cbv zeta in Hr.
  apply negb_false_iff, bool_decide_eq_true in Hid, Hown.
  assert (owned_live node snap own s) as Ho by by exists current.
  apply mut_bind_cases in Hr as [(x & Hw & ->)|(w & s1 & Hw & Hr)];
    pose proof (Keeps_write node _ _ (resolved_control node current) _ _ _ Hw) as Hk; [by split_and!; auto|].
  apply mut_bind_cases in Hr as [(x & [= Ha <-] & ->)|(restored & s2 & [= Ha <-] & Hr)]; [by split_and!; auto|].
  destruct (_ || _) eqn:Hg in Hr; [injection Hr as <- <-; by split_and!; auto|]. injection Hr as <- <-.
  split_and!; [done|by left|]. intros r [= <-]. exists restored. cbn.
  apply orb_false_iff in Hg as [_ Hg%negb_false_iff%bool_decide_eq_true].
  split; [|done]. rewrite <-Ha. symmetry. by eapply CpuIoLaws.write_resolved.
Qed.

Lemma snapshot_internal_spec m now (s s' : S) res :
  snapshot_internal m now s = (res, s') →
  s' = s ∧ ∀ snap, res = Ok snap → ∃ node st,
    node_for_mutation m = Ok node ∧ CpuControlIo.read s node = Ok st ∧ validate_state m st = Ok tt
    ∧ snap.(Snapshot.original_fingerprint) = st.(CpuNodeState.fingerprint)
    ∧ snap.(Snapshot.original_typed) = st.(CpuNodeState.typed)
    ∧ snap.(Snapshot.target_identity) = st.(CpuNodeState.target_identity).
Proof.
  unfold snapshot_internal. intros Hr.
  apply mut_bind_cases in Hr as [(x & [= Hn <-] & ->)|(node & s1 & [= Hn <-] & Hr)]; [done|].
  apply mut_bind_cases in Hr as [(x & [= Hn' <-] & ->)|(st & s1 & [= Hst <-] & Hr)]; [done|].
  apply mut_bind_cases in Hr as [(x & [= Hv <-] & ->)|([] & s1 & [= Hv <-] & Hr)]; [done|].
  injection Hr as <- <-. split; [done|]. intros snap [= <-]. exists node, st. done.
Qed.

Lemma verify_internal_spec m i (s s' : S) res :
  verify_internal m i s = (res, s') →
  s' = s ∧ ∀ x, res = Ok x → ∃ node st,
    node_for_mutation m = Ok node ∧ CpuControlIo.read s node = Ok st ∧ x = st.(CpuNodeState.fingerprint).
Proof.
  unfold verify_internal. intros Hr.
  apply mut_bind_cases in Hr as [(x & [= Hn <-] & ->)|(node & s1 & [= Hn <-] & Hr)]; [done|].
  apply mut_bind_cases in Hr as [(x & [= Hn' <-] & ->)|(st & s1 & [= Hst <-] & Hr)]; [done|].
  destruct (negb _); injection Hr as <- <-; (split; [done|]); [done|].
  intros x [= <-]. by exists node, st.
Qed.

(** C10. Over every port that keeps [CpuIoLaws], an application ends in one of
    three ways: it succeeds, over the planned value, and the control then reads
    as the desired value under the identity of the snapshot; it fails with the
    original value proved back or nothing written; or its error says that the
    state is unknown.  In each of them no other control has changed. *)
Theorem cpu_apply_outcomes m snap node (s s' : S) res :
  node_for_mutation m = Ok node → apply_internal m snap s = (res, s') →
  others_kept node s s'
  ∧ match res with
    | Ok r => ∃ st desired, applied node m snap s s' r st desired
    | Err e => s' = s ∨ original_back node snap s' ∨ e.(SysboostError.retryability) = Retryability.Unknown
    end.
Proof.
  intros Hn Hr%apply_internal_spec. rewrite Hn in Hr. destruct Hr as (Hk & He & Ho). split; [done|].
  destruct res as [r|e]; [by apply Ho|].
  destruct (decide (e.(SysboostError.retryability) = Retryability.Unknown)) as [|Hne]; [by auto|].
  destruct (He e eq_refl Hne) as [|[? _]]; auto.
Qed.

(** C9. A restore touches the host only when the control still reads as the
    session left it, under the identity of the snapshot; a receipt means that
    the original is back.  No other control changes. *)
Theorem cpu_restore_compares m snap own node (s s' : S) res :
  node_for_mutation m = Ok node → restore_internal m snap own s = (res, s') →
  others_kept node s s'
  ∧ (¬ owned_live node snap own s → s' = s ∧ is_ok res = false)
  ∧ (is_ok res = true → original_back node snap s').
Proof.
  intros Hn Hr%restore_internal_spec. rewrite Hn in Hr. destruct Hr as (Hk & Ho & Hr).
  split_and!; [done| |].
  - intros Hnot. destruct Ho as [|[-> [e ->]]]; done.
  - destruct res as [r|]; [|done]. intros _. destruct (Hr r eq_refl) as (st & ? & ? & ?).
    exists st. split; [done|congruence].
Qed.

(** ** The host behind the backend *)

Definition cpu_key (m : PlannedMutation.t) : option CpuControl.t :=
  match node_for_mutation m with Ok n => Some (CpuControl.of_node n) | Err _ => None end.

Definition cpu_live (b : CpuBackend.t S) (k : option CpuControl.t) : option StateFingerprint.t :=
  match k with
  | Some c => match CpuControlIo.read b.(CpuBackend.io) (CpuControl.node c) with
              | Ok st => Some st.(CpuNodeState.fingerprint)
              | Err _ => None
              end
  | None => None
  end.

Lemma node_for_canonical m n : node_for_mutation m = Ok n → CpuControl.node (CpuControl.of_node n) = n.
Proof. unfold node_for_mutation. destruct (PlannedMutation.kind m); by intros [= <-]. Qed.

Lemma cpu_key_node m n : node_for_mutation m = Ok n → cpu_key m = Some (CpuControl.of_node n).
Proof. unfold cpu_key. by intros ->. Qed.

Lemma live_key m n st (b : CpuBackend.t S) :
  node_for_mutation m = Ok n → CpuControlIo.read b.(CpuBackend.io) n = Ok st →
  cpu_live b (cpu_key m) = Some st.(CpuNodeState.fingerprint).
Proof.
  intros Hn Hr. rewrite (cpu_key_node _ _ Hn). unfold cpu_live.
  by rewrite (node_for_canonical _ _ Hn), Hr.
Qed.

Lemma live_others m n (b b' : CpuBackend.t S) k :
  node_for_mutation m = Ok n → others_kept n b.(CpuBackend.io) b'.(CpuBackend.io) →
  k ≠ cpu_key m → cpu_live b' k = cpu_live b k.
Proof.
  intros Hn Hk Hne. rewrite (cpu_key_node _ _ Hn) in Hne. destruct k as [c|]; [|done].
  unfold cpu_live. rewrite Hk; [done|]. rewrite CpuControl.of_node_node. congruence.
Qed.

Lemma on_io_run {A} (m : Mut S A) b res b' :
  on_io m b = (res, b') → m b.(CpuBackend.io) = (res, b'.(CpuBackend.io)).
Proof. unfold on_io. destruct (m _) as [r s] eqn:E. by intros [= <- <-]. Qed.

#[export] Instance cpu_host_laws : HostLaws.t (CpuBackend.t S) (option CpuControl.t).
Proof.
  refine {| HostLaws.key := cpu_key; HostLaws.live := cpu_live |}.
  - intros m at_ b res b' k Hr%on_io_run. apply snapshot_internal_spec in Hr as [Hr _].
    unfold cpu_live. by rewrite Hr.
  - intros m at_ b s b' Hr%on_io_run. apply snapshot_internal_spec in Hr as [_ Hr].
    destruct (Hr _ eq_refl) as (n & st & Hn & Hst & _ & -> & _). by eapply live_key.
  - intros m f i b res b' k Hr%on_io_run. apply verify_internal_spec in Hr as [Hr _].
    unfold cpu_live. by rewrite Hr.
  - intros m f i b x b' Hr%on_io_run. apply verify_internal_spec in Hr as [_ Hr].
    destruct (Hr _ eq_refl) as (n & st & Hn & Hst & ->). by eapply live_key.
  - intros m s b res b' k Hr%on_io_run Hk. apply apply_internal_spec in Hr.
    destruct (node_for_mutation m) as [n|] eqn:Hn.
    + eapply live_others; [exact Hn|apply Hr|done].
    + destruct Hr as [Hr _]. unfold cpu_live. by rewrite Hr.
  - intros m s b e b' k Hpre Hr%on_io_run He. apply apply_internal_spec in Hr.
    destruct (node_for_mutation m) as [n|] eqn:Hn; [|destruct Hr as [Hr _]; unfold cpu_live; by rewrite Hr].
    destruct Hr as (Hk & Hr & _). destruct (Hr e eq_refl He) as [Hs|((st & Hst & Hf) & st0 & Hst0 & Hf0)].
    { unfold cpu_live. by rewrite Hs. }
    destruct (decide (k = cpu_key m)) as [->|Hne]; [|by eapply live_others].
    rewrite (live_key _ _ _ _ Hn Hst), (live_key _ _ _ _ Hn Hst0). congruence.
  - intros m s f b res b' k Hr%on_io_run Hk. apply restore_internal_spec in Hr.
    destruct (node_for_mutation m) as [n|] eqn:Hn.
    + eapply live_others; [exact Hn|apply Hr|done].
    + destruct Hr as [Hr _]. unfold cpu_live. by rewrite Hr.
  - intros m s f b r b' Hr%on_io_run _. apply restore_internal_spec in Hr.
    destruct (node_for_mutation m) as [n|] eqn:Hn; [|by destruct Hr as [_ [? ?]]].
    destruct Hr as (_ & _ & Hr). destruct (Hr _ eq_refl) as (st & Hst & <- & _). by eapply live_key.
Defined.

Lemma on_io_descriptor {A} (m : Mut S A) b :
  CpuBackend.descriptor (snd (on_io m b)) = CpuBackend.descriptor b.
Proof. unfold on_io. by destruct (m _). Qed.

#[export] Instance cpu_descriptor_laws : DescriptorLaws.t (CpuBackend.t S).
Proof. split; intros; apply on_io_descriptor. Qed.
End Laws.
