(* ===== verification/CpuFixture.v ===== *)
(** * The CPU fixture ([CpuFixture] of sysboost-linux/src/cpu.rs)

    The deterministic in-memory port the backend is tested over, and the laws
    it keeps.  A poisoned lock is not modelled. *)
From Stdlib Require Import Strings.Byte.
From stdpp Require Import pretty.
From S2P Require Import Prelude Lists Text Ids Mut Capability Mutation Decision Plan Digest Cpu CpuLaws.
Local Open Scope N_scope.

#[export] Instance CpuPolicyId_countable : Countable CpuPolicyId.t.
Proof. apply (inj_countable' CpuPolicyId.get CpuPolicyId.mk). by intros []. Defined.

Module CpuFixturePolicy.
Record t := mk {
  identity : TargetIdentity.t;
  governor : GovernorId.t;
  governor_choices : list GovernorId.t;
  epp : EnergyPreference.t;
  epp_choices : list EnergyPreference.t;
  min_khz : FrequencyKHz.t;
  max_khz : FrequencyKHz.t;
  hardware_min : FrequencyKHz.t;
  hardware_max : FrequencyKHz.t
}.
Definition set_identity (i : TargetIdentity.t) (x : t) : t :=
  mk i x.(governor) x.(governor_choices) x.(epp) x.(epp_choices) x.(min_khz) x.(max_khz)
    x.(hardware_min) x.(hardware_max).
Definition set_governor (g : GovernorId.t) (x : t) : t :=
  mk x.(identity) g x.(governor_choices) x.(epp) x.(epp_choices) x.(min_khz) x.(max_khz)
    x.(hardware_min) x.(hardware_max).
Definition set_epp (e : EnergyPreference.t) (x : t) : t :=
  mk x.(identity) x.(governor) x.(governor_choices) e x.(epp_choices) x.(min_khz) x.(max_khz)
    x.(hardware_min) x.(hardware_max).
Definition set_range (min max : option FrequencyKHz.t) (x : t) : t :=
  mk x.(identity) x.(governor) x.(governor_choices) x.(epp) x.(epp_choices)
    (default x.(min_khz) min) (default x.(max_khz) max) x.(hardware_min) x.(hardware_max).
End CpuFixturePolicy.

Module CpuFixtureBoost.
Record t := mk { identity : TargetIdentity.t; interface : CpuBoostInterface.t; state : CpuBoostState.t }.
End CpuFixtureBoost.

Module CpuFixtureProfile.
Record t := mk { identity : TargetIdentity.t; profile : PlatformProfileId.t; choices : list PlatformProfileId.t }.
End CpuFixtureProfile.

Definition fixture_missing : SysboostError.t :=
  SysboostError.new ErrorCode.Unsupported "CPU fixture node is unavailable".

Module CpuFixture.
Record t := mk {
  policies : gmap CpuPolicyId.t CpuFixturePolicy.t;
  boost : option CpuFixtureBoost.t;
  platform_profile : option CpuFixtureProfile.t;
  fail_writes : list CpuNode.t
}.
Definition new : t := mk ∅ None None [].

Definition set_policies (p : gmap CpuPolicyId.t CpuFixturePolicy.t) (x : t) : t :=
  mk p x.(boost) x.(platform_profile) x.(fail_writes).
Definition add_policy (policy : CpuPolicyId.t) (value : CpuFixturePolicy.t) (x : t) : t :=
  set_policies (<[policy := value]> x.(policies)) x.
Definition set_boost (identity : TargetIdentity.t) (interface : CpuBoostInterface.t)
    (state : CpuBoostState.t) (x : t) : t :=
  mk x.(policies) (Some (CpuFixtureBoost.mk identity interface state)) x.(platform_profile) x.(fail_writes).
Definition set_platform_profile (identity : TargetIdentity.t) (profile : PlatformProfileId.t)
    (choices : list PlatformProfileId.t) (x : t) : t :=
  mk x.(policies) x.(boost) (Some (CpuFixtureProfile.mk identity profile choices)) x.(fail_writes).
Definition fail_writes_for (node : CpuNode.t) (x : t) : t :=
  mk x.(policies) x.(boost) x.(platform_profile)
    (if bool_decide (node ∈ x.(fail_writes)) then x.(fail_writes) else node :: x.(fail_writes)).
Definition replace_policy_identity (policy : CpuPolicyId.t) (identity : TargetIdentity.t) (x : t) : t :=
  set_policies (alter (CpuFixturePolicy.set_identity identity) policy x.(policies)) x.
Definition remove_policy (policy : CpuPolicyId.t) (x : t) : t :=
  set_policies (delete policy x.(policies)) x.

Definition list_policies (x : t) : Result (list CpuPolicyId.t) :=
  Ok (sort_by cmp_policy (fst <$> map_to_list x.(policies))).

Definition policy (x : t) (p : CpuPolicyId.t) : Result CpuFixturePolicy.t :=
  ok_or (x.(policies) !! p) fixture_missing.

(** Type, identity, interface and bytes of a node. *)
Definition observe (x : t) (node : CpuNode.t) :
    Result (TypedValue.t * TargetIdentity.t * option CpuBoostInterface.t * list byte) :=
  match node with
  | CpuNode.Governor p =>
    value ← policy x p;
    Ok (TypedValue.Governor value.(CpuFixturePolicy.governor), value.(CpuFixturePolicy.identity), None,
        bytes_of_string value.(CpuFixturePolicy.governor).(GovernorId.as_str))
  | CpuNode.EnergyPreference p =>
    value ← policy x p;
    Ok (TypedValue.EnergyPreference value.(CpuFixturePolicy.epp), value.(CpuFixturePolicy.identity), None,
        bytes_of_string (render_energy value.(CpuFixturePolicy.epp)))
  | CpuNode.Frequency p =>
    value ← policy x p;
    let min := value.(CpuFixturePolicy.min_khz) in
    let max := value.(CpuFixturePolicy.max_khz) in
    Ok (TypedValue.CpuFrequency (Some min) (Some max), value.(CpuFixturePolicy.identity), None,
        bytes_of_string (pretty min.(FrequencyKHz.get)) ++ [x00]
        ++ bytes_of_string (pretty max.(FrequencyKHz.get)))
  | CpuNode.Boost _ =>
    value ← ok_or x.(boost) fixture_missing;
    Ok (TypedValue.CpuBoost value.(CpuFixtureBoost.state), value.(CpuFixtureBoost.identity),
        Some value.(CpuFixtureBoost.interface),
        bytes_of_string (boost_text value.(CpuFixtureBoost.interface) value.(CpuFixtureBoost.state)))
  | CpuNode.PlatformProfile =>
    value ← ok_or x.(platform_profile) fixture_missing;
    Ok (TypedValue.PlatformProfile value.(CpuFixtureProfile.profile), value.(CpuFixtureProfile.identity), None,
        bytes_of_string value.(CpuFixtureProfile.profile).(PlatformProfileId.as_str))
  end.

Definition read (x : t) (node : CpuNode.t) : Result CpuNodeState.t :=
  '(typed, identity, interface, raw) ← observe x node;
  raw ← BoundedBytes.new raw;
  Ok (CpuNodeState.mk raw typed (fingerprint_for_value (PlanValue.Typed typed)) identity interface).

Definition choices (x : t) (node : CpuNode.t) : Result (list TypedValue.t) :=
  match node with
  | CpuNode.Governor p =>
    value ← policy x p; Ok (TypedValue.Governor <$> value.(CpuFixturePolicy.governor_choices))
  | CpuNode.EnergyPreference p =>
    value ← policy x p; Ok (TypedValue.EnergyPreference <$> value.(CpuFixturePolicy.epp_choices))
  | CpuNode.Frequency _ => Ok []
  | CpuNode.Boost _ => Ok [TypedValue.CpuBoost CpuBoostState.Enabled; TypedValue.CpuBoost CpuBoostState.Disabled]
  | CpuNode.PlatformProfile =>
    value ← ok_or x.(platform_profile) fixture_missing;
    Ok (TypedValue.PlatformProfile <$> value.(CpuFixtureProfile.choices))
  end.

Definition validate_desired (x : t) (node : CpuNode.t) (desired : TypedValue.t) : Result unit :=
  match node with
  | CpuNode.Frequency p =>
    match desired with
    | TypedValue.CpuFrequency min_khz max_khz =>
      current ← policy x p;
      if range_reversed min_khz max_khz then Err (target_error "CPU fixture minimum exceeds maximum")
      else
        let desired_min := default current.(CpuFixturePolicy.min_khz) min_khz in
        let desired_max := default current.(CpuFixturePolicy.max_khz) max_khz in
        if khz_lt desired_max desired_min then Err (target_error "CPU fixture frequency range is invalid")
        else if khz_lt desired_min current.(CpuFixturePolicy.hardware_min)
                || khz_lt current.(CpuFixturePolicy.hardware_max) desired_min
                || khz_lt desired_max current.(CpuFixturePolicy.hardware_min)
                || khz_lt current.(CpuFixturePolicy.hardware_max) desired_max
        then Err (target_error "CPU fixture frequency is outside hardware bounds")
        else Ok tt
    | _ => Err (target_error "CPU fixture frequency value is not typed")
    end
  | _ =>
    choices ← choices x node;
    if bool_decide (desired ∈ choices) then Ok tt
    else Err (unsupported "CPU fixture desired value is not advertised")
  end.

(** [policies.get_mut(&policy).ok_or_else(fixture_missing)?] and an update. *)
Definition update_policy (p : CpuPolicyId.t) (f : CpuFixturePolicy.t → CpuFixturePolicy.t) (x : t) : Result t :=
  value ← policy x p; Ok (set_policies (<[p := f value]> x.(policies)) x).

Definition store (x : t) (node : CpuNode.t) (desired : TypedValue.t) : Result t :=
  match node, desired with
  | CpuNode.Governor p, TypedValue.Governor value => update_policy p (CpuFixturePolicy.set_governor value) x
  | CpuNode.Governor _, _ => Err (target_error "CPU fixture governor value is not typed")
  | CpuNode.EnergyPreference p, TypedValue.EnergyPreference value =>
    update_policy p (CpuFixturePolicy.set_epp value) x
  | CpuNode.EnergyPreference _, _ => Err (target_error "CPU fixture EPP value is not typed")
  | CpuNode.Frequency p, TypedValue.CpuFrequency min max =>
    update_policy p (CpuFixturePolicy.set_range min max) x
  | CpuNode.Frequency _, _ => Err (target_error "CPU fixture frequency value is not typed")
  | CpuNode.Boost _, TypedValue.CpuBoost value =>
    b ← ok_or x.(boost) fixture_missing;
    Ok (set_boost b.(CpuFixtureBoost.identity) b.(CpuFixtureBoost.interface) value x)
  | CpuNode.Boost _, _ => Err (target_error "CPU fixture boost value is not typed")
  | CpuNode.PlatformProfile, TypedValue.PlatformProfile value =>
    p ← ok_or x.(platform_profile) fixture_missing;
    Ok (set_platform_profile p.(CpuFixtureProfile.identity) value p.(CpuFixtureProfile.choices) x)
  | CpuNode.PlatformProfile, _ => Err (target_error "CPU fixture profile value is not typed")
  end.

(** A write that is to fail does so once. *)
Definition write (node : CpuNode.t) (desired : TypedValue.t) : Mut t unit := λ x,
  if bool_decide (node ∈ x.(fail_writes))
  then (Err (SysboostError.new ErrorCode.ApplyError "CPU fixture write failed"),
        mk x.(policies) x.(boost) x.(platform_profile) (filter (λ n, n ≠ node) x.(fail_writes)))
  else match store x node desired with
       | Ok x' => (Ok tt, x')
       | Err e => (Err e, x)
       end.

#[global] Instance control_io : CpuControlIo.t t := {|
  CpuControlIo.list_policies := list_policies;
  CpuControlIo.read := read;
  CpuControlIo.choices := choices;
  CpuControlIo.validate_desired := validate_desired;
  CpuControlIo.write := write
|}.
End CpuFixture.

(** ** Laws *)

Lemma observe_ext x x' n :
  (∀ p, x'.(CpuFixture.policies) !! p = x.(CpuFixture.policies) !! p) →
  x'.(CpuFixture.boost) = x.(CpuFixture.boost) →
  x'.(CpuFixture.platform_profile) = x.(CpuFixture.platform_profile) →
  CpuFixture.observe x' n = CpuFixture.observe x n.
Proof.
  intros Hp Hb Hr. unfold CpuFixture.observe, CpuFixture.policy. destruct n; by rewrite ?Hp, ?Hb, ?Hr.
Qed.

Lemma store_local x n v x' n' :
  CpuFixture.store x n v = Ok x' → CpuControl.of_node n' ≠ CpuControl.of_node n →
  CpuFixture.observe x' n' = CpuFixture.observe x n'.
Proof.
  assert (∀ p f x', CpuFixture.update_policy p f x = Ok x' →
    ∃ value, x.(CpuFixture.policies) !! p = Some value
      ∧ x' = CpuFixture.set_policies (<[p := f value]> x.(CpuFixture.policies)) x) as Hup.
  { intros p f y Hu. unfold CpuFixture.update_policy, CpuFixture.policy in Hu.
    destruct (_ !! p) as [value|]; [|done]. injection Hu as <-. eauto. }
  intros Hs Hne. destruct n as [p|p|p|i|], v; try discriminate Hs;
    unfold CpuFixture.store in Hs;
    try (apply Hup in Hs as (pol & Hv & ->)).
  4: destruct (CpuFixture.boost x) as [b|] eqn:Hb; [|done]; injection Hs as <-.
  5: destruct (CpuFixture.platform_profile x) as [b|] eqn:Hb; [|done]; injection Hs as <-.
  4,5: destruct n' as [q|q|q|j|]; cbn; try done; by destruct Hne.
  all: destruct n' as [q|q|q|j|]; cbn; try done; unfold CpuFixture.policy; cbn;
    (destruct (decide (q = p)) as [->|Hq];
      [rewrite ?lookup_insert_eq, Hv; cbn; try done; by destruct Hne
      |by rewrite ?lookup_insert_ne by done]).
Qed.

#[export] Instance fixture_io_laws : CpuIoLaws.t CpuFixture.t.
Proof.
  split.
  - intros x n st Hr. cbn in Hr. unfold CpuFixture.read in Hr.
    apply bind_Ok in Hr as ([[[typed i] interface] raw] & _ & Hr).
    apply bind_Ok in Hr as (raw' & _ & Hr). by injection Hr as <-.
  - intros n v x res x' n' Hw Hne. cbn in *. unfold CpuFixture.read.
    assert (CpuFixture.observe x' n' = CpuFixture.observe x n') as ->; [|done].
    unfold CpuFixture.write in Hw. case_bool_decide; [injection Hw as _ <-; by apply observe_ext|].
    destruct (CpuFixture.store x n v) as [y|e] eqn:Hs; injection Hw as _ <-; [|done].
    by eapply store_local.
  - intros n st v x res x' _ _. cbn. unfold resolved_node. by destruct n as [| | |[]|].
Qed.
