(* ===== verification/CpuSysfs.v ===== *)
(** * The sysfs adapter ([CpuSysfs] of sysboost-linux/src/cpu.rs)

    The kernel's tree under the approved root: what [symlink_metadata] shows
    of a path, and what the file at it reads.  How the kernel takes a write is
    a parameter; the adapter relies on it keeping the tree and the contents of
    other files ([Kernel.laws]).  A path is looked up component by component
    from the root; resolving the root itself ([CpuSysfs::new]) is not
    modelled. *)
From Stdlib Require Import Strings.Byte.
From stdpp Require Import pretty.
From S2P Require Import Prelude Lists Text Str Ids Mut Capability Mutation Decision Plan Digest Render Cpu CpuLaws.
Local Open Scope N_scope.

Module Node.
Inductive t :=
| Dir (ino : u64)
| File (ino : u64)
| Symlink
| Other
(** the metadata cannot be read *)
| Opaque.
#[global] Instance t_eq_dec : EqDecision t. Proof. solve_decision. Defined.
End Node.

Module Contents.
Inductive t := Unopenable | Unreadable | Bytes (bytes : list byte).
#[global] Instance t_eq_dec : EqDecision t. Proof. solve_decision. Defined.
End Contents.

Abbreviation path := (list string).

Module Sysfs.
Record t := mk { dev : u64; nodes : gmap path Node.t; contents : gmap path Contents.t }.
Definition set_contents (c : gmap path Contents.t) (x : t) : t := mk x.(dev) x.(nodes) c.
End Sysfs.

(** How the kernel takes the bytes of one write. *)
Module Kernel.
Inductive outcome := OpenRefused | WriteFailed | Written.
Class t := write : path → list byte → Sysfs.t → outcome * Sysfs.t.
(** A write changes the contents of its own file only. *)
Class laws `{!t} : Prop :=
  write_own p bytes x o x' : write p bytes x = (o, x') →
    ∃ c, x' = Sysfs.set_contents c x ∧ ∀ q, q ≠ p → c !! q = x.(Sysfs.contents) !! q.
End Kernel.

Definition cpufreq_path : path := ["devices"; "system"; "cpu"; "cpufreq"]%string.
Definition policy_name (p : CpuPolicyId.t) : string := "policy" +:+ pretty p.(CpuPolicyId.get).

Section Reads.
Variable x : Sysfs.t.

(** [fs::symlink_metadata]: [None] is the error [NotFound]. *)
Definition stat (p : path) : option Node.t := x.(Sysfs.nodes) !! p.

(** The loop of [cpufreq_dir] below [current]. *)
Fixpoint cpufreq_loop (current components : path) : Result path :=
  match components with
  | [] => Ok current
  | component :: rest =>
    let current := current ++ [component] in
    match stat current with
    | Some (Node.Dir _) => cpufreq_loop current rest
    | None => Err (unsupported "CPUFreq policy interface is unavailable")
    | Some Node.Opaque => Err (target_error "CPU sysfs cpufreq path cannot be inspected")
    | Some _ => Err (target_error "CPU sysfs cpufreq path has an unexpected type")
    end
  end.
Definition cpufreq_dir : Result path := cpufreq_loop [] cpufreq_path.

Fixpoint checked_loop (current components : path) (final_directory : bool) : Result path :=
  match components with
  | [] => Ok current
  | component :: rest =>
    if bool_decide (component = ""%string) || bool_decide (component = "."%string)
       || bool_decide (component = ".."%string)
    then Err (target_error "CPU backend component is not allowlisted")
    else
      let current := current ++ [component] in
      let final := bool_decide (rest = []) in
      match stat current with
      | None | Some Node.Opaque => Err (target_error "CPU sysfs target disappeared")
      | Some (Node.Dir _) => checked_loop current rest final_directory
      | Some Node.Symlink => Err (target_error "CPU sysfs target has an unexpected type")
      | Some _ => if negb final || final_directory
                  then Err (target_error "CPU sysfs target has an unexpected type")
                  else checked_loop current rest final_directory
      end
  end.
Definition checked_component_path (components : path) (final_directory : bool) : Result path :=
  match stat [] with
  | None | Some Node.Opaque => Err (target_error "CPU sysfs root disappeared")
  | Some (Node.Dir _) => checked_loop [] components final_directory
  | Some _ => Err (target_error "CPU sysfs root has an unexpected type")
  end.

Definition policy_dir (p : CpuPolicyId.t) : Result path :=
  checked_component_path (cpufreq_path ++ [policy_name p]) true.

Definition validate_final_file (p : path) : Result unit :=
  match stat p with
  | None | Some Node.Opaque => Err (target_error "CPU kernel node disappeared")
  | Some (Node.File _) => Ok tt
  | Some _ => Err (target_error "CPU kernel node is not a regular file")
  end.

Definition policy_files : list string :=
  ["scaling_governor"; "energy_performance_preference"; "scaling_min_freq"; "scaling_max_freq";
   "scaling_cur_freq"; "scaling_available_governors"; "energy_performance_available_preferences";
   "cpuinfo_min_freq"; "cpuinfo_max_freq"]%string.

Definition policy_file (p : CpuPolicyId.t) (file : string) : Result path :=
  if negb (bool_decide (file ∈ policy_files))
  then Err (target_error "CPU policy file is not allowlisted")
  else
    directory ← policy_dir p;
    let path := directory ++ [file] in
    _ ← validate_final_file path;
    Ok path.

Definition boost_name (i : CpuBoostInterface.t) : string :=
  match i with CpuBoostInterface.Boost => "boost" | CpuBoostInterface.NoTurbo => "no_turbo" end.

(** The first candidate that is there. *)
Fixpoint boost_loop (directory : path) (candidates : list CpuBoostInterface.t) :
    Result (path * option CpuBoostInterface.t) :=
  match candidates with
  | [] => Err (unsupported "CPU boost/turbo interface is unavailable")
  | selected :: rest =>
    let path := directory ++ [boost_name selected] in
    match stat path with
    | Some Node.Symlink => Err (target_error "CPU boost node is a symlink")
    | Some (Node.File _) => Ok (path, Some selected)
    | None => boost_loop directory rest
    | Some Node.Opaque => Err (target_error "CPU boost node cannot be inspected")
    | Some _ => Err (target_error "CPU boost node has an unexpected type")
    end
  end.

Definition acpi_file (file : string) : Result path :=
  directory ← checked_component_path ["firmware"; "acpi"]%string true;
  Ok (directory ++ [file]).

Definition node_path (node : CpuNode.t) : Result (path * option CpuBoostInterface.t) :=
  match node with
  | CpuNode.Governor p => path ← policy_file p "scaling_governor"; Ok (path, None)
  | CpuNode.EnergyPreference p => path ← policy_file p "energy_performance_preference"; Ok (path, None)
  | CpuNode.Frequency p => path ← policy_dir p; Ok (path, None)
  | CpuNode.Boost interface =>
    directory ← cpufreq_dir;
    boost_loop directory match interface with
                         | Some i => [i]
                         | None => [CpuBoostInterface.Boost; CpuBoostInterface.NoTurbo]
                         end
  | CpuNode.PlatformProfile => path ← acpi_file "platform_profile"; Ok (path, None)
  end.

(** Opening a link is refused; of the other nodes only files are read, up to
    the bound. *)
Definition read_file (p : path) : Result (list byte) :=
  match stat p with
  | None | Some Node.Opaque | Some Node.Symlink => Err (target_error "CPU kernel interface cannot be opened")
  | Some (Node.File _) =>
    match default (Contents.Bytes []) (x.(Sysfs.contents) !! p) with
    | Contents.Unopenable => Err (target_error "CPU kernel interface cannot be opened")
    | Contents.Unreadable => Err (target_error "CPU kernel interface cannot be read")
    | Contents.Bytes bytes =>
      if MAX_CPU_READ_BYTES <? N.of_nat (length bytes)
      then Err (target_error "CPU kernel interface value is oversized")
      else Ok bytes
    end
  | Some _ => Err (target_error "CPU kernel interface is not a regular node")
  end.

Definition identity_of (ino : u64) : TargetIdentity.t :=
  TargetIdentity.mk (array_copy 16 (to_be 8 x.(Sysfs.dev) ++ to_be 8 ino)).

Definition node_identity (p : path) : Result TargetIdentity.t :=
  match stat p with
  | None | Some Node.Opaque => Err (target_error "CPU kernel node identity cannot be inspected")
  | Some (Node.File ino) => Ok (identity_of ino)
  | Some _ => Err (target_error "CPU kernel node identity has an unexpected type")
  end.
Definition directory_identity (p : path) : Result TargetIdentity.t :=
  match stat p with
  | None | Some Node.Opaque => Err (target_error "CPU policy identity cannot be inspected")
  | Some (Node.Dir ino) => Ok (identity_of ino)
  | Some _ => Err (target_error "CPU policy identity has an unexpected type")
  end.

Definition raw_node (node : CpuNode.t) : Result (list byte * TargetIdentity.t * option CpuBoostInterface.t) :=
  '(path, interface) ← node_path node;
  raw ← match node with
        | CpuNode.Frequency p =>
          path ← policy_file p "scaling_min_freq";
          min ← read_file path;
          path ← policy_file p "scaling_max_freq";
          max ← read_file path;
          Ok (min ++ [x00] ++ max)
        | _ => read_file path
        end;
  identity ← match node with
             | CpuNode.Frequency p => directory ← policy_dir p; directory_identity directory
             | _ => node_identity path
             end;
  Ok (raw, identity, interface).

(** [raw.split(|byte| *byte == 0)] *)
Fixpoint split_zero (l : list byte) : list (list byte) :=
  match l with
  | [] => [[]]
  | b :: l' =>
    if bool_decide (b = x00) then [] :: split_zero l'
    else match split_zero l' with w :: ws => (b :: w) :: ws | [] => [[b]] end
  end.

Definition parse_raw (node : CpuNode.t) (interface : option CpuBoostInterface.t) (raw : list byte) :
    Result TypedValue.t :=
  match node with
  | CpuNode.Governor _ => TypedValue.Governor <$> parse_governor raw
  | CpuNode.EnergyPreference _ => TypedValue.EnergyPreference <$> parse_energy raw
  | CpuNode.Frequency _ =>
    match split_zero raw with
    | [min; max] =>
      min ← parse_frequency min;
      max ← parse_frequency max;
      Ok (TypedValue.CpuFrequency (Some min) (Some max))
    | _ => Err (target_error "CPU frequency state is malformed")
    end
  | CpuNode.Boost _ =>
    interface ← ok_or interface (target_error "CPU boost interface is unknown");
    TypedValue.CpuBoost <$> parse_boost interface raw
  | CpuNode.PlatformProfile => TypedValue.PlatformProfile <$> parse_profile raw
  end.

Definition parse_node (node : CpuNode.t) :
    Result (TypedValue.t * list byte * TargetIdentity.t * option CpuBoostInterface.t) :=
  '(raw, identity, interface) ← raw_node node;
  typed ← parse_raw node interface raw;
  Ok (typed, raw, identity, interface).

Definition sysfs_read (node : CpuNode.t) : Result CpuNodeState.t :=
  '(typed, raw, identity, interface) ← parse_node node;
  raw ← BoundedBytes.new raw;
  Ok (CpuNodeState.mk raw typed (fingerprint_for_value (PlanValue.Typed typed)) identity interface).

Definition choices_text (node : CpuNode.t) : Result (list string) :=
  let words bytes :=
    bytes ← bytes;
    value ← ok_or (from_utf8 bytes) (target_error "CPU kernel choices are not valid text");
    Ok (split_whitespace value) in
  match node with
  | CpuNode.Governor p => words (path ← policy_file p "scaling_available_governors"; read_file path)
  | CpuNode.EnergyPreference p =>
    words (path ← policy_file p "energy_performance_available_preferences"; read_file path)
  | CpuNode.PlatformProfile =>
    words (path ← acpi_file "platform_profile_choices"; _ ← validate_final_file path; read_file path)
  | CpuNode.Boost _ | CpuNode.Frequency _ => Ok []
  end.

Definition sysfs_choices (node : CpuNode.t) : Result (list TypedValue.t) :=
  choices ← choices_text node;
  match node with
  | CpuNode.Governor _ => mapM (λ value, TypedValue.Governor <$> GovernorId.new value) choices
  | CpuNode.EnergyPreference _ =>
    mapM (λ value, TypedValue.EnergyPreference <$> parse_energy (bytes_of_string value)) choices
  | CpuNode.PlatformProfile =>
    mapM (λ value, TypedValue.PlatformProfile <$> PlatformProfileId.new value) choices
  | CpuNode.Boost _ => Ok [TypedValue.CpuBoost CpuBoostState.Enabled; TypedValue.CpuBoost CpuBoostState.Disabled]
  | CpuNode.Frequency _ => Ok []
  end.

Definition read_optional_frequency (p : CpuPolicyId.t) (file : string) : Result (option FrequencyKHz.t) :=
  directory ← policy_dir p;
  let path := directory ++ [file] in
  match stat path with
  | Some Node.Symlink => Err (target_error "CPU hardware-bound node is a symlink")
  | Some (Node.File _) => raw ← read_file path; Some <$> parse_frequency raw
  | None => Ok None
  | Some Node.Opaque => Err (target_error "CPU hardware-bound node cannot be inspected")
  | Some _ => Err (target_error "CPU hardware-bound node has an unexpected type")
  end.

(** The current minimum and maximum of a policy. *)
Definition current_range (p : CpuPolicyId.t) : Result (FrequencyKHz.t * FrequencyKHz.t) :=
  current ← sysfs_read (CpuNode.Frequency p);
  match current.(CpuNodeState.typed) with
  | TypedValue.CpuFrequency current_min current_max =>
    current_min ← ok_or current_min (target_error "CPU minimum is unavailable");
    current_max ← ok_or current_max (target_error "CPU maximum is unavailable");
    Ok (current_min, current_max)
  | _ => Err (target_error "CPU frequency current state is malformed")
  end.

(** The value is beyond the bounds the hardware reports. *)
Definition out_of_bounds (hardware_min hardware_max : option FrequencyKHz.t) (value : FrequencyKHz.t) : bool :=
  match hardware_min with Some min => khz_lt value min | None => false end
  || match hardware_max with Some max => khz_lt max value | None => false end.

Definition sysfs_validate_desired (node : CpuNode.t) (desired : TypedValue.t) : Result unit :=
  match node with
  | CpuNode.Frequency p =>
    match desired with
    | TypedValue.CpuFrequency min_khz max_khz =>
      if range_reversed min_khz max_khz
      then Err (target_error "CPU desired minimum exceeds maximum")
      else
        '(current_min, current_max) ← current_range p;
        hardware_min ← read_optional_frequency p "cpuinfo_min_freq";
        hardware_max ← read_optional_frequency p "cpuinfo_max_freq";
        if out_of_bounds hardware_min hardware_max (default current_min min_khz)
           || out_of_bounds hardware_min hardware_max (default current_max max_khz)
        then Err (target_error "CPU desired frequency is outside kernel bounds")
        else Ok tt
    | _ => Err (target_error "CPU frequency desired value is not typed")
    end
  | _ =>
    choices ← sysfs_choices node;
    if bool_decide (choices = []) || negb (bool_decide (desired ∈ choices))
    then Err (unsupported "CPU desired value is not advertised by the kernel")
    else Ok tt
  end.

(** ** Enumeration *)

(** The names directly below a directory. *)
Definition children (directory : path) : list string :=
  omap (λ '(p, _), match p with
                   | [] => None
                   | _ => if bool_decide (removelast p = directory) then last p else None
                   end) (map_to_list x.(Sysfs.nodes)).

(** The entries in the order of the directory. *)
Fixpoint policies_loop (directory : path) (names : list string) (policies : list CpuPolicyId.t) :
    Result (list CpuPolicyId.t) :=
  match names with
  | [] => Ok policies
  | name :: rest =>
    if negb (utf8_valid (bytes_of_string name)) then policies_loop directory rest policies else
    match strip_prefix "policy" name with
    | None => policies_loop directory rest policies
    | Some number =>
      match parse_uint 32 number with
      | None => Err (target_error "CPU policy directory name is malformed")
      | Some number =>
        match stat (directory ++ [name]) with
        | None | Some Node.Opaque => Err (target_error "CPU policy directory cannot be inspected")
        | Some (Node.Dir _) =>
          let policies := policies ++ [CpuPolicyId.mk number] in
          if MAX_CPU_POLICIES <? N.of_nat (length policies)
          then Err (target_error "CPU policy enumeration exceeds its bound")
          else policies_loop directory rest policies
        | Some _ => Err (target_error "CPU policy directory is not a real directory")
        end
      end
    end
  end.

(** [dedup] drops equal neighbours. *)
Fixpoint dedup_policies (l : list CpuPolicyId.t) : list CpuPolicyId.t :=
  match l with
  | a :: (b :: _) as l' => if bool_decide (a = b) then dedup_policies l' else a :: dedup_policies l'
  | _ => l
  end.

Definition sysfs_list_policies : Result (list CpuPolicyId.t) :=
  directory ← cpufreq_dir;
  policies ← policies_loop directory (children directory) [];
  Ok (dedup_policies (sort_by cmp_policy policies)).
End Reads.

(** ** Writing *)

Definition invalid_value : SysboostError.t :=
  SysboostError.new ErrorCode.InvalidInput "CPU backend generated an invalid kernel value".

Section Writes.
Context `{!Kernel.t}.

Definition write_file (p : path) (value : string) : Mut Sysfs.t unit := λ x,
  if bool_decide (value = ""%string) || (128 <? str_len value) || contains_nul value
     || Str.contains (String NEWLINE EmptyString) value
  then (Err invalid_value, x)
  else match validate_final_file x p with
       | Err e => (Err e, x)
       | Ok _ =>
         let '(outcome, x') := Kernel.write p (bytes_of_string value) x in
         (match outcome with
          | Kernel.OpenRefused => Err (target_error "CPU kernel interface cannot be opened for writing")
          | Kernel.WriteFailed => Err (SysboostError.new ErrorCode.ApplyError "CPU kernel write failed")
          | Kernel.Written => Ok tt
          end, x')
       end.

Definition write_policy_file (p : CpuPolicyId.t) (file value : string) : Mut Sysfs.t unit :=
  x ← get; path ← lift (policy_file x p file); write_file path value.

(** The files written for a range, in order: a maximum below the current
    minimum goes after the minimum, every other one before it. *)
Definition frequency_writes (current_min current_max : FrequencyKHz.t) (min_khz max_khz : option FrequencyKHz.t) :
    Result (list (string * FrequencyKHz.t)) :=
  if range_reversed min_khz max_khz then Err (target_error "CPU desired minimum exceeds maximum")
  else
    let desired_min := default current_min min_khz in
    let desired_max := default current_max max_khz in
    if khz_lt desired_max desired_min then Err (target_error "CPU desired frequency range is invalid")
    else
      let min_first := khz_lt desired_max current_min in
      let min_write := match min_khz with
                       | Some min => if bool_decide (min = current_min) then [] else [("scaling_min_freq"%string, min)]
                       | None => []
                       end in
      let max_write := match max_khz with
                       | Some max => if bool_decide (max = current_max) then [] else [("scaling_max_freq"%string, max)]
                       | None => []
                       end in
      Ok (if min_first then min_write ++ max_write else max_write ++ min_write).

Definition write_frequency (p : CpuPolicyId.t) (desired : TypedValue.t) : Mut Sysfs.t unit :=
  match desired with
  | TypedValue.CpuFrequency min_khz max_khz =>
    x ← get;
    '(current_min, current_max) ← lift (current_range x p);
    writes ← lift (frequency_writes current_min current_max min_khz max_khz);
    mut_for_each (λ '(file, value), write_policy_file p file (pretty value.(FrequencyKHz.get))) writes
  | _ => throw (target_error "CPU frequency operation has the wrong typed value")
  end.

Definition sysfs_write (node : CpuNode.t) (desired : TypedValue.t) : Mut Sysfs.t unit :=
  match node, desired with
  | CpuNode.Governor p, TypedValue.Governor value => write_policy_file p "scaling_governor" value.(GovernorId.as_str)
  | CpuNode.Governor _, _ => throw (target_error "CPU governor desired value is not typed")
  | CpuNode.EnergyPreference p, TypedValue.EnergyPreference value =>
    write_policy_file p "energy_performance_preference" (render_energy value)
  | CpuNode.EnergyPreference _, _ => throw (target_error "CPU EPP desired value is not typed")
  | CpuNode.Frequency p, _ => write_frequency p desired
  | CpuNode.Boost (Some interface), TypedValue.CpuBoost state =>
    x ← get;
    '(path, _) ← lift (node_path x (CpuNode.Boost (Some interface)));
    write_file path (boost_text interface state)
  | CpuNode.Boost (Some _), _ => throw (target_error "CPU boost desired value is not typed")
  | CpuNode.Boost None, _ => throw (target_error "CPU boost write lacks a resolved interface")
  | CpuNode.PlatformProfile, TypedValue.PlatformProfile value =>
    x ← get;
    '(path, _) ← lift (node_path x CpuNode.PlatformProfile);
    write_file path value.(PlatformProfileId.as_str)
  | CpuNode.PlatformProfile, _ => throw (target_error "platform profile desired value is not typed")
  end.

#[export] Instance sysfs_io : CpuControlIo.t Sysfs.t := {|
  CpuControlIo.list_policies := sysfs_list_policies;
  CpuControlIo.read := sysfs_read;
  CpuControlIo.choices := sysfs_choices;
  CpuControlIo.validate_desired := sysfs_validate_desired;
  CpuControlIo.write := sysfs_write
|}.
End Writes.
