(* ===== verification/CpuSysfsLaws.v ===== *)
(** * Laws of the sysfs adapter, and the order of frequency writes

    Every write goes to the files of its own control, so over a kernel that
    keeps the other files the adapter is a port in the sense of [CpuIoLaws];
    the two writes of a frequency range never show the kernel an empty
    range. *)
From Stdlib Require Import Strings.Byte.
From stdpp Require Import pretty.
From S2P Require Import Prelude Lists Text Str Ids Mut Capability Mutation.
From S2P Require Import Decision Plan Digest Cpu CpuLaws CpuSysfs Str.
Local Open Scope N_scope.
Unset Default Proof Using.

(** ** The files of a control *)

Definition policy_path (p : CpuPolicyId.t) (file : string) : path := cpufreq_path ++ [policy_name p; file].

Definition files (c : CpuControl.t) : list path :=
  match c with
  | CpuControl.Governor p => [policy_path p "scaling_governor"]
  | CpuControl.EnergyPreference p => [policy_path p "energy_performance_preference"]
  | CpuControl.Frequency p => [policy_path p "scaling_min_freq"; policy_path p "scaling_max_freq"]
  | CpuControl.Boost => [cpufreq_path ++ ["boost"%string]; cpufreq_path ++ ["no_turbo"%string]]
  | CpuControl.PlatformProfile => [["firmware"; "acpi"; "platform_profile"]]%string
  end.

Lemma policy_name_inj p q : policy_name p = policy_name q → p = q.
Proof.
  unfold policy_name. intros E. destruct p as [p], q as [q]. f_equal. cbn in E.
  by apply (inj (String.append "policy")), (inj pretty) in E.
Qed.

Lemma files_disjoint c d q : q ∈ files c → q ∈ files d → c = d.
Proof.
  destruct c as [c|c|c| |], d as [d|d|d| |]; cbn;
    rewrite ?list_elem_of_In; cbn; unfold policy_path; cbn;
    intros; destruct_or?; subst; try done; try contradiction; f_equal;
    apply policy_name_inj; congruence.
Qed.

(** ** Where reads look *)

Lemma checked_loop_path x current components d r :
  checked_loop x current components d = Ok r → r = current ++ components.
Proof.
  revert current. induction components as [|c cs IH]; intros current; cbn.
  - intros [= <-]. by rewrite app_nil_r.
  - destruct (_ || _ || _); [done|]. destruct (stat x _) as [[| | | |]|]; try done;
      try (destruct (_ || _); [done|]); intros ->%IH; by rewrite <-app_assoc.
Qed.

Lemma checked_path x components d r : checked_component_path x components d = Ok r → r = components.
Proof.
  unfold checked_component_path. destruct (stat x []) as [[| | | |]|]; try done.
  apply checked_loop_path.
Qed.

Lemma policy_file_path x p file r : policy_file x p file = Ok r → r = policy_path p file.
Proof.
  unfold policy_file. destruct (negb _); [done|]. intros (d & Hd & Hr)%bind_Ok.
  apply bind_Ok in Hr as (u & _ & [= <-]). apply checked_path in Hd as ->.
  unfold policy_path. by rewrite <-app_assoc.
Qed.

Lemma cpufreq_dir_path x r : cpufreq_dir x = Ok r → r = cpufreq_path.
Proof.
  unfold cpufreq_dir. assert (∀ cs current, cpufreq_loop x current cs = Ok r → r = current ++ cs) as Hl.
  { induction cs as [|c cs IH]; intros current; cbn; [intros [= <-]; by rewrite app_nil_r|].
    destruct (stat x _) as [[| | | |]|]; try done. intros ->%IH. by rewrite <-app_assoc. }
  apply Hl.
Qed.

Lemma boost_loop_path x d l r i : boost_loop x d l = Ok (r, i) → ∃ j, i = Some j ∧ j ∈ l ∧ r = d ++ [boost_name j].
Proof.
  induction l as [|j l IH]; cbn; [done|].
  destruct (stat x _) as [[| | | |]|]; try done; [intros [= <- <-]; exists j; set_solver|].
  intros (k & ? & ? & ?)%IH. exists k. set_solver.
Qed.

Lemma acpi_file_path x f r : acpi_file x f = Ok r → r = ["firmware"; "acpi"; f]%string.
Proof. unfold acpi_file. intros (d & ->%checked_path & [= <-])%bind_Ok. done. Qed.

(** The path of a node other than a frequency is a file of its control. *)
Lemma node_path_files x n r i :
  node_path x n = Ok (r, i) → (∀ p, n ≠ CpuNode.Frequency p) → r ∈ files (CpuControl.of_node n).
Proof.
  destruct n as [p|p|p|j|]; cbn [node_path CpuControl.of_node files]; intros Hn Hf.
  - apply bind_Ok in Hn as (q & ->%policy_file_path & [= <- _]). set_solver.
  - apply bind_Ok in Hn as (q & ->%policy_file_path & [= <- _]). set_solver.
  - by destruct (Hf p).
  - apply bind_Ok in Hn as (d & ->%cpufreq_dir_path & Hn).
    apply boost_loop_path in Hn as ([] & _ & _ & ->); set_solver.
  - apply bind_Ok in Hn as (q & ->%acpi_file_path & [= <- _]). set_solver.
Qed.

(** ** What a write leaves *)

(** Only the contents of the files of [c] differ. *)
Definition only (c : CpuControl.t) (x x' : Sysfs.t) : Prop :=
  ∃ k, x' = Sysfs.set_contents k x ∧ ∀ q, q ∉ files c → k !! q = x.(Sysfs.contents) !! q.

#[local] Instance only_preorder c : PreOrder (only c).
Proof.
  split.
  - intros [d n k]. by exists k.
  - intros x1 x2 x3 (k & -> & Hk) (k' & -> & Hk'). exists k'. split; [done|].
    intros q Hq. rewrite Hk' by done. by apply Hk.
Qed.

Lemma read_file_other k x q :
  k !! q = x.(Sysfs.contents) !! q → read_file (Sysfs.set_contents k x) q = read_file x q.
Proof. intros E. unfold read_file, stat. cbn. by rewrite E. Qed.

(** A read looks at the contents of the files of its control only. *)
Lemma sysfs_read_ext k x n :
  (∀ q, q ∈ files (CpuControl.of_node n) → k !! q = x.(Sysfs.contents) !! q) →
  sysfs_read (Sysfs.set_contents k x) n = sysfs_read x n.
Proof.
  intros Hk. unfold sysfs_read, parse_node.
  assert (raw_node (Sysfs.set_contents k x) n = raw_node x n) as ->; [|done].
  unfold raw_node. change (node_path (Sysfs.set_contents k x) n) with (node_path x n).
  destruct (node_path x n) as [[r i]|e] eqn:Hn; cbn [mbind result_bind]; [|done].
  assert ((∀ p, n ≠ CpuNode.Frequency p) → read_file (Sysfs.set_contents k x) r = read_file x r) as Hr.
  { intros Hf. apply read_file_other, Hk. by eapply node_path_files. }
  destruct n as [p|p|p|j|]; try (rewrite Hr by done; done).
  change (policy_file (Sysfs.set_contents k x)) with (policy_file x).
  assert (∀ f, policy_path p f ∈ files (CpuControl.Frequency p) → ∀ (g : list byte → Result (list byte)),
    (path ← policy_file x p f; min ← read_file (Sysfs.set_contents k x) path; g min)
    = (path ← policy_file x p f; min ← read_file x path; g min)) as Hone.
  { intros f Hf g. destruct (policy_file x p f) as [q|] eqn:Hq; cbn [mbind result_bind]; [|done].
    apply policy_file_path in Hq as ->. by rewrite read_file_other by (by apply Hk). }
  rewrite Hone by (cbn; set_solver).
  assert (∀ min, (path ← policy_file x p "scaling_max_freq"; max ← read_file (Sysfs.set_contents k x) path;
                  Ok (min ++ [Byte.x00] ++ max) : Result _)
    = (path ← policy_file x p "scaling_max_freq"; max ← read_file x path; Ok (min ++ [Byte.x00] ++ max))) as Hmax
    by (intros min; apply Hone; cbn; set_solver).
  destruct (policy_file x p "scaling_min_freq") as [q|]; cbn [mbind result_bind]; [|done].
  destruct (read_file x q) as [min|]; cbn [mbind result_bind]; [|done]. by rewrite Hmax.
Qed.

Section Kernel.
Context `{!Kernel.t, !Kernel.laws}.

Lemma Keeps_write_file c q v : q ∈ files c → Keeps (only c) (write_file q v).
Proof.
  intros Hq x res x'. unfold write_file. destruct (_ || _); [intros [= _ <-]; reflexivity|].
  destruct (validate_final_file x q); [|intros [= _ <-]; reflexivity].
  destruct (Kernel.write _ _ _) as [o y] eqn:E. intros [= _ <-].
  destruct (Kernel.write_own _ _ _ _ _ E) as (k & -> & Hk). exists k. split; [done|].
  intros q' Hq'. apply Hk. congruence.
Qed.

Lemma Keeps_write_policy c p f v :
  policy_path p f ∈ files c → Keeps (only c) (write_policy_file p f v).
Proof.
  intros Hf x res x' Hr. unfold write_policy_file in Hr.
  apply mut_bind_cases in Hr as [(e & [=] & _)|(x0 & x1 & [= <- <-] & Hr)].
  apply mut_bind_cases in Hr as [(e & [= _ <-] & _)|(q & x1 & [= Hq <-] & Hr)]; [reflexivity|].
  apply policy_file_path in Hq as ->. by eapply Keeps_write_file.
Qed.

Lemma frequency_writes_files p current_min current_max min max l :
  frequency_writes current_min current_max min max = Ok l →
  Forall (λ w, policy_path p w.1 ∈ files (CpuControl.Frequency p)) l.
Proof.
  unfold frequency_writes. destruct (range_reversed _ _); [done|]. destruct (khz_lt _ _); [done|].
  intros [= <-]. apply Forall_forall. intros [f v] Hin.
  assert (f = "scaling_min_freq" ∨ f = "scaling_max_freq")%string as Hf.
  { destruct (khz_lt _ _), min, max; repeat case_bool_decide; cbn in Hin; set_solver. }
  cbn. destruct Hf as [-> | ->]; set_solver.
Qed.

Lemma Keeps_writes c p l :
  Forall (λ w, policy_path p w.1 ∈ files c) l →
  Keeps (only c) (mut_for_each (λ '(file, value), write_policy_file p file (pretty (FrequencyKHz.get value))) l).
Proof.
  induction 1 as [|[f v] l Hf Hl IH]; cbn; [apply Keeps_ret; apply _|].
  apply Keeps_bind; [apply _|by apply Keeps_write_policy|intros _; exact IH].
Qed.

(** Every write reaches the files of its control only. *)
Lemma sysfs_write_only n v : Keeps (only (CpuControl.of_node n)) (sysfs_write n v).
Proof.
  intros x res x' Hr. destruct n as [p|p|p|[i|]|]; cbn [CpuControl.of_node] in *.
  - destruct v; try (injection Hr as _ <-; reflexivity).
    eapply Keeps_write_policy; [|exact Hr]. cbn. set_solver.
  - destruct v; try (injection Hr as _ <-; reflexivity).
    eapply Keeps_write_policy; [|exact Hr]. cbn. set_solver.
  - cbn [sysfs_write] in Hr. unfold write_frequency in Hr.
    destruct v; try (injection Hr as _ <-; reflexivity).
    apply mut_bind_cases in Hr as [(e & [=] & _)|(x0 & x1 & [= <- <-] & Hr)].
    apply mut_bind_cases in Hr as [(e & [= _ <-] & _)|([cmin cmax] & x1 & [= _ <-] & Hr)]; [reflexivity|].
    apply mut_bind_cases in Hr as [(e & [= _ <-] & _)|(l & x1 & [= Hl <-] & Hr)]; [reflexivity|].
    eapply Keeps_writes; [|exact Hr]. by eapply frequency_writes_files.
  - destruct v; try (injection Hr as _ <-; reflexivity). cbn [sysfs_write] in Hr.
    apply mut_bind_cases in Hr as [(e & [=] & _)|(x0 & x1 & [= <- <-] & Hr)].
    apply mut_bind_cases in Hr as [(e & [= _ <-] & _)|([q j] & x1 & [= Hq <-] & Hr)]; [reflexivity|].
    eapply Keeps_write_file; [|exact Hr]. by apply (node_path_files _ (CpuNode.Boost (Some i))) in Hq.
  - destruct v; injection Hr as _ <-; reflexivity.
  - destruct v; try (injection Hr as _ <-; reflexivity). cbn [sysfs_write] in Hr.
    apply mut_bind_cases in Hr as [(e & [=] & _)|(x0 & x1 & [= <- <-] & Hr)].
    apply mut_bind_cases in Hr as [(e & [= _ <-] & _)|([q j] & x1 & [= Hq <-] & Hr)]; [reflexivity|].
    eapply Keeps_write_file; [|exact Hr]. by apply (node_path_files _ CpuNode.PlatformProfile) in Hq.
Qed.

(** Pinning the boost interface that a read found does not change what is
    read. *)
Lemma boost_pinned x i r :
  node_path x (CpuNode.Boost None) = Ok (r, i) →
  node_path x (CpuNode.Boost i) = Ok (r, i).
Proof.
  cbn [node_path]. intros (d & Hd & Hn)%bind_Ok. rewrite Hd. cbn [mbind result_bind].
  cbn [boost_loop] in Hn. destruct (stat x (d ++ [boost_name CpuBoostInterface.Boost])) as [[| | | |]|] eqn:E; try done.
  - injection Hn as <- <-. cbn [boost_loop]. by rewrite E.
  - destruct (stat x (d ++ [boost_name CpuBoostInterface.NoTurbo])) as [[| | | |]|] eqn:E'; try done.
    injection Hn as <- <-. cbn [boost_loop]. by rewrite E'.
Qed.

Lemma read_boost_interface x st :
  sysfs_read x (CpuNode.Boost None) = Ok st →
  ∃ r, node_path x (CpuNode.Boost None) = Ok (r, st.(CpuNodeState.boost_interface)).
Proof.
  unfold sysfs_read, parse_node, raw_node. intros Hr.
  destruct (node_path x (CpuNode.Boost None)) as [[r i]|]; [|done]. cbn [mbind result_bind] in Hr.
  exists r. destruct (read_file x r); [|done]. cbn [mbind result_bind] in Hr.
  destruct (node_identity x r); [|done]. cbn [mbind result_bind] in Hr.
  destruct (parse_raw _ _ _); [|done]. cbn [mbind result_bind] in Hr.
  destruct (BoundedBytes.new _); [|done]. by injection Hr as <-.
Qed.

Lemma read_pinned x x' st :
  sysfs_read x (CpuNode.Boost None) = Ok st → x'.(Sysfs.nodes) = x.(Sysfs.nodes) →
  sysfs_read x' (CpuNode.Boost st.(CpuNodeState.boost_interface)) = sysfs_read x' (CpuNode.Boost None).
Proof.
  intros Hr Hnodes. destruct (read_boost_interface _ _ Hr) as (r & Hn).
  assert (node_path x' (CpuNode.Boost None) = Ok (r, st.(CpuNodeState.boost_interface))) as Hn'.
  { rewrite <-Hn. destruct x as [d n k], x' as [d' n' k']. cbn in Hnodes. by subst. }
  pose proof (boost_pinned _ _ _ Hn') as Hp.
  unfold sysfs_read, parse_node, raw_node. by rewrite Hp, Hn'.
Qed.

#[export] Instance sysfs_io_laws : CpuIoLaws.t Sysfs.t.
Proof.
  split.
  - intros x n st Hr. cbn in Hr. unfold sysfs_read in Hr.
    apply bind_Ok in Hr as ([[[typed raw] i] interface] & _ & Hr).
    apply bind_Ok in Hr as (raw' & _ & Hr). by injection Hr as <-.
  - intros n v x res x' n' Hw Hne. cbn in *.
    apply sysfs_write_only in Hw as (k & -> & Hk). apply sysfs_read_ext.
    intros q Hq. apply Hk. intros Hq'. apply Hne. by eapply files_disjoint.
  - intros n st v x res x' Hr Hw. cbn in *.
    apply sysfs_write_only in Hw as (k & -> & _).
    destruct n as [p|p|p|[i|]|]; try done. cbn [resolved_node]. by eapply read_pinned.
Qed.
End Kernel.

(** ** The vocabulary of the energy preference *)

Lemma energy_default : ∃ e, parse_energy (bytes_of_string "default") = Err e.
Proof. by eexists. Qed.

(** A kernel that advertises the preference [default] has no preference the
    adapter accepts: the whole list is refused. *)
Lemma default_preference_rejected x p l :
  choices_text x (CpuNode.EnergyPreference p) = Ok l → "default"%string ∈ l →
  ∀ v, sysfs_choices x (CpuNode.EnergyPreference p) ≠ Ok v.
Proof.
  intros Hl Hin v Hc. unfold sysfs_choices in Hc. rewrite Hl in Hc. cbn [mbind result_bind] in Hc.
  apply mapM_Forall2 in Hc. apply list_elem_of_lookup in Hin as (i & Hi).
  destruct (Forall2_lookup_l _ _ _ _ _ Hc Hi) as (y & _ & Hy).
  destruct energy_default as (e & He). by rewrite He in Hy.
Qed.

(** * Writing a frequency range

    The kernel refuses a minimum above its maximum, so the order of the two
    writes of [CpuSysfs::write_frequency] decides whether a range can be
    reached at all.  Over a kernel that takes every write that keeps the range
    in order ([RangeKernel]) each range the adapter accepts is reached. *)
Local Open Scope N_scope.
Unset Default Proof Using.

Abbreviation range := (FrequencyKHz.t * FrequencyKHz.t)%type.

(** What the files of the range show after the write of one of them. *)
Definition written_range (r : range) (w : string * FrequencyKHz.t) : range :=
  if bool_decide (w.1 = "scaling_min_freq"%string) then (w.2, r.2) else (r.1, w.2).

(** The write keeps the range in order. *)
Definition in_order (r : range) (w : string * FrequencyKHz.t) : Prop :=
  FrequencyKHz.wf w.2 ∧
  (w.1 = "scaling_min_freq"%string ∧ w.2.(FrequencyKHz.get) ≤ r.2.(FrequencyKHz.get)
   ∨ w.1 = "scaling_max_freq"%string ∧ r.1.(FrequencyKHz.get) ≤ w.2.(FrequencyKHz.get)).

(** The bytes read as the frequency; the kernel prints a number and a newline. *)
Definition shows (v : FrequencyKHz.t) (bytes : list byte) : Prop :=
  parse_frequency bytes = Ok v ∧ x00 ∉ bytes ∧ (length bytes ≤ 32)%nat.

Definition file_shows (x : Sysfs.t) (p : CpuPolicyId.t) (file : string) (v : FrequencyKHz.t) : Prop :=
  ∃ bytes, read_file x (policy_path p file) = Ok bytes ∧ shows v bytes.

Definition range_shows (x : Sysfs.t) (p : CpuPolicyId.t) (r : range) : Prop :=
  file_shows x p "scaling_min_freq" r.1 ∧ file_shows x p "scaling_max_freq" r.2.

Module RangeKernel.
Class t `{!Kernel.t} : Prop :=
  takes x p r w : range_shows x p r → in_order r w →
    ∃ bytes, shows w.2 bytes
      ∧ Kernel.write (policy_path p w.1) (bytes_of_string (pretty w.2.(FrequencyKHz.get))) x
        = (Kernel.Written,
           Sysfs.set_contents (<[policy_path p w.1 := Contents.Bytes bytes]> x.(Sysfs.contents)) x).
End RangeKernel.

(** ** The writes of a range *)

Fixpoint orderly (r : range) (l : list (string * FrequencyKHz.t)) : Prop :=
  match l with
  | [] => True
  | w :: l => in_order r w ∧ orderly (written_range r w) l
  end.

Lemma in_order_min r v :
  FrequencyKHz.wf v → v.(FrequencyKHz.get) ≤ r.2.(FrequencyKHz.get) → in_order r ("scaling_min_freq"%string, v).
Proof. split; [done|by left]. Qed.
Lemma in_order_max r v :
  FrequencyKHz.wf v → r.1.(FrequencyKHz.get) ≤ v.(FrequencyKHz.get) → in_order r ("scaling_max_freq"%string, v).
Proof. split; [done|by right]. Qed.
Lemma written_min r v : written_range r ("scaling_min_freq"%string, v) = (v, r.2).
Proof. done. Qed.
Lemma written_max r v : written_range r ("scaling_max_freq"%string, v) = (r.1, v).
Proof. done. Qed.

Lemma frequency_writes_orderly (cmin cmax : FrequencyKHz.t) min max l :
  cmin.(FrequencyKHz.get) ≤ cmax.(FrequencyKHz.get) →
  from_option FrequencyKHz.wf True min → from_option FrequencyKHz.wf True max →
  frequency_writes cmin cmax min max = Ok l →
  orderly (cmin, cmax) l ∧ foldl written_range (cmin, cmax) l = (default cmin min, default cmax max).
Proof.
  intros Hc Hmin Hmax. unfold frequency_writes, range_reversed, khz_lt.
  destruct min as [min|], max as [max|]; cbn [from_option id default] in Hmin, Hmax |- *;
    repeat match goal with |- context [?a <? ?b] => destruct (N.ltb_spec a b) end;
    repeat (case_bool_decide; subst); intros [= <-];
    cbn [app orderly foldl]; rewrite ?written_min, ?written_max; cbn [fst snd];
    repeat split; try (apply in_order_min || apply in_order_max); cbn [fst snd];
    first [done|apply Hmin|apply Hmax|lia].
Qed.

(** ** What a read of the range needs *)

Lemma split_zero_nonempty a : split_zero a ≠ [].
Proof. destruct a as [|c a]; cbn; [done|]. case_bool_decide; [done|]. by destruct (split_zero a). Qed.

Lemma split_zero_app a b : split_zero (a ++ x00 :: b) = split_zero a ++ split_zero b.
Proof.
  induction a as [|c a IH]; cbn [app split_zero]; [by rewrite bool_decide_true|].
  case_bool_decide; [by rewrite IH|]. rewrite IH. pose proof (split_zero_nonempty a). by destruct (split_zero a).
Qed.

Lemma split_zero_plain a m : split_zero a = [m] ↔ m = a ∧ x00 ∉ a.
Proof.
  revert m. induction a as [|c a IH]; intros m; cbn [split_zero].
  - split; [intros [= <-]; split; [done|apply not_elem_of_nil]|by intros [-> _]].
  - rewrite not_elem_of_cons. case_bool_decide as Hc.
    + split; [intros [= _ E]; by destruct (split_zero_nonempty a)|intros (_ & Hne & _); by destruct Hne].
    + destruct (split_zero a) as [|w ws] eqn:E; [by destruct (split_zero_nonempty a)|].
      split.
      * intros [= <- ->]. destruct (proj1 (IH w) eq_refl) as [-> ?]. by split_and!.
      * intros (-> & _ & Hn). pose proof (proj2 (IH a) (conj eq_refl Hn)) as Hw. by injection Hw as -> ->.
Qed.

Lemma split_zero_two a b u v :
  split_zero (a ++ x00 :: b) = [u; v] ↔ (u = a ∧ x00 ∉ a) ∧ v = b ∧ x00 ∉ b.
Proof.
  rewrite split_zero_app, <-!split_zero_plain.
  destruct (split_zero a) as [|a1 [|a2 la]] eqn:Ea; [by destruct (split_zero_nonempty a)| |].
  - destruct (split_zero b) as [|b1 lb] eqn:Eb; [by destruct (split_zero_nonempty b)|]. cbn. naive_solver.
  - split; [|naive_solver]. destruct la; [|done]. cbn. intros [= _ _ E]. by destruct (split_zero_nonempty b).
Qed.

(** The files and the directory of the range are in place. *)
Definition range_nodes (x : Sysfs.t) (p : CpuPolicyId.t) : Prop :=
  policy_file x p "scaling_min_freq" = Ok (policy_path p "scaling_min_freq")
  ∧ policy_file x p "scaling_max_freq" = Ok (policy_path p "scaling_max_freq")
  ∧ is_ok (policy_dir x p ≫= directory_identity x) = true.

Lemma range_nodes_contents k x p : range_nodes x p → range_nodes (Sysfs.set_contents k x) p.
Proof. by destruct x. Qed.

(** A range that is shown is the one that is read. *)
Lemma current_range_shown x p r : range_nodes x p → range_shows x p r → current_range x p = Ok r.
Proof.
  intros (Hmin & Hmax & Hid) [(a & Ha & Hva & Hza & Hla) (b & Hb & Hvb & Hzb & Hlb)].
  unfold current_range, sysfs_read, parse_node, raw_node. cbn [node_path].
  destruct (policy_dir x p) as [d|] eqn:Hd; [|done]. cbn [mbind result_bind] in Hid |- *.
  rewrite Hmin. cbn [mbind result_bind]. rewrite Ha. cbn [mbind result_bind].
  rewrite Hmax. cbn [mbind result_bind]. rewrite Hb. cbn [mbind result_bind].
  destruct (directory_identity x d) as [i|]; [|done]. cbn [mbind result_bind]. unfold parse_raw.
  change (a ++ [x00] ++ b) with (a ++ x00 :: b).
  rewrite (proj2 (split_zero_two a b a b)) by done. rewrite Hva. cbn [mbind result_bind].
  rewrite Hvb. cbn [mbind result_bind]. unfold BoundedBytes.new.
  replace (MAX_PREIMAGE_BYTES <? _) with false; [by destruct r|].
  symmetry. apply N.ltb_ge. unfold MAX_PREIMAGE_BYTES. rewrite length_app. cbn [length]. lia.
Qed.

(** ** Writing a frequency *)

Lemma contains_lacks s : lacks NEWLINE s = true → Str.contains (String NEWLINE EmptyString) s = false.
Proof. intros Hs. unfold Str.contains. by rewrite split_once_lacks. Qed.

(** A printed frequency is a value the adapter writes. *)
Lemma pretty_writable x :
  fits 64 x →
  bool_decide (pretty x = ""%string) || (128 <? str_len (pretty x)) || contains_nul (pretty x)
  || Str.contains (String NEWLINE EmptyString) (pretty x) = false.
Proof.
  intros Hx. rewrite contains_lacks by by apply pretty_lacks.
  rewrite bool_decide_false by apply pretty_N_digits.
  rewrite !orb_false_r. cbn [orb]. apply orb_false_iff. split.
  - apply N.ltb_ge. unfold str_len. rewrite length_bytes_of_string.
    pose proof (length_pretty 20 x ltac:(lia)) as Hl. unfold fits in Hx.
    change (2 ^ 64) with 18446744073709551616 in Hx. change (10 ^ N.of_nat 20) with 100000000000000000000 in Hl.
    lia.
  - apply graphic_no_nul, pretty_graphic.
Qed.

Lemma policy_file_final x p f q : policy_file x p f = Ok q → validate_final_file x q = Ok tt.
Proof.
  unfold policy_file. destruct (negb _); [done|]. intros (d & _ & Hq)%bind_Ok.
  apply bind_Ok in Hq as ([] & Hf & [= <-]). done.
Qed.

Lemma read_stored x q bytes :
  validate_final_file x q = Ok tt → (length bytes ≤ 32)%nat →
  read_file (Sysfs.set_contents (<[q := Contents.Bytes bytes]> x.(Sysfs.contents)) x) q = Ok bytes.
Proof.
  intros Hf Hl. unfold validate_final_file in Hf. unfold read_file.
  change (stat (Sysfs.set_contents _ x) q) with (stat x q).
  destruct (stat x q) as [[| | | |]|]; try done. cbn. rewrite lookup_insert_eq. cbn.
  replace (MAX_CPU_READ_BYTES <? _) with false; [done|]. symmetry. apply N.ltb_ge.
  unfold MAX_CPU_READ_BYTES. lia.
Qed.

Lemma file_shows_other k x p f v :
  k !! policy_path p f = x.(Sysfs.contents) !! policy_path p f →
  file_shows x p f v → file_shows (Sysfs.set_contents k x) p f v.
Proof. intros Hk (bytes & Hr & Hs). exists bytes. split; [by rewrite read_file_other|done]. Qed.

Section Kernel.
Context `{!Kernel.t, !RangeKernel.t}.

Lemma write_in_order x p r w :
  range_nodes x p → range_shows x p r → in_order r w →
  ∃ x', write_policy_file p w.1 (pretty w.2.(FrequencyKHz.get)) x = (Ok tt, x')
    ∧ range_nodes x' p ∧ range_shows x' p (written_range r w).
Proof.
  intros Hn Hs Ho. destruct (RangeKernel.takes x p r w Hs Ho) as (bytes & Hb & Hw).
  assert (policy_file x p w.1 = Ok (policy_path p w.1)) as Hf.
  { destruct Ho as [_ [[-> _]|[-> _]]]; apply Hn. }
  pose proof (policy_file_final _ _ _ _ Hf) as Hfinal.
  eexists. split; [|split; [by apply range_nodes_contents|]].
  - unfold write_policy_file. erewrite mut_bind_run by reflexivity.
    erewrite mut_bind_run by (unfold lift; by rewrite Hf).
    unfold write_file. rewrite pretty_writable by apply Ho. by rewrite Hfinal, Hw.
  - assert (file_shows (Sysfs.set_contents (<[policy_path p w.1 := Contents.Bytes bytes]> x.(Sysfs.contents)) x)
              p w.1 w.2) as Hown.
    { exists bytes. split; [apply read_stored; [done|apply Hb]|done]. }
    clear Hw Hb Hf Hfinal. destruct w as [f v], Hs as [Hmin Hmax].
    destruct Ho as [_ [[E _]|[E _]]]; cbn in E; subst f; cbn [fst snd] in Hown |- *;
      rewrite ?written_min, ?written_max; (split; [try exact Hown|try exact Hown]);
      (apply file_shows_other; [by apply lookup_insert_ne|done]).
Qed.

Lemma writes_in_order p l : ∀ x r,
  range_nodes x p → range_shows x p r → orderly r l →
  ∃ x', mut_for_each (λ '(file, value), write_policy_file p file (pretty (FrequencyKHz.get value))) l x = (Ok tt, x')
    ∧ range_nodes x' p ∧ range_shows x' p (foldl written_range r l).
Proof.
  induction l as [|[f v] l IH]; intros x r Hn Hs; [by exists x|]. intros [Ho Hl].
  destruct (write_in_order x p r (f, v) Hn Hs Ho) as (x1 & Hw & Hn1 & Hs1).
  destruct (IH x1 _ Hn1 Hs1 Hl) as (x' & Hr & ?). exists x'. split; [|done].
  cbn [mut_for_each]. cbn [fst snd] in Hw. by rewrite (mut_bind_run _ _ _ _ _ Hw).
Qed.

(** C17. Over a kernel that refuses exactly the writes that would empty the range,
    a range the adapter accepts is always reached: no write is refused, and
    the range that is read afterwards is the desired one, the ends that were
    not asked for unchanged. *)
Theorem frequency_range_reached x p (cmin cmax : FrequencyKHz.t) min max :
  range_nodes x p → range_shows x p (cmin, cmax) →
  cmin.(FrequencyKHz.get) ≤ cmax.(FrequencyKHz.get) →
  from_option FrequencyKHz.wf True min → from_option FrequencyKHz.wf True max →
  (default cmin min).(FrequencyKHz.get) ≤ (default cmax max).(FrequencyKHz.get) →
  ∃ x', sysfs_write (CpuNode.Frequency p) (TypedValue.CpuFrequency min max) x = (Ok tt, x')
    ∧ current_range x' p = Ok (default cmin min, default cmax max).
Proof.
  intros Hn Hs Hc Hmin Hmax Hd.
  assert (∃ l, frequency_writes cmin cmax min max = Ok l) as (l & Hl).
  { unfold frequency_writes. replace (range_reversed min max) with false.
    - replace (khz_lt _ _) with false; [by eexists|]. symmetry. by apply N.ltb_ge.
    - destruct min, max; try done. symmetry. by apply N.ltb_ge. }
  destruct (frequency_writes_orderly _ _ _ _ _ Hc Hmin Hmax Hl) as [Ho Hend].
  destruct (writes_in_order p l x _ Hn Hs Ho) as (x' & Hr & Hn' & Hs'). rewrite Hend in Hs'.
  exists x'. split; [|by apply current_range_shown].
  cbn [sysfs_write]. unfold write_frequency. erewrite mut_bind_run by reflexivity.
  rewrite (mut_bind_run _ _ x (cmin, cmax) x) by (unfold lift; by rewrite current_range_shown with (r := (cmin, cmax))).
  rewrite (mut_bind_run _ _ x l x) by (unfold lift; by rewrite Hl). exact Hr.
Qed.
End Kernel.
