(* ===== verification/Workload.v ===== *)
(** * Scheduler and cgroup backend ([sysboost-linux/src/workload.rs])

    The closed cgroup nodes, the I/O port behind the backend and the backend
    itself: each stage reads the live value through the port, compares identity
    and fingerprint, and proves its effect by a readback.  Unlike the CPU
    backend it does not restore when an application fails after its write.  A
    read is a function of the state of the port. *)
From Stdlib Require Import Strings.Byte.
From S2P Require Import Prelude Lists Text Ids Mut Capability Mutation.
From S2P Require Import Decision Plan Policy Session Render Digest Record Ports.
Local Open Scope N_scope.

Definition WORKLOAD_BACKEND_ID : string := "linux.workload".
Definition ROOT_TARGET : string := "cgroup.root".
Definition MAX_READ_BYTES : usize := 4096.

Module WorkloadNode.
Inductive t := CpuWeight | CpuMax | CpusetCpus | IoWeight | UclampMin | UclampMax.
#[global] Instance t_eq_dec : EqDecision t. Proof. solve_decision. Defined.
Definition controller (x : t) : string :=
  match x with
  | CpuWeight | CpuMax | UclampMin | UclampMax => "cpu"
  | CpusetCpus => "cpuset"
  | IoWeight => "io"
  end.
Definition filename (x : t) : string :=
  match x with
  | CpuWeight => "cpu.weight"
  | CpuMax => "cpu.max"
  | CpusetCpus => "cpuset.cpus"
  | IoWeight => "io.weight"
  | UclampMin => "cpu.uclamp.min"
  | UclampMax => "cpu.uclamp.max"
  end.
End WorkloadNode.

Module WorkloadTarget.
Record t := mk { identity : CgroupId.t; relative_path : string }.
#[global] Instance t_eq_dec : EqDecision t. Proof. solve_decision. Defined.
End WorkloadTarget.

Definition workload_error (code : ErrorCode.t) (message : string) : SysboostError.t :=
  SysboostError.new code message |> SysboostError.with_stage Stage.Apply.
Definition unsupported (message : string) : SysboostError.t := workload_error ErrorCode.Unsupported message.
Definition target_error (message : string) : SysboostError.t := workload_error ErrorCode.TargetError message.
Definition permission_error (message : string) : SysboostError.t :=
  workload_error ErrorCode.AuthorizationError message.

Module WorkloadObservation.
Record t := mk {
  raw : BoundedBytes.t;
  typed : TypedValue.t;
  fingerprint : StateFingerprint.t;
  target_identity : TargetIdentity.t
}.
#[global] Instance t_eq_dec : EqDecision t. Proof. solve_decision. Defined.
Definition new (raw : list byte) (typed : TypedValue.t) (target_identity : TargetIdentity.t) : Result t :=
  raw ← BoundedBytes.new raw;
  Ok (mk raw typed (fingerprint_for_value (PlanValue.Typed typed)) target_identity).
(** The [matches!] on kind and value. *)
Definition typed_shape_matches (x : t) (m : PlannedMutation.t) : bool :=
  match m.(PlannedMutation.kind), x.(typed) with
  | MutationKind.CgroupCpuWeight _ _, TypedValue.CgroupCpuWeight _
  | MutationKind.CgroupCpuMax _ _ _, TypedValue.CgroupCpuMax _ _
  | MutationKind.CgroupCpuset _ _, TypedValue.CgroupCpuset _
  | MutationKind.CgroupIoWeight _ _, TypedValue.CgroupIoWeight _
  | MutationKind.CgroupUclampMin _ _, TypedValue.CgroupUclamp _
  | MutationKind.CgroupUclampMax _ _, TypedValue.CgroupUclamp _
  | MutationKind.CgroupWorkload _ _, TypedValue.CgroupLifecycle _ _ _
  | MutationKind.CgroupBackground _ _, TypedValue.CgroupLifecycle _ _ _
  | MutationKind.ProcessNice _ _, TypedValue.Nice _
  | MutationKind.ProcessIoPriority _ _, TypedValue.IoPriority _
  | MutationKind.ProcessPlacement _ _, TypedValue.ProcessPlacement _ => true
  | _, _ => false
  end.
End WorkloadObservation.

(** The port of the backend to the host or a fixture.  [detect] is given what
    the clock says. *)
Module WorkloadControlIo.
Class t (S : Type) := {
  detect : S → Result Timestamp.t → Result CapabilityInventory.t;
  targets : S → Result (list WorkloadTarget.t);
  read_node : S → CgroupId.t → WorkloadNode.t → Result (list byte);
  read_mutation : S → MutationKind.t → Result WorkloadObservation.t;
  read_process : S → MutationKind.t → Result WorkloadObservation.t;
  validate_desired : S → MutationKind.t → TypedValue.t → Result unit;
  write_mutation : MutationKind.t → TypedValue.t → Mut S unit
}.
End WorkloadControlIo.

(** ** Descriptor, catalog and capabilities *)

Definition workload_operations : list string :=
  ["cgroup.cpu.weight"; "cgroup.cpu.max"; "cgroup.cpuset.cpus"; "cgroup.io.weight"; "cgroup.uclamp.min";
   "cgroup.uclamp.max"; "cgroup.workload"; "cgroup.background"; "scheduler.process.placement";
   "scheduler.nice"; "scheduler.ioprio"]%string.
Definition workload_capabilities : list string :=
  ["cgroup.cpu.weight"; "cgroup.cpu.max"; "cgroup.cpuset.cpus"; "cgroup.io.weight"; "cgroup.uclamp";
   "cgroup.workload"; "cgroup.background"; "scheduler.process.placement"; "scheduler.nice";
   "scheduler.ioprio"]%string.
Definition workload_descriptor : BackendDescriptor.t :=
  BackendDescriptor.mk (BackendId.mk WORKLOAD_BACKEND_ID) "prompt8"
    (CapabilityId.mk <$> workload_capabilities) (OperationId.mk <$> workload_operations).

Definition workload_contract (operation capability : string) (target_kind : TargetKind.t)
    (control : ControlId.t) (equality : EqualityKind.t) (risk : RiskClass.t)
    (classification : FeatureClass.t) (explicit_opt_in : bool) : OperationContract.t :=
  OperationContract.complete (OperationId.mk operation) (CapabilityId.mk capability)
    (BackendId.mk WORKLOAD_BACKEND_ID) target_kind control equality risk classification explicit_opt_in.

Definition workload_operation_catalog : OperationCatalog.t :=
  OperationCatalog.new
    [workload_contract "cgroup.cpu.weight" "cgroup.cpu.weight" TargetKind.Cgroup ControlId.CgroupCpuWeight
       EqualityKind.ScalarExact RiskClass.Medium FeatureClass.RuntimeMutable false;
     workload_contract "cgroup.cpu.max" "cgroup.cpu.max" TargetKind.Cgroup ControlId.CgroupCpuMax
       EqualityKind.ScalarExact RiskClass.Medium FeatureClass.RuntimeMutable false;
     workload_contract "cgroup.cpuset.cpus" "cgroup.cpuset.cpus" TargetKind.Cgroup ControlId.CgroupCpuset
       EqualityKind.SetExact RiskClass.Medium FeatureClass.Conditional true;
     workload_contract "cgroup.io.weight" "cgroup.io.weight" TargetKind.Cgroup ControlId.CgroupIoWeight
       EqualityKind.ScalarExact RiskClass.Medium FeatureClass.Conditional true;
     workload_contract "cgroup.uclamp.min" "cgroup.uclamp" TargetKind.Cgroup ControlId.CgroupUclampMin
       EqualityKind.ScalarExact RiskClass.Medium FeatureClass.Conditional true;
     workload_contract "cgroup.uclamp.max" "cgroup.uclamp" TargetKind.Cgroup ControlId.CgroupUclampMax
       EqualityKind.ScalarExact RiskClass.Medium FeatureClass.Conditional true;
     workload_contract "cgroup.workload" "cgroup.workload" TargetKind.Cgroup ControlId.CgroupWorkload
       EqualityKind.ScalarExact RiskClass.Medium FeatureClass.Conditional true;
     workload_contract "cgroup.background" "cgroup.background" TargetKind.Cgroup ControlId.CgroupBackground
       EqualityKind.ScalarExact RiskClass.Medium FeatureClass.Conditional true;
     workload_contract "scheduler.process.placement" "scheduler.process.placement" TargetKind.Process
       ControlId.ProcessPlacement EqualityKind.ScalarExact RiskClass.Medium FeatureClass.Conditional true;
     workload_contract "scheduler.nice" "scheduler.nice" TargetKind.Process ControlId.ProcessNice
       EqualityKind.ScalarExact RiskClass.Low FeatureClass.RuntimeMutable true;
     workload_contract "scheduler.ioprio" "scheduler.ioprio" TargetKind.Process ControlId.ProcessIoPriority
       EqualityKind.ScalarExact RiskClass.Low FeatureClass.Experimental true].

Definition workload_capability (capability operation : string) (target_kind : TargetKind.t)
    (equality : EqualityKind.t) (state : CapabilityState.t) (classification : FeatureClass.t)
    (evidence : string) : CapabilityDescriptor.t :=
  CapabilityDescriptor.mk (CapabilityId.mk capability) (BackendId.mk WORKLOAD_BACKEND_ID) target_kind state
    [OperationDescriptor.mk (OperationId.mk operation) PrivilegeRequirement.PrivilegedMutation equality
       classification]
    PrivilegeRequirement.PrivilegedMutation equality RiskClass.Medium classification
    [CapabilityEvidence.mk EvidenceSource.CgroupV2 evidence].

Definition uclamp_capability (state : CapabilityState.t) (evidence : string) : CapabilityDescriptor.t :=
  CapabilityDescriptor.mk (CapabilityId.mk "cgroup.uclamp") (BackendId.mk WORKLOAD_BACKEND_ID)
    TargetKind.Cgroup state
    ((λ o, OperationDescriptor.mk (OperationId.mk o) PrivilegeRequirement.PrivilegedMutation
             EqualityKind.ScalarExact FeatureClass.Conditional) <$> ["cgroup.uclamp.min"; "cgroup.uclamp.max"]%string)
    PrivilegeRequirement.PrivilegedMutation EqualityKind.ScalarExact RiskClass.Medium FeatureClass.Conditional
    [CapabilityEvidence.mk EvidenceSource.CgroupV2 evidence].

(** A process capability is a workload capability with its own risk and
    evidence source. *)
Definition process_capability (capability operation : string) (state : CapabilityState.t)
    (classification : FeatureClass.t) (evidence : string) : CapabilityDescriptor.t :=
  CapabilityDescriptor.mk (CapabilityId.mk capability) (BackendId.mk WORKLOAD_BACKEND_ID) TargetKind.Process
    state
    [OperationDescriptor.mk (OperationId.mk operation) PrivilegeRequirement.PrivilegedMutation
       EqualityKind.ScalarExact classification]
    PrivilegeRequirement.PrivilegedMutation EqualityKind.ScalarExact
    (if bool_decide (operation = "scheduler.nice"%string) || bool_decide (operation = "scheduler.ioprio"%string)
     then RiskClass.Low else RiskClass.Medium)
    classification [CapabilityEvidence.mk EvidenceSource.Procfs evidence].

Definition capability_state (r : Result WorkloadObservation.t) : CapabilityState.t :=
  match r with
  | Ok _ => CapabilityState.Available
  | Err e =>
    if bool_decide (e.(SysboostError.code) = ErrorCode.AuthorizationError) then CapabilityState.Denied
    else if bool_decide (e.(SysboostError.code) = ErrorCode.Unsupported) then CapabilityState.Unsupported
    else CapabilityState.Indeterminate
  end.

Definition combine_capability_states (left right : CapabilityState.t) : CapabilityState.t :=
  match left, right with
  | CapabilityState.Available, CapabilityState.Available => CapabilityState.Available
  | CapabilityState.Denied, _ | _, CapabilityState.Denied => CapabilityState.Denied
  | CapabilityState.Unsupported, _ | _, CapabilityState.Unsupported => CapabilityState.Unsupported
  | _, _ => CapabilityState.Indeterminate
  end.

(** ** Identities *)

Definition process_identity (p : ProcessId.t) : TargetIdentity.t :=
  TargetIdentity.mk (array_copy 16
    (to_be 4 p.(ProcessId.pid) ++ replicate 4 x00 ++ to_be 8 p.(ProcessId.start_time_ticks))).
Definition cgroup_identity (c : CgroupId.t) : TargetIdentity.t :=
  TargetIdentity.mk (array_copy 16 (to_be 8 c.(CgroupId.mount_id) ++ to_be 8 c.(CgroupId.inode))).

Definition child_target (parent : TargetId.t) (name : CgroupName.t) : Result TargetId.t :=
  map_err (λ _, target_error "managed cgroup child target is invalid")
    (TargetId.new (parent.(TargetId.as_str) +:+ "." +:+ name.(CgroupName.as_str))).

(** The directory of a child below the directory of its parent. *)
Definition child_path (parent : string) (name : CgroupName.t) : string :=
  if bool_decide (parent = ""%string) then name.(CgroupName.as_str)
  else parent +:+ "/" +:+ name.(CgroupName.as_str).

Definition validate_uclamp_pair (min max : UclampValue.t) : Result unit :=
  if default 1024 (UclampValue.get max) <? default 1024 (UclampValue.get min)
  then Err (target_error "cgroup uclamp minimum exceeds maximum")
  else Ok tt.

(** [PlanValue::Typed(value).to_string()] *)
Definition render_typed_process (value : TypedValue.t) : list byte :=
  bytes_of_string (render_value (PlanValue.Typed value)).

(** ** Ownership *)

(** The [target_id] of a process is [ProcessId.target_text], which is a valid
    identifier ([process_target_id_valid]). *)
Definition expected_target (m : PlannedMutation.t) : Result TargetId.t :=
  match m.(PlannedMutation.kind) with
  | MutationKind.CgroupCpuWeight cgroup _ | MutationKind.CgroupCpuMax cgroup _ _
  | MutationKind.CgroupCpuset cgroup _ | MutationKind.CgroupIoWeight cgroup _
  | MutationKind.CgroupUclampMin cgroup _ | MutationKind.CgroupUclampMax cgroup _ =>
    Ok cgroup.(CgroupId.handle)
  | MutationKind.CgroupWorkload parent _ | MutationKind.CgroupBackground parent _ =>
    Ok parent.(CgroupId.handle)
  | MutationKind.ProcessPlacement process _ | MutationKind.ProcessNice process _
  | MutationKind.ProcessIoPriority process _ => Ok (TargetId.mk (ProcessId.target_text process))
  | _ => Err (unsupported "workload backend does not own this operation")
  end.

Definition capability_owned (m : PlannedMutation.t) : bool :=
  let is_capability name := bool_decide (m.(PlannedMutation.capability).(CapabilityId.as_str) = name) in
  match m.(PlannedMutation.kind) with
  | MutationKind.CgroupCpuWeight _ _ => is_capability "cgroup.cpu.weight"%string
  | MutationKind.CgroupCpuMax _ _ _ => is_capability "cgroup.cpu.max"%string
  | MutationKind.CgroupCpuset _ _ => is_capability "cgroup.cpuset.cpus"%string
  | MutationKind.CgroupIoWeight _ _ => is_capability "cgroup.io.weight"%string
  | MutationKind.CgroupUclampMin _ _ | MutationKind.CgroupUclampMax _ _ => is_capability "cgroup.uclamp"%string
  | MutationKind.CgroupWorkload _ _ => is_capability "cgroup.workload"%string
  | MutationKind.CgroupBackground _ _ => is_capability "cgroup.background"%string
  | MutationKind.ProcessPlacement _ _ => is_capability "scheduler.process.placement"%string
  | MutationKind.ProcessNice _ _ => is_capability "scheduler.nice"%string
  | MutationKind.ProcessIoPriority _ _ => is_capability "scheduler.ioprio"%string
  | _ => false
  end.

Definition validate_observation (m : PlannedMutation.t) (observation : WorkloadObservation.t)
    (expected_target_identity : TargetIdentity.t) : Result unit :=
  if negb (bool_decide (observation.(WorkloadObservation.target_identity) = expected_target_identity))
  then Err (target_error "workload target identity changed")
  else if negb (bool_decide (observation.(WorkloadObservation.fingerprint)
                             = fingerprint_for_value (PlanValue.Typed observation.(WorkloadObservation.typed))))
  then Err (target_error "workload adapter returned an invalid fingerprint")
  else if WorkloadObservation.typed_shape_matches observation m
          && bool_decide (observation.(WorkloadObservation.fingerprint) = m.(PlannedMutation.precondition))
  then Ok tt
  else Err (target_error "workload target value or typed shape changed since planning").

(** ** The backend over its port *)

Module WorkloadBackend.
Record t (S : Type) := mk { io : S; descriptor : BackendDescriptor.t }.
Arguments mk {_} _ _.
Arguments io {_} _.
Arguments descriptor {_} _.
Definition new {S} (io : S) : t S := mk io workload_descriptor.
End WorkloadBackend.

Section Backend.
Context {S : Type} `{!WorkloadControlIo.t S}.

Definition read_kind (s : S) (kind : MutationKind.t) : Result WorkloadObservation.t :=
  match kind with
  | MutationKind.ProcessNice _ _ | MutationKind.ProcessIoPriority _ _ | MutationKind.ProcessPlacement _ _ =>
    WorkloadControlIo.read_process s kind
  | _ => WorkloadControlIo.read_mutation s kind
  end.

(** [WorkloadBackend::read] *)
Definition read (m : PlannedMutation.t) : Mut S WorkloadObservation.t :=
  s ← get; lift (read_kind s m.(PlannedMutation.kind)).

Definition validate_canonical_target (s : S) (m : PlannedMutation.t) (expected_target_identity : TargetIdentity.t) :
    Result WorkloadObservation.t :=
  expected ← expected_target m;
  if negb (bool_decide (m.(PlannedMutation.target) = expected))
  then Err (target_error "workload target is not the canonical discovered target")
  else
    observation ← read_kind s m.(PlannedMutation.kind);
    if negb (bool_decide (observation.(WorkloadObservation.target_identity) = expected_target_identity))
    then Err (target_error "workload target identity does not match the plan")
    else
      _ ← WorkloadControlIo.validate_desired s m.(PlannedMutation.kind) m.(PlannedMutation.desired);
      Ok observation.

Definition snapshot_internal (m : PlannedMutation.t) (now : Timestamp.t) : Mut S Snapshot.t :=
  observation ← read m;
  _ ← lift (validate_observation m observation observation.(WorkloadObservation.target_identity));
  if bool_decide (observation.(WorkloadObservation.typed) = m.(PlannedMutation.desired))
  then throw (workload_error ErrorCode.InvariantViolation "workload mutation already equals its current value")
  else mret (Snapshot.mk m.(PlannedMutation.mutation_id) m.(PlannedMutation.target)
               observation.(WorkloadObservation.raw) observation.(WorkloadObservation.typed)
               observation.(WorkloadObservation.fingerprint) m.(PlannedMutation.equality)
               observation.(WorkloadObservation.target_identity) now).

Definition apply_internal (m : PlannedMutation.t) (snap : Snapshot.t) : Mut S ApplyReceipt.t :=
  current ← read m;
  if negb (bool_decide (current.(WorkloadObservation.target_identity) = snap.(Snapshot.target_identity)))
     || negb (bool_decide (current.(WorkloadObservation.fingerprint) = m.(PlannedMutation.precondition)))
  then throw (target_error "workload target changed before apply")
  else
    s ← get;
    _ ← lift (WorkloadControlIo.validate_desired s m.(PlannedMutation.kind) m.(PlannedMutation.desired));
    _ ← WorkloadControlIo.write_mutation m.(PlannedMutation.kind) m.(PlannedMutation.desired);
    after ← read m;
    let desired_fingerprint := fingerprint_for_value (PlanValue.Typed m.(PlannedMutation.desired)) in
    if negb (bool_decide (after.(WorkloadObservation.target_identity) = snap.(Snapshot.target_identity)))
       || negb (bool_decide (after.(WorkloadObservation.fingerprint) = desired_fingerprint))
    then throw (workload_error ErrorCode.VerificationError
                  "workload apply readback did not prove the desired value")
    else mret (ApplyReceipt.mk m.(PlannedMutation.mutation_id) current.(WorkloadObservation.fingerprint)
                 after.(WorkloadObservation.fingerprint) after.(WorkloadObservation.fingerprint)).

Definition verify_internal (m : PlannedMutation.t) (expected_target_identity : TargetIdentity.t) :
    Mut S StateFingerprint.t :=
  observation ← read m;
  if negb (bool_decide (observation.(WorkloadObservation.target_identity) = expected_target_identity))
  then throw (target_error "workload target identity changed during verification")
  else mret observation.(WorkloadObservation.fingerprint).

Definition restore_internal (m : PlannedMutation.t) (snap : Snapshot.t)
    (expected_ownership : StateFingerprint.t) : Mut S RestoreReceipt.t :=
  current ← read m;
  if negb (bool_decide (current.(WorkloadObservation.target_identity) = snap.(Snapshot.target_identity)))
  then throw (target_error "workload target identity changed before restore")
  else if negb (bool_decide (current.(WorkloadObservation.fingerprint) = expected_ownership))
  then throw (workload_error ErrorCode.RestoreConflict
                "workload target changed outside this session; restore refused")
  else
    _ ← WorkloadControlIo.write_mutation m.(PlannedMutation.kind) snap.(Snapshot.original_typed);
    restored ← read m;
    if negb (bool_decide (restored.(WorkloadObservation.target_identity) = snap.(Snapshot.target_identity)))
       || negb (bool_decide (restored.(WorkloadObservation.fingerprint) = snap.(Snapshot.original_fingerprint)))
    then throw (workload_error ErrorCode.RestoreError
                  "workload restore readback did not prove the captured original")
    else mret (RestoreReceipt.mk m.(PlannedMutation.mutation_id) restored.(WorkloadObservation.fingerprint) true).

Definition validate_admission (b : WorkloadBackend.t S) (m : PlannedMutation.t)
    (expected_target_identity : TargetIdentity.t) : Result unit :=
  if negb (bool_decide (operation_id m.(PlannedMutation.kind)
                        ∈ b.(WorkloadBackend.descriptor).(BackendDescriptor.operations)))
     || negb (capability_owned m)
     || negb (bool_decide (m.(PlannedMutation.capability)
                           ∈ b.(WorkloadBackend.descriptor).(BackendDescriptor.capabilities)))
  then Err (unsupported "workload backend does not own operation/capability")
  else
    observation ← validate_canonical_target b.(WorkloadBackend.io) m expected_target_identity;
    if negb (bool_decide (observation.(WorkloadObservation.fingerprint) = m.(PlannedMutation.precondition)))
    then Err (target_error "workload target value changed since planning")
    else Ok tt.

Definition validate_target (s : S) (m : PlannedMutation.t) (expected_target_identity : TargetIdentity.t) :
    Result unit :=
  _ ← validate_canonical_target s m expected_target_identity; Ok tt.

Definition on_io {A} (m : Mut S A) : Mut (WorkloadBackend.t S) A := λ b,
  let '(res, s) := m b.(WorkloadBackend.io) in (res, WorkloadBackend.mk s b.(WorkloadBackend.descriptor)).

#[export] Instance workload_backend : MutationBackend.t (WorkloadBackend.t S) := {|
  MutationBackend.descriptor := WorkloadBackend.descriptor;
  MutationBackend.owns_backend b := MutationBackend.default_owns_backend b.(WorkloadBackend.descriptor);
  MutationBackend.snapshot m now := on_io (snapshot_internal m now);
  MutationBackend.apply m snap := on_io (apply_internal m snap);
  MutationBackend.verify m _ identity := on_io (verify_internal m identity);
  MutationBackend.restore m snap ownership := on_io (restore_internal m snap ownership);
  MutationBackend.validate_target b := validate_target b.(WorkloadBackend.io);
  MutationBackend.validate_admission := validate_admission
|}.

(** ** The read-only inspection view *)

Definition read_nice (s : S) (process : ProcessId.t) : Result NiceValue.t :=
  nice ← NiceValue.new 0%Z;
  observation ← WorkloadControlIo.read_process s (MutationKind.ProcessNice process nice);
  match observation.(WorkloadObservation.typed) with
  | TypedValue.Nice value => Ok value
  | _ => Err (workload_error ErrorCode.InvariantViolation
                "workload inspection returned a non-nice process value")
  end.

Definition read_placement (s : S) (process : ProcessId.t) : Result CgroupId.t :=
  observation ← WorkloadControlIo.read_process s
                  (MutationKind.ProcessPlacement process (CgroupId.new 0 0 (TargetId.mk ROOT_TARGET)));
  match observation.(WorkloadObservation.typed) with
  | TypedValue.ProcessPlacement cgroup => Ok cgroup
  | _ => Err (workload_error ErrorCode.InvariantViolation
                "workload inspection returned a non-placement process value")
  end.

Definition read_ioprio (s : S) (process : ProcessId.t) : Result IoPriority.t :=
  priority ← IoPriority.new IoPriorityClass.None 0;
  observation ← WorkloadControlIo.read_process s (MutationKind.ProcessIoPriority process priority);
  match observation.(WorkloadObservation.typed) with
  | TypedValue.IoPriority value => Ok value
  | _ => Err (workload_error ErrorCode.InvariantViolation
                "workload inspection returned a non-ioprio process value")
  end.
End Backend.

(** ** Child-process supervision *)

Module ChildProcessSupervisor.
Record t := mk { destination : CgroupId.t }.
#[global] Instance t_eq_dec : EqDecision t. Proof. solve_decision. Defined.
Definition new := mk.
Definition placement_for_child (x : t) (process : ProcessId.t) : MutationKind.t :=
  MutationKind.ProcessPlacement process x.(destination).
Definition on_child_started := placement_for_child.
End ChildProcessSupervisor.
