(* ===== verification/WorkloadText.v ===== *)
(** * The text of cgroup control files ([sysboost-linux/src/workload.rs])

    Parsing of the closed nodes, the text the adapters write, and their round
    trip. *)
From Stdlib Require Import Strings.Byte Strings.Ascii.
From stdpp Require Import pretty.
From S2P Require Import Prelude Lists Text Str Render Ids Capability Mutation.
From S2P Require Import MutationLaws Topology TopologyNormal Workload.
Local Open Scope N_scope.
Unset Default Proof Using.

Definition MAX_CPUSET : usize := 4096.

(** ** Parsing *)

Definition text_tokens (raw : list byte) : list string :=
  match from_utf8 raw with Some text => split_whitespace text | None => [] end.

(** [str::parse] with the error of the caller. *)
Definition parse_field (w : N) (message value : string) : Result N :=
  ok_or (parse_uint w value) (Workload.target_error message).

Definition parse_uclamp (raw : list byte) : Result UclampValue.t :=
  text ← ok_or (from_utf8 raw) (Workload.target_error "uclamp value is not valid UTF-8");
  let value := trim text in
  if bool_decide (value = "max"%string) then Ok UclampValue.Max
  else value ← parse_field 16 "uclamp value is malformed" value; UclampValue.new value.

Definition parse_cpuset_part (cpus : list u32) (part : string) : Result (list u32) :=
  if bool_decide (part = ""%string) then Err (Workload.target_error "cpuset.cpus is malformed")
  else
    cpus ← match split_once "-" part with
           | Some (start, last) =>
             start ← parse_field 32 "cpuset range is malformed" start;
             last ← parse_field 32 "cpuset range is malformed" last;
             if (last <? start) || (MAX_CPUSET <? last - start)
             then Err (Workload.target_error "cpuset range is outside the bounded contract")
             else Ok (cpus ++ range_inclusive start last)
           | None => cpu ← parse_field 32 "cpuset CPU is malformed" part; Ok (cpus ++ [cpu])
           end;
    if MAX_CPUSET <? N.of_nat (length cpus) then Err (Workload.target_error "cpuset value is oversized")
    else Ok cpus.

Fixpoint parse_cpuset_parts (cpus : list u32) (parts : list string) : Result (list u32) :=
  match parts with
  | [] => Ok cpus
  | part :: rest => cpus ← parse_cpuset_part cpus part; parse_cpuset_parts cpus rest
  end.

Definition parse_cpuset (text : string) : Result CpuSet.t :=
  cpus ← parse_cpuset_parts [] (split_on "," (trim text));
  map_err (λ _, Workload.target_error "cpuset.cpus is empty") (CpuSet.new cpus).

Definition parse_cpu_max (text : string) : Result TypedValue.t :=
  match split_whitespace text with
  | [] => Err (Workload.target_error "cpu.max is malformed")
  | quota :: rest =>
    quota ← (if bool_decide (quota = "max"%string) then Ok CpuQuota.Max
             else value ← parse_field 64 "cpu.max quota is malformed" quota; CpuQuota.micros value);
    period ← ok_or (head rest) (Workload.target_error "cpu.max period is missing");
    period ← parse_field 64 "cpu.max period is malformed" period;
    period ← CpuPeriod.new period;
    if bool_decide (tail rest = []) then Ok (TypedValue.CgroupCpuMax quota period)
    else Err (Workload.target_error "cpu.max has unexpected fields")
  end.

(** The loop over the lines of [io.weight]. *)
Fixpoint parse_io_lines (value : option IoWeight.t) (l : list string) : Result (option IoWeight.t) :=
  match l with
  | [] => Ok value
  | line :: rest =>
    match split_whitespace line with
    | [first; weight] =>
      if bool_decide (first = "default"%string)
      then
        if is_some value then Err (Workload.target_error "io.weight has duplicate default entries")
        else
          weight ← parse_field 16 "io.weight is malformed" weight;
          weight ← IoWeight.new weight;
          parse_io_lines (Some weight) rest
      else Err (Workload.unsupported "per-device io.weight entries are outside the closed operation")
    | _ :: _ :: _ => Err (Workload.unsupported "per-device io.weight entries are outside the closed operation")
    | _ => Err (Workload.target_error "io.weight is malformed")
    end
  end.

Definition parse_workload_node (node : WorkloadNode.t) (raw : list byte) : Result TypedValue.t :=
  text ← ok_or (from_utf8 raw) (Workload.target_error "cgroup controller value is not valid UTF-8");
  match node with
  | WorkloadNode.CpuWeight =>
    value ← parse_field 16 "cpu.weight is malformed" (trim text);
    TypedValue.CgroupCpuWeight <$> CpuWeight.new value
  | WorkloadNode.CpuMax => parse_cpu_max text
  | WorkloadNode.CpusetCpus => TypedValue.CgroupCpuset <$> parse_cpuset text
  | WorkloadNode.IoWeight =>
    value ← parse_io_lines None (lines text);
    value ← ok_or value (Workload.target_error "io.weight default entry is missing");
    Ok (TypedValue.CgroupIoWeight value)
  | WorkloadNode.UclampMin | WorkloadNode.UclampMax => TypedValue.CgroupUclamp <$> parse_uclamp raw
  end.

(** ** Rendering *)

Definition render_quota (quota : CpuQuota.t) : string :=
  match quota with CpuQuota.Max => "max" | CpuQuota.Micros value => pretty value end.
Definition render_cpuset (cpus : CpuSet.t) : string := join "," (pretty <$> cpus.(CpuSet.as_slice)).
Definition render_uclamp (value : UclampValue.t) : string :=
  match value with UclampValue.Value value => pretty value | UclampValue.Max => "max" end.

(** The text written to the node of a value. *)
Definition node_text (node : WorkloadNode.t) (value : TypedValue.t) : option string :=
  match node, value with
  | WorkloadNode.CpuWeight, TypedValue.CgroupCpuWeight value => Some (pretty value.(CpuWeight.get))
  | WorkloadNode.CpuMax, TypedValue.CgroupCpuMax quota period =>
    Some (render_quota quota +:+ " " +:+ pretty period.(CpuPeriod.get))
  | WorkloadNode.CpusetCpus, TypedValue.CgroupCpuset value => Some (render_cpuset value)
  | WorkloadNode.IoWeight, TypedValue.CgroupIoWeight value => Some ("default " +:+ pretty value.(IoWeight.get))
  | WorkloadNode.UclampMin, TypedValue.CgroupUclamp value | WorkloadNode.UclampMax, TypedValue.CgroupUclamp value =>
    Some (render_uclamp value)
  | _, _ => None
  end.

(** ** Round trip *)

Lemma parse_field_pretty w msg n : fits w n → parse_field w msg (pretty n) = Ok n.
Proof. intros Hn. unfold parse_field. by rewrite parse_uint_pretty. Qed.

Lemma pretty_ne (n : N) s : s ≠ EmptyString → all_chars is_digit s = false → pretty n ≠ s.
Proof. intros _ Hs E. rewrite <-E in Hs. by rewrite (proj1 (pretty_N_digits n)) in Hs. Qed.

Lemma pretty_text (n : N) : from_utf8 (bytes_of_string (pretty n)) = Some (pretty n).
Proof. apply from_utf8_of_string, graphic_utf8, pretty_graphic. Qed.

Lemma uclamp_round_trip v : UclampValue.wf v → parse_uclamp (bytes_of_string (render_uclamp v)) = Ok v.
Proof.
  destruct v as [v|]; [|reflexivity]. cbn [render_uclamp UclampValue.wf]. intros Hv.
  unfold parse_uclamp. rewrite pretty_text. cbn [ok_or mbind result_bind].
  rewrite trim_graphic by apply pretty_graphic. rewrite bool_decide_false by by apply pretty_ne.
  rewrite parse_field_pretty by (unfold fits; change (2 ^ 16) with 65536; lia). cbn [mbind result_bind].
  unfold UclampValue.new. by rewrite (proj2 (N.ltb_ge _ _)) by lia.
Qed.

Lemma cpu_max_round_trip q p :
  CpuQuota.wf q → CpuPeriod.wf p →
  parse_cpu_max (render_quota q +:+ " " +:+ pretty p.(CpuPeriod.get)) = Ok (TypedValue.CgroupCpuMax q p).
Proof.
  intros Hq [Hp1 Hp2]. unfold parse_cpu_max.
  assert (all_chars graphic (render_quota q) = true ∧ render_quota q ≠ EmptyString) as [Hg Hn].
  { destruct q; [done|]. split; [apply pretty_graphic|apply pretty_N_digits]. }
  rewrite split_whitespace_two by (done || apply pretty_graphic || apply pretty_N_digits).
  assert ((if bool_decide (render_quota q = "max"%string) then Ok CpuQuota.Max
           else value ← parse_field 64 "cpu.max quota is malformed" (render_quota q); CpuQuota.micros value) = Ok q) as ->.
  { destruct q as [|v]; [done|]. cbn [render_quota CpuQuota.wf] in *. destruct Hq as [Hf Hz].
    rewrite bool_decide_false by by apply pretty_ne. rewrite parse_field_pretty by done.
    cbn [mbind result_bind]. unfold CpuQuota.micros. by rewrite (proj2 (N.eqb_neq _ _) Hz). }
  cbn [mbind result_bind head ok_or].
  unfold CpuPeriod.MIN, CpuPeriod.MAX in *.
  rewrite parse_field_pretty by (unfold fits; change (2 ^ 64) with 18446744073709551616; lia).
  cbn [mbind result_bind]. unfold CpuPeriod.new, in_range, CpuPeriod.MIN, CpuPeriod.MAX.
  rewrite (proj2 (N.leb_le _ _) Hp1), (proj2 (N.leb_le _ _) Hp2). cbn. by destruct p.
Qed.

Lemma io_weight_round_trip w :
  IoWeight.wf w →
  parse_workload_node WorkloadNode.IoWeight (bytes_of_string ("default " +:+ pretty w.(IoWeight.get)))
  = Ok (TypedValue.CgroupIoWeight w).
Proof.
  intros [H1 H2]. unfold parse_workload_node.
  rewrite from_utf8_of_string.
  2: { apply ascii_utf8. change "default "%string with ("default" +:+ " "). rewrite !all_chars_app.
       by rewrite (graphic_ascii _ (pretty_graphic _)). }
  cbn [ok_or mbind result_bind].
  rewrite lines_one by (rewrite ?lacks_app, ?pretty_lacks; done).
  cbn [parse_io_lines]. change "default "%string with ("default" +:+ " "). rewrite str_app_assoc.
  rewrite split_whitespace_two by (done || apply pretty_graphic || apply pretty_N_digits).
  rewrite bool_decide_true by done. cbn [is_some].
  unfold IoWeight.MIN, IoWeight.MAX in *.
  rewrite parse_field_pretty by (unfold fits; change (2 ^ 16) with 65536; lia).
  cbn [mbind result_bind]. unfold IoWeight.new, in_range, IoWeight.MIN, IoWeight.MAX.
  rewrite (proj2 (N.leb_le _ _) H1), (proj2 (N.leb_le _ _) H2). cbn. by destruct w.
Qed.

(** Members separated by commas. *)
Lemma parse_members l : ∀ cpus,
  Forall (fits 32) l → N.of_nat (length cpus + length l) ≤ MAX_CPUSET →
  parse_cpuset_parts cpus (pretty <$> l) = Ok (cpus ++ l).
Proof.
  induction l as [|c l IH]; intros cpus Hf Hlen; cbn [fmap list_fmap parse_cpuset_parts];
    [by rewrite app_nil_r|].
  apply Forall_cons in Hf as [Hc Hf]. cbn [length] in Hlen.
  unfold parse_cpuset_part. rewrite bool_decide_false by apply pretty_N_digits.
  rewrite split_once_lacks by by apply pretty_lacks. rewrite parse_field_pretty by done.
  cbn [mbind result_bind].
  replace (MAX_CPUSET <? _) with false by (symmetry; apply N.ltb_ge; rewrite length_app; cbn; lia).
  cbn [mbind result_bind]. rewrite IH; [by rewrite <-app_assoc|done|rewrite length_app; cbn; lia].
Qed.

Lemma cpuset_round_trip s :
  CpuSet.wf s → N.of_nat (CpuSet.len s) ≤ MAX_CPUSET → parse_cpuset (render_cpuset s) = Ok s.
Proof.
  intros Hw Hlen. pose proof (CpuSet_new_wf s Hw) as Hnew. destruct Hw as (_ & Hne & Hf).
  unfold parse_cpuset, render_cpuset.
  assert (Forall (λ s, all_chars graphic s = true) (pretty <$> s.(CpuSet.as_slice))) as Hg.
  { apply Forall_fmap, Forall_true. intros x. apply pretty_graphic. }
  rewrite trim_graphic by by apply join_graphic.
  change "," with (String ","%char EmptyString).
  rewrite split_on_join.
  - rewrite parse_members by (done || exact Hlen). cbn [mbind result_bind app]. by rewrite Hnew.
  - by destruct (CpuSet.as_slice s).
  - apply Forall_fmap, Forall_true. intros x. by apply pretty_lacks.
Qed.

Lemma cpu_weight_round_trip w :
  CpuWeight.wf w →
  parse_workload_node WorkloadNode.CpuWeight (bytes_of_string (pretty w.(CpuWeight.get)))
  = Ok (TypedValue.CgroupCpuWeight w).
Proof.
  intros [H1 H2]. unfold parse_workload_node. rewrite pretty_text. cbn [ok_or mbind result_bind].
  rewrite trim_graphic by apply pretty_graphic. unfold CpuWeight.MIN, CpuWeight.MAX in *.
  rewrite parse_field_pretty by (unfold fits; change (2 ^ 16) with 65536; lia).
  cbn [mbind result_bind]. unfold CpuWeight.new, in_range, CpuWeight.MIN, CpuWeight.MAX.
  rewrite (proj2 (N.leb_le _ _) H1), (proj2 (N.leb_le _ _) H2). cbn. by destruct w.
Qed.

Lemma render_quota_graphic q : all_chars graphic (render_quota q) = true.
Proof. destruct q; [done|apply pretty_graphic]. Qed.

(** Every value the adapters write to a node reads back from its text as the
    same value: a cpuset within the reader's bound of CPUs, a quota and period,
    weights and clamps. *)
Theorem node_text_round_trip node value text :
  value_wf value → (∀ s, value = TypedValue.CgroupCpuset s → N.of_nat (CpuSet.len s) ≤ MAX_CPUSET) →
  node_text node value = Some text →
  parse_workload_node node (bytes_of_string text) = Ok value.
Proof.
  intros Hw Hset Ht. destruct node, value; try discriminate Ht; injection Ht as <-; cbn [value_wf] in Hw.
  - by apply cpu_weight_round_trip.
  - destruct Hw as [Hq Hp]. unfold parse_workload_node. rewrite from_utf8_of_string.
    + cbn [ok_or mbind result_bind]. by apply cpu_max_round_trip.
    + apply ascii_utf8. rewrite !all_chars_app.
      by rewrite (graphic_ascii _ (render_quota_graphic _)), (graphic_ascii _ (pretty_graphic _)).
  - unfold parse_workload_node. rewrite from_utf8_of_string.
    + cbn [ok_or mbind result_bind]. by rewrite cpuset_round_trip by auto.
    + apply graphic_utf8, join_graphic, Forall_fmap, Forall_true. intros x. apply pretty_graphic.
  - by apply io_weight_round_trip.
  - unfold parse_workload_node. rewrite uclamp_round_trip by done.
    rewrite from_utf8_of_string; [done|]. apply graphic_utf8. destruct value; [apply pretty_graphic|done].
  - unfold parse_workload_node. rewrite uclamp_round_trip by done.
    rewrite from_utf8_of_string; [done|]. apply graphic_utf8. destruct value; [apply pretty_graphic|done].
Qed.

(** ** Length *)

Lemma join_length sep l :
  (sum_list (String.length <$> l) + (length l - 1) * String.length sep ≤ String.length (join sep l))%nat.
Proof.
  induction l as [|s l IH]; [done|]. destruct l as [|s' l]; [cbn; lia|].
  change (join sep (s :: s' :: l)) with (s +:+ sep +:+ join sep (s' :: l)).
  rewrite !str_length_app. cbn in IH |- *. lia.
Qed.

Lemma pretty_pos (n : N) : (1 ≤ String.length (pretty n))%nat.
Proof. destruct (pretty n) eqn:E; [by destruct (proj2 (pretty_N_digits n))|cbn; lia]. Qed.

(** The text of a set lists every CPU, so a set of more than 64 CPUs is longer
    than a control write may be. *)
Lemma cpuset_text_long s : (64 < CpuSet.len s)%nat → 128 < str_len (render_cpuset s).
Proof.
  intros Hl. unfold str_len, render_cpuset. rewrite length_bytes_of_string.
  pose proof (join_length "," (pretty <$> s.(CpuSet.as_slice))) as Hj. rewrite length_fmap in Hj.
  change (String.length ",") with 1%nat in Hj. unfold CpuSet.len in Hl.
  assert (∀ l : list u32, length l ≤ sum_list (String.length <$> (pretty <$> l)))%nat as Hsum.
  { induction l as [|x l IH]; [done|]. pose proof (pretty_pos x). cbn in *. lia. }
  specialize (Hsum s.(CpuSet.as_slice)). lia.
Qed.
