(* ===== verification/CgroupFixture.v ===== *)
(** * The cgroup fixture ([CgroupFixture] of sysboost-linux/src/workload.rs)

    The deterministic hierarchy the workload backend is tested over.  Methods
    that fail half-way keep what they have changed, as the source does behind
    its lock; a poisoned lock is not modelled. *)
From Stdlib Require Import Strings.Byte.
From stdpp Require Import pretty.
From S2P Require Import Prelude Lists Text Str Ids Mut Capability Mutation.
From S2P Require Import Decision Plan Policy Workload WorkloadText.
Local Open Scope N_scope.

#[export] Instance ProcessId_countable : Countable ProcessId.t.
Proof.
  apply (inj_countable' (λ p, (p.(ProcessId.pid), p.(ProcessId.start_time_ticks))) (λ '(p, s), ProcessId.mk p s)).
  by intros [].
Defined.

Module FixtureGroup.
Record t := mk {
  identity : CgroupId.t;
  relative_path : string;
  controllers : gset string;
  delegated : gset string;
  cpu_weight : CpuWeight.t;
  cpu_quota : CpuQuota.t;
  cpu_period : CpuPeriod.t;
  cpuset : CpuSet.t;
  io_weight : IoWeight.t;
  uclamp_min : UclampValue.t;
  uclamp_max : UclampValue.t;
  processes : gset ProcessId.t
}.
(** A group with the default controls. *)
Definition fresh (identity : CgroupId.t) (relative_path : string) (controllers delegated : gset string)
    (cpuset : CpuSet.t) : t :=
  mk identity relative_path controllers delegated (CpuWeight.mk 100) CpuQuota.Max (CpuPeriod.mk 100000)
    cpuset (IoWeight.mk 100) (UclampValue.Value 0) UclampValue.Max ∅.
Definition set_identity (i : CgroupId.t) (x : t) : t :=
  let 'mk _ r c d w q p s io lo hi ps := x in mk i r c d w q p s io lo hi ps.
Definition set_controllers (c : gset string) (x : t) : t :=
  let 'mk i r _ d w q p s io lo hi ps := x in mk i r c d w q p s io lo hi ps.
Definition set_delegated (d : gset string) (x : t) : t :=
  let 'mk i r c _ w q p s io lo hi ps := x in mk i r c d w q p s io lo hi ps.
Definition set_cpu_weight (w : CpuWeight.t) (x : t) : t :=
  let 'mk i r c d _ q p s io lo hi ps := x in mk i r c d w q p s io lo hi ps.
Definition set_cpu_max (q : CpuQuota.t) (p : CpuPeriod.t) (x : t) : t :=
  let 'mk i r c d w _ _ s io lo hi ps := x in mk i r c d w q p s io lo hi ps.
Definition set_cpuset (s : CpuSet.t) (x : t) : t :=
  let 'mk i r c d w q p _ io lo hi ps := x in mk i r c d w q p s io lo hi ps.
Definition set_io_weight (io : IoWeight.t) (x : t) : t :=
  let 'mk i r c d w q p s _ lo hi ps := x in mk i r c d w q p s io lo hi ps.
Definition set_uclamp_min (lo : UclampValue.t) (x : t) : t :=
  let 'mk i r c d w q p s io _ hi ps := x in mk i r c d w q p s io lo hi ps.
Definition set_uclamp_max (hi : UclampValue.t) (x : t) : t :=
  let 'mk i r c d w q p s io lo _ ps := x in mk i r c d w q p s io lo hi ps.
Definition set_processes (ps : gset ProcessId.t) (x : t) : t :=
  let 'mk i r c d w q p s io lo hi _ := x in mk i r c d w q p s io lo hi ps.
Definition insert_process (p : ProcessId.t) (x : t) : t := set_processes ({[p]} ∪ x.(processes)) x.
Definition remove_process (p : ProcessId.t) (x : t) : t := set_processes (x.(processes) ∖ {[p]}) x.
End FixtureGroup.

Module FixtureProcess.
Record t := mk { identity : ProcessId.t; cgroup : TargetId.t; nice : NiceValue.t; ioprio : IoPriority.t }.
Definition set_cgroup (c : TargetId.t) (x : t) : t := mk x.(identity) c x.(nice) x.(ioprio).
Definition set_nice (n : NiceValue.t) (x : t) : t := mk x.(identity) x.(cgroup) n x.(ioprio).
Definition set_ioprio (i : IoPriority.t) (x : t) : t := mk x.(identity) x.(cgroup) x.(nice) i.
End FixtureProcess.

Definition render_fixture_node (group : FixtureGroup.t) (node : WorkloadNode.t) : string :=
  match node with
  | WorkloadNode.CpuWeight => pretty group.(FixtureGroup.cpu_weight).(CpuWeight.get)
  | WorkloadNode.CpuMax => render_quota group.(FixtureGroup.cpu_quota) +:+ " "
                           +:+ pretty group.(FixtureGroup.cpu_period).(CpuPeriod.get)
  | WorkloadNode.CpusetCpus => render_cpuset group.(FixtureGroup.cpuset)
  | WorkloadNode.IoWeight => pretty group.(FixtureGroup.io_weight).(IoWeight.get)
  | WorkloadNode.UclampMin => render_uclamp group.(FixtureGroup.uclamp_min)
  | WorkloadNode.UclampMax => render_uclamp group.(FixtureGroup.uclamp_max)
  end +:+ String NEWLINE EmptyString.

Definition require_controller (group : FixtureGroup.t) (controller : string) : Result unit :=
  if negb (bool_decide (controller ∈ group.(FixtureGroup.controllers)))
  then Err (unsupported "cgroup controller is unavailable")
  else if negb (bool_decide (controller ∈ group.(FixtureGroup.delegated)))
  then Err (permission_error "cgroup controller is not delegated")
  else Ok tt.

Definition observation_for_group (group : FixtureGroup.t) (typed : TypedValue.t) (raw : string) :
    Result WorkloadObservation.t :=
  WorkloadObservation.new (bytes_of_string raw) typed (cgroup_identity group.(FixtureGroup.identity)).

Definition root_id : CgroupId.t := CgroupId.mk 1 1 (TargetId.mk ROOT_TARGET).
Definition default_controllers : gset string := {["cpu"; "cpuset"; "io"]}%string.

Module CgroupFixture.
Record t := mk { groups : list (TargetId.t * FixtureGroup.t); processes : gmap ProcessId.t FixtureProcess.t }.
Definition set_groups (g : list (TargetId.t * FixtureGroup.t)) (x : t) : t := mk g x.(processes).
Definition set_processes (p : gmap ProcessId.t FixtureProcess.t) (x : t) : t := mk x.(groups) p.

Definition insert_group (handle : TargetId.t) (group : FixtureGroup.t) (x : t) : t :=
  set_groups (map_insert handle group x.(groups)) x.
(** [if let Some(group) = groups.get_mut(handle) { .. }] *)
Definition update_group (handle : TargetId.t) (f : FixtureGroup.t → FixtureGroup.t) (x : t) : t :=
  match map_get handle x.(groups) with Some g => insert_group handle (f g) x | None => x end.

Definition resolve_group (x : t) (cgroup : CgroupId.t) : Result FixtureGroup.t :=
  group ← ok_or (map_get cgroup.(CgroupId.handle) x.(groups)) (target_error "cgroup target was not discovered");
  let id := group.(FixtureGroup.identity) in
  if (negb (cgroup.(CgroupId.mount_id) =? 0) && negb (cgroup.(CgroupId.mount_id) =? id.(CgroupId.mount_id)))
     || (negb (cgroup.(CgroupId.inode) =? 0) && negb (cgroup.(CgroupId.inode) =? id.(CgroupId.inode)))
  then Err (target_error "cgroup target identity does not match discovery")
  else Ok group.

(** An update through [resolve_group_mut]. *)
Definition modify_group (cgroup : CgroupId.t) (f : FixtureGroup.t → FixtureGroup.t) : Mut t unit := λ x,
  match resolve_group x cgroup with
  | Ok group => (Ok tt, insert_group cgroup.(CgroupId.handle) (f group) x)
  | Err e => (Err e, x)
  end.

(** ** Setup *)

Definition add_group (identity : CgroupId.t) (relative_path : string) (x : t) : t :=
  insert_group identity.(CgroupId.handle)
    (FixtureGroup.fresh identity relative_path default_controllers default_controllers (CpuSet.mk [0; 1])) x.
Definition new : t := add_group root_id "" (mk [] ∅).

Definition add_child_group (parent : CgroupId.t) (name : CgroupName.t) (identity : CgroupId.t) : Mut t CgroupId.t :=
  x ← get;
  parent_group ← lift (resolve_group x parent);
  target ← lift (child_target parent.(CgroupId.handle) name);
  if negb (bool_decide (target = identity.(CgroupId.handle)))
  then throw (target_error "fixture child identity handle is not canonical")
  else
    _ ← modify (insert_group target
                  (FixtureGroup.fresh identity (child_path parent_group.(FixtureGroup.relative_path) name)
                     parent_group.(FixtureGroup.controllers) parent_group.(FixtureGroup.delegated)
                     parent_group.(FixtureGroup.cpuset)));
    mret identity.

Definition set_delegation (cgroup : CgroupId.t) (controller : string) (delegated : bool) : Mut t unit :=
  modify_group cgroup (λ g, FixtureGroup.set_delegated
    (if delegated then {[controller]} ∪ g.(FixtureGroup.delegated) else g.(FixtureGroup.delegated) ∖ {[controller]}) g).
Definition set_controller (cgroup : CgroupId.t) (controller : string) (available : bool) : Mut t unit :=
  modify_group cgroup (λ g, FixtureGroup.set_controllers
    (if available then {[controller]} ∪ g.(FixtureGroup.controllers) else g.(FixtureGroup.controllers) ∖ {[controller]}) g).
Definition replace_identity (cgroup identity : CgroupId.t) : Mut t unit :=
  modify_group cgroup (FixtureGroup.set_identity identity).
Definition external_set_cpu_weight (cgroup : CgroupId.t) (weight : CpuWeight.t) : Mut t unit :=
  modify_group cgroup (FixtureGroup.set_cpu_weight weight).

Definition add_process (process : ProcessId.t) (cgroup : CgroupId.t) (nice : NiceValue.t) (ioprio : IoPriority.t) :
    Mut t unit :=
  x ← get;
  group ← lift (resolve_group x cgroup);
  let group_handle := group.(FixtureGroup.identity).(CgroupId.handle) in
  _ ← match x.(processes) !! process with
      | Some previous =>
        if bool_decide (previous.(FixtureProcess.cgroup) = group_handle) then mret tt
        else modify (update_group previous.(FixtureProcess.cgroup) (FixtureGroup.remove_process process))
      | None => mret tt
      end;
  x ← get;
  group ← lift (ok_or (map_get group_handle x.(groups)) (target_error "cgroup target was not discovered"));
  _ ← modify (insert_group group_handle (FixtureGroup.insert_process process group));
  modify (λ x, set_processes (<[process := FixtureProcess.mk process group_handle nice ioprio]> x.(processes)) x).

Definition remove_process (process : ProcessId.t) (x : t) : t :=
  match x.(processes) !! process with
  | Some p => update_group p.(FixtureProcess.cgroup) (FixtureGroup.remove_process process)
                (set_processes (delete process x.(processes)) x)
  | None => x
  end.

(** ** Managed groups and placement *)

Definition create_fixture_group (parent : CgroupId.t) (name : CgroupName.t) : Mut t unit :=
  x ← get;
  parent_group ← lift (resolve_group x parent);
  target ← lift (child_target parent.(CgroupId.handle) name);
  if is_some (map_get target x.(groups))
  then throw (workload_error ErrorCode.ApplyError "managed cgroup already exists")
  else
    let inodes := (λ g, g.(FixtureGroup.identity).(CgroupId.inode)) <$> map_values x.(groups) in
    let next_inode := N.min (match inodes with [] => 1 | i :: l => foldl N.max i l end + 1) (2 ^ 64 - 1) in
    let identity := CgroupId.mk parent_group.(FixtureGroup.identity).(CgroupId.mount_id) next_inode target in
    modify (insert_group target
              (FixtureGroup.fresh identity (child_path parent_group.(FixtureGroup.relative_path) name)
                 parent_group.(FixtureGroup.controllers) parent_group.(FixtureGroup.delegated)
                 parent_group.(FixtureGroup.cpuset))).

Definition remove_fixture_group (parent : CgroupId.t) (name : CgroupName.t) : Mut t unit :=
  x ← get;
  parent_group ← lift (resolve_group x parent);
  target ← lift (child_target parent.(CgroupId.handle) name);
  group ← lift (ok_or (map_get target x.(groups)) (target_error "managed cgroup disappeared before cleanup"));
  let path := group.(FixtureGroup.relative_path) in
  if negb (bool_decide (group.(FixtureGroup.processes) = ∅))
     || existsb (λ g, starts_with (path +:+ "/") g.(FixtureGroup.relative_path)) (map_values x.(groups))
  then throw (workload_error ErrorCode.RestoreError "managed cgroup is not empty and cannot be removed safely")
  else if bool_decide (parent_group.(FixtureGroup.relative_path) = path)
  then throw (target_error "managed cgroup parent and child are identical")
  else modify (λ x, set_groups (map_remove target x.(groups)) x).

Definition move_fixture_process (process : ProcessId.t) (destination : CgroupId.t) : Mut t unit :=
  x ← get;
  group ← lift (resolve_group x destination);
  let destination_handle := group.(FixtureGroup.identity).(CgroupId.handle) in
  current ← lift (ok_or (x.(processes) !! process) (target_error "fixture process disappeared"));
  _ ← modify (update_group current.(FixtureProcess.cgroup) (FixtureGroup.remove_process process));
  x ← get;
  group ← lift (ok_or (map_get destination_handle x.(groups))
                  (target_error "fixture destination cgroup disappeared"));
  _ ← modify (insert_group destination_handle (FixtureGroup.insert_process process group));
  modify (λ x, set_processes (alter (FixtureProcess.set_cgroup destination_handle) process x.(processes)) x).

(** ** The port *)

Definition cgroup_state (groups : list FixtureGroup.t) (controller : string) : CapabilityState.t :=
  if negb (existsb (λ g, bool_decide (controller ∈ g.(FixtureGroup.controllers))) groups)
  then CapabilityState.Unsupported
  else if existsb (λ g, bool_decide (controller ∈ g.(FixtureGroup.controllers))
                        && bool_decide (controller ∈ g.(FixtureGroup.delegated))) groups
  then CapabilityState.Available
  else CapabilityState.Denied.
Definition process_state (none available : bool) : CapabilityState.t :=
  if available then CapabilityState.Available
  else if none then CapabilityState.Unsupported else CapabilityState.Denied.

Definition detect (x : t) (observed_at : Result Timestamp.t) : Result CapabilityInventory.t :=
  observed_at ← observed_at;
  let groups := map_values x.(groups) in
  let none := bool_decide (x.(processes) = ∅) in
  let has_group := negb (bool_decide (length groups = 0%nat)) in
  let cgroup name equality state classification evidence :=
    workload_capability name name TargetKind.Cgroup equality state classification evidence in
  let cpu := cgroup_state groups "cpu" in
  Ok (CapabilityInventory.mk observed_at
    [cgroup "cgroup.cpu.weight" EqualityKind.ScalarExact cpu FeatureClass.RuntimeMutable
       "fixture cgroup v2 cpu controller delegation";
     cgroup "cgroup.cpu.max" EqualityKind.ScalarExact cpu FeatureClass.RuntimeMutable
       "fixture cgroup v2 cpu controller delegation";
     cgroup "cgroup.cpuset.cpus" EqualityKind.SetExact (cgroup_state groups "cpuset") FeatureClass.Conditional
       "fixture cgroup v2 cpuset controller delegation";
     cgroup "cgroup.io.weight" EqualityKind.ScalarExact (cgroup_state groups "io") FeatureClass.Conditional
       "fixture cgroup v2 io controller delegation";
     uclamp_capability cpu "fixture cgroup v2 CPU uclamp delegation";
     cgroup "cgroup.workload" EqualityKind.ScalarExact cpu FeatureClass.Conditional
       "fixture delegated parent permits explicit workload group management";
     cgroup "cgroup.background" EqualityKind.ScalarExact cpu FeatureClass.Conditional
       "fixture delegated parent permits conservative background management";
     workload_capability "scheduler.process.placement" "scheduler.process.placement" TargetKind.Process
       EqualityKind.ScalarExact (process_state none (has_group && negb none)) FeatureClass.Conditional
       "fixture explicitly identified process and cgroup targets";
     workload_capability "scheduler.nice" "scheduler.nice" TargetKind.Process EqualityKind.ScalarExact
       (process_state none (negb none)) FeatureClass.RuntimeMutable "fixture explicitly identified process target";
     workload_capability "scheduler.ioprio" "scheduler.ioprio" TargetKind.Process EqualityKind.ScalarExact
       (process_state none (negb none)) FeatureClass.Experimental "fixture explicitly identified process target"]).

Definition targets (x : t) : Result (list WorkloadTarget.t) :=
  Ok ((λ g, WorkloadTarget.mk g.(FixtureGroup.identity) g.(FixtureGroup.relative_path)) <$> map_values x.(groups)).

Definition read_node (x : t) (cgroup : CgroupId.t) (node : WorkloadNode.t) : Result (list byte) :=
  group ← resolve_group x cgroup;
  _ ← require_controller group (WorkloadNode.controller node);
  Ok (bytes_of_string (render_fixture_node group node)).

(** A node of a group as an observation. *)
Definition read_cgroup (x : t) (cgroup : CgroupId.t) (node : WorkloadNode.t)
    (typed : FixtureGroup.t → TypedValue.t) : Result WorkloadObservation.t :=
  group ← resolve_group x cgroup;
  _ ← require_controller group (WorkloadNode.controller node);
  observation_for_group group (typed group) (render_fixture_node group node).

Definition read_lifecycle (x : t) (parent : CgroupId.t) (name : CgroupName.t) (kind : CgroupGroupKind.t) :
    Result WorkloadObservation.t :=
  parent_group ← resolve_group x parent;
  _ ← require_controller parent_group "cpu";
  target ← child_target parent.(CgroupId.handle) name;
  let present := is_some (map_get target x.(groups)) in
  observation_for_group parent_group (TypedValue.CgroupLifecycle kind name present)
    ((if present then "present" else "absent") +:+ String NEWLINE EmptyString).

Definition read_mutation (x : t) (kind : MutationKind.t) : Result WorkloadObservation.t :=
  match kind with
  | MutationKind.CgroupCpuWeight cgroup _ => read_cgroup x cgroup WorkloadNode.CpuWeight
      (λ g, TypedValue.CgroupCpuWeight g.(FixtureGroup.cpu_weight))
  | MutationKind.CgroupCpuMax cgroup _ _ => read_cgroup x cgroup WorkloadNode.CpuMax
      (λ g, TypedValue.CgroupCpuMax g.(FixtureGroup.cpu_quota) g.(FixtureGroup.cpu_period))
  | MutationKind.CgroupCpuset cgroup _ => read_cgroup x cgroup WorkloadNode.CpusetCpus
      (λ g, TypedValue.CgroupCpuset g.(FixtureGroup.cpuset))
  | MutationKind.CgroupIoWeight cgroup _ => read_cgroup x cgroup WorkloadNode.IoWeight
      (λ g, TypedValue.CgroupIoWeight g.(FixtureGroup.io_weight))
  | MutationKind.CgroupUclampMin cgroup _ => read_cgroup x cgroup WorkloadNode.UclampMin
      (λ g, TypedValue.CgroupUclamp g.(FixtureGroup.uclamp_min))
  | MutationKind.CgroupUclampMax cgroup _ => read_cgroup x cgroup WorkloadNode.UclampMax
      (λ g, TypedValue.CgroupUclamp g.(FixtureGroup.uclamp_max))
  | MutationKind.CgroupWorkload parent name => read_lifecycle x parent name CgroupGroupKind.Workload
  | MutationKind.CgroupBackground parent name => read_lifecycle x parent name CgroupGroupKind.ConservativeBackground
  | _ => Err (unsupported "fixture mutation is not a cgroup operation")
  end.

(** The value of a process that a mutation names. *)
Definition process_value (kind : MutationKind.t) (current : FixtureProcess.t) (group : FixtureGroup.t) :
    option (ProcessId.t * TypedValue.t) :=
  match kind with
  | MutationKind.ProcessNice process _ => Some (process, TypedValue.Nice current.(FixtureProcess.nice))
  | MutationKind.ProcessIoPriority process _ => Some (process, TypedValue.IoPriority current.(FixtureProcess.ioprio))
  | MutationKind.ProcessPlacement process _ =>
    Some (process, TypedValue.ProcessPlacement group.(FixtureGroup.identity))
  | _ => None
  end.
Definition process_of (kind : MutationKind.t) : option ProcessId.t :=
  match kind with
  | MutationKind.ProcessNice process _ | MutationKind.ProcessIoPriority process _
  | MutationKind.ProcessPlacement process _ => Some process
  | _ => None
  end.

Definition read_process (x : t) (kind : MutationKind.t) : Result WorkloadObservation.t :=
  process ← ok_or (process_of kind) (unsupported "fixture mutation is not a process operation");
  current ← ok_or (x.(processes) !! process) (target_error "fixture process disappeared");
  if negb (bool_decide (current.(FixtureProcess.identity) = process))
  then Err (target_error "fixture process identity was replaced")
  else
    group ← ok_or (map_get current.(FixtureProcess.cgroup) x.(groups))
              (target_error "fixture process cgroup disappeared");
    '(process, typed) ← ok_or (process_value kind current group)
                          (unsupported "fixture mutation is not a process operation");
    WorkloadObservation.new (render_typed_process typed) typed (process_identity process).

Definition validate_desired (x : t) (kind : MutationKind.t) (desired : TypedValue.t) : Result unit :=
  if negb (bool_decide (typed_value kind = desired))
  then Err (workload_error ErrorCode.PlanningError "workload kind and desired value disagree")
  else match kind with
       | MutationKind.CgroupUclampMin cgroup value =>
         if bool_decide (value = UclampValue.Max)
         then Err (workload_error ErrorCode.InvalidInput "uclamp.min cannot be max")
         else
           group ← resolve_group x cgroup;
           _ ← require_controller group "cpu";
           validate_uclamp_pair value group.(FixtureGroup.uclamp_max)
       | MutationKind.CgroupUclampMax cgroup value =>
         group ← resolve_group x cgroup;
         _ ← require_controller group "cpu";
         validate_uclamp_pair group.(FixtureGroup.uclamp_min) value
       | MutationKind.ProcessPlacement _ cgroup => _ ← resolve_group x cgroup; Ok tt
       | MutationKind.CgroupWorkload parent _ | MutationKind.CgroupBackground parent _ =>
         group ← resolve_group x parent; require_controller group "cpu"
       | _ => Ok tt
       end.

(** [processes.get_mut(process)] and an update. *)
Definition modify_process (process : ProcessId.t) (f : FixtureProcess.t → FixtureProcess.t) : Mut t unit :=
  x ← get;
  current ← lift (ok_or (x.(processes) !! process) (target_error "fixture process disappeared"));
  modify (λ x, set_processes (<[process := f current]> x.(processes)) x).

Definition write_mutation (kind : MutationKind.t) (desired : TypedValue.t) : Mut t unit :=
  match kind, desired with
  | MutationKind.CgroupCpuWeight cgroup _, TypedValue.CgroupCpuWeight value =>
    modify_group cgroup (FixtureGroup.set_cpu_weight value)
  | MutationKind.CgroupCpuMax cgroup _ _, TypedValue.CgroupCpuMax quota period =>
    modify_group cgroup (FixtureGroup.set_cpu_max quota period)
  | MutationKind.CgroupCpuset cgroup _, TypedValue.CgroupCpuset value =>
    modify_group cgroup (FixtureGroup.set_cpuset value)
  | MutationKind.CgroupIoWeight cgroup _, TypedValue.CgroupIoWeight value =>
    modify_group cgroup (FixtureGroup.set_io_weight value)
  | MutationKind.CgroupUclampMin cgroup _, TypedValue.CgroupUclamp value =>
    modify_group cgroup (FixtureGroup.set_uclamp_min value)
  | MutationKind.CgroupUclampMax cgroup _, TypedValue.CgroupUclamp value =>
    modify_group cgroup (FixtureGroup.set_uclamp_max value)
  | MutationKind.CgroupWorkload parent name, TypedValue.CgroupLifecycle _ _ true
  | MutationKind.CgroupBackground parent name, TypedValue.CgroupLifecycle _ _ true =>
    create_fixture_group parent name
  | MutationKind.CgroupWorkload parent name, TypedValue.CgroupLifecycle _ _ false
  | MutationKind.CgroupBackground parent name, TypedValue.CgroupLifecycle _ _ false =>
    remove_fixture_group parent name
  | MutationKind.ProcessNice process _, TypedValue.Nice value =>
    modify_process process (FixtureProcess.set_nice value)
  | MutationKind.ProcessIoPriority process _, TypedValue.IoPriority value =>
    modify_process process (FixtureProcess.set_ioprio value)
  | MutationKind.ProcessPlacement process _, TypedValue.ProcessPlacement cgroup =>
    move_fixture_process process cgroup
  | _, _ => throw (workload_error ErrorCode.InvariantViolation "fixture write shape is not closed")
  end.

#[global] Instance control_io : WorkloadControlIo.t t := {|
  WorkloadControlIo.detect := detect;
  WorkloadControlIo.targets := targets;
  WorkloadControlIo.read_node := read_node;
  WorkloadControlIo.read_mutation := read_mutation;
  WorkloadControlIo.read_process := read_process;
  WorkloadControlIo.validate_desired := validate_desired;
  WorkloadControlIo.write_mutation := write_mutation
|}.
End CgroupFixture.
