(* ===== verification/CgroupSysfs.v ===== *)
(** * The cgroup-v2 and procfs adapter ([WorkloadSysfs] of sysboost-linux/src/workload.rs)

    The host as the adapter sees it: what [symlink_metadata] shows of a path,
    what a read of a file gives, which directories cannot be listed, and the
    nice values of the scheduler.  How the kernel takes a write, a new or
    removed directory and a new nice value are parameters.  An error while a
    directory is being iterated and a poisoned lock are not modelled. *)
From Stdlib Require Import Strings.Byte Strings.Ascii.
From stdpp Require Import pretty.
From S2P Require Import Prelude Lists Text Str Ids Mut Capability Mutation.
From S2P Require Import Decision Plan Policy FileSystem Workload WorkloadText.
Local Open Scope N_scope.

Definition MAX_WORKLOAD_GROUPS : usize := 4096.

Module Host.
Record t := mk {
  nodes : gmap Path (io Metadata.t);
  contents : gmap Path (io (list byte));
  unlistable : gmap Path ErrorKind.t;
  nice : gmap u32 Z;
  self : u32
}.
Definition set_nodes (n : gmap Path (io Metadata.t)) (x : t) : t :=
  mk n x.(contents) x.(unlistable) x.(nice) x.(self).
Definition set_contents (c : gmap Path (io (list byte))) (x : t) : t :=
  mk x.(nodes) c x.(unlistable) x.(nice) x.(self).
Definition set_nice (n : gmap u32 Z) (x : t) : t := mk x.(nodes) x.(contents) x.(unlistable) n x.(self).

(** [fs::symlink_metadata] *)
Definition stat (x : t) (p : Path) : io Metadata.t := default (Err ErrorKind.NotFound) (x.(nodes) !! p).
(** Opening for reading and [read_to_end]. *)
Definition read (x : t) (p : Path) : io (list byte) := default (Ok []) (x.(contents) !! p).
(** The names below a directory. *)
Definition children (x : t) (p : Path) : list string :=
  omap (λ '(q, _), match q with [] => None | name :: d => if bool_decide (d = p) then Some name else None end)
    (map_to_list x.(nodes)).
(** [fs::read_dir] *)
Definition read_dir (x : t) (p : Path) : io (list string) :=
  match x.(unlistable) !! p with
  | Some kind => Err kind
  | None => m ← stat x p; if FileType.is_dir m.(Metadata.file_type) then Ok (children x p) else Err ErrorKind.Other
  end.
End Host.

(** The system calls that change the host, [None] being success: one write of
    an opened file, [create_dir], [remove_dir] and [setpriority]. *)
Module HostKernel.
Class t := {
  write : Path → list byte → Host.t → option ErrorKind.t * Host.t;
  create_dir : Path → Host.t → option ErrorKind.t * Host.t;
  remove_dir : Path → Host.t → option ErrorKind.t * Host.t;
  set_priority : u32 → Z → Host.t → option ErrorKind.t * Host.t
}.
End HostKernel.

Module WorkloadControlFile.
Inductive t := Controllers | SubtreeControl | Procs.
#[global] Instance t_eq_dec : EqDecision t. Proof. solve_decision. Defined.
Definition filename (x : t) : string :=
  match x with
  | Controllers => "cgroup.controllers"
  | SubtreeControl => "cgroup.subtree_control"
  | Procs => "cgroup.procs"
  end.
End WorkloadControlFile.

Module SysfsGroup.
Record t := mk { identity : CgroupId.t; relative_path : string; path : Path }.
#[global] Instance t_eq_dec : EqDecision t. Proof. solve_decision. Defined.
End SysfsGroup.

Module WorkloadSysfs.
Record t := mk { host : Host.t; proc_root : Path; groups : list (TargetId.t * SysfsGroup.t) }.
Definition set_host (h : Host.t) (x : t) : t := mk h x.(proc_root) x.(groups).
Definition set_groups (g : list (TargetId.t * SysfsGroup.t)) (x : t) : t := mk x.(host) x.(proc_root) g.
End WorkloadSysfs.

(** ** Files and directories *)

Definition io_error (kind : ErrorKind.t) (message : string) : SysboostError.t :=
  match kind with
  | ErrorKind.PermissionDenied => permission_error message
  | ErrorKind.NotFound => target_error message
  | _ => workload_error ErrorCode.ApplyError message
  end.
Definition or_io {A} (r : io A) (message : string) : Result A := map_err (λ kind, io_error kind message) r.

(** The entry names a group: the name is text and a bounded component. *)
Definition group_name (entry : string) : option CgroupName.t :=
  if utf8_valid (bytes_of_string entry)
  then match CgroupName.new entry with Ok name => Some name | Err _ => None end
  else None.

(** [Permissions::readonly]: no write bit. *)
Definition readonly (m : Metadata.t) : bool := N.land m.(Metadata.mode) 146 =? 0.

Section Files.
Variable h : Host.t.

Definition validate_directory (p : Path) (message : string) : Result unit :=
  m ← or_io (Host.stat h p) message;
  if FileType.is_symlink m.(Metadata.file_type) || negb (FileType.is_dir m.(Metadata.file_type))
  then Err (target_error message) else Ok tt.

Definition validate_regular_file (p : Path) (message : string) : Result Metadata.t :=
  m ← or_io (Host.stat h p) message;
  if FileType.is_symlink m.(Metadata.file_type) || negb (FileType.is_file m.(Metadata.file_type))
  then Err (target_error message) else Ok m.

Definition cgroup_id_from_path (handle : string) (p : Path) (message : string) : Result CgroupId.t :=
  m ← or_io (Host.stat h p) message;
  if FileType.is_symlink m.(Metadata.file_type) || negb (FileType.is_dir m.(Metadata.file_type))
  then Err (target_error message)
  else
    handle ← map_err (λ _, target_error "cgroup target handle is invalid") (TargetId.new handle);
    Ok (CgroupId.new m.(Metadata.dev) m.(Metadata.ino) handle).

Definition read_closed_file (p : Path) (message : string) : Result (list byte) :=
  _ ← validate_regular_file p message;
  bytes ← or_io (Host.read h p) message;
  if MAX_READ_BYTES <? N.of_nat (length bytes)
  then Err (target_error "workload control file is oversized") else Ok bytes.

(** The groups below a directory.  The fuel is what the depth leaves of the
    bound, so it is used up exactly when the depth exceeds the bound. *)
Fixpoint collect_sysfs_groups (fuel : nat) (p : Path) (relative_path : string) (identity : CgroupId.t)
    (groups : list (TargetId.t * SysfsGroup.t)) : Result (list (TargetId.t * SysfsGroup.t)) :=
  match fuel with
  | O => Err (target_error "cgroup hierarchy exceeds the bounded discovery limit")
  | S fuel =>
    if MAX_WORKLOAD_GROUPS <=? N.of_nat (length groups)
    then Err (target_error "cgroup hierarchy exceeds the bounded discovery limit")
    else
      let groups := map_insert identity.(CgroupId.handle) (SysfsGroup.mk identity relative_path p) groups in
      entries ← or_io (Host.read_dir h p) "cgroup hierarchy cannot be enumerated";
      try_fold (λ groups entry,
        m ← or_io (Host.stat h (FileSystem.join p entry)) "cgroup hierarchy entry identity cannot be read";
        if FileType.is_symlink m.(Metadata.file_type)
        then Err (target_error "cgroup hierarchy contains a symlinked directory")
        else if negb (FileType.is_dir m.(Metadata.file_type)) then Ok groups
        else match group_name entry with
             | None => Ok groups
             | Some name =>
               target ← child_target identity.(CgroupId.handle) name;
               let child := CgroupId.new m.(Metadata.dev) m.(Metadata.ino) target in
               collect_sysfs_groups fuel (FileSystem.join p entry) (child_path relative_path name) child groups
             end) entries groups
  end.
End Files.

(** ** Reading through the discovered groups *)

Definition root_target : TargetId.t := TargetId.mk ROOT_TARGET.

(** [WorkloadSysfs::new] *)
Definition sysfs_new (h : Host.t) (root proc_root : Path) : Result WorkloadSysfs.t :=
  _ ← validate_directory h root "cgroup v2 root is unavailable";
  root_identity ← cgroup_id_from_path h ROOT_TARGET root "cgroup v2 root identity cannot be inspected";
  groups ← collect_sysfs_groups h (S (N.to_nat MAX_WORKLOAD_GROUPS)) root "" root_identity [];
  if bool_decide (groups = []) then Err (unsupported "cgroup v2 hierarchy contains no discoverable targets")
  else Ok (WorkloadSysfs.mk h proc_root groups).

Section Reads.
Variable x : WorkloadSysfs.t.
Let h : Host.t := x.(WorkloadSysfs.host).

Definition group_for (cgroup : CgroupId.t) : Result SysfsGroup.t :=
  if (cgroup.(CgroupId.mount_id) =? 0) || (cgroup.(CgroupId.inode) =? 0)
  then Err (target_error "production cgroup target lacks complete mount/inode identity")
  else
    group ← ok_or (map_get cgroup.(CgroupId.handle) x.(WorkloadSysfs.groups))
              (target_error "cgroup target was not discovered by the backend");
    let id := group.(SysfsGroup.identity) in
    if negb (bool_decide (id = cgroup)) then Err (target_error "cgroup target identity does not match discovery")
    else
      identity ← cgroup_id_from_path h id.(CgroupId.handle).(TargetId.as_str) group.(SysfsGroup.path)
                   "cgroup target disappeared or changed identity";
      if negb (identity.(CgroupId.mount_id) =? id.(CgroupId.mount_id))
         || negb (identity.(CgroupId.inode) =? id.(CgroupId.inode))
      then Err (target_error "cgroup target was replaced after discovery")
      else Ok group.

Definition root_group : Result SysfsGroup.t :=
  cgroup ← ok_or (map_get root_target x.(WorkloadSysfs.groups)) (target_error "cgroup v2 root was not discovered");
  group_for cgroup.(SysfsGroup.identity).

Definition read_control (group : SysfsGroup.t) (control : WorkloadControlFile.t) : Result (list byte) :=
  read_closed_file h (FileSystem.join group.(SysfsGroup.path) (WorkloadControlFile.filename control))
    "cgroup control file cannot be read".

Definition node_path (group : SysfsGroup.t) (node : WorkloadNode.t) : Path :=
  FileSystem.join group.(SysfsGroup.path) (WorkloadNode.filename node).

Definition require_controller (group : SysfsGroup.t) (controller : string) : Result unit :=
  controllers ← text_tokens <$> read_control group WorkloadControlFile.Controllers;
  subtree ← text_tokens <$> read_control group WorkloadControlFile.SubtreeControl;
  if negb (bool_decide (controller ∈ controllers)) && negb (bool_decide (controller ∈ subtree))
  then Err (unsupported "cgroup controller is unavailable")
  else
    directory ← or_io (Host.stat h group.(SysfsGroup.path)) "cgroup delegation cannot be inspected";
    if readonly directory then Err (permission_error "cgroup controller is not delegated for writing")
    else Ok tt.

Definition require_node (group : SysfsGroup.t) (node : WorkloadNode.t) : Result unit :=
  m ← validate_regular_file h (node_path group node) "cgroup controller file is unavailable";
  _ ← require_controller group (WorkloadNode.controller node);
  if readonly m then Err (permission_error "cgroup controller is not writable by the backend") else Ok tt.

Definition read_node_bytes (group : SysfsGroup.t) (node : WorkloadNode.t) : Result (list byte) :=
  _ ← require_node group node;
  read_closed_file h (node_path group node) "cgroup controller file cannot be read".

Definition read_node_value (group : SysfsGroup.t) (node : WorkloadNode.t) : Result (TypedValue.t * list byte) :=
  raw ← read_node_bytes group node;
  typed ← parse_workload_node node raw;
  Ok (typed, raw).

(** ** Processes *)

Definition proc_path (pid : u32) (file : string) : Path :=
  FileSystem.join (FileSystem.join x.(WorkloadSysfs.proc_root) (pretty pid)) file.

(** The start time in the text of a [stat] file: the twentieth word after the
    command, which is parenthesized and may hold anything. *)
Definition start_time_of (subject : string) (raw : list byte) : Result u64 :=
  text ← ok_or (from_utf8 raw) (target_error (subject +:+ " stat is not valid UTF-8"));
  rest ← ok_or (after_last ")" text) (target_error (subject +:+ " stat is malformed"));
  ok_or (value ← split_whitespace rest !! 19%nat;
         value ← parse_uint 64 value;
         if value =? 0 then None else Some value)
    (target_error (subject +:+ " start time is unavailable")).

Definition read_proc_identity (process : ProcessId.t) : Result ProcessId.t :=
  raw ← read_closed_file h (proc_path process.(ProcessId.pid) "stat") "process identity cannot be inspected";
  start_time ← start_time_of "process" raw;
  observed ← ProcessId.new process.(ProcessId.pid) start_time;
  if negb (bool_decide (observed = process))
  then Err (target_error "process PID was recycled or identity changed")
  else Ok observed.

Definition current_process : Result ProcessId.t :=
  let pid := h.(Host.self) in
  raw ← read_closed_file h (proc_path pid "stat") "current process identity cannot be inspected";
  start_time ← start_time_of "current process" raw;
  ProcessId.new pid start_time.

(** [trim_start_matches('/')] *)
Fixpoint trim_slashes (s : string) : string :=
  match s with String "/"%char s' => trim_slashes s' | _ => s end.

(** The first line of the unified hierarchy. *)
Fixpoint unified_path (l : list string) : option string :=
  match l with
  | [] => None
  | line :: rest => match strip_prefix "0::" line with Some path => Some path | None => unified_path rest end
  end.

Definition read_process_cgroup (process : ProcessId.t) : Result SysfsGroup.t :=
  _ ← read_proc_identity process;
  raw ← read_closed_file h (proc_path process.(ProcessId.pid) "cgroup")
          "process cgroup placement cannot be inspected";
  text ← ok_or (from_utf8 raw) (target_error "process cgroup record is not valid UTF-8");
  relative_path ← ok_or (trim_slashes <$> unified_path (lines text))
                    (unsupported "process is not in a cgroup-v2 hierarchy");
  group ← ok_or (List.find (λ g, bool_decide (g.(SysfsGroup.relative_path) = relative_path))
                   (map_values x.(WorkloadSysfs.groups)))
            (target_error "process cgroup target was not discovered");
  group ← group_for group.(SysfsGroup.identity);
  _ ← read_proc_identity process;
  Ok group.

(** [as i32] of a process number and [Pid::from_raw], which takes positive
    numbers. *)
Definition raw_pid (process : ProcessId.t) : Result u32 :=
  let pid := process.(ProcessId.pid) in
  if (pid =? 0) || (2 ^ 31 <=? pid) then Err (target_error "process PID is invalid") else Ok pid.

(** [value as i8] *)
Definition as_i8 (z : Z) : i8 := ((z + 128) mod 256 - 128)%Z.

Definition sysfs_read_process (kind : MutationKind.t) : Result WorkloadObservation.t :=
  process ← match kind with
            | MutationKind.ProcessNice process _ | MutationKind.ProcessIoPriority process _
            | MutationKind.ProcessPlacement process _ => Ok process
            | _ => Err (unsupported "production mutation is not a process operation")
            end;
  _ ← read_proc_identity process;
  typed ← match kind with
          | MutationKind.ProcessNice _ _ =>
            pid ← raw_pid process;
            value ← ok_or (h.(Host.nice) !! pid) (target_error "process nice value cannot be read");
            TypedValue.Nice <$> NiceValue.new (as_i8 value)
          | MutationKind.ProcessIoPriority _ _ => Err (unsupported "production ioprio adapter is unavailable")
          | _ => group ← read_process_cgroup process; Ok (TypedValue.ProcessPlacement group.(SysfsGroup.identity))
          end;
  _ ← read_proc_identity process;
  WorkloadObservation.new (render_typed_process typed) typed (process_identity process).

(** ** The reads of the port *)

Definition sysfs_targets : Result (list WorkloadTarget.t) :=
  Ok (sort_by (cmp_by WorkloadTarget.relative_path)
        ((λ g, WorkloadTarget.mk g.(SysfsGroup.identity) g.(SysfsGroup.relative_path))
           <$> map_values x.(WorkloadSysfs.groups))).

Definition sysfs_read_node (cgroup : CgroupId.t) (node : WorkloadNode.t) : Result (list byte) :=
  group ← group_for cgroup;
  read_node_bytes group node.

Definition read_cgroup_node (cgroup : CgroupId.t) (node : WorkloadNode.t) : Result WorkloadObservation.t :=
  group ← group_for cgroup;
  '(typed, raw) ← read_node_value group node;
  WorkloadObservation.new raw typed (cgroup_identity group.(SysfsGroup.identity)).

(** The directory of a managed group of [parent]. *)
Definition managed_path (parent : SysfsGroup.t) (name : CgroupName.t) : Path :=
  FileSystem.join parent.(SysfsGroup.path) name.(CgroupName.as_str).

Definition group_present (p : Path) : Result bool :=
  match Host.stat h p with
  | Ok m => if FileType.is_dir m.(Metadata.file_type) then Ok true
            else Err (target_error "managed cgroup path is not a directory")
  | Err ErrorKind.NotFound => Ok false
  | Err kind => Err (io_error kind "managed cgroup presence cannot be inspected")
  end.

Definition read_lifecycle (parent : CgroupId.t) (name : CgroupName.t) (kind : CgroupGroupKind.t) :
    Result WorkloadObservation.t :=
  parent ← group_for parent;
  _ ← require_controller parent "cpu";
  present ← group_present (managed_path parent name);
  WorkloadObservation.new
    (bytes_of_string ((if present : bool then "present" else "absent") +:+ String NEWLINE EmptyString))
    (TypedValue.CgroupLifecycle kind name present) (cgroup_identity parent.(SysfsGroup.identity)).

Definition sysfs_read_mutation (kind : MutationKind.t) : Result WorkloadObservation.t :=
  match kind with
  | MutationKind.CgroupCpuWeight cgroup _ => read_cgroup_node cgroup WorkloadNode.CpuWeight
  | MutationKind.CgroupCpuMax cgroup _ _ => read_cgroup_node cgroup WorkloadNode.CpuMax
  | MutationKind.CgroupCpuset cgroup _ => read_cgroup_node cgroup WorkloadNode.CpusetCpus
  | MutationKind.CgroupIoWeight cgroup _ => read_cgroup_node cgroup WorkloadNode.IoWeight
  | MutationKind.CgroupUclampMin cgroup _ => read_cgroup_node cgroup WorkloadNode.UclampMin
  | MutationKind.CgroupUclampMax cgroup _ => read_cgroup_node cgroup WorkloadNode.UclampMax
  | MutationKind.CgroupWorkload parent name => read_lifecycle parent name CgroupGroupKind.Workload
  | MutationKind.CgroupBackground parent name => read_lifecycle parent name CgroupGroupKind.ConservativeBackground
  | _ => Err (unsupported "production mutation is not a cgroup operation")
  end.

(** The clamp in the other node of a group, both nodes being writable. *)
Definition other_clamp (group : SysfsGroup.t) (other : WorkloadNode.t) : Result UclampValue.t :=
  _ ← require_node group WorkloadNode.UclampMin;
  _ ← require_node group WorkloadNode.UclampMax;
  '(_, raw) ← read_node_value group other;
  parse_uclamp raw.

Definition sysfs_validate_desired (kind : MutationKind.t) (desired : TypedValue.t) : Result unit :=
  let node cgroup node := group ← group_for cgroup; require_node group node in
  if negb (bool_decide (typed_value kind = desired))
  then Err (workload_error ErrorCode.PlanningError "workload kind and desired value disagree")
  else match kind with
       | MutationKind.CgroupCpuWeight cgroup _ => node cgroup WorkloadNode.CpuWeight
       | MutationKind.CgroupCpuMax cgroup _ _ => node cgroup WorkloadNode.CpuMax
       | MutationKind.CgroupCpuset cgroup _ => node cgroup WorkloadNode.CpusetCpus
       | MutationKind.CgroupIoWeight cgroup _ => node cgroup WorkloadNode.IoWeight
       | MutationKind.CgroupUclampMin cgroup value =>
         group ← group_for cgroup;
         if bool_decide (value = UclampValue.Max)
         then Err (workload_error ErrorCode.InvalidInput "uclamp.min cannot use the max sentinel")
         else max ← other_clamp group WorkloadNode.UclampMax; validate_uclamp_pair value max
       | MutationKind.CgroupUclampMax cgroup value =>
         group ← group_for cgroup;
         min ← other_clamp group WorkloadNode.UclampMin; validate_uclamp_pair min value
       | MutationKind.CgroupWorkload parent _ | MutationKind.CgroupBackground parent _ =>
         group ← group_for parent; require_controller group "cpu"
       | MutationKind.ProcessPlacement process cgroup =>
         _ ← group_for cgroup; _ ← read_proc_identity process; Ok tt
       | MutationKind.ProcessNice process _ => _ ← read_proc_identity process; Ok tt
       | MutationKind.ProcessIoPriority _ _ => Err (unsupported "production ioprio adapter is unavailable")
       | _ => Err (unsupported "production backend does not own this workload operation")
       end.

(** ** Detection *)

(** The loop of [probe] after the groups before it. *)
Fixpoint probe_loop (node : WorkloadNode.t) (state : CapabilityState.t) (groups : list SysfsGroup.t) :
    CapabilityState.t :=
  match groups with
  | [] => state
  | group :: rest =>
    match read_node_value group node with
    | Ok _ => CapabilityState.Available
    | Err e =>
      probe_loop node
        match e.(SysboostError.code) with
        | ErrorCode.AuthorizationError => CapabilityState.Denied
        | ErrorCode.InvariantViolation => CapabilityState.Indeterminate
        | ErrorCode.TargetError => state
        | ErrorCode.Unsupported =>
          if bool_decide (state = CapabilityState.Denied) then state else CapabilityState.Unsupported
        | _ => CapabilityState.Indeterminate
        end rest
    end
  end.
Definition probe (node : WorkloadNode.t) : CapabilityState.t :=
  probe_loop node CapabilityState.Unsupported (map_values x.(WorkloadSysfs.groups)).

Definition controller_state (group : SysfsGroup.t) (controller : string) : CapabilityState.t :=
  match require_controller group controller with
  | Ok _ => CapabilityState.Available
  | Err e =>
    match e.(SysboostError.code) with
    | ErrorCode.AuthorizationError => CapabilityState.Denied
    | ErrorCode.Unsupported => CapabilityState.Unsupported
    | _ => CapabilityState.Indeterminate
    end
  end.

Definition sysfs_detect (observed_at : Result Timestamp.t) : Result CapabilityInventory.t :=
  observed_at ← observed_at;
  root ← root_group;
  let of_process f := match current_process with
                      | Ok process => capability_state (sysfs_read_process (f process))
                      | Err _ => CapabilityState.Unsupported
                      end in
  let cgroup name equality state classification evidence :=
    workload_capability name name TargetKind.Cgroup equality state classification evidence in
  let cpu := controller_state root "cpu" in
  Ok (CapabilityInventory.mk observed_at
    [cgroup "cgroup.cpu.weight" EqualityKind.ScalarExact (probe WorkloadNode.CpuWeight) FeatureClass.RuntimeMutable
       "cgroup v2 cpu.weight and fixed controller evidence";
     cgroup "cgroup.cpu.max" EqualityKind.ScalarExact (probe WorkloadNode.CpuMax) FeatureClass.RuntimeMutable
       "cgroup v2 cpu.max and fixed controller evidence";
     cgroup "cgroup.cpuset.cpus" EqualityKind.SetExact (probe WorkloadNode.CpusetCpus) FeatureClass.Conditional
       "cgroup v2 cpuset.cpus and fixed controller evidence";
     cgroup "cgroup.io.weight" EqualityKind.ScalarExact (probe WorkloadNode.IoWeight) FeatureClass.Conditional
       "cgroup v2 io.weight default entry";
     uclamp_capability (combine_capability_states (probe WorkloadNode.UclampMin) (probe WorkloadNode.UclampMax))
       "cgroup v2 cpu.uclamp min/max entries";
     cgroup "cgroup.workload" EqualityKind.ScalarExact cpu FeatureClass.Conditional
       "explicit managed workload child cgroup under a delegated parent";
     cgroup "cgroup.background" EqualityKind.ScalarExact cpu FeatureClass.Conditional
       "explicit conservative background child cgroup under a delegated parent";
     process_capability "scheduler.process.placement" "scheduler.process.placement"
       (of_process (λ process, MutationKind.ProcessPlacement process root.(SysfsGroup.identity)))
       FeatureClass.Conditional "procfs PID/start-time identity and cgroup-v2 placement";
     process_capability "scheduler.nice" "scheduler.nice"
       (of_process (λ process, MutationKind.ProcessNice process (NiceValue.mk 0%Z)))
       FeatureClass.RuntimeMutable "procfs PID/start-time identity and getpriority";
     process_capability "scheduler.ioprio" "scheduler.ioprio" CapabilityState.Unsupported
       FeatureClass.Experimental "safe ioprio syscall adapter is not enabled; operation degrades closed"]).
End Reads.

(** ** Writing *)

Section Writes.
Context `{!HostKernel.t}.

(** A call of the kernel. *)
Definition host_call (f : Host.t → option ErrorKind.t * Host.t) (error : ErrorKind.t → SysboostError.t) :
    Mut WorkloadSysfs.t unit := λ x,
  let '(outcome, h) := f x.(WorkloadSysfs.host) in
  (match outcome with None => Ok tt | Some kind => Err (error kind) end, WorkloadSysfs.set_host h x).

Definition write_closed_file (p : Path) (value message : string) : Mut WorkloadSysfs.t unit :=
  if bool_decide (value = ""%string) || (128 <? str_len value) || contains_nul value
  then throw (workload_error ErrorCode.InvalidInput "generated workload value is invalid")
  else
    x ← get;
    m ← lift (validate_regular_file x.(WorkloadSysfs.host) p message);
    if readonly m then throw (permission_error message)
    else host_call (HostKernel.write p (bytes_of_string value)) (λ kind, io_error kind message).

Definition write_node (cgroup : CgroupId.t) (node : WorkloadNode.t) (value : string) : Mut WorkloadSysfs.t unit :=
  x ← get;
  group ← lift (group_for x cgroup);
  _ ← lift (require_node x group node);
  write_closed_file (node_path group node) value "cgroup controller write failed".

Definition still_same (process : ProcessId.t) : Mut WorkloadSysfs.t unit :=
  x ← get; _ ← lift (read_proc_identity x process); mret tt.

Definition write_process_placement (process : ProcessId.t) (destination : SysfsGroup.t) : Mut WorkloadSysfs.t unit :=
  pid ← lift (raw_pid process);
  _ ← still_same process;
  _ ← write_closed_file
        (FileSystem.join destination.(SysfsGroup.path) (WorkloadControlFile.filename WorkloadControlFile.Procs))
        (pretty pid +:+ String NEWLINE EmptyString) "process cgroup placement write failed";
  still_same process.

Definition write_nice (process : ProcessId.t) (value : NiceValue.t) : Mut WorkloadSysfs.t unit :=
  pid ← lift (raw_pid process);
  _ ← still_same process;
  _ ← host_call (HostKernel.set_priority pid value.(NiceValue.get))
        (λ _, permission_error "process nice write was denied");
  still_same process.

Definition insert_child (parent : SysfsGroup.t) (name : CgroupName.t) : Mut WorkloadSysfs.t CgroupId.t :=
  x ← get;
  let path := managed_path parent name in
  target ← lift (child_target parent.(SysfsGroup.identity).(CgroupId.handle) name);
  identity ← lift (cgroup_id_from_path x.(WorkloadSysfs.host) target.(TargetId.as_str) path
                     "managed cgroup identity cannot be inspected after creation");
  _ ← modify (λ x, WorkloadSysfs.set_groups
        (map_insert target (SysfsGroup.mk identity (child_path parent.(SysfsGroup.relative_path) name) path)
           x.(WorkloadSysfs.groups)) x);
  mret identity.

Definition create_group (parent : CgroupId.t) (name : CgroupName.t) : Mut WorkloadSysfs.t unit :=
  x ← get;
  parent ← lift (group_for x parent);
  let path := managed_path parent name in
  if is_ok (Host.stat x.(WorkloadSysfs.host) path)
  then throw (workload_error ErrorCode.ApplyError "managed cgroup already exists")
  else
    _ ← host_call (HostKernel.create_dir path) (λ kind, io_error kind "managed cgroup could not be created");
    inserted ← catch (insert_child parent name);
    match inserted with
    | Ok _ => mret tt
    | Err error =>
      _ ← host_call (HostKernel.remove_dir path) (λ kind, io_error kind "managed cgroup setup cleanup failed");
      throw error
    end.

(** An entry that keeps a group from being removed. *)
Definition nested_entry (name : string) : bool :=
  if utf8_valid (bytes_of_string name) then negb (starts_with "cgroup." name) else true.

Definition remove_child (parent : CgroupId.t) (name : CgroupName.t) : Mut WorkloadSysfs.t unit :=
  x ← get;
  parent ← lift (group_for x parent);
  target ← lift (child_target parent.(SysfsGroup.identity).(CgroupId.handle) name);
  child ← lift (ok_or (map_get target x.(WorkloadSysfs.groups))
                  (target_error "managed cgroup was not discovered by the backend"));
  child ← lift (group_for x child.(SysfsGroup.identity));
  procs ← lift (read_control x child WorkloadControlFile.Procs);
  if negb (forallb is_ascii_whitespace procs)
  then throw (workload_error ErrorCode.RestoreError "managed cgroup still contains processes; cleanup refused")
  else
    entries ← lift (or_io (Host.read_dir x.(WorkloadSysfs.host) child.(SysfsGroup.path))
                      "managed cgroup children cannot be inspected");
    if existsb nested_entry entries
    then throw (workload_error ErrorCode.RestoreError "managed cgroup has nested groups; cleanup refused")
    else
      _ ← host_call (HostKernel.remove_dir child.(SysfsGroup.path))
            (λ kind, io_error kind "managed cgroup could not be removed safely");
      modify (λ x, WorkloadSysfs.set_groups
        (map_remove child.(SysfsGroup.identity).(CgroupId.handle) x.(WorkloadSysfs.groups)) x).

Definition sysfs_write_mutation (kind : MutationKind.t) (desired : TypedValue.t) : Mut WorkloadSysfs.t unit :=
  match kind, desired with
  | MutationKind.CgroupCpuWeight cgroup _, TypedValue.CgroupCpuWeight value =>
    write_node cgroup WorkloadNode.CpuWeight (pretty value.(CpuWeight.get))
  | MutationKind.CgroupCpuMax cgroup _ _, TypedValue.CgroupCpuMax quota period =>
    write_node cgroup WorkloadNode.CpuMax (render_quota quota +:+ " " +:+ pretty period.(CpuPeriod.get))
  | MutationKind.CgroupCpuset cgroup _, TypedValue.CgroupCpuset value =>
    write_node cgroup WorkloadNode.CpusetCpus (render_cpuset value)
  | MutationKind.CgroupIoWeight cgroup _, TypedValue.CgroupIoWeight value =>
    write_node cgroup WorkloadNode.IoWeight ("default " +:+ pretty value.(IoWeight.get))
  | MutationKind.CgroupUclampMin cgroup _, TypedValue.CgroupUclamp value =>
    write_node cgroup WorkloadNode.UclampMin (render_uclamp value)
  | MutationKind.CgroupUclampMax cgroup _, TypedValue.CgroupUclamp value =>
    write_node cgroup WorkloadNode.UclampMax (render_uclamp value)
  | MutationKind.CgroupWorkload parent name, TypedValue.CgroupLifecycle _ _ true
  | MutationKind.CgroupBackground parent name, TypedValue.CgroupLifecycle _ _ true => create_group parent name
  | MutationKind.CgroupWorkload parent name, TypedValue.CgroupLifecycle _ _ false
  | MutationKind.CgroupBackground parent name, TypedValue.CgroupLifecycle _ _ false => remove_child parent name
  | MutationKind.ProcessNice process _, TypedValue.Nice value => write_nice process value
  | MutationKind.ProcessPlacement process cgroup, TypedValue.ProcessPlacement _ =>
    x ← get; destination ← lift (group_for x cgroup); write_process_placement process destination
  | MutationKind.ProcessIoPriority _ _, TypedValue.IoPriority _ =>
    throw (unsupported "production ioprio adapter is unavailable")
  | _, _ => throw (workload_error ErrorCode.InvariantViolation "production workload write shape is not closed")
  end.

#[export] Instance sysfs_control_io : WorkloadControlIo.t WorkloadSysfs.t := {|
  WorkloadControlIo.detect := sysfs_detect;
  WorkloadControlIo.targets := sysfs_targets;
  WorkloadControlIo.read_node := sysfs_read_node;
  WorkloadControlIo.read_mutation := sysfs_read_mutation;
  WorkloadControlIo.read_process := sysfs_read_process;
  WorkloadControlIo.validate_desired := sysfs_validate_desired;
  WorkloadControlIo.write_mutation := sysfs_write_mutation
|}.
End Writes.
