(* ===== verification/Logging.v ===== *)
(** * Journal and logging ports ([sysboost-core/src/logging.rs],
      [sysboost-platform/src/logging.rs, journal.rs])

    Structured events, the sinks, and the JSON lines of the production
    logger.  A reader of JSON objects that knows nothing of events gives back
    the members of an event from its line, so no text in an event can forge
    one. *)
From Stdlib Require Import Strings.Byte Strings.Ascii.
From stdpp Require Import pretty.
From S2P Require Import Prelude Lists Text Str Ids Mut Mutation Session.
Local Open Scope N_scope.
Unset Default Proof Using.

(** ** Events *)

Module LogLevel.
Inductive t := Trace | Info | Warn | Error.
#[global] Instance t_eq_dec : EqDecision t. Proof. solve_decision. Defined.
End LogLevel.

Module LogValue.
Inductive t := Text (value : string) | Unsigned (value : u64) | Bool (value : bool).
#[global] Instance t_eq_dec : EqDecision t. Proof. solve_decision. Defined.
End LogValue.

Module LogField.
Record t := mk { key : string; value : LogValue.t }.
#[global] Instance t_eq_dec : EqDecision t. Proof. solve_decision. Defined.
Definition text (key value : string) : t := mk key (LogValue.Text value).
Definition unsigned (key : string) (value : u64) : t := mk key (LogValue.Unsigned value).
End LogField.

Module LogEvent.
Record t := mk {
  timestamp : Timestamp.t;
  level : LogLevel.t;
  component : string;
  session_id : option SessionId.t;
  mutation_id : option MutationId.t;
  backend_id : option BackendId.t;
  capability_id : option CapabilityId.t;
  target_id : option TargetId.t;
  event : string;
  outcome : string;
  fields : list LogField.t
}.
#[global] Instance t_eq_dec : EqDecision t. Proof. solve_decision. Defined.
Definition new (timestamp : Timestamp.t) (level : LogLevel.t) (component event outcome : string) : t :=
  mk timestamp level component None None None None None event outcome [].
Definition with_field (field : LogField.t) (e : t) : t :=
  mk e.(timestamp) e.(level) e.(component) e.(session_id) e.(mutation_id) e.(backend_id) e.(capability_id)
     e.(target_id) e.(event) e.(outcome) (e.(fields) ++ [field]).
End LogEvent.

Module LogSink.
Class t (S : Type) := { emit : LogEvent.t → S → S }.
End LogSink.

Module MemoryLogSink.
Record t := mk { events : list LogEvent.t }.
#[global] Instance t_eq_dec : EqDecision t. Proof. solve_decision. Defined.
Definition emit (event : LogEvent.t) (x : t) : t := mk (x.(events) ++ [event]).
#[global] Instance sink : LogSink.t t := { LogSink.emit := emit }.
End MemoryLogSink.

(** ** The journal port *)

Module StoredIntent.
Record t := mk { session : Session.t; snapshots : list Snapshot.t }.
#[global] Instance t_eq_dec : EqDecision t. Proof. solve_decision. Defined.
End StoredIntent.

Module JournalStore.
Class t (J : Type) := {
  create_intent : Session.t → list Snapshot.t → Mut J unit;
  append_transition : TransitionRecord.t → Mut J unit;
  load_unfinished : Mut J (list StoredIntent.t)
}.
End JournalStore.

(** The journal of the test kit, with injected failures. *)
Module MemoryJournal.
Record t := mk {
  intents : list StoredIntent.t;
  transitions : list TransitionRecord.t;
  fail_create : bool;
  fail_append : bool
}.
Definition default : t := mk [] [] false false.
Definition failure (message : string) : SysboostError.t := SysboostError.new ErrorCode.DurabilityError message.
Definition create_intent (session : Session.t) (snapshots : list Snapshot.t) : Mut t unit :=
  x ← get;
  if x.(fail_create) then throw (failure "memory journal injected intent failure")
  else modify (λ x, mk (x.(intents) ++ [StoredIntent.mk session snapshots]) x.(transitions)
                       x.(fail_create) x.(fail_append)).
Definition append_transition (transition : TransitionRecord.t) : Mut t unit :=
  x ← get;
  if x.(fail_append) then throw (failure "memory journal injected transition failure")
  else modify (λ x, mk x.(intents) (x.(transitions) ++ [transition]) x.(fail_create) x.(fail_append)).
Definition unfinished (intent : StoredIntent.t) : bool :=
  negb (bool_decide (intent.(StoredIntent.session).(Session.state) = SessionState.Restored)).
Definition load_unfinished : Mut t (list StoredIntent.t) :=
  x ← get; mret (List.filter unfinished x.(intents)).
#[global] Instance store : JournalStore.t t := {
  JournalStore.create_intent := create_intent;
  JournalStore.append_transition := append_transition;
  JournalStore.load_unfinished := load_unfinished
}.
End MemoryJournal.

(** ** JSON lines *)

Definition QUOTE : string := String (ascii_of_byte x22) "".

(** The characters of a JSON string: control characters, those of two bytes
    included, are escaped by their number. *)
Definition control_escape (b : byte) : list byte := bytes_of_string "\u00" ++ encode_hex [b].
Fixpoint escape (l : list byte) : list byte :=
  match l with
  | [] => []
  | b :: l' =>
    let n := b2n b in
    if n =? 34 then bytes_of_string "\" ++ b :: escape l'
    else if n =? 92 then bytes_of_string "\" ++ b :: escape l'
    else if n =? 10 then bytes_of_string "\n" ++ escape l'
    else if n =? 13 then bytes_of_string "\r" ++ escape l'
    else if n =? 9 then bytes_of_string "\t" ++ escape l'
    else if (n <? 32) || (n =? 127) then control_escape b ++ escape l'
    else if n =? 194
    then match l' with
         | c :: l'' => if in_range 128 159 (b2n c) then control_escape c ++ escape l'' else b :: escape l'
         | [] => [b]
         end
    else b :: escape l'
  end.
Definition push_string (value : string) : string :=
  QUOTE +:+ string_of_bytes (escape (bytes_of_string value)) +:+ QUOTE.

Definition level_name (level : LogLevel.t) : string :=
  match level with
  | LogLevel.Trace => "trace"
  | LogLevel.Info => "info"
  | LogLevel.Warn => "warn"
  | LogLevel.Error => "error"
  end.

(** A key of the logger's own. *)
Definition json_key (name : string) : string := QUOTE +:+ name +:+ QUOTE +:+ ":".
Definition optional_member {A} (name : string) (text : A → string) (value : option A) : string :=
  match value with Some a => "," +:+ json_key name +:+ text a | None => "" end.
Definition render_value (value : LogValue.t) : string :=
  match value with
  | LogValue.Text value => push_string value
  | LogValue.Unsigned value => pretty value
  | LogValue.Bool value => if value then "true" else "false"
  end.
Definition render_field (field : LogField.t) : string :=
  "," +:+ push_string field.(LogField.key) +:+ ":" +:+ render_value field.(LogField.value).

Definition render_json (e : LogEvent.t) : string :=
  "{" +:+ json_key "timestamp_ms" +:+ pretty e.(LogEvent.timestamp).(Timestamp.as_unix_millis)
  +:+ "," +:+ json_key "level" +:+ push_string (level_name e.(LogEvent.level))
  +:+ "," +:+ json_key "component" +:+ push_string e.(LogEvent.component)
  +:+ "," +:+ json_key "event" +:+ push_string e.(LogEvent.event)
  +:+ "," +:+ json_key "outcome" +:+ push_string e.(LogEvent.outcome)
  +:+ optional_member "session_id" (λ id, push_string (SessionId.to_hex id)) e.(LogEvent.session_id)
  +:+ optional_member "mutation_id" (λ id, pretty id.(MutationId.get)) e.(LogEvent.mutation_id)
  +:+ optional_member "backend_id" (λ id, push_string id.(BackendId.as_str)) e.(LogEvent.backend_id)
  +:+ optional_member "capability_id" (λ id, push_string id.(CapabilityId.as_str)) e.(LogEvent.capability_id)
  +:+ optional_member "target_id" (λ id, push_string id.(TargetId.as_str)) e.(LogEvent.target_id)
  +:+ foldr (λ field rest, render_field field +:+ rest) "}" e.(LogEvent.fields).

(** ** The logger *)

(** [Write::write_all]; [false] is an error. *)
Module Writer.
Class t (W : Type) := { write_all : list byte → W → bool * W }.
(** [writeln!], the line and then its end. *)
Definition writeln {W} `{!t W} (line : string) (w : W) : bool * W :=
  match write_all (bytes_of_string line) w with
  | (true, w) => write_all [x0a] w
  | (false, w) => (false, w)
  end.
(** [Vec<u8>] *)
#[global] Instance vec : t (list byte) := { write_all bytes w := (true, w ++ bytes) }.
End Writer.

Module JsonLogger.
Record t (W : Type) := mk { writer : W; failed : bool }.
#[global] Arguments mk {W} _ _.
#[global] Arguments writer {W} _.
#[global] Arguments failed {W} _.
Definition new {W} (writer : W) : t W := mk writer false.
Definition emit {W} `{!Writer.t W} (event : LogEvent.t) (x : t W) : t W :=
  let '(done, writer) := Writer.writeln (render_json event) x.(writer) in
  mk writer (x.(failed) || negb done).
#[global] Instance sink {W} `{!Writer.t W} : LogSink.t (t W) := { LogSink.emit := emit }.
End JsonLogger.

(** ** A reader of JSON objects *)

Module Json.
Inductive t := JString (s : list byte) | JNumber (n : N) | JBool (b : bool).
End Json.

(** The UTF-8 bytes of a code point below 256. *)
Definition latin1 (n : N) : list byte :=
  if n <? 128 then [n2b n] else [n2b (192 + n / 64); n2b (128 + n mod 64)].

Definition prepend {A} (p : list A) {B} (r : option (list A * B)) : option (list A * B) :=
  '(l, rest) ← r; Some (p ++ l, rest).

(** The characters of a string after its opening quote, and what follows the
    closing one. *)
Fixpoint read_chars (l : list byte) : option (list byte * list byte) :=
  match l with
  | [] => None
  | b :: l1 =>
    let n := b2n b in
    if n =? 34 then Some ([], l1)
    else if n =? 92
    then match l1 with
         | [] => None
         | c :: l2 =>
           let m := b2n c in
           if (m =? 34) || (m =? 92) then prepend [c] (read_chars l2)
           else if m =? 110 then prepend [x0a] (read_chars l2)
           else if m =? 114 then prepend [x0d] (read_chars l2)
           else if m =? 116 then prepend [x09] (read_chars l2)
           else if m =? 117
           then match l2 with
                | d1 :: d2 :: d3 :: d4 :: l3 =>
                  if (b2n d1 =? 48) && (b2n d2 =? 48)
                  then high ← hex_value d3; low ← hex_value d4;
                       prepend (latin1 (high * 16 + low)) (read_chars l3)
                  else None
                | _ => None
                end
           else None
         end
    else if (n <? 32) || (n =? 127) then None
    else prepend [b] (read_chars l1)
  end.

(** The decimal digits at the front. *)
Fixpoint read_digits (acc : N) (l : list byte) : N * list byte :=
  match l with
  | b :: l' => if in_range 48 57 (b2n b) then read_digits (acc * 10 + (b2n b - 48)) l' else (acc, l)
  | [] => (acc, [])
  end.

Definition read_value (l : list byte) : option (Json.t * list byte) :=
  match l with
  | b :: l' =>
    let n := b2n b in
    if n =? 34 then '(s, rest) ← read_chars l'; Some (Json.JString s, rest)
    else if in_range 48 57 n then let '(v, rest) := read_digits 0 l in Some (Json.JNumber v, rest)
    else if n =? 116 then
      if bool_decide (take 3 l' = bytes_of_string "rue") then Some (Json.JBool true, drop 3 l') else None
    else if n =? 102 then
      if bool_decide (take 4 l' = bytes_of_string "alse") then Some (Json.JBool false, drop 4 l') else None
    else None
  | [] => None
  end.

(** One member and what follows it. *)
Definition read_member (l : list byte) : option ((list byte * Json.t) * list byte) :=
  match l with
  | b :: l1 =>
    if b2n b =? 34
    then '(key, l2) ← read_chars l1;
         match l2 with
         | c :: l3 => if b2n c =? 58 then '(value, rest) ← read_value l3; Some ((key, value), rest) else None
         | [] => None
         end
    else None
  | [] => None
  end.

Fixpoint read_members (fuel : nat) (l : list byte) : option (list (list byte * Json.t)) :=
  match fuel with
  | O => None
  | S fuel =>
    '(member, rest) ← read_member l;
    match rest with
    | b :: rest' =>
      if b2n b =? 44 then members ← read_members fuel rest'; Some (member :: members)
      else if (b2n b =? 125) && bool_decide (rest' = []) then Some [member] else None
    | [] => None
    end
  end.
Definition read_object (l : list byte) : option (list (list byte * Json.t)) :=
  match l with
  | b :: l' => if b2n b =? 123 then read_members (length l) l' else None
  | [] => None
  end.

(** ** Reading back what was written *)

Lemma read_control_escape b tail :
  read_chars (control_escape b ++ tail) = prepend (latin1 (b2n b)) (read_chars tail).
Proof. by destruct b. Qed.

Lemma latin1_low b : b2n b <? 128 = true → latin1 (b2n b) = [b].
Proof. unfold latin1. intros ->. by rewrite n2b_b2n. Qed.
Lemma latin1_control b : in_range 128 159 (b2n b) = true → latin1 (b2n b) = [xc2; b].
Proof. by destruct b. Qed.

Lemma prepend_app {B} (p q : list byte) (r : option (list byte * B)) : prepend p (prepend q r) = prepend (p ++ q) r.
Proof. destruct r as [[l rest]|]; [|done]. cbn. by rewrite app_assoc. Qed.

(** Printable bytes. *)
Definition printable (b : byte) : Prop := 32 ≤ b2n b ∧ b2n b ≠ 127.
#[export] Instance printable_dec b : Decision (printable b).
Proof. unfold printable. apply _. Defined.
Lemma control_escape_printable b : Forall printable (control_escape b).
Proof. apply (bool_decide_unpack _). by destruct b. Qed.

Lemma byte_is b c : (b2n b =? b2n c) = true → b = c.
Proof. intros Hb%N.eqb_eq. by apply b2n_inj. Qed.

(** One step of [escape]: the bytes it takes and what it writes for them. *)
Lemma escape_step b l :
  ∃ taken rest written, b :: l = taken ++ rest ∧ (length rest ≤ length l)%nat
    ∧ escape (b :: l) = written ++ escape rest
    ∧ Forall printable written
    ∧ ∀ tail, read_chars (written ++ tail) = prepend taken (read_chars tail).
Proof.
  assert (∀ w, forallb (λ c, bool_decide (printable c)) w = true → Forall printable w) as Hshow.
  { intros w Hw. apply Forall_forall. intros c Hc. rewrite forallb_forall in Hw.
    by eapply bool_decide_eq_true, Hw, list_elem_of_In. }
  cbn [escape]. set (n := b2n b).
  destruct (n =? 34) eqn:H34.
  { apply (byte_is b x22) in H34 as ->. exists [x22], l, [x5c; x22]. split_and!; try done. by apply Hshow. }
  destruct (n =? 92) eqn:H92.
  { apply (byte_is b x5c) in H92 as ->. exists [x5c], l, [x5c; x5c]. split_and!; try done. by apply Hshow. }
  destruct (n =? 10) eqn:H10.
  { apply (byte_is b x0a) in H10 as ->. exists [x0a], l, [x5c; x6e]. split_and!; try done. by apply Hshow. }
  destruct (n =? 13) eqn:H13.
  { apply (byte_is b x0d) in H13 as ->. exists [x0d], l, [x5c; x72]. split_and!; try done. by apply Hshow. }
  destruct (n =? 9) eqn:H9.
  { apply (byte_is b x09) in H9 as ->. exists [x09], l, [x5c; x74]. split_and!; try done. by apply Hshow. }
  destruct ((n <? 32) || (n =? 127)) eqn:Hc.
  { exists [b], l, (control_escape b). split_and!; [done..|apply control_escape_printable|].
    intros tail. rewrite read_control_escape, latin1_low; [done|]. fold n. apply N.ltb_lt.
    apply orb_true_iff in Hc as [Hc%N.ltb_lt|Hc%N.eqb_eq]; lia. }
  assert (∀ tail, read_chars ([b] ++ tail) = prepend [b] (read_chars tail)) as Hplain.
  { intros tail. cbn [app read_chars]. fold n. by rewrite H34, H92, Hc. }
  assert (Forall printable [b]) as Hb.
  { apply orb_false_iff in Hc as [?%N.ltb_ge ?%N.eqb_neq]. by repeat constructor. }
  destruct (n =? 194) eqn:H194; [|by exists [b], l, [b]].
  destruct l as [|c l]; [by exists [b], [], [b]|].
  destruct (in_range 128 159 (b2n c)) eqn:Hr; [|by exists [b], (c :: l), [b]].
  exists [b; c], l, (control_escape c).
  split_and!; [done|cbn; lia|done|apply control_escape_printable|].
  intros tail. rewrite read_control_escape, latin1_control by done.
  by apply (byte_is b xc2) in H194 as ->.
Qed.

Lemma escape_lossless l :
  (∀ tail, read_chars (escape l ++ x22 :: tail) = Some (l, tail)) ∧ Forall printable (escape l).
Proof.
  remember (length l) as k eqn:Hk. revert l Hk. induction (lt_wf k) as [k _ IH]. intros [|b l] ->; [by split|].
  destruct (escape_step b l) as (taken & rest & written & Hl & Hlen & -> & Hp & Hread).
  destruct (IH (length rest)) with (l := rest) as [IH1 IH2]; [cbn; lia|done|]. split.
  - intros tail. rewrite <-app_assoc, Hread, IH1. cbn. by rewrite Hl.
  - by apply Forall_app.
Qed.

(** ** The members of an event *)

Definition value_json (value : LogValue.t) : Json.t :=
  match value with
  | LogValue.Text value => Json.JString (bytes_of_string value)
  | LogValue.Unsigned value => Json.JNumber value
  | LogValue.Bool value => Json.JBool value
  end.
Definition member_json (field : LogField.t) : list byte * Json.t :=
  (bytes_of_string field.(LogField.key), value_json field.(LogField.value)).
Definition optional_field {A} (name : string) (value : A → LogValue.t) (a : option A) : list LogField.t :=
  match a with Some a => [LogField.mk name (value a)] | None => [] end.
(** An event as a list of members, the fields of the caller last. *)
Definition members (e : LogEvent.t) : list LogField.t :=
  [LogField.unsigned "timestamp_ms" e.(LogEvent.timestamp).(Timestamp.as_unix_millis);
   LogField.text "level" (level_name e.(LogEvent.level)); LogField.text "component" e.(LogEvent.component);
   LogField.text "event" e.(LogEvent.event); LogField.text "outcome" e.(LogEvent.outcome)]
  ++ optional_field "session_id" (λ id, LogValue.Text (SessionId.to_hex id)) e.(LogEvent.session_id)
  ++ optional_field "mutation_id" (λ id, LogValue.Unsigned id.(MutationId.get)) e.(LogEvent.mutation_id)
  ++ optional_field "backend_id" (λ id, LogValue.Text id.(BackendId.as_str)) e.(LogEvent.backend_id)
  ++ optional_field "capability_id" (λ id, LogValue.Text id.(CapabilityId.as_str)) e.(LogEvent.capability_id)
  ++ optional_field "target_id" (λ id, LogValue.Text id.(TargetId.as_str)) e.(LogEvent.target_id)
  ++ e.(LogEvent.fields).

(** A member as it is written, and the members that follow the first. *)
Definition member_text (field : LogField.t) : list byte :=
  bytes_of_string (push_string field.(LogField.key) +:+ ":" +:+ render_value field.(LogField.value)).
Definition members_text (fields : list LogField.t) : list byte :=
  concat ((λ field, x2c :: member_text field) <$> fields).

Lemma read_digits_parsed w s tail : ∀ acc x,
  parse_digits w acc s = Some x → read_digits acc (bytes_of_string s ++ tail) = read_digits x tail.
Proof.
  induction s as [|c s IH]; intros acc x; cbn [parse_digits]; [by intros [= <-]|].
  change (bytes_of_string (String c s)) with (byte_of_ascii c :: bytes_of_string s).
  assert (b2n (byte_of_ascii c) = N_of_ascii c) as Hc by by destruct c as [[] [] [] [] [] [] [] []].
  cbn [app read_digits]. rewrite Hc. destruct (in_range 48 57 (N_of_ascii c)); [|done].
  destruct (_ <? 2 ^ w); [|done]. apply IH.
Qed.

Lemma pretty_digits (n : N) :
  ∃ d ds, bytes_of_string (pretty n) = d :: ds ∧ in_range 48 57 (b2n d) = true
    ∧ parse_digits (N.size n) 0 (pretty n) = Some n.
Proof.
  destruct (pretty_N_digits n) as [Hd Hn].
  assert (fits (N.size n) n) as Hfit by apply N.size_gt.
  apply parse_uint_pretty in Hfit. destruct (pretty n) as [|c s] eqn:Hs; [done|].
  exists (byte_of_ascii c), (bytes_of_string s). cbn in Hd. apply andb_true_iff in Hd as [Hd _].
  unfold parse_uint in Hfit. rewrite bool_decide_eq_false_2 in Hfit by by intros ->.
  split; [done|]. split; [|done]. clear -Hd. by destruct c as [[] [] [] [] [] [] [] []].
Qed.

Lemma quoted value :
  bytes_of_string (push_string value) = x22 :: escape (bytes_of_string value) ++ [x22].
Proof. unfold push_string. by rewrite !bytes_of_string_app, bytes_of_string_of. Qed.

(** What follows a value: a comma or the end of the object. *)
Definition ends_value (tail : list byte) : Prop :=
  match tail with c :: _ => b2n c = 44 ∨ b2n c = 125 | [] => False end.

Lemma read_value_rendered value tail :
  ends_value tail →
  read_value (bytes_of_string (render_value value) ++ tail) = Some (value_json value, tail).
Proof.
  intros Ht. destruct value as [text|n|b]; cbn [render_value value_json].
  - rewrite quoted. rewrite <-app_comm_cons, <-app_assoc. cbn [read_value app].
    change (b2n x22 =? 34) with true. cbn. by rewrite (proj1 (escape_lossless _)).
  - destruct (pretty_digits n) as (d & ds & Hd & Hr & Hp).
    apply (read_digits_parsed _ _ tail) in Hp. rewrite Hd in Hp |- *. cbn [app read_value].
    rewrite <-app_comm_cons in Hp. rewrite Hp, Hr.
    destruct (N.eqb_spec (b2n d) 34) as [He|]; [by rewrite He in Hr|].
    destruct tail as [|c tail]; [done|]. cbn [read_digits].
    destruct (in_range 48 57 (b2n c)) eqn:Hc; [|done].
    destruct Ht as [Ht|Ht]; by rewrite Ht in Hc.
  - by destruct b.
Qed.

Lemma read_member_text field tail :
  ends_value tail → read_member (member_text field ++ tail) = Some (member_json field, tail).
Proof.
  intros Ht. unfold member_text. rewrite !bytes_of_string_app, quoted.
  change (bytes_of_string ":") with [x3a]. rewrite <-!app_comm_cons, <-!app_assoc. cbn [read_member].
  change (b2n x22 =? 34) with true. cbn [app].
  rewrite (proj1 (escape_lossless _)). cbn. by rewrite read_value_rendered.
Qed.

Lemma read_members_text fields : ∀ field fuel,
  (length fields < fuel)%nat →
  read_members fuel (member_text field ++ members_text fields ++ [x7d])
  = Some (member_json <$> field :: fields).
Proof.
  induction fields as [|next fields IH]; intros field [|fuel] Hf; cbn in Hf; try lia.
  - cbn [read_members]. rewrite read_member_text by (cbn; by right). done.
  - cbn [read_members]. unfold members_text. cbn [fmap list_fmap concat]. rewrite <-!app_comm_cons, <-app_assoc.
    rewrite read_member_text by (cbn; by left). cbn. fold (members_text fields).
    rewrite IH by lia. done.
Qed.

Lemma members_text_app l l' : members_text (l ++ l') = members_text l ++ members_text l'.
Proof. unfold members_text. by rewrite fmap_app, concat_app. Qed.
Lemma members_text_cons field l : members_text (field :: l) = x2c :: member_text field ++ members_text l.
Proof. done. Qed.
Lemma members_length l : (length l ≤ length (members_text l))%nat.
Proof. induction l as [|f l IH]; [done|]. rewrite members_text_cons. cbn. rewrite length_app. lia. Qed.

(** A key that needs no escape. *)
Definition plain_key (name : string) : Prop := push_string name = QUOTE +:+ name +:+ QUOTE.
Lemma comma_text text : bytes_of_string ("," +:+ text) = x2c :: bytes_of_string text.
Proof. done. Qed.
Lemma plain_member_then name value (text rest : string) :
  plain_key name → render_value value = text →
  bytes_of_string (json_key name +:+ text +:+ rest) = member_text (LogField.mk name value) ++ bytes_of_string rest.
Proof.
  intros Hn <-. unfold json_key, member_text. cbn [LogField.key LogField.value].
  by rewrite Hn, <-bytes_of_string_app, !str_app_assoc.
Qed.
Lemma optional_member_then {A} name (text : A → string) (value : A → LogValue.t) a rest :
  plain_key name → (∀ x, render_value (value x) = text x) →
  bytes_of_string (optional_member name text a +:+ rest)
  = members_text (optional_field name value a) ++ bytes_of_string rest.
Proof.
  intros Hn Ht. destruct a as [x|]; [|done]. cbn [optional_member optional_field].
  rewrite !str_app_assoc, comma_text, (plain_member_then _ (value x)), members_text_cons by done.
  cbn. by rewrite <-app_assoc.
Qed.
Lemma render_fields fields :
  bytes_of_string (foldr (λ field rest, render_field field +:+ rest) "}" fields) = members_text fields ++ [x7d].
Proof.
  induction fields as [|f fields IH]; [done|]. cbn [foldr].
  rewrite bytes_of_string_app, IH, members_text_cons, app_comm_cons, <-app_assoc. done.
Qed.

Ltac text_member := rewrite comma_text, (plain_member_then _ (LogValue.Text _)) by done; cbn [app]; f_equal;
  rewrite <-?app_assoc; f_equal.
Lemma render_members e :
  ∃ first rest, members e = first :: rest
    ∧ bytes_of_string (render_json e) = x7b :: member_text first ++ members_text rest ++ [x7d].
Proof.
  eexists _, _. split; [done|]. unfold render_json. rewrite bytes_of_string_app.
  change (bytes_of_string "{") with [x7b]. cbn [app]. f_equal.
  rewrite (plain_member_then "timestamp_ms" (LogValue.Unsigned _)) by done. f_equal.
  rewrite !members_text_cons. do 4 text_member.
  rewrite !members_text_app.
  rewrite (optional_member_then _ _ (λ id, LogValue.Text (SessionId.to_hex id))) by done.
  rewrite (optional_member_then _ _ (λ id, LogValue.Unsigned id.(MutationId.get))) by done.
  rewrite (optional_member_then _ _ (λ id, LogValue.Text id.(BackendId.as_str))) by done.
  rewrite (optional_member_then _ _ (λ id, LogValue.Text id.(CapabilityId.as_str))) by done.
  rewrite (optional_member_then _ _ (λ id, LogValue.Text id.(TargetId.as_str))) by done.
  by rewrite render_fields, <-!app_assoc.
Qed.

Lemma render_value_printable value : Forall printable (bytes_of_string (render_value value)).
Proof.
  destruct value as [text|n|[]]; cbn [render_value].
  - rewrite quoted. constructor; [done|]. apply Forall_app. split; [apply escape_lossless|by repeat constructor].
  - eapply Forall_impl; [apply graphic_bytes, pretty_graphic|]. intros b Hb. unfold in_range in Hb.
    apply andb_true_iff in Hb as [?%N.leb_le ?%N.leb_le]. unfold printable. lia.
  - by repeat constructor.
  - by repeat constructor.
Qed.
Lemma member_printable field : Forall printable (member_text field).
Proof.
  unfold member_text. rewrite !bytes_of_string_app. apply Forall_app. split.
  - apply (render_value_printable (LogValue.Text field.(LogField.key))).
  - apply Forall_app. split; [by repeat constructor|apply render_value_printable].
Qed.
Lemma members_printable l : Forall printable (members_text l).
Proof.
  induction l as [|field l IH]; [constructor|]. rewrite members_text_cons. constructor; [done|].
  apply Forall_app. split; [apply member_printable|done].
Qed.

Lemma printable_line s : Forall printable (bytes_of_string s) → all_chars line_char s = true.
Proof.
  induction s as [|c s IH]; [done|]. intros [Hc Hs]%Forall_cons. cbn [all_chars].
  rewrite IH by done. rewrite andb_true_r. clear -Hc. destruct Hc as [Hc _].
  destruct c as [[] [] [] [] [] [] [] []]; try done; by vm_compute in Hc.
Qed.

Lemma render_line e : all_chars line_char (render_json e) = true.
Proof.
  apply printable_line. destruct (render_members e) as (first & rest & _ & ->). constructor; [done|].
  rewrite !Forall_app. split_and!; [apply member_printable|apply members_printable|by repeat constructor].
Qed.
Lemma render_reads_back e : read_object (bytes_of_string (render_json e)) = Some (member_json <$> members e).
Proof.
  destruct (render_members e) as (first & rest & -> & ->). cbn [read_object].
  change (b2n x7b =? 123) with true. cbn iota. apply read_members_text.
  cbn. rewrite !length_app. pose proof (members_length rest). lia.
Qed.

Definition log {S} `{!LogSink.t S} (events : list LogEvent.t) (sink : S) : S :=
  foldl (λ sink event, LogSink.emit event sink) sink events.
Lemma log_writes events : ∀ w,
  log events (JsonLogger.mk w false)
  = JsonLogger.mk (w ++ bytes_of_string (unlines (render_json <$> events))) false.
Proof.
  induction events as [|e events IH]; intros w; [by rewrite app_nil_r|].
  unfold log in *. cbn [foldl fmap list_fmap unlines foldr]. cbn -[render_json unlines].
  rewrite IH. f_equal. fold (unlines (render_json <$> events)).
  rewrite <-!app_assoc, bytes_of_string_app. done.
Qed.

(** C40. Logging to a writer that takes every byte leaves one line for each event,
    in order, and never fails; a line has no control bytes and read as a JSON
    object it has the members of its event and nothing else, whatever text the
    event carries. *)
Theorem log_lines_read_back (events : list LogEvent.t) :
  let logger := log events (JsonLogger.new []) in
  logger.(JsonLogger.failed) = false
  ∧ lines (string_of_bytes logger.(JsonLogger.writer)) = render_json <$> events
  ∧ mapM (λ line, read_object (bytes_of_string line)) (lines (string_of_bytes logger.(JsonLogger.writer)))
    = Some ((λ event, member_json <$> members event) <$> events).
Proof.
  cbn zeta. unfold JsonLogger.new. rewrite log_writes. cbn [JsonLogger.failed JsonLogger.writer app].
  rewrite string_of_bytes_of, lines_unlines by (apply Forall_fmap, Forall_forall; intros; apply render_line).
  split_and!; [done..|].
  induction events as [|e events IH]; [done|]. cbn [fmap list_fmap mapM]. by rewrite render_reads_back, IH.
Qed.

(** A write that failed once stays on record. *)
Lemma failure_sticks {W} `{!Writer.t W} events : ∀ x : JsonLogger.t W,
  x.(JsonLogger.failed) = true → (log events x).(JsonLogger.failed) = true.
Proof.
  induction events as [|e events IH]; intros x Hx; [done|]. apply (IH (LogSink.emit e x)).
  cbn. unfold JsonLogger.emit. destruct (Writer.writeln (render_json e) x.(JsonLogger.writer)) as [done writer].
  cbn. by rewrite Hx.
Qed.

(** The logger's own test: a quote and a line feed. *)
Example untrusted_text :
  render_json (LogEvent.with_field (LogField.unsigned "n" 7)
    (LogEvent.new (Timestamp.from_unix_millis 1) LogLevel.Info "component" "event"
      ("ok" +:+ QUOTE +:+ String (ascii_of_byte x0a) "")))
  = string_of_bytes (map (λ b, if b2n b =? 39 then x22 else b) (bytes_of_string
      "{'timestamp_ms':1,'level':'info','component':'component','event':'event','outcome':'ok\'\n','n':7}")).
Proof. vm_compute. reflexivity. Qed.
