(* ===== verification/ReadPorts.v ===== *)
(** * Read-only ports ([sysboost-platform/src/filesystem.rs], [sysboost-linux/src/fs.rs,
      sysfs.rs, procfs.rs, cgroup.rs, backend.rs], [sysboost-platform/src/clock.rs])

    Validated relative paths, the read-only file-system port, the in-memory
    fixture and that of [sysboost-testkit], the adapter rooted at one directory
    of the host, the readers of the closed sysfs, procfs and cgroup nodes, and
    the backend that only reports.  A port is a record of its methods, as a
    trait object is.  Files do not change during a call;
    an error while a directory is being iterated is not modelled. *)
From Stdlib Require Import Strings.Byte Strings.Ascii.
From stdpp Require Import pretty.
From S2P Require Import Prelude Lists Text Str Ids Mut Capability Mutation.
From S2P Require Import Session Record Ports FileSystem CgroupSysfs.
Local Open Scope N_scope.

(** [Result::ok] *)
Definition ok {E A} (r : result E A) : option A := match r with Ok a => Some a | Err _ => None end.

(** ** Paths *)

(** A byte no path may hold: a backslash, a colon or NUL. *)
Definition path_char (c : ascii) : bool :=
  negb (bool_decide (c = "\"%char) || bool_decide (c = ":"%char) || bool_decide (c = "000"%char)).
(** A component that names something below its directory. *)
Definition plain_component (s : string) : bool :=
  negb (bool_decide (s = "") || bool_decide (s = ".") || bool_decide (s = "..")).

Definition invalid_path (message : string) : SysboostError.t :=
  SysboostError.new ErrorCode.TargetError message.

Module RelativePath.
Record t := mk { as_str : string }.
#[global] Instance t_eq_dec : EqDecision t. Proof. solve_decision. Defined.
#[global] Instance ord : Ord t := cmp_by as_str.
#[global] Instance ord_laws : OrdLaws t.
Proof. apply cmp_by_laws. by intros [] [] [= ->]. Qed.

Definition new (value : string) : Result t :=
  if (str_len value =? 0) || (256 <? str_len value)
  then Err (invalid_path "path must be non-empty and at most 256 bytes")
  else if starts_with "/" value || negb (all_chars path_char value)
  then Err (invalid_path "path must be relative and contain no drive prefix, NUL, or backslash")
  else if negb (forallb plain_component (split_on "/" value))
  then Err (invalid_path "path contains an empty, '.', or '..' component")
  else Ok (mk value).

Definition join_component (p : t) (component : string) : Result t :=
  if bool_decide (component = "") || contains "/" component || contains "\" component
  then Err (invalid_path "path component is not a single safe component")
  else new (p.(as_str) +:+ "/" +:+ component).

(** What [new] establishes. *)
Definition wf (p : t) : Prop := new p.(as_str) = Ok p.
Definition components (p : t) : list string := split_on "/" p.(as_str).
End RelativePath.

(** ** The port *)

Module FileMetadata.
Record t := mk { len : u64; read_only : bool }.
#[global] Instance t_eq_dec : EqDecision t. Proof. solve_decision. Defined.
End FileMetadata.

Module EntryKind.
Inductive t := File | Directory | Symlink | Other.
#[global] Instance t_eq_dec : EqDecision t. Proof. solve_decision. Defined.
End EntryKind.

Module DirectoryEntry.
Record t := mk { name : string; kind : EntryKind.t }.
#[global] Instance t_eq_dec : EqDecision t. Proof. solve_decision. Defined.
End DirectoryEntry.

Module ReadOnlyFileSystem.
Record t := mk {
  read : RelativePath.t → Result (list byte);
  metadata : RelativePath.t → Result FileMetadata.t;
  identity : RelativePath.t → Result TargetIdentity.t;
  list_dir : option RelativePath.t → Result (list DirectoryEntry.t)
}.

(** The provided methods of the trait. *)
Definition default_identity (_ : RelativePath.t) : Result TargetIdentity.t :=
  Err (SysboostError.new ErrorCode.Unsupported "filesystem adapter cannot prove node identity").
Definition default_list (_ : option RelativePath.t) : Result (list DirectoryEntry.t) :=
  Err (SysboostError.new ErrorCode.Unsupported
         "directory enumeration is unavailable for this filesystem port").
End ReadOnlyFileSystem.

(** ** The fixture *)

(** [lanes[lane] ^= byte; lanes[lane] = lanes[lane].wrapping_mul(P).rotate_left((index % 63) + 1)] *)
Definition fixture_mix (index : nat) (b : byte) (lane : u64) : u64 :=
  rotate_left64 (wrapping_mul64 (N.lxor lane (b2n b)) 0x100000001b3) (N.of_nat index mod 63 + 1).
Fixpoint fixture_absorb (index : nat) (bytes : list byte) (lanes : list u64) : list u64 :=
  match bytes with
  | [] => lanes
  | b :: bytes' => fixture_absorb (S index) bytes' (alter (fixture_mix index b) (index mod 2)%nat lanes)
  end.
Definition fixture_target_identity (p : RelativePath.t) : TargetIdentity.t :=
  TargetIdentity.from_bytes (array_copy 16 (concat (to_be 8 <$>
    fixture_absorb 0 (bytes_of_string p.(RelativePath.as_str)) [0xcbf29ce484222325; 0x84222325cbf29ce4]))).

Module FixtureFile.
Record t := mk { bytes : list byte; read_only : bool }.
#[global] Instance t_eq_dec : EqDecision t. Proof. solve_decision. Defined.
End FixtureFile.

Module FixtureFilesystem.
Record t := mk { files : list (RelativePath.t * FixtureFile.t) }.
#[global] Instance t_eq_dec : EqDecision t. Proof. solve_decision. Defined.
Definition new : t := mk [].
Definition set_fixture_value (p : RelativePath.t) (bytes : list byte) (read_only : bool) (x : t) : t :=
  mk (map_insert p (FixtureFile.mk bytes read_only) x.(files)).
Definition len (x : t) : nat := length x.(files).
Definition is_empty (x : t) : bool := bool_decide (x.(files) = []).

Definition missing : SysboostError.t := SysboostError.new ErrorCode.TargetError "fixture node is missing".
Definition read (x : t) (p : RelativePath.t) : Result (list byte) :=
  ok_or (FixtureFile.bytes <$> map_get p x.(files)) missing.
Definition metadata (x : t) (p : RelativePath.t) : Result FileMetadata.t :=
  ok_or ((λ file, FileMetadata.mk (N.of_nat (length file.(FixtureFile.bytes))) file.(FixtureFile.read_only))
           <$> map_get p x.(files)) missing.

(** The prefix of what lies below [p]. *)
Definition below (p : RelativePath.t) : string := p.(RelativePath.as_str) +:+ "/".

Definition identity (x : t) (p : RelativePath.t) : Result TargetIdentity.t :=
  if is_some (map_get p x.(files))
     || existsb (λ '(q, _), starts_with (below p) q.(RelativePath.as_str)) x.(files)
  then Ok (fixture_target_identity p)
  else Err (SysboostError.new ErrorCode.TargetError "fixture identity target is missing").

(** What remains of the path of a file in the listed directory. *)
Definition remainder (prefix : option RelativePath.t) (file_path : RelativePath.t) : option string :=
  match prefix with
  | Some p => strip_prefix (below p) file_path.(RelativePath.as_str)
  | None => Some file_path.(RelativePath.as_str)
  end.
Definition list_entry (entries : list (string * EntryKind.t)) (remainder : string) :
    list (string * EntryKind.t) :=
  match split_once "/" remainder with
  | None => map_insert remainder EntryKind.File entries
  | Some (name, suffix) =>
    if bool_decide (name ≠ "") && bool_decide (suffix ≠ "")
    then map_insert name EntryKind.Directory entries else entries
  end.
Definition list_dir (x : t) (p : option RelativePath.t) : Result (list DirectoryEntry.t) :=
  let paths := fst <$> x.(files) in
  let remainders := omap (remainder p) paths in
  let path_exists :=
    match p with
    | None => true
    | Some q => bool_decide (q ∈ paths) || negb (bool_decide (remainders = []))
    end in
  if match p with Some q => is_some (map_get q x.(files)) | None => false end
  then Err (SysboostError.new ErrorCode.TargetError "fixture list target is not a directory")
  else if negb path_exists
  then Err (SysboostError.new ErrorCode.TargetError "fixture directory is missing")
  else Ok ((λ '(name, kind), DirectoryEntry.mk name kind) <$> foldl list_entry [] remainders).

Definition port (x : t) : ReadOnlyFileSystem.t :=
  ReadOnlyFileSystem.mk (read x) (metadata x) (identity x) (list_dir x).
End FixtureFilesystem.

(** The memory file system of the test kit: the same listing, no identities,
    and an external writer. *)
Module MemoryFileSystem.
Record t := mk { files : list (RelativePath.t * FixtureFile.t) }.
Definition new : t := mk [].
Definition seed (p : RelativePath.t) (bytes : list byte) (read_only : bool) (x : t) : t :=
  mk (map_insert p (FixtureFile.mk bytes read_only) x.(files)).
Definition external_replace (p : RelativePath.t) (bytes : list byte) (x : t) : t :=
  match map_get p x.(files) with
  | Some file => mk (map_insert p (FixtureFile.mk bytes file.(FixtureFile.read_only)) x.(files))
  | None => x
  end.
Definition failure (message : string) : SysboostError.t := SysboostError.new ErrorCode.TargetError message.
Definition missing : SysboostError.t := failure "memory fixture node is missing".
Definition read (x : t) (p : RelativePath.t) : Result (list byte) :=
  ok_or (FixtureFile.bytes <$> map_get p x.(files)) missing.
Definition metadata (x : t) (p : RelativePath.t) : Result FileMetadata.t :=
  ok_or ((λ file, FileMetadata.mk (N.of_nat (length file.(FixtureFile.bytes))) file.(FixtureFile.read_only))
           <$> map_get p x.(files)) missing.

(** One file of the listing: whether it shows that the directory exists, and
    the entry it gives. *)
Definition list_step (prefix : option string) (acc : bool * list (string * EntryKind.t))
    (file_path : RelativePath.t) : bool * list (string * EntryKind.t) :=
  let '(path_exists, entries) := acc in
  let name := file_path.(RelativePath.as_str) in
  match prefix with
  | Some prefix =>
    if bool_decide (name = prefix) then (true, entries)
    else match strip_prefix (prefix +:+ "/") name with
         | Some remainder => (true, FixtureFilesystem.list_entry entries remainder)
         | None => (path_exists, entries)
         end
  | None => (path_exists, FixtureFilesystem.list_entry entries name)
  end.
Definition list_dir (x : t) (p : option RelativePath.t) : Result (list DirectoryEntry.t) :=
  let '(path_exists, entries) :=
    foldl (list_step (RelativePath.as_str <$> p)) (bool_decide (p = None), []) (fst <$> x.(files)) in
  if match p with Some q => is_some (map_get q x.(files)) | None => false end
  then Err (failure "memory list target is not a directory")
  else if negb path_exists
  then Err (failure "memory directory is missing")
  else Ok ((λ '(name, kind), DirectoryEntry.mk name kind) <$> entries).

Definition port (x : t) : ReadOnlyFileSystem.t :=
  ReadOnlyFileSystem.mk (read x) (metadata x) ReadOnlyFileSystem.default_identity (list_dir x).
End MemoryFileSystem.

(** ** The adapter rooted at a directory of the host *)

(** The host with what the adapter uses besides: [fs::canonicalize], the
    length [stat] gives and the text of an error. *)
Module HostView.
Record t := mk {
  host : Host.t;
  canonicalize : Path → io Path;
  size : Path → u64;
  error_text : ErrorKind.t → string
}.
(** [fs::metadata], which follows symbolic links. *)
Definition metadata (x : t) (p : Path) : io Metadata.t := q ← x.(canonicalize) p; Host.stat x.(host) q.
End HostView.

(** [to_string_lossy]: a maximal part of a sequence that is not UTF-8 becomes
    one replacement character. *)
Definition REPLACEMENT : list byte := [xef; xbf; xbd].
Fixpoint utf8_lossy (l : list byte) : list byte :=
  match l with
  | [] => []
  | b0 :: l1 =>
    let n := b2n b0 in
    if n <? 128 then b0 :: utf8_lossy l1 else
    match l1 with
    | [] => REPLACEMENT
    | b1 :: l2 =>
      let m := b2n b1 in
      if in_range 194 223 n
      then if is_cont b1 then b0 :: b1 :: utf8_lossy l2 else REPLACEMENT ++ utf8_lossy l1
      else
      if ((n =? 224) && in_range 160 191 m) || (in_range 225 236 n && in_range 128 191 m)
         || ((n =? 237) && in_range 128 159 m) || (in_range 238 239 n && in_range 128 191 m)
      then match l2 with
           | [] => REPLACEMENT
           | b2 :: l3 => if is_cont b2 then b0 :: b1 :: b2 :: utf8_lossy l3 else REPLACEMENT ++ utf8_lossy l2
           end
      else
      if ((n =? 240) && in_range 144 191 m) || (in_range 241 243 n && in_range 128 191 m)
         || ((n =? 244) && in_range 128 143 m)
      then match l2 with
           | [] => REPLACEMENT
           | b2 :: l3 =>
             if is_cont b2
             then match l3 with
                  | [] => REPLACEMENT
                  | b3 :: l4 =>
                    if is_cont b3 then b0 :: b1 :: b2 :: b3 :: utf8_lossy l4 else REPLACEMENT ++ utf8_lossy l3
                  end
             else REPLACEMENT ++ utf8_lossy l2
           end
      else REPLACEMENT ++ utf8_lossy l1
    end
  end.
Definition to_string_lossy (name : string) : string := string_of_bytes (utf8_lossy (bytes_of_string name)).

(** [Path::starts_with] *)
Fixpoint path_starts_with (root p : Path) : bool :=
  bool_decide (p = root) || match p with [] => false | _ :: q => path_starts_with root q end.

Definition entry_kind (m : Metadata.t) : EntryKind.t :=
  match m.(Metadata.file_type) with
  | FileType.File => EntryKind.File
  | FileType.Directory => EntryKind.Directory
  | FileType.Symlink => EntryKind.Symlink
  | FileType.Special => EntryKind.Other
  end.

Definition target_identity_from_metadata (m : Metadata.t) : TargetIdentity.t :=
  TargetIdentity.from_bytes (array_copy 16 (to_be 8 m.(Metadata.dev) ++ to_be 8 m.(Metadata.ino))).

Module RootedFilesystem.
Record t := mk { root : Path }.
#[global] Instance t_eq_dec : EqDecision t. Proof. solve_decision. Defined.
End RootedFilesystem.

Section Rooted.
Variable v : HostView.t.

Definition adapter_error {A} (code : ErrorCode.t) (message : string) (r : io A) : Result A :=
  map_err (λ kind, SysboostError.new code (message +:+ ": " +:+ HostView.error_text v kind)) r.

(** [RootedFilesystem::new] *)
Definition rooted_new (p : Path) : Result RootedFilesystem.t :=
  root ← adapter_error ErrorCode.TargetError "cannot resolve adapter root" (HostView.canonicalize v p);
  if match HostView.metadata v root with Ok m => FileType.is_dir m.(Metadata.file_type) | Err _ => false end
  then Ok (RootedFilesystem.mk root)
  else Err (SysboostError.new ErrorCode.TargetError "adapter root is not a directory").

(** The component walk, which refuses symbolic links. *)
Fixpoint resolve_components (candidate : Path) (components : list string) : Result Path :=
  match components with
  | [] => Ok candidate
  | component :: rest =>
    let candidate := join candidate component in
    m ← adapter_error ErrorCode.TargetError "cannot inspect adapter node" (Host.stat v.(HostView.host) candidate);
    if FileType.is_symlink m.(Metadata.file_type)
    then Err (SysboostError.new ErrorCode.TargetError
                "symlink traversal is not accepted by the rooted adapter")
    else resolve_components candidate rest
  end.

Section Adapter.
Variable x : RootedFilesystem.t.
Let root : Path := x.(RootedFilesystem.root).

Definition resolve_existing (p : RelativePath.t) : Result Path :=
  candidate ← resolve_components root (RelativePath.components p);
  resolved ← adapter_error ErrorCode.TargetError "cannot resolve adapter node" (HostView.canonicalize v candidate);
  if negb (path_starts_with root resolved)
  then Err (SysboostError.new ErrorCode.TargetError "resolved adapter node escapes its approved root")
  else Ok resolved.

Definition rooted_read (p : RelativePath.t) : Result (list byte) :=
  resolved ← resolve_existing p;
  adapter_error ErrorCode.CapabilityError "cannot read adapter node" (Host.read v.(HostView.host) resolved).

Definition rooted_metadata (p : RelativePath.t) : Result FileMetadata.t :=
  resolved ← resolve_existing p;
  m ← adapter_error ErrorCode.CapabilityError "cannot read adapter metadata" (HostView.metadata v resolved);
  Ok (FileMetadata.mk (v.(HostView.size) resolved) (readonly m)).

Definition rooted_identity (p : RelativePath.t) : Result TargetIdentity.t :=
  resolved ← resolve_existing p;
  m ← adapter_error ErrorCode.CapabilityError "cannot read adapter identity"
        (Host.stat v.(HostView.host) resolved);
  let file_type := m.(Metadata.file_type) in
  if FileType.is_symlink file_type || (negb (FileType.is_file file_type) && negb (FileType.is_dir file_type))
  then Err (SysboostError.new ErrorCode.TargetError "adapter identity target has an unexpected type")
  else Ok (target_identity_from_metadata m).

Definition rooted_entry (directory : Path) (name : string) : Result DirectoryEntry.t :=
  m ← adapter_error ErrorCode.CapabilityError "cannot read adapter entry type"
        (Host.stat v.(HostView.host) (join directory name));
  Ok (DirectoryEntry.mk (to_string_lossy name) (entry_kind m)).

Definition rooted_list (p : option RelativePath.t) : Result (list DirectoryEntry.t) :=
  directory ← match p with Some p => resolve_existing p | None => Ok root end;
  m ← adapter_error ErrorCode.TargetError "cannot inspect adapter directory" (HostView.metadata v directory);
  if negb (FileType.is_dir m.(Metadata.file_type))
  then Err (SysboostError.new ErrorCode.TargetError "adapter list target is not a directory")
  else
    names ← adapter_error ErrorCode.CapabilityError "cannot enumerate adapter directory"
              (Host.read_dir v.(HostView.host) directory);
    entries ← mapM (rooted_entry directory) names;
    Ok (sort_by (cmp_by DirectoryEntry.name) entries).

Definition rooted_port : ReadOnlyFileSystem.t :=
  ReadOnlyFileSystem.mk rooted_read rooted_metadata rooted_identity rooted_list.
End Adapter.
End Rooted.

(** ** The closed nodes *)

Module SysfsNode.
Inductive t :=
| CpuPolicyMinFrequency (policy : CpuPolicyId.t) | CpuPolicyMaxFrequency (policy : CpuPolicyId.t)
| CpuPolicyGovernor (policy : CpuPolicyId.t) | CpuPolicyEnergyPreference (policy : CpuPolicyId.t).
#[global] Instance t_eq_dec : EqDecision t. Proof. solve_decision. Defined.

Definition relative_path (x : t) : Result RelativePath.t :=
  let '(policy, file) :=
    match x with
    | CpuPolicyMinFrequency policy => (policy, "scaling_min_freq")
    | CpuPolicyMaxFrequency policy => (policy, "scaling_max_freq")
    | CpuPolicyGovernor policy => (policy, "scaling_governor")
    | CpuPolicyEnergyPreference policy => (policy, "energy_performance_preference")
    end in
  RelativePath.new
    ("devices/system/cpu/cpufreq/policy" +:+ pretty policy.(CpuPolicyId.get) +:+ "/" +:+ file).
End SysfsNode.

(** The target an error of a sysfs read names. *)
Definition sysfs_target (p : RelativePath.t) : TargetId.t :=
  match TargetId.new ("sysfs." +:+ p.(RelativePath.as_str)) with
  | Ok target => target
  | Err _ => TargetId.mk "sysfs.node"
  end.

Definition sysfs_access_read (filesystem : ReadOnlyFileSystem.t) (node : SysfsNode.t) : Result (list byte) :=
  p ← SysfsNode.relative_path node;
  map_err (λ error, error |> SysboostError.with_stage Stage.Detect
                          |> SysboostError.with_target (sysfs_target p))
    (ReadOnlyFileSystem.read filesystem p).

Module ProcfsNode.
Inductive t := KernelVersion | SelfStatus | LoadAverage.
#[global] Instance t_eq_dec : EqDecision t. Proof. solve_decision. Defined.
Definition text (x : t) : string :=
  match x with
  | KernelVersion => "sys/kernel/osrelease"
  | SelfStatus => "self/status"
  | LoadAverage => "loadavg"
  end.
(** The source expects the text to be a path. *)
Definition relative_path (x : t) : option RelativePath.t :=
  ok (RelativePath.new (text x)).
End ProcfsNode.

Definition procfs_access_read (filesystem : ReadOnlyFileSystem.t) (node : ProcfsNode.t) :
    option (Result (list byte)) :=
  p ← ProcfsNode.relative_path node; Some (ReadOnlyFileSystem.read filesystem p).

Module CgroupVersion.
Inductive t := V1 | V2.
#[global] Instance t_eq_dec : EqDecision t. Proof. solve_decision. Defined.
End CgroupVersion.

Module CgroupFile.
Inductive t := CpuWeight | CpuMax | CpusetCpus.
#[global] Instance t_eq_dec : EqDecision t. Proof. solve_decision. Defined.
Definition filename (x : t) (version : CgroupVersion.t) : string :=
  match version, x with
  | CgroupVersion.V1, CpuWeight => "cpu.shares"
  | CgroupVersion.V2, CpuWeight => "cpu.weight"
  | CgroupVersion.V1, CpuMax => "cpu.cfs_quota_us"
  | CgroupVersion.V2, CpuMax => "cpu.max"
  | _, CpusetCpus => "cpuset.cpus"
  end.
End CgroupFile.

Module CgroupTarget.
Record t := mk { identity : CgroupId.t; relative_path : RelativePath.t; version : CgroupVersion.t }.
#[global] Instance t_eq_dec : EqDecision t. Proof. solve_decision. Defined.
Definition file_path (x : t) (file : CgroupFile.t) : Result RelativePath.t :=
  RelativePath.join_component x.(relative_path) (CgroupFile.filename file x.(version)).
End CgroupTarget.

Definition cgroup_access_read (filesystem : ReadOnlyFileSystem.t) (target : CgroupTarget.t)
    (file : CgroupFile.t) : Result (list byte) :=
  p ← CgroupTarget.file_path target file;
  map_err (λ error, error |> SysboostError.with_stage Stage.Detect
                          |> SysboostError.with_target target.(CgroupTarget.identity).(CgroupId.handle))
    (ReadOnlyFileSystem.read filesystem p).

(** ** Clocks *)

(** [SystemClock::now], from the nanoseconds since the Unix epoch. *)
Definition system_clock_now (nanos : Z) : Result Timestamp.t :=
  if (nanos <? 0)%Z
  then Err (SysboostError.new ErrorCode.InvariantViolation "system clock precedes Unix epoch")
  else Ok (Timestamp.from_unix_millis (Z.to_N (nanos / 1000000))).

Module FixedClock.
Record t := mk { timestamp : Timestamp.t }.
#[global] Instance t_eq_dec : EqDecision t. Proof. solve_decision. Defined.
Definition new := mk.
#[global] Instance clock : Clock.t t := { Clock.now x := (Ok x.(timestamp), x) }.
End FixedClock.

(** ** The backend that only reports *)

Module ReportOnlyBackend.
Record t := mk { descriptor : BackendDescriptor.t }.
#[global] Instance t_eq_dec : EqDecision t. Proof. solve_decision. Defined.
Definition new : t := mk (BackendDescriptor.mk (BackendId.mk "linux.report_only") "0.1.0-foundation" [] []).
Definition detect {C} `{!Clock.t C} : Mut C CapabilityInventory.t :=
  now ← Clock.now; mret (CapabilityInventory.mk now []).
Definition unsupported : SysboostError.t :=
  SysboostError.new ErrorCode.Unsupported
    "runtime Linux mutation backends are deferred from the foundation skeleton".
#[global] Instance backend : MutationBackend.t t := {
  MutationBackend.descriptor := descriptor;
  MutationBackend.owns_backend x := MutationBackend.default_owns_backend x.(descriptor);
  MutationBackend.snapshot _ _ := throw unsupported;
  MutationBackend.apply _ _ := throw unsupported;
  MutationBackend.verify _ _ _ := throw unsupported;
  MutationBackend.restore _ _ _ := throw unsupported;
  MutationBackend.validate_target _ := MutationBackend.default_validate_target;
  MutationBackend.validate_admission x :=
    MutationBackend.default_validate_admission x.(descriptor) MutationBackend.default_validate_target
}.
End ReportOnlyBackend.
