(* ===== verification/Discovery.v ===== *)
(** * Capability discovery ([sysboost-linux/src/discovery.rs])

    What is read through the read-only ports, the facts it becomes, and the
    findings and capability inventory made of them.  A panic of the source,
    from an [expect] on a path, is [None].  Files do not change while they
    are read. *)
From Stdlib Require Import Strings.Byte Strings.Ascii.
From stdpp Require Import pretty.
From S2P Require Import Prelude Lists Text Str Ids Mut Capability Mutation.
From S2P Require Import Topology Ports FileSystem ReadPorts Cpu.
Local Open Scope N_scope.

(** ** Identifiers *)

Module discovery_ids.
Definition KERNEL_ENVIRONMENT := "environment.kernel".
Definition CPU_TOPOLOGY := "cpu.topology".
Definition CPU_CAPACITY := "cpu.capacity".
Definition NUMA_TOPOLOGY := "memory.numa".
Definition CGROUP_V2 := "cgroup.v2".
Definition CGROUP_UCLAMP := "cgroup.uclamp".
Definition CPU_BOOST := "cpu.policy.boost".
Definition PLATFORM_PROFILE := "platform.profile".
Definition GPU_DEVICE := "gpu.device".
Definition IRQ_METADATA := "irq.metadata".
Definition THP := "memory.thp".
Definition SWAP := "memory.swap".
Definition ZRAM := "memory.zram".
Definition ZSWAP := "memory.zswap".
Definition SCHEDULER := "scheduler.facilities".
Definition SYSTEMD := "service.systemd".
End discovery_ids.

Definition DISCOVERY_BACKEND : string := "linux.discovery".
Definition MAX_DISCOVERY_READ_BYTES : usize := 1048576.

(** ** Findings and facts *)

Module DiscoveryStatus.
Inductive t := Supported | Unavailable | PermissionDenied | PresentButUnsupported | ReportOnly | Indeterminate.
#[global] Instance t_eq_dec : EqDecision t. Proof. solve_decision. Defined.
End DiscoveryStatus.

Module CapabilityFinding.
Record t := mk {
  id : CapabilityId.t;
  target : option TargetId.t;
  status : DiscoveryStatus.t;
  classification : FeatureClass.t;
  evidence : list CapabilityEvidence.t;
  attributes : list (string * string)
}.
#[global] Instance t_eq_dec : EqDecision t. Proof. solve_decision. Defined.
End CapabilityFinding.

Module DiscoverySources.
Record t := mk {
  sysfs : ReadOnlyFileSystem.t;
  procfs : ReadOnlyFileSystem.t;
  cgroup : option ReadOnlyFileSystem.t;
  run : option ReadOnlyFileSystem.t
}.
Definition new (sysfs procfs : ReadOnlyFileSystem.t) : t := mk sysfs procfs None None.
Definition with_cgroup (cgroup : ReadOnlyFileSystem.t) (x : t) : t :=
  mk x.(sysfs) x.(procfs) (Some cgroup) x.(run).
Definition with_run (run : ReadOnlyFileSystem.t) (x : t) : t :=
  mk x.(sysfs) x.(procfs) x.(cgroup) (Some run).
End DiscoverySources.

(** The roots of the host. *)
Module HostRoots.
Record t := mk {
  sysfs : RootedFilesystem.t;
  procfs : RootedFilesystem.t;
  cgroup : option RootedFilesystem.t;
  run : option RootedFilesystem.t
}.
#[global] Instance t_eq_dec : EqDecision t. Proof. solve_decision. Defined.
Definition open (v : HostView.t) : Result t :=
  sysfs ← rooted_new v ["sys"];
  procfs ← rooted_new v ["proc"];
  Ok (mk sysfs procfs (ok (rooted_new v ["cgroup"; "fs"; "sys"])) (ok (rooted_new v ["run"]))).
Definition sources (v : HostView.t) (x : t) : DiscoverySources.t :=
  let s := DiscoverySources.new (rooted_port v x.(sysfs)) (rooted_port v x.(procfs)) in
  let s := match x.(cgroup) with
           | Some cgroup => DiscoverySources.with_cgroup (rooted_port v cgroup) s | None => s end in
  match x.(run) with Some run => DiscoverySources.with_run (rooted_port v run) s | None => s end.
End HostRoots.

Module EnvironmentFacts.
Record t := mk {
  kernel_release : option string;
  kernel_version : option string;
  architecture : option string;
  cpu_vendor : option string;
  cpu_model : option string;
  cpu_count : nat;
  init_name : option string;
  container_hint : bool;
  container_evidence : list string
}.
#[global] Instance t_eq_dec : EqDecision t. Proof. solve_decision. Defined.
End EnvironmentFacts.

Module CpuFreqPolicyFacts.
Record t := mk {
  id : u32;
  related_cpus : option string;
  driver : option string;
  available_governors : list string;
  current_governor : option string;
  energy_performance_preference : option string;
  energy_performance_choices : list string;
  min_khz : option u64;
  max_khz : option u64;
  current_khz : option u64;
  read_failures : list string;
  target_identity : option TargetIdentity.t
}.
#[global] Instance t_eq_dec : EqDecision t. Proof. solve_decision. Defined.
End CpuFreqPolicyFacts.

Module CpuFreqFacts.
Record t := mk {
  policies : list CpuFreqPolicyFacts.t;
  boost : option string;
  boost_interface : option CpuBoostInterface.t;
  boost_target_identity : option TargetIdentity.t;
  platform_profile : option string;
  platform_profile_choices : list string;
  platform_profile_target_identity : option TargetIdentity.t
}.
#[global] Instance t_eq_dec : EqDecision t. Proof. solve_decision. Defined.
End CpuFreqFacts.

Module CgroupFacts.
Record t := mk {
  version : option CgroupVersion.t;
  controllers : list string;
  enabled_controllers : list string;
  cpu_weight : option string;
  cpu_max : option string;
  cpuset_cpus : option string;
  uclamp_min : option string;
  uclamp_max : option string;
  membership : option string
}.
#[global] Instance t_eq_dec : EqDecision t. Proof. solve_decision. Defined.
End CgroupFacts.

Module GpuDeviceFacts.
Record t := mk {
  name : string;
  vendor : option string;
  device : option string;
  class : option string;
  driver : option string;
  entry_kind : EntryKind.t
}.
#[global] Instance t_eq_dec : EqDecision t. Proof. solve_decision. Defined.
End GpuDeviceFacts.

Module GpuFacts.
Record t := mk { devices : list GpuDeviceFacts.t }.
#[global] Instance t_eq_dec : EqDecision t. Proof. solve_decision. Defined.
End GpuFacts.

Module IrqEntryFacts.
Record t := mk { irq : u32; affinity : option string; effective_affinity : option string }.
#[global] Instance t_eq_dec : EqDecision t. Proof. solve_decision. Defined.
End IrqEntryFacts.

Module IrqFacts.
Record t := mk { default_affinity : option string; entries : list IrqEntryFacts.t }.
#[global] Instance t_eq_dec : EqDecision t. Proof. solve_decision. Defined.
End IrqFacts.

Module MemoryFacts.
Record t := mk {
  thp_enabled : option string;
  thp_defrag : option string;
  swap_total_kb : option u64;
  swap_free_kb : option u64;
  active_swap_entries : nat;
  zram_devices : list string;
  zswap_enabled : option string;
  zswap_compressor : option string;
  zswap_zpool : option string
}.
#[global] Instance t_eq_dec : EqDecision t. Proof. solve_decision. Defined.
End MemoryFacts.

Module SchedulerFacts.
Record t := mk {
  facilities : list string;
  cpu_pressure : bool;
  uclamp_min : option string;
  uclamp_max : option string;
  numa_balancing : option string;
  energy_aware : option string
}.
#[global] Instance t_eq_dec : EqDecision t. Proof. solve_decision. Defined.
End SchedulerFacts.

Module SystemdFacts.
Record t := mk { present : bool; evidence : list string }.
#[global] Instance t_eq_dec : EqDecision t. Proof. solve_decision. Defined.
End SystemdFacts.

Module DiscoveryReport.
Record t := mk {
  observed_at : Timestamp.t;
  environment : EnvironmentFacts.t;
  cpufreq : CpuFreqFacts.t;
  topology : CpuTopologyFacts.t;
  numa : NumaFacts.t;
  cgroup : CgroupFacts.t;
  gpu : GpuFacts.t;
  irq : IrqFacts.t;
  memory : MemoryFacts.t;
  scheduler : SchedulerFacts.t;
  systemd : SystemdFacts.t;
  findings : list CapabilityFinding.t;
  inventory : CapabilityInventory.t
}.
#[global] Instance t_eq_dec : EqDecision t. Proof. solve_decision. Defined.
End DiscoveryReport.

(** ** Probes *)

Module Probe.
Inductive t (A : Type) := Present (value : A) | Missing | Denied | Malformed.
#[global] Arguments Present {A} _.
#[global] Arguments Missing {A}.
#[global] Arguments Denied {A}.
#[global] Arguments Malformed {A}.
#[global] Instance t_eq_dec {A} `{!EqDecision A} : EqDecision (t A). Proof. solve_decision. Defined.
Definition is_present {A} (p : t A) : bool := match p with Present _ => true | _ => false end.
Definition is_denied {A} (p : t A) : bool := match p with Denied => true | _ => false end.
Definition is_malformed {A} (p : t A) : bool := match p with Malformed => true | _ => false end.
(** What a parser makes of a value that was read. *)
Definition parse {A B} (f : A → option B) (p : t A) : t B :=
  match p with
  | Present a => match f a with Some b => Present b | None => Malformed end
  | Missing => Missing
  | Denied => Denied
  | Malformed => Malformed
  end.
End Probe.

(** [path(value)]: the [expect] panics on a text that is not a path. *)
Definition path (value : string) : option RelativePath.t := ok (RelativePath.new value).

(** What an error of a port says of the node. *)
Definition failed_probe {A} (error : SysboostError.t) : Probe.t A :=
  match error.(SysboostError.code) with
  | ErrorCode.AuthorizationError | ErrorCode.CapabilityError => Probe.Denied
  | ErrorCode.TargetError | ErrorCode.Unsupported => Probe.Missing
  | _ => Probe.Malformed
  end.

Definition read_bytes (filesystem : ReadOnlyFileSystem.t) (value : string) : option (Probe.t (list byte)) :=
  p ← path value;
  Some (match ReadOnlyFileSystem.read filesystem p with
        | Ok bytes => if N.of_nat (length bytes) <=? MAX_DISCOVERY_READ_BYTES
                      then Probe.Present bytes else Probe.Malformed
        | Err error => failed_probe error
        end).

Definition read_text (filesystem : ReadOnlyFileSystem.t) (value : string) : option (Probe.t string) :=
  bytes ← read_bytes filesystem value;
  Some (Probe.parse (λ bytes, trim <$> from_utf8 bytes) bytes).

(** [list(filesystem, Some(value))]: the callers always name a directory. *)
Definition list_names (filesystem : ReadOnlyFileSystem.t) (value : string) :
    option (Probe.t (list DirectoryEntry.t)) :=
  p ← path value;
  Some (match ReadOnlyFileSystem.list_dir filesystem (Some p) with
        | Ok entries => Probe.Present entries
        | Err error => failed_probe error
        end).

Definition status {A} (probe : Probe.t A) (present : DiscoveryStatus.t) : DiscoveryStatus.t :=
  match probe with
  | Probe.Present _ => present
  | Probe.Missing => DiscoveryStatus.Unavailable
  | Probe.Denied => DiscoveryStatus.PermissionDenied
  | Probe.Malformed => DiscoveryStatus.Indeterminate
  end.

Definition status_for_probes {A} (probes : list (Probe.t A * DiscoveryStatus.t)) : DiscoveryStatus.t :=
  if existsb (λ '(probe, _), Probe.is_denied probe) probes then DiscoveryStatus.PermissionDenied
  else if existsb (λ '(probe, _), Probe.is_malformed probe) probes then DiscoveryStatus.Indeterminate
  else match List.find (λ '(probe, _), Probe.is_present probe) probes with
       | Some (_, present) => present
       | None => DiscoveryStatus.Unavailable
       end.

Definition combine_statuses (statuses : list DiscoveryStatus.t) : DiscoveryStatus.t :=
  if bool_decide (DiscoveryStatus.PermissionDenied ∈ statuses) then DiscoveryStatus.PermissionDenied
  else if bool_decide (DiscoveryStatus.Indeterminate ∈ statuses) then DiscoveryStatus.Indeterminate
  else if bool_decide (DiscoveryStatus.Supported ∈ statuses) then DiscoveryStatus.Supported
  else if bool_decide (DiscoveryStatus.PresentButUnsupported ∈ statuses)
  then DiscoveryStatus.PresentButUnsupported
  else if bool_decide (DiscoveryStatus.ReportOnly ∈ statuses) then DiscoveryStatus.ReportOnly
  else DiscoveryStatus.Unavailable.

Definition probe_evidence {A} (probe : Probe.t A) (source : EvidenceSource.t) (name : string) :
    CapabilityEvidence.t :=
  CapabilityEvidence.mk source
    (name +:+ match probe with
              | Probe.Present _ => " is readable and parsed"
              | Probe.Missing => " is not exposed"
              | Probe.Denied => " is present but read access was denied"
              | Probe.Malformed => " was present but malformed or oversized"
              end).

Definition probe_value {A} (probe : Probe.t A) : option A :=
  match probe with Probe.Present value => Some value | _ => None end.

Definition zero_identity : TargetIdentity.t := TargetIdentity.from_bytes (array_repeat 16 x00).
Definition probe_identity (filesystem : ReadOnlyFileSystem.t) (relative_path : string) :
    option (option TargetIdentity.t) :=
  p ← path relative_path;
  Some (match ReadOnlyFileSystem.identity filesystem p with
        | Ok identity => if bool_decide (identity = zero_identity) then None else Some identity
        | Err _ => None
        end).

(** The source expects the identifier to be valid; those it uses are. *)
Definition finding (id : string) (target : option string) (status : DiscoveryStatus.t)
    (classification : FeatureClass.t) (evidence : list CapabilityEvidence.t)
    (attributes : list (string * string)) : CapabilityFinding.t :=
  CapabilityFinding.mk (CapabilityId.mk id) (target ≫= λ value, ok (TargetId.new value)) status
    classification evidence attributes.

(** ** Texts *)

(** [sort(); dedup()] *)
Definition sort_dedup {A} `{!EqDecision A, !Ord A} (l : list A) : list A := dedup (sort_by cmp l).

Definition parse_tokens (value : string) : list string := sort_dedup (split_whitespace value).
Definition parse_u64 (probe : Probe.t string) : Probe.t u64 := Probe.parse (parse_uint 64) probe.
Definition parse_u32 (probe : Probe.t string) : Probe.t u32 := Probe.parse (parse_uint 32) probe.

(** [split_once([':', '='])] *)
Fixpoint split_key (s : string) : option (string * string) :=
  match s with
  | EmptyString => None
  | String c s' =>
    if bool_decide (c = ":"%char) || bool_decide (c = "="%char) then Some (EmptyString, s')
    else '(l, r) ← split_key s'; Some (String c l, r)
  end.
Definition key_values (value : string) : list (string * string) :=
  foldl (λ values line, match split_key line with
                        | Some (key, value) => map_insert (trim key) (trim value) values
                        | None => values
                        end) [] (lines value).
Definition first_key (value key : string) : option string := map_get key (key_values value).

Definition sort_numeric_names (entries : list DirectoryEntry.t) (prefix : string) : list u32 :=
  sort_dedup (omap (λ entry,
    if bool_decide (entry.(DirectoryEntry.kind) = EntryKind.Directory)
    then strip_prefix prefix entry.(DirectoryEntry.name) ≫= parse_uint 32 else None) entries).

(** The numbered directories of a listing. *)
Definition numbered (listing : Probe.t (list DirectoryEntry.t)) (prefix : string) : list u32 :=
  match listing with Probe.Present entries => sort_numeric_names entries prefix | _ => [] end.

Definition range_contains (value : string) (needle : u32) : bool :=
  existsb (λ part,
    match split_once "-" part with
    | None => bool_decide (parse_uint 32 part = Some needle)
    | Some (first, last) =>
      match parse_uint 32 first, parse_uint 32 last with
      | Some first, Some last => (first <=? needle) && (needle <=? last)
      | _, _ => false
      end
    end) (filter (λ part, part ≠ "") (trim <$> split_on "," value)).

Definition meminfo_value (value key : string) : option u64 :=
  text ← first_key value key; number ← head (split_whitespace text); parse_uint 64 number.

Definition to_ascii_lowercase (s : string) : string :=
  string_of_bytes ((λ b, if in_range 65 90 (b2n b) then n2b (b2n b + 32) else b) <$> bytes_of_string s).
Definition trim_start_text (s : string) : string := string_of_bytes (trim_start O (bytes_of_string s)).

Definition or_else {A} (x y : option A) : option A := match x with Some a => Some a | None => y end.

(** ** Detectors *)

Definition CONTAINER_MARKERS : list string := ["docker"; "kubepods"; "containerd"; "libpod"; "lxc"; "podman"].
Definition SYSTEMD_EVIDENCE : string := "init process is systemd".

Definition container_evidence (init membership : Probe.t string) : list string :=
  let text := to_ascii_lowercase (default "" (probe_value membership)) in
  sort_dedup
    (((λ marker, "procfs cgroup contains " +:+ marker)
        <$> filter (λ marker, contains marker text = true) CONTAINER_MARKERS)
     ++ if bool_decide (probe_value init = Some "systemd") then [SYSTEMD_EVIDENCE] else []).

Definition detect_environment (procfs : ReadOnlyFileSystem.t) :
    option (EnvironmentFacts.t * DiscoveryStatus.t * list CapabilityEvidence.t) :=
  release ← read_text procfs "sys/kernel/osrelease";
  version ← read_text procfs "sys/kernel/version";
  cpuinfo ← read_text procfs "cpuinfo";
  init ← read_text procfs "1/comm";
  membership ← read_text procfs "1/cgroup";
  let cpuinfo_text := default "" (probe_value cpuinfo) in
  let evidence := container_evidence init membership in
  let environment := EnvironmentFacts.mk (probe_value release) (probe_value version)
    (first_key cpuinfo_text "Architecture")
    (or_else (first_key cpuinfo_text "vendor_id") (first_key cpuinfo_text "CPU implementer"))
    (or_else (first_key cpuinfo_text "model name") (first_key cpuinfo_text "Model"))
    (length (filter (λ line, starts_with "processor" (trim_start_text line) = true) (lines cpuinfo_text)))
    (probe_value init)
    (negb (bool_decide (evidence = [])) && negb (bool_decide (SYSTEMD_EVIDENCE ∈ evidence)))
    evidence in
  Some (environment, status_for_probes [(release, DiscoveryStatus.ReportOnly)],
        [probe_evidence release EvidenceSource.Procfs "procfs kernel release";
         probe_evidence version EvidenceSource.Procfs "procfs kernel version";
         probe_evidence cpuinfo EvidenceSource.Procfs "procfs CPU information";
         probe_evidence init EvidenceSource.Procfs "procfs init process";
         probe_evidence membership EvidenceSource.Procfs "procfs cgroup membership"]).

(** [None] where the probe was read; its name otherwise. *)
Definition read_failure {A} (name : string) (probe : Probe.t A) : option string :=
  if Probe.is_present probe then None else Some name.

Definition attribute (name : string) (value : option string) (m : list (string * string)) :
    list (string * string) :=
  match value with Some value => map_insert name value m | None => m end.

(** One iteration of the loop over the policies. *)
Definition detect_policy (sysfs : ReadOnlyFileSystem.t) (policy_id : u32) :
    option (CpuFreqPolicyFacts.t * list CapabilityFinding.t) :=
  let prefix := "devices/system/cpu/cpufreq/policy" +:+ pretty policy_id in
  target_identity ← probe_identity sysfs prefix;
  related ← read_text sysfs (prefix +:+ "/related_cpus");
  driver ← read_text sysfs (prefix +:+ "/scaling_driver");
  available_governors ← read_text sysfs (prefix +:+ "/scaling_available_governors");
  current_governor ← read_text sysfs (prefix +:+ "/scaling_governor");
  epp ← read_text sysfs (prefix +:+ "/energy_performance_preference");
  epp_choices ← read_text sysfs (prefix +:+ "/energy_performance_available_preferences");
  min ← parse_u64 <$> read_text sysfs (prefix +:+ "/scaling_min_freq");
  max ← parse_u64 <$> read_text sysfs (prefix +:+ "/scaling_max_freq");
  current ← parse_u64 <$> read_text sysfs (prefix +:+ "/scaling_cur_freq");
  let policy := CpuFreqPolicyFacts.mk policy_id (probe_value related) (probe_value driver)
    (default [] (parse_tokens <$> probe_value available_governors)) (probe_value current_governor)
    (probe_value epp) (default [] (parse_tokens <$> probe_value epp_choices))
    (probe_value min) (probe_value max) (probe_value current)
    (omap (λ '(name, probe), read_failure name probe)
       [("related_cpus", related); ("scaling_driver", driver);
        ("scaling_available_governors", available_governors); ("scaling_governor", current_governor);
        ("energy_performance_preference", epp);
        ("energy_performance_available_preferences", epp_choices)]
     ++ omap (λ '(name, probe), read_failure name probe)
          [("scaling_min_freq", min); ("scaling_max_freq", max)])
    target_identity in
  let target := Some ("cpu.policy." +:+ pretty policy_id) in
  let attributes := attribute "related_cpus" (probe_value related)
                      (attribute "driver" (probe_value driver) []) in
  Some (policy,
    [finding capability_ids.CPU_POLICY_GOVERNOR target
       (status_for_probes [(available_governors, DiscoveryStatus.Supported);
                           (current_governor, DiscoveryStatus.Supported)])
       FeatureClass.RuntimeMutable
       [probe_evidence available_governors EvidenceSource.Sysfs "CPUFreq available governors";
        probe_evidence current_governor EvidenceSource.Sysfs "CPUFreq current governor"] attributes;
     finding capability_ids.CPU_POLICY_FREQUENCY_MIN target (status min DiscoveryStatus.Supported)
       FeatureClass.RuntimeMutable
       [probe_evidence min EvidenceSource.Sysfs "CPUFreq minimum frequency"] attributes;
     finding capability_ids.CPU_POLICY_FREQUENCY_MAX target (status max DiscoveryStatus.Supported)
       FeatureClass.RuntimeMutable
       [probe_evidence max EvidenceSource.Sysfs "CPUFreq maximum frequency"] attributes;
     finding capability_ids.CPU_POLICY_ENERGY_PREFERENCE target
       (status_for_probes [(epp, DiscoveryStatus.Supported); (epp_choices, DiscoveryStatus.Supported)])
       FeatureClass.RuntimeMutable
       [probe_evidence epp EvidenceSource.Sysfs "CPUFreq energy-performance preference";
        probe_evidence epp_choices EvidenceSource.Sysfs "CPUFreq energy-performance choices"] attributes]).

(** The boost interface that is used: the first of the two that can be read. *)
Definition boost_interface_of (boost no_turbo : Probe.t string) : option CpuBoostInterface.t :=
  if Probe.is_present boost then Some CpuBoostInterface.Boost
  else if Probe.is_present no_turbo then Some CpuBoostInterface.NoTurbo else None.

Definition boost_identity (sysfs : ReadOnlyFileSystem.t) (interface : option CpuBoostInterface.t) :
    option (option TargetIdentity.t) :=
  match interface with
  | Some CpuBoostInterface.Boost => probe_identity sysfs "devices/system/cpu/cpufreq/boost"
  | Some CpuBoostInterface.NoTurbo => probe_identity sysfs "devices/system/cpu/cpufreq/no_turbo"
  | None => Some None
  end.

Definition detect_cpufreq (sysfs : ReadOnlyFileSystem.t) :
    option (CpuFreqFacts.t * list CapabilityFinding.t) :=
  policy_dir ← list_names sysfs "devices/system/cpu/cpufreq";
  let policy_ids := numbered policy_dir "policy" in
  boost ← read_text sysfs "devices/system/cpu/cpufreq/boost";
  no_turbo ← read_text sysfs "devices/system/cpu/cpufreq/no_turbo";
  let interface := boost_interface_of boost no_turbo in
  let boost_probe := if bool_decide (interface = Some CpuBoostInterface.Boost) then boost else no_turbo in
  boost_target_identity ← boost_identity sysfs interface;
  platform_profile ← read_text sysfs "firmware/acpi/platform_profile";
  platform_choices ← read_text sysfs "firmware/acpi/platform_profile_choices";
  platform_identity ← probe_identity sysfs "firmware/acpi/platform_profile";
  let facts policies := CpuFreqFacts.mk policies (or_else (probe_value boost) (probe_value no_turbo)) interface
    boost_target_identity (probe_value platform_profile)
    (default [] (parse_tokens <$> probe_value platform_choices)) platform_identity in
  let system_findings :=
    [finding discovery_ids.CPU_BOOST None
       (status_for_probes [(boost, DiscoveryStatus.Supported); (no_turbo, DiscoveryStatus.Supported)])
       FeatureClass.RuntimeMutable
       [probe_evidence boost_probe EvidenceSource.Sysfs "CPU boost interface";
        probe_evidence no_turbo EvidenceSource.Sysfs "CPU no_turbo interface"] [];
     finding discovery_ids.PLATFORM_PROFILE None
       (status_for_probes [(platform_profile, DiscoveryStatus.Supported);
                           (platform_choices, DiscoveryStatus.Supported)])
       FeatureClass.Conditional
       [probe_evidence platform_profile EvidenceSource.Sysfs "platform profile";
        probe_evidence platform_choices EvidenceSource.Sysfs "platform profile choices"] []] in
  if bool_decide (policy_ids = [])
  then Some (facts [],
         system_findings ++
         ((λ id, finding id None (status policy_dir DiscoveryStatus.Supported) FeatureClass.RuntimeMutable
                   [probe_evidence policy_dir EvidenceSource.Sysfs "CPUFreq policy directory"] [])
            <$> [capability_ids.CPU_POLICY_FREQUENCY_MIN; capability_ids.CPU_POLICY_FREQUENCY_MAX;
                 capability_ids.CPU_POLICY_GOVERNOR; capability_ids.CPU_POLICY_ENERGY_PREFERENCE]))
  else
    policies ← mapM (detect_policy sysfs) policy_ids;
    Some (facts (fst <$> policies), system_findings ++ concat (snd <$> policies)).

Definition detect_cpu (sysfs : ReadOnlyFileSystem.t) (online_text : string) (cpu : u32) :
    option CpuTopologyEntry.t :=
  let prefix := "devices/system/cpu/cpu" +:+ pretty cpu in
  package ← parse_u32 <$> read_text sysfs (prefix +:+ "/topology/physical_package_id");
  core ← parse_u32 <$> read_text sysfs (prefix +:+ "/topology/core_id");
  siblings ← read_text sysfs (prefix +:+ "/topology/thread_siblings_list");
  capacity ← parse_u64 <$> read_text sysfs (prefix +:+ "/cpu_capacity");
  Some (CpuTopologyEntry.mk cpu (probe_value package) (probe_value core) (probe_value siblings)
          (probe_value capacity) (range_contains online_text cpu)).

Definition bool_text (b : bool) : string := if b then "true" else "false".

Definition detect_topology (sysfs : ReadOnlyFileSystem.t) :
    option (CpuTopologyFacts.t * list CapabilityFinding.t) :=
  cpu_root ← list_names sysfs "devices/system/cpu";
  possible ← read_text sysfs "devices/system/cpu/possible";
  online ← read_text sysfs "devices/system/cpu/online";
  entries ← mapM (detect_cpu sysfs (default "" (probe_value online))) (numbered cpu_root "cpu");
  let capacities := sort_dedup (omap CpuTopologyEntry.capacity entries) in
  let heterogeneous := Nat.ltb 1 (length capacities) in
  let attributes := map_insert "heterogeneous" (bool_text heterogeneous)
                      (map_insert "cpu_count" (pretty (length entries)) []) in
  let none := bool_decide (capacities = []) in
  Some (CpuTopologyFacts.mk (probe_value possible) (probe_value online) entries heterogeneous,
    [finding discovery_ids.CPU_TOPOLOGY None
       (combine_statuses [status cpu_root DiscoveryStatus.Supported; status possible DiscoveryStatus.Supported;
                          status online DiscoveryStatus.Supported])
       FeatureClass.BootOnlyReportOnly
       [probe_evidence cpu_root EvidenceSource.Sysfs "CPU topology directory";
        probe_evidence possible EvidenceSource.Sysfs "possible CPU list";
        probe_evidence online EvidenceSource.Sysfs "online CPU list"] attributes;
     finding discovery_ids.CPU_CAPACITY None
       (if none then combine_statuses [status cpu_root DiscoveryStatus.PresentButUnsupported;
                                       status possible DiscoveryStatus.PresentButUnsupported]
        else DiscoveryStatus.Supported)
       FeatureClass.Conditional
       [CapabilityEvidence.mk EvidenceSource.Sysfs
          (if none then "no per-CPU capacity hint was exposed"
           else pretty (length capacities) +:+ " distinct CPU capacity values were observed")] attributes]).

Definition detect_node (sysfs : ReadOnlyFileSystem.t) (node : u32) : option NumaNodeFacts.t :=
  let prefix := "devices/system/node/node" +:+ pretty node in
  cpulist ← read_text sysfs (prefix +:+ "/cpulist");
  meminfo ← read_text sysfs (prefix +:+ "/meminfo");
  Some (NumaNodeFacts.mk node (probe_value cpulist)
          (value ← probe_value meminfo; meminfo_value value "MemTotal")).

Definition detect_numa (sysfs : ReadOnlyFileSystem.t) : option (NumaFacts.t * list CapabilityFinding.t) :=
  node_root ← list_names sysfs "devices/system/node";
  nodes ← mapM (detect_node sysfs) (numbered node_root "node");
  Some (NumaFacts.mk (sort_by (cmp_by NumaNodeFacts.id) nodes),
    [finding discovery_ids.NUMA_TOPOLOGY None (status node_root DiscoveryStatus.Supported)
       FeatureClass.BootOnlyReportOnly
       [probe_evidence node_root EvidenceSource.Sysfs "NUMA node directory"]
       (map_insert "node_count" (pretty (length nodes)) [])]).

Definition cgroup_unavailable_findings (membership : Probe.t string) (detail : string) :
    list CapabilityFinding.t :=
  let evidence := [CapabilityEvidence.mk EvidenceSource.CgroupV2 detail;
                   probe_evidence membership EvidenceSource.Procfs "procfs cgroup membership"] in
  (λ id, finding id None DiscoveryStatus.Unavailable
           (if bool_decide (id = capability_ids.CGROUP_CPUSET_CPUS) || bool_decide (id = discovery_ids.CGROUP_V2)
               || bool_decide (id = discovery_ids.CGROUP_UCLAMP)
            then FeatureClass.Conditional else FeatureClass.RuntimeMutable) evidence [])
    <$> [discovery_ids.CGROUP_V2; discovery_ids.CGROUP_UCLAMP; capability_ids.CGROUP_CPU_WEIGHT;
         capability_ids.CGROUP_CPU_MAX; capability_ids.CGROUP_CPUSET_CPUS].

(** A root of either generation, once its files are read. *)
Definition detect_cgroup_root (membership : Probe.t string) (cgroup : ReadOnlyFileSystem.t) :
    option (CgroupFacts.t * list CapabilityFinding.t) :=
  controllers ← read_text cgroup "cgroup.controllers";
  subtree ← read_text cgroup "cgroup.subtree_control";
  cgroup_type ← read_text cgroup "cgroup.type";
  v1_weight ← read_text cgroup "cpu.shares";
  v1_quota ← read_text cgroup "cpu.cfs_quota_us";
  v2_weight ← read_text cgroup "cpu.weight";
  v2_max ← read_text cgroup "cpu.max";
  cpuset ← read_text cgroup "cpuset.cpus";
  uclamp_min ← read_text cgroup "cpu.uclamp.min";
  uclamp_max ← read_text cgroup "cpu.uclamp.max";
  let is_v2 := Probe.is_present controllers || Probe.is_present cgroup_type in
  let is_v1 := negb is_v2 && (Probe.is_present v1_weight || Probe.is_present v1_quota) in
  let weight_probe := if is_v2 then v2_weight else v1_weight in
  let max_probe := if is_v2 then v2_max else v1_quota in
  let controller_names := default [] (parse_tokens <$> probe_value controllers) in
  let facts := CgroupFacts.mk
    (if is_v2 then Some CgroupVersion.V2 else if is_v1 then Some CgroupVersion.V1 else None)
    controller_names (default [] (parse_tokens <$> probe_value subtree))
    (probe_value weight_probe) (probe_value max_probe) (probe_value cpuset)
    (probe_value uclamp_min) (probe_value uclamp_max) (probe_value membership) in
  let cpu_controller := bool_decide ("cpu" ∈ controller_names) || is_v1 in
  let controlled (status : DiscoveryStatus.t) :=
    if negb cpu_controller && is_v2 then DiscoveryStatus.PresentButUnsupported else status in
  let source := if is_v2 then EvidenceSource.CgroupV2 else EvidenceSource.CgroupV1 in
  Some (facts,
    [finding discovery_ids.CGROUP_V2 None
       (if is_v2 then DiscoveryStatus.Supported
        else if is_v1 then DiscoveryStatus.PresentButUnsupported
        else status controllers DiscoveryStatus.Supported)
       FeatureClass.Conditional
       [probe_evidence controllers EvidenceSource.CgroupV2 "cgroup v2 controller list";
        probe_evidence cgroup_type EvidenceSource.CgroupV2 "cgroup hierarchy type";
        probe_evidence v1_weight EvidenceSource.CgroupV1 "cgroup v1 CPU shares"] [];
     finding capability_ids.CGROUP_CPU_WEIGHT None (controlled (status weight_probe DiscoveryStatus.Supported))
       FeatureClass.RuntimeMutable [probe_evidence weight_probe source "cgroup CPU weight"] [];
     finding capability_ids.CGROUP_CPU_MAX None (controlled (status max_probe DiscoveryStatus.Supported))
       FeatureClass.RuntimeMutable [probe_evidence max_probe source "cgroup CPU max"] [];
     finding capability_ids.CGROUP_CPUSET_CPUS None (controlled (status cpuset DiscoveryStatus.Supported))
       FeatureClass.Conditional [probe_evidence cpuset source "cgroup effective CPU set"] [];
     finding discovery_ids.CGROUP_UCLAMP None
       (controlled (status_for_probes [(uclamp_min, DiscoveryStatus.Supported);
                                       (uclamp_max, DiscoveryStatus.Supported)]))
       FeatureClass.Conditional
       [probe_evidence uclamp_min EvidenceSource.CgroupV2 "cgroup uclamp minimum";
        probe_evidence uclamp_max EvidenceSource.CgroupV2 "cgroup uclamp maximum"] []]).

Definition detect_cgroup (cgroup : option ReadOnlyFileSystem.t) (procfs : ReadOnlyFileSystem.t) :
    option (CgroupFacts.t * list CapabilityFinding.t) :=
  membership ← read_text procfs "self/cgroup";
  match cgroup with
  | None =>
    Some (CgroupFacts.mk None [] [] None None None None None (probe_value membership),
          cgroup_unavailable_findings membership "cgroup root was not configured")
  | Some cgroup => detect_cgroup_root membership cgroup
  end.

Definition detect_gpu (sysfs : ReadOnlyFileSystem.t) (entry : DirectoryEntry.t) :
    option (GpuDeviceFacts.t * list CapabilityFinding.t) :=
  let name := entry.(DirectoryEntry.name) in
  let prefix := "class/drm/" +:+ name in
  uevent ← read_text sysfs (prefix +:+ "/uevent");
  vendor ← read_text sysfs (prefix +:+ "/device/vendor");
  device ← read_text sysfs (prefix +:+ "/device/device");
  class ← read_text sysfs (prefix +:+ "/device/class");
  let driver := value ← probe_value uevent; first_key value "DRIVER" in
  let status :=
    if bool_decide (entry.(DirectoryEntry.kind) = EntryKind.Symlink)
    then DiscoveryStatus.PresentButUnsupported
    else status_for_probes [(uevent, DiscoveryStatus.PresentButUnsupported);
                            (vendor, DiscoveryStatus.PresentButUnsupported)] in
  let evidence :=
    [CapabilityEvidence.mk EvidenceSource.Device ("DRM entry " +:+ name +:+ " was enumerated");
     probe_evidence uevent EvidenceSource.Device "DRM uevent";
     probe_evidence vendor EvidenceSource.Device "GPU vendor identifier"] in
  Some (GpuDeviceFacts.mk name (probe_value vendor) (probe_value device) (probe_value class) driver
          entry.(DirectoryEntry.kind),
        (λ id, finding id (Some ("gpu." +:+ name)) status FeatureClass.Experimental evidence [])
          <$> [capability_ids.GPU_PERFORMANCE_PROFILE; capability_ids.GPU_POWER_LIMIT; discovery_ids.GPU_DEVICE]).

(** The graphics cards of a listing. *)
Definition drm_cards (drm : Probe.t (list DirectoryEntry.t)) : list DirectoryEntry.t :=
  sort_by (cmp_by DirectoryEntry.name)
    (filter (λ entry, starts_with "card" entry.(DirectoryEntry.name) = true) (default [] (probe_value drm))).

Definition detect_gpus (sysfs : ReadOnlyFileSystem.t) : option (GpuFacts.t * list CapabilityFinding.t) :=
  drm ← list_names sysfs "class/drm";
  devices ← mapM (detect_gpu sysfs) (drm_cards drm);
  Some (GpuFacts.mk (fst <$> devices),
    concat (snd <$> devices)
    ++ if bool_decide (devices = [])
       then [finding discovery_ids.GPU_DEVICE None (status drm DiscoveryStatus.ReportOnly)
               FeatureClass.Experimental [probe_evidence drm EvidenceSource.Device "DRM class directory"] []]
       else []).

Definition detect_irq (procfs : ReadOnlyFileSystem.t) (irq : u32) :
    option (IrqEntryFacts.t * CapabilityFinding.t) :=
  affinity ← read_text procfs ("irq/" +:+ pretty irq +:+ "/smp_affinity_list");
  effective ← read_text procfs ("irq/" +:+ pretty irq +:+ "/effective_affinity_list");
  Some (IrqEntryFacts.mk irq (probe_value affinity) (probe_value effective),
    finding capability_ids.IRQ_AFFINITY (Some ("irq." +:+ pretty irq))
      (status_for_probes [(affinity, DiscoveryStatus.PresentButUnsupported);
                          (effective, DiscoveryStatus.PresentButUnsupported)])
      FeatureClass.Experimental
      [probe_evidence affinity EvidenceSource.Procfs "IRQ affinity list";
       probe_evidence effective EvidenceSource.Procfs "IRQ effective affinity list"] []).

Definition detect_irqs (procfs : ReadOnlyFileSystem.t) : option (IrqFacts.t * list CapabilityFinding.t) :=
  irq_root ← list_names procfs "irq";
  default_affinity ← read_text procfs "irq/default_smp_affinity";
  entries ← mapM (detect_irq procfs) (numbered irq_root "");
  Some (IrqFacts.mk (probe_value default_affinity) (fst <$> entries),
    (snd <$> entries)
    ++ [if bool_decide (entries = [])
        then finding discovery_ids.IRQ_METADATA None
               (combine_statuses [status irq_root DiscoveryStatus.ReportOnly;
                                  status default_affinity DiscoveryStatus.ReportOnly])
               FeatureClass.Experimental
               [probe_evidence irq_root EvidenceSource.Procfs "IRQ directory";
                probe_evidence default_affinity EvidenceSource.Procfs "default IRQ affinity"] []
        else finding discovery_ids.IRQ_METADATA None DiscoveryStatus.ReportOnly FeatureClass.Experimental
               [CapabilityEvidence.mk EvidenceSource.Procfs
                  (pretty (length entries) +:+ " IRQ entries were enumerated")] []]).

Definition zram_devices (zram_root : Probe.t (list DirectoryEntry.t)) : list string :=
  DirectoryEntry.name <$>
    filter (λ entry, entry.(DirectoryEntry.kind) = EntryKind.Directory
                     ∧ starts_with "zram" entry.(DirectoryEntry.name) = true)
      (default [] (probe_value zram_root)).

Definition detect_memory (sysfs procfs : ReadOnlyFileSystem.t) :
    option (MemoryFacts.t * list CapabilityFinding.t) :=
  thp_enabled ← read_text sysfs "kernel/mm/transparent_hugepage/enabled";
  thp_defrag ← read_text sysfs "kernel/mm/transparent_hugepage/defrag";
  meminfo ← read_text procfs "meminfo";
  swaps ← read_text procfs "swaps";
  zram_root ← list_names sysfs "class/block";
  zswap_enabled ← read_text sysfs "module/zswap/parameters/enabled";
  zswap_compressor ← read_text sysfs "module/zswap/parameters/compressor";
  zswap_zpool ← read_text sysfs "module/zswap/parameters/zpool";
  let devices := zram_devices zram_root in
  let meminfo_text := default "" (probe_value meminfo) in
  let swaps_text := default "" (probe_value swaps) in
  let report_only probes := status_for_probes ((λ probe : Probe.t string, (probe, DiscoveryStatus.ReportOnly)) <$> probes) in
  Some (MemoryFacts.mk (probe_value thp_enabled) (probe_value thp_defrag)
          (meminfo_value meminfo_text "SwapTotal") (meminfo_value meminfo_text "SwapFree")
          (length (filter (λ line, trim line ≠ "") (drop 1 (lines swaps_text))))
          devices (probe_value zswap_enabled) (probe_value zswap_compressor) (probe_value zswap_zpool),
    [finding discovery_ids.THP None (report_only [thp_enabled; thp_defrag]) FeatureClass.Conditional
       [probe_evidence thp_enabled EvidenceSource.Sysfs "THP enabled mode";
        probe_evidence thp_defrag EvidenceSource.Sysfs "THP defrag mode"] [];
     finding discovery_ids.SWAP None (status meminfo DiscoveryStatus.ReportOnly)
       FeatureClass.BootOnlyReportOnly
       [probe_evidence meminfo EvidenceSource.Procfs "procfs memory information";
        probe_evidence swaps EvidenceSource.Procfs "procfs swap table"] [];
     finding discovery_ids.ZRAM None
       (if bool_decide (devices = []) then status zram_root DiscoveryStatus.ReportOnly
        else DiscoveryStatus.ReportOnly)
       FeatureClass.Conditional [probe_evidence zram_root EvidenceSource.Sysfs "zram block devices"] [];
     finding discovery_ids.ZSWAP None (report_only [zswap_enabled; zswap_compressor; zswap_zpool])
       FeatureClass.Conditional
       [probe_evidence zswap_enabled EvidenceSource.Sysfs "zswap enabled";
        probe_evidence zswap_compressor EvidenceSource.Sysfs "zswap compressor";
        probe_evidence zswap_zpool EvidenceSource.Sysfs "zswap pool"] []]).

Definition detect_scheduler (procfs : ReadOnlyFileSystem.t) :
    option (SchedulerFacts.t * list CapabilityFinding.t) :=
  uclamp_min ← read_text procfs "sys/kernel/sched_util_clamp_min";
  uclamp_max ← read_text procfs "sys/kernel/sched_util_clamp_max";
  numa_balancing ← read_text procfs "sys/kernel/numa_balancing";
  energy_aware ← read_text procfs "sys/kernel/sched_energy_aware";
  pressure ← read_text procfs "pressure/cpu";
  let probes := [("sched_util_clamp_min", uclamp_min); ("sched_util_clamp_max", uclamp_max);
                 ("numa_balancing", numa_balancing); ("sched_energy_aware", energy_aware);
                 ("cpu_pressure", pressure)] in
  Some (SchedulerFacts.mk (fst <$> filter (λ '(_, probe), Probe.is_present probe = true) probes)
          (Probe.is_present pressure) (probe_value uclamp_min) (probe_value uclamp_max)
          (probe_value numa_balancing) (probe_value energy_aware),
    [finding discovery_ids.SCHEDULER None
       (status_for_probes ((λ '(_, probe), (probe, DiscoveryStatus.ReportOnly)) <$> probes))
       FeatureClass.Experimental
       ((λ '(name, probe), probe_evidence probe EvidenceSource.Procfs name) <$> probes) []]).

Definition detect_systemd (procfs : ReadOnlyFileSystem.t) (run : option ReadOnlyFileSystem.t) :
    option (SystemdFacts.t * list CapabilityFinding.t) :=
  init ← read_text procfs "1/comm";
  systemd_dir ← match run with
                | Some filesystem => list_names filesystem "systemd/system"
                | None => Some Probe.Missing
                end;
  let init_systemd := bool_decide (probe_value init = Some "systemd") in
  let dir_systemd := Probe.is_present systemd_dir in
  let present := init_systemd || dir_systemd in
  Some (SystemdFacts.mk present
          ((if init_systemd then ["PID 1 is named systemd"] else [])
           ++ if dir_systemd then ["/run/systemd/system is present"] else []),
    [finding discovery_ids.SYSTEMD None
       (if present then DiscoveryStatus.ReportOnly
        else if Probe.is_denied init || Probe.is_denied systemd_dir then DiscoveryStatus.PermissionDenied
        else if Probe.is_malformed init || Probe.is_malformed systemd_dir then DiscoveryStatus.Indeterminate
        else DiscoveryStatus.Unavailable)
       FeatureClass.BootOnlyReportOnly
       [probe_evidence init EvidenceSource.Procfs "PID 1 command name";
        probe_evidence systemd_dir EvidenceSource.Synthetic "systemd runtime directory"] []]).

(** ** The inventory and the report *)

(** The CPU operation a capability is changed by. *)
Definition cpu_operation (id : CapabilityId.t) : option string :=
  let id := id.(CapabilityId.as_str) in
  if bool_decide (id = capability_ids.CPU_POLICY_FREQUENCY_MIN)
     || bool_decide (id = capability_ids.CPU_POLICY_FREQUENCY_MAX) then Some "cpu.frequency"
  else if bool_decide (id = capability_ids.CPU_POLICY_GOVERNOR) then Some "cpu.governor"
  else if bool_decide (id = capability_ids.CPU_POLICY_ENERGY_PREFERENCE) then Some "cpu.energy_preference"
  else if bool_decide (id = capability_ids.CPU_BOOST) then Some "cpu.boost"
  else if bool_decide (id = capability_ids.PLATFORM_PROFILE) then Some "platform.profile"
  else None.

Definition descriptor_state (offered : bool) (status : DiscoveryStatus.t) : CapabilityState.t :=
  match status with
  | DiscoveryStatus.Supported => if offered then CapabilityState.Available else CapabilityState.ReadOnly
  | DiscoveryStatus.PresentButUnsupported | DiscoveryStatus.ReportOnly => CapabilityState.ReadOnly
  | DiscoveryStatus.Unavailable => CapabilityState.Unsupported
  | DiscoveryStatus.PermissionDenied => CapabilityState.Denied
  | DiscoveryStatus.Indeterminate => CapabilityState.Indeterminate
  end.

Definition class_risk (c : FeatureClass.t) : RiskClass.t :=
  match c with
  | FeatureClass.RuntimeMutable | FeatureClass.Conditional => RiskClass.Medium
  | FeatureClass.Experimental => RiskClass.Critical
  | FeatureClass.BootOnlyReportOnly => RiskClass.Low
  end.

(** [add_descriptor_for_finding] *)
Definition descriptor_for_finding (target_kind : TargetKind.t) (f : CapabilityFinding.t) :
    CapabilityDescriptor.t :=
  let operation := cpu_operation f.(CapabilityFinding.id) in
  let offered := is_some operation in
  let classification := f.(CapabilityFinding.classification) in
  let privilege := if offered then PrivilegeRequirement.PrivilegedMutation else PrivilegeRequirement.ReadOnly in
  CapabilityDescriptor.mk f.(CapabilityFinding.id)
    (BackendId.mk (if offered then CPU_BACKEND_ID else DISCOVERY_BACKEND)) target_kind
    (descriptor_state offered f.(CapabilityFinding.status))
    (match operation with
     | Some operation => [OperationDescriptor.mk (OperationId.mk operation)
                            PrivilegeRequirement.PrivilegedMutation EqualityKind.ScalarExact classification]
     | None => []
     end)
    privilege (if offered then EqualityKind.ScalarExact else EqualityKind.ByteExact)
    (class_risk classification) classification f.(CapabilityFinding.evidence).

Definition has_id (ids : list string) (f : CapabilityFinding.t) : Prop :=
  f.(CapabilityFinding.id).(CapabilityId.as_str) ∈ ids.
#[export] Instance has_id_dec ids f : Decision (has_id ids f).
Proof. unfold has_id. apply _. Defined.

Definition cpufreq_target_kind (f : CapabilityFinding.t) : TargetKind.t :=
  if bool_decide (has_id [capability_ids.CPU_BOOST; capability_ids.PLATFORM_PROFILE] f)
  then TargetKind.CpuSystem else TargetKind.CpuPolicy.

Definition CGROUP_PLANNED : list string :=
  [capability_ids.CGROUP_CPU_WEIGHT; capability_ids.CGROUP_CPU_MAX; capability_ids.CGROUP_CPUSET_CPUS].
Definition GPU_PLANNED : list string :=
  [capability_ids.GPU_PERFORMANCE_PROFILE; capability_ids.GPU_POWER_LIMIT].
Definition IRQ_PLANNED : list string := [capability_ids.IRQ_AFFINITY].

Definition finding_key (f : CapabilityFinding.t) : string * option string :=
  (f.(CapabilityFinding.id).(CapabilityId.as_str), TargetId.as_str <$> f.(CapabilityFinding.target)).
Definition descriptor_key (d : CapabilityDescriptor.t) : string * string :=
  (d.(CapabilityDescriptor.id).(CapabilityId.as_str), d.(CapabilityDescriptor.backend).(BackendId.as_str)).

(** [CapabilityDiscovery::discover] after the clock was read. *)
Definition discover_at (sources : DiscoverySources.t) (observed_at : Timestamp.t) : option DiscoveryReport.t :=
  let sysfs := sources.(DiscoverySources.sysfs) in
  let procfs := sources.(DiscoverySources.procfs) in
  '(environment, environment_status, environment_evidence) ← detect_environment procfs;
  '(cpufreq, cpufreq_findings) ← detect_cpufreq sysfs;
  '(topology, topology_findings) ← detect_topology sysfs;
  '(numa, numa_findings) ← detect_numa sysfs;
  '(cgroup, cgroup_findings) ← detect_cgroup sources.(DiscoverySources.cgroup) procfs;
  '(gpu, gpu_findings) ← detect_gpus sysfs;
  '(irq, irq_findings) ← detect_irqs procfs;
  '(memory, memory_findings) ← detect_memory sysfs procfs;
  '(scheduler, scheduler_findings) ← detect_scheduler procfs;
  '(systemd, systemd_findings) ← detect_systemd procfs sources.(DiscoverySources.run);
  let findings :=
    [finding discovery_ids.KERNEL_ENVIRONMENT None environment_status FeatureClass.BootOnlyReportOnly
       environment_evidence []]
    ++ cpufreq_findings ++ topology_findings ++ numa_findings ++ cgroup_findings ++ gpu_findings
    ++ irq_findings ++ memory_findings ++ scheduler_findings ++ systemd_findings in
  let descriptors :=
    ((λ f, descriptor_for_finding (cpufreq_target_kind f) f) <$> cpufreq_findings)
    ++ (descriptor_for_finding TargetKind.Cgroup <$> filter (has_id CGROUP_PLANNED) cgroup_findings)
    ++ (descriptor_for_finding TargetKind.Gpu <$> filter (has_id GPU_PLANNED) gpu_findings)
    ++ (descriptor_for_finding TargetKind.Irq <$> filter (has_id IRQ_PLANNED) irq_findings) in
  Some (DiscoveryReport.mk observed_at environment cpufreq topology numa cgroup gpu irq memory scheduler
          systemd (sort_by (cmp_by finding_key) findings)
          (CapabilityInventory.mk observed_at (sort_by (cmp_by descriptor_key) descriptors))).

Section Discover.
Context {C : Type} `{!Clock.t C}.

Definition discover (sources : DiscoverySources.t) (clock : C) : option (Result DiscoveryReport.t * C) :=
  match Clock.now clock with
  | (Ok observed_at, clock) => report ← discover_at sources observed_at; Some (Ok report, clock)
  | (Err e, clock) => Some (Err e, clock)
  end.

(** The [CapabilityDetector] implementation. *)
Definition detect (sources : DiscoverySources.t) (clock : C) :
    option (Result CapabilityInventory.t * C) :=
  match discover sources clock with
  | Some (report, clock) => Some (DiscoveryReport.inventory <$> report, clock)
  | None => None
  end.
End Discover.
