(* ===== verification/DiscoveryState.v ===== *)
(** * The planner's view of a discovery report ([sysboost-linux/src/discovery.rs])

    [DiscoveryReport::current_state] turns the observed texts into typed
    facts.  A text that the vocabulary does not accept gives no fact, except
    where the source expects it to be accepted: there the projection panics,
    which is [None]. *)
From Stdlib Require Import Strings.Byte Strings.Ascii.
From stdpp Require Import pretty.
From S2P Require Import Prelude Lists Text Str Ids Capability Mutation.
From S2P Require Import Decision Policy Topology Digest ReadPorts Cpu Discovery.
Local Open Scope N_scope.

(** [Result::expect], with [None] for the panic. *)
Notation expect := ok (only parsing).

Definition parse_energy_preference (value : string) : option EnergyPreference.t :=
  if bool_decide (value = "performance") then Some EnergyPreference.Performance
  else if bool_decide (value = "balance_performance") then Some EnergyPreference.BalancePerformance
  else if bool_decide (value = "balance_power") then Some EnergyPreference.BalancePower
  else if bool_decide (value = "power") then Some EnergyPreference.Power
  else None.

Definition parse_cpu_boost (interface : CpuBoostInterface.t) (value : string) : option CpuBoostState.t :=
  let value := trim value in
  let (on, off) := match interface with
                   | CpuBoostInterface.Boost => ("1", "0")
                   | CpuBoostInterface.NoTurbo => ("0", "1")
                   end in
  if bool_decide (value = on) then Some CpuBoostState.Enabled
  else if bool_decide (value = off) then Some CpuBoostState.Disabled
  else None.

Definition observed_cpu_max (value : option string) : option (CpuQuota.t * CpuPeriod.t) :=
  text ← value;
  match split_whitespace text with
  | quota :: period :: _ =>
    quota ← (if bool_decide (quota = "max") then Some CpuQuota.Max
             else value ← parse_uint 64 quota; ok (CpuQuota.micros value));
    period ← parse_uint 64 period;
    period ← ok (CpuPeriod.new period);
    Some (quota, period)
  | _ => None
  end.

(** The CPUs of one part of a list. *)
Definition cpu_set_part (part : string) : option (list u32) :=
  match split_once "-" part with
  | Some (first, last) =>
    first ← parse_uint 32 (trim first);
    last ← parse_uint 32 (trim last);
    if (last <? first) || (4096 <? last - first) then None else Some (range_inclusive first last)
  | None => cpu ← parse_uint 32 (trim part); Some [cpu]
  end.
Definition parse_cpu_set (value : string) : option CpuSet.t :=
  cpus ← mapM cpu_set_part (split_on "," value); ok (CpuSet.new (concat cpus)).

Definition known_fact (capability : string) (target : TargetId.t) (control : ControlId.t)
    (value : PlanValue.t) : CurrentStateFact.t :=
  CurrentStateFact.known (CapabilityId.mk capability) target control value (fingerprint_for_value value).

(** The fact of a value that may be absent, and one that may panic. *)
Definition fact_of {A} (value : option A) (fact : A → CurrentStateFact.t) : list CurrentStateFact.t :=
  match value with Some value => [fact value] | None => [] end.
Definition try_fact_of {A} (value : option A) (fact : A → option CurrentStateFact.t) :
    option (list CurrentStateFact.t) :=
  match value with Some value => fact ← fact value; Some [fact] | None => Some [] end.

Definition add_observed_text_fact (value : option string) (capability target : string)
    (control : ControlId.t) : list CurrentStateFact.t :=
  fact_of (value ← value; ok (ObservedText.new value))
    (λ text, known_fact capability (TargetId.mk target) control (PlanValue.Text text)).

(** ** CPU *)

Definition with_policy (policy : CpuFreqPolicyFacts.t) (fact : CurrentStateFact.t) : CurrentStateFact.t :=
  fact |> CurrentStateFact.with_optional_target_identity policy.(CpuFreqPolicyFacts.target_identity)
       |> CurrentStateFact.with_typed_target
            (TypedTarget.CpuPolicy (CpuPolicyId.new policy.(CpuFreqPolicyFacts.id))).

Definition governor_value (text : string) : option PlanValue.t :=
  (λ governor, PlanValue.Typed (TypedValue.Governor governor)) <$> ok (GovernorId.new text).
Definition policy_governor_fact (policy : CpuFreqPolicyFacts.t) (target : TargetId.t) :
    list CurrentStateFact.t :=
  fact_of (policy.(CpuFreqPolicyFacts.current_governor) ≫= governor_value)
    (λ value,
       known_fact capability_ids.CPU_POLICY_GOVERNOR target ControlId.CpuGovernor value
       |> CurrentStateFact.with_supported_values
            (omap governor_value policy.(CpuFreqPolicyFacts.available_governors))
       |> with_policy policy).

Definition energy_value (text : string) : option PlanValue.t :=
  (λ preference, PlanValue.Typed (TypedValue.EnergyPreference preference)) <$> parse_energy_preference text.
(** A preference outside the vocabulary is kept as observed text, which the
    source expects to be bounded. *)
Definition observed_energy_value (text : string) : option PlanValue.t :=
  match energy_value text with
  | Some value => Some value
  | None => PlanValue.Text <$> expect (ObservedText.new text)
  end.
Definition policy_energy_fact (policy : CpuFreqPolicyFacts.t) (target : TargetId.t) :
    option (list CurrentStateFact.t) :=
  try_fact_of policy.(CpuFreqPolicyFacts.energy_performance_preference)
    (λ text,
       value ← observed_energy_value text;
       Some (known_fact capability_ids.CPU_POLICY_ENERGY_PREFERENCE target ControlId.CpuEnergyPreference value
             |> CurrentStateFact.with_supported_values
                  (omap energy_value policy.(CpuFreqPolicyFacts.energy_performance_choices))
             |> with_policy policy)).

Definition frequency_value (policy : CpuFreqPolicyFacts.t) : option PlanValue.t :=
  min_khz ← policy.(CpuFreqPolicyFacts.min_khz); max_khz ← policy.(CpuFreqPolicyFacts.max_khz);
  min_khz ← ok (FrequencyKHz.new min_khz); max_khz ← ok (FrequencyKHz.new max_khz);
  Some (PlanValue.Typed (TypedValue.CpuFrequency (Some min_khz) (Some max_khz))).
Definition policy_frequency_fact (policy : CpuFreqPolicyFacts.t) (target : TargetId.t) :
    list CurrentStateFact.t :=
  fact_of (frequency_value policy)
    (λ value, known_fact capability_ids.CPU_POLICY_FREQUENCY_MAX target ControlId.CpuFrequency value
              |> with_policy policy).

(** One iteration of the loop over the policies. *)
Definition policy_facts (policy : CpuFreqPolicyFacts.t) : option (list CurrentStateFact.t) :=
  target ← expect (TargetId.new ("cpu.policy." +:+ pretty policy.(CpuFreqPolicyFacts.id)));
  energy ← policy_energy_fact policy target;
  Some (policy_governor_fact policy target ++ energy ++ policy_frequency_fact policy target).

Definition boost_value (cpufreq : CpuFreqFacts.t) : option CpuBoostState.t :=
  value ← cpufreq.(CpuFreqFacts.boost); interface ← cpufreq.(CpuFreqFacts.boost_interface);
  parse_cpu_boost interface value.
Definition boost_fact (cpufreq : CpuFreqFacts.t) : list CurrentStateFact.t :=
  fact_of (identity ← cpufreq.(CpuFreqFacts.boost_target_identity);
           state ← boost_value cpufreq; Some (state, identity))
    (λ '(state, identity),
       known_fact capability_ids.CPU_BOOST (TargetId.mk "system.cpu.boost") ControlId.CpuBoost
         (PlanValue.Typed (TypedValue.CpuBoost state))
       |> CurrentStateFact.with_supported_values
            [PlanValue.Typed (TypedValue.CpuBoost CpuBoostState.Enabled);
             PlanValue.Typed (TypedValue.CpuBoost CpuBoostState.Disabled)]
       |> CurrentStateFact.with_target_identity identity
       |> CurrentStateFact.with_typed_target TypedTarget.CpuSystem).

Definition profile_value (text : string) : option PlanValue.t :=
  (λ profile, PlanValue.Typed (TypedValue.PlatformProfile profile)) <$> ok (PlatformProfileId.new text).
Definition platform_fact (cpufreq : CpuFreqFacts.t) : list CurrentStateFact.t :=
  fact_of (identity ← cpufreq.(CpuFreqFacts.platform_profile_target_identity);
           current ← cpufreq.(CpuFreqFacts.platform_profile) ≫= profile_value; Some (current, identity))
    (λ '(current, identity),
       known_fact capability_ids.PLATFORM_PROFILE (TargetId.mk "system.platform.profile")
         ControlId.PlatformProfile current
       |> CurrentStateFact.with_supported_values
            (omap profile_value cpufreq.(CpuFreqFacts.platform_profile_choices))
       |> CurrentStateFact.with_target_identity identity
       |> CurrentStateFact.with_typed_target TypedTarget.CpuSystem).

(** ** Cgroups and interrupts *)

Definition cgroup_current : TargetId.t := TargetId.mk "cgroup.current".

(** A typed fact about the inspected cgroup. *)
Definition cgroup_fact (capability : string) (control : ControlId.t) (value : TypedValue.t) :
    CurrentStateFact.t :=
  known_fact capability cgroup_current control (PlanValue.Typed value)
  |> CurrentStateFact.with_typed_target (TypedTarget.Cgroup (CgroupId.new 0 0 cgroup_current)).

Definition cgroup_weight_value (cgroup : CgroupFacts.t) : option CpuWeight.t :=
  text ← cgroup.(CgroupFacts.cpu_weight); value ← parse_uint 16 text; ok (CpuWeight.new value).

(** The two clamps as one text, which the source expects to be bounded. *)
Definition uclamp_text (cgroup : CgroupFacts.t) : option string :=
  minimum ← cgroup.(CgroupFacts.uclamp_min); maximum ← cgroup.(CgroupFacts.uclamp_max);
  Some ("min=" +:+ minimum +:+ " max=" +:+ maximum).

Definition cgroup_facts (cgroup : CgroupFacts.t) : option (list CurrentStateFact.t) :=
  let weight := fact_of (cgroup_weight_value cgroup)
    (λ weight, cgroup_fact capability_ids.CGROUP_CPU_WEIGHT ControlId.CgroupCpuWeight
                 (TypedValue.CgroupCpuWeight weight)) in
  let max := fact_of (observed_cpu_max cgroup.(CgroupFacts.cpu_max))
    (λ '(quota, period), cgroup_fact capability_ids.CGROUP_CPU_MAX ControlId.CgroupCpuMax
                           (TypedValue.CgroupCpuMax quota period)) in
  let cpuset := fact_of (cgroup.(CgroupFacts.cpuset_cpus) ≫= parse_cpu_set)
    (λ cpus, cgroup_fact capability_ids.CGROUP_CPUSET_CPUS ControlId.CgroupCpuset
               (TypedValue.CgroupCpuset cpus)) in
  uclamp ← try_fact_of (uclamp_text cgroup)
    (λ text, text ← expect (ObservedText.new text);
             Some (known_fact capability_ids.CGROUP_UCLAMP cgroup_current ControlId.CgroupUclamp
                     (PlanValue.Text text)));
  Some (weight ++ max ++ cpuset ++ uclamp).

Definition irq_fact (irq : IrqEntryFacts.t) : option (list CurrentStateFact.t) :=
  try_fact_of (irq.(IrqEntryFacts.affinity) ≫= parse_cpu_set)
    (λ cpus,
       target ← expect (TargetId.new ("irq." +:+ pretty irq.(IrqEntryFacts.irq)));
       Some (known_fact capability_ids.IRQ_AFFINITY target ControlId.IrqAffinity
               (PlanValue.Typed (TypedValue.IrqAffinity cpus))
             |> CurrentStateFact.with_typed_target (TypedTarget.Irq (IrqId.new irq.(IrqEntryFacts.irq))))).

(** ** The projection *)

Definition state_facts (r : DiscoveryReport.t) : option (list CurrentStateFact.t) :=
  let cpufreq := r.(DiscoveryReport.cpufreq) in
  policies ← mapM policy_facts cpufreq.(CpuFreqFacts.policies);
  cgroup ← cgroup_facts r.(DiscoveryReport.cgroup);
  irqs ← mapM irq_fact r.(DiscoveryReport.irq).(IrqFacts.entries);
  Some (concat policies ++ boost_fact cpufreq ++ platform_fact cpufreq
        ++ add_observed_text_fact r.(DiscoveryReport.memory).(MemoryFacts.thp_enabled)
             capability_ids.MEMORY_THP "system" ControlId.TransparentHugePages
        ++ cgroup ++ concat irqs).

(** [DiscoveryReport::current_state] *)
Definition current_state (r : DiscoveryReport.t) : option (Result CurrentState.t) :=
  facts ← state_facts r; Some (CurrentState.new r.(DiscoveryReport.observed_at) facts).
