(* ===== verification/ReadPortsLaws.v ===== *)
(** * Laws of the read-only ports

    A path that was accepted has only components that name something below
    its directory, and the rooted adapter depends on nothing of the host but
    what is at or below its root. *)
From Stdlib Require Import Strings.Byte Strings.Ascii.
From stdpp Require Import pretty.
From S2P Require Import Prelude Lists Text Str Ids Mutation FileSystem CgroupSysfs ReadPorts.
Local Open Scope N_scope.
Unset Default Proof Using.

(** ** Paths *)

Lemma relative_path_Ok s p :
  RelativePath.new s = Ok p →
  p = RelativePath.mk s ∧ 1 ≤ str_len s ≤ 256 ∧ all_chars path_char s = true
  ∧ Forall (λ c, plain_component c = true) (split_on "/" s).
Proof.
  unfold RelativePath.new. destruct (N.eqb_spec (str_len s) 0); [done|]. cbn [orb].
  destruct (N.ltb_spec 256 (str_len s)); [done|]. destruct (starts_with "/" s); [done|]. cbn [orb].
  destruct (all_chars path_char s); [|done]. cbn [negb].
  destruct (forallb plain_component (split_on "/" s)) eqn:Hp; [|done]. cbn.
  intros [= <-]. split_and!; [done|lia|lia|done|]. apply Forall_forall. intros c Hc.
  rewrite forallb_forall in Hp. by apply Hp, list_elem_of_In.
Qed.

Lemma split_on_lacks_sep c s : Forall (λ w, lacks c w = true) (split_on c s).
Proof.
  induction s as [|a s IH]; cbn [split_on]; [by repeat constructor|].
  case_bool_decide as Ha; [by constructor|]. destruct (split_on_cons c s) as (w & ws & Hs).
  rewrite Hs in IH |- *. inversion_clear IH as [|? ? Hw Hws]. constructor; [|done].
  unfold lacks in *. cbn. by rewrite bool_decide_eq_false_2.
Qed.

(** A component that cannot leave its directory. *)
Definition stays_below (c : string) : Prop := c ≠ "" ∧ c ≠ "." ∧ c ≠ ".." ∧ lacks "/" c = true.

Lemma components_stay_below s p : RelativePath.new s = Ok p → Forall stays_below (RelativePath.components p).
Proof.
  intros (-> & _ & _ & Hp)%relative_path_Ok. unfold RelativePath.components. cbn.
  pose proof (split_on_lacks_sep "/" s) as Hl. rewrite Forall_forall in *. intros c Hc.
  specialize (Hp c Hc). specialize (Hl c Hc). unfold plain_component in Hp. unfold stays_below.
  apply negb_true_iff in Hp. rewrite !orb_false_iff, !bool_decide_eq_false in Hp. naive_solver.
Qed.

(** The closed procfs nodes are paths, so reading one does not panic. *)
Lemma procfs_paths node : ProcfsNode.relative_path node = Some (RelativePath.mk (ProcfsNode.text node)).
Proof. by destruct node. Qed.

(** The path the adapter of other systems expects to be valid never is. *)
Lemma metadata_path_rejected s : is_ok (RelativePath.new ("metadata:" +:+ s)) = false.
Proof.
  destruct (RelativePath.new _) as [p|] eqn:Hp; [|done]. apply relative_path_Ok in Hp as (_ & _ & Hc & _).
  rewrite all_chars_app in Hc. by vm_compute in Hc.
Qed.

(** The alphabet of identifiers has no slash, so a failed sysfs read always
    names the fallback target. *)
Lemma sysfs_target_fallback p a b :
  p.(RelativePath.as_str) = a +:+ String "/" b → sysfs_target p = TargetId.mk "sysfs.node".
Proof.
  intros Hp. unfold sysfs_target. destruct (TargetId.new _) as [t|e] eqn:Ht; [|done].
  apply TargetId_new_Ok in Ht as [Ht _]. exfalso. rewrite Hp in Ht. unfold valid_text in Ht.
  rewrite !andb_true_iff in Ht. destruct Ht as [_ Ht]. rewrite !bytes_of_string_app in Ht.
  change (bytes_of_string (String "/" b)) with (x2f :: bytes_of_string b) in Ht.
  rewrite !forallb_app in Ht. cbn in Ht. by rewrite !andb_false_r in Ht.
Qed.

(** ** The rooted adapter *)

(** [canonicalize] gives canonical paths. *)
Module HostViewLaws.
Class t (v : HostView.t) := {
  canonical p q : HostView.canonicalize v p = Ok q → HostView.canonicalize v q = Ok q
}.
End HostViewLaws.

(** Two hosts that agree at and below a path, and on what a name means. *)
Record agree_below (root : Path) (v w : HostView.t) : Prop := {
  agree_canonicalize p : HostView.canonicalize v p = HostView.canonicalize w p;
  agree_error kind : HostView.error_text v kind = HostView.error_text w kind;
  agree_stat p : path_starts_with root p = true →
    Host.stat v.(HostView.host) p = Host.stat w.(HostView.host) p;
  agree_read p : path_starts_with root p = true →
    Host.read v.(HostView.host) p = Host.read w.(HostView.host) p;
  agree_read_dir p : path_starts_with root p = true →
    Host.read_dir v.(HostView.host) p = Host.read_dir w.(HostView.host) p;
  agree_size p : path_starts_with root p = true → v.(HostView.size) p = w.(HostView.size) p
}.

Lemma path_starts_with_refl root : path_starts_with root root = true.
Proof. destruct root; cbn; by rewrite bool_decide_eq_true_2. Qed.
Lemma path_starts_with_join root p c : path_starts_with root p = true → path_starts_with root (join p c) = true.
Proof. intros Hp. cbn. by rewrite Hp, orb_true_r. Qed.

(** The paths the component walk inspects. *)
Fixpoint walked (candidate : Path) (components : list string) : list Path :=
  match components with
  | [] => []
  | c :: rest => join candidate c :: walked (join candidate c) rest
  end.

Definition not_symlink (v : HostView.t) (p : Path) : Prop :=
  ∃ m, Host.stat v.(HostView.host) p = Ok m ∧ m.(Metadata.file_type) ≠ FileType.Symlink.

Lemma resolve_components_walked v cs : ∀ p q,
  resolve_components v p cs = Ok q → Forall (not_symlink v) (walked p cs).
Proof.
  induction cs as [|c cs IH]; intros p q; cbn [resolve_components walked]; [constructor|].
  destruct (Host.stat _ (join p c)) as [m|] eqn:Hm; [|done]. cbn.
  destruct (FileType.is_symlink m.(Metadata.file_type)) eqn:Hs; [done|]. intros Hq.
  constructor; [|by eapply IH]. exists m. split; [done|]. unfold FileType.is_symlink in Hs.
  by apply bool_decide_eq_false in Hs.
Qed.

Lemma mapM_result_ext {E A B} (f g : A → result E B) l : (∀ a, f a = g a) → mapM f l = mapM g l.
Proof. intros Hfg. induction l as [|a l IH]; [done|]. cbn. rewrite Hfg. by destruct (g a); cbn; [rewrite IH|]. Qed.

Section Confined.
Context (v w : HostView.t) `{!HostViewLaws.t v} (root : Path).
Context (agree : agree_below root v w) (canonical_root : HostView.canonicalize v root = Ok root).
Let x : RootedFilesystem.t := RootedFilesystem.mk root.

Lemma adapter_error_agree {A} code message (r : io A) :
  adapter_error v code message r = adapter_error w code message r.
Proof. destruct r as [|kind]; [done|]. cbn. by rewrite (agree_error _ _ _ agree). Qed.

Lemma resolve_components_agree cs : ∀ p,
  path_starts_with root p = true → resolve_components v p cs = resolve_components w p cs.
Proof.
  induction cs as [|c cs IH]; intros p Hp; [done|]. cbn [resolve_components].
  assert (path_starts_with root (join p c) = true) as Hj by by apply path_starts_with_join.
  rewrite adapter_error_agree, (agree_stat _ _ _ agree) by done.
  destruct (Host.stat _ _) as [m|]; [|done]. cbn. destruct (FileType.is_symlink _); [done|]. by apply IH.
Qed.

Lemma resolve_existing_agree p : resolve_existing v x p = resolve_existing w x p.
Proof.
  unfold resolve_existing. cbn. rewrite resolve_components_agree by apply path_starts_with_refl.
  destruct (resolve_components w root _) as [q|]; [|done]. cbn.
  by rewrite adapter_error_agree, (agree_canonicalize _ _ _ agree).
Qed.

Lemma resolve_existing_below p q :
  resolve_existing v x p = Ok q → path_starts_with root q = true ∧ HostView.canonicalize v q = Ok q.
Proof.
  unfold resolve_existing. cbn. destruct (resolve_components v root _) as [c|]; [|done]. cbn.
  destruct (HostView.canonicalize v c) as [r|] eqn:Hr; [|done]. cbn.
  destruct (path_starts_with root r) eqn:Hs; [|done]. cbn. intros [= <-]. split; [done|].
  by eapply HostViewLaws.canonical.
Qed.

Lemma metadata_agree q :
  path_starts_with root q = true → HostView.canonicalize v q = Ok q →
  HostView.metadata v q = HostView.metadata w q.
Proof.
  intros Hs Hq. unfold HostView.metadata. rewrite <-(agree_canonicalize _ _ _ agree), Hq. cbn.
  by apply (agree_stat _ _ _ agree).
Qed.

Lemma rooted_read_agree p : rooted_read v x p = rooted_read w x p.
Proof.
  unfold rooted_read. rewrite <-resolve_existing_agree. destruct (resolve_existing v x p) as [q|] eqn:Hq; [|done].
  cbn. apply resolve_existing_below in Hq as [Hs _]. by rewrite adapter_error_agree, (agree_read _ _ _ agree).
Qed.

Lemma rooted_metadata_agree p : rooted_metadata v x p = rooted_metadata w x p.
Proof.
  unfold rooted_metadata. rewrite <-resolve_existing_agree.
  destruct (resolve_existing v x p) as [q|] eqn:Hq; [|done]. cbn.
  apply resolve_existing_below in Hq as [Hs Hc]. rewrite adapter_error_agree, metadata_agree by done.
  by rewrite (agree_size _ _ _ agree).
Qed.

Lemma rooted_identity_agree p : rooted_identity v x p = rooted_identity w x p.
Proof.
  unfold rooted_identity. rewrite <-resolve_existing_agree.
  destruct (resolve_existing v x p) as [q|] eqn:Hq; [|done]. cbn.
  apply resolve_existing_below in Hq as [Hs _]. by rewrite adapter_error_agree, (agree_stat _ _ _ agree).
Qed.

Lemma rooted_list_agree p : rooted_list v x p = rooted_list w x p.
Proof.
  unfold rooted_list.
  assert (match p with Some p => resolve_existing w x p | None => Ok (RootedFilesystem.root x) end
          = match p with Some p => resolve_existing v x p | None => Ok (RootedFilesystem.root x) end) as ->.
  { destruct p; [|done]. by rewrite resolve_existing_agree. }
  destruct (match p with Some _ => _ | None => _ end) as [d|] eqn:Hd; [|done]. cbn.
  assert (path_starts_with root d = true ∧ HostView.canonicalize v d = Ok d) as [Hs Hc].
  { destruct p; [by eapply resolve_existing_below|]. injection Hd as <-. cbn.
    by rewrite path_starts_with_refl. }
  rewrite (adapter_error_agree (A := Metadata.t)), metadata_agree by done.
  destruct (HostView.metadata w d) as [m|]; [|done]. cbn. destruct (FileType.is_dir _); [|done]. cbn.
  rewrite (agree_read_dir _ _ _ agree) by done.
  rewrite ?(adapter_error_agree (A := list string)).
  destruct (Host.read_dir _ d) as [names|]; [|done]. cbn. f_equal. apply mapM_result_ext. intros name.
  unfold rooted_entry. by rewrite adapter_error_agree, (agree_stat _ _ _ agree) by by apply path_starts_with_join.
Qed.
End Confined.

(** ** The adapter is confined to its root *)

(** C20. Every component of a path the port accepts stays below its directory; a
    read that succeeds inspected every node on the way and none was a symbolic
    link; and two hosts that agree at and below the root give the same answer
    to every call of the adapter, whatever they hold elsewhere. *)
Theorem rooted_adapter_confined v w `{!HostViewLaws.t v} root s p
    (Hpath : RelativePath.new s = Ok p)
    (Hroot : HostView.canonicalize v root = Ok root) (Hagree : agree_below root v w) :
  let x := RootedFilesystem.mk root in
  Forall stays_below (RelativePath.components p)
  ∧ (∀ bytes, rooted_read v x p = Ok bytes → Forall (not_symlink v) (walked root (RelativePath.components p)))
  ∧ rooted_read v x p = rooted_read w x p
  ∧ rooted_metadata v x p = rooted_metadata w x p
  ∧ rooted_identity v x p = rooted_identity w x p
  ∧ rooted_list v x (Some p) = rooted_list w x (Some p)
  ∧ rooted_list v x None = rooted_list w x None.
Proof.
  cbn zeta. split_and!.
  - by eapply components_stay_below.
  - intros bytes. unfold rooted_read, resolve_existing. cbn.
    destruct (resolve_components v root _) as [c|] eqn:Hc; [|done]. intros _.
    by eapply resolve_components_walked.
  - by apply rooted_read_agree.
  - by apply rooted_metadata_agree.
  - by apply rooted_identity_agree.
  - by apply rooted_list_agree.
  - by apply rooted_list_agree.
Qed.

(** ** The two fixtures *)

Lemma below_not_self s : strip_prefix (s +:+ "/") s = None.
Proof.
  destruct (strip_prefix _ s) as [r|] eqn:Hr; [|done]. apply strip_prefix_Some in Hr.
  apply (f_equal String.length) in Hr. rewrite !str_length_app in Hr. cbn in Hr. lia.
Qed.
(** The walk over the files, as the listing of the fixture states it. *)
Lemma listing_steps paths q : ∀ path_exists entries,
  foldl (MemoryFileSystem.list_step (RelativePath.as_str <$> q)) (path_exists, entries) paths
  = (path_exists || match q with
                    | Some p => bool_decide (p ∈ paths)
                                || negb (bool_decide (omap (FixtureFilesystem.remainder q) paths = []))
                    | None => false
                    end,
     foldl FixtureFilesystem.list_entry entries (omap (FixtureFilesystem.remainder q) paths)).
Proof.
  induction paths as [|[name] paths IH]; intros e entries; [destruct q; cbn; by rewrite orb_false_r|].
  cbn [foldl omap list_omap]. destruct q as [[p]|]; [|apply IH].
  assert (bool_decide (RelativePath.mk p ∈ RelativePath.mk name :: paths)
          = bool_decide (name = p) || bool_decide (RelativePath.mk p ∈ paths)) as ->.
  { apply Bool.eq_iff_eq_true. rewrite orb_true_iff, !bool_decide_eq_true, elem_of_cons.
    split; (intros [H|H]; [left|by right]); congruence. }
  cbn [fmap option_fmap option_map MemoryFileSystem.list_step RelativePath.as_str FixtureFilesystem.remainder] in *.
  unfold FixtureFilesystem.below in *. cbn [RelativePath.as_str] in *.
  destruct (bool_decide_reflect (name = p)) as [Hn|Hn].
  - rewrite IH, Hn, below_not_self. by rewrite !orb_true_r.
  - destruct (strip_prefix (p +:+ "/") name) as [r|]; rewrite IH; [|done].
    rewrite (bool_decide_eq_false_2 (_ :: _ = [])) by done. cbn. by rewrite !orb_true_r.
Qed.

(** Given the same files the memory file system of the test kit and the
    fixture of the adapters read and list alike, up to the text of an error. *)
Theorem fixtures_agree files p q :
  ok (MemoryFileSystem.read (MemoryFileSystem.mk files) p)
  = ok (FixtureFilesystem.read (FixtureFilesystem.mk files) p)
  ∧ ok (MemoryFileSystem.metadata (MemoryFileSystem.mk files) p)
    = ok (FixtureFilesystem.metadata (FixtureFilesystem.mk files) p)
  ∧ ok (MemoryFileSystem.list_dir (MemoryFileSystem.mk files) q)
    = ok (FixtureFilesystem.list_dir (FixtureFilesystem.mk files) q).
Proof.
  split_and!.
  1,2: unfold MemoryFileSystem.read, MemoryFileSystem.metadata, FixtureFilesystem.read, FixtureFilesystem.metadata;
    cbn; by destruct (map_get p files).
  unfold MemoryFileSystem.list_dir, FixtureFilesystem.list_dir. cbn [MemoryFileSystem.files FixtureFilesystem.files].
  rewrite listing_steps. cbn. destruct q as [q|]; [|done].
  destruct (is_some _); [done|]. cbn. by destruct (_ || _).
Qed.
