(* ===== verification/DiscoveryLaws.v ===== *)
(** * Laws of discovery

    The read-only adapters see nothing outside their root; discovery panics
    on no path but one built from the name of a graphics card; the inventory
    is the planned findings, each described truthfully; and when the projection to the planner's current
    state panics. *)
From Stdlib Require Import Strings.Byte Strings.Ascii.
From stdpp Require Import pretty.
From S2P Require Import Prelude Lists Text Str Ids Capability Mutation MutationLaws.
From S2P Require Import Decision Policy Ports FileSystem CgroupSysfs ReadPorts Topology Digest Cpu Discovery DiscoveryState.
Local Open Scope N_scope.
Unset Default Proof Using.

(** ** Paths *)

Lemma split_on_sep c l r : split_on c (l +:+ String c r) = split_on c l ++ split_on c r.
Proof.
  induction l as [|a l IH].
  - rewrite str_nil_app. cbn [split_on]. by rewrite bool_decide_eq_true_2.
  - rewrite str_cons_app. cbn [split_on]. case_bool_decide; [by rewrite IH|].
    rewrite IH. by destruct (split_on_cons c l) as (w & ws & ->).
Qed.

(** What [RelativePath.new] accepts. *)
Definition path_ok (s : string) : bool :=
  (str_len s <=? 256) && all_chars path_char s && forallb plain_component (split_on "/" s).

Lemma relative_path_new s :
  ok (RelativePath.new s) = if path_ok s then Some (RelativePath.mk s) else None.
Proof.
  unfold path_ok, RelativePath.new. destruct (N.eqb_spec (str_len s) 0) as [H0|H0].
  - destruct s as [|c s]; [done|]. unfold str_len in H0. rewrite length_bytes_of_string in H0. cbn in H0. lia.
  - cbn [orb]. destruct (N.ltb_spec 256 (str_len s)), (N.leb_spec (str_len s) 256); try lia; [done|].
    destruct (starts_with "/" s) eqn:Hs; cbn [orb andb].
    + unfold starts_with in Hs. destruct (strip_prefix "/" s) as [r|] eqn:Hr; [|done].
      apply strip_prefix_Some in Hr as ->.
      change ("/" +:+ r) with ("" +:+ String "/" r). rewrite split_on_sep. cbn. by rewrite andb_false_r.
    + destruct (all_chars path_char s); [|done]. cbn. by destruct (forallb plain_component (split_on "/" s)).
Qed.

Lemma path_ok_iff s : is_Some (path s) ↔ path_ok s = true.
Proof. unfold path. rewrite relative_path_new. destruct (path_ok s); split; [done|eauto| |done]. by intros []. Qed.

Lemma path_ok_cons a b :
  path_ok (a +:+ ("/" +:+ b))
  = (str_len a + str_len b <? 256) && (all_chars path_char a && all_chars path_char b)
    && (forallb plain_component (split_on "/" a) && forallb plain_component (split_on "/" b)).
Proof.
  unfold path_ok. f_equal; [f_equal|].
  - unfold str_len. rewrite !bytes_of_string_app, !length_app. cbn.
    destruct (N.ltb_spec (N.of_nat (length (bytes_of_string a)) + N.of_nat (length (bytes_of_string b))) 256);
      [apply N.leb_le|apply N.leb_gt]; lia.
  - by rewrite all_chars_app.
  - change ("/" +:+ b) with (String "/" b). by rewrite split_on_sep, forallb_app.
Qed.

(** A directory with a number in its name. *)
Lemma plain_numbered stem n : plain_component (stem +:+ pretty (n : N)) = true.
Proof.
  destruct (pretty_N_digits n) as [Hd Hn]. unfold plain_component.
  assert (∀ s, all_chars (λ c, bool_decide (c = "."%char)) s = true → stem +:+ pretty n ≠ s) as Hne.
  { intros s Hs <-. rewrite all_chars_app in Hs. apply andb_true_iff in Hs as [_ Hs].
    destruct (pretty n) as [|c p]; [done|]. cbn in Hd, Hs.
    apply andb_true_iff in Hd as [Hd _], Hs as [Hs _]. apply bool_decide_eq_true in Hs. by subst. }
  rewrite !bool_decide_eq_false_2; [done|by apply Hne..].
Qed.

Lemma digits_path s : all_chars is_digit s = true → all_chars path_char s = true.
Proof. apply all_chars_impl. intros c. by destruct c as [[] [] [] [] [] [] [] []]. Qed.

Lemma pretty_u32_len n : fits 32 n → str_len (pretty n) ≤ 10.
Proof.
  unfold fits, str_len. intros Hn. rewrite length_bytes_of_string.
  pose proof (length_pretty 10 n) as Hp. change (2 ^ 32) with 4294967296 in Hn.
  change (10 ^ N.of_nat 10) with 10000000000 in Hp. lia.
Qed.

Lemma numbered_dir_parts base stem n :
  path_ok base = true → lacks "/" stem = true → all_chars path_char stem = true →
  let dir := (base +:+ ("/" +:+ stem)) +:+ pretty (n : N) in
  all_chars path_char dir = true ∧ forallb plain_component (split_on "/" dir) = true
  ∧ str_len dir = str_len base + str_len stem + 1 + str_len (pretty n).
Proof.
  unfold path_ok. rewrite !andb_true_iff. intros [[_ Hb] Hp] Hs Hc. cbn zeta.
  rewrite !str_app_assoc. split; [|split].
  - rewrite !all_chars_app, Hb, Hc. cbn. by apply digits_path, pretty_N_digits.
  - change ("/" +:+ (stem +:+ pretty n)) with (String "/" (stem +:+ pretty n)).
    rewrite split_on_sep, forallb_app, Hp, split_on_lacks by (by rewrite lacks_app, Hs, pretty_lacks).
    cbn. by rewrite plain_numbered.
  - unfold str_len. rewrite !bytes_of_string_app, !length_app. cbn. lia.
Qed.

Lemma numbered_dir_ok base stem n :
  path_ok base = true → lacks "/" stem = true → all_chars path_char stem = true → fits 32 n →
  str_len base + str_len stem <=? 200 = true →
  path_ok ((base +:+ ("/" +:+ stem)) +:+ pretty n) = true.
Proof.
  intros Hb Hs Hc Hn Hl. destruct (numbered_dir_parts base stem n Hb Hs Hc) as (H1 & H2 & H3).
  apply pretty_u32_len in Hn. apply N.leb_le in Hl.
  unfold path_ok. rewrite H1, H2, H3, !andb_true_r. apply N.leb_le. lia.
Qed.

Lemma numbered_file_ok base stem n file :
  path_ok base = true → lacks "/" stem = true → all_chars path_char stem = true → fits 32 n →
  path_ok file = true → str_len base + str_len stem + str_len file <=? 200 = true →
  path_ok (((base +:+ ("/" +:+ stem)) +:+ pretty n) +:+ ("/" +:+ file)) = true.
Proof.
  intros Hb Hs Hc Hn Hf Hl. destruct (numbered_dir_parts base stem n Hb Hs Hc) as (H1 & H2 & H3).
  apply pretty_u32_len in Hn. apply N.leb_le in Hl.
  unfold path_ok in Hf. rewrite !andb_true_iff in Hf. destruct Hf as [[_ Hf1] Hf2].
  rewrite path_ok_cons, H1, H2, H3, Hf1, Hf2, !andb_true_r. apply N.ltb_lt. lia.
Qed.

Definition policy_file (n : u32) (file : string) : string :=
  ("devices/system/cpu/cpufreq/policy" +:+ pretty n) +:+ ("/" +:+ file).

Lemma policy_dir_ok n : fits 32 n → path_ok ("devices/system/cpu/cpufreq/policy" +:+ pretty n) = true.
Proof. intros Hn. by apply (numbered_dir_ok "devices/system/cpu/cpufreq" "policy" n). Qed.
Lemma policy_file_ok n file :
  fits 32 n → path_ok file = true → str_len file <=? 60 = true → path_ok (policy_file n file) = true.
Proof.
  intros Hn Hf Hl. apply (numbered_file_ok "devices/system/cpu/cpufreq" "policy" n file); [done..|].
  apply N.leb_le in Hl. apply N.leb_le. change (str_len "devices/system/cpu/cpufreq") with 26.
  change (str_len "policy") with 6. lia.
Qed.
Lemma cpu_file_ok n file :
  fits 32 n → path_ok file = true → str_len file <=? 60 = true →
  path_ok (("devices/system/cpu/cpu" +:+ pretty n) +:+ ("/" +:+ file)) = true.
Proof.
  intros Hn Hf Hl. apply (numbered_file_ok "devices/system/cpu" "cpu" n file); [done..|].
  apply N.leb_le in Hl. apply N.leb_le. change (str_len "devices/system/cpu") with 18.
  change (str_len "cpu") with 3. lia.
Qed.
Lemma node_file_ok n file :
  fits 32 n → path_ok file = true → str_len file <=? 60 = true →
  path_ok (("devices/system/node/node" +:+ pretty n) +:+ ("/" +:+ file)) = true.
Proof.
  intros Hn Hf Hl. apply (numbered_file_ok "devices/system/node" "node" n file); [done..|].
  apply N.leb_le in Hl. apply N.leb_le. change (str_len "devices/system/node") with 19.
  change (str_len "node") with 4. lia.
Qed.
Lemma irq_file_ok n file :
  fits 32 n → path_ok file = true → str_len file <=? 60 = true →
  path_ok ("irq/" +:+ (pretty n +:+ ("/" +:+ file))) = true.
Proof.
  intros Hn Hf Hl. rewrite <-str_app_assoc. apply (numbered_file_ok "irq" "" n file); [done..|].
  apply N.leb_le in Hl. apply N.leb_le. change (str_len "irq") with 3. change (str_len "") with 0. lia.
Qed.

(** ** Which probes panic *)

Lemma read_text_is_Some fs s : is_Some (read_text fs s) ↔ path_ok s = true.
Proof.
  unfold read_text, read_bytes. rewrite <-path_ok_iff.
  destruct (path s); cbn; split; (eauto || by intros []).
Qed.
Lemma list_names_is_Some fs s : is_Some (list_names fs s) ↔ path_ok s = true.
Proof.
  unfold list_names. rewrite <-path_ok_iff. destruct (path s); cbn; split; (eauto || by intros []).
Qed.
Lemma probe_identity_is_Some fs s : is_Some (probe_identity fs s) ↔ path_ok s = true.
Proof.
  unfold probe_identity. rewrite <-path_ok_iff. destruct (path s); cbn; split; (eauto || by intros []).
Qed.

Lemma bind_is_Some {A B} (m : option A) (f : A → option B) :
  is_Some m → (∀ x, m = Some x → is_Some (f x)) → is_Some (m ≫= f).
Proof. intros [x ->] Hf. by apply Hf. Qed.

(** The paths of the source that hold at most a number. *)
Ltac solve_path :=
  lazymatch goal with
  | |- path_ok ("devices/system/cpu/cpufreq/policy" +:+ pretty ?n) = true => by apply policy_dir_ok
  | |- path_ok (("devices/system/cpu/cpufreq/policy" +:+ pretty ?n) +:+ String "/" ?f) = true =>
    by apply (policy_file_ok n f)
  | |- path_ok (("devices/system/cpu/cpu" +:+ pretty ?n) +:+ String "/" ?f) = true =>
    by apply (cpu_file_ok n f)
  | |- path_ok (("devices/system/node/node" +:+ pretty ?n) +:+ String "/" ?f) = true =>
    by apply (node_file_ok n f)
  | |- path_ok ("irq/" +:+ (pretty ?n +:+ String "/" ?f)) = true => by apply (irq_file_ok n f)
  | |- path_ok _ = true => by vm_compute
  end.
Ltac probe_step :=
  lazymatch goal with
  | |- is_Some (Some _) => eauto
  | |- is_Some (_ ≫= _) => apply bind_is_Some; [probe_step|intros ? _]
  | |- is_Some (_ <$> _) => apply fmap_is_Some; probe_step
  | |- is_Some (read_text _ _) => apply read_text_is_Some; solve_path
  | |- is_Some (list_names _ _) => apply list_names_is_Some; solve_path
  | |- is_Some (probe_identity _ _) => apply probe_identity_is_Some; solve_path
  end.

Lemma sort_dedup_elem (l : list N) x : x ∈ sort_dedup l ↔ x ∈ l.
Proof. unfold sort_dedup. by rewrite dedup_elem, sort_by_elem. Qed.

Lemma numbered_fits listing prefix : Forall (fits 32) (numbered listing prefix).
Proof.
  destruct listing as [entries| | |]; cbn [numbered]; [|constructor..].
  apply Forall_forall. intros n. unfold sort_numeric_names. rewrite sort_dedup_elem, list_elem_of_omap.
  intros (entry & _ & Hn). case_bool_decide; [|done].
  destruct (strip_prefix prefix _) as [r|]; [|done]. by eapply parse_uint_fits.
Qed.

Lemma mapM_numbered {B} (f : u32 → option B) listing prefix :
  (∀ n, fits 32 n → is_Some (f n)) → is_Some (mapM f (numbered listing prefix)).
Proof.
  intros Hf. apply mapM_is_Some. eapply Forall_impl; [apply numbered_fits|done].
Qed.

(** ** Which detectors panic *)

Lemma detect_environment_returns procfs : is_Some (detect_environment procfs).
Proof. unfold detect_environment. repeat probe_step. Qed.

Lemma detect_policy_returns sysfs n : fits 32 n → is_Some (detect_policy sysfs n).
Proof. intros Hn. unfold detect_policy. cbn zeta. repeat probe_step. Qed.

Lemma detect_cpufreq_returns sysfs : is_Some (detect_cpufreq sysfs).
Proof.
  unfold detect_cpufreq. apply bind_is_Some; [probe_step|intros policy_dir _].
  do 2 (apply bind_is_Some; [probe_step|intros ? _]).
  apply bind_is_Some; [unfold boost_identity; repeat case_match; probe_step|intros ? _].
  do 3 (apply bind_is_Some; [probe_step|intros ? _]).
  case_bool_decide; [eauto|]. apply bind_is_Some; [|eauto].
  apply mapM_numbered, detect_policy_returns.
Qed.

Lemma detect_topology_returns sysfs : is_Some (detect_topology sysfs).
Proof.
  unfold detect_topology. do 3 (apply bind_is_Some; [probe_step|intros ? _]).
  apply bind_is_Some; [|eauto]. apply mapM_numbered. intros n Hn. unfold detect_cpu. cbn zeta. repeat probe_step.
Qed.

Lemma detect_numa_returns sysfs : is_Some (detect_numa sysfs).
Proof.
  unfold detect_numa. apply bind_is_Some; [probe_step|intros ? _].
  apply bind_is_Some; [|eauto]. apply mapM_numbered. intros n Hn. unfold detect_node. cbn zeta. repeat probe_step.
Qed.

Lemma detect_cgroup_returns cgroup procfs : is_Some (detect_cgroup cgroup procfs).
Proof.
  unfold detect_cgroup. apply bind_is_Some; [probe_step|intros ? _].
  destruct cgroup; [|eauto]. unfold detect_cgroup_root. repeat probe_step.
Qed.

Lemma detect_irqs_returns procfs : is_Some (detect_irqs procfs).
Proof.
  unfold detect_irqs. do 2 (apply bind_is_Some; [probe_step|intros ? _]).
  apply bind_is_Some; [|eauto]. apply mapM_numbered. intros n Hn. unfold detect_irq. repeat probe_step.
Qed.

Lemma detect_memory_returns sysfs procfs : is_Some (detect_memory sysfs procfs).
Proof. unfold detect_memory. repeat probe_step. Qed.

Lemma detect_scheduler_returns procfs : is_Some (detect_scheduler procfs).
Proof. unfold detect_scheduler. repeat probe_step. Qed.

Lemma detect_systemd_returns procfs run : is_Some (detect_systemd procfs run).
Proof.
  unfold detect_systemd. apply bind_is_Some; [probe_step|intros ? _].
  apply bind_is_Some; [destruct run; [probe_step|eauto]|eauto].
Qed.

(** The name of a card whose longest file has a path. *)
Definition card_ok (name : string) : bool := path_ok ("class/drm/" +:+ name +:+ "/device/vendor").

Lemma card_file name file :
  card_ok name = true → path_ok file = true → str_len file ≤ 13 →
  path_ok (("class/drm/" +:+ name) +:+ ("/" +:+ file)) = true.
Proof.
  unfold card_ok. intros Hc Hf Hl. unfold path_ok in Hf. rewrite !andb_true_iff in Hf.
  destruct Hf as [[_ Hf1] Hf2]. rewrite <-str_app_assoc in Hc.
  change "/device/vendor" with ("/" +:+ "device/vendor") in Hc.
  rewrite path_ok_cons in Hc |- *. change (str_len "device/vendor") with 13 in Hc.
  rewrite !andb_true_iff in Hc |- *. destruct Hc as [[Hlen [Hc1 _]] [Hc2 _]]. split_and!; try done.
  apply N.ltb_lt. apply N.ltb_lt in Hlen. lia.
Qed.

Lemma detect_gpu_is_Some sysfs entry :
  is_Some (detect_gpu sysfs entry) ↔ card_ok entry.(DirectoryEntry.name) = true.
Proof.
  unfold detect_gpu. cbn zeta. split.
  - intros [r Hr]. apply bind_Some in Hr as (x & _ & Hr). apply bind_Some in Hr as (y & Hy & _).
    unfold card_ok. rewrite <-str_app_assoc. by eapply read_text_is_Some, mk_is_Some.
  - intros Hc.
    assert (∀ file, path_ok file = true → str_len file ≤ 13 →
      is_Some (read_text sysfs (("class/drm/" +:+ entry.(DirectoryEntry.name)) +:+ ("/" +:+ file)))) as Hread.
    { intros file Hf Hl. by apply read_text_is_Some, card_file. }
    apply bind_is_Some; [by apply (Hread "uevent")|intros ? _].
    apply bind_is_Some; [by apply (Hread "device/vendor")|intros ? _].
    apply bind_is_Some; [by apply (Hread "device/device")|intros ? _].
    apply bind_is_Some; [by apply (Hread "device/class")|eauto].
Qed.

(** The graphics cards discovery enumerates. *)
Definition listed_cards (sysfs : ReadOnlyFileSystem.t) : list DirectoryEntry.t :=
  drm_cards (default Probe.Missing (list_names sysfs "class/drm")).

Lemma detect_gpus_is_Some sysfs :
  is_Some (detect_gpus sysfs)
  ↔ Forall (λ entry, card_ok entry.(DirectoryEntry.name) = true) (listed_cards sysfs).
Proof.
  unfold detect_gpus, listed_cards.
  destruct (proj2 (list_names_is_Some sysfs "class/drm")) as [drm ->]; [done|]. cbn [default mbind option_bind].
  assert (is_Some (mapM (detect_gpu sysfs) (drm_cards drm))
          ↔ Forall (λ entry, card_ok entry.(DirectoryEntry.name) = true) (drm_cards drm)) as <-.
  { rewrite mapM_is_Some. apply Forall_iff. intros entry. apply detect_gpu_is_Some. }
  split; [intros [r Hr]; apply bind_Some in Hr as (y & Hy & _); eauto|].
  intros Hd. apply bind_is_Some; eauto.
Qed.

Lemma discover_at_is_Some sources at_ :
  is_Some (discover_at sources at_)
  ↔ Forall (λ entry, card_ok entry.(DirectoryEntry.name) = true)
      (listed_cards sources.(DiscoverySources.sysfs)).
Proof.
  rewrite <-detect_gpus_is_Some. unfold discover_at.
  destruct (detect_environment_returns sources.(DiscoverySources.procfs)) as [[[]] ->].
  destruct (detect_cpufreq_returns sources.(DiscoverySources.sysfs)) as [[] ->].
  destruct (detect_topology_returns sources.(DiscoverySources.sysfs)) as [[] ->].
  destruct (detect_numa_returns sources.(DiscoverySources.sysfs)) as [[] ->].
  destruct (detect_cgroup_returns sources.(DiscoverySources.cgroup) sources.(DiscoverySources.procfs)) as [[] ->].
  destruct (detect_irqs_returns sources.(DiscoverySources.procfs)) as [[] ->].
  destruct (detect_memory_returns sources.(DiscoverySources.sysfs) sources.(DiscoverySources.procfs)) as [[] ->].
  destruct (detect_scheduler_returns sources.(DiscoverySources.procfs)) as [[] ->].
  destruct (detect_systemd_returns sources.(DiscoverySources.procfs) sources.(DiscoverySources.run)) as [[] ->].
  cbn [mbind option_bind]. destruct (detect_gpus _) as [[]|]; cbn [mbind option_bind]; [|done].
  split; eauto.
Qed.

(** ** The inventory *)

Definition CPU_PLANNED : list string :=
  [capability_ids.CPU_POLICY_FREQUENCY_MIN; capability_ids.CPU_POLICY_FREQUENCY_MAX;
   capability_ids.CPU_POLICY_GOVERNOR; capability_ids.CPU_POLICY_ENERGY_PREFERENCE;
   capability_ids.CPU_BOOST; capability_ids.PLATFORM_PROFILE].
(** The capabilities the inventory describes. *)
Definition PLANNED : list string := CPU_PLANNED ++ CGROUP_PLANNED ++ GPU_PLANNED ++ IRQ_PLANNED.
(** What a planned capability acts on. *)
Definition planned_kind (id : string) : TargetKind.t :=
  if bool_decide (id ∈ CGROUP_PLANNED) then TargetKind.Cgroup
  else if bool_decide (id ∈ GPU_PLANNED) then TargetKind.Gpu
  else if bool_decide (id ∈ IRQ_PLANNED) then TargetKind.Irq
  else if bool_decide (id ∈ [capability_ids.CPU_BOOST; capability_ids.PLATFORM_PROFILE])
  then TargetKind.CpuSystem else TargetKind.CpuPolicy.
Definition finding_id (f : CapabilityFinding.t) : string := f.(CapabilityFinding.id).(CapabilityId.as_str).
(** The specification of the inventory: one descriptor per planned finding. *)
Definition describe (f : CapabilityFinding.t) : CapabilityDescriptor.t :=
  descriptor_for_finding (planned_kind (finding_id f)) f.

Ltac known_id := by apply (bool_decide_unpack _); vm_compute.
Ltac open_detector H := repeat (apply bind_Some in H as (?&?&H)).

Lemma policy_ids sysfs n p : detect_policy sysfs n = Some p → Forall (has_id CPU_PLANNED) p.2.
Proof. unfold detect_policy. intros Hp. open_detector Hp. simplify_eq. cbn. repeat constructor; known_id. Qed.

Lemma cpufreq_ids sysfs facts l : detect_cpufreq sysfs = Some (facts, l) → Forall (has_id CPU_PLANNED) l.
Proof.
  unfold detect_cpufreq. intros Hl. do 7 (apply bind_Some in Hl as (?&?&Hl)). case_bool_decide.
  - simplify_eq. cbn. repeat constructor; known_id.
  - apply bind_Some in Hl as (ps & Hps & Hl). simplify_eq. cbn. do 2 (constructor; [known_id|]).
    apply mapM_Some in Hps. apply Forall_concat, Forall_fmap.
    eapply Forall2_Forall_r; [exact Hps|]. apply Forall_forall. intros n _ p. apply policy_ids.
Qed.

(** The identifiers of the other detectors. *)
Definition REPORTED : list string :=
  [discovery_ids.KERNEL_ENVIRONMENT; discovery_ids.CPU_TOPOLOGY; discovery_ids.CPU_CAPACITY;
   discovery_ids.NUMA_TOPOLOGY; discovery_ids.THP; discovery_ids.SWAP; discovery_ids.ZRAM;
   discovery_ids.ZSWAP; discovery_ids.SCHEDULER; discovery_ids.SYSTEMD].
Definition CGROUP_IDS : list string := [discovery_ids.CGROUP_V2; discovery_ids.CGROUP_UCLAMP] ++ CGROUP_PLANNED.
Definition GPU_IDS : list string := discovery_ids.GPU_DEVICE :: GPU_PLANNED.
Definition IRQ_IDS : list string := discovery_ids.IRQ_METADATA :: IRQ_PLANNED.

Lemma topology_ids sysfs facts l : detect_topology sysfs = Some (facts, l) → Forall (has_id REPORTED) l.
Proof. unfold detect_topology. intros Hl. open_detector Hl. simplify_eq. repeat constructor; known_id. Qed.
Lemma numa_ids sysfs facts l : detect_numa sysfs = Some (facts, l) → Forall (has_id REPORTED) l.
Proof. unfold detect_numa. intros Hl. open_detector Hl. simplify_eq. repeat constructor; known_id. Qed.
Lemma memory_ids sysfs procfs facts l :
  detect_memory sysfs procfs = Some (facts, l) → Forall (has_id REPORTED) l.
Proof. unfold detect_memory. intros Hl. open_detector Hl. simplify_eq. repeat constructor; known_id. Qed.
Lemma scheduler_ids procfs facts l : detect_scheduler procfs = Some (facts, l) → Forall (has_id REPORTED) l.
Proof. unfold detect_scheduler. intros Hl. open_detector Hl. simplify_eq. repeat constructor; known_id. Qed.
Lemma systemd_ids procfs run facts l :
  detect_systemd procfs run = Some (facts, l) → Forall (has_id REPORTED) l.
Proof. unfold detect_systemd. intros Hl. open_detector Hl. simplify_eq. repeat constructor; known_id. Qed.
Lemma cgroup_ids cgroup procfs facts l :
  detect_cgroup cgroup procfs = Some (facts, l) → Forall (has_id CGROUP_IDS) l.
Proof.
  unfold detect_cgroup, detect_cgroup_root. intros Hl. apply bind_Some in Hl as (?&?&Hl).
  destruct cgroup; [open_detector Hl|]; simplify_eq; cbn; repeat constructor; known_id.
Qed.
Lemma gpu_ids sysfs facts l : detect_gpus sysfs = Some (facts, l) → Forall (has_id GPU_IDS) l.
Proof.
  unfold detect_gpus. intros Hl. open_detector Hl. simplify_eq.
  match goal with Hm : mapM _ _ = Some ?ds |- _ => apply mapM_Some in Hm; rename Hm into Hds end.
  apply Forall_app. split; [|case_bool_decide; repeat constructor; known_id].
  apply Forall_concat, Forall_fmap. eapply Forall2_Forall_r; [exact Hds|]. apply Forall_forall.
  intros n _ p Hp. unfold detect_gpu in Hp. open_detector Hp. simplify_eq. cbn. repeat constructor; known_id.
Qed.
Lemma irq_ids procfs facts l : detect_irqs procfs = Some (facts, l) → Forall (has_id IRQ_IDS) l.
Proof.
  unfold detect_irqs. intros Hl. open_detector Hl. simplify_eq.
  match goal with Hm : mapM _ _ = Some ?ds |- _ => apply mapM_Some in Hm; rename Hm into Hds end.
  apply Forall_app. split; [|case_bool_decide; repeat constructor; known_id].
  apply Forall_fmap. eapply Forall2_Forall_r; [exact Hds|]. apply Forall_forall.
  intros n _ p Hp. unfold detect_irq in Hp. open_detector Hp. simplify_eq. cbn. known_id.
Qed.

(** What a detector contributes to the inventory. *)
Lemma planned_part (ids planned : list string) (kind : CapabilityFinding.t → TargetKind.t) l :
  Forall (has_id ids) l →
  Forall (λ i, i ∈ PLANNED ↔ i ∈ planned) ids →
  (∀ f, has_id planned f → kind f = planned_kind (finding_id f)) →
  ((λ f, descriptor_for_finding (kind f) f) <$> filter (has_id planned) l)
  = describe <$> filter (has_id PLANNED) l.
Proof.
  intros Hl Hids Hkind. induction Hl as [|f l Hf Hl IH]; [done|].
  rewrite !filter_cons. rewrite Forall_forall in Hids. specialize (Hids _ Hf).
  destruct (decide (has_id planned f)) as [Hp|Hp], (decide (has_id PLANNED f)) as [Hq|Hq];
    [|by apply Hids in Hp|by apply Hids in Hq|done].
  rewrite !fmap_cons, IH. f_equal. unfold describe. by rewrite Hkind.
Qed.

Lemma no_planned_part ids l :
  Forall (has_id ids) l → Forall (λ i, i ∉ PLANNED) ids → filter (has_id PLANNED) l = [].
Proof.
  intros Hl Hids. induction Hl as [|f l Hf Hl IH]; [done|]. rewrite filter_cons, decide_False; [done|].
  rewrite Forall_forall in Hids. by apply Hids.
Qed.

Lemma filter_all {A} (P : A → Prop) `{!∀ x, Decision (P x)} l : Forall P l → filter P l = l.
Proof. induction 1 as [|x l Hx Hl IH]; [done|]. rewrite filter_cons_True by done. by rewrite IH. Qed.

Lemma kind_of (planned : list string) (kind : TargetKind.t) f :
  Forall (λ i, planned_kind i = kind) planned → has_id planned f → kind = planned_kind (finding_id f).
Proof. rewrite Forall_forall. intros Hk Hf. symmetry. by apply Hk. Qed.

Lemma cpufreq_kind f : has_id CPU_PLANNED f → cpufreq_target_kind f = planned_kind (finding_id f).
Proof.
  intros Hf.
  assert (Forall (λ i, (if bool_decide (i ∈ [capability_ids.CPU_BOOST; capability_ids.PLATFORM_PROFILE])
                        then TargetKind.CpuSystem else TargetKind.CpuPolicy) = planned_kind i) CPU_PLANNED)
    as Hall by known_id.
  rewrite Forall_forall in Hall. by apply Hall.
Qed.

Lemma inventory_lemma sources at_ r :
  discover_at sources at_ = Some r →
  r.(DiscoveryReport.inventory).(CapabilityInventory.capabilities)
  ≡ₚ describe <$> filter (has_id PLANNED) r.(DiscoveryReport.findings).
Proof.
  unfold discover_at. intros Hr.
  apply bind_Some in Hr as ([[env est] eev] & _ & Hr).
  apply bind_Some in Hr as ([? lc] & Hc%cpufreq_ids & Hr).
  apply bind_Some in Hr as ([? lt] & Ht%topology_ids & Hr).
  apply bind_Some in Hr as ([? ln] & Hn%numa_ids & Hr).
  apply bind_Some in Hr as ([? lg] & Hg%cgroup_ids & Hr).
  apply bind_Some in Hr as ([? lu] & Hu%gpu_ids & Hr).
  apply bind_Some in Hr as ([? li] & Hi%irq_ids & Hr).
  apply bind_Some in Hr as ([? lm] & Hm%memory_ids & Hr).
  apply bind_Some in Hr as ([? ls] & Hs%scheduler_ids & Hr).
  apply bind_Some in Hr as ([? ly] & Hy%systemd_ids & Hr).
  injection Hr as <-. cbn [DiscoveryReport.inventory CapabilityInventory.capabilities DiscoveryReport.findings].
  rewrite !sort_by_perm, filter_cons_False by known_id. rewrite !filter_app, !fmap_app.
  assert (Forall (λ i, i ∉ PLANNED) REPORTED) as Hrep by known_id.
  rewrite (no_planned_part _ _ Ht Hrep), (no_planned_part _ _ Hn Hrep), (no_planned_part _ _ Hm Hrep),
    (no_planned_part _ _ Hs Hrep), (no_planned_part _ _ Hy Hrep).
  rewrite <-(planned_part _ CGROUP_PLANNED (λ _, TargetKind.Cgroup) lg Hg); [|known_id|intros ?; apply kind_of; known_id].
  rewrite <-(planned_part _ GPU_PLANNED (λ _, TargetKind.Gpu) lu Hu); [|known_id|intros ?; apply kind_of; known_id].
  rewrite <-(planned_part _ IRQ_PLANNED (λ _, TargetKind.Irq) li Hi); [|known_id|intros ?; apply kind_of; known_id].
  rewrite <-(planned_part _ CPU_PLANNED cpufreq_target_kind lc Hc); [|known_id|].
  - rewrite (filter_all (has_id CPU_PLANNED) lc) by done.
    cbn [fmap list_fmap app]. by rewrite !app_nil_r.
  - apply cpufreq_kind.
Qed.

(** ** What discovery promises *)

(** What a status says of a capability that is not to be offered. *)
Definition withheld (status : DiscoveryStatus.t) : CapabilityState.t :=
  match status with
  | DiscoveryStatus.PermissionDenied => CapabilityState.Denied
  | DiscoveryStatus.Unavailable => CapabilityState.Unsupported
  | DiscoveryStatus.Indeterminate => CapabilityState.Indeterminate
  | DiscoveryStatus.Supported | DiscoveryStatus.PresentButUnsupported | DiscoveryStatus.ReportOnly =>
    CapabilityState.ReadOnly
  end.

(** The capability is one of the CPU backend's. *)
Definition cpu_owned (f : CapabilityFinding.t) : Prop :=
  f.(CapabilityFinding.id) ∈ backend_descriptor.(BackendDescriptor.capabilities).

Lemma cpu_operation_owned id :
  (id ∈ backend_descriptor.(BackendDescriptor.capabilities) → is_Some (cpu_operation id))
  ∧ ∀ operation, cpu_operation id = Some operation →
      id ∈ backend_descriptor.(BackendDescriptor.capabilities)
      ∧ OperationId.mk operation ∈ backend_descriptor.(BackendDescriptor.operations).
Proof.
  split.
  - intros Hin. cbn in Hin. rewrite !elem_of_cons, elem_of_nil in Hin.
    destruct_or!; subst; by eexists.
  - destruct id as [s]. unfold cpu_operation. cbn [CapabilityId.as_str]. intros operation.
    repeat (case_bool_decide as H; [subst s|clear H]); cbn [orb]; intros [= <-];
      (split; [apply (bool_decide_unpack _); vm_compute; exact I|apply (bool_decide_unpack _); vm_compute; exact I]).
Qed.

Lemma cpu_operation_runs m id :
  m.(PlannedMutation.capability) = id → capability_owned m = Some true →
  cpu_operation id = Some (operation_name m.(PlannedMutation.kind)).
Proof.
  intros <-. unfold capability_owned. destruct m.(PlannedMutation.kind); try done;
    intros [= Hc]; rewrite ?orb_true_iff, !bool_decide_eq_true in Hc; [destruct Hc as [-> | ->]|rewrite Hc..]; done.
Qed.

(** What the descriptor [d] may say of the finding [f]. *)
Record truthful (f : CapabilityFinding.t) (d : CapabilityDescriptor.t) : Prop := {
  tr_id : d.(CapabilityDescriptor.id) = f.(CapabilityFinding.id);
  tr_evidence : d.(CapabilityDescriptor.evidence) = f.(CapabilityFinding.evidence);
  tr_available : d.(CapabilityDescriptor.state) = CapabilityState.Available
    ↔ f.(CapabilityFinding.status) = DiscoveryStatus.Supported ∧ cpu_owned f;
  tr_withheld : d.(CapabilityDescriptor.state) ≠ CapabilityState.Available →
    d.(CapabilityDescriptor.state) = withheld f.(CapabilityFinding.status);
  tr_operation : cpu_owned f →
    d.(CapabilityDescriptor.backend) = backend_descriptor.(BackendDescriptor.id)
    ∧ (∃ operation, OperationDescriptor.id <$> d.(CapabilityDescriptor.operations) = [operation]
         ∧ operation ∈ backend_descriptor.(BackendDescriptor.operations))
    ∧ d.(CapabilityDescriptor.privilege) = PrivilegeRequirement.PrivilegedMutation;
  tr_runs : ∀ m, m.(PlannedMutation.capability) = f.(CapabilityFinding.id) → capability_owned m = Some true →
    OperationDescriptor.id <$> d.(CapabilityDescriptor.operations) = [operation_id m.(PlannedMutation.kind)];
  tr_no_operation : ¬ cpu_owned f →
    d.(CapabilityDescriptor.backend) = BackendId.mk DISCOVERY_BACKEND
    ∧ d.(CapabilityDescriptor.operations) = []
    ∧ d.(CapabilityDescriptor.privilege) = PrivilegeRequirement.ReadOnly
}.

Lemma describe_truthful f : truthful f (describe f).
Proof.
  destruct (cpu_operation_owned f.(CapabilityFinding.id)) as [Hall Hown].
  pose proof (λ m, cpu_operation_runs m f.(CapabilityFinding.id)) as Hruns.
  unfold describe, descriptor_for_finding.
  destruct (cpu_operation f.(CapabilityFinding.id)) as [operation|] eqn:Ho.
  - destruct (Hown _ eq_refl) as [Hc Hop]. split; cbn; try done.
    + destruct f.(CapabilityFinding.status); cbn; naive_solver.
    + by destruct f.(CapabilityFinding.status).
    + intros _. split_and!; [done|by eexists|done].
    + intros m Hm Hr. specialize (Hruns m Hm Hr) as [= ->]. done.
  - assert (¬ cpu_owned f) as Hno by (intros [? [=]]%Hall). split; cbn; try done.
    + split; [by destruct f.(CapabilityFinding.status)|naive_solver].
    + intros m Hm Hr. by specialize (Hruns m Hm Hr).
Qed.

(** C19. The inventory is one descriptor per planned finding, up to order,
    each [truthful]: a capability is available exactly when it was found
    supported and is one of the CPU backend's; otherwise its state says what
    was found, denied, missing, undetermined or read-only.  A capability of the
    CPU backend names that backend and the one operation it runs for it,
    privileged, available or not; any other names no operation and needs no
    privilege. *)
Theorem inventory_never_overstates sources at_ r (Hr : discover_at sources at_ = Some r) :
  let planned := filter (has_id PLANNED) r.(DiscoveryReport.findings) in
  ∃ described,
    r.(DiscoveryReport.inventory).(CapabilityInventory.capabilities) ≡ₚ described
    ∧ Forall2 truthful planned described.
Proof.
  exists (describe <$> filter (has_id PLANNED) r.(DiscoveryReport.findings)).
  split; [by eapply inventory_lemma|].
  induction (filter _ _) as [|f l IH]; [constructor|]. constructor; [apply describe_truthful|exact IH].
Qed.

Section Total.
Context {C : Type} `{!Clock.t C}.

(** C39. Discovery fails only with the error of the clock.  When the time is known
    it panics exactly if some listed graphics card has a name that the paths
    below it cannot hold; otherwise it returns a report of that time, whatever
    the ports answer. *)
Theorem discovery_outcome sources (clock : C) :
  match Clock.now clock with
  | (Err e, clock') => discover sources clock = Some (Err e, clock')
  | (Ok now, clock') =>
    if forallb (λ entry, card_ok entry.(DirectoryEntry.name)) (listed_cards sources.(DiscoverySources.sysfs))
    then ∃ r, discover sources clock = Some (Ok r, clock')
           ∧ r.(DiscoveryReport.observed_at) = now
           ∧ r.(DiscoveryReport.inventory).(CapabilityInventory.observed_at) = now
    else discover sources clock = None
  end.
Proof.
  unfold discover. destruct (Clock.now clock) as [[now|e] clock']; [|done].
  pose proof (discover_at_is_Some sources now) as Hsome.
  destruct (forallb _ _) eqn:Hall.
  - destruct (proj2 Hsome) as [r Hr].
    { apply Forall_forall. intros entry He. rewrite forallb_forall in Hall. by apply Hall, list_elem_of_In. }
    exists r. rewrite Hr. split; [done|]. unfold discover_at in Hr.
    apply bind_Some in Hr as ([[??]?] & _ & Hr). repeat (apply bind_Some in Hr as ([??] & _ & Hr)).
    by simplify_eq.
  - destruct (discover_at sources now) as [r|]; [|done]. exfalso.
    assert (forallb (λ entry, card_ok entry.(DirectoryEntry.name))
              (listed_cards sources.(DiscoverySources.sysfs)) = true) as Htrue; [|congruence].
    apply forallb_forall. intros entry He%list_elem_of_In. destruct Hsome as [Hsome _].
    eapply Forall_forall in He; [|by apply Hsome]. done.
Qed.
End Total.
