(* ===== verification/DiscoveryStateLaws.v ===== *)
(** * Laws of the projection to the planner's current state

    When [current_state] panics, and what a governor fact of it says of the
    file system that was discovered. *)
From Stdlib Require Import Strings.Byte Strings.Ascii.
From stdpp Require Import pretty.
From S2P Require Import Prelude Lists Text Str Ids Capability Mutation MutationLaws.
From S2P Require Import Decision Policy Ports ReadPorts Topology Digest Cpu Discovery DiscoveryState DiscoveryLaws.
Local Open Scope N_scope.
Unset Default Proof Using.

(** ** Names *)

Lemma digits_id s : all_chars is_digit s = true → forallb id_byte (bytes_of_string s) = true.
Proof.
  induction s as [|c s IH]; [done|]. cbn [all_chars]. intros [Hc Hs]%andb_true_iff.
  change (bytes_of_string (String c s)) with (byte_of_ascii c :: bytes_of_string s). cbn [forallb].
  rewrite IH by done. clear IH Hs. by destruct c as [[] [] [] [] [] [] [] []].
Qed.

Lemma numbered_target prefix n :
  valid_text prefix = true → str_len prefix ≤ 100 → fits 32 n →
  TargetId.new (prefix +:+ pretty n) = Ok (TargetId.mk (prefix +:+ pretty n)).
Proof.
  intros Hv Hl Hn. apply TargetId_new_Ok. split; [|done]. apply pretty_u32_len in Hn.
  unfold valid_text in *. rewrite !andb_true_iff in *. destruct Hv as [[Hv1 _] Hv2].
  apply N.leb_le in Hv1. rewrite bytes_of_string_app, forallb_app, Hv2, digits_id by apply pretty_N_digits.
  unfold str_len in *. rewrite bytes_of_string_app, length_app. split_and!; [apply N.leb_le; lia..|done].
Qed.

(** ** What was read *)

(** The text of a file as discovery sees it. *)
Definition file_text (fs : ReadOnlyFileSystem.t) (file : string) (text : string) : Prop :=
  ∃ bytes raw, ReadOnlyFileSystem.read fs (RelativePath.mk file) = Ok bytes
    ∧ N.of_nat (length bytes) ≤ MAX_DISCOVERY_READ_BYTES ∧ from_utf8 bytes = Some raw ∧ text = trim raw.

Lemma path_Some s p : path s = Some p → p = RelativePath.mk s.
Proof. unfold path. rewrite relative_path_new. destruct (path_ok s); naive_solver. Qed.

Lemma read_text_present fs file text : read_text fs file = Some (Probe.Present text) → file_text fs file text.
Proof.
  unfold read_text, read_bytes. destruct (path file) as [p|] eqn:Hp; [|done]. cbn.
  apply path_Some in Hp as ->. unfold file_text.
  destruct (ReadOnlyFileSystem.read fs _) as [bytes|e]; [|by destruct e as [[]]].
  destruct (N.leb_spec (N.of_nat (length bytes)) MAX_DISCOVERY_READ_BYTES); [|done]. cbn.
  destruct (from_utf8 bytes) as [raw|] eqn:Hraw; [|done]. cbn. intros [= <-]. by exists bytes, raw.
Qed.

(** The identity a port proves of a node. *)
Definition proven_identity (fs : ReadOnlyFileSystem.t) (file : string) : option TargetIdentity.t :=
  match ReadOnlyFileSystem.identity fs (RelativePath.mk file) with
  | Ok identity => if bool_decide (identity = zero_identity) then None else Some identity
  | Err _ => None
  end.

Lemma probe_identity_proven fs file i : probe_identity fs file = Some i → i = proven_identity fs file.
Proof.
  unfold probe_identity. destruct (path file) as [p|] eqn:Hp; [|done]. apply path_Some in Hp as ->.
  cbn. by intros [= <-].
Qed.

(** The policies of the listing. *)
Definition listed_policies (sysfs : ReadOnlyFileSystem.t) : list u32 :=
  numbered (default Probe.Missing (list_names sysfs "devices/system/cpu/cpufreq")) "policy".

Lemma cpufreq_policies sysfs facts l :
  detect_cpufreq sysfs = Some (facts, l) →
  Forall2 (λ n p, ∃ fs, detect_policy sysfs n = Some (p, fs)) (listed_policies sysfs) facts.(CpuFreqFacts.policies).
Proof.
  unfold detect_cpufreq, listed_policies. intros Hl. apply bind_Some in Hl as (dir & -> & Hl). cbn [default].
  do 6 (apply bind_Some in Hl as (?&?&Hl)). case_bool_decide as Hn.
  - simplify_eq. cbn. rewrite Hn. constructor.
  - apply bind_Some in Hl as (ps & Hps & Hl). simplify_eq. cbn. apply mapM_Some in Hps.
    apply Forall2_fmap_r. eapply Forall2_impl; [exact Hps|]. intros n [p fs]. cbn. eauto.
Qed.

Lemma detect_policy_governor sysfs n p fs :
  detect_policy sysfs n = Some (p, fs) →
  p.(CpuFreqPolicyFacts.id) = n
  ∧ p.(CpuFreqPolicyFacts.target_identity)
    = proven_identity sysfs ("devices/system/cpu/cpufreq/policy" +:+ pretty n)
  ∧ ∀ text, p.(CpuFreqPolicyFacts.current_governor) = Some text →
      file_text sysfs (policy_file n "scaling_governor") text.
Proof.
  unfold detect_policy. intros Hp.
  apply bind_Some in Hp as (i & Hi%probe_identity_proven & Hp).
  do 3 (apply bind_Some in Hp as (?&?&Hp)). apply bind_Some in Hp as (g & Hg & Hp).
  open_detector Hp. simplify_eq. cbn. split_and!; [done..|]. intros text Ht.
  apply read_text_present. unfold policy_file. change ("/" +:+ "scaling_governor") with "/scaling_governor".
  rewrite Hg. clear -Ht. destruct g; cbn in Ht; [by injection Ht as ->|discriminate Ht..].
Qed.

Lemma listed_policies_fit sysfs : Forall (fits 32) (listed_policies sysfs).
Proof. apply numbered_fits. Qed.

Lemma discovered_policies sources at_ r :
  discover_at sources at_ = Some r →
  Forall2 (λ n p, ∃ fs, detect_policy sources.(DiscoverySources.sysfs) n = Some (p, fs))
    (listed_policies sources.(DiscoverySources.sysfs)) r.(DiscoveryReport.cpufreq).(CpuFreqFacts.policies).
Proof.
  unfold discover_at. intros Hr. apply bind_Some in Hr as ([[??]?] & _ & Hr).
  apply bind_Some in Hr as ([facts found] & Hc & Hr). repeat (apply bind_Some in Hr as ([??] & _ & Hr)).
  simplify_eq. cbn. by eapply cpufreq_policies.
Qed.

Lemma discovered_irqs sources at_ r :
  discover_at sources at_ = Some r →
  Forall (λ e, fits 32 e.(IrqEntryFacts.irq)) r.(DiscoveryReport.irq).(IrqFacts.entries).
Proof.
  unfold discover_at. intros Hr. apply bind_Some in Hr as ([[??]?] & _ & Hr).
  do 5 (apply bind_Some in Hr as ([??] & _ & Hr)). apply bind_Some in Hr as ([irqs found] & Hi & Hr).
  do 3 (apply bind_Some in Hr as ([??] & _ & Hr)).
  simplify_eq. cbn. unfold detect_irqs in Hi. do 2 (apply bind_Some in Hi as (?&_&Hi)).
  apply bind_Some in Hi as (es & Hes & Hi). simplify_eq. cbn. apply mapM_Some in Hes. apply Forall_fmap.
  eapply Forall2_Forall_r; [exact Hes|]. eapply Forall_impl; [apply numbered_fits|].
  intros n Hn [e f] He. unfold detect_irq in He. do 2 (apply bind_Some in He as (?&_&He)).
  by simplify_eq.
Qed.

(** ** When the projection panics *)

(** What [ObservedText::new] accepts. *)
Definition observable (text : string) : bool :=
  negb ((str_len text =? 0) || (1024 <? str_len text) || contains_nul text).
Lemma observed_text_new text :
  ok (ObservedText.new text) = if observable text then Some (ObservedText.mk text) else None.
Proof. unfold ObservedText.new, observable. by destruct (_ || contains_nul text). Qed.

(** The energy preference of a policy is neither a known value nor a text
    that can be observed. *)
Definition energy_unobservable (p : CpuFreqPolicyFacts.t) : Prop :=
  ∃ text, p.(CpuFreqPolicyFacts.energy_performance_preference) = Some text
    ∧ parse_energy_preference text = None ∧ observable text = false.

Lemma policy_facts_None p :
  fits 32 p.(CpuFreqPolicyFacts.id) → policy_facts p = None ↔ energy_unobservable p.
Proof.
  intros Hn. unfold policy_facts. rewrite numbered_target by done. cbn [ok mbind option_bind].
  unfold policy_energy_fact, try_fact_of, energy_unobservable, observed_energy_value, energy_value.
  destruct (CpuFreqPolicyFacts.energy_performance_preference p) as [text|]; cbn;
    [|split; [done|by intros (? & ? & ?)]].
  destruct (parse_energy_preference text) as [e|] eqn:He; cbn;
    [split; [done|]; intros (? & [= <-] & ? & ?); congruence|].
  rewrite observed_text_new. destruct (observable text) eqn:Ho; cbn; split; try done; [|by eauto].
  intros (? & [= <-] & ? & ?). congruence.
Qed.

Lemma irq_fact_returns e : fits 32 e.(IrqEntryFacts.irq) → is_Some (irq_fact e).
Proof.
  intros Hn. unfold irq_fact, try_fact_of. destruct (_ ≫= parse_cpu_set); [|eauto].
  rewrite numbered_target by done. cbn. eauto.
Qed.

Definition uclamp_unobservable (c : CgroupFacts.t) : Prop :=
  ∃ text, uclamp_text c = Some text ∧ observable text = false.

Lemma cgroup_facts_None c : cgroup_facts c = None ↔ uclamp_unobservable c.
Proof.
  unfold cgroup_facts, try_fact_of, uclamp_unobservable. cbn zeta.
  destruct (uclamp_text c) as [text|]; cbn; [|split; [done|by intros (? & ? & ?)]].
  rewrite observed_text_new. destruct (observable text) eqn:Ho; cbn; split; try done; [|by eauto].
  intros (? & [= <-] & ?). congruence.
Qed.

Lemma report_ids_fit sources at_ r :
  discover_at sources at_ = Some r →
  Forall (λ p, fits 32 p.(CpuFreqPolicyFacts.id)) r.(DiscoveryReport.cpufreq).(CpuFreqFacts.policies).
Proof.
  intros Hr%discovered_policies. eapply Forall2_Forall_r; [exact Hr|].
  eapply Forall_impl; [apply listed_policies_fit|]. intros n Hn p [fs Hp].
  by apply detect_policy_governor in Hp as [-> _].
Qed.

(** C18. The projection of a report panics exactly when a policy exposes an energy
    preference, or the cgroup two clamps, whose text is empty, longer than
    1024 bytes or holds NUL: discovery reads up to 1 MiB and trims, but the
    projection expects the text to be observable. *)
Theorem projection_panics_iff sources at_ r (Hr : discover_at sources at_ = Some r) :
  current_state r = None
  ↔ Exists energy_unobservable r.(DiscoveryReport.cpufreq).(CpuFreqFacts.policies)
    ∨ uclamp_unobservable r.(DiscoveryReport.cgroup).
Proof.
  pose proof (report_ids_fit _ _ _ Hr) as Hfit. apply discovered_irqs in Hr as Hirq.
  assert (Exists energy_unobservable r.(DiscoveryReport.cpufreq).(CpuFreqFacts.policies)
          ↔ mapM policy_facts r.(DiscoveryReport.cpufreq).(CpuFreqFacts.policies) = None) as ->.
  { rewrite mapM_None, !Exists_exists. rewrite Forall_forall in Hfit.
    split; intros (p & Hp & He); exists p; (split; [done|]); by apply policy_facts_None; [apply Hfit|]. }
  rewrite <-cgroup_facts_None. unfold current_state, state_facts. cbn zeta.
  destruct (mapM_is_Some_2 irq_fact r.(DiscoveryReport.irq).(IrqFacts.entries)) as [irqs Hirqs].
  { eapply Forall_impl; [exact Hirq|]. intros e. apply irq_fact_returns. }
  destruct (mapM policy_facts _), (cgroup_facts _); cbn; try (split; tauto); rewrite ?Hirqs; cbn; naive_solver.
Qed.

(** ** What a fact says of the files *)

Lemma Forall2_elem_r {A B} (P : A → B → Prop) l k y : Forall2 P l k → y ∈ k → ∃ x, x ∈ l ∧ P x y.
Proof.
  intros Hlk [i Hy]%list_elem_of_lookup. destruct (Forall2_lookup_r _ _ _ _ _ Hlk Hy) as (x & Hx & HP).
  exists x. split; [by eapply list_elem_of_lookup_2|done].
Qed.

Lemma current_state_facts at_ facts st f :
  CurrentState.new at_ facts = Ok st → f ∈ st.(CurrentState.facts) ↔ f ∈ facts.
Proof.
  unfold CurrentState.new. destruct (match sort_by _ facts with [] => _ | _ => _ end); [|done]. cbn.
  intros [= <-]. cbn. by rewrite dedup_elem, sort_by_elem.
Qed.

(** The facts of one control. *)
Definition about (c : ControlId.t) (f : CurrentStateFact.t) : Prop := f.(CurrentStateFact.control) = c.

Ltac other_control :=
  repeat match goal with
  | Hf : _ ∈ fact_of ?v _ |- _ => unfold fact_of in Hf; destruct v as [?|]
  | Hf : _ ∈ [_] |- _ => apply list_elem_of_singleton in Hf as ->
  | Hf : _ ∈ [] |- _ => by apply elem_of_nil in Hf
  | x : _ * _ |- _ => destruct x
  end.

Lemma try_fact_of_elem {A} (value : option A) fact l f :
  try_fact_of value fact = Some l → f ∈ l → ∃ a, value = Some a ∧ fact a = Some f.
Proof.
  unfold try_fact_of. destruct value as [a|]; [|intros [= <-] Hf; by apply elem_of_nil in Hf].
  destruct (fact a) as [g|] eqn:Hg; [|done]. cbn. intros [= <-] ->%list_elem_of_singleton. eauto.
Qed.

Lemma cgroup_no_governor c l f : cgroup_facts c = Some l → f ∈ l → ¬ about ControlId.CpuGovernor f.
Proof.
  unfold cgroup_facts. cbn zeta. intros Hl Hf. apply bind_Some in Hl as (u & Hu & Hl). simplify_eq.
  rewrite !elem_of_app in Hf. destruct Hf as [Hf|[Hf|[Hf|Hf]]]; other_control; try done.
  apply (try_fact_of_elem _ _ _ _ Hu) in Hf as (text & _ & Hf).
  destruct (ok _); [|done]. cbn in Hf. by simplify_eq.
Qed.

Lemma irq_no_governor e l f : irq_fact e = Some l → f ∈ l → ¬ about ControlId.CpuGovernor f.
Proof.
  unfold irq_fact. intros Hl Hf. apply (try_fact_of_elem _ _ _ _ Hl) in Hf as (cpus & _ & Hf).
  destruct (ok _); [|done]. cbn in Hf. by simplify_eq.
Qed.

Lemma policy_governor_only p l f :
  fits 32 p.(CpuFreqPolicyFacts.id) → policy_facts p = Some l → f ∈ l → about ControlId.CpuGovernor f →
  f ∈ policy_governor_fact p (TargetId.mk ("cpu.policy." +:+ pretty p.(CpuFreqPolicyFacts.id))).
Proof.
  intros Hn. unfold policy_facts. rewrite numbered_target by done. cbn [ok mbind option_bind].
  intros Hl Hf Ha. apply bind_Some in Hl as (u & Hu & Hl). simplify_eq. rewrite !elem_of_app in Hf.
  destruct Hf as [Hf|[Hf|Hf]]; [done| |].
  - unfold policy_energy_fact in Hu. apply (try_fact_of_elem _ _ _ _ Hu) in Hf as (text & _ & Hf).
    destruct (observed_energy_value text); [|done]. cbn in Hf. by simplify_eq.
  - unfold policy_frequency_fact in Hf. by other_control.
Qed.

Lemma state_governor_fact r l f :
  Forall (λ p, fits 32 p.(CpuFreqPolicyFacts.id)) r.(DiscoveryReport.cpufreq).(CpuFreqFacts.policies) →
  state_facts r = Some l → f ∈ l → about ControlId.CpuGovernor f →
  ∃ p, p ∈ r.(DiscoveryReport.cpufreq).(CpuFreqFacts.policies)
    ∧ f ∈ policy_governor_fact p (TargetId.mk ("cpu.policy." +:+ pretty p.(CpuFreqPolicyFacts.id))).
Proof.
  intros Hfit Hl Hf Ha. unfold state_facts in Hl. cbn zeta in Hl.
  apply bind_Some in Hl as (ps & Hps & Hl). apply bind_Some in Hl as (cs & Hcs & Hl).
  apply bind_Some in Hl as (irqs & His & Hl). simplify_eq. rewrite !elem_of_app in Hf.
  destruct Hf as [Hf|[Hf|[Hf|[Hf|[Hf|Hf]]]]].
  - apply list_elem_of_In, in_concat in Hf as (k & Hk & Hf). apply list_elem_of_In in Hk, Hf.
    apply mapM_Some in Hps. destruct (Forall2_elem_r _ _ _ _ Hps Hk) as (p & Hp & Hk').
    rewrite Forall_forall in Hfit. exists p. split; [done|]. by eapply policy_governor_only; [apply Hfit| | |].
  - unfold boost_fact in Hf. by other_control.
  - unfold platform_fact in Hf. by other_control.
  - unfold add_observed_text_fact in Hf. by other_control.
  - by eapply cgroup_no_governor in Ha.
  - apply list_elem_of_In, in_concat in Hf as (k & Hk & Hf). apply list_elem_of_In in Hk, Hf.
    apply mapM_Some in His. destruct (Forall2_elem_r _ _ _ _ His Hk) as (e & _ & Hk').
    by eapply irq_no_governor in Ha.
Qed.

(** What a fact says when policy [n] was read to have governor [text]. *)
Record governor_fact (sysfs : ReadOnlyFileSystem.t) (n : u32) (text : string) (f : CurrentStateFact.t) : Prop := {
  governor_text : file_text sysfs (policy_file n "scaling_governor") text;
  governor_valid : is_ok (GovernorId.new text) = true;
  governor_control : f.(CurrentStateFact.control) = ControlId.CpuGovernor;
  governor_target : f.(CurrentStateFact.target) = TargetId.mk ("cpu.policy." +:+ pretty n);
  governor_typed : f.(CurrentStateFact.typed_target) = Some (TypedTarget.CpuPolicy (CpuPolicyId.mk n));
  governor_known : CurrentStateFact.known_value f
    = Some (PlanValue.Typed (TypedValue.Governor (GovernorId.mk text)));
  governor_fingerprint : f.(CurrentStateFact.fingerprint)
    = Some (fingerprint_for_value (PlanValue.Typed (TypedValue.Governor (GovernorId.mk text))));
  governor_identity : f.(CurrentStateFact.target_identity)
    = proven_identity sysfs ("devices/system/cpu/cpufreq/policy" +:+ pretty n)
}.

Lemma governor_new text : GovernorId.new text = Ok (GovernorId.mk text) ∨ is_ok (GovernorId.new text) = false.
Proof. unfold GovernorId.new. destruct (_ || _); [by right|by left]. Qed.

Lemma governor_value_Some text v :
  governor_value text = Some v ↔
  is_ok (GovernorId.new text) = true ∧ v = PlanValue.Typed (TypedValue.Governor (GovernorId.mk text)).
Proof.
  unfold governor_value. destruct (governor_new text) as [->|Hn]; cbn.
  - split; [by intros [= <-]|by intros [_ ->]].
  - destruct (GovernorId.new text); [done|]. cbn. split; [done|by intros [? _]].
Qed.

Lemma policy_governor_fact_of sysfs n p fs f :
  detect_policy sysfs n = Some (p, fs) →
  f ∈ policy_governor_fact p (TargetId.mk ("cpu.policy." +:+ pretty n)) →
  ∃ text, governor_fact sysfs n text f.
Proof.
  intros (Hid & Hi & Hg)%detect_policy_governor Hf. unfold policy_governor_fact, fact_of in Hf.
  destruct (CpuFreqPolicyFacts.current_governor p) as [text|]; cbn in Hf; [|by apply elem_of_nil in Hf].
  destruct (governor_value text) as [v|] eqn:Hv; [|by apply elem_of_nil in Hf].
  apply governor_value_Some in Hv as [Hok ->]. apply list_elem_of_singleton in Hf as ->.
  exists text. split; cbn; try done; [by apply Hg|by rewrite Hid].
Qed.

Lemma file_text_read fs file text :
  path_ok file = true → file_text fs file text → read_text fs file = Some (Probe.Present text).
Proof.
  intros Hp (bytes & raw & Hr & Hl & Hu & ->). unfold read_text, read_bytes, path.
  rewrite relative_path_new, Hp. cbn. rewrite Hr. apply N.leb_le in Hl. rewrite Hl. cbn. by rewrite Hu.
Qed.

Lemma detect_policy_reads sysfs n p fs text :
  fits 32 n → detect_policy sysfs n = Some (p, fs) →
  file_text sysfs (policy_file n "scaling_governor") text →
  p.(CpuFreqPolicyFacts.current_governor) = Some text.
Proof.
  intros Hn Hp Ht. apply file_text_read in Ht; [|by apply policy_file_ok].
  unfold policy_file in Ht. change ("/" +:+ "scaling_governor") with "/scaling_governor" in Ht.
  unfold detect_policy in Hp. cbn zeta in Hp. do 4 (apply bind_Some in Hp as (?&_&Hp)).
  rewrite Ht in Hp. cbn [mbind option_bind] in Hp. open_detector Hp. by simplify_eq.
Qed.

Lemma policy_governor_present sysfs n p fs text :
  fits 32 n → detect_policy sysfs n = Some (p, fs) →
  file_text sysfs (policy_file n "scaling_governor") text → is_ok (GovernorId.new text) = true →
  ∃ f, f ∈ policy_governor_fact p (TargetId.mk ("cpu.policy." +:+ pretty n)).
Proof.
  intros Hn Hd Ht Hok. unfold policy_governor_fact. rewrite (detect_policy_reads _ _ _ _ _ Hn Hd Ht). cbn.
  rewrite (proj2 (governor_value_Some text _)) by done. eexists. by apply list_elem_of_singleton.
Qed.

Lemma state_holds_policy r l p target f :
  state_facts r = Some l → p ∈ r.(DiscoveryReport.cpufreq).(CpuFreqFacts.policies) →
  TargetId.new ("cpu.policy." +:+ pretty p.(CpuFreqPolicyFacts.id)) = Ok target →
  f ∈ policy_governor_fact p target → f ∈ l.
Proof.
  intros Hl Hp Ht Hf. unfold state_facts in Hl. cbn zeta in Hl. apply bind_Some in Hl as (ps & Hps & Hl).
  do 2 (apply bind_Some in Hl as (?&_&Hl)). simplify_eq. apply elem_of_app. left.
  apply list_elem_of_lookup in Hp as [i Hi]. apply mapM_Some in Hps.
  destruct (Forall2_lookup_l _ _ _ _ _ Hps Hi) as (k & Hk & Hpk).
  apply list_elem_of_In, in_concat. exists k. rewrite <-!list_elem_of_In.
  split; [by eapply list_elem_of_lookup_2|]. unfold policy_facts in Hpk. rewrite Ht in Hpk.
  cbn [ok mbind option_bind] in Hpk. apply bind_Some in Hpk as (e & _ & Hpk). simplify_eq.
  apply elem_of_app. by left.
Qed.

(** C23. A governor fact in the planner's current state says exactly what was read:
    it is about a listed policy, its value is the trimmed text of the policy's
    governor file, its identity is the one the port proves of the policy's
    directory, and its fingerprint is the value's; and every listed policy
    whose governor can be read and is an identifier has such a fact. *)
Theorem governor_facts_exact sources at_ r st
    (Hr : discover_at sources at_ = Some r) (Hst : current_state r = Some (Ok st)) :
  let sysfs := sources.(DiscoverySources.sysfs) in
  (∀ f, f ∈ st.(CurrentState.facts) → f.(CurrentStateFact.control) = ControlId.CpuGovernor →
     ∃ n text, n ∈ listed_policies sysfs ∧ governor_fact sysfs n text f)
  ∧ (∀ n text, n ∈ listed_policies sysfs →
     file_text sysfs (policy_file n "scaling_governor") text → is_ok (GovernorId.new text) = true →
     ∃ f, f ∈ st.(CurrentState.facts) ∧ governor_fact sysfs n text f).
Proof.
  cbn zeta. pose proof (report_ids_fit _ _ _ Hr) as Hfit. apply discovered_policies in Hr as Hps.
  unfold current_state in Hst. apply bind_Some in Hst as (l & Hl & [= Hst]). split.
  - intros f Hf Hc. apply (current_state_facts _ _ _ _ Hst) in Hf.
    destruct (state_governor_fact _ _ _ Hfit Hl Hf Hc) as (p & Hp & Hg).
    destruct (Forall2_elem_r _ _ _ _ Hps Hp) as (n & Hn & fs & Hd).
    assert (p.(CpuFreqPolicyFacts.id) = n) as Hid by by apply detect_policy_governor in Hd as [-> _].
    rewrite Hid in Hg. destruct (policy_governor_fact_of _ _ _ _ _ Hd Hg) as [text Ht]. by exists n, text.
  - intros n text Hn Ht Hok. pose proof (listed_policies_fit sources.(DiscoverySources.sysfs)) as Hfits.
    rewrite Forall_forall in Hfits. specialize (Hfits n Hn). apply list_elem_of_lookup in Hn as [i Hi].
    destruct (Forall2_lookup_l _ _ _ _ _ Hps Hi) as (p & Hp & fs & Hd).
    apply list_elem_of_lookup_2 in Hp.
    assert (p.(CpuFreqPolicyFacts.id) = n) as Hid by by apply detect_policy_governor in Hd as [-> _].
    destruct (policy_governor_present _ _ _ _ _ Hfits Hd Ht Hok) as [f Hf].
    destruct (policy_governor_fact_of _ _ _ _ _ Hd Hf) as [text' Hf'].
    assert (text' = text) as ->.
    { pose proof (detect_policy_reads _ _ _ _ _ Hfits Hd (governor_text _ _ _ _ Hf')).
      pose proof (detect_policy_reads _ _ _ _ _ Hfits Hd Ht). congruence. }
    exists f. split; [|done]. apply (current_state_facts _ _ _ _ Hst).
    eapply state_holds_policy; [done..|rewrite Hid; by apply numbered_target|done].
Qed.
