(* ===== verification/WorkloadLaws.v ===== *)
(** * Laws of the workload backend, and of its fixture

    What a stage of the backend does over any port; the books of the fixture,
    which every operation keeps; and that over the fixture a restore undoes an
    application exactly. *)
From Stdlib Require Import Strings.Byte.
From S2P Require Import Prelude Lists Text Str Ids Mut Capability Mutation.
From S2P Require Import Decision Plan Policy Session Render Digest Record Ports Workload WorkloadText CgroupFixture.
Local Open Scope N_scope.
Unset Default Proof Using.

(** ** Over any port *)

Section Backend.
Context {S : Type} `{!WorkloadControlIo.t S}.

Lemma read_run (m : PlannedMutation.t) (s : S) : Workload.read m s = (read_kind s m.(PlannedMutation.kind), s).
Proof. done. Qed.

(** The session may still restore: the live value is the one it owns, under
    the identity of the snapshot. *)
Definition owned (m : PlannedMutation.t) (snap : Snapshot.t) (own : StateFingerprint.t) (s : S) : Prop :=
  ∃ o, read_kind s m.(PlannedMutation.kind) = Ok o
    ∧ o.(WorkloadObservation.target_identity) = snap.(Snapshot.target_identity)
    ∧ o.(WorkloadObservation.fingerprint) = own.

Lemma negb_decide_or (P Q : Prop) `{Decision P, Decision Q} :
  negb (bool_decide P) || negb (bool_decide Q) = false ↔ P ∧ Q.
Proof. repeat case_bool_decide; naive_solver. Qed.

Lemma restore_spec m snap own (s s' : S) res :
  restore_internal m snap own s = (res, s') →
  (s' = s ∧ is_ok res = false)
  ∨ (owned m snap own s
     ∧ ∃ w, WorkloadControlIo.write_mutation m.(PlannedMutation.kind) snap.(Snapshot.original_typed) s = (w, s')
     ∧ (is_ok res = true → w = Ok tt ∧ owned m snap snap.(Snapshot.original_fingerprint) s')).
Proof.
  unfold restore_internal. intros Hr.
  apply mut_bind_cases in Hr as [(e & [= He <-] & ->)|(current & s1 & [= Hc <-] & Hr)]; [by left|].
  destruct (decide (current.(WorkloadObservation.target_identity) = snap.(Snapshot.target_identity))) as [Hi|Hi].
  2: { rewrite bool_decide_false in Hr by done. injection Hr as <- <-. by left. }
  rewrite bool_decide_true in Hr by done. cbn [negb] in Hr.
  destruct (decide (current.(WorkloadObservation.fingerprint) = own)) as [Hf|Hf].
  2: { rewrite bool_decide_false in Hr by done. injection Hr as <- <-. by left. }
  rewrite bool_decide_true in Hr by done. cbn [negb] in Hr.
  right. split; [by exists current|].
  apply mut_bind_cases in Hr as [(e & Hw & ->)|([] & s1 & Hw & Hr)]; [by exists (Err e)|].
  exists (Ok tt).
  apply mut_bind_cases in Hr as [(e & [= He <-] & ->)|(restored & s2 & [= Hres <-] & Hr)]; [done|].
  destruct (_ || _) eqn:Hg in Hr; injection Hr as <- <-; (split; [done|]); [done|]. intros _.
  apply negb_decide_or in Hg as [? ?]. split; [done|]. by exists restored.
Qed.

(** A restore writes only when the target still reads as the session left
    it, under the identity of the snapshot, and a receipt means that it reads
    as the original again; otherwise nothing is touched. *)
Theorem workload_restore_compares m snap own (s s' : S) res :
  restore_internal m snap own s = (res, s') →
  (¬ owned m snap own s → s' = s ∧ is_ok res = false)
  ∧ (is_ok res = true → owned m snap snap.(Snapshot.original_fingerprint) s').
Proof.
  intros Hr%restore_spec. split.
  - intros Hn. by destruct Hr as [|[]].
  - intros Hres. destruct Hr as [[_ Hf]|(_ & w & _ & Hw)]; [congruence|by apply Hw].
Qed.

Lemma apply_spec m snap (s s' : S) res :
  apply_internal m snap s = (res, s') →
  (s' = s ∧ is_ok res = false)
  ∨ (owned m snap m.(PlannedMutation.precondition) s
     ∧ WorkloadControlIo.validate_desired s m.(PlannedMutation.kind) m.(PlannedMutation.desired) = Ok tt
     ∧ ∃ w, WorkloadControlIo.write_mutation m.(PlannedMutation.kind) m.(PlannedMutation.desired) s = (w, s')
     ∧ ∀ r, res = Ok r →
         w = Ok tt
         ∧ r.(ApplyReceipt.ownership_fingerprint)
           = fingerprint_for_value (PlanValue.Typed m.(PlannedMutation.desired))
         ∧ owned m snap r.(ApplyReceipt.ownership_fingerprint) s').
Proof.
  unfold apply_internal. intros Hr.
  apply mut_bind_cases in Hr as [(e & [= He <-] & ->)|(current & s1 & [= Hc <-] & Hr)]; [by left|].
  destruct (_ || _) eqn:Hg in Hr; [injection Hr as <- <-; by left|].
  apply negb_decide_or in Hg as [Hi Hf].
  apply mut_bind_cases in Hr as [(e & [=] & _)|(s0 & s1 & [= <- <-] & Hr)].
  apply mut_bind_cases in Hr as [(e & [= He <-] & ->)|([] & s1 & [= Hv <-] & Hr)]; [by left|].
  right. split; [by exists current|]. split; [done|].
  apply mut_bind_cases in Hr as [(e & Hw & ->)|([] & s1 & Hw & Hr)]; [by exists (Err e)|].
  exists (Ok tt).
  apply mut_bind_cases in Hr as [(e & [= He <-] & ->)|(after & s2 & [= Ha <-] & Hr)]; [done|].
  destruct (_ || _) eqn:Hg in Hr; injection Hr as <- <-; (split; [done|]); [done|]. intros r [= <-].
  apply negb_decide_or in Hg as [? ?]. cbn. split_and!; [done..|]. by exists after.
Qed.

(** An application writes only over the planned value, under the identity
    of the snapshot and after the port has accepted the desired value; a
    receipt means that the target then reads as desired.  After an error the
    host is as it was or as the one write left it: nothing is written back. *)
Theorem workload_apply_proves m snap (s s' : S) res :
  apply_internal m snap s = (res, s') →
  (s' ≠ s → owned m snap m.(PlannedMutation.precondition) s
     ∧ WorkloadControlIo.validate_desired s m.(PlannedMutation.kind) m.(PlannedMutation.desired) = Ok tt)
  ∧ (is_ok res = true →
     owned m snap (fingerprint_for_value (PlanValue.Typed m.(PlannedMutation.desired))) s')
  ∧ (is_ok res = false → s' = s
     ∨ ∃ w, WorkloadControlIo.write_mutation m.(PlannedMutation.kind) m.(PlannedMutation.desired) s = (w, s')).
Proof.
  intros Hr%apply_spec. split_and!.
  - intros Hn. destruct Hr as [[]|(? & ? & _)]; done.
  - intros Hres. destruct Hr as [[_ Hf]|(_ & _ & w & _ & Hw)]; [congruence|].
    destruct res as [r|]; [|done]. destruct (Hw r eq_refl) as (_ & <- & Ho). exact Ho.
  - intros _. destruct Hr as [[-> _]|(_ & _ & w & Hw & _)]; [by left|right; by exists w].
Qed.

Lemma snapshot_spec m now (s s' : S) snap :
  snapshot_internal m now s = (Ok snap, s') →
  s' = s ∧ ∃ o, read_kind s m.(PlannedMutation.kind) = Ok o
    ∧ snap.(Snapshot.original_typed) = o.(WorkloadObservation.typed)
    ∧ snap.(Snapshot.original_fingerprint) = o.(WorkloadObservation.fingerprint)
    ∧ snap.(Snapshot.target_identity) = o.(WorkloadObservation.target_identity)
    ∧ o.(WorkloadObservation.typed) ≠ m.(PlannedMutation.desired).
Proof.
  unfold snapshot_internal. intros Hr.
  apply mut_bind_Ok in Hr as (o & s1 & [= Ho <-] & Hr).
  apply mut_bind_Ok in Hr as (u & s1 & [= _ <-] & Hr).
  case_bool_decide as Hd; [done|]. injection Hr as <- <-. by split; [|exists o].
Qed.
End Backend.

(** ** The books of the fixture *)

(** The group at a handle, and the handle a process is recorded at. *)
Definition group_at (x : CgroupFixture.t) (k : TargetId.t) : option FixtureGroup.t :=
  map_get k x.(CgroupFixture.groups).
Definition handle_of (x : CgroupFixture.t) (p : ProcessId.t) : option TargetId.t :=
  FixtureProcess.cgroup <$> x.(CgroupFixture.processes) !! p.

(** A process is in the set of the group it is recorded at and in no other,
    and that group is there. *)
Record coherent (x : CgroupFixture.t) : Prop := {
  co_sorted : map_sorted x.(CgroupFixture.groups);
  co_handle : ∀ k g, group_at x k = Some g → g.(FixtureGroup.identity).(CgroupId.handle) = k;
  co_member : ∀ k g p, group_at x k = Some g → p ∈ g.(FixtureGroup.processes) ↔ handle_of x p = Some k;
  co_placed : ∀ p k, handle_of x p = Some k → is_Some (group_at x k);
  co_process : ∀ p q, x.(CgroupFixture.processes) !! p = Some q → q.(FixtureProcess.identity) = p
}.

Lemma group_at_insert k j g x :
  group_at (CgroupFixture.insert_group k g x) j = if decide (j = k) then Some g else group_at x j.
Proof.
  unfold group_at. cbn. destruct (decide (j = k)) as [->|].
  - apply map_get_insert_eq.
  - by apply map_get_insert_ne.
Qed.

Lemma group_at_update k f j x :
  group_at (CgroupFixture.update_group k f x) j = if decide (j = k) then f <$> group_at x k else group_at x j.
Proof.
  unfold CgroupFixture.update_group. fold (group_at x k). destruct (group_at x k) as [g|] eqn:E.
  - by rewrite group_at_insert.
  - destruct (decide (j = k)) as [->|]; [by rewrite E|done].
Qed.

Lemma update_processes k f x :
  (CgroupFixture.update_group k f x).(CgroupFixture.processes) = x.(CgroupFixture.processes).
Proof. unfold CgroupFixture.update_group. by destruct (map_get _ _). Qed.

Lemma update_sorted k f x :
  map_sorted x.(CgroupFixture.groups) → map_sorted (CgroupFixture.update_group k f x).(CgroupFixture.groups).
Proof. unfold CgroupFixture.update_group. destruct (map_get _ _); [apply map_insert_sorted|done]. Qed.

(** Two fixtures with sorted groups are equal when they show the same. *)
Lemma fixture_ext x y :
  map_sorted x.(CgroupFixture.groups) → map_sorted y.(CgroupFixture.groups) →
  (∀ k, group_at x k = group_at y k) → x.(CgroupFixture.processes) = y.(CgroupFixture.processes) → x = y.
Proof.
  destruct x as [g p], y as [g' p']. cbn. intros Hs Hs' Hg ->. f_equal. by apply map_sorted_ext.
Qed.

Lemma resolve_Ok x c g :
  CgroupFixture.resolve_group x c = Ok g →
  group_at x c.(CgroupId.handle) = Some g
  ∧ ∀ y g', group_at y c.(CgroupId.handle) = Some g' →
      g'.(FixtureGroup.identity) = g.(FixtureGroup.identity) → CgroupFixture.resolve_group y c = Ok g'.
Proof.
  unfold CgroupFixture.resolve_group, group_at. destruct (map_get _ _) as [g0|]; [|done].
  cbn [ok_or mbind result_bind]. destruct (_ || _) eqn:E; [done|]. intros [= ->]. split; [done|].
  intros y g' -> Hi. cbn [ok_or mbind result_bind]. by rewrite Hi, E.
Qed.

(** A resolved update is an update. *)
Lemma modify_group_run c f x res x' :
  CgroupFixture.modify_group c f x = (res, x') →
  (∃ e, res = Err e ∧ x' = x)
  ∨ ∃ g, res = Ok tt ∧ CgroupFixture.resolve_group x c = Ok g
      ∧ x' = CgroupFixture.update_group c.(CgroupId.handle) f x.
Proof.
  unfold CgroupFixture.modify_group. destruct (CgroupFixture.resolve_group x c) as [g|e] eqn:E.
  - intros [= <- <-]. right. exists g. split_and!; [done..|].
    apply resolve_Ok in E as [E _]. unfold CgroupFixture.update_group. fold (group_at x c.(CgroupId.handle)).
    by rewrite E.
  - intros [= <- <-]. left. by exists e.
Qed.

(** An update that keeps the handle and the processes of its group. *)
Lemma coherent_update k f x :
  (∀ g, (f g).(FixtureGroup.identity).(CgroupId.handle) = g.(FixtureGroup.identity).(CgroupId.handle)
        ∧ (f g).(FixtureGroup.processes) = g.(FixtureGroup.processes)) →
  coherent x → coherent (CgroupFixture.update_group k f x).
Proof.
  intros Hf Hx. assert (∀ p, handle_of (CgroupFixture.update_group k f x) p = handle_of x p) as Hh
    by (intros p; unfold handle_of; by rewrite update_processes).
  split.
  - by apply update_sorted, Hx.
  - intros j g. rewrite group_at_update. destruct (decide (j = k)) as [->|]; [|apply Hx].
    intros (g0 & Hg & ->)%fmap_Some. rewrite (proj1 (Hf _)). by apply Hx.
  - intros j g p. rewrite group_at_update, Hh. destruct (decide (j = k)) as [->|]; [|apply Hx].
    intros (g0 & Hg & ->)%fmap_Some. rewrite (proj2 (Hf _)). by apply Hx.
  - intros p j. rewrite Hh, group_at_update. intros [g Hg]%Hx. destruct (decide (j = k)) as [->|]; [|done].
    by rewrite Hg.
  - rewrite update_processes. apply Hx.
Qed.

(** ** Moving a process *)

Lemma identity_processes ps g : FixtureGroup.identity (FixtureGroup.set_processes ps g) = g.(FixtureGroup.identity).
Proof. by destruct g. Qed.
Lemma processes_processes ps g : FixtureGroup.processes (FixtureGroup.set_processes ps g) = ps.
Proof. by destruct g. Qed.

(** What is left of a fixture when a process is taken out of its group, and
    what it is when a process is entered in a group. *)
Definition taken (p : ProcessId.t) (x : CgroupFixture.t) : CgroupFixture.t :=
  match handle_of x p with
  | Some k => CgroupFixture.update_group k (FixtureGroup.remove_process p) x
  | None => x
  end.
Definition entered (p : ProcessId.t) (q : FixtureProcess.t) (x : CgroupFixture.t) : CgroupFixture.t :=
  CgroupFixture.set_processes (<[p := q]> x.(CgroupFixture.processes))
    (CgroupFixture.update_group q.(FixtureProcess.cgroup) (FixtureGroup.insert_process p) x).

Lemma taken_processes p x : (taken p x).(CgroupFixture.processes) = x.(CgroupFixture.processes).
Proof. unfold taken. destruct (handle_of x p); [apply update_processes|done]. Qed.

(** A group after a process has been taken out everywhere. *)
Lemma group_at_taken p x k :
  coherent x → group_at (taken p x) k = FixtureGroup.remove_process p <$> group_at x k.
Proof.
  intros Hx. assert (∀ g, p ∉ g.(FixtureGroup.processes) → FixtureGroup.remove_process p g = g) as Hid.
  { intros [] Hp. unfold FixtureGroup.remove_process. cbn in *. f_equal. set_solver. }
  unfold taken. destruct (handle_of x p) as [h|] eqn:Hh.
  - rewrite group_at_update. destruct (decide (k = h)) as [->|Hne]; [done|].
    destruct (group_at x k) as [g|] eqn:Hg; cbn; [|done]. rewrite Hid; [done|].
    rewrite (co_member _ Hx _ _ _ Hg). congruence.
  - destruct (group_at x k) as [g|] eqn:Hg; cbn; [|done]. rewrite Hid; [done|].
    rewrite (co_member _ Hx _ _ _ Hg). congruence.
Qed.

Lemma taken_sorted p x : coherent x → map_sorted (taken p x).(CgroupFixture.groups).
Proof. intros Hx. unfold taken. destruct (handle_of x p); [apply update_sorted|]; apply Hx. Qed.

Lemma coherent_taken p x :
  coherent x → coherent (CgroupFixture.set_processes (delete p x.(CgroupFixture.processes)) (taken p x)).
Proof.
  intros Hx. set (y := CgroupFixture.set_processes _ _).
  assert (∀ r, handle_of y r = if decide (r = p) then None else handle_of x r) as Hh.
  { intros r. unfold handle_of, y. cbn. destruct (decide (r = p)) as [->|].
    - by rewrite lookup_delete_eq.
    - by rewrite lookup_delete_ne. }
  assert (∀ k, group_at y k = FixtureGroup.remove_process p <$> group_at x k) as Hg
    by (intros k; by apply (group_at_taken p x k)).
  split.
  - by apply taken_sorted.
  - intros k g. rewrite Hg. intros (g0 & Hk & ->)%fmap_Some. unfold FixtureGroup.remove_process.
    rewrite identity_processes. by apply Hx.
  - intros k g r. rewrite Hg, Hh. intros (g0 & Hk & ->)%fmap_Some. unfold FixtureGroup.remove_process.
    rewrite processes_processes, elem_of_difference, (co_member _ Hx _ _ _ Hk), elem_of_singleton.
    destruct (decide (r = p)) as [->|]; naive_solver.
  - intros r k. rewrite Hh, Hg. destruct (decide (r = p)); [done|]. intros [g ->]%Hx. by eexists.
  - intros r q. cbn. intros [_ Hq]%lookup_delete_Some. by apply Hx.
Qed.

Lemma coherent_entered p q x :
  handle_of x p = None → q.(FixtureProcess.identity) = p → is_Some (group_at x q.(FixtureProcess.cgroup)) →
  coherent x → coherent (entered p q x).
Proof.
  intros Hn Hi [g0 Hg0] Hx. set (k0 := q.(FixtureProcess.cgroup)) in *.
  assert (∀ r, handle_of (entered p q x) r = if decide (r = p) then Some k0 else handle_of x r) as Hh.
  { intros r. unfold handle_of, entered. cbn. destruct (decide (r = p)) as [->|].
    - by rewrite lookup_insert_eq.
    - by rewrite lookup_insert_ne. }
  assert (∀ k, group_at (entered p q x) k
               = if decide (k = k0) then FixtureGroup.insert_process p <$> group_at x k0 else group_at x k) as Hg
    by (intros k; apply (group_at_update k0)).
  split.
  - by apply (update_sorted k0), Hx.
  - intros k g. rewrite Hg. destruct (decide (k = k0)) as [->|]; [|apply Hx].
    intros (g1 & Hk & ->)%fmap_Some. unfold FixtureGroup.insert_process. rewrite identity_processes. by apply Hx.
  - intros k g r. rewrite Hg, Hh. destruct (decide (k = k0)) as [->|Hk].
    + intros (g1 & Hk & ->)%fmap_Some. unfold FixtureGroup.insert_process.
      rewrite processes_processes, elem_of_union, (co_member _ Hx _ _ _ Hk), elem_of_singleton.
      destruct (decide (r = p)); naive_solver.
    + intros Hgk. rewrite (co_member _ Hx _ _ _ Hgk). destruct (decide (r = p)) as [->|]; [|done].
      rewrite Hn. naive_solver.
  - intros r k. rewrite Hh, Hg. destruct (decide (r = p)) as [->|].
    + intros [= <-]. rewrite decide_True by done. rewrite Hg0. by eexists.
    + intros [g Hgk]%Hx. destruct (decide (k = k0)) as [->|]; [|by exists g]. rewrite Hg0. by eexists.
  - intros r q'. unfold entered. cbn. destruct (decide (r = p)) as [->|].
    + rewrite lookup_insert_eq. by intros [= <-].
    + rewrite lookup_insert_ne by done. apply Hx.
Qed.

(** A process moved to a group that is there. *)
Definition moved (p : ProcessId.t) (q : FixtureProcess.t) (x : CgroupFixture.t) : CgroupFixture.t :=
  entered p q (CgroupFixture.set_processes (delete p x.(CgroupFixture.processes)) (taken p x)).

Lemma coherent_moved p q x :
  q.(FixtureProcess.identity) = p → is_Some (group_at x q.(FixtureProcess.cgroup)) →
  coherent x → coherent (moved p q x).
Proof.
  intros Hi [g Hg] Hx. apply coherent_entered; [|done| |by apply coherent_taken].
  - unfold handle_of. cbn. by rewrite lookup_delete_eq.
  - change (is_Some (group_at (taken p x) q.(FixtureProcess.cgroup))).
    rewrite group_at_taken by done. rewrite Hg. by eexists.
Qed.

Lemma handle_lookup x p q : x.(CgroupFixture.processes) !! p = Some q → handle_of x p = Some q.(FixtureProcess.cgroup).
Proof. unfold handle_of. by intros ->. Qed.

(** The steps of [move_fixture_process] make the move, or change nothing. *)
Lemma move_run x p dst res x' :
  coherent x → CgroupFixture.move_fixture_process p dst x = (res, x') →
  (∃ e, res = Err e ∧ x' = x
        ∧ (is_ok (CgroupFixture.resolve_group x dst) = false ∨ x.(CgroupFixture.processes) !! p = None))
  ∨ ∃ g q, res = Ok tt ∧ CgroupFixture.resolve_group x dst = Ok g ∧ x.(CgroupFixture.processes) !! p = Some q
      ∧ group_at x dst.(CgroupId.handle) = Some g
      ∧ x' = moved p (FixtureProcess.set_cgroup dst.(CgroupId.handle) q) x.
Proof.
  intros Hx. unfold CgroupFixture.move_fixture_process. intros Hr.
  apply mut_bind_cases in Hr as [(e & [=] & _)|(x0 & s1 & [= <- <-] & Hr)].
  apply mut_bind_cases in Hr as [(e & [= He <-] & ->)|(g & s1 & [= Hg <-] & Hr)].
  { left. exists e. rewrite He. auto. }
  cbv zeta in Hr.
  apply mut_bind_cases in Hr as [(e & [= He <-] & ->)|(q & s1 & [= Hq <-] & Hr)].
  { left. exists e. destruct (_ !! p); [done|auto]. }
  destruct (x.(CgroupFixture.processes) !! p) as [q0|] eqn:Hp; [|done]. injection Hq as ->.
  pose proof (resolve_Ok _ _ _ Hg) as [Hga _]. pose proof (co_handle _ Hx _ _ Hga) as Hid. rewrite Hid in Hr.
  apply mut_bind_cases in Hr as [(e & [=] & _)|(u & s1 & [= _ <-] & Hr)].
  apply mut_bind_cases in Hr as [(e & [=] & _)|(x1 & s1 & [= <- <-] & Hr)].
  set (y := CgroupFixture.update_group _ _ x) in *.
  assert (y = taken p x) as Hy.
  { unfold taken. by rewrite (handle_lookup _ _ _ Hp). }
  assert (is_Some (group_at y dst.(CgroupId.handle))) as [g1 Hg1].
  { rewrite Hy, group_at_taken, Hga by done. by eexists. }
  apply mut_bind_cases in Hr as [(e & [= He <-] & ->)|(g2 & s1 & [= Hg2 <-] & Hr)].
  { unfold group_at in Hg1. by rewrite Hg1 in He. }
  assert (g2 = g1) as -> by (unfold group_at in Hg1; rewrite Hg1 in Hg2; by injection Hg2).
  apply mut_bind_cases in Hr as [(e & [=] & _)|(u' & s1 & [= _ <-] & Hr)]. injection Hr as <- <-.
  right. exists g, q. split_and!; [done..|]. unfold moved, entered, CgroupFixture.set_processes. cbn.
  unfold CgroupFixture.update_group. cbn. rewrite <-Hy. fold (group_at y dst.(CgroupId.handle)). rewrite Hg1. cbn.
  f_equal. rewrite insert_delete_eq.
  assert (y.(CgroupFixture.processes) = x.(CgroupFixture.processes)) as -> by apply update_processes.
  apply map_eq. intros r. destruct (decide (r = p)) as [->|].
  - by rewrite lookup_alter_eq, lookup_insert_eq, Hp.
  - by rewrite lookup_alter_ne, lookup_insert_ne.
Qed.

(** ** Managed groups *)

Lemma existsb_false {A} (f : A → bool) l : existsb f l = false ↔ ∀ a, a ∈ l → f a = false.
Proof.
  rewrite <-not_true_iff_false, existsb_exists. setoid_rewrite <-list_elem_of_In.
  setoid_rewrite <-not_true_iff_false. naive_solver.
Qed.

Lemma values_group x g : coherent x → g ∈ map_values x.(CgroupFixture.groups) → ∃ k, group_at x k = Some g.
Proof.
  intros Hx ([k v] & -> & Hin)%list_elem_of_fmap. exists k. unfold group_at. cbn.
  apply map_get_elem; [apply Hx|done].
Qed.

(** A group created: where, and with which identity and directory. *)
Lemma create_run x parent name res x' :
  CgroupFixture.create_fixture_group parent name x = (res, x') →
  (∃ e, res = Err e ∧ x' = x)
  ∨ ∃ pg target identity, res = Ok tt ∧ CgroupFixture.resolve_group x parent = Ok pg
      ∧ child_target parent.(CgroupId.handle) name = Ok target ∧ group_at x target = None
      ∧ identity.(CgroupId.handle) = target
      ∧ x' = CgroupFixture.insert_group target
               (FixtureGroup.fresh identity (child_path pg.(FixtureGroup.relative_path) name)
                  pg.(FixtureGroup.controllers) pg.(FixtureGroup.delegated) pg.(FixtureGroup.cpuset)) x.
Proof.
  unfold CgroupFixture.create_fixture_group. intros Hr.
  apply mut_bind_cases in Hr as [(e & [=] & _)|(x0 & s1 & [= <- <-] & Hr)].
  apply mut_bind_cases in Hr as [(e & [= _ <-] & ->)|(pg & s1 & [= Hpg <-] & Hr)]; [left; by eexists|].
  apply mut_bind_cases in Hr as [(e & [= _ <-] & ->)|(target & s1 & [= Ht <-] & Hr)]; [left; by eexists|].
  fold (group_at x target) in Hr. destruct (group_at x target) eqn:Hn; cbn [is_some] in Hr.
  - injection Hr as <- <-. left. by eexists.
  - cbv zeta in Hr. injection Hr as <- <-. right.
    exists pg, target. eexists (CgroupId.mk _ _ target). by split_and!.
Qed.

Lemma remove_run x parent name res x' :
  CgroupFixture.remove_fixture_group parent name x = (res, x') →
  (∃ e, res = Err e ∧ x' = x)
  ∨ ∃ target g, res = Ok tt ∧ group_at x target = Some g ∧ g.(FixtureGroup.processes) = ∅
      ∧ x' = CgroupFixture.set_groups (map_remove target x.(CgroupFixture.groups)) x.
Proof.
  unfold CgroupFixture.remove_fixture_group. intros Hr.
  apply mut_bind_cases in Hr as [(e & [=] & _)|(x0 & s1 & [= <- <-] & Hr)].
  apply mut_bind_cases in Hr as [(e & [= _ <-] & ->)|(pg & s1 & [= Hpg <-] & Hr)]; [left; by eexists|].
  apply mut_bind_cases in Hr as [(e & [= _ <-] & ->)|(target & s1 & [= Ht <-] & Hr)]; [left; by eexists|].
  apply mut_bind_cases in Hr as [(e & [= _ <-] & ->)|(g & s1 & [= Hg <-] & Hr)]; [left; by eexists|].
  fold (group_at x target) in Hg. destruct (group_at x target) as [g0|] eqn:Hn; [|done]. injection Hg as ->.
  cbv zeta in Hr. destruct (_ || _) eqn:He in Hr; [injection Hr as <- <-; left; by eexists|].
  case_bool_decide; injection Hr as <- <-; [left; by eexists|]. right. exists target, g.
  apply orb_false_iff in He as [He%negb_false_iff%bool_decide_eq_true _]. done.
Qed.

Lemma coherent_create x target g :
  group_at x target = None → g.(FixtureGroup.identity).(CgroupId.handle) = target →
  g.(FixtureGroup.processes) = ∅ → coherent x → coherent (CgroupFixture.insert_group target g x).
Proof.
  intros Hn Hi Hp Hx. split.
  - apply map_insert_sorted, Hx.
  - intros k g'. rewrite group_at_insert. destruct (decide (k = target)) as [->|]; [by intros [= <-]|apply Hx].
  - intros k g' p. rewrite group_at_insert. change (handle_of (CgroupFixture.insert_group target g x) p) with (handle_of x p).
    destruct (decide (k = target)) as [->|]; [|apply Hx]. intros [= <-]. rewrite Hp.
    split; [set_solver|]. intros [g' Hg]%Hx. congruence.
  - intros p k Hk. rewrite group_at_insert. destruct (decide (k = target)); [by eexists|].
    by apply (co_placed _ Hx p).
  - apply Hx.
Qed.

Lemma group_at_remove k j x :
  coherent x →
  group_at (CgroupFixture.set_groups (map_remove k x.(CgroupFixture.groups)) x) j
  = if decide (j = k) then None else group_at x j.
Proof.
  intros Hx. unfold group_at. cbn. destruct (decide (j = k)) as [->|].
  - apply map_get_remove_eq, Hx.
  - by apply map_get_remove_ne.
Qed.

Lemma coherent_remove x target g :
  group_at x target = Some g → g.(FixtureGroup.processes) = ∅ → coherent x →
  coherent (CgroupFixture.set_groups (map_remove target x.(CgroupFixture.groups)) x).
Proof.
  intros Hg Hp Hx. split.
  - apply map_remove_sorted, Hx.
  - intros k g'. rewrite group_at_remove by done. destruct (decide _); [done|apply Hx].
  - intros k g' p. rewrite group_at_remove by done. destruct (decide _); [done|apply Hx].
  - intros p k Hk. rewrite group_at_remove by done.
    destruct (decide (k = target)) as [->|]; [exfalso|by apply (co_placed _ Hx p)].
    apply (co_member _ Hx _ _ p Hg) in Hk. rewrite Hp in Hk. set_solver.
  - apply Hx.
Qed.

(** ** Every operation keeps the books *)

Lemma modify_group_coherent c f :
  (∀ g, (f g).(FixtureGroup.identity).(CgroupId.handle) = g.(FixtureGroup.identity).(CgroupId.handle)
        ∧ (f g).(FixtureGroup.processes) = g.(FixtureGroup.processes)) →
  Keeps (Invariant coherent) (CgroupFixture.modify_group c f).
Proof.
  intros Hf x res x' Hr Hx. apply modify_group_run in Hr as [(e & _ & ->)|(g & _ & _ & ->)]; [done|].
  by apply coherent_update.
Qed.

Lemma modify_process_coherent p f :
  (∀ q, (f q).(FixtureProcess.cgroup) = q.(FixtureProcess.cgroup)
        ∧ (f q).(FixtureProcess.identity) = q.(FixtureProcess.identity)) →
  Keeps (Invariant coherent) (CgroupFixture.modify_process p f).
Proof.
  intros Hf x res x' Hr Hx. unfold CgroupFixture.modify_process in Hr.
  apply mut_bind_cases in Hr as [(e & [=] & _)|(x0 & s1 & [= <- <-] & Hr)].
  apply mut_bind_cases in Hr as [(e & [= _ <-] & ->)|(q & s1 & [= Hq <-] & Hr)]; [done|]. injection Hr as <- <-.
  destruct (x.(CgroupFixture.processes) !! p) as [q0|] eqn:Hp; [|done]. injection Hq as ->.
  set (y := CgroupFixture.set_processes _ x).
  assert (∀ r, handle_of y r = handle_of x r) as Hh.
  { intros r. unfold handle_of, y. cbn. destruct (decide (r = p)) as [->|].
    - rewrite lookup_insert_eq, Hp. cbn. by rewrite (proj1 (Hf _)).
    - by rewrite lookup_insert_ne. }
  split; [apply Hx|apply Hx|..].
  - intros k g r. rewrite Hh. apply Hx.
  - intros r k. rewrite Hh. apply Hx.
  - intros r q'. cbn. destruct (decide (r = p)) as [->|].
    + rewrite lookup_insert_eq. intros [= <-]. rewrite (proj2 (Hf _)). by apply Hx.
    + rewrite lookup_insert_ne by done. apply Hx.
Qed.

Lemma write_mutation_coherent kind desired :
  Keeps (Invariant coherent) (CgroupFixture.write_mutation kind desired).
Proof.
  assert (∀ parent name, Keeps (Invariant coherent) (CgroupFixture.create_fixture_group parent name)) as Hc.
  { intros parent name x res x' Hr Hx.
    apply create_run in Hr as [(e & _ & ->)|(pg & target & i & _ & _ & _ & Hn & Hi & ->)]; [done|].
    by apply coherent_create. }
  assert (∀ parent name, Keeps (Invariant coherent) (CgroupFixture.remove_fixture_group parent name)) as Hd.
  { intros parent name x res x' Hr Hx.
    apply remove_run in Hr as [(e & _ & ->)|(target & g & _ & Hg & Hp & ->)]; [done|].
    by apply (coherent_remove _ _ g). }
  destruct kind, desired; try (apply Keeps_throw, _);
    try (apply modify_group_coherent; intros []; done); try (apply modify_process_coherent; intros []; done);
    try (destruct present; [apply Hc|apply Hd]).
  intros x res x' Hr Hx. apply move_run in Hr as [(e & _ & -> & _)|(g & q & _ & _ & Hq & Hg & ->)]; [done| |done].
  apply coherent_moved; [apply (co_process _ Hx _ _ Hq)|by eexists|done].
Qed.

(** ** What a move leaves, and its inverse *)

Lemma insert_remove p g :
  FixtureGroup.insert_process p (FixtureGroup.remove_process p g) = FixtureGroup.insert_process p g.
Proof.
  destruct g as [i r c d w q pe s io lo hi ps]. cbn. f_equal. apply leibniz_equiv. intros y. cbn.
  destruct (decide (y = p)); set_solver.
Qed.
Lemma insert_member p g : p ∈ g.(FixtureGroup.processes) → FixtureGroup.insert_process p g = g.
Proof. destruct g. cbn. intros Hp. unfold FixtureGroup.insert_process. cbn. f_equal. set_solver. Qed.
Lemma remove_stranger p g : p ∉ g.(FixtureGroup.processes) → FixtureGroup.remove_process p g = g.
Proof. destruct g. cbn. intros Hp. unfold FixtureGroup.remove_process. cbn. f_equal. set_solver. Qed.

Lemma group_at_moved p q x k :
  coherent x →
  group_at (moved p q x) k
  = (if decide (k = q.(FixtureProcess.cgroup)) then FixtureGroup.insert_process p else FixtureGroup.remove_process p)
      <$> group_at x k.
Proof.
  intros Hx. unfold moved, entered.
  change (group_at (CgroupFixture.set_processes ?ps ?y) k) with (group_at y k).
  rewrite group_at_update.
  change (group_at (CgroupFixture.set_processes ?ps ?y) ?j) with (group_at y j).
  rewrite !group_at_taken by done. destruct (decide _) as [->|]; [|done].
  destruct (group_at x _) as [g|]; cbn; [|done]. by rewrite insert_remove.
Qed.

Lemma moved_processes p q x :
  (moved p q x).(CgroupFixture.processes) = <[p := q]> x.(CgroupFixture.processes).
Proof. unfold moved, entered. cbn. by rewrite insert_delete_eq. Qed.

Lemma moved_sorted p q x : coherent x → map_sorted (moved p q x).(CgroupFixture.groups).
Proof. intros Hx. unfold moved, entered. cbn. by apply update_sorted, taken_sorted. Qed.

(** A process moved away and back is where it was. *)
Lemma moved_back p q0 q x :
  coherent x → x.(CgroupFixture.processes) !! p = Some q0 →
  q.(FixtureProcess.identity) = p → is_Some (group_at x q.(FixtureProcess.cgroup)) →
  moved p q0 (moved p q x) = x.
Proof.
  intros Hx Hp Hi Hg. pose proof (coherent_moved p q x Hi Hg Hx) as Hm.
  apply fixture_ext; [by apply moved_sorted|apply Hx| |].
  - intros k. rewrite !group_at_moved by done. destruct (group_at x k) as [g|] eqn:Hk; cbn; [|done]. f_equal.
    pose proof (co_member _ Hx _ _ p Hk) as Hmem. rewrite (handle_lookup _ _ _ Hp) in Hmem.
    assert (FixtureGroup.remove_process p (FixtureGroup.insert_process p g) = FixtureGroup.remove_process p g) as Hri.
    { destruct g. unfold FixtureGroup.remove_process. cbn. f_equal. set_solver. }
    destruct (decide (k = q0.(FixtureProcess.cgroup))) as [->|Hne].
    + assert (FixtureGroup.insert_process p g = g) as Hin by (apply insert_member; by apply Hmem).
      destruct (decide _); by rewrite ?insert_remove, ?Hin.
    + assert (FixtureGroup.remove_process p g = g) as Hrm by (apply remove_stranger; rewrite Hmem; congruence).
      destruct (decide _); by rewrite ?Hri, ?Hrm.
  - rewrite !moved_processes, insert_insert_eq. by apply insert_id.
Qed.

(** ** The states of the fixture *)

Lemma add_process_run p c nice ioprio x res x' :
  coherent x → CgroupFixture.add_process p c nice ioprio x = (res, x') →
  (∃ e, res = Err e ∧ x' = x)
  ∨ is_Some (group_at x c.(CgroupId.handle))
    ∧ x' = moved p (FixtureProcess.mk p c.(CgroupId.handle) nice ioprio) x.
Proof.
  intros Hx. unfold CgroupFixture.add_process. intros Hr.
  apply mut_bind_cases in Hr as [(e & [=] & _)|(x0 & s1 & [= <- <-] & Hr)].
  apply mut_bind_cases in Hr as [(e & [= _ <-] & ->)|(g & s1 & [= Hg <-] & Hr)]; [left; by eexists|].
  cbv zeta in Hr. pose proof (resolve_Ok _ _ _ Hg) as [Hga _]. pose proof (co_handle _ Hx _ _ Hga) as Hid.
  rewrite Hid in Hr. set (k := c.(CgroupId.handle)) in *. right. split; [by eexists|].
  apply mut_bind_cases in Hr as [(e & He & _)|(u & y & Hy & Hr)].
  { destruct (_ !! p); [|done]. by destruct (bool_decide _). }
  assert (y.(CgroupFixture.processes) = x.(CgroupFixture.processes) ∧ map_sorted y.(CgroupFixture.groups)
          ∧ ∀ j, group_at y j = (if decide (j = k) then id else FixtureGroup.remove_process p) <$> group_at x j
                 ∨ j = k ∧ group_at y j = FixtureGroup.remove_process p <$> group_at x j) as (Hp & Hs & Hgy).
  { assert (∀ j g', group_at x j = Some g' → handle_of x p ≠ Some j → FixtureGroup.remove_process p g' = g') as Hst.
    { intros j g' Hj Hne. apply remove_stranger. by rewrite (co_member _ Hx _ _ _ Hj). }
    destruct (x.(CgroupFixture.processes) !! p) as [q|] eqn:Hq.
    - pose proof (handle_lookup _ _ _ Hq) as Hh.
      assert (y = x ∧ q.(FixtureProcess.cgroup) = k ∨ y = taken p x) as Hcase.
      { unfold taken. rewrite Hh. case_bool_decide; injection Hy as _ <-; auto. }
      destruct Hcase as [[-> Hqk]|Hcase].
      + split_and!; [done|apply Hx|]. intros j. left. destruct (decide (j = k)) as [->|Hne]; [by destruct (group_at x k)|].
        destruct (group_at x j) as [g'|] eqn:Hj; cbn; [|done]. rewrite (Hst _ _ Hj); congruence.
      + rewrite Hcase. split_and!; [apply taken_processes|by apply taken_sorted|]. intros j.
        rewrite group_at_taken by done. destruct (decide (j = k)) as [->|]; [right|left]; done.
    - injection Hy as _ <-. split_and!; [done|apply Hx|]. intros j. left.
      destruct (group_at x j) as [g'|] eqn:Hj; cbn; [|done].
      destruct (decide (j = k)); [done|]. rewrite (Hst _ _ Hj); [done|]. unfold handle_of. by rewrite Hq. }
  apply mut_bind_cases in Hr as [(e & [=] & _)|(x1 & s1 & [= <- <-] & Hr)]. fold (group_at y k) in Hr.
  assert (∃ g1, group_at y k = Some g1 ∧ FixtureGroup.insert_process p g1 = FixtureGroup.insert_process p g) as (g1 & Hg1 & Hins).
  { destruct (Hgy k) as [->|[_ ->]]; rewrite ?decide_True by done; rewrite Hga; cbn; eexists; (split; [done|]); [done|].
    apply insert_remove. }
  rewrite Hg1 in Hr.
  apply mut_bind_cases in Hr as [(e & [=] & _)|(g2 & s1 & [= <- <-] & Hr)].
  apply mut_bind_cases in Hr as [(e & [=] & _)|(u' & s1 & [= _ <-] & Hr)]. injection Hr as _ <-.
  apply fixture_ext; [by apply map_insert_sorted|by apply moved_sorted| |].
  - intros j. rewrite group_at_moved by done. cbn [FixtureProcess.cgroup].
    change (group_at (CgroupFixture.set_processes ?ps ?z) j) with (group_at z j). rewrite group_at_insert.
    destruct (decide (j = k)) as [->|Hne]; [by rewrite Hga, Hins|].
    destruct (Hgy j) as [->|[? _]]; [by rewrite decide_False|done].
  - rewrite moved_processes. cbn. by rewrite Hp.
Qed.

(** The states its users can bring the fixture to.  A child group is not
    entered twice, and a replaced identity keeps the handle of its group. *)
Inductive fixture_state : CgroupFixture.t → Prop :=
| StateNew : fixture_state CgroupFixture.new
| StateChild parent name identity x res x' :
    fixture_state x → group_at x identity.(CgroupId.handle) = None →
    CgroupFixture.add_child_group parent name identity x = (res, x') → fixture_state x'
| StateDelegation c controller delegated x res x' :
    fixture_state x → CgroupFixture.set_delegation c controller delegated x = (res, x') → fixture_state x'
| StateController c controller available x res x' :
    fixture_state x → CgroupFixture.set_controller c controller available x = (res, x') → fixture_state x'
| StateIdentity c identity x res x' :
    fixture_state x → identity.(CgroupId.handle) = c.(CgroupId.handle) →
    CgroupFixture.replace_identity c identity x = (res, x') → fixture_state x'
| StateWeight c weight x res x' :
    fixture_state x → CgroupFixture.external_set_cpu_weight c weight x = (res, x') → fixture_state x'
| StateProcess p c nice ioprio x res x' :
    fixture_state x → CgroupFixture.add_process p c nice ioprio x = (res, x') → fixture_state x'
| StateExit p x : fixture_state x → fixture_state (CgroupFixture.remove_process p x)
| StateWrite kind desired x res x' :
    fixture_state x → CgroupFixture.write_mutation kind desired x = (res, x') → fixture_state x'.

Lemma coherent_new : coherent CgroupFixture.new.
Proof.
  split.
  - vm_compute. by repeat constructor.
  - intros k g. unfold group_at, CgroupFixture.new, CgroupFixture.add_group.
    cbn -[cmp]. destruct (cmp k _) eqn:E; [|done..]. intros [= <-]. by apply cmp_eq in E.
  - intros k g p. unfold group_at, CgroupFixture.new, CgroupFixture.add_group.
    cbn -[cmp]. destruct (cmp k _) eqn:E; [|done..]. intros [= <-]. cbn. done.
  - done.
  - done.
Qed.

Lemma child_run parent name i x res x' :
  coherent x → group_at x i.(CgroupId.handle) = None →
  CgroupFixture.add_child_group parent name i x = (res, x') → coherent x'.
Proof.
  intros Hx Hn Hr. unfold CgroupFixture.add_child_group in Hr.
  apply mut_bind_cases in Hr as [(e & [=] & _)|(x0 & s1 & [= <- <-] & Hr)].
  apply mut_bind_cases in Hr as [(e & [= _ <-] & _)|(g & s1 & [= Hg <-] & Hr)]; [done|].
  apply mut_bind_cases in Hr as [(e & [= _ <-] & _)|(target & s1 & [= Ht <-] & Hr)]; [done|].
  case_bool_decide as Hi; cbn [negb] in Hr; injection Hr as _ <-; [|done]. subst target.
  by apply coherent_create.
Qed.

Lemma exit_coherent p x : coherent x → coherent (CgroupFixture.remove_process p x).
Proof.
  intros Hx. unfold CgroupFixture.remove_process. destruct (x.(CgroupFixture.processes) !! p) as [q|] eqn:Hq; [|done].
  pose proof (coherent_taken p x Hx) as Ht. unfold taken in Ht. rewrite (handle_lookup _ _ _ Hq) in Ht.
  unfold CgroupFixture.update_group in *. cbn. by destruct (map_get _ _).
Qed.

(** Replacing an identity under the same handle keeps the books. *)
Lemma identity_coherent c i x res x' :
  i.(CgroupId.handle) = c.(CgroupId.handle) → coherent x →
  CgroupFixture.replace_identity c i x = (res, x') → coherent x'.
Proof.
  intros Hi Hx Hr. apply modify_group_run in Hr as [(e & _ & ->)|(g0 & _ & Hg0 & ->)]; [done|].
  split.
  - by apply update_sorted, Hx.
  - intros k g. rewrite group_at_update. destruct (decide _) as [->|]; [|apply Hx].
    intros ([] & _ & ->)%fmap_Some. done.
  - intros k g p. unfold handle_of. rewrite group_at_update, update_processes.
    destruct (decide _) as [->|]; [|apply Hx].
    intros ([] & Hg & ->)%fmap_Some. apply (co_member _ Hx _ _ p Hg).
  - intros p k. unfold handle_of. rewrite group_at_update, update_processes.
    intros [g Hg]%(co_placed _ Hx p). destruct (decide _) as [->|]; [|by exists g]. rewrite Hg. by eexists.
  - rewrite update_processes. apply Hx.
Qed.

Lemma fixture_state_coherent x : fixture_state x → coherent x.
Proof.
  induction 1.
  - apply coherent_new.
  - by eapply child_run.
  - eapply modify_group_coherent; [|done|done]. by intros [].
  - eapply modify_group_coherent; [|done|done]. by intros [].
  - by eapply identity_coherent.
  - eapply modify_group_coherent; [|done|done]. by intros [].
  - edestruct add_process_run as [(e & _ & ->)|[Hg ->]]; [done..|]. by apply coherent_moved.
  - by apply exit_coherent.
  - by eapply write_mutation_coherent.
Qed.

(** In every state the fixture can be brought to, by its set-up and by the
    writes of the backend, failed ones included, a process is in the set of the
    group it is recorded at and in no other, and that group is there. *)
Theorem fixture_books_agree x : fixture_state x → coherent x.
Proof. apply fixture_state_coherent. Qed.

(** ** A restore undoes an application *)

(** Nothing lies below the directory of the group that a mutation manages. *)
Definition nothing_below (x : CgroupFixture.t) (kind : MutationKind.t) : Prop :=
  match kind with
  | MutationKind.CgroupWorkload parent name | MutationKind.CgroupBackground parent name =>
    ∀ pg k g, CgroupFixture.resolve_group x parent = Ok pg → group_at x k = Some g →
      starts_with (child_path pg.(FixtureGroup.relative_path) name +:+ "/") g.(FixtureGroup.relative_path) = false
  | _ => True
  end.

(** Writing back what a node read before it was written. *)
Lemma modify_back c f f' x x' g :
  coherent x → CgroupFixture.resolve_group x c = Ok g →
  (∀ g, (f g).(FixtureGroup.identity) = g.(FixtureGroup.identity)) → f' (f g) = g →
  CgroupFixture.modify_group c f x = (Ok tt, x') → CgroupFixture.modify_group c f' x' = (Ok tt, x).
Proof.
  intros Hx Hg Hid Hf Hr. apply modify_group_run in Hr as [(e & [=] & _)|(g0 & _ & Hg0 & ->)].
  rewrite Hg0 in Hg. injection Hg as ->. pose proof (resolve_Ok _ _ _ Hg0) as [Hga Hres].
  unfold CgroupFixture.modify_group. rewrite (Hres _ (f g)); [|by rewrite group_at_update, decide_True, Hga|done].
  f_equal. rewrite Hf. apply fixture_ext.
  - by apply map_insert_sorted, update_sorted, Hx.
  - apply Hx.
  - intros k. rewrite group_at_insert. destruct (decide (k = c.(CgroupId.handle))) as [->|Hne]; [done|].
    by rewrite group_at_update, decide_False.
  - unfold CgroupFixture.insert_group. cbn. apply update_processes.
Qed.

Lemma modify_process_back p f f' x x' q :
  x.(CgroupFixture.processes) !! p = Some q → f' (f q) = q →
  CgroupFixture.modify_process p f x = (Ok tt, x') → CgroupFixture.modify_process p f' x' = (Ok tt, x).
Proof.
  intros Hp Hf Hr.
  assert (∀ (h : FixtureProcess.t → FixtureProcess.t) y r, y.(CgroupFixture.processes) !! p = Some r →
    CgroupFixture.modify_process p h y
    = (Ok tt, CgroupFixture.set_processes (<[p := h r]> y.(CgroupFixture.processes)) y)) as Hrun.
  { intros h y r Hy. unfold CgroupFixture.modify_process. rewrite (mut_bind_run _ _ y y y) by done.
    by rewrite (mut_bind_run _ _ y r y) by (unfold lift; by rewrite Hy). }
  rewrite (Hrun _ _ _ Hp) in Hr. injection Hr as <-. rewrite (Hrun _ _ (f q)) by (cbn; apply lookup_insert_eq).
  f_equal. destruct x as [gs ps]. unfold CgroupFixture.set_processes. cbn in *. f_equal.
  rewrite insert_insert_eq, Hf. by apply insert_id.
Qed.

Lemma str_longer s t : (String.length t ≤ String.length s)%nat → starts_with (s +:+ "/") t = false.
Proof.
  intros Hl. destruct (starts_with (s +:+ "/") t) eqn:E; [exfalso|done]. unfold starts_with, is_some in E.
  destruct (strip_prefix (s +:+ "/") t) as [r|] eqn:Hp; [|done].
  apply strip_prefix_Some in Hp. rewrite Hp, !str_length_app in Hl. cbn in Hl. lia.
Qed.

Lemma child_path_ne parent name : CgroupName.wf name → child_path parent name ≠ parent.
Proof.
  intros Hn Hp. assert (String.length name.(CgroupName.as_str) ≠ 0%nat) as Hl.
  { unfold CgroupName.wf, CgroupName.new in Hn. destruct (name.(CgroupName.as_str)); [done|cbn; lia]. }
  apply (f_equal String.length) in Hp. unfold child_path in Hp. case_bool_decide as E.
  - subst parent. done.
  - rewrite !str_length_app in Hp. cbn in Hp. lia.
Qed.

Lemma create_back x parent name x' :
  coherent x → CgroupName.wf name →
  (∀ pg k g, CgroupFixture.resolve_group x parent = Ok pg → group_at x k = Some g →
     starts_with (child_path pg.(FixtureGroup.relative_path) name +:+ "/") g.(FixtureGroup.relative_path) = false) →
  CgroupFixture.create_fixture_group parent name x = (Ok tt, x') →
  CgroupFixture.remove_fixture_group parent name x' = (Ok tt, x).
Proof.
  intros Hx Hname Hbelow Hr.
  apply create_run in Hr as [(e & [=] & _)|(pg & target & i & _ & Hpg & Ht & Hn & Hi & ->)].
  set (g := FixtureGroup.fresh _ _ _ _ _). set (y := CgroupFixture.insert_group target g x).
  pose proof (resolve_Ok _ _ _ Hpg) as [Hga Hres].
  assert (coherent y) as Hy by by apply coherent_create.
  assert (CgroupFixture.resolve_group y parent = Ok pg) as Hpy.
  { apply Hres; [|done]. unfold y. rewrite group_at_insert, decide_False; [done|congruence]. }
  unfold CgroupFixture.remove_fixture_group. rewrite (mut_bind_run _ _ y y y) by done.
  rewrite (mut_bind_run _ _ y pg y) by (unfold lift; by rewrite Hpy).
  rewrite (mut_bind_run _ _ y target y) by (unfold lift; by rewrite Ht).
  rewrite (mut_bind_run _ _ y g y).
  2: { unfold lift. fold (group_at y target). unfold y. by rewrite group_at_insert, decide_True. }
  cbv zeta. set (path := child_path pg.(FixtureGroup.relative_path) name).
  change (g.(FixtureGroup.relative_path)) with path. change (g.(FixtureGroup.processes)) with (∅ : gset ProcessId.t).
  rewrite bool_decide_true by done. cbn [negb orb].
  replace (existsb _ _) with false; [|symmetry; apply existsb_false].
  - rewrite bool_decide_false; [|intros E; by apply (child_path_ne pg.(FixtureGroup.relative_path) name)].
    unfold modify. f_equal. apply fixture_ext; [|apply Hx| |done].
    + cbn. by apply map_remove_sorted, Hy.
    + intros k. change (CgroupFixture.groups ?z) with (CgroupFixture.groups y).
      rewrite (group_at_remove target k y Hy). unfold y. rewrite group_at_insert.
      destruct (decide (k = target)) as [->|]; [by rewrite Hn|done].
  - intros g' [k Hk]%(values_group _ _ Hy). unfold y in Hk. rewrite group_at_insert in Hk.
    destruct (decide (k = target)) as [->|].
    + injection Hk as <-. apply str_longer. done.
    + by apply (Hbelow pg k).
Qed.

Lemma resolve_own y k g :
  group_at y k = Some g → g.(FixtureGroup.identity).(CgroupId.handle) = k →
  CgroupFixture.resolve_group y g.(FixtureGroup.identity) = Ok g.
Proof.
  intros Hg Hk. unfold CgroupFixture.resolve_group. rewrite Hk. fold (group_at y k). rewrite Hg.
  cbn [ok_or mbind result_bind]. by rewrite !N.eqb_refl, !andb_false_r.
Qed.

Lemma move_back x p dst g0 q x' :
  coherent x → x.(CgroupFixture.processes) !! p = Some q → group_at x q.(FixtureProcess.cgroup) = Some g0 →
  CgroupFixture.move_fixture_process p dst x = (Ok tt, x') →
  CgroupFixture.move_fixture_process p g0.(FixtureGroup.identity) x' = (Ok tt, x).
Proof.
  intros Hx Hp Hg0 Hr. apply move_run in Hr as [(e & [=] & _)|(g & q1 & _ & _ & Hq & Hg & ->)]; [|done].
  rewrite Hp in Hq. injection Hq as <-. set (q1 := FixtureProcess.set_cgroup _ q). set (y := moved p q1 x).
  assert (coherent y) as Hy by (apply coherent_moved; [apply (co_process _ Hx _ _ Hp)|by eexists|done]).
  pose proof (co_handle _ Hx _ _ Hg0) as Hid.
  assert (∃ g1, group_at y q.(FixtureProcess.cgroup) = Some g1
                ∧ g1.(FixtureGroup.identity) = g0.(FixtureGroup.identity)) as (g1 & Hg1 & Hi1).
  { unfold y. rewrite group_at_moved, Hg0 by done. cbn. eexists. split; [done|].
    destruct (decide _); apply identity_processes. }
  destruct (CgroupFixture.move_fixture_process p g0.(FixtureGroup.identity) y) as [res z] eqn:E.
  apply move_run in E as [(e & _ & _ & [Hno|Hno])|(g2 & q2 & -> & _ & Hq2 & _ & ->)]; [| |..|done].
  - rewrite <-Hi1, (resolve_own _ _ _ Hg1) in Hno by (by rewrite Hi1). done.
  - unfold y in Hno. by rewrite moved_processes, lookup_insert_eq in Hno.
  - unfold y in Hq2. rewrite moved_processes, lookup_insert_eq in Hq2. injection Hq2 as <-. f_equal.
    replace (FixtureProcess.set_cgroup _ q1) with q by (rewrite Hid; by destruct q).
    apply (moved_back p q q1 x Hx Hp); [apply (co_process _ Hx _ _ Hp)|by eexists].
Qed.

Lemma read_cgroup_Ok x c node typed o :
  CgroupFixture.read_cgroup x c node typed = Ok o →
  ∃ g, CgroupFixture.resolve_group x c = Ok g ∧ o.(WorkloadObservation.typed) = typed g.
Proof.
  unfold CgroupFixture.read_cgroup, observation_for_group, WorkloadObservation.new. intros Hr. inv_res.
  eexists. split; [done|]. done.
Qed.

Lemma read_process_Ok x kind o :
  CgroupFixture.read_process x kind = Ok o →
  ∃ p q g, CgroupFixture.process_of kind = Some p ∧ x.(CgroupFixture.processes) !! p = Some q
    ∧ group_at x q.(FixtureProcess.cgroup) = Some g
    ∧ CgroupFixture.process_value kind q g = Some (p, o.(WorkloadObservation.typed)).
Proof.
  unfold CgroupFixture.read_process. intros Hr.
  apply bind_Ok in Hr as (p & Hp & Hr). apply bind_Ok in Hr as (q & Hq & Hr).
  destruct (negb _); [done|]. apply bind_Ok in Hr as (g & Hg & Hr). apply bind_Ok in Hr as ([p' v] & Hv & Hr).
  destruct (CgroupFixture.process_of kind) as [p0|] eqn:Hk; [|done]. injection Hp as ->.
  destruct (x.(CgroupFixture.processes) !! p) as [q0|] eqn:Hp; [|done]. injection Hq as ->.
  fold (group_at x q.(FixtureProcess.cgroup)) in Hg.
  destruct (group_at x _) as [g0|] eqn:Hg0; [|done]. injection Hg as ->.
  destruct (CgroupFixture.process_value kind q g) as [[p1 v1]|] eqn:Hval; [|done]. injection Hv as -> ->.
  unfold WorkloadObservation.new in Hr. apply bind_Ok in Hr as (b & _ & [= <-]).
  exists p, q, g. split_and!; [done..|]. rewrite Hval. cbn. destruct kind; cbn in Hk, Hval; try done; congruence.
Qed.

(** The fixture takes back what it read before a write. *)
Lemma write_back x kind desired o x' :
  coherent x → kind_wf kind → nothing_below x kind → typed_value kind = desired →
  read_kind x kind = Ok o → o.(WorkloadObservation.typed) ≠ desired →
  CgroupFixture.write_mutation kind desired x = (Ok tt, x') →
  CgroupFixture.write_mutation kind o.(WorkloadObservation.typed) x' = (Ok tt, x).
Proof.
  intros Hx Hk Hb <- Hr Hne Hw.
  assert (∀ parent name kind',
    CgroupName.wf name →
    (∀ pg k g, CgroupFixture.resolve_group x parent = Ok pg → group_at x k = Some g →
       starts_with (child_path pg.(FixtureGroup.relative_path) name +:+ "/") g.(FixtureGroup.relative_path) = false) →
    CgroupFixture.read_lifecycle x parent name kind' = Ok o →
    o.(WorkloadObservation.typed) ≠ TypedValue.CgroupLifecycle kind' name true →
    CgroupFixture.create_fixture_group parent name x = (Ok tt, x') →
    o.(WorkloadObservation.typed) = TypedValue.CgroupLifecycle kind' name false
    ∧ CgroupFixture.remove_fixture_group parent name x' = (Ok tt, x)) as Hlife.
  { intros parent name kind' Hn Hbelow Hl Hne' Hc. split; [|by eapply create_back].
    unfold CgroupFixture.read_lifecycle, observation_for_group, WorkloadObservation.new in Hl. inv_res.
    cbn in Hne' |- *. by destruct (is_some _). }
  destruct kind; cbn [typed_value] in *; try discriminate Hr;
    cbn [read_kind WorkloadControlIo.read_mutation WorkloadControlIo.read_process CgroupFixture.control_io
         CgroupFixture.read_mutation] in Hr;
    try (apply read_cgroup_Ok in Hr as (g & Hg & ->); cbn [CgroupFixture.write_mutation] in Hw |- *;
         eapply (modify_back _ _ _ x x' g Hx Hg); [| |exact Hw]; [by intros []|by destruct g]);
    try (apply read_process_Ok in Hr as (p & q & g & [= <-] & Hq & Hg & [= Hv]); rewrite <-Hv;
         cbn [CgroupFixture.write_mutation] in Hw |- *).
  - destruct (Hlife _ _ _ (proj2 Hk) Hb Hr Hne Hw) as [-> Hrm]. exact Hrm.
  - destruct (Hlife _ _ _ (proj2 Hk) Hb Hr Hne Hw) as [-> Hrm]. exact Hrm.
  - by eapply move_back.
  - eapply (modify_process_back _ _ _ x x' q Hq); [|exact Hw]. by destruct q.
  - eapply (modify_process_back _ _ _ x x' q Hq); [|exact Hw]. by destruct q.
Qed.

(** C13. Over the fixture a restore undoes an application exactly: after a
    snapshot and an application that succeeded, the restore succeeds and the
    fixture, every group and every process of it, is the one it was. *)
Theorem fixture_restore_exact m now x snap x1 r x' :
  coherent x → kind_wf m.(PlannedMutation.kind) → nothing_below x m.(PlannedMutation.kind) →
  snapshot_internal m now x = (Ok snap, x1) → apply_internal m snap x = (Ok r, x') →
  ∃ r', restore_internal m snap r.(ApplyReceipt.ownership_fingerprint) x' = (Ok r', x).
Proof.
  intros Hx Hk Hb (_ & o & Ho & Hot & Hof & Hoi & Hne)%snapshot_spec Ha.
  apply apply_spec in Ha as [[_ [=]]|(_ & Hv & w & Hw & Hres)].
  destruct (Hres r eq_refl) as (-> & _ & c & Hc & Hci & Hcf).
  assert (typed_value m.(PlannedMutation.kind) = m.(PlannedMutation.desired)) as Hd.
  { cbn in Hv. unfold CgroupFixture.validate_desired in Hv. by case_bool_decide. }
  pose proof (write_back _ _ _ _ _ Hx Hk Hb Hd Ho Hne Hw) as Hback.
  unfold restore_internal. rewrite (mut_bind_run _ _ x' c x') by (rewrite read_run; by rewrite Hc).
  rewrite Hci, Hcf, !bool_decide_true by done. cbn [negb].
  rewrite (mut_bind_run _ _ x' tt x) by (rewrite Hot; exact Hback).
  rewrite (mut_bind_run _ _ x o x) by (rewrite read_run; by rewrite Ho).
  rewrite Hoi, Hof, !bool_decide_true by done. cbn [negb orb]. by eexists.
Qed.
