(* ===== verification/CgroupSysfsLaws.v ===== *)
(** * Laws of the cgroup adapter

    What discovery finds and its bound; the calls a write makes of the kernel;
    and the restores that the adapter cannot make. *)
From Stdlib Require Import Strings.Byte.
From stdpp Require Import pretty.
From S2P Require Import Prelude Lists Text Str Ids Mut Capability Mutation Decision Plan Policy.
From S2P Require Import Session Digest Record Ports FileSystem Workload WorkloadText CgroupSysfs WorkloadLaws.
Local Open Scope N_scope.
Unset Default Proof Using.

(** ** Discovery *)

Section Discovery.
Variables (h : Host.t) (root : Path).

(** The group that a walk down [names] from the root leads to. *)
Definition path_of (names : list CgroupName.t) : Path :=
  foldl (λ p n, FileSystem.join p n.(CgroupName.as_str)) root names.
Definition relative_of (names : list CgroupName.t) : string := foldl child_path "" names.
Definition handle_text (names : list CgroupName.t) : string :=
  foldl (λ t n, t +:+ "." +:+ n.(CgroupName.as_str)) ROOT_TARGET names.

Record discovered (k : TargetId.t) (g : SysfsGroup.t) : Prop := {
  di_handle : g.(SysfsGroup.identity).(CgroupId.handle) = k;
  di_walk : ∃ names, Forall CgroupName.wf names ∧ k.(TargetId.as_str) = handle_text names
    ∧ g.(SysfsGroup.path) = path_of names ∧ g.(SysfsGroup.relative_path) = relative_of names;
  di_directory : ∃ m, Host.stat h g.(SysfsGroup.path) = Ok m ∧ m.(Metadata.file_type) = FileType.Directory
    ∧ g.(SysfsGroup.identity).(CgroupId.mount_id) = m.(Metadata.dev)
    ∧ g.(SysfsGroup.identity).(CgroupId.inode) = m.(Metadata.ino)
}.

Record found (groups : list (TargetId.t * SysfsGroup.t)) : Prop := {
  fo_sorted : map_sorted groups;
  fo_bound : N.of_nat (length groups) ≤ MAX_WORKLOAD_GROUPS;
  fo_groups : ∀ k g, (k, g) ∈ groups → discovered k g
}.

Lemma length_map_insert {K V} `{!Ord K} (k : K) (v : V) m : (length (map_insert k v m) ≤ S (length m))%nat.
Proof. induction m as [|[k' v'] m IH]; cbn; [done|]. destruct (cmp k k'); cbn; lia. Qed.

Lemma found_insert k g groups :
  discovered k g → N.of_nat (length groups) < MAX_WORKLOAD_GROUPS → found groups → found (map_insert k g groups).
Proof.
  intros Hd Hl [Hs _ Hg]. split.
  - by apply map_insert_sorted.
  - pose proof (length_map_insert k g groups). lia.
  - intros k' g' [[= -> ->]|[[Hin _]|Hin]]%map_insert_elem; auto.
Qed.

Lemma group_name_Ok entry name : group_name entry = Some name → name.(CgroupName.as_str) = entry ∧ CgroupName.wf name.
Proof.
  unfold group_name. destruct (utf8_valid _); [|done]. destruct (CgroupName.new entry) as [n|] eqn:E; [|done].
  intros [= ->]. assert (name.(CgroupName.as_str) = entry) as He.
  { unfold CgroupName.new in E. destruct (_ || _); [done|]. by injection E as <-. }
  split; [done|]. unfold CgroupName.wf. by rewrite He.
Qed.

Lemma is_dir_true t : FileType.is_dir t = true ↔ t = FileType.Directory.
Proof. apply bool_decide_eq_true. Qed.

(** Discovery adds what lies below a group that was discovered. *)
Lemma collect_found fuel : ∀ p relative identity groups groups',
  discovered identity.(CgroupId.handle) (SysfsGroup.mk identity relative p) → found groups →
  collect_sysfs_groups h fuel p relative identity groups = Ok groups' → found groups'.
Proof.
  induction fuel as [|fuel IH]; intros p relative identity groups groups' Hd Hf; cbn [collect_sysfs_groups]; [done|].
  destruct (_ <=? _) eqn:Hl; [done|]. apply N.leb_gt in Hl. intros (entries & _ & Hr)%bind_Ok. cbv zeta in Hr.
  eapply (try_fold_ind _ found); [exact Hr|by apply found_insert|].
  intros entry c c' _ Hc Hstep. apply bind_Ok in Hstep as (m & Hm & Hstep).
  apply map_err_Ok in Hm. destruct (FileType.is_symlink _); [done|].
  destruct (FileType.is_dir _) eqn:Hdir; cbn [negb] in Hstep; [|by injection Hstep as <-].
  destruct (group_name entry) as [name|] eqn:Hn; [|by injection Hstep as <-].
  apply group_name_Ok in Hn as [Hn Hw]. apply bind_Ok in Hstep as (target & Ht & Hstep). cbv zeta in Hstep.
  eapply IH; [|exact Hc|exact Hstep]. destruct Hd as [_ (names & Hns & Hk & Hp & Hrel) _].
  cbn in Hp, Hrel |- *. split; [done|..].
  - exists (names ++ [name]). cbn. unfold path_of, relative_of, handle_text in *. rewrite !foldl_app. cbn.
    rewrite <-Hk, <-Hp, <-Hrel, Hn. split_and!; [by apply Forall_app; split; [|constructor]| |done..].
    unfold child_target in Ht. apply map_err_Ok in Ht. rewrite Hn in Ht. unfold TargetId.new in Ht.
    inv_res. done.
  - exists m. by apply is_dir_true in Hdir.
Qed.
End Discovery.

(** C24. Discovery is bounded and confined: it finds at most 4096 groups, each
    under one handle, and a group it finds is a real directory reached from the
    root by bounded single components, with the device and inode it had and the
    handle its components spell. *)
Theorem discovery_confined h root proc_root x :
  sysfs_new h root proc_root = Ok x → found h root x.(WorkloadSysfs.groups).
Proof.
  unfold sysfs_new. generalize (S (N.to_nat MAX_WORKLOAD_GROUPS)) as fuel.
  intros fuel Hr. apply bind_Ok in Hr as (u & _ & Hr). apply bind_Ok in Hr as (identity & Hi & Hr).
  apply bind_Ok in Hr as (groups & Hg & Hr). case_bool_decide; [done|]. injection Hr as <-.
  eapply collect_found; [| |exact Hg].
  - unfold cgroup_id_from_path in Hi. apply bind_Ok in Hi as (m & Hm%map_err_Ok & Hi).
    destruct (_ || _) eqn:Ht; [done|]. apply orb_false_iff in Ht as [_ Ht%negb_false_iff%is_dir_true].
    apply bind_Ok in Hi as (target & Htarget%map_err_Ok & [= <-]). cbn.
    unfold TargetId.new in Htarget. inv_res. split; [done|..].
    + exists []. cbn. done.
    + by exists m.
  - split; [constructor|by apply N.leb_le|by intros k g ?%elem_of_nil].
Qed.

(** ** The calls of a write *)

Section Writes.
Context `{!HostKernel.t}.

(** The group is discovered and the directory at its path is still the one
    that was. *)
Definition live (x : WorkloadSysfs.t) (h : Host.t) (g : SysfsGroup.t) : Prop :=
  map_get g.(SysfsGroup.identity).(CgroupId.handle) x.(WorkloadSysfs.groups) = Some g
  ∧ ∃ m, Host.stat h g.(SysfsGroup.path) = Ok m ∧ m.(Metadata.file_type) = FileType.Directory
    ∧ m.(Metadata.dev) = g.(SysfsGroup.identity).(CgroupId.mount_id)
    ∧ m.(Metadata.ino) = g.(SysfsGroup.identity).(CgroupId.inode).

Definition writable_file (h : Host.t) (p : Path) : Prop :=
  ∃ m, Host.stat h p = Ok m ∧ m.(Metadata.file_type) = FileType.File ∧ readonly m = false.

(** The one control file that a mutation writes: the group, the file and the
    text of the value. *)
Definition control_node (kind : MutationKind.t) : option (CgroupId.t * WorkloadNode.t) :=
  match kind with
  | MutationKind.CgroupCpuWeight cgroup _ => Some (cgroup, WorkloadNode.CpuWeight)
  | MutationKind.CgroupCpuMax cgroup _ _ => Some (cgroup, WorkloadNode.CpuMax)
  | MutationKind.CgroupCpuset cgroup _ => Some (cgroup, WorkloadNode.CpusetCpus)
  | MutationKind.CgroupIoWeight cgroup _ => Some (cgroup, WorkloadNode.IoWeight)
  | MutationKind.CgroupUclampMin cgroup _ => Some (cgroup, WorkloadNode.UclampMin)
  | MutationKind.CgroupUclampMax cgroup _ => Some (cgroup, WorkloadNode.UclampMax)
  | _ => None
  end.
Definition control_write (kind : MutationKind.t) (desired : TypedValue.t) : option (CgroupId.t * string * string) :=
  match kind, desired with
  | MutationKind.ProcessPlacement process cgroup, TypedValue.ProcessPlacement _ =>
    Some (cgroup, "cgroup.procs", pretty process.(ProcessId.pid) +:+ String NEWLINE EmptyString)
  | _, _ =>
    '(cgroup, node) ← control_node kind;
    text ← node_text node desired;
    Some (cgroup, WorkloadNode.filename node, text)
  end%string.

(** The managed directory that a mutation makes or removes. *)
Definition managed (kind : MutationKind.t) : option (CgroupId.t * CgroupName.t) :=
  match kind with
  | MutationKind.CgroupWorkload parent name | MutationKind.CgroupBackground parent name => Some (parent, name)
  | _ => None
  end.

(** The group [g] is registered under the handle of the child [name] of
    [parent]. *)
Definition registered_child (x : WorkloadSysfs.t) (parent : SysfsGroup.t) (name : CgroupName.t) (g : SysfsGroup.t) : Prop :=
  ∃ target child, child_target parent.(SysfsGroup.identity).(CgroupId.handle) name = Ok target
    ∧ map_get target x.(WorkloadSysfs.groups) = Some child
    ∧ child.(SysfsGroup.identity) = g.(SysfsGroup.identity).

(** The calls a write of [desired] may make of the kernel. *)
Inductive host_step (x : WorkloadSysfs.t) (kind : MutationKind.t) (desired : TypedValue.t) (h h' : Host.t) : Prop :=
| StepFile g file text o :
    control_write kind desired = Some (g.(SysfsGroup.identity), file, text) →
    live x h g → writable_file h (FileSystem.join g.(SysfsGroup.path) file) → 0 < str_len text ≤ 128 →
    HostKernel.write (FileSystem.join g.(SysfsGroup.path) file) (bytes_of_string text) h = (o, h') →
    host_step x kind desired h h'
| StepCreate g name o :
    managed kind = Some (g.(SysfsGroup.identity), name) →
    live x h g → is_ok (Host.stat h (managed_path g name)) = false →
    HostKernel.create_dir (managed_path g name) h = (o, h') → host_step x kind desired h h'
| StepCleanup g name h0 o :
    managed kind = Some (g.(SysfsGroup.identity), name) →
    live x h0 g → is_ok (Host.stat h0 (managed_path g name)) = false →
    HostKernel.create_dir (managed_path g name) h0 = (None, h) →
    HostKernel.remove_dir (managed_path g name) h = (o, h') → host_step x kind desired h h'
| StepRemove parent name g procs entries o :
    managed kind = Some (parent.(SysfsGroup.identity), name) →
    live x h parent → live x h g → registered_child x parent name g →
    read_control (WorkloadSysfs.set_host h x) g WorkloadControlFile.Procs = Ok procs →
    forallb is_ascii_whitespace procs = true →
    Host.read_dir h g.(SysfsGroup.path) = Ok entries → existsb nested_entry entries = false →
    HostKernel.remove_dir g.(SysfsGroup.path) h = (o, h') → host_step x kind desired h h'
| StepNice process planned nice o :
    kind = MutationKind.ProcessNice process planned → desired = TypedValue.Nice nice →
    is_ok (read_proc_identity (WorkloadSysfs.set_host h x) process) = true →
    HostKernel.set_priority process.(ProcessId.pid) nice.(NiceValue.get) h = (o, h') → host_step x kind desired h h'.

Lemma group_for_live x c g :
  group_for x c = Ok g → live x x.(WorkloadSysfs.host) g ∧ g.(SysfsGroup.identity) = c.
Proof.
  unfold group_for. destruct (_ || _); [done|]. intros Hr. apply bind_Ok in Hr as (g0 & Hg & Hr).
  cbv zeta in Hr. destruct (map_get _ _) as [g1|] eqn:Hm; [|done]. injection Hg as ->.
  case_bool_decide as Hc; cbn [negb] in Hr; [|done]. apply bind_Ok in Hr as (i & Hi & Hr).
  destruct (_ || _) eqn:He in Hr; [done|]. injection Hr as <-. apply orb_false_iff in He as [H1 H2].
  apply negb_false_iff, N.eqb_eq in H1, H2.
  split; [|done]. split; [by rewrite Hc|]. unfold cgroup_id_from_path in Hi.
  apply bind_Ok in Hi as (m & Hs%map_err_Ok & Hi). destruct (_ || _) eqn:Ht; [done|].
  apply orb_false_iff in Ht as [_ Ht%negb_false_iff%is_dir_true].
  apply bind_Ok in Hi as (t & _ & [= <-]). by exists m.
Qed.

Lemma host_call_run f e (x : WorkloadSysfs.t) res x' :
  host_call f e x = (res, x') →
  ∃ o, f x.(WorkloadSysfs.host) = (o, x'.(WorkloadSysfs.host)) ∧ x' = WorkloadSysfs.set_host x'.(WorkloadSysfs.host) x
    ∧ (is_ok res = true → o = None).
Proof.
  unfold host_call. destruct (f _) as [o h'] eqn:E. intros [= <- <-]. exists o.
  cbn. split_and!; [done..|]. by destruct o.
Qed.

Lemma write_closed_run p value message (x : WorkloadSysfs.t) res x' :
  write_closed_file p value message x = (res, x') →
  (x' = x ∧ is_ok res = false)
  ∨ writable_file x.(WorkloadSysfs.host) p ∧ 0 < str_len value ≤ 128
    ∧ ∃ o, HostKernel.write p (bytes_of_string value) x.(WorkloadSysfs.host) = (o, x'.(WorkloadSysfs.host))
        ∧ x' = WorkloadSysfs.set_host x'.(WorkloadSysfs.host) x ∧ (is_ok res = true → o = None).
Proof.
  unfold write_closed_file. destruct (_ || _) eqn:Hv; [intros [= <- <-]; by left|].
  apply orb_false_iff in Hv as [[He Hl]%orb_false_iff _]. apply bool_decide_eq_false in He. apply N.ltb_ge in Hl.
  intros Hr. apply mut_bind_cases in Hr as [(e & [=] & _)|(x0 & s1 & [= <- <-] & Hr)].
  apply mut_bind_cases in Hr as [(e & [= _ <-] & ->)|(m & s1 & [= Hm <-] & Hr)]; [by left|].
  destruct (readonly m) eqn:Hro; [injection Hr as <- <-; by left|]. right.
  unfold validate_regular_file in Hm. apply bind_Ok in Hm as (m0 & Hs%map_err_Ok & Hm).
  destruct (_ || _) eqn:Ht; [done|]. injection Hm as ->.
  apply orb_false_iff in Ht as [_ Ht%negb_false_iff%bool_decide_eq_true].
  split_and!; [by exists m| |done|by apply (host_call_run _ _ _ _ _ Hr)].
  destruct value; [done|]. unfold str_len, bytes_of_string. cbn. lia.
Qed.

Lemma write_node_steps kind desired c node value (x : WorkloadSysfs.t) res x' :
  control_write kind desired = Some (c, WorkloadNode.filename node, value) →
  write_node c node value x = (res, x') →
  rtc (host_step x kind desired) x.(WorkloadSysfs.host) x'.(WorkloadSysfs.host).
Proof.
  unfold write_node. intros Hk Hr.
  apply mut_bind_cases in Hr as [(e & [=] & _)|(x0 & s1 & [= <- <-] & Hr)].
  apply mut_bind_cases in Hr as [(e & [= _ <-] & ->)|(g & s1 & [= Hg <-] & Hr)]; [done|].
  apply mut_bind_cases in Hr as [(e & [= _ <-] & ->)|(u & s1 & [= _ <-] & Hr)]; [done|].
  apply write_closed_run in Hr as [[-> _]|(Hf & Hl & o & Hw & _)]; [done|].
  apply group_for_live in Hg as [Hg <-]. by eapply rtc_once, StepFile.
Qed.

Lemma set_host_id x : WorkloadSysfs.set_host x.(WorkloadSysfs.host) x = x.
Proof. by destruct x. Qed.

Lemma still_same_run p (x : WorkloadSysfs.t) res x' :
  still_same p x = (res, x') →
  x' = x ∧ (is_ok res = true → is_ok (read_proc_identity x p) = true).
Proof.
  unfold still_same. intros Hr. apply mut_bind_cases in Hr as [(e & [=] & _)|(x0 & s1 & [= <- <-] & Hr)].
  apply mut_bind_cases in Hr as [(e & [= _ <-] & ->)|(u & s1 & [= Hu <-] & Hr)]; [done|].
  injection Hr as <- <-. by rewrite Hu.
Qed.

Lemma placement_steps kind desired p g (x : WorkloadSysfs.t) res x' :
  control_write kind desired
  = Some (g.(SysfsGroup.identity), "cgroup.procs"%string, pretty p.(ProcessId.pid) +:+ String NEWLINE EmptyString) →
  live x x.(WorkloadSysfs.host) g → write_process_placement p g x = (res, x') →
  rtc (host_step x kind desired) x.(WorkloadSysfs.host) x'.(WorkloadSysfs.host).
Proof.
  unfold write_process_placement. intros Hkind Hg Hr.
  apply mut_bind_cases in Hr as [(e & [= _ <-] & ->)|(pid & s1 & [= Hpid <-] & Hr)]; [done|].
  assert (pid = p.(ProcessId.pid)) as -> by (unfold raw_pid in Hpid; destruct (_ || _); [done|by injection Hpid]).
  apply mut_bind_cases in Hr as [(e & [-> _]%still_same_run & ->)|(u & s1 & [-> _]%still_same_run & Hr)]; [done|].
  assert (∀ r s1, write_closed_file
      (FileSystem.join g.(SysfsGroup.path) (WorkloadControlFile.filename WorkloadControlFile.Procs))
      (pretty p.(ProcessId.pid) +:+ String NEWLINE EmptyString) "process cgroup placement write failed" x = (r, s1) →
      rtc (host_step x kind desired) x.(WorkloadSysfs.host) s1.(WorkloadSysfs.host)) as Hw.
  { intros r s1 [[-> _]|(Hf & Hl & o & Hk & _)]%write_closed_run; [done|].
    by eapply rtc_once, (StepFile _ _ _ _ _ g). }
  apply mut_bind_cases in Hr as [(e & Hr & ->)|(u' & s1 & Hr & [-> _]%still_same_run)]; by eapply Hw.
Qed.

Lemma nice_steps p planned v (x : WorkloadSysfs.t) res x' :
  write_nice p v x = (res, x') →
  rtc (host_step x (MutationKind.ProcessNice p planned) (TypedValue.Nice v)) x.(WorkloadSysfs.host) x'.(WorkloadSysfs.host).
Proof.
  unfold write_nice. intros Hr.
  apply mut_bind_cases in Hr as [(e & [= _ <-] & ->)|(pid & s1 & [= Hpid <-] & Hr)]; [done|].
  apply mut_bind_cases in Hr as [(e & [-> _]%still_same_run & ->)|(u & s1 & [-> Hid]%still_same_run & Hr)]; [done|].
  assert (pid = p.(ProcessId.pid)) as -> by (unfold raw_pid in Hpid; destruct (_ || _); [done|by injection Hpid]).
  assert (∀ r s1, host_call (HostKernel.set_priority p.(ProcessId.pid) v.(NiceValue.get))
      (λ _, permission_error "process nice write was denied") x = (r, s1) →
      rtc (host_step x (MutationKind.ProcessNice p planned) (TypedValue.Nice v)) x.(WorkloadSysfs.host)
        s1.(WorkloadSysfs.host)) as Hw.
  { intros r s1 (o & Hk & _)%host_call_run. eapply rtc_once, (StepNice _ _ _ _ _ p); [done|done| |exact Hk].
    rewrite set_host_id. by apply Hid. }
  apply mut_bind_cases in Hr as [(e & Hr & ->)|(u' & s1 & Hr & [-> _]%still_same_run)]; by eapply Hw.
Qed.

Lemma create_steps kind desired parent name (x : WorkloadSysfs.t) res x' :
  managed kind = Some (parent, name) → create_group parent name x = (res, x') →
  rtc (host_step x kind desired) x.(WorkloadSysfs.host) x'.(WorkloadSysfs.host).
Proof.
  unfold create_group. intros Hkind Hr.
  apply mut_bind_cases in Hr as [(e & [=] & _)|(x0 & s1 & [= <- <-] & Hr)].
  apply mut_bind_cases in Hr as [(e & [= _ <-] & ->)|(g & s1 & [= Hg <-] & Hr)]; [done|].
  apply group_for_live in Hg as [Hlive <-]. cbv zeta in Hr.
  destruct (is_ok (Host.stat _ _)) eqn:Hs; [by injection Hr as _ <-|].
  apply mut_bind_cases in Hr as [(e & Hc & ->)|([] & s1 & Hc & Hr)].
  { apply host_call_run in Hc as (o & Hk & _). by eapply rtc_once, StepCreate. }
  apply host_call_run in Hc as (o & Hk & _ & Ho). rewrite (Ho eq_refl) in Hk.
  apply (rtc_l _ _ s1.(WorkloadSysfs.host)); [by eapply StepCreate|].
  apply mut_bind_cases in Hr as [(e & (? & _ & [=])%catch_run & _)|(ins & s2 & Hins & Hr)].
  assert (s2.(WorkloadSysfs.host) = s1.(WorkloadSysfs.host)) as Hh.
  { apply catch_run in Hins as (r & Hins & _). unfold insert_child in Hins.
    apply mut_bind_cases in Hins as [(e & [=] & _)|(x1 & s3 & [= <- <-] & Hins)]. cbv zeta in Hins.
    apply mut_bind_cases in Hins as [(e & [= _ <-] & _)|(t & s3 & [= _ <-] & Hins)]; [done|].
    apply mut_bind_cases in Hins as [(e & [= _ <-] & _)|(i & s3 & [= _ <-] & Hins)]; [done|].
    by injection Hins as _ <-. }
  destruct ins as [c|error]; [injection Hr as _ <-; by rewrite Hh|].
  assert (∀ r s3, host_call (HostKernel.remove_dir (managed_path g name))
      (λ kind, io_error kind "managed cgroup setup cleanup failed") s2 = (r, s3) →
      rtc (host_step x kind desired) s1.(WorkloadSysfs.host) s3.(WorkloadSysfs.host)) as Hrm.
  { intros r s3 (o' & Hk' & _)%host_call_run. rewrite Hh in Hk'. by eapply rtc_once, StepCleanup. }
  apply mut_bind_cases in Hr as [(e & Hr & ->)|(u' & s3 & Hr & [= _ <-])]; by eapply Hrm.
Qed.

(** What stands in the way of removing a group. *)
Lemma remove_child_run parent name (x : WorkloadSysfs.t) res x' :
  remove_child parent name x = (res, x') →
  (x' = x ∧ is_ok res = false)
  ∨ ∃ pg target child g entries,
      group_for x parent = Ok pg ∧ child_target pg.(SysfsGroup.identity).(CgroupId.handle) name = Ok target
      ∧ map_get target x.(WorkloadSysfs.groups) = Some child ∧ group_for x child.(SysfsGroup.identity) = Ok g
      ∧ Host.read_dir x.(WorkloadSysfs.host) g.(SysfsGroup.path) = Ok entries
      ∧ existsb nested_entry entries = false
      ∧ (∃ procs, read_control x g WorkloadControlFile.Procs = Ok procs ∧ forallb is_ascii_whitespace procs = true)
      ∧ ∃ o, HostKernel.remove_dir g.(SysfsGroup.path) x.(WorkloadSysfs.host) = (o, x'.(WorkloadSysfs.host)).
Proof.
  unfold remove_child. intros Hr.
  apply mut_bind_cases in Hr as [(e & [=] & _)|(x0 & s1 & [= <- <-] & Hr)].
  apply mut_bind_cases in Hr as [(e & [= _ <-] & ->)|(pg & s1 & [= Hpg <-] & Hr)]; [by left|].
  apply mut_bind_cases in Hr as [(e & [= _ <-] & ->)|(target & s1 & [= Ht <-] & Hr)]; [by left|].
  apply mut_bind_cases in Hr as [(e & [= _ <-] & ->)|(child & s1 & [= Hc <-] & Hr)]; [by left|].
  apply mut_bind_cases in Hr as [(e & [= _ <-] & ->)|(g & s1 & [= Hg <-] & Hr)]; [by left|].
  apply mut_bind_cases in Hr as [(e & [= _ <-] & ->)|(procs & s1 & [= Hprocs <-] & Hr)]; [by left|].
  destruct (forallb is_ascii_whitespace procs) eqn:Hempty; cbn [negb] in Hr; [|injection Hr as <- <-; by left].
  apply mut_bind_cases in Hr as [(e & [= _ <-] & ->)|(entries & s1 & [= He%map_err_Ok <-] & Hr)]; [by left|].
  destruct (existsb _ _) eqn:Hn; [injection Hr as <- <-; by left|]. right.
  destruct (map_get target _) as [c|] eqn:Hm; [|done]. injection Hc as ->.
  exists pg, target, child, g, entries. split_and!; [done..|by exists procs|].
  apply mut_bind_cases in Hr as [(e & Hr & ->)|(u' & s3 & Hr & Hr')].
  - apply host_call_run in Hr as (o & Hk & _). by exists o.
  - apply host_call_run in Hr as (o & Hk & _). exists o. by injection Hr' as _ <-.
Qed.

Lemma remove_steps kind desired parent name (x : WorkloadSysfs.t) res x' :
  managed kind = Some (parent, name) → remove_child parent name x = (res, x') →
  rtc (host_step x kind desired) x.(WorkloadSysfs.host) x'.(WorkloadSysfs.host).
Proof.
  intros Hkind [[-> _]|(pg & t & c & g & l & Hpg & Ht & Hc & Hg & Hl & Hn & (procs & Hp & Hw) & o & Hk)]%remove_child_run;
    [done|].
  apply group_for_live in Hpg as [Hpg <-]. apply group_for_live in Hg as [Hg Hid].
  assert (registered_child x pg name g) as Hchild by (by exists t, c).
  apply rtc_once, (StepRemove _ _ _ _ _ pg name g procs l o); [done..| |done|done|done|done].
  by rewrite set_host_id.
Qed.

(** C14. Every write of the backend through the adapter reaches the host by at
    most the calls of [host_step] for its mutation and value.  A control: the
    text of the value, at most 128 bytes, to the one file of the mutation in
    the mutation's group, discovered and still the directory it was, if the
    file is there and writable.  A lifecycle: the directory named below the
    mutation's parent, made where nothing is and removed again if it cannot be
    entered; or the removal of the group registered under the handle of that
    child, if it is still the directory it was and has no processes and no
    entries but its [cgroup.] files.  A nice value: that of the mutation's
    process, whose start time has just been confirmed. *)
Theorem workload_writes_confined kind desired (x : WorkloadSysfs.t) res x' :
  sysfs_write_mutation kind desired x = (res, x') →
  rtc (host_step x kind desired) x.(WorkloadSysfs.host) x'.(WorkloadSysfs.host).
Proof.
  intros Hr. destruct kind, desired; cbn [sysfs_write_mutation] in Hr;
    try (by injection Hr as _ <-); try (by eapply write_node_steps; [|exact Hr]); try (by eapply nice_steps);
    try (by destruct present; [eapply create_steps; [|exact Hr]|eapply remove_steps; [|exact Hr]]).
  apply mut_bind_cases in Hr as [(e & [=] & _)|(x0 & s1 & [= <- <-] & Hr)].
  apply mut_bind_cases in Hr as [(e & [= _ <-] & ->)|(g & s1 & [= Hg <-] & Hr)]; [done|].
  apply group_for_live in Hg as [Hg <-]. by eapply placement_steps.
Qed.

(** ** Restores the adapter cannot make *)

(** The text of a [procs] write. *)
Definition pid_bytes (p : ProcessId.t) : list byte :=
  bytes_of_string (pretty p.(ProcessId.pid) +:+ String NEWLINE EmptyString).

Lemma placement_written p c v (x x' : WorkloadSysfs.t) :
  sysfs_write_mutation (MutationKind.ProcessPlacement p c) (TypedValue.ProcessPlacement v) x = (Ok tt, x') →
  ∃ g, group_for x c = Ok g ∧ x' = WorkloadSysfs.set_host x'.(WorkloadSysfs.host) x
    ∧ HostKernel.write (FileSystem.join g.(SysfsGroup.path) "cgroup.procs") (pid_bytes p) x.(WorkloadSysfs.host)
      = (None, x'.(WorkloadSysfs.host)).
Proof.
  cbn [sysfs_write_mutation]. intros Hr.
  apply mut_bind_Ok in Hr as (x0 & s1 & [= <- <-] & Hr). apply mut_bind_Ok in Hr as (g & s1 & [= Hg <-] & Hr).
  exists g. split; [done|]. unfold write_process_placement in Hr.
  apply mut_bind_Ok in Hr as (pid & s1 & [= Hpid <-] & Hr).
  assert (pid = p.(ProcessId.pid)) as -> by (unfold raw_pid in Hpid; destruct (_ || _); [done|by injection Hpid]).
  apply mut_bind_Ok in Hr as (u & s1 & [-> _]%still_same_run & Hr).
  apply mut_bind_Ok in Hr as (u' & s1 & Hw & [-> _]%still_same_run).
  apply write_closed_run in Hw as [[_ [=]]|(_ & _ & o & Hk & Hx & Ho)]. split; [done|].
  rewrite (Ho eq_refl) in Hk. exact Hk.
Qed.

Lemma read_placement_Ok (x : WorkloadSysfs.t) p c o :
  sysfs_read_process x (MutationKind.ProcessPlacement p c) = Ok o →
  ∃ g, read_process_cgroup x p = Ok g
    ∧ o.(WorkloadObservation.fingerprint)
      = fingerprint_for_value (PlanValue.Typed (TypedValue.ProcessPlacement g.(SysfsGroup.identity))).
Proof.
  unfold sysfs_read_process, WorkloadObservation.new. intros Hr.
  apply bind_Ok in Hr as (q & [= <-] & Hr). apply bind_Ok in Hr as (u & _ & Hr).
  apply bind_Ok in Hr as (v & Hv & Hr). apply bind_Ok in Hv as (g & Hg & [= <-]).
  apply bind_Ok in Hr as (u' & _ & Hr). apply bind_Ok in Hr as (b & _ & [= <-]). by exists g.
Qed.

(** C21. The restore of a placement never succeeds when the process came from
    another group: the adapter writes the process number to the group of the
    plan once more, not to the group of the snapshot.  The kernel is assumed to
    show a process in the group it has just accepted it into. *)
Theorem placement_never_moved_back m snap own (x x' : WorkloadSysfs.t) res p c original :
  m.(PlannedMutation.kind) = MutationKind.ProcessPlacement p c →
  snap.(Snapshot.original_typed) = TypedValue.ProcessPlacement original →
  snap.(Snapshot.original_fingerprint) ≠ fingerprint_for_value (PlanValue.Typed (TypedValue.ProcessPlacement c)) →
  (∀ g h g', group_for x c = Ok g →
     HostKernel.write (FileSystem.join g.(SysfsGroup.path) "cgroup.procs") (pid_bytes p) x.(WorkloadSysfs.host)
     = (None, h) →
     read_process_cgroup (WorkloadSysfs.set_host h x) p = Ok g' → g'.(SysfsGroup.identity) = c) →
  restore_internal m snap own x = (res, x') → is_ok res = false.
Proof.
  intros Hk Ho Hne Hkernel Hr. destruct (is_ok res) eqn:Hres; [exfalso|done].
  apply restore_spec in Hr as [[_ ?]|(_ & w & Hw & Hok)]; [congruence|].
  destruct (Hok Hres) as [-> (o & Hread & _ & Hf)].
  cbn [WorkloadControlIo.write_mutation sysfs_control_io] in Hw. rewrite Hk, Ho in Hw.
  apply placement_written in Hw as (g & Hg & Hx & Hwrite).
  rewrite Hk in Hread. cbn [read_kind WorkloadControlIo.read_process sysfs_control_io] in Hread.
  apply read_placement_Ok in Hread as (g' & Hg' & Hfp). rewrite Hx in Hg'.
  rewrite (Hkernel _ _ _ Hg Hwrite Hg') in Hfp. congruence.
Qed.

(** The originals that cannot be written back: a set of more than 64 CPUs,
    and the absence of a group whose directory shows an entry that is not named
    after [cgroup.]; every group with the CPU controller has such entries. *)
Definition unrestorable (x : WorkloadSysfs.t) (kind : MutationKind.t) (original : TypedValue.t) : Prop :=
  match kind, original with
  | MutationKind.CgroupCpuset _ _, TypedValue.CgroupCpuset cpus => (64 < CpuSet.len cpus)%nat
  | MutationKind.CgroupWorkload parent name, TypedValue.CgroupLifecycle _ _ false
  | MutationKind.CgroupBackground parent name, TypedValue.CgroupLifecycle _ _ false =>
    ∃ pg target child g entries,
      group_for x parent = Ok pg ∧ child_target pg.(SysfsGroup.identity).(CgroupId.handle) name = Ok target
      ∧ map_get target x.(WorkloadSysfs.groups) = Some child ∧ group_for x child.(SysfsGroup.identity) = Ok g
      ∧ Host.read_dir x.(WorkloadSysfs.host) g.(SysfsGroup.path) = Ok entries
      ∧ existsb nested_entry entries = true
  | _, _ => False
  end.

Lemma long_write_refused p value message (x : WorkloadSysfs.t) :
  128 < str_len value → ∃ e, write_closed_file p value message x = (Err e, x).
Proof.
  intros Hl. unfold write_closed_file. rewrite (proj2 (N.ltb_lt _ _) Hl), orb_true_r. by eexists.
Qed.

Lemma unrestorable_write kind original (x : WorkloadSysfs.t) w x' :
  unrestorable x kind original → sysfs_write_mutation kind original x = (w, x') → x' = x ∧ is_ok w = false.
Proof.
  assert (∀ parent name,
    (∃ pg target child g entries,
      group_for x parent = Ok pg ∧ child_target pg.(SysfsGroup.identity).(CgroupId.handle) name = Ok target
      ∧ map_get target x.(WorkloadSysfs.groups) = Some child ∧ group_for x child.(SysfsGroup.identity) = Ok g
      ∧ Host.read_dir x.(WorkloadSysfs.host) g.(SysfsGroup.path) = Ok entries
      ∧ existsb nested_entry entries = true) →
    remove_child parent name x = (w, x') → x' = x ∧ is_ok w = false) as Hremove.
  { intros parent name (pg & t & c & g & l & H1 & H2 & H3 & H4 & H5 & H6) Hr.
    apply remove_child_run in Hr as [|(pg' & t' & c' & g' & l' & H1' & H2' & H3' & H4' & H5' & H6' & _)]; [done|].
    rewrite H1 in H1'. injection H1' as <-. rewrite H2 in H2'. injection H2' as <-.
    rewrite H3 in H3'. injection H3' as <-. rewrite H4 in H4'. injection H4' as <-.
    rewrite H5 in H5'. injection H5' as <-. congruence. }
  destruct kind, original; try done; cbn [unrestorable sysfs_write_mutation].
  - intros Hl%cpuset_text_long. unfold write_node. intros Hr.
    apply mut_bind_cases in Hr as [(e & [=] & _)|(x0 & s1 & [= <- <-] & Hr)].
    apply mut_bind_cases in Hr as [(e & [= _ <-] & ->)|(g & s1 & [= Hg <-] & Hr)]; [done|].
    apply mut_bind_cases in Hr as [(e & [= _ <-] & ->)|(u & s1 & [= _ <-] & Hr)]; [done|].
    destruct (long_write_refused (node_path g WorkloadNode.CpusetCpus) _
                "cgroup controller write failed" x Hl) as [e He]. rewrite He in Hr. by injection Hr as <- <-.
  - destruct present; [done|]. apply Hremove.
  - destruct present; [done|]. apply Hremove.
Qed.

(** C38. A captured set of more than 64 CPUs is never written back, and a group
    that the session created is never removed while its directory shows a
    controller file: the restore fails and the host stays as it is. *)
Theorem restore_never_possible m snap own (x x' : WorkloadSysfs.t) res :
  unrestorable x m.(PlannedMutation.kind) snap.(Snapshot.original_typed) →
  restore_internal m snap own x = (res, x') → is_ok res = false ∧ x' = x.
Proof.
  intros Hu [[-> Hf]|(_ & w & Hw & Hok)]%restore_spec; [done|].
  destruct (unrestorable_write _ _ _ _ _ Hu Hw) as [-> He]. split; [|done].
  destruct (is_ok res); [|done]. destruct (Hok eq_refl) as [-> _]. done.
Qed.
End Writes.
