(* ===== verification/CpuWitnesses.v ===== *)
(** * A host with one frequency policy

    A kernel that refuses a minimum above the maximum, a sysfs tree with one
    policy, and the theorems of the CPU backend at this host. *)
From Stdlib Require Import Strings.Byte.
From stdpp Require Import pretty.
From S2P Require Import Prelude Lists Text Str Ids Mut Capability Mutation Decision Plan Session Digest.
From S2P Require Import Cpu CpuLaws CpuFixture CpuSysfs CpuSysfsLaws.
Local Open Scope N_scope.

Module RefusingKernel.
Definition file_bytes (x : Sysfs.t) (p : path) : list byte :=
  match x.(Sysfs.contents) !! p with Some (Contents.Bytes bytes) => bytes | _ => [] end.
Definition reversed (min max : list byte) : bool :=
  match parse_frequency min, parse_frequency max with Ok min, Ok max => khz_lt max min | _, _ => false end.
Definition refused (x : Sysfs.t) (p : path) (bytes : list byte) : bool :=
  match last p with
  | Some file =>
    if bool_decide (file = "scaling_min_freq"%string)
    then reversed bytes (file_bytes x (removelast p ++ ["scaling_max_freq"%string]))
    else if bool_decide (file = "scaling_max_freq"%string)
    then reversed (file_bytes x (removelast p ++ ["scaling_min_freq"%string])) bytes
    else false
  | None => false
  end.
#[global] Instance kernel : Kernel.t := λ p bytes x,
  if refused x p bytes then (Kernel.WriteFailed, x)
  else (Kernel.Written, Sysfs.set_contents (<[p := Contents.Bytes bytes]> x.(Sysfs.contents)) x).
End RefusingKernel.

#[local] Instance refusing_laws : Kernel.laws.
Proof.
  intros p bytes x o x'. unfold Kernel.write, RefusingKernel.kernel.
  destruct (RefusingKernel.refused x p bytes); intros [= _ <-].
  - exists x.(Sysfs.contents). by destruct x.
  - eexists. split; [done|]. intros q Hq. by apply lookup_insert_ne.
Qed.

Lemma parse_frequency_pretty v : FrequencyKHz.wf v → parse_frequency (bytes_of_string (pretty v.(FrequencyKHz.get))) = Ok v.
Proof.
  intros [Hf Hz]. unfold parse_frequency, text.
  rewrite from_utf8_of_string by (apply ascii_utf8; eapply all_chars_impl, pretty_graphic; intros []; by destruct b, b0, b1, b2, b3, b4, b5, b6).
  cbn [ok_or mbind result_bind]. rewrite trim_graphic by apply pretty_graphic.
  rewrite parse_uint_pretty by done. cbn [ok_or mbind result_bind]. unfold FrequencyKHz.new.
  rewrite (proj2 (N.eqb_neq _ _) Hz). by destruct v.
Qed.

Lemma pretty_shows v : FrequencyKHz.wf v → shows v (bytes_of_string (pretty v.(FrequencyKHz.get))).
Proof.
  intros Hv. split_and!; [by apply parse_frequency_pretty| |].
  - intros Hin. pose proof (graphic_no_nul _ (pretty_graphic v.(FrequencyKHz.get))) as Hn.
    apply not_true_iff_false in Hn. apply Hn. unfold contains_nul. apply existsb_exists.
    exists x00. split; [by apply list_elem_of_In|done].
  - rewrite length_bytes_of_string. pose proof (length_pretty 20 v.(FrequencyKHz.get) ltac:(lia)) as Hl.
    destruct Hv as [Hf _]. unfold fits in Hf.
    change (2 ^ 64) with 18446744073709551616 in Hf. change (10 ^ N.of_nat 20) with 100000000000000000000 in Hl. lia.
Qed.

(** What a file reads as is what the kernel compares with. *)
Lemma shown_bytes x p f v :
  file_shows x p f v → parse_frequency (RefusingKernel.file_bytes x (policy_path p f)) = Ok v.
Proof.
  intros (bytes & Hr & Hp & _). unfold read_file in Hr. unfold RefusingKernel.file_bytes.
  destruct (stat x _) as [[| | | |]|]; try done.
  destruct (Sysfs.contents x !! _) as [[]|]; cbn in Hr; try done;
    (destruct (_ <? _); [done|]); by injection Hr as ->.
Qed.

Lemma refused_min x p bytes :
  RefusingKernel.refused x (policy_path p "scaling_min_freq") bytes
  = RefusingKernel.reversed bytes (RefusingKernel.file_bytes x (policy_path p "scaling_max_freq")).
Proof. reflexivity. Qed.
Lemma refused_max x p bytes :
  RefusingKernel.refused x (policy_path p "scaling_max_freq") bytes
  = RefusingKernel.reversed (RefusingKernel.file_bytes x (policy_path p "scaling_min_freq")) bytes.
Proof. reflexivity. Qed.

#[local] Instance refusing_range : RangeKernel.t.
Proof.
  intros x p r [f v] [Hmin%shown_bytes Hmax%shown_bytes] [Hv Ho]. cbn [fst snd] in *.
  exists (bytes_of_string (pretty v.(FrequencyKHz.get))). split; [by apply pretty_shows|].
  unfold Kernel.write, RefusingKernel.kernel.
  replace (RefusingKernel.refused _ _ _) with false; [done|]. symmetry.
  destruct Ho as [[-> Hle]|[-> Hle]]; [rewrite refused_min|rewrite refused_max];
    unfold RefusingKernel.reversed; rewrite parse_frequency_pretty by done.
  - rewrite Hmax. by apply N.ltb_ge.
  - rewrite Hmin. by apply N.ltb_ge.
Qed.

Module PolicyHost.
Definition p0 : CpuPolicyId.t := CpuPolicyId.mk 0.
Definition khz (n : N) : FrequencyKHz.t := FrequencyKHz.mk n.
Definition file (name text : string) : path * string := (policy_path p0 name, text).
Definition files : list (path * string) :=
  [file "scaling_governor" ("powersave" +:+ String NEWLINE EmptyString);
   file "scaling_available_governors" "performance powersave";
   file "scaling_min_freq" "800000"; file "scaling_max_freq" "2000000";
   file "cpuinfo_min_freq" "400000"; file "cpuinfo_max_freq" "4000000";
   file "energy_performance_preference" "balance_power";
   file "energy_performance_available_preferences" "default performance balance_power"]%string.
Definition directories : list path :=
  [[]; ["devices"%string]; ["devices"; "system"]%string; ["devices"; "system"; "cpu"]%string; cpufreq_path;
   cpufreq_path ++ [policy_name p0]].
(** Numbered in the order of the lists. *)
Definition host : Sysfs.t :=
  Sysfs.mk 21
    (list_to_map (imap (λ i d, (d, Node.Dir (N.of_nat i))) directories
                  ++ imap (λ i f, (fst f, Node.File (100 + N.of_nat i))) files))
    (list_to_map ((λ '(f, t), (f, Contents.Bytes (bytes_of_string t))) <$> files)).

Definition powersave : TypedValue.t := TypedValue.Governor (GovernorId.mk "powersave").
Definition mutation (kind : MutationKind.t) (name : string) (original : TypedValue.t) : PlannedMutation.t :=
  PlannedMutation.mk (MutationId.mk 1) (CapabilityId.mk name) (TargetId.mk "cpu.policy.0") kind
    (typed_value kind) (fingerprint_for_value (PlanValue.Typed original)) EqualityKind.ScalarExact []
    (RollbackContract.mk EqualityKind.ScalarExact RestoreMode.CompareAndRestore).
Definition performance : PlannedMutation.t :=
  mutation (MutationKind.CpuGovernor p0 (GovernorId.mk "performance")) "cpu.policy.governor" powersave.
Definition at_ : Timestamp.t := Timestamp.mk 5.
Definition governor (x : Sysfs.t) : Result TypedValue.t :=
  CpuNodeState.typed <$> sysfs_read x (CpuNode.Governor p0).

Definition no_snapshot : Snapshot.t :=
  Snapshot.mk (MutationId.mk 0) (TargetId.mk "") (BoundedBytes.mk []) powersave
    (fingerprint_for_value (PlanValue.Typed powersave)) EqualityKind.ScalarExact
    (TargetIdentity.mk (array_repeat 16 x00)) at_.
Definition snap : Snapshot.t :=
  match fst (snapshot_internal performance at_ host) with Ok s => s | Err _ => no_snapshot end.
Definition boosted : Result ApplyReceipt.t * Sysfs.t := apply_internal performance snap host.
Definition ownership : StateFingerprint.t :=
  match fst boosted with Ok r => r.(ApplyReceipt.ownership_fingerprint) | Err _ => performance.(PlannedMutation.precondition) end.
Definition restored : Result RestoreReceipt.t * Sysfs.t :=
  restore_internal performance snap ownership (snd boosted).
(** A restore of what the session has not applied. *)
Definition refused : Result RestoreReceipt.t * Sysfs.t := restore_internal performance snap ownership host.
End PolicyHost.
Import PolicyHost.

Example host_policies : sysfs_list_policies host = Ok [p0].
Proof. vm_compute. reflexivity. Qed.
Example host_governor : governor host = Ok powersave.
Proof. vm_compute. reflexivity. Qed.
Example host_energy : is_ok (sysfs_read host (CpuNode.EnergyPreference p0)) = true
  ∧ is_ok (sysfs_choices host (CpuNode.EnergyPreference p0)) = false.
Proof. by vm_compute. Qed.

Lemma boosted_run : apply_internal performance snap host = (fst boosted, snd boosted).
Proof. change (apply_internal performance snap host) with boosted. apply surjective_pairing. Qed.
Lemma restored_run :
  restore_internal performance snap ownership (snd boosted) = (fst restored, snd restored).
Proof.
  change (restore_internal performance snap ownership (snd boosted)) with restored. apply surjective_pairing.
Qed.
Lemma refused_run : restore_internal performance snap ownership host = (fst refused, snd refused).
Proof. change (restore_internal performance snap ownership host) with refused. apply surjective_pairing. Qed.
Lemma performance_node : node_for_mutation performance = Ok (CpuNode.Governor p0).
Proof. reflexivity. Qed.

Lemma cpu_apply_outcomes_witness :
  governor (snd boosted) = Ok (TypedValue.Governor (GovernorId.mk "performance"))
  ∧ is_ok (fst boosted) = true
  ∧ others_kept (CpuNode.Governor p0) host (snd boosted).
Proof.
  split; [vm_compute; reflexivity|]. split; [vm_compute; reflexivity|].
  destruct (cpu_apply_outcomes performance snap (CpuNode.Governor p0) host (snd boosted) (fst boosted)
              performance_node boosted_run) as [Hk _]. exact Hk.
Defined.

Lemma cpu_restore_compares_witness :
  governor (snd restored) = Ok powersave ∧ original_back (CpuNode.Governor p0) snap (snd restored)
  ∧ snd refused = host.
Proof.
  split; [vm_compute; reflexivity|]. split.
  - destruct (cpu_restore_compares performance snap ownership (CpuNode.Governor p0) (snd boosted)
                (snd restored) (fst restored) performance_node restored_run) as (_ & _ & Hr).
    apply Hr. vm_compute. reflexivity.
  - destruct (cpu_restore_compares performance snap ownership (CpuNode.Governor p0) host
                (snd refused) (fst refused) performance_node refused_run) as (_ & Hr & _).
    destruct Hr as [Hr _]; [|exact Hr]. intros (st & Hst & _ & Hf).
    assert (bool_decide (CpuNodeState.fingerprint <$> CpuControlIo.read host (CpuNode.Governor p0) = Ok ownership)
            = false) as Hne by (vm_compute; reflexivity).
    apply bool_decide_eq_false in Hne. apply Hne. rewrite Hst. cbn [fmap result_fmap]. by rewrite Hf.
Defined.

(** Two steps beyond the present range, up and down. *)
Lemma frequency_range_reached_witness :
  (∃ x', sysfs_write (CpuNode.Frequency p0) (TypedValue.CpuFrequency (Some (khz 2500000)) (Some (khz 3000000))) host
         = (Ok tt, x') ∧ current_range x' p0 = Ok (khz 2500000, khz 3000000))
  ∧ (∃ x', sysfs_write (CpuNode.Frequency p0) (TypedValue.CpuFrequency (Some (khz 400000)) (Some (khz 600000))) host
         = (Ok tt, x') ∧ current_range x' p0 = Ok (khz 400000, khz 600000)).
Proof.
  assert (range_nodes host p0) as Hn by (split_and!; vm_compute; reflexivity).
  assert (range_shows host p0 (khz 800000, khz 2000000)) as Hs.
  { split; (eexists; split; [vm_compute; reflexivity|]); (split_and!; [vm_compute; reflexivity| |cbn; lia]);
      refine (proj1 (bool_decide_eq_true _) _); vm_compute; reflexivity. }
  split; (eapply (frequency_range_reached host p0 (khz 800000) (khz 2000000) (Some _) (Some _) Hn Hs);
          cbn; unfold FrequencyKHz.wf, fits; cbn; try (change (2 ^ 64) with 18446744073709551616); lia).
Defined.

