(* ===== verification/WorkloadWitnesses.v ===== *)
(** * A fixture and a host with one workload group

    The theorems of the workload backend at two concrete hosts: the fixture
    with one child group and one process, and a cgroup file system that places
    processes and puts a controller file into every new group.  Two more hosts
    show what the adapter and the backend do not do: keep apart the handles of
    [a.b] and of the child [b] of [a], and undo an application whose readback
    fails. *)
From Stdlib Require Import Strings.Byte.
From stdpp Require Import pretty.
From S2P Require Import Prelude Lists Text Str Ids Mut Capability Mutation Decision Plan Policy Session Digest.
From S2P Require Import Ports FileSystem Workload WorkloadText CgroupFixture CgroupSysfs WorkloadLaws CgroupSysfsLaws.
Local Open Scope N_scope.

Definition ok_default {A} (d : A) (r : Result A) : A := match r with Ok a => a | Err _ => d end.
Lemma ok_default_run {A} (d : A) r : is_ok r = true → r = Ok (ok_default d r).
Proof. by destruct r. Qed.
Lemma run_ok {S A} (m : Mut S A) (d : A) s :
  is_ok (fst (m s)) = true → m s = (Ok (ok_default d (fst (m s))), snd (m s)).
Proof. intros Hr. destruct (m s) as [r s']. cbn in *. by rewrite (ok_default_run d r) at 1. Qed.

Module WorkloadPlan.
Definition at_ : Timestamp.t := Timestamp.mk 5.
Definition process : ProcessId.t := ProcessId.mk 7 70.
Definition mutation (kind : MutationKind.t) (capability : string) (target : TargetId.t) (original : TypedValue.t) :
    PlannedMutation.t :=
  PlannedMutation.mk (MutationId.mk 1) (CapabilityId.mk capability) target kind (typed_value kind)
    (fingerprint_for_value (PlanValue.Typed original)) EqualityKind.ScalarExact []
    (RollbackContract.mk EqualityKind.ScalarExact RestoreMode.CompareAndRestore).
Definition placement (destination original : CgroupId.t) : PlannedMutation.t :=
  mutation (MutationKind.ProcessPlacement process destination) "scheduler.process.placement"
    (TargetId.mk (ProcessId.target_text process)) (TypedValue.ProcessPlacement original).
Definition no_snapshot : Snapshot.t :=
  Snapshot.mk (MutationId.mk 0) (TargetId.mk "") (BoundedBytes.mk []) (TypedValue.Nice (NiceValue.mk 0%Z))
    (fingerprint_for_value (PlanValue.Typed (TypedValue.Nice (NiceValue.mk 0%Z)))) EqualityKind.ScalarExact
    (TargetIdentity.mk (array_repeat 16 x00)) at_.
Definition no_receipt : ApplyReceipt.t :=
  let f := no_snapshot.(Snapshot.original_fingerprint) in ApplyReceipt.mk (MutationId.mk 0) f f f.
End WorkloadPlan.
Import WorkloadPlan.

(** ** The fixture *)

Module SmallFixture.
Definition apps : CgroupName.t := CgroupName.mk "apps".
Definition apps_id : CgroupId.t := CgroupId.mk 1 2 (TargetId.mk "cgroup.root.apps").
Definition with_child : CgroupFixture.t := snd (CgroupFixture.add_child_group root_id apps apps_id CgroupFixture.new).
Definition small : CgroupFixture.t :=
  snd (CgroupFixture.add_process process root_id (NiceValue.mk 0%Z) (IoPriority.mk IoPriorityClass.None 0) with_child).

Definition placed : PlannedMutation.t := placement apps_id root_id.
Definition snap : Snapshot.t := ok_default no_snapshot (fst (snapshot_internal placed at_ small)).
Definition applied : Result ApplyReceipt.t * CgroupFixture.t := apply_internal placed snap small.
Definition receipt : ApplyReceipt.t := ok_default no_receipt (fst applied).
Definition refused : Result RestoreReceipt.t * CgroupFixture.t :=
  restore_internal placed snap receipt.(ApplyReceipt.ownership_fingerprint) small.
End SmallFixture.
Import SmallFixture.

Lemma small_state : fixture_state small.
Proof.
  eapply (StateProcess process root_id (NiceValue.mk 0%Z) (IoPriority.mk IoPriorityClass.None 0) with_child);
    [|apply surjective_pairing].
  eapply (StateChild root_id apps apps_id CgroupFixture.new);
    [apply StateNew|vm_compute; reflexivity|apply surjective_pairing].
Qed.

Lemma fixture_books_agree_witness :
  handle_of small process = Some (TargetId.mk ROOT_TARGET) ∧ coherent small.
Proof. split; [vm_compute; reflexivity|exact (fixture_books_agree small small_state)]. Defined.

Lemma small_coherent : coherent small.
Proof. exact (fixture_state_coherent small small_state). Qed.

Lemma snap_run : snapshot_internal placed at_ small = (Ok snap, snd (snapshot_internal placed at_ small)).
Proof. apply run_ok. vm_compute. reflexivity. Qed.
Lemma placement_applied_run : apply_internal placed snap small = (Ok receipt, snd applied).
Proof. apply run_ok. vm_compute. reflexivity. Qed.

Lemma placed_wf : kind_wf placed.(PlannedMutation.kind).
Proof. by vm_compute. Qed.

Lemma fixture_restore_exact_witness :
  handle_of (snd applied) process = Some (TargetId.mk "cgroup.root.apps")
  ∧ ∃ r, restore_internal placed snap receipt.(ApplyReceipt.ownership_fingerprint) (snd applied) = (Ok r, small).
Proof.
  split; [vm_compute; reflexivity|].
  exact (fixture_restore_exact placed at_ small snap (snd (snapshot_internal placed at_ small)) receipt (snd applied)
           small_coherent placed_wf I snap_run placement_applied_run).
Defined.

Lemma placement_refused_run :
  restore_internal placed snap receipt.(ApplyReceipt.ownership_fingerprint) small = (fst refused, snd refused).
Proof. apply surjective_pairing. Qed.

(** Nothing has been applied, so the restore leaves the fixture alone. *)
Lemma workload_restore_compares_witness : snd refused = small ∧ is_ok (fst refused) = false.
Proof.
  destruct (workload_restore_compares placed snap receipt.(ApplyReceipt.ownership_fingerprint) small
              (snd refused) (fst refused) placement_refused_run) as [Hr _].
  apply Hr. intros (o & Ho & _ & Hf).
  assert (bool_decide (WorkloadObservation.fingerprint <$> read_kind small placed.(PlannedMutation.kind)
                       = Ok receipt.(ApplyReceipt.ownership_fingerprint)) = false) as Hne by (vm_compute; reflexivity).
  apply bool_decide_eq_false in Hne. apply Hne. rewrite Ho. cbn [fmap result_fmap]. by rewrite Hf.
Defined.

Lemma workload_apply_proves_witness :
  owned placed snap (fingerprint_for_value (PlanValue.Typed placed.(PlannedMutation.desired))) (snd applied).
Proof.
  destruct (workload_apply_proves placed snap small (snd applied) (Ok receipt) placement_applied_run) as (_ & Hr & _).
  exact (Hr eq_refl).
Defined.

(** ** A cgroup file system *)

Module SmallHost.
Definition root : Path := ["cgroup"; "fs"; "sys"]%string.
Definition proc_root : Path := ["proc"]%string.
Definition apps_path : Path := "apps"%string :: root.
Definition directory (ino : u64) : io Metadata.t := Ok (Metadata.mk FileType.Directory 0 0 493 1 30 ino).
Definition file (ino : u64) : io Metadata.t := Ok (Metadata.mk FileType.File 0 0 420 1 30 ino).
Definition line (s : string) : list byte := bytes_of_string (s +:+ String NEWLINE EmptyString).

(** The files of a group. *)
Definition group_files : list (string * string) :=
  [("cgroup.controllers", "cpuset cpu io"); ("cgroup.subtree_control", ""); ("cgroup.procs", "");
   ("cpu.stat", "usage_usec 0"); ("cpu.weight", "100"); ("cpuset.cpus", "0-3")]%string.
Definition group_nodes (p : Path) (ino : u64) : list (Path * io Metadata.t) :=
  (p, directory ino) :: ((λ '(f, _), (f :: p, file 100)) <$> group_files).
Definition group_contents (p : Path) : list (Path * io (list byte)) :=
  (λ '(f, t), (f :: p, Ok (line t))) <$> group_files.
Definition process_files : list (Path * string) :=
  [(["stat"; "7"; "proc"], "7 (a (b) c) S 1 7 7 0 -1 4194560 100 0 0 0 1 2 0 0 20 0 1 0 70 1000 1");
   (["cgroup"; "7"; "proc"], "0::/")]%string.
Definition host : Host.t :=
  Host.mk
    (list_to_map (group_nodes root 1 ++ group_nodes apps_path 2 ++ ((λ '(p, _), (p, file 200)) <$> process_files)))
    (list_to_map (group_contents root ++ group_contents apps_path ++ ((λ '(p, t), (p, Ok (line t))) <$> process_files)))
    ∅ {[7%N := 0%Z]} 7.

(** The place of a directory below the root, as [/proc] shows it. *)
Definition shown_path (d : Path) : string := "0::/" +:+ String.concat "/" (rev (take (length d - length root) d)).
(** A write to [cgroup.procs] moves the process, another one sets the file; a
    new group has the files of a group. *)
#[global] Instance kernel : HostKernel.t := {|
  HostKernel.write p bytes h :=
    match p with
    | name :: d =>
      if bool_decide (name = "cgroup.procs"%string)
      then (None, Host.set_contents
              (<[["cgroup"; trim (default "" (from_utf8 bytes)); "proc"]%string := Ok (line (shown_path d))]>
                 h.(Host.contents)) h)
      else (None, Host.set_contents (<[p := Ok bytes]> h.(Host.contents)) h)
    | [] => (Some ErrorKind.NotFound, h)
    end;
  HostKernel.create_dir p h :=
    (None, Host.mk (list_to_map (group_nodes p 9) ∪ h.(Host.nodes)) (list_to_map (group_contents p) ∪ h.(Host.contents))
             h.(Host.unlistable) h.(Host.nice) h.(Host.self));
  HostKernel.remove_dir p h := (None, Host.set_nodes (delete p h.(Host.nodes)) h);
  HostKernel.set_priority pid z h := (None, Host.set_nice (<[pid := z]> h.(Host.nice)) h)
|}.

Definition no_adapter : WorkloadSysfs.t := WorkloadSysfs.mk host proc_root [].
Definition adapter : WorkloadSysfs.t := ok_default no_adapter (sysfs_new host root proc_root).
Definition root_id : CgroupId.t := CgroupId.mk 30 1 (TargetId.mk ROOT_TARGET).
Definition apps_id : CgroupId.t := CgroupId.mk 30 2 (TargetId.mk "cgroup.root.apps").

(** The process moved to the child group, and the restore that follows. *)
Definition placed : PlannedMutation.t := placement apps_id root_id.
Definition placed_snap : Snapshot.t := ok_default no_snapshot (fst (snapshot_internal placed at_ adapter)).
Definition moved : Result ApplyReceipt.t * WorkloadSysfs.t := apply_internal placed placed_snap adapter.
Definition moved_own : StateFingerprint.t := (ok_default no_receipt (fst moved)).(ApplyReceipt.ownership_fingerprint).
Definition back : Result RestoreReceipt.t * WorkloadSysfs.t := restore_internal placed placed_snap moved_own (snd moved).

(** A managed group created, and the restore that follows. *)
Definition managed : MutationKind.t := MutationKind.CgroupWorkload root_id (CgroupName.mk "jobs").
Definition created_plan : PlannedMutation.t :=
  mutation managed "cgroup.workload" (TargetId.mk ROOT_TARGET)
    (TypedValue.CgroupLifecycle CgroupGroupKind.Workload (CgroupName.mk "jobs") false).
Definition created_snap : Snapshot.t := ok_default no_snapshot (fst (snapshot_internal created_plan at_ adapter)).
Definition created : Result ApplyReceipt.t * WorkloadSysfs.t := apply_internal created_plan created_snap adapter.
Definition created_own : StateFingerprint.t :=
  (ok_default no_receipt (fst created)).(ApplyReceipt.ownership_fingerprint).
Definition removed : Result RestoreReceipt.t * WorkloadSysfs.t :=
  restore_internal created_plan created_snap created_own (snd created).

Definition placement_of (x : WorkloadSysfs.t) : Result CgroupId.t :=
  SysfsGroup.identity <$> read_process_cgroup x process.
End SmallHost.

(** Handles join names with dots: the group [a.b] has the handle of a child
    [b] of [a]. *)
Module DottedHost.
Definition group (p : Path) (ino : u64) : list (Path * io Metadata.t) :=
  [(p, SmallHost.directory ino); ("cgroup.procs"%string :: p, SmallHost.file 100)].
Definition contents (p : Path) : Path * io (list byte) := ("cgroup.procs"%string :: p, Ok []).
Definition path (name : string) : Path := name :: SmallHost.root.
Definition host : Host.t :=
  Host.mk (list_to_map (group SmallHost.root 1 ++ group (path "a") 2 ++ group (path "a.b") 3))
    (list_to_map [contents SmallHost.root; contents (path "a"); contents (path "a.b")]) ∅ ∅ 7.
Definition adapter : WorkloadSysfs.t :=
  ok_default SmallHost.no_adapter (sysfs_new host SmallHost.root SmallHost.proc_root).
Definition a_id : CgroupId.t := CgroupId.mk 30 2 (TargetId.mk "cgroup.root.a").
Definition removal : Result unit * WorkloadSysfs.t :=
  sysfs_write_mutation (MutationKind.CgroupWorkload a_id (CgroupName.mk "b"))
    (TypedValue.CgroupLifecycle CgroupGroupKind.Workload (CgroupName.mk "b") false) adapter.
End DottedHost.

(** Removing the child [b] of [a], which is not there, removes [a.b]. *)
Example dotted_handle_removed :
  fst DottedHost.removal = Ok tt
  ∧ is_ok (Host.stat DottedHost.host (DottedHost.path "a.b")) = true
  ∧ is_ok (Host.stat (snd DottedHost.removal).(WorkloadSysfs.host) (DottedHost.path "a.b")) = false.
Proof. vm_compute. split_and!; reflexivity. Qed.

(** A kernel that takes every write of a control for 50. *)
Module ClampingHost.
Definition kernel : HostKernel.t := {|
  HostKernel.write p _ h := HostKernel.write p (SmallHost.line "50") h;
  HostKernel.create_dir := HostKernel.create_dir;
  HostKernel.remove_dir := HostKernel.remove_dir;
  HostKernel.set_priority := HostKernel.set_priority
|}.
Definition backend : MutationBackend.t (WorkloadBackend.t WorkloadSysfs.t) :=
  @workload_backend _ (@sysfs_control_io kernel).
Definition weight : PlannedMutation.t :=
  mutation (MutationKind.CgroupCpuWeight SmallHost.apps_id (CpuWeight.mk 200)) "cgroup.cpu.weight"
    SmallHost.apps_id.(CgroupId.handle) (TypedValue.CgroupCpuWeight (CpuWeight.mk 100)).
Definition before : WorkloadBackend.t WorkloadSysfs.t := WorkloadBackend.new SmallHost.adapter.
Definition snap : Snapshot.t := ok_default no_snapshot (fst (MutationBackend.snapshot weight at_ before)).
Definition after : WorkloadBackend.t WorkloadSysfs.t := snd (MutationBackend.apply (t := backend) weight snap before).
Definition held (b : WorkloadBackend.t WorkloadSysfs.t) : Result StateFingerprint.t :=
  fst (MutationBackend.verify (t := backend) weight no_snapshot.(Snapshot.original_fingerprint)
         snap.(Snapshot.target_identity) b).
Definition fingerprint (n : u16) : StateFingerprint.t :=
  fingerprint_for_value (PlanValue.Typed (TypedValue.CgroupCpuWeight (CpuWeight.mk n))).
End ClampingHost.

(** An application whose readback shows another value than it wrote reports an
    error that does not say so, and what it wrote stays. *)
Example unproven_apply_keeps_its_write :
  match fst (MutationBackend.apply (t := ClampingHost.backend) ClampingHost.weight ClampingHost.snap
               ClampingHost.before) with
  | Ok _ => false
  | Err e => negb (bool_decide (e.(SysboostError.retryability) = Retryability.Unknown))
  end = true
  ∧ ClampingHost.held ClampingHost.before = Ok (ClampingHost.fingerprint 100)
  ∧ ClampingHost.held ClampingHost.after = Ok (ClampingHost.fingerprint 50).
Proof. vm_compute. split_and!; reflexivity. Qed.

(** On a host, a failed application of known effect leaves what a readback
    shows. *)
Lemma failed_apply_shows {B K} `{!MutationBackend.t B, !HostLaws.t B K} m s f i (b : B) x y :
  s.(Snapshot.original_fingerprint) = m.(PlannedMutation.precondition) →
  match fst (MutationBackend.apply m s b) with
  | Ok _ => false
  | Err e => negb (bool_decide (e.(SysboostError.retryability) = Retryability.Unknown))
  end = true →
  fst (MutationBackend.verify m f i b) = Ok x →
  fst (MutationBackend.verify m f i (snd (MutationBackend.apply m s b))) = Ok y → x = y.
Proof.
  destruct (MutationBackend.apply m s b) as [[r|e] b'] eqn:Hr; cbn [fst snd]; [done|].
  intros Hs He%negb_true_iff%bool_decide_eq_false Hx Hy.
  destruct (MutationBackend.verify m f i b) as [r1 b1] eqn:H1, (MutationBackend.verify m f i b') as [r2 b2] eqn:H2.
  cbn in Hx, Hy. subst r1 r2. apply HostLaws.verify_reads in H1 as Hx. apply HostLaws.verify_reads in H2 as Hy.
  rewrite (HostLaws.apply_failed _ _ _ _ _ _ Hs Hr He), Hx in Hy. congruence.
Qed.

(** So the workload backend does not keep the contract of [HostLaws], which the
    exactness of the engine's restores needs, whatever its controls are taken
    to be. *)
Lemma workload_backend_is_no_host (K : Type) :
  @HostLaws.t (WorkloadBackend.t WorkloadSysfs.t) K ClampingHost.backend → False.
Proof.
  intros laws. destruct unproven_apply_keeps_its_write as (Happly & Hbefore & Hafter).
  assert (ClampingHost.fingerprint 100 ≠ ClampingHost.fingerprint 50) as Hne by (vm_compute; discriminate).
  assert (ClampingHost.snap.(Snapshot.original_fingerprint) = ClampingHost.weight.(PlannedMutation.precondition))
    as Hs by (vm_compute; reflexivity).
  exact (Hne (@failed_apply_shows _ K ClampingHost.backend laws ClampingHost.weight ClampingHost.snap _ _
                ClampingHost.before _ _ Hs Happly Hbefore Hafter)).
Qed.

Example small_host_runs :
  length SmallHost.adapter.(WorkloadSysfs.groups) = 2%nat
  ∧ is_ok (fst SmallHost.moved) = true ∧ is_ok (fst SmallHost.created) = true
  ∧ SmallHost.placement_of SmallHost.adapter = Ok SmallHost.root_id
  ∧ SmallHost.placement_of (snd SmallHost.moved) = Ok SmallHost.apps_id.
Proof. by vm_compute. Qed.

Lemma adapter_run : sysfs_new SmallHost.host SmallHost.root SmallHost.proc_root = Ok SmallHost.adapter.
Proof. apply ok_default_run. vm_compute. reflexivity. Qed.

Lemma discovery_confined_witness :
  length SmallHost.adapter.(WorkloadSysfs.groups) = 2%nat
  ∧ found SmallHost.host SmallHost.root SmallHost.adapter.(WorkloadSysfs.groups).
Proof.
  split; [vm_compute; reflexivity|].
  exact (discovery_confined SmallHost.host SmallHost.root SmallHost.proc_root SmallHost.adapter adapter_run).
Defined.

Definition placement_kind : MutationKind.t := MutationKind.ProcessPlacement process SmallHost.apps_id.
Definition placement_value : TypedValue.t := TypedValue.ProcessPlacement SmallHost.apps_id.
Definition placement_run : Result unit * WorkloadSysfs.t :=
  sysfs_write_mutation placement_kind placement_value SmallHost.adapter.
Lemma placement_run_eq :
  sysfs_write_mutation placement_kind placement_value SmallHost.adapter = (fst placement_run, snd placement_run).
Proof.
  change (sysfs_write_mutation placement_kind placement_value SmallHost.adapter) with placement_run.
  apply surjective_pairing.
Qed.

Lemma workload_writes_confined_witness :
  SmallHost.placement_of (snd placement_run) = Ok SmallHost.apps_id
  ∧ rtc (host_step SmallHost.adapter placement_kind placement_value) SmallHost.adapter.(WorkloadSysfs.host) (snd placement_run).(WorkloadSysfs.host).
Proof.
  split; [vm_compute; reflexivity|].
  exact (workload_writes_confined placement_kind placement_value SmallHost.adapter (fst placement_run)
           (snd placement_run) placement_run_eq).
Defined.

Lemma back_run :
  restore_internal SmallHost.placed SmallHost.placed_snap SmallHost.moved_own (snd SmallHost.moved)
  = (fst SmallHost.back, snd SmallHost.back).
Proof.
  change (restore_internal SmallHost.placed SmallHost.placed_snap SmallHost.moved_own (snd SmallHost.moved)) with SmallHost.back.
  apply surjective_pairing.
Qed.

(** What the kernel does with the write is computed. *)
Definition after_move : Host.t :=
  snd (HostKernel.write (FileSystem.join SmallHost.apps_path "cgroup.procs") (pid_bytes process)
         (snd SmallHost.moved).(WorkloadSysfs.host)).
Lemma small_kernel_places g h g' :
  group_for (snd SmallHost.moved) SmallHost.apps_id = Ok g →
  HostKernel.write (FileSystem.join g.(SysfsGroup.path) "cgroup.procs") (pid_bytes process)
    (snd SmallHost.moved).(WorkloadSysfs.host) = (None, h) →
  read_process_cgroup (WorkloadSysfs.set_host h (snd SmallHost.moved)) process = Ok g' →
  g'.(SysfsGroup.identity) = SmallHost.apps_id.
Proof.
  intros Hg Hw Hr.
  assert (group_for (snd SmallHost.moved) SmallHost.apps_id
          = Ok (SysfsGroup.mk SmallHost.apps_id "apps" SmallHost.apps_path)) as Hg' by (vm_compute; reflexivity).
  rewrite Hg' in Hg. injection Hg as <-. cbn [SysfsGroup.path] in Hw.
  assert (h = after_move) as -> by (unfold after_move; by rewrite Hw).
  assert (SysfsGroup.identity <$> read_process_cgroup (WorkloadSysfs.set_host after_move (snd SmallHost.moved)) process
          = Ok SmallHost.apps_id) as Hi by (vm_compute; reflexivity).
  rewrite Hr in Hi. by injection Hi.
Qed.

Lemma placement_never_moved_back_witness :
  is_ok (fst SmallHost.moved) = true ∧ is_ok (fst SmallHost.back) = false
  ∧ SmallHost.placement_of (snd SmallHost.back) = Ok SmallHost.apps_id.
Proof.
  split; [vm_compute; reflexivity|]. split; [|vm_compute; reflexivity].
  apply (placement_never_moved_back SmallHost.placed SmallHost.placed_snap SmallHost.moved_own
           (snd SmallHost.moved) (snd SmallHost.back) (fst SmallHost.back) process SmallHost.apps_id SmallHost.root_id).
  - reflexivity.
  - vm_compute. reflexivity.
  - refine (proj1 (bool_decide_eq_false _) _). vm_compute. reflexivity.
  - exact small_kernel_places.
  - exact back_run.
Defined.

Lemma removed_run :
  restore_internal SmallHost.created_plan SmallHost.created_snap SmallHost.created_own (snd SmallHost.created)
  = (fst SmallHost.removed, snd SmallHost.removed).
Proof.
  change (restore_internal SmallHost.created_plan SmallHost.created_snap SmallHost.created_own (snd SmallHost.created)) with SmallHost.removed.
  apply surjective_pairing.
Qed.

Definition jobs : TargetId.t := TargetId.mk "cgroup.root.jobs".
Definition jobs_group : SysfsGroup.t :=
  SysfsGroup.mk (CgroupId.mk 30 9 jobs) "jobs" (FileSystem.join SmallHost.root "jobs").
Definition jobs_entries : list string :=
  match Host.read_dir (snd SmallHost.created).(WorkloadSysfs.host) jobs_group.(SysfsGroup.path) with
  | Ok entries => entries | Err _ => []
  end.

Lemma created_unrestorable :
  unrestorable (snd SmallHost.created) SmallHost.created_plan.(PlannedMutation.kind)
    SmallHost.created_snap.(Snapshot.original_typed).
Proof.
  assert (SmallHost.created_snap.(Snapshot.original_typed)
          = TypedValue.CgroupLifecycle CgroupGroupKind.Workload (CgroupName.mk "jobs") false) as ->
    by (vm_compute; reflexivity).
  cbn [unrestorable SmallHost.created_plan mutation PlannedMutation.kind SmallHost.managed].
  exists (SysfsGroup.mk SmallHost.root_id "" SmallHost.root), jobs, jobs_group, jobs_group, jobs_entries.
  split; [vm_compute; reflexivity|]. split; [vm_compute; reflexivity|]. split; [vm_compute; reflexivity|].
  split; [vm_compute; reflexivity|]. split; vm_compute; reflexivity.
Qed.

Lemma restore_never_possible_witness :
  is_ok (fst SmallHost.created) = true ∧ is_ok (fst SmallHost.removed) = false
  ∧ snd SmallHost.removed = snd SmallHost.created.
Proof.
  split; [vm_compute; reflexivity|].
  exact (restore_never_possible SmallHost.created_plan SmallHost.created_snap SmallHost.created_own
           (snd SmallHost.created) (snd SmallHost.removed) (fst SmallHost.removed) created_unrestorable removed_run).
Defined.

Definition four_cpus : TypedValue.t := TypedValue.CgroupCpuset (CpuSet.mk [0; 1; 2; 3]).

Lemma four_cpus_wf : value_wf four_cpus.
Proof.
  unfold four_cpus, value_wf, CpuSet.wf. cbn [CpuSet.as_slice]. split_and!; [|done|].
  - repeat constructor.
  - repeat (constructor; [by unfold fits|]). constructor.
Qed.

Lemma node_text_round_trip_witness :
  parse_workload_node WorkloadNode.CpusetCpus (bytes_of_string "0,1,2,3") = Ok four_cpus.
Proof.
  apply (node_text_round_trip WorkloadNode.CpusetCpus four_cpus "0,1,2,3").
  - exact four_cpus_wf.
  - intros s [= <-]. unfold MAX_CPUSET. cbn. lia.
  - vm_compute. reflexivity.
Defined.
