(* ===== verification/Witnesses.v ===== *)
(** * Concrete runs

    The fixture of the test kit, with one and two governor mutations, driven
    through [prepare], [apply], [restore] and [recover_unfinished], and the
    theorems applied to these runs. *)
From Stdlib Require Import Strings.Byte.
From stdpp Require Import sorting.
From S2P Require Import Prelude Lists Text Ids Mut Capability Mutation Decision MutationLaws.
From S2P Require Import Plan Session Record RecordInvariant Codec CodecLaws Checksum StateFile Ports.
From S2P Require Import Registry Engine EngineTrace EngineOutcome EngineResult EngineSession Testkit EngineHost EngineExact.
Local Open Scope N_scope.

(** ** The fixture *)

Module Fixture.
Definition debug (v : TypedValue.t) : string :=
  match v with TypedValue.Governor g => GovernorId.as_str g | _ => "other" end.
#[global] Instance backend_instance : MutationBackend.t FakeMutationBackend.t :=
  fake_backend debug.

Definition target (n : N) : TargetId.t :=
  TargetId.mk ("fixture.cpu.policy." +:+ (if n =? 1 then "1" else "2")).
Definition kind (n : N) : MutationKind.t :=
  MutationKind.CpuGovernor (CpuPolicyId.mk n) (GovernorId.mk "performance").
Definition original : TypedValue.t := TypedValue.Governor (GovernorId.mk "powersave").
Definition mutation (n : N) (dependencies : list MutationId.t) : PlannedMutation.t :=
  PlannedMutation.mk (MutationId.mk n) (CapabilityId.mk "cpu.policy.governor") (target n)
    (kind n) (typed_value (kind n)) (FakeMutationBackend.fingerprint debug original)
    EqualityKind.ScalarExact dependencies
    (RollbackContract.mk EqualityKind.ScalarExact RestoreMode.CompareAndRestore).

Definition id : PlanId.t := PlanId.mk (array_repeat 16 (n2b 0xab)).
Definition digest (n : N) : array 32 := array_repeat 32 (n2b n).
Definition plan_of (l : list PlannedMutation.t) : Plan.t :=
  match complete_fixture_plan l with
  | Ok p => p
  | Err _ => Plan.mk id (digest 0) (digest 0) (digest 0) [] [] None
  end.
Definition one : Plan.t := plan_of [mutation 1 []].
Definition two : Plan.t := plan_of [mutation 1 []; mutation 2 [MutationId.mk 1]].

Definition sid : SessionId.t := SessionId.mk (array_repeat 16 (n2b 7)).
Definition host : FakeMutationBackend.t :=
  FakeMutationBackend.seed (target 1) original
    (FakeMutationBackend.seed (target 2) original FakeMutationBackend.default).

Abbreviation engine := (TransactionEngine.t FakeMutationBackend.t MemoryStateStore.t
  MemorySessionLock.t unit FixedSessionIdSource.t FakeClock.t).

Definition fresh : engine :=
  new host MemoryStateStore.default MemorySessionLock.shared (FixedSessionIdSource.mk [sid])
    (FakeClock.mk (Timestamp.mk 42)).
(** A session that is prepared, applied and restored. *)
Definition prepared : engine := snd (prepare one fresh).
Definition active : engine := snd (apply sid prepared).
Definition restored : engine := snd (restore sid active).

(** A new process on the host and the store of a crashed one. *)
Definition crashed : engine :=
  new active.(TransactionEngine.backend) active.(TransactionEngine.state_store)
    MemorySessionLock.shared (FixedSessionIdSource.mk []) (FakeClock.mk (Timestamp.mk 43)).
Definition recovered : engine := snd (recover_unfinished crashed).

(** A host whose first readback fails. *)
Definition failing : engine :=
  new (FakeMutationBackend.mk host.(FakeMutationBackend.values) [] [] [] None None None
         (Some (MutationId.mk 1)) None)
    MemoryStateStore.default MemorySessionLock.shared (FixedSessionIdSource.mk [sid])
    (FakeClock.mk (Timestamp.mk 42)).
Definition failing_prepared : engine := snd (prepare one failing).
Definition rolled_back : engine := snd (apply sid failing_prepared).
End Fixture.
Import Fixture.

Definition call_kind (c : call) : string :=
  match c with
  | CSnapshot _ _ => "snapshot"
  | CApply _ _ _ => "apply"
  | CVerify _ _ _ _ => "verify"
  | CRestore _ _ _ _ => "restore"
  | CCreate _ _ => "create"
  | CReplace _ _ => "replace"
  | CRemove _ _ => "remove"
  end.
Definition kinds (e : engine) : list string := call_kind <$> e.(TransactionEngine.trace).
Definition value_of (e : engine) : option string :=
  debug <$> e.(TransactionEngine.backend).(FakeMutationBackend.values) !! target 1.
Definition code_of {A} (r : Result A) : option ErrorCode.t :=
  match r with Ok _ => None | Err x => Some x.(SysboostError.code) end.

Definition op_states (r : Result SessionRecord.t) : option (list OperationState.t) :=
  match r with
  | Ok r => Some (OperationRecord.state <$> r.(SessionRecord.operations))
  | Err _ => None
  end.

(** All the runs, evaluated once. *)
Definition story :=
  let p1 := prepare one fresh in
  let p2 := apply sid (snd p1) in
  let p3 := restore sid (snd p2) in
  let p4 := recover_unfinished
    (new (snd p2).(TransactionEngine.backend) (snd p2).(TransactionEngine.state_store)
       MemorySessionLock.shared (FixedSessionIdSource.mk []) (FakeClock.mk (Timestamp.mk 43))) in
  (((fst p1, fst p2), (fst p3, fst p4)),
   ((kinds (snd p3), op_states (fst (SessionStateStore.load sid (snd p2).(TransactionEngine.state_store)))),
    (kinds (snd p4), (value_of (snd p2), (value_of (snd p3), value_of (snd p4)))))).

Lemma story_run :
  story =
  (((Ok sid, Ok SessionState.Active),
    (Ok SessionState.Restored, Ok [TransactionStatus.mk sid SessionState.Restored])),
   ((["snapshot"; "create"; "replace"; "replace"; "apply"; "replace"; "verify"; "replace";
      "replace"; "replace"; "replace"; "verify"; "restore"; "replace"; "replace"],
     Some [OperationState.Verified]),
    (["replace"; "replace"; "verify"; "restore"; "replace"; "replace"],
     (Some "performance", (Some "powersave", Some "powersave"))))).
Proof. vm_cast_no_check (eq_refl story). Qed.

Lemma run_Ok {S A} (m : Mut S A) s a : fst (m s) = Ok a → m s = (Ok a, snd (m s)).
Proof. destruct (m s). by intros [= ->]. Qed.

Lemma pair_inj {A B} (a a' : A) (b b' : B) : (a, b) = (a', b') → a = a' ∧ b = b'.
Proof. by intros [= -> ->]. Qed.

Lemma story_runs :
  prepare one fresh = (Ok sid, prepared)
  ∧ apply sid prepared = (Ok SessionState.Active, active)
  ∧ restore sid active = (Ok SessionState.Restored, restored)
  ∧ recover_unfinished crashed
    = (Ok [TransactionStatus.mk sid SessionState.Restored], recovered).
Proof.
  pose proof story_run as Hs. unfold story in Hs. cbv zeta in Hs.
  apply pair_inj in Hs as [Hs _]. apply pair_inj in Hs as [H1 H2].
  apply pair_inj in H1 as [H1%run_Ok H1']. apply pair_inj in H2 as [H2 H3].
  split; [exact H1|]. split; [exact (run_Ok _ _ _ H1')|].
  split; [exact (run_Ok _ _ _ H2)|exact (run_Ok _ _ _ H3)].
Qed.

(** An application whose readback fails: what was written is restored. *)
Definition failing_story :=
  let p1 := prepare one failing in
  let p2 := apply sid (snd p1) in
  ((fst p1, code_of (fst p2)), (kinds (snd p2), value_of (snd p2))).

Lemma failing_story_run :
  failing_story =
  ((Ok sid, Some ErrorCode.VerificationError),
   (["snapshot"; "create"; "replace"; "replace"; "apply"; "replace"; "verify"; "replace";
     "replace"; "replace"; "verify"; "restore"; "replace"; "replace"], Some "powersave")).
Proof. vm_cast_no_check (eq_refl failing_story). Qed.

(** ** The engine *)

Lemma active_reachable : rtc engine_step fresh active.
Proof.
  destruct story_runs as (H1 & H2 & _).
  exact (rtc_l _ _ _ _ (step_prepare _ _ _ _ H1)
           (rtc_once _ _ (step_apply_session _ _ _ _ H2))).
Qed.
Lemma restored_reachable : rtc engine_step fresh restored.
Proof.
  destruct story_runs as (_ & _ & H3 & _).
  exact (rtc_r _ _ _ active_reachable (step_restore_session _ _ _ _ H3)).
Qed.

(** The call at a place of a trace, of a given kind. *)
Lemma nth_call (tr : list call) n k :
  (call_kind <$> tr) !! n = Some k → ∃ c, tr !! n = Some c ∧ call_kind c = k.
Proof. intros (c & -> & Hc)%list_lookup_fmap_Some. eauto. Qed.

Lemma story_traces :
  kinds restored =
  ["snapshot"; "create"; "replace"; "replace"; "apply"; "replace"; "verify"; "replace";
   "replace"; "replace"; "replace"; "verify"; "restore"; "replace"; "replace"]
  ∧ op_states (fst (SessionStateStore.load sid active.(TransactionEngine.state_store)))
    = Some [OperationState.Verified].
Proof.
  pose proof story_run as Hs. unfold story in Hs. cbv zeta in Hs.
  apply pair_inj in Hs as [_ Hs]. apply pair_inj in Hs as [Hs _].
  apply pair_inj in Hs as [H1 H2]. split; [exact H1|exact H2].
Qed.

Lemma write_ahead_apply_witness :
  ∃ m s res, TransactionEngine.trace restored !! 4%nat = Some (CApply m s res)
  ∧ ∃ r o, last (take 4 (TransactionEngine.trace restored)) = Some (CReplace r (Ok tt))
    ∧ o ∈ r.(SessionRecord.operations) ∧ o.(OperationRecord.mutation) = m
    ∧ o.(OperationRecord.snapshot) = Some s
    ∧ o.(OperationRecord.state) = OperationState.Applying.
Proof.
  destruct (nth_call (TransactionEngine.trace restored) 4 "apply") as (c & Hc & Hk).
  { change (kinds restored !! 4%nat = Some "apply"). by rewrite (proj1 story_traces). }
  destruct c as [| m s res | | | | |]; try discriminate Hk. exists m, s, res.
  split; [exact Hc|].
  exact (write_ahead_apply _ _ _ _ _ _ _ _ _ _ restored_reachable Hc).
Defined.

Lemma compare_before_restore_witness :
  ∃ m s own res, TransactionEngine.trace restored !! 12%nat = Some (CRestore m s own res)
  ∧ own ≠ s.(Snapshot.original_fingerprint)
  ∧ last (take 12 (TransactionEngine.trace restored))
    = Some (CVerify m s.(Snapshot.original_fingerprint) s.(Snapshot.target_identity) (Ok own)).
Proof.
  destruct (nth_call (TransactionEngine.trace restored) 12 "restore") as (c & Hc & Hk).
  { change (kinds restored !! 12%nat = Some "restore"). by rewrite (proj1 story_traces). }
  destruct c as [| | | m s own res | | |]; try discriminate Hk. exists m, s, own, res.
  split; [exact Hc|].
  exact (compare_before_restore _ _ _ _ _ _ _ _ _ _ _ restored_reachable Hc).
Defined.



Lemma restore_means_restored_witness :
  SessionState.Restored = SessionState.Restored
  ∧ ∃ r s', SessionStateStore.load sid active.(TransactionEngine.state_store) = (Ok r, s')
      ∧ (TransactionEngine.trace restored = TransactionEngine.trace active
         ∧ session_state r = SessionState.Restored
         ∨ ended (TransactionEngine.trace active) (TransactionEngine.trace restored) r).
Proof.
  destruct story_runs as (_ & _ & H3 & _). exact (restore_means_restored _ _ _ _ H3).
Defined.

Lemma recovery_restores_all_witness :
  ∃ records s',
    SessionStateStore.load_unfinished crashed.(TransactionEngine.state_store) = (Ok records, s')
    ∧ [TransactionStatus.mk sid SessionState.Restored]
      = (λ r, TransactionStatus.mk (SessionRecord.session_id r) SessionState.Restored)
          <$> merge_sort session_le records
    ∧ ∀ r, r ∈ records →
        ended_since (TransactionEngine.trace crashed) (TransactionEngine.trace recovered) r.
Proof.
  destruct story_runs as (_ & _ & _ & H4). exact (recovery_restores_all _ _ _ H4).
Defined.

(** A trigger on the crashed engine: the record is the one its store holds. *)
Definition trigger : SysboostError.t :=
  SysboostError.new ErrorCode.ApplyError "fixture trigger".

Lemma lease_until_restored_witness :
  lease_kept active restored
  ∨ lease_given_back active restored
    ∧ ∃ r s', SessionStateStore.load sid active.(TransactionEngine.state_store) = (Ok r, s')
        ∧ (ended_since (TransactionEngine.trace active) (TransactionEngine.trace restored) r
           ∨ session_state r = SessionState.Restored).
Proof.
  destruct story_runs as (_ & _ & H3 & _).
  exact (lease_until_restored sid active restored _ (or_intror H3)).
Defined.

Lemma prepare_lease_witness :
  ∃ g l, TransactionEngine.active prepared = Some (sid, g)
    ∧ ExclusiveSessionLock.acquire (TransactionEngine.lock fresh) = (Ok g, l).
Proof.
  destruct story_runs as (H1 & _). exact (prepare_lease _ _ _ _ H1).
Defined.

(** ** The state file *)

(** The file of the prepared session. *)
Definition stored : list byte :=
  default [] (prepared.(TransactionEngine.state_store).(MemoryStateStore.files) !! sid).
Definition reencodes (bytes : list byte) : bool :=
  match decode bytes with
  | Ok r =>
    match encode r with
    | Ok b => bool_decide (b = bytes) && bool_decide (100 < length bytes)%nat
    | Err _ => false
    end
  | Err _ => false
  end.

Lemma reencodes_spec bytes :
  reencodes bytes = true →
  ∃ r, decode bytes = Ok r ∧ encode r = Ok bytes ∧ (100 < length bytes)%nat.
Proof.
  unfold reencodes. destruct (decode bytes) as [r|]; [|discriminate].
  destruct (encode r) as [b|] eqn:He; [|discriminate].
  rewrite andb_true_iff, !bool_decide_eq_true. intros [-> Hl]. eauto.
Qed.

Lemma stored_record :
  ∃ r, decode stored = Ok r ∧ encode r = Ok stored ∧ (100 < length stored)%nat.
Proof. apply reencodes_spec. vm_cast_no_check (eq_refl true). Qed.

Lemma rollback_restores_or_escalates_witness :
  ∃ r e' res,
    rollback_after_failure r trigger true crashed = (res, e')
    ∧ ((res = Err trigger ∧ ended (TransactionEngine.trace crashed) (TransactionEngine.trace e') r)
       ∨ ∃ x, res = Err (combine_failure trigger x (SessionRecord.session_id r))
         ∧ SysboostError.retryability (combine_failure trigger x (SessionRecord.session_id r))
           = Retryability.AfterRecovery).
Proof.
  destruct stored_record as (r & _). exists r.
  destruct (rollback_after_failure r trigger true crashed) as [res e'] eqn:Hrun.
  exists e', res. split; [reflexivity|].
  exact (rollback_restores_or_escalates _ _ _ _ _ _ Hrun).
Defined.

Lemma restore_in_reverse_order_witness :
  ∃ r r' e' res, restore_record (crashed, r) = (res, (e', r'))
  ∧ ∃ l, omap restored_call (TransactionEngine.trace e')
         = omap restored_call (TransactionEngine.trace crashed) ++ l
    ∧ l `sublist_of` reverse (OperationRecord.mutation <$> r.(SessionRecord.operations)).
Proof.
  destruct stored_record as (r & _).
  destruct (restore_record (crashed, r)) as [res [e' r']] eqn:Hrun.
  exists r, r', e', res. split; [exact Hrun|].
  exact (restore_in_reverse_order _ _ _ _ _ Hrun).
Defined.

Lemma apply_in_plan_order_witness :
  ∃ r r' e' res, apply_record sid (prepared, r) = (res, (e', r'))
  ∧ ∃ l, omap applied_call (TransactionEngine.trace e')
         = omap applied_call (TransactionEngine.trace prepared) ++ l
    ∧ l `sublist_of` (OperationRecord.mutation <$> r.(SessionRecord.operations)).
Proof.
  destruct stored_record as (r & _).
  destruct (apply_record sid (prepared, r)) as [res [e' r']] eqn:Hrun.
  exists r, r', e', res. split; [exact Hrun|].
  exact (apply_in_plan_order _ _ _ _ _ _ Hrun).
Defined.

Lemma state_file_round_trip_witness :
  ∃ r, encode r = Ok stored ∧ decode stored = Ok r
       ∧ N.of_nat (length stored) ≤ MAX_SESSION_RECORD_BYTES.
Proof.
  destruct stored_record as (r & Hd & He & _). exists r. split; [exact He|].
  exact (state_file_round_trip r stored (proj1 (decode_valid _ _ Hd)) He).
Defined.

Lemma decoded_record_valid_witness :
  ∃ r, decode stored = Ok r ∧ record_wf r ∧ validate_for_serialization r = Ok tt.
Proof.
  destruct stored_record as (r & Hd & _). exists r. split; [exact Hd|].
  exact (decoded_record_valid stored r Hd).
Defined.

Lemma damaged_byte_rejected_witness :
  ∃ pre x y post, stored = pre ++ x :: post ∧ length pre = 100%nat ∧ x ≠ y
                  ∧ ∃ msg, decode (pre ++ y :: post) = Err (corrupt msg).
Proof.
  destruct stored_record as (r & _ & He & Hl).
  destruct (lookup_lt_is_Some_2 stored 100 Hl) as [x Hx].
  pose proof (take_drop_middle stored 100 x Hx) as Hsplit.
  set (y := if bool_decide (x = x00) then x01 else x00).
  assert (x ≠ y) as Hxy by (unfold y; case_bool_decide; congruence).
  exists (take 100 stored), x, y, (drop 101 stored). split; [symmetry; exact Hsplit|].
  split; [rewrite length_take; lia|]. split; [exact Hxy|].
  rewrite <-Hsplit in He.
  exact (damaged_byte_rejected r (take 100 stored) (drop 101 stored) x y He Hxy).
Defined.

Lemma torn_write_rejected_witness :
  ∃ msg, decode (take 100 stored) = Err (corrupt msg).
Proof.
  destruct stored_record as (r & _ & He & Hl).
  rewrite <-(take_drop 100 stored) in He.
  apply (torn_write_rejected r (take 100 stored) (drop 100 stored) He).
  intros Hd. apply (f_equal length) in Hd. rewrite length_drop in Hd. cbn in Hd. lia.
Defined.

(** ** Records, plans and sessions *)

Lemma session_write_ahead_order_witness :
  SessionState.Snapshotted ∈ [SessionState.New; SessionState.Detected; SessionState.Planned;
    SessionState.Snapshotted; SessionState.IntentDurable].
Proof.
  assert (reachable [SessionState.New; SessionState.Detected; SessionState.Planned;
    SessionState.Snapshotted; SessionState.IntentDurable] SessionState.Applying) as Hr.
  { apply (reach_step [SessionState.New; SessionState.Detected; SessionState.Planned;
      SessionState.Snapshotted] SessionState.IntentDurable); [|reflexivity].
    apply (reach_step [SessionState.New; SessionState.Detected; SessionState.Planned]
      SessionState.Snapshotted); [|reflexivity].
    apply (reach_step [SessionState.New; SessionState.Detected] SessionState.Planned); [|reflexivity].
    apply (reach_step [SessionState.New] SessionState.Detected); [|reflexivity].
    apply (reach_step [] SessionState.New); [constructor|reflexivity]. }
  destruct (session_write_ahead_order _ _ Hr) as (Hm & _).
  destruct (Hm eq_refl) as [Hs _]. exact Hs.
Defined.

Lemma two_from_items :
  Plan.from_items id (digest 17) (digest 34) (digest 51) Profile.Performance
    (fixture_item <$> [mutation 1 []; mutation 2 [MutationId.mk 1]]) = Ok two.
Proof. vm_compute. reflexivity. Qed.

Lemma plan_from_items_complete_witness : topological two.(Plan.mutations).
Proof.
  destruct (plan_from_items_complete _ _ _ _ _ _ _ two_from_items) as [Ht _]. exact Ht.
Defined.

Lemma live_record_validates_witness :
  ∃ r0 r, SessionRecord.new (Session.new sid two (Timestamp.mk 42)) two.(Plan.mutations) = Ok r0
    ∧ SessionRecord.transition SessionState.Detected (Timestamp.mk 42) "accepted" r0 = (Ok tt, r)
    ∧ validate_for_serialization r = Ok tt.
Proof.
  destruct (SessionRecord.new (Session.new sid two (Timestamp.mk 42)) two.(Plan.mutations))
    as [r0|x] eqn:Hn; [|exfalso; vm_compute in Hn; discriminate Hn].
  assert (∃ r, SessionRecord.transition SessionState.Detected (Timestamp.mk 42) "accepted" r0
               = (Ok tt, r) ∧ N.of_nat (length r0.(SessionRecord.transitions)) < 2 ^ 63
               ∧ within_bounds r) as (r & Hr & Hb & Hw).
  { vm_compute in Hn. injection Hn as <-. eexists. split; [vm_compute; reflexivity|].
    split; [reflexivity|]. unfold within_bounds. cbn [SessionRecord.operations SessionRecord.transitions
      SessionRecord.failures SessionRecord.session Session.header SessionHeader.targets].
    split; [discriminate|]. repeat split; vm_compute; discriminate. }
  exists r0, r. split; [reflexivity|]. split; [exact Hr|].
  apply (live_record_validates sid two (Timestamp.mk 42) r); [|exact Hw].
  exists r0. split; [exact Hn|]. exact (rtc_once _ _ (step_transition _ _ _ _ _ Hb Hr)).
Defined.

Lemma validated_operation_evidence_witness :
  ∃ o a v, o.(OperationRecord.state) = OperationState.Verified
    ∧ o.(OperationRecord.apply_receipt) = Some a ∧ o.(OperationRecord.verification) = Some v
    ∧ v.(VerificationResult.observed) = Some a.(ApplyReceipt.ownership_fingerprint).
Proof.
  destruct story_traces as [_ Hs]. revert Hs.
  destruct (SessionStateStore.load sid active.(TransactionEngine.state_store)) as [[r|x] s'] eqn:Hl;
    [|discriminate].
  cbn [fst op_states]. intros [= Hs]. pose proof (StoreLaws.load_validated _ _ _ _ Hl) as Hv.
  destruct r.(SessionRecord.operations) as [|o l] eqn:Ho; [discriminate Hs|].
  assert (o ∈ r.(SessionRecord.operations)) as Hin by (rewrite Ho; left).
  injection Hs as Hst _.
  destruct (validated_operation_evidence r o Hv Hin) as (_ & H2 & _).
  destruct (H2 Hst) as (a & v & Ha & Hvv & Hobs). exists o, a, v. auto.
Defined.

(** ** The registry *)

Definition boxed : DynBackend.t :=
  DynBackend.box FakeMutationBackend.t (fake_backend debug) (fake_backend_descriptor debug) host.

Lemma boxed_registered :
  ∃ r, BackendRegistry.register boxed BackendRegistry.new = Ok r
       ∧ r.(BackendRegistry.backends) = [boxed].
Proof.
  eexists. split; [apply register_run; split; [|reflexivity]|reflexivity].
  intros a Ha. by apply elem_of_nil in Ha.
Qed.

Lemma register_iff_exclusive_witness :
  (∃ r, BackendRegistry.register boxed BackendRegistry.new = Ok r)
  ∧ ∀ r, BackendRegistry.register boxed BackendRegistry.new = Ok r →
      ¬ ∃ r', BackendRegistry.register boxed r = Ok r'.
Proof.
  split.
  - apply (register_iff_exclusive boxed BackendRegistry.new exclusive_nil).
    apply exclusive_snoc. split; [exact exclusive_nil|]. intros a Ha. by apply elem_of_nil in Ha.
  - intros r [_ ->]%register_run He.
    apply register_iff_exclusive in He.
    + destruct (He 0%nat 1%nat boxed boxed) as [Hid _]; [lia|reflexivity|reflexivity|].
      by apply Hid.
    + apply (exclusive_snoc [] boxed). split; [exact exclusive_nil|].
      intros a Ha. by apply elem_of_nil in Ha.
Defined.

Lemma registry_dispatches_to_owner_witness :
  ∃ r, BackendRegistry.register boxed BackendRegistry.new = Ok r
       ∧ BackendRegistry.backend_for (mutation 1 []) r = Ok (0%nat, boxed).
Proof.
  destruct boxed_registered as (r & Hr & Hb). exists r. split; [exact Hr|].
  apply (registry_dispatches_to_owner r (mutation 1 []) 0%nat boxed
           (rtc_once _ _ (registry_register _ _ _ Hr))).
  rewrite Hb. split; [reflexivity|].
  split; [apply (bool_decide_unpack _); vm_compute; exact I|].
  apply (bool_decide_unpack _); vm_compute; exact I.
Defined.

(** ** Values and stores *)

Lemma cpu_set_queries_exact_witness :
  ∃ s s', CpuSet.new [3; 1; 3] = Ok s ∧ CpuSet.new [1; 2] = Ok s'
    ∧ CpuSet.contains s 3 = true ∧ CpuSet.intersects s s' = true
    ∧ CpuSet.is_subset_of s s' = false.
Proof.
  exists (CpuSet.mk [1; 3]), (CpuSet.mk [1; 2]).
  split; [vm_compute; reflexivity|]. split; [vm_compute; reflexivity|].
  destruct (cpu_set_queries_exact [3; 1; 3] (CpuSet.mk [1; 3]) [1; 2] (CpuSet.mk [1; 2])
              ltac:(vm_compute; reflexivity) ltac:(vm_compute; reflexivity))
    as (_ & _ & Hc & Hs & Hi).
  split; [apply Hc; set_solver|]. split; [apply Hi; exists 1; set_solver|].
  apply not_true_iff_false. intros Ht. pose proof (proj1 Hs Ht 3) as H3. set_solver.
Defined.

Lemma failure_message_bounded_witness :
  str_len (FailureRecord.message (FailureRecord.from_error trigger)) ≤ MAX_REASON_BYTES.
Proof.
  destruct (failure_message_bounded trigger) as (_ & Hl & _); [vm_compute; reflexivity|exact Hl].
Defined.

Lemma memory_store_reads_back_witness :
  ∃ r s', SessionStateStore.create r MemoryStateStore.default = (Ok tt, s')
          ∧ fst (SessionStateStore.load (SessionRecord.session_id r) s') = Ok r.
Proof.
  destruct stored_record as (r & Hd & He & _). destruct (decode_valid _ _ Hd) as [Hwf _].
  destruct (memory_create_fresh _ _ He) as [s' Hs].
  exists r, s'. split; [exact Hs|].
  destruct (memory_store_reads_back true r MemoryStateStore.default s' Hwf eq_refl Hs) as [Hl _].
  exact Hl.
Defined.

(** * Concrete runs that end exactly

    The fixture host of the test kit as a host in the sense of [HostLaws], and
    the theorems of [EngineExact] applied to its runs. *)
Local Open Scope nat_scope.

#[local] Instance host_instance : HostLaws.t FakeMutationBackend.t TargetId.t :=
  fake_host_laws debug.

Definition loaded (e : engine) : option SessionRecord.t :=
  match fst (SessionStateStore.load sid e.(TransactionEngine.state_store)) with
  | Ok r => Some r
  | Err _ => None
  end.
Definition unfinished (e : engine) : list SessionRecord.t :=
  match fst (SessionStateStore.load_unfinished e.(TransactionEngine.state_store)) with
  | Ok l => l
  | Err _ => []
  end.

#[local] Instance call_eq_dec : EqDecision call.
Proof. solve_decision. Defined.

(** [e2] extends the calls of [e1], and what it stored of the session of [r1]
    is a version the new calls may have left. *)
Definition stores_version (r1 : SessionRecord.t) (e1 e2 : engine) (r2 : SessionRecord.t) : bool :=
  let n := length e1.(TransactionEngine.trace) in
  bool_decide (take n e2.(TransactionEngine.trace) = e1.(TransactionEngine.trace))
  && bool_decide (r2 ∈ versions [r1] (drop n e2.(TransactionEngine.trace))).

Definition created (e : engine) : option SessionRecord.t :=
  match last e.(TransactionEngine.trace) with
  | Some (CCreate r (Ok _)) => Some r
  | _ => None
  end.

(** A prepared engine [e1], and [e2] after an application: the record on the
    disk of [e1] is the one created, that of [e2] a version of it. *)
Definition applied_check (e1 e2 : engine) : bool :=
  match created e1, loaded e1, loaded e2 with
  | Some r0, Some r0', Some r =>
    bool_decide (r0 = r0') && stores_version r0 e1 e2 r && bool_decide (unfinished e2 = [r])
    && bool_decide (session_state r ≠ SessionState.Restored)
  | _, _, _ => false
  end.

Lemma stores_version_spec r1 e1 e2 r2 :
  stores_version r1 e1 e2 r2 = true →
  ∃ t, TransactionEngine.trace e2 = TransactionEngine.trace e1 ++ t ∧ r2 ∈ versions [r1] t.
Proof.
  unfold stores_version. rewrite andb_true_iff, !bool_decide_eq_true. intros [Ht Hr].
  eexists. split; [|exact Hr]. rewrite <-Ht at 1. symmetry. apply take_drop.
Qed.

Lemma loaded_spec e r :
  loaded e = Some r →
  ∃ s, SessionStateStore.load sid e.(TransactionEngine.state_store) = (Ok r, s).
Proof.
  unfold loaded. destruct (SessionStateStore.load _ _) as [[r'|x] s]; [|done].
  intros [= ->]. by exists s.
Qed.

Lemma created_spec e r :
  created e = Some r → last e.(TransactionEngine.trace) = Some (CCreate r (Ok tt)).
Proof.
  unfold created. destruct (last _) as [[| | | |r' [[]|]| |]|]; try done. by intros [= ->].
Qed.

Lemma one_targets : NoDup (HostLaws.key <$> one.(Plan.mutations)).
Proof. vm_compute. apply NoDup_singleton. Qed.

Lemma applied_check_spec e1 e2 :
  applied_check e1 e2 = true →
  ∃ r0 r, created e1 = Some r0 ∧ loaded e1 = Some r0 ∧ loaded e2 = Some r
    ∧ stores_version r0 e1 e2 r = true ∧ unfinished e2 = [r]
    ∧ session_state r ≠ SessionState.Restored.
Proof.
  unfold applied_check. destruct (created e1) as [r0|]; [|done].
  destruct (loaded e1) as [r0'|]; [|done]. destruct (loaded e2) as [r|]; [|done].
  rewrite !andb_true_iff, !bool_decide_eq_true. intros [[[<- Hv] Hu] Hne]. by exists r0, r.
Qed.

Lemma active_check :
  applied_check (snd (prepare one fresh)) (snd (apply sid (snd (prepare one fresh)))) = true.
Proof. vm_cast_no_check (eq_refl true). Qed.

(** The applied session, on the disk of the host it was applied to. *)
Lemma active_session :
  ∃ r, session_of one fresh active r ∧ loaded active = Some r ∧ unfinished active = [r]
       ∧ session_state r ≠ SessionState.Restored.
Proof.
  destruct story_runs as (H1 & H2 & _).
  destruct (applied_check_spec prepared active active_check)
    as (r0 & r & Hc & Hl0 & Hl & Hv & Hu & Hne).
  exists r. split; [|split; [exact Hl|split; [exact Hu|exact Hne]]].
  exists sid, prepared, r0. split; [exact H1|]. split; [exact (created_spec _ _ Hc)|].
  destruct (loaded_spec _ _ Hl0) as [s Hload]. destruct (stores_version_spec _ _ _ _ Hv) as (t & Ht & Hr).
  exact (rtc_once _ _ (life_apply sid _ _ _ _ _ _ _ Hload H2 Ht Hr)).
Qed.

(** The application changed the host. *)
Lemma active_changed :
  EngineHost.host (K := TargetId.t) active (target 1) ≠ EngineHost.host fresh (target 1).
Proof. refine (proj1 (bool_decide_eq_false _) _). vm_compute. reflexivity. Qed.

Lemma restore_is_exact_witness :
  EngineHost.host (K := TargetId.t) active (target 1) ≠ EngineHost.host fresh (target 1)
  ∧ ∀ k, EngineHost.host (K := TargetId.t) restored k = EngineHost.host fresh k.
Proof.
  split; [exact active_changed|].
  destruct active_session as (r & Hs & Hl & _ & Hne). destruct (loaded_spec _ _ Hl) as [s Hload].
  destruct story_runs as (_ & _ & H3 & _).
  exact (restore_is_exact one sid fresh active restored r s _ one_targets Hs Hload Hne H3).
Defined.

(** A crash after the application: a new process on the same host and disk. *)
Lemma reboot_life (e : engine) r l i c :
  life (K := TargetId.t) (e, r)
    (new e.(TransactionEngine.backend) e.(TransactionEngine.state_store) l i c, r).
Proof. by apply life_crash. Qed.

Lemma reboot_unfinished (e : engine) r (l : MemorySessionLock.t) (i : FixedSessionIdSource.t)
    (c : FakeClock.t) :
  unfinished e = [r] →
  ∃ s, SessionStateStore.load_unfinished (TransactionEngine.state_store
         (new (G := unit) e.(TransactionEngine.backend) e.(TransactionEngine.state_store) l i c))
       = (Ok [r], s).
Proof.
  unfold unfinished. cbn [new TransactionEngine.state_store].
  destruct (SessionStateStore.load_unfinished _) as [[l'|x] s]; [|done].
  cbn. intros ->. by exists s.
Qed.

Lemma crashed_session :
  ∃ r s, session_of one fresh crashed r
    ∧ SessionStateStore.load_unfinished crashed.(TransactionEngine.state_store) = (Ok [r], s).
Proof.
  destruct active_session as (r & (s0 & e1 & r0 & Hp & Hc & Hlife) & _ & Hu & _).
  unfold crashed. destruct (reboot_unfinished active r MemorySessionLock.shared
    (FixedSessionIdSource.mk []) (FakeClock.mk (Timestamp.mk 43)) Hu) as [s Hs].
  exists r, s. split; [|exact Hs]. exists s0, e1, r0. split; [exact Hp|]. split; [exact Hc|].
  exact (rtc_r _ _ _ Hlife (reboot_life active r _ _ _)).
Qed.

Lemma recovery_is_exact_witness :
  EngineHost.host (K := TargetId.t) active (target 1) ≠ EngineHost.host fresh (target 1)
  ∧ ∀ k, EngineHost.host (K := TargetId.t) recovered k = EngineHost.host fresh k.
Proof.
  split; [exact active_changed|].
  destruct story_runs as (_ & _ & _ & H4). destruct crashed_session as (r & s & Hs & Hload).
  exact (recovery_is_exact one fresh crashed recovered r s _ one_targets Hs Hload H4).
Defined.

(** A prepared engine [e1], and [e2] after an application that was rolled
    back. *)
Definition undone_check (e1 e2 : engine) : bool :=
  let n := length e1.(TransactionEngine.trace) in
  match created e1, loaded e1, last e2.(TransactionEngine.trace) with
  | Some r0, Some r0', Some (CReplace r (Ok _)) =>
    bool_decide (r0 = r0')
    && bool_decide (take n e2.(TransactionEngine.trace) = e1.(TransactionEngine.trace))
    && bool_decide (n < length e2.(TransactionEngine.trace))
    && bool_decide (session_state r = SessionState.Restored)
    && SessionRecord.restoration_proven r
    && bool_decide (validate_for_serialization r = Ok tt)
    && bool_decide (record_plan r = record_plan r0)
  | _, _, _ => false
  end.

Lemma extends_last (tr tr' : list call) c :
  take (length tr) tr' = tr → length tr < length tr' → last tr' = Some c →
  ∃ t, tr' = tr ++ t ++ [c].
Proof.
  intros Ht Hlen Hl. exists (take (length tr' - length tr - 1) (drop (length tr) tr')).
  apply last_Some in Hl as [l ->]. rewrite length_app in Hlen. cbn in Hlen.
  rewrite take_app_le in Ht by lia. rewrite drop_app_le by lia.
  rewrite length_app. cbn [length]. replace (length l + 1 - length tr - 1) with (length l - length tr) by lia.
  rewrite take_app_le by (rewrite length_drop; lia).
  rewrite (firstn_all2 (drop (length tr) l)) by (rewrite length_drop; lia).
  rewrite app_assoc. f_equal. rewrite <-Ht at 1. symmetry. apply take_drop.
Qed.

Lemma undone_check_spec e1 e2 :
  undone_check e1 e2 = true →
  ∃ r0, created e1 = Some r0 ∧ loaded e1 = Some r0
        ∧ ended (TransactionEngine.trace e1) (TransactionEngine.trace e2) r0.
Proof.
  unfold undone_check. destruct (created e1) as [r0|]; [|done].
  destruct (loaded e1) as [r0'|]; [|done].
  destruct (last (TransactionEngine.trace e2)) as [[| | | | |r [[]|]|]|] eqn:Hlast; try done.
  rewrite !andb_true_iff, !bool_decide_eq_true.
  intros [[[[[[<- Ht] Hn] Hst] Hpr] Hv] Hpl]. exists r0. split; [done|]. split; [done|].
  destruct (extends_last _ _ _ Ht Hn Hlast) as [t Htr].
  destruct (restoration_proven_spec _ Hpr Hv) as [Ho Hna].
  exists t, r. split; [exact Htr|]. split; [|exact Hpl]. split; [exact Hst|]. by split.
Qed.

Lemma rolled_back_check :
  undone_check (snd (prepare one failing)) (snd (apply sid (snd (prepare one failing)))) = true.
Proof. vm_cast_no_check (eq_refl true). Qed.

Lemma failing_runs :
  prepare one failing = (Ok sid, failing_prepared)
  ∧ ∃ trigger, apply sid failing_prepared = (Err trigger, rolled_back).
Proof.
  pose proof failing_story_run as Hs. unfold failing_story in Hs. cbv zeta in Hs.
  apply pair_inj in Hs as [Hs _]. apply pair_inj in Hs as [Hp Ha].
  split; [exact (run_Ok _ _ _ Hp)|].
  change (code_of (fst (apply sid failing_prepared)) = Some ErrorCode.VerificationError) in Ha.
  unfold rolled_back. revert Ha. generalize (apply sid failing_prepared).
  intros [[st|x] e]; [discriminate|]. intros _. by exists x.
Qed.

Lemma failed_apply_is_undone_witness :
  ∃ trigger, apply sid failing_prepared = (Err trigger, rolled_back)
  ∧ ∀ k, EngineHost.host (K := TargetId.t) rolled_back k = EngineHost.host failing k.
Proof.
  destruct failing_runs as (Hp & trigger & Ha). exists trigger. split; [exact Ha|].
  destruct (undone_check_spec failing_prepared rolled_back rolled_back_check)
    as (r0 & Hc & Hl0 & Hend).
  destruct (loaded_spec _ _ Hl0) as [s Hload].
  assert (session_of one failing failing_prepared r0) as Hs.
  { exists sid, failing_prepared, r0.
    split; [exact Hp|]. split; [exact (created_spec _ _ Hc)|apply rtc_refl]. }
  exact (failed_apply_is_undone one sid failing failing_prepared rolled_back r0 s trigger
           one_targets Hs Hload Ha Hend).
Defined.
