(* ===== verification/PlannerWitnesses.v ===== *)
(** * A sample planning problem

    One CPU policy whose governor and energy preference are tunable, the
    energy preference depending on the governor, and the theorems of
    [Resolution.v] applied to it. *)
From stdpp Require Import relations.
From Stdlib Require Import Strings.Byte.
From S2P Require Import Prelude Lists Text Ids Capability Mutation Decision Plan Policy.
From S2P Require Import Specs Resolver ResolutionLaws Kahn Finalize FinalizeLaws Render Digest Resolution MutationLaws.
From S2P Require Import Topology Isolation TopologyNormal IsolationLaws.
Local Open Scope N_scope.

Module PlannerFixture.
Definition backend : BackendId.t := BackendId.mk "fixture.cpu".
Definition governor_capability : CapabilityId.t := CapabilityId.mk capability_ids.CPU_POLICY_GOVERNOR.
Definition epp_capability : CapabilityId.t :=
  CapabilityId.mk capability_ids.CPU_POLICY_ENERGY_PREFERENCE.
Definition target : TargetId.t := TargetId.mk "cpu.policy.0".

Definition descriptor (capability : CapabilityId.t) (operation : string) : CapabilityDescriptor.t :=
  CapabilityDescriptor.mk capability backend TargetKind.CpuPolicy CapabilityState.Available
    [OperationDescriptor.mk (OperationId.mk operation) PrivilegeRequirement.PrivilegedMutation
       EqualityKind.ScalarExact FeatureClass.RuntimeMutable]
    PrivilegeRequirement.PrivilegedMutation EqualityKind.ScalarExact RiskClass.Low
    FeatureClass.RuntimeMutable [CapabilityEvidence.mk EvidenceSource.Synthetic "fixture"].

Definition inventory : CapabilityInventory.t :=
  CapabilityInventory.mk (Timestamp.mk 10)
    [descriptor governor_capability "cpu.governor"; descriptor epp_capability "cpu.energy_preference"].

Definition observed (capability : CapabilityId.t) (control : ControlId.t) (value : TypedValue.t) :
    CurrentStateFact.t :=
  CurrentStateFact.with_typed_target (TypedTarget.CpuPolicy (CpuPolicyId.mk 0))
    (CurrentStateFact.with_target_identity (TargetIdentity.mk (array_repeat 16 "007"))
       (CurrentStateFact.known capability target control (PlanValue.Typed value)
          (fingerprint_for_value (PlanValue.Typed value)))).

Definition state : CurrentState.t :=
  CurrentState.mk (Timestamp.mk 10)
    [observed epp_capability ControlId.CpuEnergyPreference
       (TypedValue.EnergyPreference EnergyPreference.Power);
     observed governor_capability ControlId.CpuGovernor
       (TypedValue.Governor (GovernorId.mk "schedutil"))].

Definition contract (capability : CapabilityId.t) (operation : string) (control : ControlId.t)
    (dependencies : list string) : OperationContract.t :=
  let c := OperationContract.complete (OperationId.mk operation) capability backend
             TargetKind.CpuPolicy control EqualityKind.ScalarExact RiskClass.Low
             FeatureClass.RuntimeMutable false in
  OperationContract.mk (OperationContract.operation c) (OperationContract.capability c)
    (OperationContract.backend c) (OperationContract.target_kind c) (OperationContract.control c)
    (OperationContract.equality c) (OperationContract.risk c) (OperationContract.classification c)
    (OperationContract.explicit_opt_in c) true true (OperationId.mk <$> dependencies)
    (OperationContract.snapshot c) (OperationContract.restore c) (OperationContract.verification c).

(** The resolver; [back] are the dependencies of the governor. *)
Definition resolver (back : list string) : PolicyResolver.t :=
  PolicyResolver.new (OperationCatalog.new
    [contract governor_capability "cpu.governor" ControlId.CpuGovernor back;
     contract epp_capability "cpu.energy_preference" ControlId.CpuEnergyPreference ["cpu.governor"]]).

Definition wish (required : bool) (source : PolicySource.t) (governor : string) : PolicyProposal.t :=
  PolicyProposal.new source
    (PolicyRequest.mk governor_capability target
       (MutationKind.CpuGovernor (CpuPolicyId.mk 0) (GovernorId.mk governor)) required).

Definition input (mode : PolicyMode.t) (wishes : list PolicyProposal.t) : PlannerInput.t :=
  let p := PlannerPolicy.for_profile Profile.Performance in
  PlannerInput.mk
    (PlannerPolicy.mk (PlannerPolicy.profile p) mode (PlannerPolicy.max_risk p) false false 30000
       [] [] wishes) inventory state.

(** The answer of a resolution that succeeds. *)
Definition resolved (r : Result PolicyResolution.t) : PolicyResolution.t :=
  match r with Ok res => res | Err _ => PolicyResolution.mk Profile.Balanced [] end.

Definition tuned : PlannerInput.t := input PolicyMode.Boost [wish true PolicySource.User "powersave"].
Definition tuning : PolicyResolution.t := resolved (PolicyResolver.resolve tuned (resolver [])).
Definition no_text (k : MutationKind.t) : string := "".

Lemma tuning_resolved : PolicyResolver.resolve tuned (resolver []) = Ok tuning.
Proof. by vm_compute. Qed.

(** A decision of the sample with a decidable property. *)
Lemma sample (P : PlanItem.t → bool) l : existsb P l = true → ∃ i, i ∈ l ∧ P i = true.
Proof. intros (i & Hi & HP)%existsb_exists. exists i. by rewrite list_elem_of_In. Qed.

Lemma check_all (P : PlanItem.t → bool) l : forallb P l = true → ∀ i, i ∈ l → P i = true.
Proof. intros Hb i Hi. rewrite forallb_forall in Hb. by apply Hb, list_elem_of_In. Qed.

Definition changes (operation : string) (i : PlanItem.t) : bool :=
  bool_decide (i.(PlanItem.operation) = OperationId.mk operation)
  && bool_decide (i.(PlanItem.action) = PlanAction.Mutation)
  && bool_decide (is_Some i.(PlanItem.mutation)).

(** Both mutations of the sample are planned. *)
Lemma epp_changes :
  ∃ i, i ∈ tuning.(PolicyResolution.items) ∧ changes "cpu.energy_preference" i = true.
Proof. apply sample. by vm_compute. Qed.

Lemma epp_contract i :
  i ∈ tuning.(PolicyResolution.items) → changes "cpu.energy_preference" i = true →
  OperationCatalog.find i.(PlanItem.capability) i.(PlanItem.operation)
    (resolver []).(PolicyResolver.catalog)
  = Some (contract epp_capability "cpu.energy_preference" ControlId.CpuEnergyPreference
            ["cpu.governor"]).
Proof.
  assert (forallb (λ i, negb (changes "cpu.energy_preference" i) || bool_decide (
    OperationCatalog.find i.(PlanItem.capability) i.(PlanItem.operation)
      (resolver []).(PolicyResolver.catalog)
    = Some (contract epp_capability "cpu.energy_preference" ControlId.CpuEnergyPreference
              ["cpu.governor"]))) tuning.(PolicyResolution.items) = true) as Hb by (by vm_compute).
  intros Hi Hc. apply (check_all _ _ Hb) in Hi. rewrite Hc in Hi.
  exact (proj1 (bool_decide_eq_true _) Hi).
Qed.

Lemma tuning_bound : N.of_nat (length tuning.(PolicyResolution.items)) < 2 ^ 32.
Proof. by vm_compute. Qed.

(** Mutual dependencies. *)
Lemma cyclic_candidates :
  ∃ m deps, resolve_candidates (resolver ["cpu.energy_preference"]).(PolicyResolver.catalog) tuned = Ok m
    ∧ collect_dependencies (map_values m) = Ok deps
    ∧ finalize_candidates tuned.(PlannerInput.policy) m = Err cycle_error.
Proof.
  enough (match resolve_candidates (resolver ["cpu.energy_preference"]).(PolicyResolver.catalog) tuned with
          | Ok m => is_ok (collect_dependencies (map_values m))
                    && bool_decide (finalize_candidates tuned.(PlannerInput.policy) m = Err cycle_error)
          | Err _ => false
          end = true) as Hc.
  { destruct (resolve_candidates _ _) as [m|]; [|done]. apply andb_true_iff in Hc as [H1 H2].
    destruct (collect_dependencies _) as [deps|] eqn:Hd; [|done].
    apply bool_decide_eq_true in H2. by exists m, deps. }
  by vm_compute.
Qed.

(** All pairs of decisions, in order. *)
Lemma all_pairs (P : PlanItem.t → PlanItem.t → bool) (l : list PlanItem.t) :
  forallb (λ b, forallb (λ a, negb (Nat.ltb a b) || match l !! a, l !! b with
    | Some i, Some j => P i j | _, _ => true end) (seq 0 (length l))) (seq 0 (length l)) = true →
  ∀ a b i j, (a < b)%nat → l !! a = Some i → l !! b = Some j → P i j = true.
Proof.
  rewrite forallb_forall. setoid_rewrite forallb_forall. intros Hall a b i j Hab Hi Hj.
  pose proof (lookup_lt_Some _ _ _ Hi). pose proof (lookup_lt_Some _ _ _ Hj).
  specialize (Hall b ltac:(apply in_seq; lia) a ltac:(apply in_seq; lia)).
  rewrite Hi, Hj in Hall. by rewrite (proj2 (Nat.ltb_lt _ _) Hab) in Hall.
Qed.

Definition apart (i j : PlanItem.t) : bool :=
  negb (PlanAction.is_executable i.(PlanItem.action) && PlanAction.is_executable j.(PlanItem.action)
        && bool_decide (i.(PlanItem.target) = j.(PlanItem.target))
        && bool_decide (i.(PlanItem.control) = j.(PlanItem.control))).

Lemma tuning_plannable : plannable tuning.(PolicyResolution.items).
Proof.
  split.
  - intros i Hi Ha He.
    assert (forallb (λ i, negb (PlanAction.is_executable i.(PlanItem.action))
      || negb (bool_decide (i.(PlanItem.evidence) = []))) tuning.(PolicyResolution.items) = true) as Hb
      by (by vm_compute).
    apply (check_all _ _ Hb) in Hi. rewrite Ha, He in Hi. discriminate Hi.
  - intros a b i j Hab Hi Hj (Hai & Haj & Ht & Hc).
    assert (apart i j = true) as Hap.
    { refine (all_pairs apart _ _ a b i j Hab Hi Hj). by vm_compute. }
    unfold apart in Hap. rewrite Hai, Haj, Ht, Hc, !bool_decide_true in Hap by reflexivity.
    discriminate Hap.
Qed.

(** A planner in report mode succeeds. *)
Lemma report_builds :
  ∃ p, TypedPlanner.build no_text (input PolicyMode.Report []) (TypedPlanner.mk (resolver [])) = Ok p.
Proof.
  enough (is_ok (TypedPlanner.build no_text (input PolicyMode.Report [])
    (TypedPlanner.mk (resolver []))) = true) as Hok.
  { destruct (TypedPlanner.build _ _ _) as [p|]; [by exists p|done]. }
  by vm_compute.
Qed.
End PlannerFixture.
Import PlannerFixture.

Lemma planned_mutations_permitted_witness :
  ∃ i m, Permitted (resolver []).(PolicyResolver.catalog) tuned i m.
Proof.
  destruct epp_changes as (i & Hi & Hc).
  destruct (planned_mutations_permitted tuned (resolver []) tuning i tuning_resolved Hi) as [m Hm].
  - unfold changes in Hc. rewrite !andb_true_iff in Hc. destruct Hc as [[_ Hc] _].
    exact (proj1 (bool_decide_eq_true _) Hc).
  - exists i, m. exact Hm.
Defined.

Lemma proposals_answered_witness :
  ∃ e item, speaks_for e (wish true PolicySource.User "powersave")
    ∧ item ∈ tuning.(PolicyResolution.items) ∧ is_settled item.(PlanItem.action) = true.
Proof.
  destruct (proposals_answered tuned (resolver []) tuning (wish true PolicySource.User "powersave")
    tuning_resolved) as (e & item & He & Hs & Hi & _ & _ & _ & Hreq & _); [by left|].
  exists e, item. split; [exact Hs|]. split; [exact Hi|]. apply Hreq. left.
  apply list_elem_of_singleton in He as ->. reflexivity.
Defined.

Lemma dependencies_first_witness :
  topological (Plan.item_mutations tuning.(PolicyResolution.items))
  ∧ ∃ before, before ∈ tuning.(PolicyResolution.items)
      ∧ before.(PlanItem.operation) = OperationId.mk "cpu.governor".
Proof.
  destruct (dependencies_first tuned (resolver []) tuning tuning_resolved tuning_bound) as [Ht Hd].
  split; [exact Ht|]. destruct epp_changes as (i & Hi & Hc).
  pose proof (epp_contract i Hi Hc) as Hfind. unfold changes in Hc. rewrite !andb_true_iff in Hc. destruct Hc as [_ Hm].
  apply bool_decide_eq_true in Hm as [m Hm].
  destruct (Hd i m (contract epp_capability "cpu.energy_preference" ControlId.CpuEnergyPreference
    ["cpu.governor"]) (OperationId.mk "cpu.governor") Hi Hm Hfind) as (b & Hb & _ & Hop & _).
  - by left.
  - exists b. split; [exact Hb|exact Hop].
Defined.

(** With dependencies in both directions the two mutations wait for each
    other. *)
Lemma cycle_error_iff_witness :
  ∃ m, resolve_candidates (resolver ["cpu.energy_preference"]).(PolicyResolver.catalog) tuned = Ok m
    ∧ ¬ ∀ i, ¬ tc (depends (map_values m)) i i.
Proof.
  destruct cyclic_candidates as (m & deps & Hm & Hd & Hf). exists m. split; [exact Hm|].
  exact (proj1 (proj1 (cycle_error_iff _ _ m deps tuned.(PlannerInput.policy) Hm Hd)) Hf).
Defined.

Lemma build_iff_plannable_witness :
  ∃ p, TypedPlanner.build no_text tuned (TypedPlanner.mk (resolver [])) = Ok p
    ∧ p.(Plan.items) = tuning.(PolicyResolution.items).
Proof.
  destruct (proj1 (build_iff_plannable no_text tuned (resolver []) tuning tuning_resolved tuning_bound)
    tuning_plannable) as (p & Hp & Hi & _).
  exists p. split; [exact Hp|exact Hi].
Defined.

Lemma planner_inert_witness :
  ∃ p, TypedPlanner.build no_text (input PolicyMode.Report []) (TypedPlanner.mk (resolver [])) = Ok p
    ∧ p.(Plan.mutations) = [].
Proof.
  destruct report_builds as [p Hp]. exists p. split; [exact Hp|].
  exact (proj1 (planner_inert no_text (resolver []) p) (input PolicyMode.Report []) eq_refl Hp).
Defined.

(** A required request is refused when it cannot be met, but goes unnoticed
    when a stronger source asks for the same operation without requiring
    it: only the stronger proposal is kept. *)
Example required_flag_lost :
  is_ok (PolicyResolver.resolve
           (input PolicyMode.Report [wish true PolicySource.User "performance"])
           (resolver [])) = false
  ∧ is_ok (PolicyResolver.resolve
             (input PolicyMode.Report [wish true PolicySource.User "performance";
                                       wish false PolicySource.System "performance"])
             (resolver [])) = true.
Proof. split; vm_compute; reflexivity. Qed.

(** * A hybrid host

    Two performance cores with two threads each and three efficiency cores, on
    two NUMA nodes with one CPU offline; the topology theorems at this
    host. *)
Local Open Scope N_scope.

Module HybridHost.
Definition entry (cpu core : u32) (siblings : string) (capacity : u64) : CpuTopologyEntry.t :=
  CpuTopologyEntry.mk cpu (Some 0) (Some core) (Some siblings) (Some capacity) true.
Definition facts : CpuTopologyFacts.t :=
  CpuTopologyFacts.mk (Some "0-7") (Some "0-3,5-7")
    [entry 0 0 "0-1" 1024; entry 1 0 "0-1" 1024; entry 2 1 "2-3" 1024; entry 3 1 "2-3" 1024;
     entry 5 2 "5" 512; entry 6 3 "6" 512; entry 7 4 "7" 512] true.
Definition numa : NumaFacts.t :=
  NumaFacts.mk [NumaNodeFacts.mk 0 (Some "0-3") None; NumaNodeFacts.mk 1 (Some "4-7") None].
Definition no_topology : CpuTopology.t :=
  CpuTopology.mk None None [] [] CpuCapacityMode.Unknown (TopologyRevision.mk (array_repeat 32 (n2b 0))).
Definition topology : CpuTopology.t :=
  match from_facts facts numa with Ok x => x | Err _ => no_topology end.

(** Performance cores for three CPUs. *)
Definition policy : CpuSelectionPolicy.t := CpuSelectionPolicy.mk true (Some 3) None.
Definition identity : TargetIdentity.t := TargetIdentity.mk (array_repeat 16 (n2b 9)).
Definition no_plan : CpuIsolationPlan.t :=
  CpuIsolationPlan.mk (CpuSet.mk []) (CpuSet.mk []) (CpuAffinityMask.mk []) (CpuAffinityMask.mk [])
    CpuCapacityMode.Unknown [] no_topology.(CpuTopology.revision) (CpuSet.mk []) None.
Definition plan : CpuIsolationPlan.t :=
  match select_for_target topology policy (Some identity) with Ok p => p | Err _ => no_plan end.
Definition cgroup : CgroupId.t := CgroupId.mk 1 2 (TargetId.mk "cgroup.workload").
End HybridHost.
Import HybridHost.

Lemma facts_fit : CpuTopologyFacts.wf facts.
Proof. unfold CpuTopologyFacts.wf, fits. cbn. repeat constructor. Qed.

Lemma topology_built : from_facts facts numa = Ok topology.
Proof.
  assert (is_ok (from_facts facts numa) = true) as Hok by (vm_compute; reflexivity).
  unfold topology. by destruct (from_facts facts numa).
Qed.

Lemma plan_made : select_for_target topology policy (Some identity) = Ok plan.
Proof.
  assert (is_ok (select_for_target topology policy (Some identity)) = true) as Hok by (vm_compute; reflexivity).
  unfold plan. by destruct (select_for_target topology policy (Some identity)).
Qed.

(** The four threads of the performance cores, although three were asked
    for. *)
Lemma plan_sets :
  plan.(CpuIsolationPlan.workload_cpus) = CpuSet.mk [0; 1; 2; 3]
  ∧ plan.(CpuIsolationPlan.housekeeping_cpus) = CpuSet.mk [5; 6; 7].
Proof. split; vm_compute; reflexivity. Qed.

Lemma cpu_list_round_trip_witness :
  render_cpu_set (CpuSet.mk [0; 1; 2; 3; 5; 4294967295]) = "0-3,5,4294967295"
  ∧ parse_cpu_list (render_cpu_set (CpuSet.mk [0; 1; 2; 3; 5; 4294967295]))
    = Ok (CpuSet.mk [0; 1; 2; 3; 5; 4294967295]).
Proof.
  split; [vm_compute; reflexivity|].
  apply (cpu_list_round_trip (CpuSet.mk [0; 1; 2; 3; 5; 4294967295])).
  - split_and!; [repeat constructor; lia|done|repeat constructor].
  - vm_compute. discriminate.
Defined.

Lemma normalization_sound_witness :
  normalized topology ∧ 4 ∈ cpu_id <$> topology.(CpuTopology.cpus).
Proof.
  destruct (normalization_sound facts numa topology facts_fit topology_built) as [Hn Hids].
  split; [exact Hn|]. apply Hids. left. vm_compute. repeat constructor.
Defined.

Lemma isolation_keeps_housekeeping_witness :
  keeps_housekeeping topology policy plan
  ∧ plan.(CpuIsolationPlan.workload_cpus) = CpuSet.mk [0; 1; 2; 3].
Proof.
  split; [|apply plan_sets].
  exact (isolation_keeps_housekeeping facts numa topology policy (Some identity) plan
    facts_fit topology_built plan_made).
Defined.

Lemma isolation_exists_iff_witness :
  two_cores topology
  ∧ is_ok (select_for_target topology (CpuSelectionPolicy.mk true (Some 0) None) None) = false.
Proof.
  split.
  - apply (isolation_exists_iff facts numa topology policy (Some identity) facts_fit topology_built).
    rewrite plan_made. reflexivity.
  - apply not_true_is_false. intros Hok.
    apply (isolation_exists_iff facts numa topology _ None facts_fit topology_built) in Hok as (_ & Hz & _).
    apply Hz. reflexivity.
Defined.

Lemma revalidated_mutation_iff_witness :
  is_ok (to_cgroup_cpuset_mutation plan topology identity (MutationId.mk 1) cgroup (StateFingerprint.mk (array_repeat 32 (n2b 0)))) = true
  ∧ is_ok (to_cgroup_cpuset_mutation plan no_topology identity (MutationId.mk 1) cgroup (StateFingerprint.mk (array_repeat 32 (n2b 0)))) = false.
Proof.
  split.
  - apply (revalidated_mutation_iff facts numa topology policy (Some identity) plan topology identity
      (MutationId.mk 1) cgroup _ facts_fit topology_built plan_made). done.
  - apply not_true_is_false. intros Hok.
    apply (revalidated_mutation_iff facts numa topology policy (Some identity) plan no_topology identity
      (MutationId.mk 1) cgroup _ facts_fit topology_built plan_made) in Hok as (_ & Hon & _).
    revert Hon. vm_compute. discriminate.
Defined.

(** The first performance core and the first efficiency core. *)
Lemma hybrid_groups :
  ∃ g h, g ∈ core_groups topology ∧ h ∈ core_groups topology
    ∧ g.(CpuCoreGroup.cpus) = CpuSet.mk [0; 1] ∧ h.(CpuCoreGroup.cpus) = CpuSet.mk [5]
    ∧ g.(CpuCoreGroup.performance_class) = CpuPerformanceClass.Performance.
Proof.
  exists (CpuCoreGroup.mk (CpuSet.mk [0; 1]) CpuPerformanceClass.Performance (Some 0)),
    (CpuCoreGroup.mk (CpuSet.mk [5]) CpuPerformanceClass.Efficiency (Some 1)).
  split_and!; [| |done..]; refine (proj1 (bool_decide_eq_true _) _); vm_compute; reflexivity.
Qed.

Lemma preferred_cores_first_witness :
  ∃ g h, g.(CpuCoreGroup.cpus) = CpuSet.mk [0; 1] ∧ h.(CpuCoreGroup.cpus) = CpuSet.mk [5]
    ∧ (capacity_rank g.(CpuCoreGroup.performance_class) ≤ capacity_rank h.(CpuCoreGroup.performance_class)).
Proof.
  destruct hybrid_groups as (g & h & Hg & Hh & Eg & Eh & _). exists g, h.
  split; [exact Eg|]. split; [exact Eh|].
  apply (preferred_cores_first facts numa topology policy (Some identity) plan g h
    facts_fit topology_built plan_made Hg Hh).
  - rewrite Eg, (proj1 plan_sets). refine (proj1 (bool_decide_eq_true _) _). vm_compute. reflexivity.
  - rewrite Eh, (proj2 plan_sets). refine (proj1 (bool_decide_eq_true _) _). vm_compute. reflexivity.
  - reflexivity.
  - vm_compute. reflexivity.
  - reflexivity.
Defined.
