(* ===== verification/StoreWitnesses.v ===== *)
(** * Concrete runs across the privilege boundary

    A helper over the test kit's engine serves the frames of a controller:
    prepare, apply, a replay, a stranger's frame and a restore. *)
From Stdlib Require Import Strings.Byte.
From stdpp Require Import sorting.
From Stdlib Require Import Strings.Byte Strings.Ascii.
From stdpp Require Import relations pretty.
From S2P Require Import Prelude Lists Text Ids Process Mut Capability Mutation Decision.
From S2P Require Import Plan Session Record Codec Protocol Ports Engine EngineTrace Privilege PrivilegeLaws.
From S2P Require Import Testkit Witnesses Str FileSystem FsLogic RecordInvariant CodecLaws StateFile LockSafety Lock.
From S2P Require Import StateStore StoreAtomic StoreRefine LockAcquire.
Local Open Scope N_scope.

Module PrivilegeFixture.
Import Fixture.

Definition boot : array 16 := array_repeat 16 (n2b 9).
Definition controller : ProcessIdentity.t := ProcessIdentity.mk 4242 77 boot.
Definition stranger : ProcessIdentity.t := ProcessIdentity.mk 4242 78 boot.

Definition start := new_service controller fresh.
Definition helper0 : PrivilegeService.t engine :=
  match start with
  | (Ok s, _) => s
  | (Err _, e) => PrivilegeService.mk e controller ApprovedPlanCatalog.new ∅ ∅
  end.
Definition helper : PrivilegeService.t engine := snd (register_plan one helper0).

Definition frame_of (r : Request.t) : list byte := default [] match encode_request r with
  | Ok b => Some b | Err _ => None end.
Definition request (n : N) := RequestId.mk n.
Definition prepare_frame := frame_of (Request.Prepare (request 1) one.(Plan.id) one.(Plan.plan_digest)).
Definition apply_frame n := frame_of (Request.Apply (request n) sid).
Definition restore_frame n := frame_of (Request.Restore (request n) sid).

Definition frames : list (option ProcessIdentity.t * list byte) :=
  [(Some controller, prepare_frame); (Some stranger, apply_frame 5); (None, apply_frame 6);
   (Some controller, apply_frame 2); (Some controller, apply_frame 2);
   (Some controller, restore_frame 3)].
End PrivilegeFixture.
Import Fixture PrivilegeFixture.

Lemma start_runs : new_service controller fresh = (Ok helper0, snd start).
Proof.
  assert (is_ok (fst start) = true) as Hok by (vm_compute; reflexivity).
  unfold helper0. change (new_service controller fresh) with start. revert Hok.
  generalize start. by intros [[s|x] e].
Qed.

Lemma helper_alive : lifetime helper.
Proof.
  eapply life_step; [eapply life_start; exact start_runs|].
  eapply (serve_register one helper0 (fst (register_plan one helper0))).
  unfold helper. generalize (register_plan one helper0). by intros [].
Qed.

(** The helper after the frame that prepares the session. *)
Definition helper1 : PrivilegeService.t engine :=
  snd (handle_frame (Some controller) prepare_frame helper).

Lemma helper1_alive : lifetime helper1.
Proof.
  eapply life_step; [exact helper_alive|].
  eapply (serve_frame (Some controller) prepare_frame helper
            (fst (handle_frame (Some controller) prepare_frame helper))).
  unfold helper1. generalize (handle_frame (Some controller) prepare_frame helper). by intros [].
Qed.

Definition bound_to_controller (s : PrivilegeService.t engine) : bool :=
  match PrivilegeService.sessions s !! sid with
  | Some b => bool_decide (SessionHandle.owner (SessionBinding.handle b) = controller)
  | None => false
  end.

Lemma helper1_binds : bound_to_controller helper1 = true.
Proof. vm_compute. reflexivity. Qed.

Lemma helper_books_sound_witness : bound_to_controller helper1 = true ∧ service_ok helper1.
Proof. split; [exact helper1_binds|exact (helper_books_sound helper1 helper1_alive)]. Defined.

(** The frame that applies the session: it does reach the engine. *)
Definition applied := handle_frame (Some controller) (apply_frame 2) helper1.

Lemma applied_run : applied = (fst applied, snd applied).
Proof. by destruct applied. Qed.

Lemma applied_answers :
  match fst applied with
  | Ok bytes => bool_decide (decode_response bytes
                             = Ok (Response.Status (request 2) sid SessionState.Active))
  | Err _ => false
  end = true.
Proof. vm_compute. reflexivity. Qed.

Lemma frame_authority_witness :
  lifetime helper1
  ∧ (PrivilegeService.engine (snd applied) = PrivilegeService.engine helper1
     ∨ ∃ r, decode_request (apply_frame 2) = Ok r
         ∧ Some controller = Some (PrivilegeService.expected_peer helper1)
         ∧ (∀ last, PrivilegeService.last_request helper1
                      !! PrivilegeService.expected_peer helper1 = Some last →
              last < RequestId.get (Request.request_id r))
         ∧ granted helper1 (snd applied) r).
Proof.
  split; [exact helper1_alive|].
  exact (frame_authority _ _ _ _ _ helper1_alive applied_run).
Defined.

Lemma frames_answered : serve frames helper = [1; 2; 3].
Proof. vm_compute. reflexivity. Qed.

Lemma answered_ids_increase_witness :
  serve frames helper = [1; 2; 3]
  ∧ StronglySorted N.lt (serve frames helper)
  ∧ Forall (N.lt (last_id helper)) (serve frames helper).
Proof. split; [exact frames_answered|exact (answered_ids_increase frames helper helper_alive)]. Defined.

(** The session handed out for the approved plan. *)
Definition handed_out :=
  prepare_by_identity controller one.(Plan.id) one.(Plan.plan_digest) helper.
Definition handle : SessionHandle.t :=
  SessionHandle.mk sid one.(Plan.id) one.(Plan.plan_digest) controller.

Lemma handed_out_run : handed_out = (Ok handle, snd handed_out).
Proof.
  assert (match fst handed_out with Ok h => bool_decide (h = handle) | Err _ => false end = true)
    as Hok by (vm_compute; reflexivity).
  revert Hok. generalize handed_out. intros [[h|x] s]; [|done]. cbn.
  by intros ->%bool_decide_eq_true.
Qed.

Lemma prepared_targets_approved_witness :
  ∃ plan e1 record,
    approved helper one.(Plan.id) one.(Plan.plan_digest) plan
    ∧ prepare plan (PrivilegeService.engine helper) = (Ok sid, e1)
    ∧ SessionStateStore.load sid e1.(TransactionEngine.state_store)
      = (Ok record, (PrivilegeService.engine (snd handed_out)).(TransactionEngine.state_store))
    ∧ Forall (target_approved plan) record.(SessionRecord.operations)
    ∧ controller = controller
    ∧ PrivilegeService.sessions (snd handed_out) !! sid = Some (SessionBinding.mk handle).
Proof. exact (prepared_targets_approved _ _ _ _ _ _ handed_out_run). Defined.

(** * The store and the lock on a concrete disk

    A state directory with a session file and a lock, the processes that use
    it, and the theorems of [StoreAtomic], [StoreRefine] and [LockSafety]
    applied to them. *)
Local Open Scope N_scope.

Definition run_root : Path := ["sysboost"; "run"]%string.
Definition directory (mode : u32) : Inode.t := Inode.mk FileType.Directory 0 0 mode 2 [] true.
Definition regular (mode : u32) (text : list byte) : Inode.t :=
  Inode.mk FileType.File 0 0 mode 1 text true.

Definition boot_text : string := "01020304-0506-0708-090a-0b0c0d0e0f10".
Definition boot : array 16 := array_copy 16 [x01;x02;x03;x04;x05;x06;x07;x08;x09;x0a;x0b;x0c;x0d;x0e;x0f;x10].
(** The start time is the 20th field after the name. *)
Definition stat_text (start : string) : list byte :=
  bytes_of_string ("1 (a b) c) S 1 1 1 1 1 1 1 1 1 1 1 1 1 1 1 1 1 1 " +:+ start +:+ " 0")%string.

Definition dead_owner : ProcessIdentity.t := ProcessIdentity.mk 77 5 boot.
Definition live_owner : ProcessIdentity.t := ProcessIdentity.mk 100 42 boot.

(** Processes 100 and 101 run; the lock file has the given contents. *)
Definition disk_with (lock : option (list byte)) : Disk.t :=
  let files := [(["run"]%string, directory 493); (run_root, directory 448);
                (BOOT_ID, regular 292 (bytes_of_string boot_text));
                (stat_path 100, regular 292 (stat_text "42"));
                (stat_path 101, regular 292 (stat_text "43"))]
               ++ match lock with
                  | Some l => [(join run_root LOCK_NAME, regular 384 l)]
                  | None => []
                  end in
  Disk.mk (list_to_map (imap (λ i '(p, _), (p, N.of_nat i)) files)) ∅
          (list_to_map (imap (λ i '(_, x), (N.of_nat i, x)) files))
          (N.of_nat (length files)) 7.

Definition caller (pid : u32) : Caller.t := Caller.mk pid 0 0 18.
Definition run_lock : FileSessionLock.t := FileSessionLock.production.

(** ** The race of two reclaimers *)

Definition race_turns : list nat := repeat 0%nat 11 ++ repeat 1%nat 30 ++ repeat 0%nat 30.
Definition contenders : Pool (Result FileSessionLockGuard.t) :=
  [(caller 100, FileSessionLock.acquire run_lock); (caller 101, FileSessionLock.acquire run_lock)].
Definition both_acquired (s : Pool (Result FileSessionLockGuard.t) * Disk.t) : bool :=
  match s with
  | ([(_, Ret (Ok g)); (_, Ret (Ok h))], _) =>
    negb (bool_decide (g.(FileSessionLockGuard.identity) = h.(FileSessionLockGuard.identity)))
  | _ => false
  end.

Lemma race_runs :
  both_acquired (pool_run race_turns (contenders, disk_with (Some (encode_lock_owner dead_owner)))) = true.
Proof. vm_compute. reflexivity. Qed.

Lemma race_callers :
  fst <$> fst (pool_run race_turns (contenders, disk_with (Some (encode_lock_owner dead_owner))))
  = [caller 100; caller 101].
Proof. vm_compute. reflexivity. Qed.

(** C37. Reclaiming a stale lock is not exclusive: on a disk whose lock file
    names a dead process there is an interleaving of two contenders in which
    both acquire the lock.  One checks the file's identity, the other removes
    it and creates its own, and the first removes that one. *)
Theorem stale_lock_race :
  ∃ d ts' d' g h owner i,
    pinned (join run_root LOCK_NAME) i (encode_lock_owner owner) d
    ∧ d.(Disk.names) !! stat_path owner.(ProcessIdentity.pid) = None
    ∧ rtc pool_step (contenders, d) (ts', d')
    ∧ ts' = [(caller 100, Ret (Ok g)); (caller 101, Ret (Ok h))]
    ∧ g.(FileSessionLockGuard.identity) ≠ h.(FileSessionLockGuard.identity).
Proof.
  set (d := disk_with (Some (encode_lock_owner dead_owner))).
  pose proof (pool_run_steps race_turns (contenders, d)) as Hs. pose proof race_runs as Hr. fold d in Hr.
  pose proof race_callers as Hc. fold d in Hc.
  destruct (pool_run race_turns (contenders, d)) as [ts' d'].
  destruct ts' as [|[w [[g|]|]] [|[w' [[h|]|]] [|]]]; try done.
  injection Hc as -> ->. cbn in Hr. apply negb_true_iff, bool_decide_eq_false in Hr.
  exists d, [(caller 100, Ret (Ok g)); (caller 101, Ret (Ok h))], d', g, h, dead_owner, 5. split_and!; [|done|exact Hs|done|exact Hr].
  split; [done|]. eexists. split; [reflexivity|done].
Qed.

(** ** A session file is written *)

Definition store : FileStateStore.t := FileStateStore.production.
Definition empty_disk : Disk.t := disk_with None.

Definition disk_checked (d : Disk.t) : bool :=
  bool_decide (map_Forall (λ i _, i < d.(Disk.next)) d.(Disk.inodes))
  && bool_decide (map_Forall (λ _ i, is_Some (d.(Disk.inodes) !! i)) d.(Disk.names))
  && bool_decide (d.(Disk.past) = ∅).

Lemma disk_checked_wf d : disk_checked d = true → disk_wf d.
Proof.
  unfold disk_checked. rewrite !andb_true_iff, !bool_decide_eq_true. intros [[Hi Hn] Hp]. split.
  - intros i [x Hx]. exact (Hi i x Hx).
  - intros p i. unfold bindings. rewrite Hp, lookup_empty. cbn.
    intros Hin%list_elem_of_singleton. by apply (Hn p i).
Qed.

Lemma empty_disk_wf : disk_wf empty_disk.
Proof. apply disk_checked_wf. vm_compute. reflexivity. Qed.

Lemma create_runs :
  match decode stored with
  | Ok r => match run (caller 100) (FileStateStore.create store r) [] empty_disk with
            | (Ok _, d, _) =>
              bool_decide (live d (FileStateStore.state_path store (SessionRecord.session_id r)) = Some stored)
            | _ => false
            end
  | Err _ => false
  end = true.
Proof. vm_compute. reflexivity. Qed.

(** The run, without its concrete disk. *)
Lemma created :
  ∃ r d, decode stored = Ok r
    ∧ run (caller 100) (FileStateStore.write_atomic store r false) [] empty_disk = (Ok tt, d, [])
    ∧ live d (FileStateStore.state_path store (SessionRecord.session_id r)) = Some stored.
Proof.
  pose proof create_runs as Hr. destruct (decode stored) as [r|e] eqn:Hd; [|done]. exists r.
  change (FileStateStore.create store r) with (FileStateStore.write_atomic store r false) in Hr.
  pose proof (run_rest (caller 100) (FileStateStore.write_atomic store r false) empty_disk) as Hrest.
  destruct (run (caller 100) (FileStateStore.write_atomic store r false) [] empty_disk)
    as [[[[]|e] d] rest]; [|done].
  cbn in Hrest. subst rest. apply bool_decide_eq_true in Hr.
  exists d. exact (conj eq_refl (conj eq_refl Hr)).
Qed.

Lemma written_is_durable_witness :
  ∃ r d bytes, encode r = Ok bytes
    ∧ live d (FileStateStore.state_path store (SessionRecord.session_id r)) = Some bytes
    ∧ ∀ v, may_hold d (FileStateStore.state_path store (SessionRecord.session_id r)) v → v = Some bytes.
Proof.
  destruct created as (r & d & _ & Hrun & _). exists r, d.
  exact (written_is_durable _ _ _ _ _ _ _ _ empty_disk_wf Hrun).
Defined.

Lemma write_is_atomic_witness :
  ∃ r d, may_hold empty_disk (FileStateStore.state_path store (SessionRecord.session_id r)) (Some stored)
    ∨ ∃ bytes, encode r = Ok bytes ∧ Some stored = Some bytes
    ∧ live d (FileStateStore.state_path store (SessionRecord.session_id r)) = Some stored.
Proof.
  destruct created as (r & d & _ & Hrun & Hl). exists r, d.
  assert (may_hold d (FileStateStore.state_path store (SessionRecord.session_id r)) (Some stored)) as Hv
    by (by apply live_may_hold).
  destruct (write_is_atomic _ _ _ _ _ _ _ _ empty_disk_wf (run_steps _ _ _ _ _ _ _ Hrun) Hv)
    as [?|(bytes & ? & ?)]; [by left|right; eauto].
Defined.

Lemma file_store_refines_map_witness :
  ∃ r d, disk_wf d
    ∧ StoreOp.spec (StoreOp.Create r) (strays store empty_disk) (view store empty_disk) (Ok tt) (view store d)
    ∧ strays store d ≡ₚ strays store empty_disk.
Proof.
  destruct created as (r & d & Hd & Hrun & _). exists r, d.
  exact (file_store_refines_map _ _ (StoreOp.Create r) _ _ _ _ _ empty_disk_wf
           (proj1 (decode_valid _ _ Hd)) Hrun).
Defined.

(** ** The lock *)

Lemma live_owner_strong : ProcessIdentity.strong live_owner.
Proof. split; [done|]. vm_compute. discriminate. Qed.

Lemma lock_owner_round_trip_witness :
  parse_lock_owner (encode_lock_owner live_owner) = Ok live_owner
  ∧ N.of_nat (length (encode_lock_owner live_owner)) ≤ 256.
Proof. apply (lock_owner_round_trip live_owner); [done|done|exact live_owner_strong]. Defined.

(** Process 100 acquires the lock; process 101 contends. *)
Lemma acquire_runs :
  match run (caller 100) (FileSessionLock.acquire run_lock) [] empty_disk with
  | (Ok g, d, _) => bool_decide (live d (join run_root LOCK_NAME) = Some (encode_lock_owner live_owner))
  | _ => false
  end = true.
Proof. vm_compute. reflexivity. Qed.

Definition others : Pool (Result FileSessionLockGuard.t) :=
  [(caller 101, FileSessionLock.acquire run_lock)].

Lemma others_contend w p :
  (w, p) ∈ others → ∃ policy, p = FileSessionLock.acquire (FileSessionLock.mk run_root policy).
Proof. intros [[= -> ->]|[]%elem_of_nil]%elem_of_cons. by eexists. Qed.

Lemma acquired_lock_is_exclusive_witness :
  ∃ g d d' ts' owner, rtc pool_step (others, d) (ts', d')
    ∧ owner.(ProcessIdentity.pid) = 100
    ∧ (∀ v, may_hold d (join run_root LOCK_NAME) v → v = Some (encode_lock_owner owner))
    ∧ pinned (join run_root LOCK_NAME) (File.ino (FileSessionLockGuard.file g)) (encode_lock_owner owner) d'
    ∧ ∀ w r, (w, Ret r) ∈ ts' → is_ok r = false.
Proof.
  pose proof acquire_runs as Hr.
  destruct (run (caller 100) (FileSessionLock.acquire run_lock) [] empty_disk) as [[[g|e] d] rest] eqn:Hrun;
    [|done].
  pose proof (pool_run_steps (repeat 0%nat 20) (others, d)) as Hs.
  destruct (pool_run (repeat 0%nat 20) (others, d)) as [ts' d'].
  destruct (acquired_lock_is_exclusive (caller 100) run_root RuntimeStatePolicy.root_owned [] empty_disk
              g d rest others ts' d' empty_disk_wf eq_refl ltac:(done) ltac:(done) Hrun others_contend Hs)
    as (owner & ? & ? & ? & ?).
  exists g, d, d', ts', owner. split_and!; assumption.
Defined.

(** A lock file that was created and never written excludes everyone. *)
Definition torn_disk : Disk.t := disk_with (Some []).

Lemma torn_disk_holds : Holding {[join run_root LOCK_NAME := (5, [])]} torn_disk.
Proof.
  split; [apply disk_checked_wf; vm_compute; reflexivity|].
  intros p i l [<- [= <- <-]]%lookup_singleton_Some. split; [done|]. eexists. split; [reflexivity|done].
Qed.

Lemma held_lock_excludes_witness :
  ∃ ts' d', rtc pool_step (others, torn_disk) (ts', d')
    ∧ pinned (join run_root LOCK_NAME) 5 [] d' ∧ ∀ w r, (w, Ret r) ∈ ts' → is_ok r = false.
Proof.
  pose proof (pool_run_steps (repeat 0%nat 20) (others, torn_disk)) as Hs.
  destruct (pool_run (repeat 0%nat 20) (others, torn_disk)) as [ts' d']. exists ts', d'.
  split; [exact Hs|].
  exact (held_lock_excludes run_root _ 5 [] _ _ _ _ torn_disk_holds (lookup_singleton_eq _ _) I
           others_contend Hs).
Defined.
