(* ===== verification/DiscoveryWitnesses.v ===== *)
(** * Discovery at concrete inputs

    A host with one CPU policy, the same host with an empty energy
    preference, and a graphics card whose name no path can hold. *)
From Stdlib Require Import Strings.Byte Strings.Ascii.
From S2P Require Import Prelude Lists Text Str Ids Capability Mutation Decision Policy.
From S2P Require Import Ports FileSystem CgroupSysfs ReadPorts ReadPortsLaws Cpu Discovery.
From S2P Require Import DiscoveryState DiscoveryLaws DiscoveryStateLaws.
Local Open Scope N_scope.

Module SmallDiscovery.
Definition files (l : list (string * string)) : FixtureFilesystem.t :=
  foldl (λ fs '(file, text),
    FixtureFilesystem.set_fixture_value (RelativePath.mk file) (bytes_of_string text) true fs)
    FixtureFilesystem.new l.
Definition observed_at : Timestamp.t := Timestamp.mk 7.
Definition policy (energy : string) : list (string * string) :=
  [("devices/system/cpu/cpufreq/policy0/scaling_governor", " performance ");
   ("devices/system/cpu/cpufreq/policy0/scaling_available_governors", "powersave performance");
   ("devices/system/cpu/cpufreq/policy0/energy_performance_preference", energy);
   ("devices/system/cpu/cpufreq/policy0/scaling_min_freq", "800000");
   ("devices/system/cpu/cpufreq/policy0/scaling_max_freq", "many")].
Definition procfs : FixtureFilesystem.t := files [("sys/kernel/osrelease", "6.9-test"); ("1/comm", "systemd")].
Definition sources (sysfs : list (string * string)) : DiscoverySources.t :=
  DiscoverySources.new (FixtureFilesystem.port (files sysfs)) (FixtureFilesystem.port procfs).

Definition plain : DiscoverySources.t := sources (policy "balance_power").
Definition silent : DiscoverySources.t := sources (policy "").
Definition odd_card : DiscoverySources.t := sources [("class/drm/card0:1/uevent", "DRIVER=i915")].

(** The report of a run that returns. *)
Definition report_of (s : DiscoverySources.t) :
    match discover_at s observed_at with Some _ => DiscoveryReport.t | None => unit end :=
  match discover_at s observed_at as o return match o with Some _ => DiscoveryReport.t | None => unit end with
  | Some r => r
  | None => tt
  end.
Definition report : DiscoveryReport.t := Eval vm_compute in report_of plain.
Definition silent_report : DiscoveryReport.t := Eval vm_compute in report_of silent.
Lemma run : discover_at plain observed_at = Some report.
Proof. by vm_compute. Qed.
Lemma silent_run : discover_at silent observed_at = Some silent_report.
Proof. by vm_compute. Qed.

Definition state_of : match current_state report with Some (Ok _) => CurrentState.t | _ => unit end :=
  match current_state report as o return match o with Some (Ok _) => CurrentState.t | _ => unit end with
  | Some (Ok s) => s
  | _ => tt
  end.
Definition state : CurrentState.t := Eval vm_compute in state_of.
Lemma state_run : current_state report = Some (Ok state).
Proof. by vm_compute. Qed.
End SmallDiscovery.
Import SmallDiscovery.

(** What was read and parsed is available, the rest is not. *)
Example discovered_states :
  (λ d, (d.(CapabilityDescriptor.id).(CapabilityId.as_str), d.(CapabilityDescriptor.state)))
    <$> report.(DiscoveryReport.inventory).(CapabilityInventory.capabilities)
  = [("cgroup.cpu.max", CapabilityState.Unsupported); ("cgroup.cpu.weight", CapabilityState.Unsupported);
     ("cgroup.cpuset.cpus", CapabilityState.Unsupported);
     ("cpu.policy.boost", CapabilityState.Unsupported);
     ("cpu.policy.energy_preference", CapabilityState.Available);
     ("cpu.policy.frequency.max", CapabilityState.Indeterminate);
     ("cpu.policy.frequency.min", CapabilityState.Available);
     ("cpu.policy.governor", CapabilityState.Available);
     ("platform.profile", CapabilityState.Unsupported)].
Proof. by vm_compute. Qed.

(** A card whose name has a colon stops discovery. *)
Example odd_card_panics : discover odd_card (FixedClock.new observed_at) = None.
Proof. by vm_compute. Qed.

Lemma inventory_never_overstates_witness :
  (∃ described,
     report.(DiscoveryReport.inventory).(CapabilityInventory.capabilities) ≡ₚ described
     ∧ Forall2 truthful (filter (has_id PLANNED) report.(DiscoveryReport.findings)) described)
  ∧ CapabilityState.Available
    ∈ CapabilityDescriptor.state <$> report.(DiscoveryReport.inventory).(CapabilityInventory.capabilities).
Proof.
  split; [exact (inventory_never_overstates plain observed_at report run)|].
  apply (bool_decide_unpack _). vm_compute. exact I.
Defined.

(** An empty energy preference: discovery returns, the projection panics. *)
Lemma projection_panics_iff_witness :
  discover_at silent observed_at = Some silent_report ∧ current_state silent_report = None.
Proof.
  split; [exact silent_run|]. apply (projection_panics_iff silent observed_at silent_report silent_run).
  left. apply Exists_cons_hd. exists "". split; [reflexivity|]. split; reflexivity.
Defined.

Lemma performance_read :
  file_text (DiscoverySources.sysfs plain) (policy_file 0 "scaling_governor") "performance".
Proof. exists (bytes_of_string " performance "), " performance ". split_and!; by vm_compute. Qed.

Lemma governor_facts_exact_witness :
  ∃ f, f ∈ state.(CurrentState.facts) ∧ governor_fact (DiscoverySources.sysfs plain) 0 "performance" f.
Proof.
  apply (proj2 (governor_facts_exact plain observed_at report state run state_run));
    [|exact performance_read|reflexivity].
  apply (bool_decide_unpack _). vm_compute. exact I.
Defined.

(** ** A rooted adapter *)

Module SmallRoot.
Definition node (file_type : FileType.t) : io Metadata.t := Ok (Metadata.mk file_type 0 0 420 1 8 9).
Definition root : Path := ["sys"].
Definition adapter : RootedFilesystem.t := RootedFilesystem.mk root.
Definition host (secret : string) : Host.t :=
  Host.mk
    (<[["sys"] := node FileType.Directory]>
       (<[["value"; "sys"] := node FileType.File]>
          (<[["alias"; "sys"] := node FileType.Symlink]> (<[["secret"] := node FileType.File]> ∅))))
    (<[["secret"] := Ok (bytes_of_string secret)]> (<[["value"; "sys"] := Ok (bytes_of_string "1")]> ∅))
    ∅ ∅ 1.
Definition view (secret : string) : HostView.t := HostView.mk (host secret) Ok (λ _, 1) (λ _, "error").
#[global] Instance view_laws secret : HostViewLaws.t (view secret).
Proof. split. intros p q [= <-]. reflexivity. Qed.

Lemma views_agree a b : agree_below root (view a) (view b).
Proof.
  split; [done..| |done|done]. intros p Hp. unfold Host.read. cbn.
  destruct (decide (p = ["secret"])) as [->|Hne]; [by vm_compute in Hp|].
  by rewrite !(lookup_insert_ne _ ["secret"] p) by congruence.
Qed.
End SmallRoot.

(** Through the adapter two hosts look alike whose file outside the root
    differs, and a link below the root is refused. *)
Lemma rooted_adapter_confined_witness :
  rooted_read (SmallRoot.view "a") SmallRoot.adapter (RelativePath.mk "value") = Ok (bytes_of_string "1")
  ∧ rooted_read (SmallRoot.view "a") SmallRoot.adapter (RelativePath.mk "value")
    = rooted_read (SmallRoot.view "b") SmallRoot.adapter (RelativePath.mk "value")
  ∧ is_ok (rooted_read (SmallRoot.view "a") SmallRoot.adapter (RelativePath.mk "alias")) = false.
Proof.
  split; [by vm_compute|]. split; [|by vm_compute].
  apply (rooted_adapter_confined (SmallRoot.view "a") (SmallRoot.view "b") SmallRoot.root "value"
           (RelativePath.mk "value") eq_refl eq_refl (SmallRoot.views_agree "a" "b")).
Defined.
